(* ===== verification/_CoqProject ===== *)
-Q . S2P
Prelude.v
Text.v
Crypto.v
Sign.v
Token.v
Machine.v
RowMachine.v
Attempt.v
SubAttempt.v
Json.v
IJson.v
Broker.v
Contract.v
Lifecycle.v
Keys.v
Dsse.v
Toy.v
Proposal.v
RiskCard.v
Profile.v
Introduction.v
Evidence.v
Capability.v
Gate.v
Inert.v
Control.v
WorkOrder.v
Envelope.v
AuditLog.v
Delivery.v
Db.v
Handler.v
Chars.v
Http.v
StoreMeta.v
StorePeers.v
Introduce.v
StoreInbox.v
StoreContracts.v
StoreAttempts.v
StoreRequester.v
StoreCalls.v
StoreCoord.v
Readers.v
StoreReach.v
CoordEgress.v
Coord.v
Daemon.v
Results.v
Receive.v
Server.v
Identity.v
Dial.v
Mutual.v
BrokerCall.v
Channel.v
Sandbox.v
WorkerRun.v
WorkerChannel.v
A2aClient.v
Send.v
