(* ===== verification/Prelude.v ===== *)
(** * Akson: a verification of the durable core and of the daemon's decisions

    Akson lets two daemons of different operators delegate work to each other:
    the operators import each other's identity roots, one side proposes a
    contract, the other accepts it, runs it once under a work order, and hands
    back a signed result, while a coordination surface lets a driver program stage
    an outgoing disclosure that the operator consents to. Every rule that must
    survive a crash, a retry or a hostile peer is decided by pure functions, by
    the transactions of one SQLite store ([crates/akson-store]) and by the
    handlers of the daemon ([crates/aksond]) that compose them. This library
    models these layers and proves what they promise.

    ** Parts of the program and the files that model them

    Foundations:
    - [Prelude]: Rust's [Result], fixed-width integers in [Z] with their wrapping
      casts, bytes, the rows-of-a-table operations ([WHERE], [UPDATE], [DELETE],
      [ORDER BY]) with their lemmas, shared tactics. [Text]: characters, case and
      decimal text. [Chars]: UTF-8 decoding with replacement, white space, decimal
      numbers read and written.
    - [Crypto], [Sign]: the code that is not in the repository, as type classes
      with laws (SHA-256, HMAC, XChaCha20-Poly1305, Ed25519, serde_json, base64,
      hex, the RFC 8785 canonicalizer). Collision resistance and unforgeability
      are never assumed: a theorem that needs them ends in "or here is a
      collision". [Toy] and the instances in these files show each class can be
      met and let every witness run.
    - [Machine], [RowMachine]: the interface of a state machine with a terminal
      predicate, a rank and a text column, and what the compare-and-swap on such
      a column may do; [Attempt] (akson-authority/src/attempt.rs) and [SubAttempt]
      (akson-broker/src/subattempt.rs) are its instances.

    Protocol objects:
    - [Json], [IJson]: JSON values and the strict reader of akson-ext/src/ijson.rs.
    - [Keys]: akson-crypto/src/keypair.rs, jwk.rs, jws.rs. [Token]: token.rs, the
      identity token with its Bech32m checksum. [Dsse]: akson-ext/src/dsse.rs,
      namespace.rs and the schema registry of schema.rs.
    - [Contract], [Proposal], [RiskCard]: akson-contract: the contract data and its
      revision chain; payload parsing, expiry, input manifests, extraction,
      proposals, decisions and reception; the risk card an operator reads.
    - [Profile]: akson-proto/src/profile.rs and card_sig.rs.
    - [Lifecycle], [Introduction]: akson-pairing: the peer lifecycle; key-binding
      records, proofs of possession and the introduction transcript.
    - [Evidence]: akson-evidence: result manifests, slots, outcomes, in-toto
      statements, SARIF.
    - [Capability], [WorkOrder]: akson-authority. [Broker]: akson-broker's egress
      gate, processor configuration and prepared call. [Gate], [Inert]:
      akson-worker's output gate, input staging and inert-content scan.

    The store:
    - [Envelope], [AuditLog], [Delivery]: akson-store/src/envelope.rs (sealing at
      rest), audit.rs (the hash chain), delivery.rs (covered values, content
      digest).
    - [Db]: the schema of akson-store/src/schema.rs after its last migration, one
      record per table, grouped by the part that owns it, and the transaction
      monad [M]: an operation returns its result and the new database, or an error
      and no database, as a dropped transaction does.
    - [StoreMeta], [StorePeers], [StoreInbox], [StoreContracts], [StoreAttempts],
      [StoreRequester], [StoreCalls], [StoreCoord]: the methods of [Store]
      (akson-store/src/lib.rs), one Definition per method, statement by
      statement: guards, early returns, [ON CONFLICT] clauses, audit records.
    - [StoreReach]: the store as a whole. Each operation is shown to read and
      write only its own part; the interleaved histories of all parts are the
      runs of [store_step].

    The daemon:
    - [Control]: aksond/src/control.rs and socket.rs: which surface carries which
      operation, and the connection handler.
    - [Handler]: the monad of handlers. A handler makes several store calls, each
      a transaction of its own, so an error does not undo the calls before it.
      [Readers]: what the read-only store calls of handlers leave unchanged.
    - [Identity]: keys.rs, the keys of one master seed, and what a daemon shows of
      itself (introduce.rs). [Introduce], [Dial]: introduce.rs, the responder and the
      dialer of an introduction; [Mutual] puts one against the other.
    - [Daemon]: decision.rs, issue.rs, approve.rs, control_dispatch.rs, reactor.rs.
    - [Results]: result.rs, delivery.rs, outcome.rs.
    - [CoordEgress], [Coord]: coord_egress.rs and coord.rs, the coordination
      surface: staging, consent, dispatch with its carriage, status, events,
      capability evidence, and the recipient's checks of a dispatch.
    - [Receive], [Server]: the receive path: akson-transport/src/ingress.rs,
      receive.rs, receive_http.rs, receive_server.rs, from the TLS fingerprint and
      the HTTP request to the answer, with the limiter of the anonymous routes.
    - [Http]: the bytes of the outbound requests and the reading of responses, and
      the HTTPS transport of broker.rs. [A2aClient]: a2a_client.rs, the POST to a
      peer with the time limits of its stages. [Send]: send.rs, the requester.
    - [BrokerCall]: broker.rs, a worker's processor call in its three phases, with
      other threads and crashes between them. [Channel]: broker_channel.rs.
    - [Sandbox]: akson-sandbox's launcher.rs, seccomp.rs, probe.rs and
      confinement.rs: from the grants of a work order to the command line that is
      started. [WorkerRun], [WorkerChannel]: worker_run.rs, one run of a worker
      from the work order to its submitted result, and the broker channel it has.

    ** What the theorems show

    - [StoreReach]: interleaving the parts adds nothing to what each part does
      alone, and in every reachable state all invariants hold and the audit chain
      verifies.
    - Disclosure ([StoreCoord]): a consent receipt authorizes one dispatch of
      exactly the digest consented to; the ledger backs every dispatch; a sent
      dispatch is final; the event feed loses and repeats nothing.
    - Execution ([Attempt], [StoreAttempts], [SubAttempt], [StoreCalls]): a work
      order or nonce is claimed once, stored states only move as the machines
      allow, results are final, a crash resolves to ambiguous, calls stay in budget
      and are dispatched once.
    - Relationships ([StorePeers], [Lifecycle], [Introduction], [Introduce]): no
      peer without a live import, no commit across a removal, suspension is sticky;
      whoever is introduced holds the imported root's key on this very session, at
      most one introduction per connection, refusals tell nothing; a dialer
      discloses itself only to the imported root, one secret has one role, the card
      an endpoint shows passes the bar it sets, and two daemons that imported each
      other become peers of each other ([Mutual.mutual_introduction]).
    - Delivery and contracts ([Proposal], [StoreInbox], [StoreContracts]): what
      exactly is received, at most one effect per message, the stored head refines
      the pure chain, acceptance is final.
    - Authority ([Daemon], [Capability], [WorkOrder]): a decision locks what it
      signs, a work order carries no more than was approved, standing approvals
      stay within the operator's policy.
    - Results ([Gate], [Inert], [Evidence], [Results], [StoreRequester]): outputs
      stay within their grants, a manifest binds them, a result leaves only for the
      origin, and a requester accepts only a solicited, complete, authentic result
      that it then holds.
    - Coordination ([CoordEgress], [Coord]): one staging is disclosed once, only
      with a receipt and only to the staged recipient's pinned endpoint; the surface
      reads nothing but its own tables, the peers and the clock, changes nothing but
      its own tables and the clock, and to the audit log only appends; what a
      recipient admits under a digest is what was consented to.
    - Receiving ([Receive], [Server]): a request acts for the root its certificate
      is pinned to, or for nobody; a repetition changes nothing and is answered from
      the record; the anonymous routes are limited. Both directions are composed end
      to end: a consented dispatch is acknowledged by its recipient, a Task that is
      sent is submitted at the performer with its inputs ([Send.task_delegated]),
      and a completed result is accepted by the requester.
    - Going out ([BrokerCall], [Http], [A2aClient], [Send]): a processor call is
      recorded before it leaves, leaves at most once for its key, and its record
      says what happened; a request's head is not ended early by its static headers
      (a path or a credential with a line end ends it, [Http.line_ends_split]); a
      response is read as it was written and is bounded; a POST to a peer ends in time.
    - Workers ([Sandbox], [WorkerRun], [Channel], [WorkerChannel]): an order is
      started once, in the boundary of its grants (and, under the shell's and the
      adapter's filter, without a call that makes or connects a socket), and what comes back is gated and
      inert; every request that leaves in a worker's conversation was authorized by
      its own order in the state the conversation had then, and carries the
      credential of its processor.
    - Encodings ([Token], [IJson], [Keys], [Dsse]): codecs as exact
      characterizations, round trips, and domain separation of signatures.
    - A few theorems state what the code does where a comment says otherwise
      ([Daemon.approval_strands], [Inert.inert_gaps],
      [StoreAttempts.completion_beside_machine], [StorePeers.remove_peer_by_name],
      [Broker.special_addresses_pass], [StoreCoord.stage_may_dispatch_twice],
      [Evidence.assembly_keeps_ties], [RiskCard.approval_overcounts],
      [Receive.replay_exact], [Http.limit_exceeded], [Http.line_ends_split],
      [Send.second_lost]).

    ** Conventions and bounds

    Integers are [Z]; [as_i64] and [as_u64] are the wrapping casts of the code and
    stand wherever the code casts. A table is a [gmap] from its primary key, the
    append-only tables ([audit], [coord_events]) are lists in sequence order; a
    unique column other than the key is checked where the code's statement would
    meet the constraint. [LIMIT 1] without an order picks some matching row. Random
    nonces and keys are arguments. Almost every recursion is on a list or a tree;
    a few loops over text ([Inert.trim], the entity decoder of [Inert],
    [Dsse.boundary_below], [Http.dechunk]) have as fuel the length of their input,
    of which each turn consumes at least a byte; the theorems on them hold for that
    fuel. What the network, the file system, another thread or
    another process does is an argument: a result per stage, a list of reads, a
    function on the database at each point where the store's lock is free. A
    hypothesis on a nonce's length or on [aead_limit] says that sealing stayed
    within the cipher's domain.

    Every store operation runs in one immediate transaction, so histories are
    sequences of whole operations; a crash between two statements leaves the state
    before the operation. Texts of errors that end up in a detail field are a
    parameter where nothing reads them back.

    ** Not modelled

    SQLite itself and its migrations from older schema versions; the cryptographic
    primitives, X.509, the JSON tokenizer, the schema validator, the RFC 3339 and
    URL parsers, the generated protobuf types (parameters of the model); sockets,
    TLS, the accept loops and their deadlines; the cgroup, mount, namespace and
    Landlock system calls of [akson-sandbox]; the start-up of the daemon
    (bootstrap.rs, main.rs), which reads files and environment and spawns threads
    around the handlers modelled here; the command line, the MCP server, the adapters and the adapter SDK, which are
    clients of the daemon's socket. *)
From Stdlib Require Export ZArith Lia Ascii String.
From stdpp Require Export base gmap strings list sorting.

(** ** Results

    Rust's [Result<A, E>], with the [?] operator as monadic bind. *)

Inductive result (E A : Type) : Type :=
| Ok (a : A)
| Err (e : E).
Arguments Ok {E A} a.
Arguments Err {E A} e.

#[global] Instance result_ret {E} : MRet (result E) := fun A a => Ok a.

#[global] Instance result_bind {E} : MBind (result E) :=
  fun A B f r => match r with Ok a => f a | Err e => Err e end.

#[global] Instance result_eq_dec {E A} `{EqDecision E, EqDecision A} : EqDecision (result E A).
Proof. solve_decision. Defined.

Definition is_ok {E A} (r : result E A) : bool :=
  match r with Ok _ => true | Err _ => false end.

(** [Option::ok_or]. *)
Definition ok_or {E A} (o : option A) (e : E) : result E A :=
  match o with Some a => Ok a | None => Err e end.

Lemma ok_or_Ok {E A} (o : option A) (e : E) a : ok_or o e = Ok a <-> o = Some a.
Proof. destruct o; simpl; split; congruence. Qed.

Lemma rbind_Ok {E A B} (m : result E A) (f : A -> result E B) b : m ≫= f = Ok b <-> exists a, m = Ok a /\ f a = Ok b.
Proof. destruct m as [a|e]; cbn; naive_solver. Qed.

(** ** Machine integers

    [u64]/[u32]/[i64] values are kept in [Z]; [as_i64] and [as_u64] are Rust's
    wrapping [as] casts between the two 64-bit types. *)

Definition u64_max : Z := 2 ^ 64 - 1.
Definition u32_max : Z := 2 ^ 32 - 1.
Definition i64_max : Z := 2 ^ 63 - 1.
Definition i64_min : Z := - 2 ^ 63.

Definition in_u64 (z : Z) : Prop := (0 <= z <= u64_max)%Z.
Definition in_i64 (z : Z) : Prop := (i64_min <= z <= i64_max)%Z.

Definition as_i64 (z : Z) : Z := ((z + 2 ^ 63) mod 2 ^ 64 - 2 ^ 63)%Z.
Definition as_u64 (z : Z) : Z := (z mod 2 ^ 64)%Z.

Lemma as_i64_small z : in_i64 z -> as_i64 z = z.
Proof.
  unfold in_i64, as_i64, i64_min, i64_max. intros.
  rewrite Z.mod_small; lia.
Qed.

Lemma as_i64_in z : in_i64 (as_i64 z).
Proof. unfold in_i64, as_i64, i64_min, i64_max. pose proof (Z.mod_pos_bound (z + 2 ^ 63) (2 ^ 64)). lia. Qed.

Lemma as_u64_as_i64 z : in_u64 z -> as_u64 (as_i64 z) = z.
Proof.
  unfold in_u64, as_u64, as_i64, u64_max. intros.
  rewrite Zminus_mod_idemp_l.
  replace (z + 2 ^ 63 - 2 ^ 63)%Z with z by lia.
  rewrite Z.mod_small; lia.
Qed.

Lemma as_i64_negative z : (2 ^ 63 <= z <= u64_max)%Z -> (as_i64 z < 0)%Z.
Proof.
  unfold as_i64, u64_max. intros.
  replace (z + 2 ^ 63)%Z with (z - 2 ^ 63 + 1 * 2 ^ 64)%Z by lia.
  rewrite Z.mod_add by lia. rewrite Z.mod_small; lia.
Qed.

(** ** Bytes

    A byte is an [ascii]; Rust's [String] is Rocq's [string], whose UTF-8 bytes
    are its characters, and [Vec<u8>]/[&[u8]] are lists of bytes. *)

Abbreviation byte := ascii (only parsing).
Abbreviation bytes := (list ascii) (only parsing).

Definition byte_of_Z (z : Z) : byte := ascii_of_N (Z.to_N (z mod 256)).
Definition byte_to_Z (b : byte) : Z := Z.of_N (N_of_ascii b).

Definition as_bytes (s : string) : bytes := list_ascii_of_string s.
Definition from_utf8 (b : bytes) : string := string_of_list_ascii b.

(** [to_be_bytes] for an integer of [n] bytes (two's complement for the signed
    types: [mod] takes care of the sign). *)
Fixpoint to_be_bytes (n : nat) (z : Z) : bytes :=
  match n with
  | O => []
  | S n => to_be_bytes n (z / 256) ++ [byte_of_Z z]
  end.

Definition from_be_bytes (l : bytes) : Z :=
  foldl (fun acc b => acc * 256 + byte_to_Z b)%Z 0%Z l.

Lemma from_utf8_as_bytes s : from_utf8 (as_bytes s) = s.
Proof. apply string_of_list_ascii_of_string. Qed.

#[global] Instance as_bytes_inj : Inj (=) (=) as_bytes.
Proof. intros s t H. rewrite <- (from_utf8_as_bytes s), H. apply from_utf8_as_bytes. Qed.

Lemma length_as_bytes s : length (as_bytes s) = String.length s.
Proof. induction s; simpl; unfold as_bytes in *; simpl; congruence. Qed.

Lemma as_bytes_app s t : as_bytes (s +:+ t) = as_bytes s ++ as_bytes t.
Proof. induction s as [|c s IH]; [done|]. unfold as_bytes in *. simpl. by rewrite IH. Qed.

Lemma as_bytes_from_utf8 b : as_bytes (from_utf8 b) = b.
Proof. apply list_ascii_of_string_of_list_ascii. Qed.

Lemma byte_of_to_Z b : byte_of_Z (byte_to_Z b) = b.
Proof. by destruct b as [[] [] [] [] [] [] [] []]. Qed.

Lemma byte_to_Z_inj a b : byte_to_Z a = byte_to_Z b -> a = b.
Proof. intros H. rewrite <- (byte_of_to_Z a), H. apply byte_of_to_Z. Qed.

Lemma byte_to_Z_of_Z z : byte_to_Z (byte_of_Z z) = (z mod 256)%Z.
Proof.
  unfold byte_to_Z, byte_of_Z.
  pose proof (Z.mod_pos_bound z 256 ltac:(lia)).
  rewrite N_ascii_embedding by lia. lia.
Qed.

Lemma length_to_be_bytes n z : length (to_be_bytes n z) = n.
Proof. revert z; induction n; intros; simpl; [done|]. rewrite length_app, IHn. simpl; lia. Qed.

Lemma from_to_be_bytes n z : from_be_bytes (to_be_bytes n z) = (z mod 256 ^ Z.of_nat n)%Z.
Proof.
  revert z; induction n as [|n IH]; intros z; [by rewrite Z.mod_1_r|].
  cbn [to_be_bytes]. unfold from_be_bytes in *. rewrite foldl_app. cbn [foldl].
  rewrite IH, byte_to_Z_of_Z, Nat2Z.inj_succ, Z.pow_succ_r by lia.
  rewrite (Z.rem_mul_r z 256) by lia. lia.
Qed.

Lemma to_be_bytes_inj n x y :
  to_be_bytes n x = to_be_bytes n y -> (x mod 256 ^ Z.of_nat n = y mod 256 ^ Z.of_nat n)%Z.
Proof. intros H. rewrite <- !from_to_be_bytes. by rewrite H. Qed.

Lemma not_or_and (A B : Prop) : ~ (A \/ B) -> ~ A /\ ~ B.
Proof. tauto. Qed.

(** Splitting equal concatenations whose first parts have the same length. *)
Lemma app_inj_length {A} (a b c d : list A) :
  length a = length c -> a ++ b = c ++ d -> a = c /\ b = d.
Proof. intros. by apply app_inj_1. Qed.

(** ** Text order: SQLite's [BINARY] collation compares the bytes of two texts. *)

Abbreviation text_le := String.le.

(** Rust's [Vec::sort] on strings and [ORDER BY] on a text column. *)
Definition sort_text : list string -> list string := merge_sort text_le.

Lemma sort_text_perm l : sort_text l ≡ₚ l.
Proof. apply merge_sort_Permutation. Qed.

Lemma sort_text_sorted l : StronglySorted text_le (sort_text l).
Proof. apply Sorted_StronglySorted; [apply _|]. apply (Sorted_merge_sort _ _). Qed.

(** ** Finite-map facts shared by the tables *)

Section tables.
Context `{Countable K} {V : Type}.

(** [SELECT ... WHERE p]: the matching rows of a table with their keys. *)
Definition rows_where (p : K -> V -> bool) (m : gmap K V) : list (K * V) :=
  List.filter (fun kv => p kv.1 kv.2) (map_to_list m).

(** [SELECT COUNT( * ) ... WHERE p]. *)
Definition count_where (p : K -> V -> bool) (m : gmap K V) : nat :=
  length (rows_where p m).

(** [DELETE ... WHERE p]: keeps the rows that do not match. *)
Definition delete_where (p : K -> V -> bool) (m : gmap K V) : gmap K V :=
  filter (fun kv => p kv.1 kv.2 = false) m.

(** [UPDATE ... SET f WHERE p]. *)
Definition update_where (p : K -> V -> bool) (f : V -> V) (m : gmap K V) : gmap K V :=
  map_imap (fun k v => Some (if p k v then f v else v)) m.

Lemma alter_as_insert (f : V -> V) (m : gmap K V) k v :
  m !! k = Some v -> alter f k m = <[k := f v]> m.
Proof.
  intros Hk. apply map_eq. intros j. destruct (decide (j = k)) as [->|Hne].
  - by rewrite lookup_alter_eq, Hk, lookup_insert_eq.
  - by rewrite lookup_alter_ne, lookup_insert_ne.
Qed.

Lemma elem_of_rows_where p (m : gmap K V) k v :
  (k, v) ∈ rows_where p m <-> m !! k = Some v /\ p k v = true.
Proof.
  unfold rows_where. rewrite list_elem_of_In, filter_In, <- list_elem_of_In.
  by rewrite elem_of_map_to_list.
Qed.

Lemma lookup_delete_where p (m : gmap K V) k :
  delete_where p m !! k = match m !! k with
                          | Some v => if p k v then None else Some v
                          | None => None
                          end.
Proof.
  unfold delete_where. destruct (m !! k) as [v|] eqn:E.
  - destruct (p k v) eqn:Ep.
    + apply map_lookup_filter_None. right. intros x Hx. simplify_eq/=. congruence.
    + by apply map_lookup_filter_Some.
  - apply map_lookup_filter_None. by left.
Qed.

Lemma lookup_update_where p f (m : gmap K V) k :
  update_where p f m !! k = (fun v => if p k v then f v else v) <$> m !! k.
Proof. unfold update_where. rewrite map_lookup_imap. by destruct (m !! k). Qed.

Lemma count_where_zero p (m : gmap K V) :
  count_where p m = 0 <-> forall k v, m !! k = Some v -> p k v = false.
Proof.
  unfold count_where. split.
  - intros Hl k v Hk. destruct (p k v) eqn:E; [|done].
    assert ((k, v) ∈ rows_where p m) as Hin by by apply elem_of_rows_where.
    apply nil_length_inv in Hl. rewrite Hl in Hin. by apply not_elem_of_nil in Hin.
  - intros Hn. destruct (rows_where p m) as [|[k v] l] eqn:E; [done|].
    assert ((k, v) ∈ rows_where p m) as Hin by (rewrite E; left).
    apply elem_of_rows_where in Hin as [Hk Hp]. rewrite (Hn k v Hk) in Hp. done.
Qed.

Lemma update_where_none p f (m : gmap K V) : count_where p m = 0 -> update_where p f m = m.
Proof.
  rewrite count_where_zero. intros Hn. apply map_eq. intros k. rewrite lookup_update_where.
  destruct (m !! k) as [v|] eqn:E; [|done]. simpl. by rewrite (Hn _ _ E).
Qed.

(** A condition only the row at [k] can meet. *)
Lemma update_where_at p f (m : gmap K V) k v :
  m !! k = Some v -> p k v = true -> (forall j w, p j w = true -> j = k) ->
  update_where p f m = <[k := f v]> m.
Proof.
  intros Hk Hp Hu. apply map_eq. intros j. rewrite lookup_update_where.
  destruct (decide (j = k)) as [->|Hne].
  - rewrite Hk, lookup_insert_eq. simpl. by rewrite Hp.
  - rewrite lookup_insert_ne by done. destruct (m !! j) as [w|]; [|done]. simpl.
    destruct (p j w) eqn:E; [by apply Hu in E|done].
Qed.

Lemma rows_where_insert p (m : gmap K V) k v :
  m !! k = None ->
  rows_where p (<[k := v]> m) ≡ₚ (if p k v then [(k, v)] else []) ++ rows_where p m.
Proof.
  intros Hk. unfold rows_where.
  assert (forall l l' : list (K * V), l ≡ₚ l' ->
    List.filter (fun kv => p kv.1 kv.2) l ≡ₚ List.filter (fun kv => p kv.1 kv.2) l') as Hperm.
  { induction 1; simpl.
    - done.
    - destruct (p _ _); [by constructor|done].
    - destruct (p _ _), (p _ _); solve [done | by constructor].
    - by etrans. }
  rewrite (Hperm _ _ (map_to_list_insert m k v Hk)). simpl. by destruct (p k v).
Qed.

Lemma count_where_insert p (m : gmap K V) k v :
  m !! k = None ->
  count_where p (<[k := v]> m) = (if p k v then 1 else 0) + count_where p m.
Proof.
  intros Hk. unfold count_where. rewrite (rows_where_insert p m k v Hk), length_app.
  by destruct (p k v).
Qed.

Lemma count_where_at p (m : gmap K V) k :
  (forall j w, p j w = true -> j = k) ->
  count_where p m = match m !! k with Some v => if p k v then 1 else 0 | None => 0 end.
Proof.
  intros Hu. destruct (m !! k) as [v|] eqn:E.
  - rewrite <- (insert_delete_id _ _ _ E), count_where_insert by apply lookup_delete_eq.
    assert (count_where p (delete k m) = 0) as ->; [|by destruct (p k v)].
    apply count_where_zero. intros j w Hj. destruct (p j w) eqn:Ep; [|done].
    apply Hu in Ep as ->. by rewrite lookup_delete_eq in Hj.
  - apply count_where_zero. intros j w Hj. destruct (p j w) eqn:Ep; [|done].
    apply Hu in Ep as ->. congruence.
Qed.
End tables.

(** [ORDER BY] the primary key of a text-keyed table, and [LIMIT 1] of it. *)
Definition key_le {V} (a b : string * V) : Prop := text_le a.1 b.1.

#[global] Instance key_le_dec {V} : RelDecision (@key_le V).
Proof. intros a b. unfold key_le. apply _. Defined.

Definition sorted_rows {V} (p : string -> V -> bool) (m : gmap string V) : list (string * V) :=
  merge_sort key_le (rows_where p m).

Definition first_row {V} (p : string -> V -> bool) (m : gmap string V) : option (string * V) :=
  head (sorted_rows p m).

Lemma elem_of_sorted_rows {V} p (m : gmap string V) k v :
  (k, v) ∈ sorted_rows p m <-> m !! k = Some v /\ p k v = true.
Proof. unfold sorted_rows. rewrite merge_sort_Permutation. apply elem_of_rows_where. Qed.

#[global] Instance key_le_total {V} : Total (@key_le V).
Proof. intros a b. apply (total text_le). Qed.

Lemma sorted_rows_keys {V} p (m : gmap string V) : Sorted text_le (fst <$> sorted_rows p m).
Proof.
  unfold sorted_rows. induction (Sorted_merge_sort (@key_le V) (rows_where p m)) as [|a l Hl IH Ha];
    [constructor|]. constructor; [done|]. by destruct Ha; constructor.
Qed.

Lemma first_row_Some {V} p (m : gmap string V) k v :
  first_row p m = Some (k, v) -> m !! k = Some v /\ p k v = true.
Proof.
  unfold first_row. intros H. apply elem_of_sorted_rows.
  destruct (sorted_rows p m); simplify_eq/=. by left.
Qed.

Lemma first_row_None {V} p (m : gmap string V) :
  first_row p m = None <-> forall k v, m !! k = Some v -> p k v = false.
Proof.
  unfold first_row. split.
  - intros H k v Hk. destruct (p k v) eqn:E; [|done].
    assert ((k, v) ∈ sorted_rows p m) as Hin by by apply elem_of_sorted_rows.
    destruct (sorted_rows p m); [by apply not_elem_of_nil in Hin|done].
  - intros H. destruct (sorted_rows p m) as [|[k v] l] eqn:E; [done|].
    assert ((k, v) ∈ sorted_rows p m) as [Hk Hp]%elem_of_sorted_rows by (rewrite E; left).
    rewrite (H k v Hk) in Hp. done.
Qed.

(** ** Automation *)

Create HintDb akson.
Create Rewrite HintDb akson.
#[export] Hint Rewrite @lookup_insert_eq @lookup_delete_eq @lookup_empty
  @lookup_delete_where @lookup_update_where : akson.

(** Case analysis on every match in sight, closing the absurd branches. *)
Ltac case_all :=
  repeat (case_match; simplify_eq/=; try done).

(** Unfolds the monadic plumbing of [result] computations. *)
Ltac unfold_result := unfold mbind, mret, result_bind, result_ret in *.
