(* ===== verification/Text.v ===== *)
(** Texts and separators: decimal rendering ([to_string] of an unsigned integer), and
    when a concatenation around a separator determines its parts. *)
From S2P Require Import Prelude.
From stdpp Require Export pretty.

(** [n.to_string()] of an unsigned integer. *)
Definition to_string (n : N) : string := pretty n.

Definition digit (c : byte) : bool := (48 <=? byte_to_Z c)%Z && (byte_to_Z c <=? 57)%Z.

Lemma pretty_N_go_digits x s :
  Forall (fun c => digit c = true) (as_bytes s) ->
  Forall (fun c => digit c = true) (as_bytes (pretty_N_go x s)).
Proof.
  revert s. induction (N.lt_wf_0 x) as [x _ IH]; intros s Hs.
  destruct (decide (x = 0%N)) as [->|Hx]; [by rewrite pretty_N_go_0|].
  rewrite pretty_N_go_step by lia. apply IH; [apply N.div_lt; lia|].
  constructor; [|done]. unfold pretty_N_char. by repeat case_match.
Qed.

Lemma to_string_digits n : Forall (fun c => digit c = true) (as_bytes (to_string n)).
Proof.
  unfold to_string, pretty, pretty_N. destruct (decide _); [by repeat constructor|].
  apply pretty_N_go_digits. constructor.
Qed.

Lemma not_in_digits c n : digit c = false -> c ∉ as_bytes (to_string n).
Proof. intros Hc Hin. pose proof (to_string_digits n) as H. rewrite Forall_forall in H. apply H in Hin. congruence. Qed.

#[global] Instance to_string_inj : Inj (=) (=) to_string.
Proof. apply pretty_N_inj. Qed.

(** The first separator of two equal texts. *)
Lemma sep_first_inj {A} (c : A) a b a' b' :
  c ∉ a -> c ∉ a' -> a ++ c :: b = a' ++ c :: b' -> a = a' /\ b = b'.
Proof.
  revert a'. induction a as [|d a IH]; intros [|d' a'] Hn Hn' H; simplify_eq/=; try set_solver.
  destruct (IH a') as [-> ->]; set_solver.
Qed.

(** The last separator of two equal texts. *)
Lemma sep_last_inj {A} (c : A) a b a' b' :
  c ∉ b -> c ∉ b' -> a ++ c :: b = a' ++ c :: b' -> a = a' /\ b = b'.
Proof.
  intros Hn Hn' H. apply (f_equal reverse) in H. rewrite !reverse_app, !reverse_cons, <- !app_assoc in H.
  apply sep_first_inj in H as [H1 H2]; [|by rewrite elem_of_reverse..].
  apply (inj reverse) in H1, H2. done.
Qed.

(** [slice::join] of strings. *)
Fixpoint join (sep : string) (l : list string) : string :=
  match l with
  | [] => ""
  | [s] => s
  | s :: l => s +:+ sep +:+ join sep l
  end.
