(* ===== verification/Crypto.v ===== *)
(** The cryptographic primitives the program takes from third-party crates
    ([sha2], [hmac], [chacha20poly1305], [base64], [serde_json]), as interfaces.

    None of this code is in the repository, so each primitive is a field of a
    class and the development is parametric in it; the laws are the documented
    behaviour the program relies on.  Nothing assumes that a hash has no
    collisions: the theorems that need it exhibit the collision instead.  The
    [Toy*] instances at the end satisfy the laws with executable functions; they
    serve the witnesses. *)
From S2P Require Import Prelude.

(** [sha2::Sha256] and [hmac::Hmac<Sha256>]: 32-byte digests. *)
Class Hashes := {
  sha256 : bytes -> bytes;
  hmac_sha256 : bytes -> bytes -> bytes;
  sha256_length : forall x, length (sha256 x) = 32;
  hmac_length : forall k x, length (hmac_sha256 k x) = 32;
}.

(** [chacha20poly1305::XChaCha20Poly1305]: [encrypt] fails only on a message
    beyond the cipher's limit; [decrypt] inverts it under the same key, nonce
    and associated data. *)
Class Aead := {
  aead_limit : Z;
  aead_encrypt : bytes -> bytes -> bytes -> bytes -> option bytes;
  aead_decrypt : bytes -> bytes -> bytes -> bytes -> option bytes;
  aead_encrypt_fits : forall key nonce aad msg,
    (Z.of_nat (length msg) <= aead_limit)%Z ->
    is_Some (aead_encrypt key nonce aad msg);
  aead_decrypt_encrypt : forall key nonce aad msg ct,
    aead_encrypt key nonce aad msg = Some ct ->
    aead_decrypt key nonce aad ct = Some msg;
}.

(** A [serde] codec: serialization of a Rust value and its inverse. *)
Class Codec (A : Type) := {
  encode : A -> bytes;
  decode : bytes -> option A;
  decode_encode : forall a, decode (encode a) = Some a;
}.

(** [base64::engine::general_purpose::STANDARD]. *)
Class Base64 := {
  b64_encode : bytes -> string;
  b64_decode : string -> option bytes;
  b64_decode_encode : forall b, b64_decode (b64_encode b) = Some b;
  b64_alphabet : forall b c, c ∈ as_bytes (b64_encode b) ->
    c <> ","%char /\ c <> ":"%char /\ c <> " "%char;
}.

(** [hex]: lower-case encoding; decoding accepts both cases, so only this
    direction of the round trip holds. *)
Class Hex := {
  hex_encode : bytes -> string;
  hex_decode : string -> option bytes;
  hex_decode_encode : forall b, hex_decode (hex_encode b) = Some b;
}.

(** [json_canon::to_vec]: RFC 8785 bytes of a value, or a serialization error.
    Nothing is assumed of it, injectivity included: it renders numbers as IEEE
    doubles. *)
Class Canon (A : Type) := { to_canon : A -> option bytes }.

(** Two distinct inputs with one digest: what a forged chain must exhibit. *)
Definition sha256_collision `{Hashes} : Prop :=
  exists x y, x <> y /\ sha256 x = sha256 y.

Definition hmac_collision `{Hashes} (key : bytes) : Prop :=
  exists x y, x <> y /\ hmac_sha256 key x = hmac_sha256 key y.

(** ** Executable instances for the witnesses *)

Definition xor_byte (a b : byte) : byte :=
  let 'Ascii a0 a1 a2 a3 a4 a5 a6 a7 := a in let 'Ascii b0 b1 b2 b3 b4 b5 b6 b7 := b in
  Ascii (xorb a0 b0) (xorb a1 b1) (xorb a2 b2) (xorb a3 b3) (xorb a4 b4) (xorb a5 b5) (xorb a6 b6) (xorb a7 b7).

(** One byte into a rotating register. *)
Definition roll (st : bytes) (b : byte) : bytes := match st with [] => [] | h :: t => t ++ [xor_byte h b] end.

Definition toy_digest (x : bytes) : bytes := fold_left roll x (repeat zero 32).

Lemma length_toy_digest x : length (toy_digest x) = 32.
Proof.
  unfold toy_digest. assert (forall st, length st = 32 -> length (fold_left roll x st) = 32) as H; [|by apply H].
  induction x as [|b x IH]; intros [|h t] Hst; cbn [fold_left roll]; try done; apply IH. rewrite length_app. cbn in *. lia.
Qed.

Definition ToyHashes : Hashes := {|
  sha256 := toy_digest;
  hmac_sha256 := fun k x => toy_digest (k ++ x);
  sha256_length := length_toy_digest;
  hmac_length := fun k x => length_toy_digest (k ++ x);
|}.

Definition toy_encrypt (key nonce aad msg : bytes) : option bytes :=
  Some (key ++ nonce ++ aad ++ msg).

Definition toy_decrypt (key nonce aad ct : bytes) : option bytes :=
  let p := key ++ nonce ++ aad in
  if decide (take (length p) ct = p) then Some (drop (length p) ct) else None.

Lemma toy_decrypt_encrypt key nonce aad msg ct :
  toy_encrypt key nonce aad msg = Some ct -> toy_decrypt key nonce aad ct = Some msg.
Proof.
  unfold toy_encrypt, toy_decrypt. intros [= <-].
  rewrite !app_assoc, decide_True by apply take_app_length.
  by rewrite drop_app_length.
Qed.

Definition ToyAead : Aead := {|
  aead_limit := 2 ^ 38;
  aead_encrypt := toy_encrypt;
  aead_decrypt := toy_decrypt;
  aead_encrypt_fits := fun k n a m _ => mk_is_Some _ _ eq_refl;
  aead_decrypt_encrypt := toy_decrypt_encrypt;
|}.

(** A self-delimiting wire format, from which codecs are built. *)
Class Wire (A : Type) := {
  put : A -> bytes;
  get : bytes -> option (A * bytes);
  get_put : forall a rest, get (put a ++ rest) = Some (a, rest);
}.

Fixpoint put_bytes (l : bytes) : bytes :=
  match l with [] => ["."%char] | c :: l => "-"%char :: c :: put_bytes l end.

Fixpoint get_bytes (l : bytes) : option (bytes * bytes) :=
  match l with
  | m :: l => if decide (m = "."%char) then Some ([], l)
              else match l with
                   | c :: l => '(b, r) ← get_bytes l; Some (c :: b, r)
                   | [] => None
                   end
  | [] => None
  end.

#[global] Instance wire_bytes : Wire bytes.
Proof.
  refine {| put := put_bytes; get := get_bytes |}.
  intros l rest. induction l as [|c l IH]; [done|]. simpl. by rewrite IH.
Defined.

(** A type that embeds in one with a wire format has one. *)
Definition wire_inj {A B} `{!Wire B} (f : A -> B) (g : B -> A) (Hg : forall a, g (f a) = a) : Wire A.
Proof.
  refine {| put := fun a => put (f a); get := fun l => '(b, r) ← get l; Some (g b, r) |}.
  intros a rest. rewrite get_put. simpl. by rewrite Hg.
Defined.

#[global] Instance wire_string : Wire string := wire_inj as_bytes from_utf8 from_utf8_as_bytes.

#[global] Instance wire_prod {A B} `{!Wire A, !Wire B} : Wire (A * B).
Proof.
  refine {| put := fun p => put p.1 ++ put p.2;
            get := fun l => '(a, l) ← get l; '(b, l) ← get l; Some ((a, b), l) |}.
  intros [a b] rest. rewrite <- app_assoc, get_put. simpl. by rewrite get_put.
Defined.

#[global] Instance wire_option {A} `{!Wire A} : Wire (option A).
Proof.
  refine {| put := fun o => match o with Some a => "+"%char :: put a | None => ["."%char] end;
            get := fun l => match l with
              | m :: l => if decide (m = "+"%char) then '(a, l) ← get l; Some (Some a, l)
                          else Some (None, l)
              | [] => None end |}.
  intros [a|] rest; [|done]. simpl. by rewrite get_put.
Defined.

#[global] Instance wire_sum {A B} `{!Wire A, !Wire B} : Wire (A + B).
Proof.
  refine {| put := fun o => match o with inl a => "l"%char :: put a | inr b => "r"%char :: put b end;
            get := fun l => match l with
              | m :: l => if decide (m = "l"%char) then '(a, l) ← get l; Some (inl a, l)
                          else '(b, l) ← get l; Some (inr b, l)
              | [] => None end |}.
  intros [a|b] rest; simpl; by rewrite get_put.
Defined.

Fixpoint put_list {A} `{!Wire A} (l : list A) : bytes :=
  match l with [] => ["."%char] | a :: l => "+"%char :: put a ++ put_list l end.

Fixpoint get_list {A} `{!Wire A} (fuel : nat) (l : bytes) : option (list A * bytes) :=
  match fuel, l with
  | S fuel, m :: l => if decide (m = "+"%char)
                      then '(a, l) ← get l; '(x, l) ← get_list fuel l; Some (a :: x, l)
                      else Some ([], l)
  | _, _ => None
  end.

Lemma get_put_list {A} `{!Wire A} (l : list A) rest n :
  length l < n -> get_list n (put_list l ++ rest) = Some (l, rest).
Proof.
  revert n. induction l as [|a l IH]; intros [|n] Hn; simpl in *; [lia|done|lia|].
  rewrite <- app_assoc, get_put. simpl. by rewrite IH by lia.
Qed.

#[global] Instance wire_list {A} `{!Wire A} : Wire (list A).
Proof.
  refine {| put := put_list; get := fun l => get_list (length l) l |}.
  intros l rest. apply get_put_list. rewrite length_app.
  enough (length l < length (put_list l)) by lia.
  induction l as [|a l IH]; simpl; [lia|]. rewrite length_app. lia.
Defined.

Fixpoint put_pos (p : positive) : bytes :=
  match p with xH => ["."%char] | xO p => "0"%char :: put_pos p | xI p => "1"%char :: put_pos p end.

Fixpoint get_pos (l : bytes) : option (positive * bytes) :=
  match l with
  | c :: l => if decide (c = "."%char) then Some (xH, l)
              else '(p, l) ← get_pos l; Some (if decide (c = "0"%char) then xO p else xI p, l)
  | [] => None
  end.

#[global] Instance wire_Z : Wire Z.
Proof.
  refine {| put := fun z => match z with Z0 => ["z"%char] | Zpos p => "p"%char :: put_pos p
                                        | Zneg p => "n"%char :: put_pos p end;
            get := fun l => match l with
              | c :: l => if decide (c = "z"%char) then Some (0%Z, l)
                          else '(p, l) ← get_pos l;
                               Some (if decide (c = "p"%char) then Zpos p else Zneg p, l)
              | [] => None end |}.
  assert (forall p rest, get_pos (put_pos p ++ rest) = Some (p, rest)) as Hp.
  { intros p rest. induction p as [p IH|p IH|]; simpl; [by rewrite IH..|done]. }
  intros [|p|p] rest; simpl; [done|by rewrite Hp..].
Defined.

Definition ToyCodec (A : Type) `{!Wire A} : Codec A.
Proof.
  refine {| encode := put;
            decode := fun b => match get b with Some (a, []) => Some a | _ => None end |}.
  intros a. pose proof (get_put a []) as H. rewrite app_nil_r in H. by rewrite H.
Defined.

Definition ToyHex : Hex := {|
  hex_encode := from_utf8;
  hex_decode := fun s => Some (as_bytes s);
  hex_decode_encode := fun b => f_equal Some (as_bytes_from_utf8 b);
|}.

Definition ToyCanon (A : Type) `{!Wire A} : Canon A := {| to_canon := fun a => Some (put a) |}.
