(* ===== verification/Sign.v ===== *)
(** Ed25519 signatures ([ed25519_dalek]) as an interface: the scheme is not in the
    repository, so its operations are parameters with the laws the program relies on.
    Unforgeability is never assumed. *)
From S2P Require Import Prelude Crypto.

(** Seeds and public keys have 32 bytes, signatures 64. [from_bytes] is
    [VerifyingKey::from_bytes(..).is_ok()]; [verify_strict] refuses weak keys. *)
Class Ed25519 := {
  public_key : bytes -> bytes;
  sign_bytes : bytes -> bytes -> bytes;
  key_decodes : bytes -> bool;
  key_is_weak : bytes -> bool;
  verify_strict : bytes -> bytes -> bytes -> bool;
  public_key_length : forall seed, length (public_key seed) = 32;
  sign_length : forall seed msg, length (sign_bytes seed msg) = 64;
  public_key_usable : forall seed,
    key_decodes (public_key seed) = true /\ key_is_weak (public_key seed) = false;
  verify_sign : forall seed msg, verify_strict (public_key seed) msg (sign_bytes seed msg) = true;
  verify_strong : forall key msg sig,
    verify_strict key msg sig = true -> key_decodes key = true /\ key_is_weak key = false;
}.

(** The test of [decode_token] and of the card verifier:
    [from_bytes(k).map(|vk| !vk.is_weak()).unwrap_or(false)]. *)
Definition key_usable `{Ed25519} (k : bytes) : bool := key_decodes k && negb (key_is_weak k).

Lemma public_key_is_usable `{Ed25519} seed : key_usable (public_key seed) = true.
Proof. unfold key_usable. by destruct (public_key_usable seed) as [-> ->]. Qed.

(** ** An executable instance for the witnesses: keys are 32-byte reductions of the
    seed, the signature is a digest of key and message, twice. The all-zero key is
    weak. *)

Definition toy_mac (k m : bytes) : bytes :=
  let d := toy_digest (k ++ m) in d ++ d.

Definition toy_key (seed : bytes) : bytes := "k"%char :: take 31 (toy_digest seed).

Definition toy_key_ok (k : bytes) : bool :=
  bool_decide (length k = 32) && bool_decide (head k <> Some "000"%char).

Lemma toy_key_fine seed : toy_key_ok (toy_key seed) = true.
Proof.
  unfold toy_key_ok, toy_key. cbn [length head]. by rewrite length_take, length_toy_digest.
Qed.

Definition ToyEd25519 : Ed25519.
Proof.
  refine {| public_key := toy_key;
            sign_bytes := fun seed m => toy_mac (toy_key seed) m;
            key_decodes := toy_key_ok;
            key_is_weak := fun _ => false;
            verify_strict := fun k m s => toy_key_ok k && bool_decide (s = toy_mac k m) |}.
  - intros seed. unfold toy_key. cbn [length]. by rewrite length_take, length_toy_digest.
  - intros. unfold toy_mac. by rewrite length_app, !length_toy_digest.
  - intros seed. split; [|done]. apply toy_key_fine.
  - intros seed msg. by rewrite toy_key_fine, bool_decide_true.
  - intros key msg sig [? _]%andb_true_iff. done.
Defined.
