(* ===== verification/Token.v ===== *)
(** Identity tokens (akson-crypto/src/token.rs): the bech32m string that carries an
    endpoint's root key out of band, its checksum arithmetic and the regrouping of
    bits. *)
From S2P Require Import Prelude Sign.

Module Token.

Definition TOKEN_VERSION : Z := 1.
Definition TOKEN_HRP : string := "akson".
Definition MAX_TOKEN_CHARS : nat := 90.
Definition CHARSET : bytes := as_bytes "qpzry9x8gf2tvdw0s3jn54khce6mua7l".
Definition BECH32M_CONST : Z := 0x2bc830a3.

Record IdentityToken := mkToken { t_version : Z; root_key : bytes }.

Inductive TokenError :=
| TooLong | MixedCase | BadHrp | BadChar (pos : nat) | BadChecksum | UnknownVersion (v : Z)
| BadLength | WeakKey.

(** ** Characters *)

Definition is_ascii (c : byte) : bool := (byte_to_Z c <? 128)%Z.
Definition is_lower (c : byte) : bool := (97 <=? byte_to_Z c)%Z && (byte_to_Z c <=? 122)%Z.
Definition is_upper (c : byte) : bool := (65 <=? byte_to_Z c)%Z && (byte_to_Z c <=? 90)%Z.
Definition to_lower (c : byte) : byte := if is_upper c then byte_of_Z (byte_to_Z c + 32) else c.

(** [iter().position(p)]. *)
Fixpoint position {A} (p : A -> bool) (l : list A) : option nat :=
  match l with
  | [] => None
  | x :: l => if p x then Some 0 else S <$> position p l
  end.

(** [str::rfind] of a character: the last index. *)
Fixpoint rfind (c : byte) (l : bytes) : option nat :=
  match l with
  | [] => None
  | d :: l => match rfind c l with
              | Some i => Some (S i)
              | None => if decide (d = c) then Some 0 else None
              end
  end.

(** [split_presentation]: the token and the routing hint after the last [@]. *)
Definition split_presentation (s : bytes) : bytes * option bytes :=
  match rfind "@"%char s with
  | Some i => let hint := drop (S i) s in
              (take i s, if decide (hint = []) then None else Some hint)
  | None => (s, None)
  end.

(** ** Checksum arithmetic: [u32] values in [Z] *)

Definition GEN : list Z := [0x3b6a57b2; 0x26508e6d; 0x1ea119fa; 0x3d4233dd; 0x2a1462b3]%Z.

(** The inner loop over [GEN.iter().enumerate()]. *)
Definition mix (b chk : Z) : Z :=
  foldl (fun chk '(i, g) => if (Z.land (Z.shiftr b i) 1 =? 1)%Z then Z.lxor chk g else chk) chk
    (zip [0; 1; 2; 3; 4]%Z GEN).

Definition polymod_step (chk v : Z) : Z :=
  mix (Z.shiftr chk 25) (Z.lxor (Z.shiftl (Z.land chk 0x1ffffff) 5) v).

Definition polymod (values : list Z) : Z := foldl polymod_step 1%Z values.

Definition hrp_expand (hrp : bytes) : list Z :=
  ((fun b => Z.shiftr (byte_to_Z b) 5) <$> hrp) ++ [0%Z] ++ ((fun b => Z.land (byte_to_Z b) 31) <$> hrp).

Definition checksum (hrp : bytes) (data : list Z) : list Z :=
  let pm := Z.lxor (polymod (hrp_expand hrp ++ data ++ replicate 6 0%Z)) BECH32M_CONST in
  (fun i => Z.land (Z.shiftr pm (5 * (5 - i))) 31) <$> [0; 1; 2; 3; 4; 5]%Z.

Definition verify_checksum (hrp : bytes) (data : list Z) : bool :=
  (polymod (hrp_expand hrp ++ data) =? BECH32M_CONST)%Z.

(** ** Regrouping; the accumulator is a [u32] and a shift drops its high bits *)

Definition as_u32 (z : Z) : Z := (z mod 2 ^ 32)%Z.

(** [while bits >= 5]: at most [bits] rounds. *)
Fixpoint drain (fuel : nat) (acc : Z) (bits : nat) : list Z * nat :=
  match fuel with
  | O => ([], bits)
  | S fuel =>
      if decide (5 <= bits) then
        let bits := bits - 5 in
        let '(out, bits') := drain fuel acc bits in
        (Z.land (Z.shiftr acc (Z.of_nat bits)) 31 :: out, bits')
      else ([], bits)
  end.

Fixpoint five_loop (l : bytes) (acc : Z) (bits : nat) : list Z * (Z * nat) :=
  match l with
  | [] => ([], (acc, bits))
  | b :: l =>
      let acc := Z.lor (as_u32 (Z.shiftl acc 8)) (byte_to_Z b) in
      let '(out, bits) := drain (bits + 8) acc (bits + 8) in
      let '(out', st) := five_loop l acc bits in (out ++ out', st)
  end.

Definition to_five_bit (l : bytes) : list Z :=
  let '(out, (acc, bits)) := five_loop l 0 0 in
  if decide (0 < bits) then out ++ [Z.land (as_u32 (Z.shiftl acc (Z.of_nat (5 - bits)))) 31] else out.

Fixpoint eight_loop (l : list Z) (acc : Z) (bits : nat) : bytes * (Z * nat) :=
  match l with
  | [] => ([], (acc, bits))
  | g :: l =>
      let acc := Z.lor (as_u32 (Z.shiftl acc 5)) g in
      let bits := bits + 5 in
      if decide (8 <= bits) then
        let bits := bits - 8 in
        let '(out, st) := eight_loop l acc bits in
        (byte_of_Z (Z.land (Z.shiftr acc (Z.of_nat bits)) 0xff) :: out, st)
      else eight_loop l acc bits
  end.

Definition to_eight_bit (l : list Z) : option bytes :=
  let '(out, (acc, bits)) := eight_loop l 0 0 in
  if decide (5 <= bits \/ Z.land acc (2 ^ Z.of_nat bits - 1) <> 0%Z) then None else Some out.

(** ** The codec *)

Definition encode_token (root_key : bytes) : bytes :=
  let payload := byte_of_Z TOKEN_VERSION :: root_key in
  let data := to_five_bit payload in
  as_bytes TOKEN_HRP ++ ["1"%char] ++
  ((fun d => nth (Z.to_nat d) CHARSET "q"%char) <$> data ++ checksum (as_bytes TOKEN_HRP) data).

(** The characters after the separator, as five-bit groups; [pos] is the position
    of the next one. *)
Fixpoint read_data (pos : nat) (l : bytes) : result TokenError (list Z) :=
  match l with
  | [] => Ok []
  | ch :: l =>
      v ← ok_or (position (fun c => bool_decide (c = ch)) CHARSET) (BadChar pos);
      vs ← read_data (S pos) l;
      Ok (Z.of_nat v :: vs)
  end.

Section decoding.
Context {ED : Ed25519}.

Definition decode_token (s : bytes) : result TokenError IdentityToken :=
  if decide (MAX_TOKEN_CHARS < length s) then Err TooLong else
  if negb (forallb is_ascii s)
  then Err (BadChar (default 0 (position (fun b => negb (is_ascii b)) s))) else
  if existsb is_lower s && existsb is_upper s then Err MixedCase else
  let s := to_lower <$> s in
  sep ← ok_or (rfind "1"%char s) BadHrp;
  let hrp := take sep s in
  let rest := drop (S sep) s in
  if decide (length rest < 6) then Err BadChecksum else
  data ← read_data (sep + 1) rest;
  if negb (verify_checksum hrp data) then Err BadChecksum else
  if negb (bool_decide (hrp = as_bytes TOKEN_HRP)) then Err BadHrp else
  payload ← ok_or (to_eight_bit (take (length data - 6) data)) BadLength;
  match payload with
  | [] => Err BadLength
  | version :: key =>
      if negb (byte_to_Z version =? TOKEN_VERSION)%Z then Err (UnknownVersion (byte_to_Z version)) else
      if negb (bool_decide (length key = 32)) then Err BadLength else
      if key_usable key then Ok (mkToken (byte_to_Z version) key) else Err WeakKey
  end.
End decoding.

(** ** Bits of a value, most significant first *)

Fixpoint nbits (n : nat) (z : Z) : list bool :=
  match n with
  | O => []
  | S n => Z.testbit z (Z.of_nat n) :: nbits n z
  end.

Definition bits8 (l : bytes) : list bool := l ≫= (fun b => nbits 8 (byte_to_Z b)).
Definition bits5 (l : list Z) : list bool := l ≫= nbits 5.

Definition is_group (g : Z) : Prop := (0 <= g < 32)%Z.

Lemma bits5_cons g l : bits5 (g :: l) = nbits 5 g ++ bits5 l.
Proof. done. Qed.

Lemma bits8_cons b l : bits8 (b :: l) = nbits 8 (byte_to_Z b) ++ bits8 l.
Proof. done. Qed.

Lemma bits5_app a b : bits5 (a ++ b) = bits5 a ++ bits5 b.
Proof. apply bind_app. Qed.

Lemma length_nbits n z : length (nbits n z) = n.
Proof. induction n; simpl; congruence. Qed.

Lemma nbits_ext n x y :
  (forall i, (0 <= i < Z.of_nat n)%Z -> Z.testbit x i = Z.testbit y i) -> nbits n x = nbits n y.
Proof.
  induction n as [|n IH]; intros H; [done|]. cbn [nbits]. rewrite H, IH; [done| |lia].
  intros i Hi. apply H. lia.
Qed.

Lemma nbits_inj n x y :
  nbits n x = nbits n y -> forall i, (0 <= i < Z.of_nat n)%Z -> Z.testbit x i = Z.testbit y i.
Proof.
  induction n as [|n IH]; intros H i Hi; [lia|]. simpl in H. injection H as H1 H2.
  destruct (decide (i = Z.of_nat n)) as [->|]; [done|]. apply IH; [done|lia].
Qed.

Lemma nbits_app a b z : nbits (a + b) z = nbits a (Z.shiftr z (Z.of_nat b)) ++ nbits b z.
Proof.
  induction a as [|a IH]; [done|]. simpl. rewrite IH, Z.shiftr_spec by lia. do 3 f_equal. lia.
Qed.

(** Shifting in [k] fresh bits of [v] below the old ones, in a 32-bit accumulator. *)
Lemma nbits_push n k acc v :
  (0 <= v < 2 ^ Z.of_nat k)%Z -> n + k <= 32 ->
  nbits (n + k) (Z.lor (as_u32 (Z.shiftl acc (Z.of_nat k))) v) = nbits n acc ++ nbits k v.
Proof.
  intros Hv Hn. rewrite nbits_app. unfold as_u32.
  assert (forall i, (Z.of_nat k <= i)%Z -> Z.testbit v i = false) as Hhi.
  { intros i Hi. rewrite <- (Z.mod_small v (2 ^ Z.of_nat k)) by done. apply Z.mod_pow2_bits_high. lia. }
  f_equal; apply nbits_ext; intros i Hi.
  - rewrite Z.shiftr_spec, Z.lor_spec, (Hhi (i + Z.of_nat k)%Z), orb_false_r by lia.
    rewrite Z.mod_pow2_bits_low, Z.shiftl_spec by lia. f_equal. lia.
  - rewrite Z.lor_spec, Z.mod_pow2_bits_low, Z.shiftl_spec_low by lia. done.
Qed.

Lemma nbits_land n z m : n <= m -> nbits n (Z.land z (Z.ones (Z.of_nat m))) = nbits n z.
Proof. intros. apply nbits_ext. intros i Hi. rewrite Z.land_spec, Z.ones_spec_low by lia. apply andb_true_r. Qed.

Lemma nbits_eq n x y :
  (0 <= x < 2 ^ Z.of_nat n)%Z -> (0 <= y < 2 ^ Z.of_nat n)%Z -> nbits n x = nbits n y -> x = y.
Proof.
  intros Hx Hy H. rewrite <- (Z.mod_small x (2 ^ Z.of_nat n)), <- (Z.mod_small y (2 ^ Z.of_nat n)) by done.
  apply Z.bits_inj'. intros i Hi. destruct (decide (i < Z.of_nat n)%Z).
  - rewrite !Z.mod_pow2_bits_low by lia. apply (nbits_inj n); [done|lia].
  - rewrite !Z.mod_pow2_bits_high by lia. done.
Qed.

Lemma byte_bits_range b : (0 <= byte_to_Z b < 2 ^ Z.of_nat 8)%Z.
Proof. unfold byte_to_Z. pose proof (N_ascii_bounded b). simpl Z.of_nat. lia. Qed.

Lemma group_land z : is_group (Z.land z 31).
Proof. unfold is_group. change 31%Z with (Z.ones 5). rewrite Z.land_ones by lia. apply Z.mod_pos_bound. lia. Qed.

Lemma nbits_0 n : nbits n 0 = replicate n false.
Proof. induction n as [|n IH]; [done|]. cbn [nbits replicate]. by rewrite Z.bits_0, IH. Qed.

Lemma nbits_group n z : n <= 5 -> nbits n (Z.land z 31) = nbits n z.
Proof. apply (nbits_land n z 5). Qed.

Lemma nbits_octet n z : n <= 8 -> nbits n (Z.land z 255) = nbits n z.
Proof. apply (nbits_land n z 8). Qed.

(** A code whose words have one positive length is uniquely decodable. *)
Lemma words_inj {A B} (w : nat) (f : A -> list B) (P : A -> Prop) :
  0 < w -> (forall a, length (f a) = w) -> (forall a b, P a -> P b -> f a = f b -> a = b) ->
  forall l l', Forall P l -> Forall P l' -> l ≫= f = l' ≫= f -> l = l'.
Proof.
  intros Hw Hlen Hinj. induction l as [|a l IH]; intros [|b l'] Hl Hl' H; [done|..].
  - apply (f_equal length) in H. cbn in H. rewrite length_app, Hlen in H. lia.
  - apply (f_equal length) in H. cbn in H. rewrite length_app, Hlen in H. lia.
  - inversion_clear Hl. inversion_clear Hl'. cbn in H.
    apply app_inj_length in H as [Ha Hr]; [|by rewrite !Hlen]. f_equal; [by apply Hinj|by apply IH].
Qed.

Lemma length_words {A B} (w : nat) (f : A -> list B) l :
  (forall a, length (f a) = w) -> length (l ≫= f) = length l * w.
Proof. intros Hlen. induction l as [|a l IH]; [done|]. cbn. by rewrite length_app, Hlen, IH. Qed.

Lemma bits5_inj l l' : Forall is_group l -> Forall is_group l' -> bits5 l = bits5 l' -> l = l'.
Proof.
  apply words_inj with (w := 5); [lia|intros; apply length_nbits|].
  intros a b Ha Hb. by apply nbits_eq.
Qed.

Lemma bits8_inj l l' : bits8 l = bits8 l' -> l = l'.
Proof.
  apply (words_inj 8 _ (fun _ => True)); [lia|intros; apply length_nbits| |by apply Forall_true..].
  intros a b _ _ H. apply byte_to_Z_inj, (nbits_eq 8); [apply byte_bits_range..|done].
Qed.

Lemma drain_spec fuel acc bits out bits' :
  bits <= fuel -> drain fuel acc bits = (out, bits') ->
  nbits bits acc = bits5 out ++ nbits bits' acc /\ bits' < 5 /\ Forall is_group out.
Proof.
  revert bits out. induction fuel as [|fuel IH]; intros bits out Hf; cbn [drain].
  { intros [= <- <-]. repeat split; [lia|constructor]. }
  destruct (decide (5 <= bits)) as [Hb|Hb]; [|intros [= <- <-]; repeat split; [lia|constructor]].
  destruct (drain fuel acc (bits - 5)) as [o b'] eqn:E. intros [= <- <-].
  apply IH in E as (H1 & H2 & H3); [|lia]. split; [|split; [done|by constructor; [apply group_land|]]].
  replace bits with (5 + (bits - 5)) at 1 by lia.
  rewrite nbits_app, H1, bits5_cons, nbits_group by lia. by rewrite app_assoc.
Qed.

Lemma five_loop_spec l acc bits out acc' bits' :
  bits < 5 -> five_loop l acc bits = (out, (acc', bits')) ->
  nbits bits acc ++ bits8 l = bits5 out ++ nbits bits' acc' /\ bits' < 5 /\ Forall is_group out.
Proof.
  revert acc bits out. induction l as [|b l IH]; intros acc bits out Hb; cbn [five_loop].
  { intros [= <- <- <-]. by rewrite app_nil_r. }
  set (a := Z.lor _ _). destruct (drain (bits + 8) a (bits + 8)) as [o1 b1] eqn:E1.
  destruct (five_loop l a b1) as [o2 [a2 b2]] eqn:E2. intros [= <- <- <-].
  apply drain_spec in E1 as (H1 & Hb1 & Ho1); [|lia]. apply IH in E2 as (H2 & Hb2 & Ho2); [|done].
  split; [|split; [done|by apply Forall_app]].
  rewrite bits5_app, <- app_assoc, <- H2, app_assoc, <- H1.
  unfold a. change 8%Z with (Z.of_nat 8). rewrite nbits_push by (apply byte_bits_range || lia).
  by rewrite <- app_assoc.
Qed.

Lemma to_five_bit_spec l :
  Forall is_group (to_five_bit l) /\
  exists k, k < 5 /\ bits5 (to_five_bit l) = bits8 l ++ replicate k false.
Proof.
  unfold to_five_bit. destruct (five_loop l 0 0) as [out [acc bits]] eqn:E.
  apply five_loop_spec in E as (H & Hb & Ho); [|lia]. cbn [nbits app] in H.
  destruct (decide (0 < bits)) as [Hp|Hp].
  - split; [apply Forall_app; split; [done|constructor; [apply group_land|constructor]]|].
    exists (5 - bits). split; [lia|].
    rewrite bits5_app, H, <- app_assoc, bits5_cons, app_nil_r, nbits_group by lia. f_equal.
    rewrite <- (Z.lor_0_r (as_u32 _)). replace 5 with (bits + (5 - bits)) at 1 by lia.
    rewrite nbits_push by lia. by rewrite nbits_0.
  - split; [done|]. exists 0. replace bits with 0 in H by lia. cbn [nbits] in H.
    split; [lia|]. by rewrite H, !app_nil_r.
Qed.

Lemma eight_loop_spec l acc bits out acc' bits' :
  Forall is_group l -> bits < 8 -> eight_loop l acc bits = (out, (acc', bits')) ->
  nbits bits acc ++ bits5 l = bits8 out ++ nbits bits' acc' /\ bits' < 8.
Proof.
  revert acc bits out. induction l as [|g l IH]; intros acc bits out Hl Hb; cbn [eight_loop].
  { intros [= <- <- <-]. by rewrite app_nil_r. }
  inversion_clear Hl as [|? ? Hg Hl']. set (a := Z.lor _ _).
  assert (nbits bits acc ++ bits5 (g :: l) = nbits (bits + 5) a ++ bits5 l) as ->.
  { unfold a. change 5%Z with (Z.of_nat 5). rewrite nbits_push by (exact Hg || lia). by rewrite <- app_assoc. }
  destruct (decide (8 <= bits + 5)) as [H8|H8]; [|intros E; apply IH in E; [done|done|lia]].
  destruct (eight_loop l a (bits + 5 - 8)) as [o [a2 b2]] eqn:E. intros [= <- <- <-].
  apply IH in E as [H1 H2]; [|done|lia]. split; [|done].
  replace (bits + 5) with (8 + (bits + 5 - 8)) at 1 by lia. rewrite nbits_app, <- app_assoc, H1.
  rewrite bits8_cons, <- app_assoc. f_equal.
  rewrite byte_to_Z_of_Z. change 255%Z with (Z.ones 8). rewrite Z.land_ones by lia.
  apply nbits_ext. intros i Hi. change 256%Z with (2 ^ 8)%Z. by rewrite !Z.mod_pow2_bits_low by lia.
Qed.

Lemma nbits_zero_iff n z : Z.land z (2 ^ Z.of_nat n - 1) = 0%Z <-> nbits n z = replicate n false.
Proof.
  replace (2 ^ Z.of_nat n - 1)%Z with (Z.ones (Z.of_nat n)) by (rewrite Z.ones_equiv; lia). rewrite <- nbits_0. split.
  - intros H. rewrite <- (nbits_land n z n) by lia. by rewrite H.
  - intros H. rewrite Z.land_ones by lia. apply Z.bits_inj'. intros i Hi. rewrite Z.bits_0.
    destruct (decide (i < Z.of_nat n)%Z); [|apply Z.mod_pow2_bits_high; lia].
    rewrite Z.mod_pow2_bits_low by lia. rewrite (nbits_inj n z 0 H) by lia. apply Z.bits_0.
Qed.

(** The strict decoder accepts exactly whole bytes and a zero pad under five bits. *)
Lemma to_eight_bit_Some l out :
  Forall is_group l ->
  to_eight_bit l = Some out <-> exists k, k < 5 /\ bits5 l = bits8 out ++ replicate k false.
Proof.
  intros Hl. unfold to_eight_bit. destruct (eight_loop l 0 0) as [o [acc bits]] eqn:E.
  apply eight_loop_spec in E as [H Hb]; [|done|lia]. cbn [nbits app] in H. split.
  - destruct (decide _) as [|Hn]; [done|]. intros [= <-]. apply not_or_and in Hn as [H5 Hz].
    exists bits. split; [lia|]. rewrite H. f_equal. apply nbits_zero_iff.
    by destruct (decide (Z.land acc (2 ^ Z.of_nat bits - 1) = 0%Z)).
  - intros (k & Hk & H'). rewrite H in H'.
    assert (length o * 8 + bits = length out * 8 + k) as Hlen.
    { apply (f_equal length) in H'. rewrite !length_app, length_nbits, length_replicate in H'.
      unfold bits8 in H'. by rewrite !(length_words 8) in H' by (intros; apply length_nbits). }
    assert (bits = k) as -> by lia. apply app_inj_2 in H' as [->%bits8_inj Hz];
      [|by rewrite length_nbits, length_replicate].
    rewrite decide_False; [done|]. rewrite nbits_zero_iff. intros [?|Hc]; [lia|by apply Hc].
Qed.

(** Regrouping is a bijection between byte strings and the accepted groups. *)
Lemma eight_five l : to_eight_bit (to_five_bit l) = Some l.
Proof. destruct (to_five_bit_spec l) as [Hg Hk]. by apply to_eight_bit_Some. Qed.

Lemma five_eight l out : Forall is_group l -> to_eight_bit l = Some out -> to_five_bit out = l.
Proof.
  intros Hl (k & Hk & H)%to_eight_bit_Some; [|done].
  destruct (to_five_bit_spec out) as [Hg (k' & Hk' & H')].
  apply bits5_inj; [done..|]. rewrite H, H'. do 2 f_equal.
  apply (f_equal length) in H. apply (f_equal length) in H'.
  rewrite length_app, length_replicate in H, H'.
  unfold bits5 in H, H'. rewrite (length_words 5) in H, H' by (intros; apply length_nbits). lia.
Qed.

(** ** The checksum is linear over exclusive or *)

Ltac xor_bits :=
  apply Z.bits_inj'; intros ?i ?Hi; rewrite ?Z.lxor_spec, ?Z.land_spec, ?Z.lxor_spec, ?Z.bits_0;
  repeat match goal with |- context [Z.testbit ?x ?i] => destruct (Z.testbit x i) end; reflexivity.

Lemma bit_test b i : (0 <= i)%Z -> (Z.land (Z.shiftr b i) 1 =? 1)%Z = Z.testbit b i.
Proof.
  intros Hi. change 1%Z with (Z.ones 1). rewrite Z.land_ones by lia.
  rewrite <- (Z.add_0_l i), <- Z.shiftr_spec, <- Z.bit0_mod by lia. by destruct (Z.testbit _ 0).
Qed.

Lemma mix_lxor b b' c c' : mix (Z.lxor b b') (Z.lxor c c') = Z.lxor (mix b c) (mix b' c').
Proof.
  unfold mix. assert (Forall (fun p : Z * Z => 0 <= p.1)%Z (zip [0; 1; 2; 3; 4]%Z GEN)) as Hi
    by (repeat constructor; simpl; lia).
  revert c c'. induction Hi as [|[i g] l Hi _ IH]; intros c c'; [done|]. cbn [foldl].
  rewrite <- IH. f_equal. rewrite !bit_test, Z.lxor_spec by done.
  destruct (Z.testbit b i), (Z.testbit b' i); cbn [xorb]; xor_bits.
Qed.

Lemma polymod_step_lxor c d u v :
  polymod_step (Z.lxor c d) (Z.lxor u v) = Z.lxor (polymod_step c u) (polymod_step d v).
Proof.
  unfold polymod_step. rewrite <- mix_lxor, Z.shiftr_lxor. f_equal.
  replace (Z.land (Z.lxor c d) 0x1ffffff) with (Z.lxor (Z.land c 0x1ffffff) (Z.land d 0x1ffffff)) by xor_bits.
  rewrite Z.shiftl_lxor. xor_bits.
Qed.

Definition run (c : Z) (vs : list Z) : Z := foldl polymod_step c vs.

Lemma run_lxor vs ws c d :
  length vs = length ws -> run (Z.lxor c d) (zip_with Z.lxor vs ws) = Z.lxor (run c vs) (run d ws).
Proof.
  revert ws c d. unfold run. induction vs as [|v vs IH]; intros [|w ws] c d H; simplify_eq/=; [done|].
  by rewrite polymod_step_lxor, IH.
Qed.

Lemma lxor_range n a b :
  (0 <= a < 2 ^ n)%Z -> (0 <= b < 2 ^ n)%Z -> (0 <= Z.lxor a b < 2 ^ n)%Z.
Proof.
  intros Ha Hb. destruct (decide (0 <= n)%Z) as [Hn|Hn]; [|rewrite Z.pow_neg_r in Ha by lia; lia].
  assert (Z.lxor a b = Z.lxor a b mod 2 ^ n)%Z as ->; [|apply Z.mod_pos_bound; lia].
  apply Z.bits_inj'. intros i Hi. rewrite <- (Z.mod_small a (2 ^ n)), <- (Z.mod_small b (2 ^ n)) by done.
  destruct (decide (i < n)%Z).
  - by rewrite (Z.mod_pow2_bits_low (Z.lxor _ _)) by lia.
  - by rewrite Z.lxor_spec, !Z.mod_pow2_bits_high by lia.
Qed.

Definition is_state (c : Z) : Prop := (0 <= c < 2 ^ 30)%Z.

Lemma mix_state b c : is_state c -> is_state (mix b c).
Proof.
  unfold mix. assert (Forall (fun p : Z * Z => is_state p.2) (zip [0; 1; 2; 3; 4]%Z GEN)) as Hi
    by (repeat constructor; simpl; lia).
  revert c. induction Hi as [|[i g] l Hi _ IH]; intros c Hc; [done|]. cbn [foldl]. apply IH.
  destruct (_ =? 1)%Z; [by apply (lxor_range 30)|done].
Qed.

Lemma land_low c : Z.land c 0x1ffffff = (c mod 2 ^ 25)%Z.
Proof. apply (Z.land_ones c 25). lia. Qed.

Lemma polymod_step_state c v : is_group v -> is_state (polymod_step c v).
Proof.
  intros Hv. apply mix_state. rewrite land_low, Z.shiftl_mul_pow2 by lia.
  pose proof (Z.mod_pos_bound c (2 ^ 25)). unfold is_group in Hv. apply (lxor_range 30); lia.
Qed.

Lemma run_state c vs : is_state c -> Forall is_group vs -> is_state (run c vs).
Proof.
  intros Hc Hv. revert c Hc. unfold run. induction Hv; intros c Hc; [done|]. cbn [foldl].
  apply IHHv. by apply polymod_step_state.
Qed.

(** Below [2^25] nothing is reduced: the step shifts a digit in. *)
Lemma polymod_step_small c v :
  (0 <= c < 2 ^ 25)%Z -> is_group v -> polymod_step c v = (c * 32 + v)%Z.
Proof.
  intros Hc Hv. unfold polymod_step. rewrite land_low, Z.mod_small by done.
  rewrite Z.shiftr_div_pow2, Z.div_small, Z.shiftl_mul_pow2 by lia.
  change (mix 0 ?x) with x. symmetry. apply Z.add_nocarry_lxor.
  apply Z.bits_inj'. intros i Hi. rewrite Z.land_spec, Z.bits_0.
  destruct (decide (i < 5)%Z); [by rewrite Z.mul_pow2_bits_low by lia|].
  rewrite <- (Z.mod_small v (2 ^ 5)), (Z.mod_pow2_bits_high v) by (unfold is_group in Hv; lia). apply andb_false_r.
Qed.

Definition horner (c : Z) (vs : list Z) : Z := foldl (fun c v => c * 32 + v)%Z c vs.

Lemma run_small c vs :
  Forall is_group vs -> length vs <= 6 -> (0 <= c < 2 ^ (30 - 5 * Z.of_nat (length vs)))%Z ->
  run c vs = horner c vs /\ is_state (horner c vs).
Proof.
  intros Hv. revert c. unfold run, horner, is_state. induction Hv as [|v vs Hv Hvs IH]; intros c Hl Hc.
  { cbn in *. lia. }
  cbn [foldl length] in *.
  assert (2 ^ (30 - 5 * Z.of_nat (length vs)) = 32 * 2 ^ (30 - 5 * Z.of_nat (S (length vs))))%Z as Hp.
  { change 32%Z with (2 ^ 5)%Z. rewrite <- Z.pow_add_r by lia. f_equal. lia. }
  assert (2 ^ (30 - 5 * Z.of_nat (S (length vs))) <= 2 ^ 25)%Z by (apply Z.pow_le_mono_r; lia).
  rewrite polymod_step_small by (done || lia). unfold is_group in Hv. apply IH; lia.
Qed.

Lemma nbits_horner n c vs :
  Forall is_group vs -> nbits (n + length vs * 5) (horner c vs) = nbits n c ++ bits5 vs.
Proof.
  intros Hv. revert n c. unfold horner. induction Hv as [|v vs Hv Hvs IH]; intros n c.
  { cbn. by rewrite Nat.add_0_r, app_nil_r. }
  cbn [foldl length]. replace (n + S (length vs) * 5) with ((n + 5) + length vs * 5) by lia.
  rewrite IH, bits5_cons, app_assoc. f_equal. rewrite nbits_app. f_equal; apply nbits_ext; intros i Hi.
  - rewrite Z.shiftr_div_pow2 by lia. f_equal. unfold is_group in Hv.
    change (2 ^ Z.of_nat 5)%Z with 32%Z. rewrite Z.div_add_l, Z.div_small by lia. lia.
  - rewrite <- (Z.mod_pow2_bits_low (c * 32 + v) 5), Z.add_comm, Z.mod_add, Z.mod_pow2_bits_low by lia. done.
Qed.

Lemma horner_inj c vs ws :
  Forall is_group vs -> Forall is_group ws -> length vs = length ws ->
  horner c vs = horner c ws -> vs = ws.
Proof.
  intros Hv Hw Hl H. apply bits5_inj; [done..|].
  apply (app_inj_1 (nbits 0 c) (nbits 0 c)); [done|]. rewrite <- !nbits_horner by done. by rewrite H, Hl.
Qed.

Lemma horner_zeros n : horner 0 (replicate n 0%Z) = 0%Z.
Proof. unfold horner. induction n; [done|]. simpl. done. Qed.

Lemma run_zeros n : run 0 (replicate n 0%Z) = 0%Z.
Proof. unfold run. induction n; [done|]. simpl. done. Qed.

Lemma groups_zeros n : Forall is_group (replicate n 0%Z).
Proof. apply Forall_replicate. unfold is_group. lia. Qed.

(** The step is multiplication by an invertible element: from a non-zero state, zeros
    never lead to zero. *)
Lemma mix_low_bits h : is_group h -> Z.land (mix h 0) 31 = 0%Z -> h = 0%Z.
Proof.
  intros Hh Hm. assert (forallb (fun h => negb (Z.land (mix h 0) 31 =? 0)%Z || (h =? 0)%Z) (seqZ 0 32) = true)
    as Hall by (vm_compute; reflexivity).
  rewrite forallb_forall in Hall. specialize (Hall h). rewrite Hm in Hall. cbn in Hall.
  apply Z.eqb_eq, Hall. rewrite <- list_elem_of_In. apply elem_of_seqZ. unfold is_group in Hh. lia.
Qed.

Lemma polymod_step_zero c : is_state c -> polymod_step c 0 = 0%Z -> c = 0%Z.
Proof.
  unfold is_state, polymod_step. intros Hc. rewrite land_low, Z.lxor_0_r, Z.shiftl_mul_pow2, Z.shiftr_div_pow2 by lia.
  set (h := (c / 2 ^ 25)%Z). set (l := (c mod 2 ^ 25)%Z). intros H.
  rewrite <- (Z.lxor_0_r h), <- (Z.lxor_0_l (l * 2 ^ 5)), mix_lxor in H.
  change (mix 0 (l * 2 ^ 5)) with (l * 2 ^ 5)%Z in H. apply Z.lxor_eq in H.
  assert (h = 0%Z) as Hh.
  { apply mix_low_bits.
    - unfold is_group, h. split; [apply Z.div_pos; lia|apply Z.div_lt_upper_bound; lia].
    - rewrite H. rewrite (Z.land_ones _ 5), Z.mod_mul by lia. done. }
  rewrite Hh in H. change (mix 0 0) with 0%Z in H.
  pose proof (Z.div_mod c (2 ^ 25)). fold h l in H0. lia.
Qed.

Lemma run_zero c n : is_state c -> run c (replicate n 0%Z) = 0%Z -> c = 0%Z.
Proof.
  revert c. unfold run. induction n as [|n IH]; intros c Hc H; [done|]. simpl in H.
  apply polymod_step_zero; [done|]. apply IH; [|done]. apply polymod_step_state. unfold is_group. lia.
Qed.

Lemma zip_lxor_same l : zip_with Z.lxor l l = replicate (length l) 0%Z.
Proof. induction l as [|z l IH]; [done|]. simpl. by rewrite Z.lxor_nilpotent, IH. Qed.

Lemma zip_lxor_groups vs ws : Forall is_group vs -> Forall is_group ws -> Forall is_group (zip_with Z.lxor vs ws).
Proof.
  intros Hv. revert ws. induction Hv as [|v vs Hv _ IH]; intros ws Hw; [constructor|].
  destruct Hw as [|w ws Hw Hws]; constructor; [by apply (lxor_range 5)|by apply IH].
Qed.

Lemma zip_lxor_zero vs ws :
  length vs = length ws -> zip_with Z.lxor vs ws = replicate (length vs) 0%Z -> vs = ws.
Proof.
  revert ws. induction vs as [|v vs IH]; intros [|w ws] Hl H; [done..|].
  injection Hl as Hl. injection H as H1%Z.lxor_eq H2. by rewrite H1, (IH ws).
Qed.

Lemma syndrome_app c vs ws : run c (vs ++ ws) = run (run c vs) ws.
Proof. apply foldl_app. Qed.

(** Two runs that meet after a common suffix differ by no short burst. *)
Lemma run_burst c a b suf :
  is_state c -> Forall is_group a -> Forall is_group b -> Forall is_group suf ->
  length a = length b -> length a <= 6 ->
  run c (a ++ suf) = run c (b ++ suf) -> a = b.
Proof.
  intros Hc Ha Hb Hs Hl H6. rewrite !syndrome_app. intros H.
  assert (run c a = run c b) as Heq.
  { apply Z.lxor_eq. apply (run_zero _ (length suf)); [by apply (lxor_range 30); apply run_state|].
    rewrite <- zip_lxor_same, run_lxor, H by done. apply Z.lxor_nilpotent. }
  assert (Forall is_group (zip_with Z.lxor a b)) as Hz by by apply zip_lxor_groups.
  assert (length (zip_with Z.lxor a b) = length a) as Hlz by (rewrite length_zip_with; lia).
  apply zip_lxor_zero; [done|]. apply (horner_inj 0); [done|apply groups_zeros|by rewrite length_replicate|].
  rewrite horner_zeros. destruct (run_small 0 (zip_with Z.lxor a b)) as [<- _]; [done|lia|rewrite Hlz; lia|].
  pose proof (run_lxor a b c c Hl) as Hr. by rewrite Heq, !Z.lxor_nilpotent in Hr.
Qed.

(** [run_burst] for the symbols behind the prefix: a window of six characters of the
    whole string covers at most six symbols. *)
Lemma burst_window (pre : list Z) n k v w :
  Forall is_group pre -> Forall is_group v -> Forall is_group w -> length v = length w -> n <= 6 ->
  take k v = take k w -> drop (k + n) v = drop (k + n) w ->
  run 1 (pre ++ v) = run 1 (pre ++ w) -> v = w.
Proof.
  intros Hp Hv Hw Hl Hn Ht Hd. rewrite <- (take_drop k v), <- (take_drop k w), Ht.
  rewrite <- (take_drop n (drop k v)), <- (take_drop n (drop k w)), !drop_drop, Hd, !app_assoc.
  rewrite <- !(app_assoc _ _ (drop (k + n) w)), !(syndrome_app 1 (pre ++ take k w)). intros H.
  apply run_burst in H; [by rewrite H|..].
  - apply run_state; [unfold is_state; lia|]. apply Forall_app. by auto using Forall_take.
  - by auto using Forall_take, Forall_drop.
  - by auto using Forall_take, Forall_drop.
  - by auto using Forall_drop.
  - rewrite !length_take, !length_drop. lia.
  - rewrite length_take. lia.
Qed.

(** [HRP] bytes contribute three-bit and five-bit groups. *)
Lemma hrp_expand_groups hrp : Forall is_group (hrp_expand hrp).
Proof.
  unfold hrp_expand. rewrite !Forall_app, !Forall_fmap. repeat split.
  - apply Forall_true. intros b. cbn. rewrite Z.shiftr_div_pow2 by lia. pose proof (byte_bits_range b).
    cbn in H. split; [apply Z.div_pos; lia|apply Z.div_lt_upper_bound; lia].
  - repeat constructor; lia.
  - apply Forall_true. intros b. apply group_land.
Qed.

Lemma checksum_groups hrp data : Forall is_group (checksum hrp data) /\ length (checksum hrp data) = 6.
Proof. split; [|done]. unfold checksum. rewrite Forall_fmap. apply Forall_true. intros i. apply group_land. Qed.

Lemma polymod_state vs : Forall is_group vs -> is_state (polymod vs).
Proof. intros. apply run_state; [unfold is_state; lia|done]. Qed.

(** A checksum's six digits are those of the state it must cancel. *)
Lemma checksum_horner hrp data :
  Forall is_group data ->
  horner 0 (checksum hrp data) = Z.lxor (polymod (hrp_expand hrp ++ data ++ replicate 6 0%Z)) BECH32M_CONST.
Proof.
  intros Hd. set (vs := hrp_expand hrp ++ data ++ replicate 6 0%Z).
  assert (is_state (Z.lxor (polymod vs) BECH32M_CONST)) as Hpm.
  { apply (lxor_range 30); [|unfold BECH32M_CONST; lia]. apply polymod_state.
    unfold vs. rewrite !Forall_app. split; [apply hrp_expand_groups|split; [done|apply groups_zeros]]. }
  destruct (checksum_groups hrp data) as [Hg Hl].
  destruct (run_small 0 (checksum hrp data) Hg) as [_ Hs]; [lia|rewrite Hl; lia|].
  apply (nbits_eq 30); [done..|]. pose proof (nbits_horner 0 0 _ Hg) as Hn. rewrite Hl in Hn.
  change (0 + 6 * 5) with 30 in Hn. rewrite Hn, app_nil_l. unfold checksum. fold vs. set (pm := Z.lxor _ _).
  change 30 with (5 + (5 + (5 + (5 + (5 + 5))))). rewrite !nbits_app.
  cbn [fmap list_fmap]. rewrite !bits5_cons, !nbits_group by lia. by rewrite app_nil_r.
Qed.

(** The six symbols that make the checksum verify are [checksum]'s, and no others. *)
Lemma verify_checksum_iff hrp data c :
  Forall is_group data -> Forall is_group c -> length c = 6 ->
  verify_checksum hrp (data ++ c) = true <-> c = checksum hrp data.
Proof.
  intros Hd Hc Hl. unfold verify_checksum. rewrite Z.eqb_eq.
  assert (polymod (hrp_expand hrp ++ data ++ c) =
          Z.lxor (polymod (hrp_expand hrp ++ data ++ replicate 6 0%Z)) (horner 0 c)) as ->.
  { unfold polymod. fold (run 1). rewrite !app_assoc, !(syndrome_app 1).
    destruct (run_small 0 c) as [<- _]; [done|lia|rewrite Hl; lia|].
    rewrite <- run_lxor by (by rewrite Hl). rewrite Z.lxor_0_r. f_equal.
    do 7 (destruct c as [|? c]; try done). }
  destruct (checksum_groups hrp data) as [Hg Hgl]. split.
  - intros H. apply (horner_inj 0); [done..|congruence|]. rewrite checksum_horner by done.
    rewrite <- H, <- Z.lxor_assoc, Z.lxor_nilpotent, Z.lxor_0_l. done.
  - intros ->. rewrite checksum_horner by done. by rewrite <- Z.lxor_assoc, Z.lxor_nilpotent, Z.lxor_0_l.
Qed.

(** ** Characters and groups *)

Definition chr (d : Z) : byte := nth (Z.to_nat d) CHARSET "q"%char.

Lemma position_Some {A} (p : A -> bool) l i :
  position p l = Some i -> exists x, l !! i = Some x /\ p x = true.
Proof.
  revert i. induction l as [|x l IH]; intros i; [done|]. simpl. destruct (p x) eqn:E.
  - intros [= <-]. by exists x.
  - destruct (position p l) as [j|]; [|done]. intros [= <-]. by apply IH.
Qed.

Lemma position_chr d :
  is_group d -> position (fun c => bool_decide (c = chr d)) CHARSET = Some (Z.to_nat d).
Proof.
  intros Hd. assert (forallb (fun d => bool_decide
    (position (fun c => bool_decide (c = chr d)) CHARSET = Some (Z.to_nat d))) (seqZ 0 32) = true)
    as Hall by (vm_compute; reflexivity).
  rewrite forallb_forall in Hall. eapply bool_decide_eq_true_1, Hall.
  rewrite <- list_elem_of_In. apply elem_of_seqZ. unfold is_group in Hd. lia.
Qed.

Lemma chr_position c v :
  position (fun x => bool_decide (x = c)) CHARSET = Some v -> is_group (Z.of_nat v) /\ chr (Z.of_nat v) = c.
Proof.
  intros (x & Hx & ->%bool_decide_eq_true_1)%position_Some. split.
  - apply lookup_lt_Some in Hx. change (length CHARSET) with 32 in Hx. unfold is_group. lia.
  - unfold chr. rewrite Nat2Z.id. by apply nth_lookup_Some.
Qed.

Lemma chr_inj_list vs ws : Forall is_group vs -> Forall is_group ws -> chr <$> vs = chr <$> ws -> vs = ws.
Proof.
  intros Hv. revert ws. induction Hv as [|v vs Hv _ IH]; intros ws Hw H; destruct Hw as [|w ws Hw Hws]; [done..|].
  rewrite !fmap_cons in H. injection H as Hc Ht. f_equal; [|by apply IH].
  pose proof (position_chr v Hv) as H1. rewrite Hc, (position_chr w Hw) in H1.
  unfold is_group in *. simplify_eq. lia.
Qed.

Lemma read_data_Ok pos l vs : read_data pos l = Ok vs <-> Forall is_group vs /\ l = chr <$> vs.
Proof.
  revert pos vs. induction l as [|c l IH]; intros pos vs; cbn [read_data].
  { split; [intros [= <-]; done|]. intros [_ H]. by destruct vs. }
  split.
  - destruct (position _ CHARSET) as [v|] eqn:E; [|done]. cbn [ok_or mbind result_bind]. apply chr_position in E as [Hg Hc].
    destruct (read_data (S pos) l) as [ws|] eqn:E2; [|done]. intros [= <-].
    apply IH in E2 as [Hws ->]. split; [by constructor|]. by rewrite fmap_cons, Hc.
  - intros [Hg H]. destruct vs as [|v vs]; [done|]. rewrite fmap_cons in H. injection H as -> ->.
    inversion_clear Hg as [|? ? Hv Hvs]. rewrite (position_chr v Hv). cbn [ok_or mbind result_bind].
    rewrite (proj2 (IH (S pos) vs) (conj Hvs eq_refl)). cbn. unfold is_group in Hv. by rewrite Z2Nat.id by lia.
Qed.

Lemma rfind_Some c l i : rfind c l = Some i <-> take i l ++ c :: drop (S i) l = l /\ c ∉ drop (S i) l.
Proof.
  revert i. induction l as [|d l IH]; intros i; cbn [rfind].
  { split; [done|]. rewrite take_nil, drop_nil. by intros [? _]. }
  assert (rfind c l = None <-> c ∉ l) as Hnone.
  { clear. induction l as [|d l IH]; cbn [rfind]; [split; [intros _; apply not_elem_of_nil|done]|].
    rewrite not_elem_of_cons, <- IH. destruct (rfind c l); [naive_solver|]. destruct (decide (d = c)); naive_solver. }
  destruct (rfind c l) as [j|] eqn:E.
  - split.
    + intros [= <-]. destruct (IH j) as [H _]. destruct H as [H1 H2]; [done|]. cbn. by rewrite H1.
    + intros [H1 H2]. destruct i as [|i]; cbn in *; [discriminate (proj2 Hnone H2)|].
      injection H1 as H1. assert (Some j = Some i); [by apply IH|by simplify_eq].
  - assert (c ∉ l) as Hc by by apply Hnone. split.
    + destruct (decide (d = c)) as [->|]; [|done]. intros [= <-]. done.
    + intros [H1 H2]. destruct i as [|i]; cbn in *; [simplify_eq; by rewrite decide_True|].
      destruct Hc. injection H1 as H1. rewrite <- H1. set_solver.
Qed.

Definition prefix : bytes := as_bytes TOKEN_HRP ++ ["1"%char].

(** The symbols of a token: payload groups and checksum. *)
Definition symbols (key : bytes) : list Z :=
  let data := to_five_bit (byte_of_Z TOKEN_VERSION :: key) in data ++ checksum (as_bytes TOKEN_HRP) data.

Lemma encode_token_symbols key : encode_token key = prefix ++ (chr <$> symbols key).
Proof. done. Qed.

Lemma symbols_groups key : Forall is_group (symbols key).
Proof. apply Forall_app. split; [apply to_five_bit_spec|apply checksum_groups]. Qed.

Lemma symbols_verify key : verify_checksum (as_bytes TOKEN_HRP) (symbols key) = true.
Proof. apply verify_checksum_iff; [apply to_five_bit_spec|apply checksum_groups..|done]. Qed.

Lemma length_symbols key : length key = 32 -> length (symbols key) = 59.
Proof.
  intros Hk. unfold symbols. rewrite length_app, (proj2 (checksum_groups _ _)).
  set (l := _ :: key). assert (length l = 33) as Hl by (cbn; lia). clearbody l.
  destruct (to_five_bit_spec l) as [_ (k & Hlt & H)]. apply (f_equal length) in H.
  rewrite length_app, length_replicate in H. unfold bits5, bits8 in H.
  rewrite (length_words 5), (length_words 8) in H by (intros; apply length_nbits). lia.
Qed.

Lemma chr_plain d : chr d <> "1"%char /\ is_ascii (chr d) = true /\ is_upper (chr d) = false.
Proof.
  unfold chr. destruct (nth_in_or_default (Z.to_nat d) CHARSET "q"%char) as [H| ->]; [|done].
  assert (Forall (fun c => c <> "1"%char /\ is_ascii c = true /\ is_upper c = false) CHARSET) as Hall
    by (repeat (constructor; [split; [discriminate|split; reflexivity]|]); constructor).
  rewrite Forall_forall in Hall. apply Hall. by apply list_elem_of_In.
Qed.

Lemma to_lower_ascii c : is_ascii (to_lower c) = true -> is_ascii c = true.
Proof.
  unfold to_lower. destruct (is_upper c) eqn:E; [|done]. intros _. unfold is_upper, is_ascii in *.
  apply andb_true_iff in E as [_ E]. lia.
Qed.

Lemma prefix_found l :
  "1"%char ∉ l ->
  rfind "1"%char (prefix ++ l) = Some 5 /\ take 5 (prefix ++ l) = as_bytes TOKEN_HRP /\
  drop 6 (prefix ++ l) = l.
Proof. intros Hl. split; [|done]. by apply rfind_Some. Qed.

Lemma chars_no_sep (vs : list Z) : "1"%char ∉ chr <$> vs.
Proof. intros (d & H & _)%list_elem_of_fmap. destruct (chr_plain d) as [Hd _]. by symmetry in H. Qed.

Lemma take_behind {A} n (p r : list A) : take (length p - n) (drop n (p ++ r)) = drop n p.
Proof.
  destruct (decide (n <= length p)).
  - rewrite drop_app_le by done. apply take_app_length'. by rewrite length_drop.
  - replace (length p - n) with 0 by lia. by rewrite (drop_ge p) by lia.
Qed.

Lemma burst_in_symbols p a b q v w :
  length a = length b -> length a <= 6 ->
  p ++ a ++ q = prefix ++ (chr <$> v) -> p ++ b ++ q = prefix ++ (chr <$> w) ->
  verify_checksum (as_bytes TOKEN_HRP) v = true -> verify_checksum (as_bytes TOKEN_HRP) w = true ->
  Forall is_group v -> Forall is_group w -> v = w.
Proof.
  intros Hl H6 Hp Hp' Hv Hw Hgv Hgw. set (k := length p - 6). set (n := length p + length a - 6 - k).
  apply (f_equal (drop 6)) in Hp, Hp'. change (drop 6 (prefix ++ ?x)) with x in Hp, Hp'.
  assert (length v = length w) as Hlen.
  { rewrite <- (length_fmap chr v), <- (length_fmap chr w), <- Hp, <- Hp', !length_drop, !length_app. lia. }
  apply (burst_window (hrp_expand (as_bytes TOKEN_HRP)) n k); [apply hrp_expand_groups|done..|lia| | |].
  - apply chr_inj_list; [by apply Forall_take..|]. unfold k. by rewrite !fmap_take, <- Hp, <- Hp', !take_behind.
  - apply chr_inj_list; [by apply Forall_drop..|]. rewrite !fmap_drop, <- Hp, <- Hp', !drop_drop, !app_assoc.
    rewrite !drop_app_ge by (rewrite length_app; lia). by rewrite !length_app, Hl.
  - unfold verify_checksum in *. apply Z.eqb_eq in Hv, Hw. unfold run. by transitivity BECH32M_CONST.
Qed.

Section codec.
Context {ED : Ed25519}.

(** What a decoded token commits to: [s], up to case, is the encoding of a usable key. *)
Definition presents (s : bytes) (key : bytes) : Prop :=
  (to_lower <$> s) = encode_token key /\ (existsb is_lower s && existsb is_upper s) = false /\
  length key = 32 /\ key_usable key = true.

Lemma decode_Ok_presents s t :
  decode_token s = Ok t -> t_version t = TOKEN_VERSION /\ presents s (root_key t).
Proof.
  unfold decode_token. destruct (decide _); [done|]. destruct (forallb is_ascii s) eqn:Ea; [|done].
  cbn [negb]. destruct (existsb is_lower s && existsb is_upper s) eqn:Em; [done|].
  destruct (rfind "1"%char (to_lower <$> s)) as [sep|] eqn:Es; [|done]. cbn [ok_or mbind result_bind].
  destruct (decide _) as [|H6]; [done|]. destruct (read_data _ _) as [vs|] eqn:Er; [|done]. cbn [mbind result_bind].
  apply read_data_Ok in Er as [Hg Hr]. apply rfind_Some in Es as [Hs _].
  destruct (verify_checksum _ vs) eqn:Ev; [|done]. cbn [negb].
  case_bool_decide as Hh; [|done]. cbn [negb]. rewrite Hh in Hs, Ev.
  destruct (to_eight_bit _) as [[|v key]|] eqn:E8; [done| |done]. cbn [ok_or mbind result_bind].
  destruct (Z.eqb_spec (byte_to_Z v) TOKEN_VERSION) as [Hv|]; [|done]. cbn [negb].
  case_bool_decide as Hl; [|done]. cbn [negb]. destruct (key_usable key) eqn:Eu; [|done].
  intros [= <-]. cbn. split; [done|]. split; [|by repeat split].
  set (m := length vs - 6) in *. rewrite <- (take_drop m vs) in Hg, Ev. apply Forall_app in Hg as [Hg1 Hg2].
  rewrite Hr, length_fmap in H6. apply verify_checksum_iff in Ev; [|done..|rewrite length_drop; lia].
  apply five_eight in E8; [|done]. rewrite <- Hs, Hr, encode_token_symbols. unfold prefix, symbols.
  rewrite <- app_assoc. do 3 f_equal. rewrite <- Hv, byte_of_to_Z, E8, <- Ev. by rewrite take_drop.
Qed.

Lemma presents_decode s key : presents s key -> decode_token s = Ok (mkToken TOKEN_VERSION key).
Proof.
  intros (He & Hm & Hl & Hu). rewrite encode_token_symbols in He.
  assert (length s = 65) as Hlen.
  { rewrite <- (length_fmap to_lower), He, length_app, length_fmap, length_symbols by done. done. }
  unfold decode_token. rewrite decide_False by (unfold MAX_TOKEN_CHARS; lia).
  assert (forallb is_ascii s = true) as ->.
  { apply forallb_forall. intros c Hc%list_elem_of_In. apply to_lower_ascii.
    apply (list_elem_of_fmap_2 to_lower) in Hc. rewrite He in Hc. apply elem_of_app in Hc as [Hc|Hc].
    - revert Hc. generalize (to_lower c). apply Forall_forall. repeat constructor.
    - apply list_elem_of_fmap in Hc as (d & -> & _). apply chr_plain. }
  cbn [negb]. rewrite Hm, He. destruct (prefix_found _ (chars_no_sep (symbols key))) as (-> & H5 & H6).
  cbn [ok_or mbind result_bind]. rewrite H5, H6. pose proof (length_symbols key Hl) as H59.
  rewrite decide_False by (rewrite length_fmap; lia).
  rewrite (proj2 (read_data_Ok _ _ (symbols key)) (conj (symbols_groups key) eq_refl)).
  cbn [mbind result_bind]. rewrite symbols_verify. cbn [negb]. rewrite bool_decide_true by done. cbn [negb].
  assert (take (length (symbols key) - 6) (symbols key) = to_five_bit (byte_of_Z TOKEN_VERSION :: key)) as ->.
  { unfold symbols. rewrite length_app, (proj2 (checksum_groups _ _)). apply take_app_length'. lia. }
  rewrite eight_five. cbn [ok_or mbind result_bind]. rewrite byte_to_Z_of_Z. cbn [Z.eqb].
  rewrite bool_decide_true, Hu by done. done.
Qed.

(** C34. The token codec, exactly: a string decodes if and only if, up to case and
    without mixing cases, it is the 65-character encoding of a usable 32-byte key, and then to
    that key.  So decoding inverts encoding, and no key has two tokens. *)
Theorem token_codec s t :
  decode_token s = Ok t <-> t = mkToken TOKEN_VERSION (root_key t) /\ presents s (root_key t).
Proof.
  split.
  - intros [Hv Hp]%decode_Ok_presents. split; [|done]. destruct t; cbn in *. by subst.
  - intros [-> Hp]. cbn in *. by apply presents_decode.
Qed.

(** A misread token never decodes to another identity: if a string that
    decodes is changed within any six consecutive characters (the case of letters apart), the
    result is refused. *)
Theorem misread_detected s s' t p a b q :
  decode_token s = Ok t ->
  (to_lower <$> s) = p ++ a ++ q -> (to_lower <$> s') = p ++ b ++ q ->
  length a = length b -> length a <= 6 -> a <> b ->
  is_ok (decode_token s') = false.
Proof.
  intros [_ (He & _)]%decode_Ok_presents Hs Hs' Hl H6 Hne.
  destruct (decode_token s') as [t'|] eqn:E; [|done]. apply decode_Ok_presents in E as [_ (He' & _)].
  destruct Hne. rewrite Hs, encode_token_symbols in He. rewrite Hs', encode_token_symbols in He'.
  enough (symbols (root_key t) = symbols (root_key t')) as Heq.
  { rewrite Heq, <- He' in He. apply app_inv_head in He. by apply app_inj_1 in He as [-> _]. }
  pose proof (symbols_verify (root_key t)) as Hv. pose proof (symbols_verify (root_key t')) as Hv'.
  pose proof (symbols_groups (root_key t)) as Hg. pose proof (symbols_groups (root_key t')) as Hg'.
  revert He He' Hv Hv' Hg Hg'. generalize (symbols (root_key t)) (symbols (root_key t')). clear -Hl H6.
  intros v w Hp Hp' Hv Hv' Hg Hg'. by eapply burst_in_symbols.
Qed.
End codec.

(** The golden vector of the code's tests: the key [00 01 .. 1f]. *)
Example golden_vector :
  encode_token (byte_of_Z <$> seqZ 0 32)
  = as_bytes "akson1qyqqzqsrqszsvpcgpy9qkrqdpc83qygjzv2p29shrqv35xcur50p7lykl4d".
Proof. vm_compute. reflexivity. Qed.

Definition sample_token : bytes := encode_token (toy_key (as_bytes "seed")).

Lemma misread_detected_witness :
  let s' := take 20 sample_token ++ as_bytes "yyyyyy" ++ drop 26 sample_token in
  is_ok (decode_token (ED := ToyEd25519) s') = false.
Proof.
  apply (misread_detected (ED := ToyEd25519) sample_token _ (mkToken 1 (toy_key (as_bytes "seed")))
           (take 20 sample_token) (take 6 (drop 20 sample_token)) (as_bytes "yyyyyy") (drop 26 sample_token));
    [vm_compute; reflexivity..|vm_compute; lia|vm_compute; discriminate].
Defined.
End Token.
