(* ===== verification/Machine.v ===== *)
(** The interface of a persisted effect machine.

    The repository has two of them, the work-order attempt
    ([akson-authority/src/attempt.rs]) and the processor sub-attempt
    ([akson-broker/src/subattempt.rs]), both driven by the store through the same
    shape: a pure [next], a terminal test and a text column.  The class states
    what the store relies on; the store's theorems about driving a row are proved
    against it and the two files that model the machines discharge it. *)
From S2P Require Import Prelude.

(** Why a transition was refused ([TransitionError] of both crates). *)
Inductive TransitionError (S E : Type) : Type :=
| AlreadyTerminal (state : S)
| Invalid (state : S) (event : E).
Arguments AlreadyTerminal {S E} state.
Arguments Invalid {S E} state event.

#[global] Instance TransitionError_eq_dec {S E} `{EqDecision S, EqDecision E} :
  EqDecision (TransitionError S E).
Proof. solve_decision. Defined.

Class Machine (S E : Type) := {
  next : S -> E -> result (TransitionError S E) S;
  is_terminal : S -> bool;
  as_str : S -> string;
  from_str : string -> option S;
  (** How far a state is from the start; every accepted event climbs. *)
  rank : S -> nat;
  max_rank : nat;
  from_as_str : forall s, from_str (as_str s) = Some s;
  as_from_str : forall t s, from_str t = Some s -> t = as_str s;
  terminal_refuses : forall s e, is_terminal s = true -> next s e = Err (AlreadyTerminal s);
  next_climbs : forall s e s', next s e = Ok s' -> rank s < rank s';
  rank_bound : forall s, rank s <= max_rank;
}.

Section machine.
Context {S E : Type} `{!Machine S E}.

(** Running a list of events, refusing at the first refused one. *)
Fixpoint run (s : S) (evs : list E) : result (TransitionError S E) S :=
  match evs with
  | [] => Ok s
  | e :: evs => s' ← next s e; run s' evs
  end.

(** The states a machine goes through on a list of events, the start included. *)
Fixpoint trace (s : S) (evs : list E) : list S :=
  match evs with
  | [] => [s]
  | e :: evs => s :: match next s e with Ok s' => trace s' evs | Err _ => [] end
  end.

Lemma as_str_inj s s' : as_str s = as_str s' -> s = s'.
Proof. intros H. apply (f_equal from_str) in H. rewrite !from_as_str in H. congruence. Qed.

Lemma run_app s evs evs' s' :
  run s evs = Ok s' -> run s (evs ++ evs') = run s' evs'.
Proof.
  revert s. induction evs as [|e evs IH]; intros s; simpl; unfold_result.
  - congruence.
  - destruct (next s e); [apply IH|done].
Qed.

Lemma run_climbs s evs s' : run s evs = Ok s' -> rank s + length evs <= rank s'.
Proof.
  revert s. induction evs as [|e evs IH]; intros s; simpl; unfold_result.
  - intros [= ->]. lia.
  - destruct (next s e) as [s1|] eqn:Hn; [|done]. intros Hr.
    apply IH in Hr. apply next_climbs in Hn. lia.
Qed.

(** A machine accepts at most [max_rank] events in its whole life. *)
Lemma run_bounded s evs s' : run s evs = Ok s' -> length evs <= max_rank.
Proof. intros Hr%run_climbs. pose proof (rank_bound s'). lia. Qed.

Lemma run_terminal s evs s' : is_terminal s = true -> run s evs = Ok s' -> evs = [].
Proof.
  intros Ht. destruct evs as [|e evs]; [done|]. simpl. unfold_result.
  by rewrite terminal_refuses.
Qed.

(** Splitting a run around one event. *)
Lemma run_split s pre e post s' :
  run s (pre ++ e :: post) = Ok s' ->
  exists s1 s2, run s pre = Ok s1 /\ next s1 e = Ok s2 /\ run s2 post = Ok s'.
Proof.
  revert s. induction pre as [|e' pre IH]; intros s; simpl; unfold_result.
  - destruct (next s e) as [s2|] eqn:Hn; [|done]. eauto.
  - destruct (next s e') as [s1|] eqn:Hn; [|done]. apply IH.
Qed.

(** An event into a terminal state is the last of any run that has it. *)
Lemma run_last s evs e s' :
  run s evs = Ok s' -> e ∈ evs ->
  (forall s1 s2, next s1 e = Ok s2 -> is_terminal s2 = true) ->
  exists pre s1, evs = pre ++ [e] /\ run s pre = Ok s1 /\ next s1 e = Ok s'.
Proof.
  intros Hr (pre & post & ->)%list_elem_of_split Ht.
  apply run_split in Hr as (s1 & s2 & H1 & H2 & H3).
  pose proof (run_terminal _ _ _ (Ht _ _ H2) H3) as ->. simpl in H3. simplify_eq.
  by exists pre, s1.
Qed.

(** No state is visited twice. *)
Lemma run_no_return s e evs s' : run s (e :: evs) = Ok s' -> s' <> s.
Proof. intros Hr%run_climbs ->. simpl in Hr. lia. Qed.
End machine.
