(* ===== verification/RowMachine.v ===== *)
(** Tables whose rows are driven by a machine.

    [attempts] and [processor_calls] keep the state of a [Machine] in a text
    column and move it with [UPDATE ... SET state = ? WHERE key = ? AND state = ?].
    This file has that update and the simulation relation between two contents of
    such a table: no row disappears, what a row was created with does not change,
    and its state moved by a run the pure machine accepts. *)
From S2P Require Import Prelude Machine.

(** How a row shows its state. *)
Class StateColumn (R : Type) := {
  col : R -> string;
  set_col : string -> R -> R;
  (** Everything but the state. *)
  fixed : Type;
  fix_of : R -> fixed;
  col_set : forall t r, col (set_col t r) = t;
  fix_set : forall t r, fix_of (set_col t r) = fix_of r;
}.

(** The compare-and-swap [UPDATE]: the table after it and the rows changed. *)
Definition cas_state {R} `{!StateColumn R} (key old new : string) (m : gmap string R) :
  gmap string R * nat :=
  match m !! key with
  | Some r => if decide (col r = old) then (<[key := set_col new r]> m, 1) else (m, 0)
  | None => (m, 0)
  end.

Section rows.
Context {St Ev R : Type} `{!Machine St Ev, !StateColumn R}.

(** Every row shows a state of the machine. *)
Definition readable (m : gmap string R) : Prop :=
  forall k r, m !! k = Some r -> exists s, col r = as_str s.

(** From one content of the table to a later one. *)
Definition driven (init : St) (m m' : gmap string R) : Prop :=
  (forall k r s, m !! k = Some r -> col r = as_str s ->
     exists r' evs s', m' !! k = Some r' /\ fix_of r' = fix_of r /\
       run s evs = Ok s' /\ col r' = as_str s') /\
  (forall k r', m' !! k = Some r' -> m !! k = None ->
     exists evs s', run init evs = Ok s' /\ col r' = as_str s').

Lemma driven_refl init m : driven init m m.
Proof.
  split; [|intros k r' H1 H2; congruence]. intros k r s Hk Hs. exists r, [], s. done.
Qed.

Lemma driven_trans init m1 m2 m3 :
  readable m2 -> driven init m1 m2 -> driven init m2 m3 -> driven init m1 m3.
Proof.
  intros Hread [H1 N1] [H2 N2]. split.
  - intros k r s Hk Hs. destruct (H1 _ _ _ Hk Hs) as (r2 & e2 & s2 & Hk2 & Hf2 & Hr2 & Hs2).
    destruct (H2 _ _ _ Hk2 Hs2) as (r3 & e3 & s3 & Hk3 & Hf3 & Hr3 & Hs3).
    exists r3, (e2 ++ e3), s3. split_and!; [done|congruence| |done].
    by rewrite (run_app _ _ _ _ Hr2).
  - intros k r3 Hk3 Hn1. destruct (m2 !! k) as [r2|] eqn:E; [|by apply (N2 k)].
    destruct (N1 _ _ E Hn1) as (e2 & s2 & Hr2 & Hs2).
    destruct (H2 _ _ _ E Hs2) as (r3' & e3 & s3 & Hk3' & _ & Hr3 & Hs3). simplify_eq.
    exists (e2 ++ e3), s3. split; [|done]. by rewrite (run_app _ _ _ _ Hr2).
Qed.

(** Moving one row along an accepted run. *)
Lemma driven_move init m k r s evs s' :
  m !! k = Some r -> col r = as_str s -> run s evs = Ok s' ->
  driven init m (<[k := set_col (as_str s') r]> m).
Proof.
  intros Hk Hc Hr. split.
  - intros k' r0 s0 Hk0 Hs0. destruct (decide (k' = k)) as [->|Hne].
    + rewrite lookup_insert_eq. simplify_eq. rewrite Hc in Hs0. apply as_str_inj in Hs0 as <-.
      exists (set_col (as_str s') r), evs, s'. by rewrite fix_set, col_set.
    + rewrite lookup_insert_ne by done. exists r0, [], s0. done.
  - intros k' r' Hk' Hn. destruct (decide (k' = k)) as [->|Hne]; [congruence|].
    rewrite lookup_insert_ne in Hk' by done. congruence.
Qed.

(** Inserting a row in the state the machine starts with. *)
Lemma driven_new init m k r : m !! k = None -> col r = as_str init -> driven init m (<[k := r]> m).
Proof.
  intros Hk Hc. split.
  - intros k' r0 s0 Hk0 Hs0. rewrite lookup_insert_ne by congruence. exists r0, [], s0. done.
  - intros k' r' Hk' Hn. destruct (decide (k' = k)) as [->|Hne].
    + rewrite lookup_insert_eq in Hk'. simplify_eq. by exists [], init.
    + rewrite lookup_insert_ne in Hk' by done. congruence.
Qed.

Lemma readable_insert m k r s : readable m -> col r = as_str s -> readable (<[k := r]> m).
Proof.
  intros Hm Hc k' r'. rewrite lookup_insert_Some. intros [[<- <-]|[_ H]]; [by exists s|by apply Hm in H].
Qed.

(** A terminal row is never moved again. *)
Lemma driven_terminal init m m' k r s :
  driven init m m' -> m !! k = Some r -> col r = as_str s -> is_terminal s = true ->
  exists r', m' !! k = Some r' /\ col r' = as_str s /\ fix_of r' = fix_of r.
Proof.
  intros [H _] Hk Hs Ht. destruct (H _ _ _ Hk Hs) as (r' & evs & s' & Hk' & Hf & Hr & Hs').
  exists r'. pose proof (run_terminal _ _ _ Ht Hr) as ->. simpl in Hr. by simplify_eq.
Qed.

Lemma cas_state_hit k r (m : gmap string R) old new :
  m !! k = Some r -> col r = old -> cas_state k old new m = (<[k := set_col new r]> m, 1).
Proof. intros Hk Hc. unfold cas_state. rewrite Hk. by rewrite decide_True. Qed.
End rows.
