(* ===== verification/Attempt.v ===== *)
(** The work-order attempt state machine (akson-authority/src/attempt.rs):
    [pending -> claimed -> running -> succeeded | failed | ambiguous |
    cancelled].  The states, the events, the pure transition function and the
    persisted text form, with the transition relation of the design as an
    independent specification. *)
From S2P Require Import Prelude Machine.

Module Attempt.

Inductive AttemptState :=
| Pending | Claimed | Running | Succeeded | Failed | Ambiguous | Cancelled.

Inductive AttemptEvent :=
| Claim | Start | Succeed | Fail | MarkAmbiguous | Cancel | RecoverAfterCrash.

#[global] Instance AttemptState_eq_dec : EqDecision AttemptState.
Proof. solve_decision. Defined.

#[global] Instance AttemptEvent_eq_dec : EqDecision AttemptEvent.
Proof. solve_decision. Defined.

Definition is_terminal (s : AttemptState) : bool :=
  match s with
  | Succeeded | Failed | Ambiguous | Cancelled => true
  | _ => false
  end.

Definition as_str (s : AttemptState) : string :=
  match s with
  | Pending => "pending"
  | Claimed => "claimed"
  | Running => "running"
  | Succeeded => "succeeded"
  | Failed => "failed"
  | Ambiguous => "ambiguous"
  | Cancelled => "cancelled"
  end.

Definition from_str (s : string) : option AttemptState :=
  if decide (s = "pending") then Some Pending
  else if decide (s = "claimed") then Some Claimed
  else if decide (s = "running") then Some Running
  else if decide (s = "succeeded") then Some Succeeded
  else if decide (s = "failed") then Some Failed
  else if decide (s = "ambiguous") then Some Ambiguous
  else if decide (s = "cancelled") then Some Cancelled
  else None.

Definition next (state : AttemptState) (event : AttemptEvent) :
  result (TransitionError AttemptState AttemptEvent) AttemptState :=
  if is_terminal state then Err (AlreadyTerminal state)
  else match state, event with
  | Pending, Claim => Ok Claimed
  | Claimed, Start => Ok Running
  | Running, Succeed => Ok Succeeded
  | Running, Fail => Ok Failed
  | (Claimed | Running), MarkAmbiguous => Ok Ambiguous
  | (Claimed | Running), RecoverAfterCrash => Ok Ambiguous
  | (Pending | Claimed), Cancel => Ok Cancelled
  | Running, Cancel => Ok Ambiguous
  | _, _ => Err (Invalid state event)
  end.

(** Distance from issue: every accepted event climbs. *)
Definition rank (s : AttemptState) : nat :=
  match s with
  | Pending => 0
  | Claimed => 1
  | Running => 2
  | Succeeded | Failed | Ambiguous | Cancelled => 3
  end.

(** The design's transition relation (12.3), one rule per arrow. *)
Inductive attempt_step : AttemptState -> AttemptEvent -> AttemptState -> Prop :=
| step_claim : attempt_step Pending Claim Claimed
| step_start : attempt_step Claimed Start Running
| step_succeed : attempt_step Running Succeed Succeeded
| step_fail : attempt_step Running Fail Failed
| step_ambiguous s : s = Claimed \/ s = Running -> attempt_step s MarkAmbiguous Ambiguous
| step_recover s : s = Claimed \/ s = Running -> attempt_step s RecoverAfterCrash Ambiguous
| step_cancel_early s : s = Pending \/ s = Claimed -> attempt_step s Cancel Cancelled
| step_cancel_late : attempt_step Running Cancel Ambiguous.

#[local] Hint Constructors attempt_step : akson.

Lemma from_as_str s : from_str (as_str s) = Some s.
Proof. by destruct s. Qed.

Lemma as_from_str t s : from_str t = Some s -> t = as_str s.
Proof. unfold from_str. intros H. repeat case_decide; simplify_eq; done. Qed.

Lemma terminal_refuses s e : is_terminal s = true -> next s e = Err (AlreadyTerminal s).
Proof. unfold next. by intros ->. Qed.

Lemma next_climbs s e s' : next s e = Ok s' -> rank s < rank s'.
Proof. destruct s, e; intros [=]; subst; simpl; lia. Qed.

Lemma rank_bound s : rank s <= 3.
Proof. destruct s; simpl; lia. Qed.

#[global] Instance attempt_machine : Machine AttemptState AttemptEvent := {|
  Machine.next := next;
  Machine.is_terminal := is_terminal;
  Machine.as_str := as_str;
  Machine.from_str := from_str;
  Machine.rank := rank;
  Machine.max_rank := 3;
  Machine.from_as_str := from_as_str;
  Machine.as_from_str := as_from_str;
  Machine.terminal_refuses := terminal_refuses;
  Machine.next_climbs := next_climbs;
  Machine.rank_bound := rank_bound;
|}.

(** The pure function is the relation, and every refusal is classified. *)
Theorem next_spec s e :
  (forall s', next s e = Ok s' <-> attempt_step s e s') /\
  (forall err, next s e = Err err ->
     (forall s', ~ attempt_step s e s') /\
     err = if is_terminal s then AlreadyTerminal s else Invalid s e).
Proof.
  split.
  - intros s'. split.
    + destruct s, e; intros [=]; subst; eauto with akson.
    + inversion 1; subst; try done; by destruct_or!; subst.
  - intros err Hn. split.
    + intros s' Hs. destruct Hs; destruct_or?; subst; done.
    + unfold next in Hn. destruct s, e; simpl in *; congruence.
Qed.

Lemma running_history evs s :
  run Pending evs = Ok s -> s = Running -> evs = [Claim; Start].
Proof.
  intros Hr ->. pose proof (run_bounded _ _ _ Hr).
  destruct evs as [|e1 [|e2 [|e3 [|e4 evs]]]]; simpl in *; try lia.
  all: repeat match goal with e : AttemptEvent |- _ => destruct e end; done.
Qed.

(** The whole life of one attempt. An accepted history has at most three
    events; execution starts only as claim-then-start, so at most once; a
    recovery after a crash ends the life in [Ambiguous]; success needs the full
    path; a clean cancellation never follows a start; and after a terminal state
    every event is refused. *)
Theorem attempt_life evs s :
  run Pending evs = Ok s ->
  length evs <= 3 /\
  (s = Running <-> evs = [Claim; Start]) /\
  (s = Succeeded -> evs = [Claim; Start; Succeed]) /\
  (RecoverAfterCrash ∈ evs -> s = Ambiguous) /\
  (s = Cancelled -> Start ∉ evs) /\
  (is_terminal s = true -> forall e, next s e = Err (AlreadyTerminal s)).
Proof.
  intros Hr. split_and!; [..|intros; by apply terminal_refuses].
  - by apply run_bounded in Hr.
  - split; [exact (running_history _ _ Hr)|]. intros Heq. rewrite Heq in Hr. by injection Hr.
  - intros ->. destruct evs as [|e evs] using rev_ind; [done|].
    apply run_split in Hr as (s1 & s2 & H1 & H2 & [= ->]).
    destruct s1, e; try done. by apply running_history in H1 as ->.
  - intros Hin. destruct (run_last _ _ _ _ Hr Hin) as (pre & s1 & _ & _ & Hn).
    { intros [] s2 [=]; by subst. }
    by destruct s1; try done; injection Hn as <-.
  - intros -> (pre & post & ->)%list_elem_of_split.
    apply run_split in Hr as (s1 & s2 & _ & H2 & H3).
    destruct s1; try done. simpl in H2. injection H2 as <-.
    destruct post as [|e post]; [done|]. simpl in H3. unfold_result.
    destruct e; try done; simpl in H3; destruct post; done.
Qed.

Example attempt_life_witness :
  length [Claim; Start; Succeed] <= 3 /\ (Succeeded = Running <-> [Claim; Start; Succeed] = [Claim; Start]).
Proof.
  destruct (attempt_life [Claim; Start; Succeed] Succeeded eq_refl) as (H1 & H2 & _).
  exact (conj H1 H2).
Defined.
End Attempt.
