(* ===== verification/SubAttempt.v ===== *)
(** The processor sub-attempt state machine (akson-broker/src/subattempt.rs):
    [prepared -> dispatching -> completed | failed | ambiguous | cancelled]. *)
From S2P Require Import Prelude Machine.

Module SubAttempt.

Inductive SubAttemptState :=
| Prepared | Dispatching | Completed | Failed | Ambiguous | Cancelled.

Inductive SubAttemptEvent :=
| Dispatch | Complete | Fail | MarkAmbiguous | Cancel | RecoverAfterCrash.

#[global] Instance SubAttemptState_eq_dec : EqDecision SubAttemptState.
Proof. solve_decision. Defined.

#[global] Instance SubAttemptEvent_eq_dec : EqDecision SubAttemptEvent.
Proof. solve_decision. Defined.

Definition is_terminal (s : SubAttemptState) : bool :=
  match s with
  | Completed | Failed | Ambiguous | Cancelled => true
  | _ => false
  end.

Definition as_str (s : SubAttemptState) : string :=
  match s with
  | Prepared => "prepared"
  | Dispatching => "dispatching"
  | Completed => "completed"
  | Failed => "failed"
  | Ambiguous => "ambiguous"
  | Cancelled => "cancelled"
  end.

Definition from_str (s : string) : option SubAttemptState :=
  if decide (s = "prepared") then Some Prepared
  else if decide (s = "dispatching") then Some Dispatching
  else if decide (s = "completed") then Some Completed
  else if decide (s = "failed") then Some Failed
  else if decide (s = "ambiguous") then Some Ambiguous
  else if decide (s = "cancelled") then Some Cancelled
  else None.

Definition next (state : SubAttemptState) (event : SubAttemptEvent) :
  result (TransitionError SubAttemptState SubAttemptEvent) SubAttemptState :=
  if is_terminal state then Err (AlreadyTerminal state)
  else match state, event with
  | Prepared, Dispatch => Ok Dispatching
  | Dispatching, Complete => Ok Completed
  | Dispatching, Fail => Ok Failed
  | Dispatching, MarkAmbiguous => Ok Ambiguous
  | Prepared, Cancel => Ok Cancelled
  | Dispatching, Cancel => Ok Ambiguous
  | Dispatching, RecoverAfterCrash => Ok Ambiguous
  | _, _ => Err (Invalid state event)
  end.

Definition rank (s : SubAttemptState) : nat :=
  match s with
  | Prepared => 0
  | Dispatching => 1
  | Completed | Failed | Ambiguous | Cancelled => 2
  end.

(** The design's transition relation (13.1). *)
Inductive call_step : SubAttemptState -> SubAttemptEvent -> SubAttemptState -> Prop :=
| step_dispatch : call_step Prepared Dispatch Dispatching
| step_cancel_prepared : call_step Prepared Cancel Cancelled
| step_complete : call_step Dispatching Complete Completed
| step_fail : call_step Dispatching Fail Failed
| step_uncertain e : e = MarkAmbiguous \/ e = Cancel \/ e = RecoverAfterCrash ->
    call_step Dispatching e Ambiguous.

#[local] Hint Constructors call_step : akson.

Lemma call_from_as_str s : from_str (as_str s) = Some s.
Proof. by destruct s. Qed.

Lemma call_as_from_str t s : from_str t = Some s -> t = as_str s.
Proof. unfold from_str. intros H. repeat case_decide; simplify_eq; done. Qed.

Lemma call_terminal_refuses s e : is_terminal s = true -> next s e = Err (AlreadyTerminal s).
Proof. unfold next. by intros ->. Qed.

Lemma call_next_climbs s e s' : next s e = Ok s' -> rank s < rank s'.
Proof. destruct s, e; intros [=]; subst; simpl; lia. Qed.

Lemma call_rank_bound s : rank s <= 2.
Proof. destruct s; simpl; lia. Qed.

#[global] Instance call_machine : Machine SubAttemptState SubAttemptEvent := {|
  Machine.next := next;
  Machine.is_terminal := is_terminal;
  Machine.as_str := as_str;
  Machine.from_str := from_str;
  Machine.rank := rank;
  Machine.max_rank := 2;
  Machine.from_as_str := call_from_as_str;
  Machine.as_from_str := call_as_from_str;
  Machine.terminal_refuses := call_terminal_refuses;
  Machine.next_climbs := call_next_climbs;
  Machine.rank_bound := call_rank_bound;
|}.

(** The pure function is the relation, and every refusal is classified. *)
Theorem call_next_spec s e :
  (forall s', next s e = Ok s' <-> call_step s e s') /\
  (forall err, next s e = Err err ->
     (forall s', ~ call_step s e s') /\
     err = if is_terminal s then AlreadyTerminal s else Invalid s e).
Proof.
  split.
  - intros s'. split.
    + destruct s, e; intros [=]; subst; eauto 6 with akson.
    + inversion 1; subst; try done; by destruct_or!; subst.
  - intros err Hn. split.
    + intros s' Hs. destruct Hs; destruct_or?; subst; done.
    + unfold next in Hn. destruct s, e; simpl in *; congruence.
Qed.

(** One processor call: at most two events; a byte can leave ([Dispatching])
    only through the first one, so at most once; recovery from a crash ends the
    call in [Ambiguous]; a clean cancellation or an untouched call never
    dispatched. *)
Theorem call_life evs s :
  run Prepared evs = Ok s ->
  length evs <= 2 /\
  (s = Dispatching <-> evs = [Dispatch]) /\
  (RecoverAfterCrash ∈ evs -> s = Ambiguous) /\
  (s = Prepared \/ s = Cancelled -> Dispatch ∉ evs).
Proof.
  intros Hr. pose proof (run_bounded _ _ _ Hr) as Hlen. split; [done|].
  destruct evs as [|e1 [|e2 [|e3 evs]]]; simpl in Hlen; try lia.
  all: repeat match goal with e : SubAttemptEvent |- _ => destruct e end.
  all: simpl in Hr; unfold_result; simplify_eq/=; set_solver.
Qed.

Example call_life_witness :
  length [Dispatch; Complete] <= 2 /\ (Completed = Dispatching <-> [Dispatch; Complete] = [Dispatch]).
Proof.
  destruct (call_life [Dispatch; Complete] Completed eq_refl) as (H1 & H2 & _).
  exact (conj H1 H2).
Defined.
End SubAttempt.
