(* ===== verification/Json.v ===== *)
(** JSON values ([serde_json::Value]) and the strict I-JSON reader of
    akson-ext/src/ijson.rs. *)
From S2P Require Import Prelude Crypto.

Module Json.

(** [serde_json::Value]. An integer is held as such ([i64]/[u64]); a finite [f64] is
    its exact dyadic value [m * 2^e]. An object is its [BTreeMap]: pairs in key order. *)
Inductive Json :=
| JNull | JBool (b : bool) | JInt (z : Z) | JFloat (m e : Z) | JStr (s : string)
| JArr (l : list Json) | JObj (l : list (string * Json)).

(** A wire format for JSON values. *)
Fixpoint put_json (j : Json) : bytes :=
  match j with
  | JNull => ["n"%char]
  | JBool b => ["b"%char; if b then "1"%char else "0"%char]
  | JInt z => "i"%char :: put z
  | JFloat m e => "f"%char :: put (m, e)
  | JStr t => "s"%char :: put t
  | JArr l => "a"%char :: (fix go l := match l with
      | [] => ["."%char] | x :: l => "+"%char :: put_json x ++ go l end) l
  | JObj l => "o"%char :: (fix go l := match l with
      | [] => ["."%char] | (k, x) :: l => "+"%char :: (put k ++ put_json x) ++ go l end) l
  end.

Fixpoint get_items {A} (get1 : bytes -> option (A * bytes)) (fuel : nat) (l : bytes) : option (list A * bytes) :=
  match fuel, l with
  | S fuel, c :: l => if decide (c = "+"%char)
                      then '(a, l) ← get1 l; '(x, l) ← get_items get1 fuel l; Some (a :: x, l)
                      else Some ([], l)
  | _, _ => None
  end.

Fixpoint get_json (fuel : nat) (l : bytes) : option (Json * bytes) :=
  match fuel, l with
  | S fuel, c :: l =>
      if decide (c = "n"%char) then Some (JNull, l)
      else if decide (c = "b"%char) then
        match l with b :: l => Some (JBool (bool_decide (b = "1"%char)), l) | [] => None end
      else if decide (c = "i"%char) then '(z, l) ← get l; Some (JInt z, l)
      else if decide (c = "f"%char) then '(x, l) ← get l; Some (JFloat x.1 x.2, l)
      else if decide (c = "s"%char) then '(t, l) ← get l; Some (JStr t, l)
      else if decide (c = "a"%char) then '(x, l) ← get_items (get_json fuel) fuel l; Some (JArr x, l)
      else '(x, l) ← get_items (fun l => '(k, l) ← get l; '(v, l) ← get_json fuel l; Some ((k, v), l)) fuel l;
           Some (JObj x, l)
  | _, _ => None
  end.

Definition put_items {A} (put1 : A -> bytes) : list A -> bytes :=
  fix go l := match l with [] => ["."%char] | x :: l => "+"%char :: put1 x ++ go l end.

Lemma get_put_items {A} (put1 : A -> bytes) get1 fuel l rest :
  (forall x r, x ∈ l -> length (put1 x) < fuel -> get1 (put1 x ++ r) = Some (x, r)) ->
  length (put_items put1 l) <= fuel -> forall n, length l < n ->
  get_items get1 n (put_items put1 l ++ rest) = Some (l, rest).
Proof.
  induction l as [|x l IH]; intros Hg Hf [|n] Hn; simpl in *; [lia|done|lia|].
  rewrite length_app in Hf. rewrite <- app_assoc, Hg by (lia || left). simpl.
  rewrite IH; [done| |lia|lia]. intros y r Hy. apply Hg. by right.
Qed.

Lemma length_put_items {A} (put1 : A -> bytes) l : length l < length (put_items put1 l).
Proof. induction l; simpl; [lia|]. rewrite length_app. lia. Qed.

Section json_ind.
Context (P : Json -> Prop)
  (Hleaf : forall j, (forall l, j <> JArr l) -> (forall l, j <> JObj l) -> P j)
  (Harr : forall l, Forall P l -> P (JArr l)) (Hobj : forall l, Forall (fun kv => P kv.2) l -> P (JObj l)).

Fixpoint json_rect' (j : Json) : P j :=
  match j with
  | JArr l => Harr l ((fix go (l : list Json) : Forall P l := match l with
      | [] => List.Forall_nil _ | x :: l => @List.Forall_cons _ P x l (json_rect' x) (go l) end) l)
  | JObj l => Hobj l ((fix go (l : list (string * Json)) : Forall (fun kv => P kv.2) l := match l with
      | [] => List.Forall_nil _
      | (k, x) :: l => @List.Forall_cons _ (fun kv => P kv.2) (k, x) l (json_rect' x) (go l) end) l)
  | JNull => Hleaf JNull ltac:(done) ltac:(done)
  | JBool b => Hleaf (JBool b) ltac:(done) ltac:(done)
  | JInt z => Hleaf (JInt z) ltac:(done) ltac:(done)
  | JFloat m e => Hleaf (JFloat m e) ltac:(done) ltac:(done)
  | JStr t => Hleaf (JStr t) ltac:(done) ltac:(done)
  end.
End json_ind.

Lemma get_put_json j : forall fuel rest, length (put_json j) <= fuel ->
  get_json fuel (put_json j ++ rest) = Some (j, rest).
Proof.
  induction j as [j Ha Ho|l IH|l IH] using json_rect'; intros [|fuel] rest Hf.
  - destruct j; simpl in Hf; lia.
  - destruct j as [|[]|z|m e|t|l|l]; [done|done|done| | | |by destruct (Ha l)|by destruct (Ho l)];
      cbn [put_json app get_json]; repeat (rewrite decide_False by done || rewrite decide_True by done);
      rewrite get_put; done.
  - simpl in Hf; lia.
  - change (put_json (JArr l)) with ("a"%char :: put_items put_json l) in *. simpl in Hf |- *.
    pose proof (length_put_items put_json l). rewrite Forall_forall in IH.
    rewrite (get_put_items put_json (get_json fuel) fuel); [done| |lia|lia].
    intros x r Hx Hl. apply IH; [done|lia].
  - simpl in Hf; lia.
  - assert (put_json (JObj l) = "o"%char :: put_items (fun kv => put kv.1 ++ put_json kv.2) l) as He.
    { simpl. f_equal. clear. induction l as [|[k x] l IHl]; [done|]. simpl. by rewrite IHl. }
    rewrite He in *. cbn [length app get_json] in Hf |- *. rewrite Forall_forall in IH.
    repeat rewrite decide_False by done. pose proof (length_put_items (fun kv : string * Json => put kv.1 ++ put_json kv.2) l).
    rewrite (get_put_items _ _ fuel); [done| |lia|lia].
    intros [k x] r Hx Hl. cbn [fst snd] in *. rewrite length_app in Hl. rewrite <- app_assoc, get_put. simpl.
    by rewrite (IH _ Hx) by (simpl; lia).
Qed.

#[global] Instance Json_wire : Wire Json.
Proof.
  refine {| put := put_json; get := fun l => get_json (length l) l |}.
  intros j rest. apply get_put_json. rewrite length_app. lia.
Defined.

#[global] Instance bool_wire : Wire bool.
Proof.
  refine (wire_inj (fun b : bool => if b then 1%Z else 0%Z) (fun z => bool_decide (z = 1%Z)) _). by intros [].
Defined.

End Json.
