(* ===== verification/IJson.v ===== *)
(** The strict I-JSON reader (akson-ext/src/ijson.rs).

    The syntax layer is [serde_json]'s deserializer, which is not in the repository:
    it is a parameter that turns bytes into the tree of values it would hand to a
    visitor, cut short where it meets a syntax error. The visitor itself, its node
    counter, depth limit, duplicate-key and number checks, is translated here. *)
From S2P Require Import Prelude Json.

Module IJson.
Import Json.

Definition MAX_BYTES : Z := 8 * 1024 * 1024.
Definition MAX_DEPTH : nat := 64.
Definition MAX_NODES : Z := 1000000.
Definition MAX_SAFE_INTEGER : Z := Z.shiftl 1 53 - 1.

(** [UnsafeInteger] carries the number whose text the error shows. *)
Inductive IJsonError :=
| TooLarge (actual limit : Z) | TooDeep (limit : nat) | TooManyNodes (limit : Z)
| DuplicateKey (k : string) | UnsafeInteger (v : option Json) | Syntax (msg : string).

Inductive F64 := Finite (m e : Z) | NonFinite.

(** What the deserializer offers the visitor: a scalar, a sequence or map that ends
    ([None]) or breaks off with a syntax error, or an error in place of a value. *)
Inductive Raw :=
| RUnit | RBool (b : bool) | RI64 (v : Z) | RU64 (v : N) | RF64 (v : F64) | RStr (s : string)
| RSeq (items : list Raw) (stop : option string)
| RMap (items : list (string * Raw)) (stop : option string)
| RBad (msg : string).

Class JsonSyntax := {
  lex : bytes -> Raw;
  trailing : bytes -> option string;   (* [de.end()] *)
}.

(** [v.fract() == 0.0] and [v.abs() > bound] of the dyadic [m * 2^e]. *)
Definition is_integral (m e : Z) : bool := (0 <=? e)%Z || (m mod 2 ^ (- e) =? 0)%Z.
Definition exceeds (m e bound : Z) : bool :=
  if (0 <=? e)%Z then (bound <? Z.abs m * 2 ^ e)%Z else (bound * 2 ^ (- e) <? Z.abs m)%Z.

Definition visit_i64 (v : Z) : result IJsonError Json :=
  if (MAX_SAFE_INTEGER <? Z.abs v)%Z then Err (UnsafeInteger (Some (JInt v))) else Ok (JInt v).

Definition visit_u64 (v : N) : result IJsonError Json :=
  if (MAX_SAFE_INTEGER <? Z.of_N v)%Z then Err (UnsafeInteger (Some (JInt (Z.of_N v)))) else Ok (JInt (Z.of_N v)).

Definition visit_f64 (v : F64) : result IJsonError Json :=
  match v with
  | NonFinite => Err (UnsafeInteger None)
  | Finite m e =>
      if is_integral m e && exceeds m e MAX_SAFE_INTEGER
      then Err (UnsafeInteger (Some (JFloat m e))) else Ok (JFloat m e)
  end.

(** [Map::insert] of a [BTreeMap]: the value replaced, if any, and the map. *)
Fixpoint map_insert {A} (k : string) (v : A) (m : list (string * A)) : option A * list (string * A) :=
  match m with
  | [] => (None, [(k, v)])
  | (k', v') :: m' =>
      if decide (k = k') then (Some v', (k, v) :: m')
      else if decide (text_le k k') then (None, (k, v) :: m)
      else let '(o, m'') := map_insert k v m' in (o, (k', v') :: m'')
  end.

(** [ValueSeed::count_node]: the counter after one more node. *)
Definition count_node (nodes : Z) : result IJsonError Z :=
  let next := (nodes + 1)%Z in
  if (MAX_NODES <? next)%Z then Err (TooManyNodes MAX_NODES) else Ok next.

Section visitor.
Context (max_depth : nat).

(** [visit_seq] and [visit_map]: the loops, over the seed's [deserialize]. *)
Section loops.
Context (de : Raw -> Z -> result IJsonError (Json * Z)).

Fixpoint visit_seq (items : list Raw) (stop : option string) (nodes : Z) : result IJsonError (list Json * Z) :=
  match items with
  | [] => match stop with Some msg => Err (Syntax msg) | None => Ok ([], nodes) end
  | r :: items =>
      '(v, nodes) ← de r nodes;
      '(vs, nodes) ← visit_seq items stop nodes;
      Ok (v :: vs, nodes)
  end.

Fixpoint visit_map (items : list (string * Raw)) (stop : option string) (m : list (string * Json)) (nodes : Z) :
  result IJsonError (list (string * Json) * Z) :=
  match items with
  | [] => match stop with Some msg => Err (Syntax msg) | None => Ok (m, nodes) end
  | (k, r) :: items =>
      '(v, nodes) ← de r nodes;
      match map_insert k v m with
      | (Some _, _) => Err (DuplicateKey k)
      | (None, m) => visit_map items stop m nodes
      end
  end.
End loops.

(** [ValueSeed::deserialize]. *)
Fixpoint deserialize (depth : nat) (r : Raw) (nodes : Z) {struct r} : result IJsonError (Json * Z) :=
  nodes ← count_node nodes;
  match r with
  | RBad msg => Err (Syntax msg)
  | RUnit => Ok (JNull, nodes)
  | RBool b => Ok (JBool b, nodes)
  | RStr s => Ok (JStr s, nodes)
  | RI64 v => j ← visit_i64 v; Ok (j, nodes)
  | RU64 v => j ← visit_u64 v; Ok (j, nodes)
  | RF64 v => j ← visit_f64 v; Ok (j, nodes)
  | RSeq items stop =>
      if decide (max_depth <= depth) then Err (TooDeep max_depth)
      else '(vs, nodes) ← visit_seq (deserialize (S depth)) items stop nodes; Ok (JArr vs, nodes)
  | RMap items stop =>
      if decide (max_depth <= depth) then Err (TooDeep max_depth)
      else '(m, nodes) ← visit_map (deserialize (S depth)) items stop [] nodes; Ok (JObj m, nodes)
  end.
End visitor.

Section parsing.
Context {SX : JsonSyntax}.

Definition parse_with_limits (b : bytes) (max_bytes : Z) (max_depth : nat) : result IJsonError Json :=
  let max_bytes := Z.min max_bytes MAX_BYTES in
  let max_depth := Nat.min max_depth MAX_DEPTH in
  if (max_bytes <? Z.of_nat (length b))%Z then Err (TooLarge (Z.of_nat (length b)) max_bytes)
  else
    '(v, _) ← deserialize max_depth 0 (lex b) 0;
    match trailing b with Some msg => Err (Syntax msg) | None => Ok v end.

Definition parse (b : bytes) : result IJsonError Json := parse_with_limits b MAX_BYTES MAX_DEPTH.
End parsing.

(** ** What is accepted *)

Definition safe_float (v : F64) : bool :=
  match v with NonFinite => false | Finite m e => negb (is_integral m e && exceeds m e MAX_SAFE_INTEGER) end.

(** A tree the reader accepts under [d] further levels of nesting. *)
Fixpoint acceptable (d : nat) (r : Raw) {struct r} : Prop :=
  match r with
  | RUnit | RBool _ | RStr _ => True
  | RI64 v => (Z.abs v <= MAX_SAFE_INTEGER)%Z
  | RU64 v => (Z.of_N v <= MAX_SAFE_INTEGER)%Z
  | RF64 v => safe_float v = true
  | RBad _ => False
  | RSeq items stop =>
      match d with
      | O => False
      | S d => stop = None /\ foldr (fun r rest => acceptable d r /\ rest) True items
      end
  | RMap items stop =>
      match d with
      | O => False
      | S d => stop = None /\ NoDup items.*1 /\ foldr (fun kr rest => acceptable d kr.2 /\ rest) True items
      end
  end.

(** The nodes of a tree, scalars and containers. *)
Fixpoint nodes (r : Raw) : Z :=
  match r with
  | RSeq items _ => 1 + foldr (fun r n => nodes r + n) 0 items
  | RMap items _ => 1 + foldr (fun kr n => nodes kr.2 + n) 0 items
  | _ => 1
  end%Z.

Definition put_entry (m : list (string * Json)) (kv : string * Json) : list (string * Json) :=
  (map_insert kv.1 kv.2 m).2.

(** [json!] of an object literal: a [Map] filled member by member. *)
Definition obj (l : list (string * Json)) : Json := JObj (foldl put_entry [] l).

(** The value a tree denotes. *)
Fixpoint value (r : Raw) : Json :=
  match r with
  | RUnit | RBad _ | RF64 NonFinite => JNull
  | RBool b => JBool b
  | RStr s => JStr s
  | RI64 v => JInt v
  | RU64 v => JInt (Z.of_N v)
  | RF64 (Finite m e) => JFloat m e
  | RSeq items _ => JArr (map value items)
  | RMap items _ => JObj (foldl put_entry [] (map (fun kr => (kr.1, value kr.2)) items))
  end.

Section raw_ind.
Context (P : Raw -> Prop)
  (Hleaf : forall r, (forall l s, r <> RSeq l s) -> (forall l s, r <> RMap l s) -> P r)
  (Hseq : forall l s, Forall P l -> P (RSeq l s)) (Hmap : forall l s, Forall (fun kr => P kr.2) l -> P (RMap l s)).

Fixpoint raw_ind' (r : Raw) : P r :=
  match r with
  | RSeq l s => Hseq l s ((fix go l : Forall P l := match l with
      | [] => List.Forall_nil _ | x :: l => @List.Forall_cons _ P x l (raw_ind' x) (go l) end) l)
  | RMap l s => Hmap l s ((fix go l : Forall (fun kr => P kr.2) l := match l with
      | [] => List.Forall_nil _
      | (k, x) :: l => @List.Forall_cons _ (fun kr => P kr.2) (k, x) l (raw_ind' x) (go l) end) l)
  | RUnit => Hleaf RUnit ltac:(done) ltac:(done)
  | RBool b => Hleaf (RBool b) ltac:(done) ltac:(done)
  | RI64 v => Hleaf (RI64 v) ltac:(done) ltac:(done)
  | RU64 v => Hleaf (RU64 v) ltac:(done) ltac:(done)
  | RF64 v => Hleaf (RF64 v) ltac:(done) ltac:(done)
  | RStr v => Hleaf (RStr v) ltac:(done) ltac:(done)
  | RBad v => Hleaf (RBad v) ltac:(done) ltac:(done)
  end.
End raw_ind.

(** ** Sorted maps *)

Definition key_lt (a b : string) : Prop := text_le a b /\ a <> b.

Definition keys_sorted {A} (m : list (string * A)) : Prop := StronglySorted key_lt m.*1.

#[global] Instance key_lt_trans : Transitive key_lt.
Proof.
  intros a b c [Hab Hn] [Hbc Hn']. split; [by etrans|]. intros ->. by destruct Hn, (anti_symm text_le c b).
Qed.

Lemma map_insert_spec {A} k (v : A) m o m' :
  keys_sorted m -> map_insert k v m = (o, m') ->
  (o = None <-> k ∉ m.*1) /\ keys_sorted m' /\ (forall x, x ∈ m'.*1 <-> x = k \/ x ∈ m.*1).
Proof.
  unfold keys_sorted. revert o m'. induction m as [|[k' v'] m IH]; intros o m' Hs; cbn [map_insert].
  { intros [= <- <-]. cbn. split; [set_solver|]. split; [repeat constructor|set_solver]. }
  cbn in Hs. apply StronglySorted_inv in Hs as [Hs Hk]. rewrite Forall_forall in Hk.
  destruct (decide (k = k')) as [->|Hne]; [|destruct (decide (text_le k k')) as [Hle|Hnle]].
  - intros [= <- <-]. cbn. split; [set_solver|]. split; [|set_solver]. constructor; [done|by apply Forall_forall].
  - intros [= <- <-]. cbn. assert (key_lt k k') as Hlt by done. split; [|split; [|set_solver]].
    + split; [|done]. intros _ [->|Hin]%elem_of_cons; [done|]. apply Hk in Hin as [? Hn].
      destruct Hn. by apply (anti_symm text_le).
    + constructor; [by constructor; [|apply Forall_forall]|]. apply Forall_forall.
      intros x [->|Hx]%elem_of_cons; [done|]. etrans; [done|by apply Hk].
  - destruct (map_insert k v m) as [o1 m1] eqn:E. intros [= <- <-]. destruct (IH o1 m1 Hs eq_refl) as (H1 & H2 & H3).
    cbn. split; [rewrite H1, not_elem_of_cons; naive_solver|]. split; [|intros x; rewrite !elem_of_cons, H3; tauto].
    constructor; [done|]. apply Forall_forall. intros x [->|Hx]%H3; [|by apply Hk].
    split; [|done]. by destruct (total text_le k k').
Qed.

(** ** The reader accepts exactly the acceptable trees *)

Lemma nodes_pos r : (1 <= nodes r)%Z.
Proof.
  induction r as [r H1 H2|l s IH|l s IH] using raw_ind'.
  - destruct r; cbn; try lia; by (destruct (H1 items stop) || destruct (H2 items stop)).
  - cbn. induction IH as [|r l Hr _ IHl]; cbn in *; lia.
  - cbn. induction IH as [|r l Hr _ IHl]; cbn in *; lia.
Qed.

Lemma count_node_Ok n n' : count_node n = Ok n' <-> (n + 1 <= MAX_NODES)%Z /\ n' = (n + 1)%Z.
Proof.
  unfold count_node. destruct (Z.ltb_spec MAX_NODES (n + 1)); split; [done|lia| |by intros [_ ->]].
  intros [= <-]. done.
Qed.

Lemma count_node_Err n e : count_node n = Err e -> (n + 1 <= MAX_NODES)%Z -> False.
Proof. unfold count_node. destruct (Z.ltb_spec MAX_NODES (n + 1)); [lia|done]. Qed.

Definition reads (md depth : nat) (r : Raw) : Prop := forall n v n',
  deserialize md depth r n = Ok (v, n') <->
  acceptable (md - depth) r /\ (n + nodes r <= MAX_NODES)%Z /\ v = value r /\ n' = (n + nodes r)%Z.

Lemma visit_seq_Ok md depth items stop :
  Forall (reads md depth) items -> forall n vs n', (n <= MAX_NODES)%Z ->
  visit_seq (deserialize md depth) items stop n = Ok (vs, n') <->
  stop = None /\ foldr (fun r rest => acceptable (md - depth) r /\ rest) True items /\
  (n + foldr (fun r n => nodes r + n) 0 items <= MAX_NODES)%Z /\
  vs = map value items /\ n' = (n + foldr (fun r n => nodes r + n) 0 items)%Z.
Proof.
  induction 1 as [|r items Hr _ IH]; intros n vs n' Hn; cbn [visit_seq foldr map].
  { destruct stop; [split; [done|by intros [? _]]|]. rewrite Z.add_0_r. split.
    - intros [= <- <-]. done.
    - by intros (_ & _ & _ & -> & ->). }
  assert (0 <= foldr (fun r n => nodes r + n) 0 items)%Z as Hpos.
  { clear. induction items as [|r l IHl]; cbn; [lia|]. pose proof (nodes_pos r). lia. }
  split.
  - destruct (deserialize md depth r n) as [[v n1]|] eqn:E; [|done]. cbn [mbind result_bind].
    apply Hr in E as (Ha & Hle & -> & ->).
    destruct (visit_seq _ items stop _) as [[ws n2]|] eqn:E2; [|done]. intros [= <- <-].
    apply IH in E2 as (-> & Hall & Hle2 & -> & ->); [|done]. repeat split; [done|done|lia|lia].
  - intros (-> & [Ha Hall] & Hle & -> & ->).
    rewrite (proj2 (Hr n (value r) (n + nodes r)%Z)) by (repeat split; [done|lia]). cbn [mbind result_bind].
    rewrite (proj2 (IH (n + nodes r)%Z (map value items) _ ltac:(lia))) by (repeat split; [done|lia]).
    cbn. do 2 f_equal. lia.
Qed.
Lemma visit_map_Ok md depth items stop :
  Forall (fun kr => reads md depth kr.2) items -> forall m n m' n', keys_sorted m -> (n <= MAX_NODES)%Z ->
  visit_map (deserialize md depth) items stop m n = Ok (m', n') <->
  stop = None /\ (NoDup items.*1 /\ (forall k, k ∈ items.*1 -> k ∉ m.*1)) /\
  foldr (fun kr rest => acceptable (md - depth) kr.2 /\ rest) True items /\
  (n + foldr (fun kr n => nodes kr.2 + n) 0 items <= MAX_NODES)%Z /\
  m' = foldl put_entry m (map (fun kr => (kr.1, value kr.2)) items) /\
  n' = (n + foldr (fun kr n => nodes kr.2 + n) 0 items)%Z.
Proof.
  induction 1 as [|[k r] items Hr _ IH]; intros m n m' n' Hm Hn; cbn [visit_map foldr map foldl fst snd].
  { destruct stop; [split; [done|by intros [? _]]|]. rewrite Z.add_0_r. split.
    - intros [= <- <-]. repeat split; [constructor|set_solver|done].
    - by intros (_ & _ & _ & _ & -> & ->). }
  assert (0 <= foldr (fun kr n => nodes kr.2 + n) 0 items)%Z as Hpos.
  { clear. induction items as [|kr l IHl]; cbn; [lia|]. pose proof (nodes_pos kr.2). lia. }
  cbn in Hr. cbn [fmap list_fmap fst]. change (list_fmap _ _ fst items) with (items.*1).
  unfold put_entry at 2. cbn [fst snd].
  destruct (map_insert k (value r) m) as [o m1] eqn:Ei.
  destruct (map_insert_spec _ _ _ _ _ Hm Ei) as (Hnone & Hs1 & Hk1). cbn [snd]. split.
  - destruct (deserialize md depth r n) as [[v n1]|] eqn:E; [|done]. cbn [mbind result_bind].
    apply Hr in E as (Ha & Hle & -> & ->). rewrite Ei. destruct o; [done|].
    intros (-> & [Hnd Hdis] & Hall & Hle2 & -> & ->)%IH; [|done..]. repeat split; [| |done|done|lia|lia].
    + constructor; [|done]. intros Hin. by apply (Hdis k), Hk1; [|left].
    + intros x [->|Hx]%elem_of_cons; [by apply Hnone|]. intros Hc. apply (Hdis x Hx), Hk1. by right.
  - intros (-> & [Hnd Hdis] & [Ha Hall] & Hle & -> & ->).
    rewrite (proj2 (Hr n (value r) (n + nodes r)%Z)) by (repeat split; [done|lia]). cbn [mbind result_bind].
    rewrite Ei. apply NoDup_cons in Hnd as [Hk Hnd].
    rewrite (proj2 Hnone) by (apply Hdis; left). apply IH; [done|lia|]. repeat split; [done| |done|lia|lia].
    intros x Hx [->|Hc]%Hk1; [done|]. apply (Hdis x); [by right|done].
Qed.

Lemma reads_seq md l s depth : Forall (fun r => forall depth, reads md depth r) l -> reads md depth (RSeq l s).
Proof.
  intros IH n v n'. pose proof (visit_seq_Ok md (S depth) l s) as Hv.
  specialize (Hv ltac:(eapply Forall_impl; [exact IH|intros r Hr; apply Hr])). revert Hv.
  change (nodes (RSeq l s)) with (1 + foldr (fun r n => nodes r + n) 0 l)%Z.
  cbn [deserialize value acceptable]. set (sum := foldr (fun r n => nodes r + n)%Z 0%Z l). intros Hv.
  assert (0 <= sum)%Z by (clear; subst sum; induction l as [|r l IHl]; cbn; [lia|pose proof (nodes_pos r); lia]).
  destruct (count_node n) as [n1|e] eqn:Ec; cbn [mbind result_bind].
  2: { split; [done|]. intros (_ & Hle & _). exfalso. eapply count_node_Err; [exact Ec|lia]. }
  apply count_node_Ok in Ec as [Hle ->]. destruct (decide (md <= depth)) as [Hd|Hd].
  { replace (md - depth) with 0 by lia. split; [done|by intros [[] _]]. }
  replace (md - depth) with (S (md - S depth)) by lia. specialize (Hv (n + 1)%Z). split.
  - destruct (visit_seq _ l s _) as [[vs n2]|]; [|done]. intros [= <- <-].
    destruct (proj1 (Hv vs n2 Hle) eq_refl) as (-> & Hall & Hle2 & -> & ->). repeat split; [done|lia..].
  - intros ([-> Hall] & Hle2 & -> & ->).
    rewrite (proj2 (Hv (map value l) (n + 1 + sum)%Z Hle)) by (repeat split; [done|lia]).
    cbn. do 2 f_equal. lia.
Qed.

Lemma reads_map md l s depth :
  Forall (fun kr => forall depth, reads md depth kr.2) l -> reads md depth (RMap l s).
Proof.
  intros IH n v n'. pose proof (visit_map_Ok md (S depth) l s) as Hv.
  specialize (Hv ltac:(eapply Forall_impl; [exact IH|intros r Hr; apply Hr])). revert Hv.
  change (nodes (RMap l s)) with (1 + foldr (fun kr n => nodes kr.2 + n) 0 l)%Z.
  cbn [deserialize value acceptable]. set (sum := foldr (fun kr n => nodes kr.2 + n)%Z 0%Z l). intros Hv.
  assert (0 <= sum)%Z by (clear; subst sum; induction l as [|r l IHl]; cbn; [lia|pose proof (nodes_pos r.2); lia]).
  destruct (count_node n) as [n1|e] eqn:Ec; cbn [mbind result_bind].
  2: { split; [done|]. intros (_ & Hle & _). exfalso. eapply count_node_Err; [exact Ec|lia]. }
  apply count_node_Ok in Ec as [Hle ->]. destruct (decide (md <= depth)) as [Hd|Hd].
  { replace (md - depth) with 0 by lia. split; [done|by intros [[] _]]. }
  replace (md - depth) with (S (md - S depth)) by lia. specialize (Hv [] (n + 1)%Z). split.
  - destruct (visit_map _ l s [] _) as [[vs n2]|]; [|done]. intros [= <- <-].
    destruct (proj1 (Hv vs n2 (SSorted_nil _) Hle) eq_refl) as (-> & [Hnd _] & Hall & Hle2 & -> & ->).
    repeat split; [done|done|lia..].
  - intros ((-> & Hnd & Hall) & Hle2 & -> & ->).
    rewrite (proj2 (Hv (foldl put_entry [] (map (fun kr => (kr.1, value kr.2)) l)) (n + 1 + sum)%Z (SSorted_nil _) Hle)); [cbn; do 2 f_equal; lia|].
    split; [done|]. split; [split; [done|set_solver]|]. repeat split; [done|lia].
Qed.

Lemma deserialize_reads md r : forall depth, reads md depth r.
Proof.
  induction r as [r H1 H2|l s IH|l s IH] using raw_ind'; intros depth n v n'.
  - destruct (count_node n) as [n1|e] eqn:Ec.
    + apply count_node_Ok in Ec as [Hle ->].
      assert (count_node n = Ok (n + 1)%Z) as Ec by by apply count_node_Ok.
      destruct r as [|b|z|z|[m e|]|s|l s|l s|msg]; try (by destruct (H1 l s)); try (by destruct (H2 l s));
        cbn [deserialize acceptable nodes value]; rewrite Ec; cbn [mbind result_bind];
        unfold visit_i64, visit_u64, visit_f64, safe_float;
        try (destruct (Z.ltb_spec MAX_SAFE_INTEGER (Z.abs z)));
        try (destruct (Z.ltb_spec MAX_SAFE_INTEGER (Z.of_N z)));
        try (destruct (is_integral m e && exceeds m e MAX_SAFE_INTEGER));
        (split; [intros [= <- <-]|intros (Ha & _ & -> & ->)]; repeat split; try done; try lia).
    + pose proof (nodes_pos r). split; [destruct r; cbn [deserialize]; rewrite Ec; done|].
      intros (_ & Hle & _). exfalso. eapply count_node_Err; [exact Ec|lia].
  - by apply reads_seq.
  - by apply reads_map.
Qed.

Section reader.
Context {SX : JsonSyntax}.

Lemma parse_with_limits_Ok b max_bytes max_depth v :
  parse_with_limits b max_bytes max_depth = Ok v <->
  (Z.of_nat (length b) <= Z.min max_bytes MAX_BYTES)%Z /\ trailing b = None /\
  acceptable (Nat.min max_depth MAX_DEPTH) (lex b) /\ (nodes (lex b) <= MAX_NODES)%Z /\ v = value (lex b).
Proof.
  unfold parse_with_limits. set (md := Nat.min max_depth MAX_DEPTH).
  pose proof (deserialize_reads md (lex b) 0 0%Z) as Hr. rewrite Nat.sub_0_r in Hr.
  destruct (Z.ltb_spec (Z.min max_bytes MAX_BYTES) (Z.of_nat (length b))) as [Hlt|Hge].
  { split; [done|]. intros [Hle _]. lia. }
  split.
  - destruct (deserialize md 0 (lex b) 0) as [[w n]|]; [|done]. cbn.
    destruct (proj1 (Hr w n) eq_refl) as (Ha & Hn & -> & _). destruct (trailing b); [done|]. by intros [= <-].
  - intros (_ & Ht & Ha & Hn & ->). rewrite (proj2 (Hr (value (lex b)) (0 + nodes (lex b))%Z)) by done.
    cbn. by rewrite Ht.
Qed.

(** *** Values that canonicalize without loss *)

(** Integers exactly representable, floats that are no large integers, unique keys in
    order, and at most [d] levels of containers. *)
Inductive strict : nat -> Json -> Prop :=
| strict_null d : strict d JNull
| strict_bool d b : strict d (JBool b)
| strict_str d s : strict d (JStr s)
| strict_int d z : (Z.abs z <= MAX_SAFE_INTEGER)%Z -> strict d (JInt z)
| strict_float d m e : safe_float (Finite m e) = true -> strict d (JFloat m e)
| strict_arr d l : Forall (strict d) l -> strict (S d) (JArr l)
| strict_obj d l : keys_sorted l -> Forall (fun kv => strict d kv.2) l -> strict (S d) (JObj l).

Lemma map_insert_Forall {A} (P : string * A -> Prop) k v m :
  P (k, v) -> Forall P m -> Forall P (map_insert k v m).2.
Proof.
  intros Hkv. induction 1 as [|[k' v'] m Hp Hm IH]; cbn; [by repeat constructor|].
  destruct (decide _); [by constructor|]. destruct (decide _); [by repeat constructor|].
  destruct (map_insert k v m). by constructor.
Qed.

Lemma put_entries_sorted l m :
  keys_sorted m -> keys_sorted (foldl put_entry m l).
Proof.
  revert m. induction l as [|[k v] l IH]; intros m Hm; [done|]. cbn. apply IH. unfold put_entry. cbn.
  destruct (map_insert k v m) as [o m'] eqn:E. by destruct (map_insert_spec _ _ _ _ _ Hm E) as (_ & ? & _).
Qed.

Lemma put_entries_Forall P l m : Forall P m -> Forall P l -> Forall P (foldl put_entry m l).
Proof.
  intros Hm Hl. revert m Hm. induction Hl as [|[k v] l Hp _ IH]; intros m Hm; [done|]. cbn.
  apply IH. by apply map_insert_Forall.
Qed.

Lemma foldr_and {A} (P : A -> Prop) l : foldr (fun x rest => P x /\ rest) True l <-> Forall P l.
Proof. induction l as [|x l IH]; cbn; [done|]. by rewrite Forall_cons, IH. Qed.

Lemma value_strict r : forall d, acceptable d r -> strict d (value r).
Proof.
  induction r as [r H1 H2|l s IH|l s IH] using raw_ind'; intros d Ha.
  - destruct r as [|b|z|z|[m e|]|s|l s|l s|msg]; try (by destruct (H1 l s)); try (by destruct (H2 l s));
      cbn in *; try done; constructor; [done|lia|done].
  - destruct d as [|d]; [done|]. destruct Ha as [_ Ha%foldr_and]. constructor. apply Forall_fmap.
    apply Forall_forall. intros r Hr. rewrite Forall_forall in IH, Ha. by apply IH; [|apply Ha].
  - destruct d as [|d]; [done|]. destruct Ha as (_ & _ & Ha%(foldr_and (fun kr => acceptable d kr.2))).
    constructor; [apply put_entries_sorted; constructor|]. apply put_entries_Forall; [constructor|].
    apply Forall_fmap, Forall_forall. intros r Hr. rewrite Forall_forall in IH, Ha.
    by apply IH; [|apply Ha].
Qed.

(** C35. The reader returns a value exactly for an input within the byte limit, with
    nothing behind it, whose syntax tree is complete, within the depth and node limits, without a
    repeated key and without an integer beyond the exactly representable range; the value is the
    tree's, and it is strict. The limits a caller passes can only lower the module's own. *)
Theorem ijson_reader b max_bytes max_depth v :
  (parse_with_limits b max_bytes max_depth = Ok v <->
   (Z.of_nat (length b) <= Z.min max_bytes MAX_BYTES)%Z /\ trailing b = None /\
   acceptable (Nat.min max_depth MAX_DEPTH) (lex b) /\ (nodes (lex b) <= MAX_NODES)%Z /\ v = value (lex b)) /\
  (parse_with_limits b max_bytes max_depth = Ok v -> strict (Nat.min max_depth MAX_DEPTH) v).
Proof.
  split; [apply parse_with_limits_Ok|].
  intros (_ & _ & Ha & _ & ->)%parse_with_limits_Ok. by apply value_strict.
Qed.
End reader.
End IJson.
