(* ===== verification/Broker.v ===== *)
(** The processor broker's pure core (akson-broker/src/address.rs,
    akson-broker/src/processor.rs, akson-broker/src/call.rs): the two egress gates,
    the processor configuration and its digest, and the pre-dispatch call record
    with its derived idempotency key. *)
From S2P Require Import Prelude Crypto Json.

Import Json.

Module Broker.

(** ** Destinations *)

Record Origin := mkOrigin { scheme : string; host : string; port : Z }.

#[global] Instance Origin_eq_dec : EqDecision Origin.
Proof. solve_decision. Defined.

(** [str::to_ascii_lowercase]. *)
Definition lower (c : ascii) : ascii :=
  let n := byte_to_Z c in
  if (65 <=? n)%Z && (n <=? 90)%Z then byte_of_Z (n + 32) else c.

Definition to_ascii_lowercase (s : string) : string := from_utf8 (lower <$> as_bytes s).

Definition https (h : string) (p : Z) : Origin := mkOrigin "https" (to_ascii_lowercase h) p.

Record EgressPolicy := mkPolicy { origin_allowlist : list Origin; allow_non_global : bool }.

Definition allowing (origins : list Origin) : EgressPolicy := mkPolicy origins false.

Definition allow_local (p : EgressPolicy) : EgressPolicy := mkPolicy (origin_allowlist p) true.

(** [std::net::Ipv4Addr] by octets and [Ipv6Addr] by 16-bit segments. *)
Record Ipv4Addr := V4 { o0 : Z; o1 : Z; o2 : Z; o3 : Z }.
Record Ipv6Addr := V6 { s0 : Z; s1 : Z; s2 : Z; s3 : Z; s4 : Z; s5 : Z; s6 : Z; s7 : Z }.
Inductive IpAddr := IpV4 (a : Ipv4Addr) | IpV6 (a : Ipv6Addr).

Inductive EgressError :=
| NotHttps (scheme : string)
| OriginNotAllowed (host : string) (port : Z)
| NonGlobalAddress (addr : IpAddr) (class : string).

Definition check_origin (origin : Origin) (policy : EgressPolicy) : result EgressError () :=
  if decide (scheme origin <> "https") then Err (NotHttps (scheme origin))
  else if negb (existsb (fun o => bool_decide (o = origin)) (origin_allowlist policy)) then
    Err (OriginNotAllowed (host origin) (port origin))
  else Ok ().

(** The standard library's predicates. *)
Definition v4_is_unspecified (a : Ipv4Addr) : bool :=
  (o0 a =? 0)%Z && (o1 a =? 0)%Z && (o2 a =? 0)%Z && (o3 a =? 0)%Z.
Definition v4_is_loopback (a : Ipv4Addr) : bool := (o0 a =? 127)%Z.
Definition v4_is_private (a : Ipv4Addr) : bool :=
  (o0 a =? 10)%Z || ((o0 a =? 172)%Z && (16 <=? o1 a)%Z && (o1 a <=? 31)%Z)
  || ((o0 a =? 192)%Z && (o1 a =? 168)%Z).
Definition v4_is_link_local (a : Ipv4Addr) : bool := (o0 a =? 169)%Z && (o1 a =? 254)%Z.
Definition v4_is_broadcast (a : Ipv4Addr) : bool :=
  (o0 a =? 255)%Z && (o1 a =? 255)%Z && (o2 a =? 255)%Z && (o3 a =? 255)%Z.
Definition v4_is_multicast (a : Ipv4Addr) : bool := (224 <=? o0 a)%Z && (o0 a <=? 239)%Z.
Definition v4_is_documentation (a : Ipv4Addr) : bool :=
  ((o0 a =? 192)%Z && (o1 a =? 0)%Z && (o2 a =? 2)%Z)
  || ((o0 a =? 198)%Z && (o1 a =? 51)%Z && (o2 a =? 100)%Z)
  || ((o0 a =? 203)%Z && (o1 a =? 0)%Z && (o2 a =? 113)%Z).

Definition non_global_v4 (v4 : Ipv4Addr) : option string :=
  if v4_is_unspecified v4 then Some "unspecified"
  else if v4_is_loopback v4 then Some "loopback"
  else if v4_is_private v4 then Some "private"
  else if v4_is_link_local v4 then Some "link-local"
  else if v4_is_broadcast v4 then Some "broadcast"
  else if v4_is_multicast v4 then Some "multicast"
  else if v4_is_documentation v4 then Some "documentation"
  else if (o0 v4 =? 100)%Z && (Z.land (o1 v4) 0xc0 =? 0x40)%Z then Some "shared-cgnat"
  else if (o0 v4 =? 192)%Z && (o1 v4 =? 0)%Z && (o2 v4 =? 0)%Z then Some "protocol-assignment"
  else if (o0 v4 =? 198)%Z && (Z.land (o1 v4) 0xfe =? 18)%Z then Some "benchmarking"
  else if (240 <=? o0 v4)%Z then Some "reserved"
  else None.

(** The IPv4 address in the low 32 bits. *)
Definition embedded_v4 (a : Ipv6Addr) : Ipv4Addr :=
  V4 (Z.shiftr (s6 a) 8) (Z.land (s6 a) 0xff) (Z.shiftr (s7 a) 8) (Z.land (s7 a) 0xff).

Definition v6_is_unspecified (a : Ipv6Addr) : bool :=
  (s0 a =? 0)%Z && (s1 a =? 0)%Z && (s2 a =? 0)%Z && (s3 a =? 0)%Z && (s4 a =? 0)%Z
  && (s5 a =? 0)%Z && (s6 a =? 0)%Z && (s7 a =? 0)%Z.
Definition v6_is_loopback (a : Ipv6Addr) : bool :=
  (s0 a =? 0)%Z && (s1 a =? 0)%Z && (s2 a =? 0)%Z && (s3 a =? 0)%Z && (s4 a =? 0)%Z
  && (s5 a =? 0)%Z && (s6 a =? 0)%Z && (s7 a =? 1)%Z.
Definition to_ipv4_mapped (a : Ipv6Addr) : option Ipv4Addr :=
  if (s0 a =? 0)%Z && (s1 a =? 0)%Z && (s2 a =? 0)%Z && (s3 a =? 0)%Z && (s4 a =? 0)%Z
     && (s5 a =? 0xffff)%Z
  then Some (embedded_v4 a) else None.
Definition v6_is_multicast (a : Ipv6Addr) : bool := (Z.land (s0 a) 0xff00 =? 0xff00)%Z.

(** [Option::or]. *)
Definition or_class (o : option string) (c : string) : option string :=
  match o with Some x => Some x | None => Some c end.

Definition non_global_v6 (v6 : Ipv6Addr) : option string :=
  if v6_is_unspecified v6 then Some "unspecified"
  else if v6_is_loopback v6 then Some "loopback"
  else match to_ipv4_mapped v6 with
  | Some v4 => or_class (non_global_v4 v4) "ipv4-mapped"
  | None =>
      if (s0 v6 =? 0x0064)%Z && (s1 v6 =? 0xff9b)%Z && (s2 v6 =? 0)%Z && (s3 v6 =? 0)%Z
         && (s4 v6 =? 0)%Z && (s5 v6 =? 0)%Z
      then or_class (non_global_v4 (embedded_v4 v6)) "nat64"
      else if v6_is_multicast v6 then Some "multicast"
      else if (Z.land (s0 v6) 0xffc0 =? 0xfec0)%Z then Some "site-local"
      else if (s0 v6 =? 0x0064)%Z && (s1 v6 =? 0xff9b)%Z && (s2 v6 =? 0x0001)%Z then Some "nat64-local"
      else if (Z.land (s0 v6) 0xfe00 =? 0xfc00)%Z then Some "unique-local"
      else if (Z.land (s0 v6) 0xffc0 =? 0xfe80)%Z then Some "link-local"
      else if (s0 v6 =? 0x2001)%Z && (s1 v6 =? 0x0db8)%Z then Some "documentation"
      else if (s0 v6 =? 0)%Z && (s1 v6 =? 0)%Z && (s2 v6 =? 0)%Z && (s3 v6 =? 0)%Z && (s4 v6 =? 0)%Z
              && (s5 v6 =? 0)%Z
      then Some "ipv4-compatible"
      else None
  end.

Definition non_global_class (addr : IpAddr) : option string :=
  match addr with IpV4 a => non_global_v4 a | IpV6 a => non_global_v6 a end.

Definition check_resolved_address (addr : IpAddr) (policy : EgressPolicy) : result EgressError () :=
  match non_global_class addr with
  | Some class => if negb (allow_non_global policy) then Err (NonGlobalAddress addr class) else Ok ()
  | None => Ok ()
  end.

(** ** Configuration and calls *)

Inductive ProcessorLocation := Local | Remote.

#[global] Instance ProcessorLocation_eq_dec : EqDecision ProcessorLocation.
Proof. solve_decision. Defined.

Record Disclosure := mkDisclosure {
  location : ProcessorLocation;
  operator : option string;
  region : option string;
  retention : option string;
  trains_on_data : option bool;
  subprocessors : list string;
}.

Definition local : Disclosure := mkDisclosure Local None None None None [].
Definition remote (op reg : string) : Disclosure := mkDisclosure Remote (Some op) (Some reg) None None [].
Definition retains (d : Disclosure) (r : string) : Disclosure :=
  mkDisclosure (location d) (operator d) (region d) (Some r) (trains_on_data d) (subprocessors d).

Inductive AuthScheme := Bearer | Header (header : string) | NoAuth.

Record ProcessorConfig := mkConfig {
  processor_id : string;
  provider : string;
  origin : Origin;
  disclosure : Disclosure;
  path : string;
  auth : AuthScheme;
  headers : list (string * string);
  config : Json;
  tls_certificate_sha256 : option string;
}.

Definition is_local (c : ProcessorConfig) : bool := bool_decide (location (disclosure c) = Local).

(** The header line that carries the credential (its bytes shown as text). *)
Definition header_line (a : AuthScheme) (credential : string) : option string :=
  match a with
  | Bearer => Some ("Authorization: Bearer " +:+ credential)
  | Header h => Some (h +:+ ": " +:+ credential)
  | NoAuth => None
  end.

Record CallBinding := mkBinding { b_work_order_id : string; b_work_order_digest : string; b_task_id : string }.

Record CallBudget := mkBudget {
  u_max_cost_microusd : Z;
  u_deadline : string;
  u_max_response_bytes : Z;
  u_max_operations : Z;
}.

Record ProcessorCall := mkCall {
  c_processor_id : string;
  c_provider : string;
  c_origin : Origin;
  config_digest_of : string;
  request_digest : string;
  c_work_order_id : string;
  c_work_order_digest : string;
  c_task_id : string;
  idempotency_key : string;
  c_max_cost_microusd : Z;
  c_deadline : string;
  c_max_response_bytes : Z;
}.

Inductive CallError := NotCanonical.

Section calls.
Context {HS : Hashes} {HX : Hex} {CN : Canon Json}.

Definition origin_json (o : Origin) : Json :=
  JObj [("scheme", JStr (scheme o)); ("host", JStr (host o)); ("port", JInt (port o))].

(** What the digest of a configuration covers. *)
Definition bound_json (c : ProcessorConfig) : Json :=
  JObj [("provider", JStr (provider c)); ("origin", origin_json (origin c)); ("path", JStr (path c));
        ("headers", JArr ((fun h => JArr [JStr h.1; JStr h.2]) <$> headers c)); ("config", config c)].

(** [hex::encode(Sha256::digest(json_canon::to_vec(v)?))]. *)
Definition json_digest (v : Json) : result CallError string :=
  b ← ok_or (to_canon v) NotCanonical; Ok (hex_encode (sha256 b)).

Definition config_digest (c : ProcessorConfig) : result CallError string := json_digest (bound_json c).

Definition key_material (work_order config request : string) : Json :=
  JObj [("work_order_id", JStr work_order); ("config_digest", JStr config);
        ("request_digest", JStr request)].

Definition derive_idempotency_key (work_order config request : string) : result CallError string :=
  json_digest (key_material work_order config request).

Definition prepare (c : ProcessorConfig) (request_plaintext : bytes) (binding : CallBinding)
  (budget : CallBudget) : result CallError ProcessorCall :=
  cd ← config_digest c;
  let rd := hex_encode (sha256 request_plaintext) in
  key ← derive_idempotency_key (b_work_order_id binding) cd rd;
  Ok (mkCall (processor_id c) (provider c) (origin c) cd rd (b_work_order_id binding)
        (b_work_order_digest binding) (b_task_id binding) key (u_max_cost_microusd budget)
        (u_deadline budget) (u_max_response_bytes budget)).
End calls.

(** ** The egress gates *)

(** The address ranges the broker means to refuse, as address blocks: first
    address and prefix length. *)
Definition v4_value (a : Ipv4Addr) : Z := (((o0 a * 256 + o1 a) * 256 + o2 a) * 256 + o3 a)%Z.

Definition v6_value (a : Ipv6Addr) : Z :=
  (((((((s0 a * 65536 + s1 a) * 65536 + s2 a) * 65536 + s3 a) * 65536 + s4 a) * 65536 + s5 a) * 65536
     + s6 a) * 65536 + s7 a)%Z.

Definition wf_v4 (a : Ipv4Addr) : Prop :=
  (0 <= o0 a < 256 /\ 0 <= o1 a < 256 /\ 0 <= o2 a < 256 /\ 0 <= o3 a < 256)%Z.

Definition wf_v6 (a : Ipv6Addr) : Prop :=
  Forall (fun s => 0 <= s < 65536)%Z [s0 a; s1 a; s2 a; s3 a; s4 a; s5 a; s6 a; s7 a].

Definition in_block (width : Z) (v : Z) (block : Z * Z) : bool :=
  ((block.1 <=? v) && (v <? block.1 + 2 ^ (width - block.2)))%Z.

Definition v4_blocks : list (Z * Z) :=
  [(v4_value (V4 0 0 0 0), 32); (v4_value (V4 127 0 0 0), 8); (v4_value (V4 10 0 0 0), 8);
   (v4_value (V4 172 16 0 0), 12); (v4_value (V4 192 168 0 0), 16); (v4_value (V4 169 254 0 0), 16);
   (v4_value (V4 255 255 255 255), 32); (v4_value (V4 224 0 0 0), 4); (v4_value (V4 192 0 2 0), 24);
   (v4_value (V4 198 51 100 0), 24); (v4_value (V4 203 0 113 0), 24); (v4_value (V4 100 64 0 0), 10);
   (v4_value (V4 192 0 0 0), 24); (v4_value (V4 198 18 0 0), 15); (v4_value (V4 240 0 0 0), 4)]%Z.

Definition v6_blocks : list (Z * Z) :=
  [(0, 96); (v6_value (V6 0 0 0 0 0 0xffff 0 0), 96); (v6_value (V6 0x64 0xff9b 0 0 0 0 0 0), 96);
   (v6_value (V6 0xff00 0 0 0 0 0 0 0), 8); (v6_value (V6 0xfec0 0 0 0 0 0 0 0), 10);
   (v6_value (V6 0x64 0xff9b 1 0 0 0 0 0), 48); (v6_value (V6 0xfc00 0 0 0 0 0 0 0), 7);
   (v6_value (V6 0xfe80 0 0 0 0 0 0 0), 10); (v6_value (V6 0x2001 0xdb8 0 0 0 0 0 0), 32)]%Z.

Definition refused (addr : IpAddr) : bool :=
  match addr with
  | IpV4 a => existsb (in_block 32 (v4_value a)) v4_blocks
  | IpV6 a => existsb (in_block 128 (v6_value a)) v6_blocks
  end.

Definition wf_addr (addr : IpAddr) : Prop :=
  match addr with IpV4 a => wf_v4 a | IpV6 a => wf_v6 a end.

(** Masking the high bits of an [n]-bit number keeps its multiple of [2^k]. *)
Lemma land_high n k x :
  (0 <= k <= n -> 0 <= x < 2 ^ n -> Z.land x (2 ^ n - 2 ^ k) = x / 2 ^ k * 2 ^ k)%Z.
Proof.
  intros Hk Hx. rewrite <- (Z.shiftr_div_pow2 x k), <- Z.shiftl_mul_pow2 by lia.
  apply Z.bits_inj'. intros i Hi.
  rewrite Z.land_spec, Z.shiftl_spec by lia.
  replace (2 ^ n - 2 ^ k)%Z with (Z.shiftl (Z.ones (n - k)) k).
  2: { rewrite Z.shiftl_mul_pow2, Z.ones_equiv by lia. rewrite <- Z.sub_1_r, Z.mul_sub_distr_r, <- Z.pow_add_r by lia.
       f_equal; [f_equal; lia|lia]. }
  rewrite Z.shiftl_spec by lia. destruct (Z.lt_ge_cases i k).
  - rewrite !(Z.testbit_neg_r _ (i - k)) by lia. by rewrite andb_false_r.
  - rewrite Z.shiftr_spec by lia. replace (i - k + k)%Z with i by lia.
    destruct (Z.lt_ge_cases i n).
    + rewrite Z.ones_spec_low by lia. apply andb_true_r.
    + rewrite Z.ones_spec_high by lia. rewrite andb_false_r. symmetry.
      destruct (Z.eq_dec x 0%Z) as [->|]; [apply Z.testbit_0_l|].
      apply Z.bits_above_log2; [lia|]. apply Z.log2_lt_pow2; [lia|].
      eapply Z.lt_le_trans; [apply Hx|]. apply Z.pow_le_mono_r; lia.
Qed.

(** The mask tests of the code, as ranges. *)
Lemma mask_range n k x m :
  (0 <= k <= n -> 0 <= x < 2 ^ n -> m = m / 2 ^ k * 2 ^ k ->
   (Z.land x (2 ^ n - 2 ^ k) =? m) = ((m <=? x) && (x <? m + 2 ^ k)))%Z.
Proof.
  intros Hk Hx Hm. rewrite land_high by done. assert (0 < 2 ^ k)%Z by (apply Z.pow_pos_nonneg; lia).
  set (p := (2 ^ k)%Z) in *. set (q := (m / p)%Z) in *. clearbody p q.
  pose proof (Z.div_mod x p ltac:(lia)) as Hd. pose proof (Z.mod_pos_bound x p ltac:(lia)).
  apply eq_true_iff_eq. rewrite andb_true_iff, Z.eqb_eq, Z.leb_le, Z.ltb_lt. subst m. split.
  - intros He. rewrite (Z.mul_comm p) in Hd. lia.
  - intros [? ?]. by rewrite <- (Z.div_unique x p q (x - q * p)) by lia.
Qed.

Lemma if_None {A} (b : bool) (x : A) o : (if b then Some x else o) = None <-> b = false /\ o = None.
Proof. destruct b; naive_solver. Qed.

(** A test of the code is membership in a block. *)
Ltac block_eq :=
  repeat match goal with v := _ : Z |- _ => subst v end;
  apply eq_true_iff_eq; unfold in_block, v4_value, v6_value; cbn [fst snd o0 o1 o2 o3 s0 s1 s2 s3 s4 s5 s6 s7];
  rewrite ?andb_true_iff, ?Z.eqb_eq, ?Z.leb_le, ?Z.ltb_lt; cbn; lia.

Lemma v4_gate a : wf_v4 a -> (non_global_v4 a = None <-> existsb (in_block 32 (v4_value a)) v4_blocks = false).
Proof.
  destruct a as [a b c d]. unfold wf_v4. cbn [o0 o1 o2 o3]. intros (Ha & Hb & Hc & Hd).
  unfold non_global_v4, v4_is_unspecified, v4_is_loopback, v4_is_private, v4_is_link_local, v4_is_broadcast,
    v4_is_multicast, v4_is_documentation. cbn [o0 o1 o2 o3].
  change (Z.land b 0xc0) with (Z.land b (2 ^ 8 - 2 ^ 6)). change (Z.land b 0xfe) with (Z.land b (2 ^ 8 - 2 ^ 1)).
  rewrite (mask_range 8 6 b 0x40), (mask_range 8 1 b 18) by (vm_compute; try done; lia).
  set (v := v4_value (V4 a b c d)).
  replace ((a =? 0) && (b =? 0) && (c =? 0) && (d =? 0))%Z with (in_block 32 v (v4_value (V4 0 0 0 0), 32)%Z) by block_eq.
  replace (a =? 127)%Z with (in_block 32 v (v4_value (V4 127 0 0 0), 8)%Z) by block_eq.
  replace (a =? 10)%Z with (in_block 32 v (v4_value (V4 10 0 0 0), 8)%Z) by block_eq.
  replace ((a =? 172) && (16 <=? b) && (b <=? 31))%Z with (in_block 32 v (v4_value (V4 172 16 0 0), 12)%Z) by block_eq.
  replace ((a =? 192) && (b =? 168))%Z with (in_block 32 v (v4_value (V4 192 168 0 0), 16)%Z) by block_eq.
  replace ((a =? 169) && (b =? 254))%Z with (in_block 32 v (v4_value (V4 169 254 0 0), 16)%Z) by block_eq.
  replace ((a =? 255) && (b =? 255) && (c =? 255) && (d =? 255))%Z with (in_block 32 v (v4_value (V4 255 255 255 255), 32)%Z) by block_eq.
  replace ((224 <=? a) && (a <=? 239))%Z with (in_block 32 v (v4_value (V4 224 0 0 0), 4)%Z) by block_eq.
  replace ((a =? 192) && (b =? 0) && (c =? 2))%Z with (in_block 32 v (v4_value (V4 192 0 2 0), 24)%Z) by block_eq.
  replace ((a =? 198) && (b =? 51) && (c =? 100))%Z with (in_block 32 v (v4_value (V4 198 51 100 0), 24)%Z) by block_eq.
  replace ((a =? 203) && (b =? 0) && (c =? 113))%Z with (in_block 32 v (v4_value (V4 203 0 113 0), 24)%Z) by block_eq.
  replace ((a =? 100) && ((0x40 <=? b) && (b <? 0x40 + 2 ^ 6)))%Z with (in_block 32 v (v4_value (V4 100 64 0 0), 10)%Z) by block_eq.
  replace ((a =? 192) && (b =? 0) && (c =? 0))%Z with (in_block 32 v (v4_value (V4 192 0 0 0), 24)%Z) by block_eq.
  replace ((a =? 198) && ((18 <=? b) && (b <? 18 + 2 ^ 1)))%Z with (in_block 32 v (v4_value (V4 198 18 0 0), 15)%Z) by block_eq.
  replace (240 <=? a)%Z with (in_block 32 v (v4_value (V4 240 0 0 0), 4)%Z) by block_eq.
  rewrite !if_None. unfold v4_blocks. cbn [existsb]. rewrite !orb_false_iff. tauto.
Qed.

(** The chain of the code: the embedded forms always have a class. *)
Lemma or_class_None o c : or_class o c <> None.
Proof. by destruct o. Qed.

Lemma v6_gate a : wf_v6 a -> (non_global_v6 a = None <-> existsb (in_block 128 (v6_value a)) v6_blocks = false).
Proof.
  destruct a as [a b c d e f g h]. unfold wf_v6. rewrite !Forall_cons. cbn [s0 s1 s2 s3 s4 s5 s6 s7].
  intros (Ha & Hb & Hc & Hd & He & Hf & Hg & Hh & _).
  unfold non_global_v6, v6_is_unspecified, v6_is_loopback, to_ipv4_mapped, v6_is_multicast.
  cbn [s0 s1 s2 s3 s4 s5 s6 s7].
  change (Z.land a 0xff00) with (Z.land a (2 ^ 16 - 2 ^ 8)).
  change (Z.land a 0xffc0) with (Z.land a (2 ^ 16 - 2 ^ 6)).
  change (Z.land a 0xfe00) with (Z.land a (2 ^ 16 - 2 ^ 9)).
  rewrite (mask_range 16 8 a 0xff00), (mask_range 16 6 a 0xfec0), (mask_range 16 9 a 0xfc00),
    (mask_range 16 6 a 0xfe80) by (vm_compute; try done; lia).
  set (v := v6_value (V6 a b c d e f g h)).
  set (zeros := ((a =? 0) && (b =? 0) && (c =? 0) && (d =? 0) && (e =? 0) && (f =? 0))%Z).
  assert (zeros = in_block 128 v (0, 96)%Z) as Hz by (subst zeros; block_eq).
  set (mapped := ((a =? 0) && (b =? 0) && (c =? 0) && (d =? 0) && (e =? 0) && (f =? 0xffff))%Z).
  assert (mapped = in_block 128 v (v6_value (V6 0 0 0 0 0 0xffff 0 0), 96)%Z) as Hm by (subst mapped; block_eq).
  set (nat64 := ((a =? 100) && (b =? 65435) && (c =? 0) && (d =? 0) && (e =? 0) && (f =? 0))%Z).
  assert (nat64 = in_block 128 v (v6_value (V6 0x64 0xff9b 0 0 0 0 0 0), 96)%Z) as Hn by (subst nat64; block_eq).
  unfold v6_blocks. cbn [existsb]. rewrite !orb_false_iff.
  rewrite <- Hz, <- Hm, <- Hn.
  replace (in_block 128 v (v6_value (V6 0xff00 0 0 0 0 0 0 0), 8)%Z)
    with ((0xff00 <=? a) && (a <? 0xff00 + 2 ^ 8))%Z by block_eq.
  replace (in_block 128 v (v6_value (V6 0xfec0 0 0 0 0 0 0 0), 10)%Z)
    with ((0xfec0 <=? a) && (a <? 0xfec0 + 2 ^ 6))%Z by block_eq.
  replace (in_block 128 v (v6_value (V6 0x64 0xff9b 1 0 0 0 0 0), 48)%Z)
    with ((a =? 0x64) && (b =? 0xff9b) && (c =? 1))%Z by block_eq.
  replace (in_block 128 v (v6_value (V6 0xfc00 0 0 0 0 0 0 0), 7)%Z)
    with ((0xfc00 <=? a) && (a <? 0xfc00 + 2 ^ 9))%Z by block_eq.
  replace (in_block 128 v (v6_value (V6 0xfe80 0 0 0 0 0 0 0), 10)%Z)
    with ((0xfe80 <=? a) && (a <? 0xfe80 + 2 ^ 6))%Z by block_eq.
  replace (in_block 128 v (v6_value (V6 0x2001 0xdb8 0 0 0 0 0 0), 32)%Z)
    with ((a =? 0x2001) && (b =? 0xdb8))%Z by block_eq.
  clear Hz Hm Hn. clearbody mapped nat64.
  destruct mapped; [|destruct nat64]; rewrite ?if_None; cbn beta iota.
  - pose proof (or_class_None (non_global_v4 (embedded_v4 (V6 a b c d e f g h))) "ipv4-mapped"). naive_solver.
  - pose proof (or_class_None (non_global_v4 (embedded_v4 (V6 a b c d e f g h))) "nat64"). naive_solver.
  - clearbody zeros. destruct zeros; simpl; split; intros; destruct_and!; try done; by split_and!.
Qed.

(** The egress gates, against the table of address blocks. A destination passes
    the first gate exactly when it is https and one of the configured origins. The
    address it resolved to passes the second exactly when it is outside every
    refused block, IPv4-mapped and NAT64-translated addresses included, or the
    policy is for a declared-local processor. *)
Theorem egress_gate o addr p :
  wf_addr addr ->
  (check_origin o p = Ok () <-> scheme o = "https" /\ o ∈ origin_allowlist p) /\
  (check_resolved_address addr p = Ok () <-> allow_non_global p = true \/ refused addr = false).
Proof.
  intros Hwf. split.
  - unfold check_origin. case_decide as Hs; [naive_solver|].
    destruct (existsb _ _) eqn:E; simpl.
    + apply existsb_exists in E as (x & Hx & ->%bool_decide_eq_true). rewrite list_elem_of_In. naive_solver.
    + split; [done|]. intros [_ Hin]. exfalso. revert E. apply not_false_iff_true, existsb_exists.
      exists o. split; [by apply list_elem_of_In|by apply bool_decide_eq_true].
  - unfold check_resolved_address, non_global_class, refused.
    assert (non_global_class addr = None <-> refused addr = false) as Hg
      by (destruct addr; [by apply v4_gate|by apply v6_gate]).
    fold (non_global_class addr) (refused addr) in *.
    destruct (non_global_class addr), (allow_non_global p); simpl; naive_solver.
Qed.

(** Special addresses the gate lets through: an address of the IPv4 "this network"
    block other than 0.0.0.0, and a 6to4 address that embeds 127.0.0.1. *)
Theorem special_addresses_pass p :
  check_resolved_address (IpV4 (V4 0 0 0 1)) p = Ok () /\
  check_resolved_address (IpV6 (V6 0x2002 0x7f00 0x0001 0 0 0 0 1)) p = Ok ().
Proof. done. Qed.

(** ** The idempotency key *)

Section key.
Context {HS : Hashes} {HX : Hex} {CN : Canon Json}.

Lemma hex_encode_inj a b : hex_encode a = hex_encode b -> a = b.
Proof. intros H%(f_equal hex_decode). rewrite !hex_decode_encode in H. congruence. Qed.

Lemma sha256_hex_inj a b : hex_encode (sha256 a) = hex_encode (sha256 b) -> a = b \/ sha256_collision.
Proof.
  intros H%hex_encode_inj. destruct (decide (a = b)) as [|Hne]; [by left|right]. by exists a, b.
Qed.

Lemma json_digest_inj v w d :
  json_digest v = Ok d -> json_digest w = Ok d -> to_canon v = to_canon w \/ sha256_collision.
Proof.
  unfold json_digest. unfold_result. destruct (to_canon v) as [a|], (to_canon w) as [b|]; try done.
  simpl. intros [= <-] [= H]. destruct (sha256_hex_inj _ _ H) as [->|?]; auto.
Qed.

(** The key names the call. Two prepared calls with one idempotency key are for
    the same work order, disclose the same request bytes and have the same
    canonical destination, path, headers and model parameters, or a SHA-256
    collision is at hand; and preparing the same call again gives the same key
    whatever the budget, the order digest and the task are.  [Hkey] is the one
    fact used of the canonicalizer: objects of strings are rendered injectively. *)
Theorem idempotency_key_binds c c' req req' b b' u u' call call'
  (Hkey : forall a x r a' x' r', to_canon (key_material a x r) <> None ->
     to_canon (key_material a x r) = to_canon (key_material a' x' r') -> a = a' /\ x = x' /\ r = r') :
  prepare c req b u = Ok call -> prepare c' req' b' u' = Ok call' ->
  (idempotency_key call = idempotency_key call' ->
     (b_work_order_id b = b_work_order_id b' /\ req = req' /\ to_canon (bound_json c) = to_canon (bound_json c'))
     \/ sha256_collision) /\
  (b_work_order_id b = b_work_order_id b' -> req = req' -> bound_json c = bound_json c' ->
     idempotency_key call = idempotency_key call').
Proof.
  unfold prepare, config_digest, derive_idempotency_key. unfold_result.
  destruct (json_digest (bound_json c)) as [cd|] eqn:Hc; [|done].
  destruct (json_digest (key_material (b_work_order_id b) cd _)) as [k|] eqn:Hk; [|done].
  destruct (json_digest (bound_json c')) as [cd'|] eqn:Hc'; [|done].
  destruct (json_digest (key_material (b_work_order_id b') cd' _)) as [k'|] eqn:Hk'; [|done].
  intros [= <-] [= <-]. cbn [idempotency_key]. split.
  - intros ->. destruct (json_digest_inj _ _ _ Hk Hk') as [He|?]; [|by right].
    apply Hkey in He as (Hw & -> & Hr); [|intros Hn; unfold json_digest in Hk; by rewrite Hn in Hk].
    destruct (sha256_hex_inj _ _ Hr) as [->|?]; [|by right].
    destruct (json_digest_inj _ _ _ Hc Hc') as [?|?]; [by left|by right].
  - intros Hw -> Hb. rewrite Hb in Hc. rewrite Hc in Hc'. injection Hc' as ->. rewrite Hw in Hk.
    rewrite Hk in Hk'. by injection Hk'.
Qed.
End key.

(** ** Witnesses *)

Example egress_gate_witness :
  check_resolved_address (IpV4 (V4 93 184 216 34)) (allowing [https "api.example.com" 443]) = Ok () /\
  check_origin (https "api.example.com" 443) (allowing [https "api.example.com" 443]) = Ok ().
Proof.
  destruct (egress_gate (https "api.example.com" 443) (IpV4 (V4 93 184 216 34))
    (allowing [https "api.example.com" 443])) as [Ho Ha]; [repeat split; vm_compute; done|].
  split; [apply Ha; by right|]. apply Ho. split; [reflexivity|left].
Defined.

(** A canonicalizer for the witness: it renders the key material and nothing else. *)
Definition toy_key_canon (j : Json) : option bytes :=
  match j with
  | JObj [(_, JStr a); (_, JStr x); (_, JStr r)] => Some (put (a, x, r))
  | _ => Some []
  end.

(** Wire formats for configurations. *)
#[global] Instance Origin_wire : Wire Origin.
Proof.
  refine (wire_inj (fun o => (scheme o, host o, port o)) (fun '(a, b, c) => mkOrigin a b c) _). by intros [].
Defined.

#[global] Instance Disclosure_wire : Wire Disclosure.
Proof.
  refine (wire_inj (fun d => (bool_decide (location d = Local), operator d, region d, retention d,
      trains_on_data d, subprocessors d))
    (fun '(a, b, c, d, e, f) => mkDisclosure (if (a : bool) then Local else Remote) b c d e f) _).
  by intros [[] ? ? ? ? ?].
Defined.

#[global] Instance AuthScheme_wire : Wire AuthScheme.
Proof.
  refine (wire_inj (fun a => match a with Bearer => inl true | NoAuth => inl false | Header h => inr h end)
    (fun w => match w with inl true => Bearer | inl false => NoAuth | inr h => Header h end) _).
  by intros [].
Defined.

#[global] Instance ProcessorConfig_wire : Wire ProcessorConfig.
Proof.
  refine (wire_inj (fun c => (processor_id c, provider c, origin c, disclosure c, path c, auth c, headers c,
      config c, tls_certificate_sha256 c))
    (fun '(a, b, c, d, e, f, g, h, i) => mkConfig a b c d e f g h i) _).
  by intros [].
Defined.

Definition sample_config : ProcessorConfig :=
  mkConfig "reviewer" "example-ai" (https "api.example.com" 443) (remote "Example AI" "us-east") "/" Bearer []
    (JObj [("model", JStr "m")]) None.

Example idempotency_key_witness :
  exists call call',
    @prepare ToyHashes ToyHex {| to_canon := toy_key_canon |} sample_config (as_bytes "r")
      (mkBinding "wo-1" "aa" "t1") (mkBudget 5 "d" 6 7) = Ok call /\
    @prepare ToyHashes ToyHex {| to_canon := toy_key_canon |} sample_config (as_bytes "r")
      (mkBinding "wo-1" "bb" "t2") (mkBudget 8 "d" 6 7) = Ok call' /\
    idempotency_key call = idempotency_key call'.
Proof.
  eexists _, _. split; [reflexivity|]. split; [reflexivity|].
  apply (@idempotency_key_binds ToyHashes ToyHex {| to_canon := toy_key_canon |} sample_config sample_config
    (as_bytes "r") (as_bytes "r") (mkBinding "wo-1" "aa" "t1") (mkBinding "wo-1" "bb" "t2")
    (mkBudget 5 "d" 6 7) (mkBudget 8 "d" 6 7)); [|reflexivity..].
  intros a x r a' x' r' _ [= H]. pose proof (get_put (a, x, r) []) as H1.
  pose proof (get_put (a', x', r') []) as H2. rewrite !app_nil_r in H1, H2.
  change (put (a, x, r) = put (a', x', r')) in H. rewrite H in H1. rewrite H1 in H2. by injection H2.
Defined.
End Broker.
