(* ===== verification/Contract.v ===== *)
(** Contract revisions and the compare-and-swap head
    (akson-contract/src/contract.rs, akson-contract/src/chain.rs).

    The typed contract, the pure verdicts [apply_revision] and [accept_head], and
    the history of one Task's head under any sequence of submissions and
    acceptances, replayed, forged or out of order. *)
From S2P Require Import Prelude.

Module Contract.

Record Identity := mkIdentity { issuer : string; agent : string; root : string }.

Inductive PartKind := Text | Data.
Inductive CanonicalRule := Utf8Exact | Jcs.
Inductive Capability := Respond | ReadSuppliedInputs | ProcessorUse | ArtifactExport.
Inductive Disclosure := DiscloseNone | LocalOnly | NamedRemote.
Inductive TrustClass := SelfAttested | IndependentlyVerified | HardwareAttested.
Inductive ResultRecipient := RequestOrigin.

Record InputEntry := mkInputEntry {
  in_id : string;
  in_message_id : string;
  in_part_index : Z;
  in_kind : PartKind;
  in_media_type : string;
  in_charset : option string;
  in_canonical_rule : CanonicalRule;
  in_byte_length : Z;
  in_sha256 : string;
  in_worker_visible : bool;
  in_processor_visible : bool;
}.

Record Deliverable := mkDeliverable { d_role : string; d_media_type : string }.

Record EvidenceSlot := mkEvidenceSlot {
  slot_id : string;
  statement_type : string;
  trust_classes : list TrustClass;
}.

Record Limits := mkLimits {
  l_deadline : string;
  l_max_response_bytes : Z;
  l_max_cost_microusd : option Z;
}.

Record ProcessorConstraints := mkConstraints { pc_disclosure : Disclosure }.

Record RetentionRequest := mkRetention { rr_days : Z }.

Record Contract := mkContract {
  schema_version : Z;
  contract_id : string;
  revision : Z;
  predecessor_digest : option string;
  task_type : string;
  message_id : string;
  context_id : option string;
  c_task_id : option string;
  requester : Identity;
  performer : Identity;
  objective : string;
  inputs : list InputEntry;
  deliverables : list Deliverable;
  evidence_slots : list EvidenceSlot;
  requested_capabilities : list Capability;
  processor_constraints : ProcessorConstraints;
  limits : Limits;
  result_recipient : ResultRecipient;
  retention_request : option RetentionRequest;
  created_at : string;
  expires_at : string;
}.

Record ParsedContract := mkParsed {
  contract : Contract;
  digest : string;
  payload : bytes;
}.

Definition is_revision_zero (c : Contract) : bool := bool_decide (revision c = 0%Z).

(** ** The head *)

Record Head := mkHead { h_revision : Z; h_digest : string }.

Inductive HeadState :=
| Empty
| Open (h : Head)
| Locked (h : Head).

Inductive StaleReason :=
| HeadAlreadyExists | NoHead | NonSequential | PredecessorMismatch | HeadLocked.

Inductive RevisionVerdict :=
| Advance (h : Head)
| Stale (r : StaleReason).

Inductive LockError := NoOpenHead | DigestMismatch | AlreadyLocked.

#[global] Instance Identity_eq_dec : EqDecision Identity.
Proof. solve_decision. Defined.

#[global] Instance Head_eq_dec : EqDecision Head.
Proof. solve_decision. Defined.

#[global] Instance HeadState_eq_dec : EqDecision HeadState.
Proof. solve_decision. Defined.

(** [current.revision + 1] is a [u64] addition: at the maximum it wraps to zero
    (or panics when overflow checks are on), and a zero revision never reaches
    that branch, so the comparison fails there as it does in [Z]. *)
Definition apply_revision (head : HeadState) (proposed : ParsedContract) : RevisionVerdict :=
  let c := contract proposed in
  let advance := mkHead (revision c) (digest proposed) in
  if decide (revision c = 0%Z) then
    match head with
    | Empty => Advance advance
    | _ => Stale HeadAlreadyExists
    end
  else
    match head with
    | Empty => Stale NoHead
    | Locked _ => Stale HeadLocked
    | Open current =>
        if decide (revision c <> h_revision current + 1)%Z then Stale NonSequential
        else if decide (predecessor_digest c <> Some (h_digest current)) then
          Stale PredecessorMismatch
        else Advance advance
    end.

Definition accept_head (head : HeadState) (accepted_digest : string) :
  result LockError HeadState :=
  match head with
  | Empty => Err NoOpenHead
  | Locked _ => Err AlreadyLocked
  | Open h => if decide (h_digest h = accepted_digest) then Ok (Locked h) else Err DigestMismatch
  end.

(** ** Histories of one head *)

(** What can reach a Task's head: a submitted revision or an acceptance. *)
Inductive head_event :=
| Submit (p : ParsedContract)
| Accept (d : string).

(** The head after one event: a stale revision or a refused acceptance leaves it
    alone. *)
Definition step_head (h : HeadState) (e : head_event) : HeadState :=
  match e with
  | Submit p => match apply_revision h p with Advance h' => Open h' | Stale _ => h end
  | Accept d => match accept_head h d with Ok h' => h' | Err _ => h end
  end.

Definition steps_head (h : HeadState) (evs : list head_event) : HeadState :=
  foldl step_head h evs.

(** The revisions a history accepted, oldest first. *)
Fixpoint accepted_revisions (h : HeadState) (evs : list head_event) : list ParsedContract :=
  match evs with
  | [] => []
  | e :: evs =>
      match e with
      | Submit p =>
          match apply_revision h p with
          | Advance _ => p :: accepted_revisions (step_head h e) evs
          | Stale _ => accepted_revisions (step_head h e) evs
          end
      | Accept _ => accepted_revisions (step_head h e) evs
      end
  end.

(** How many acceptances of a history succeeded. *)
Fixpoint locks_taken (h : HeadState) (evs : list head_event) : nat :=
  match evs with
  | [] => 0
  | e :: evs =>
      (match e with
       | Accept d => match accept_head h d with Ok _ => 1 | Err _ => 0 end
       | Submit _ => 0
       end) + locks_taken (step_head h e) evs
  end.

(** The chain specification: revision numbers count up from the predecessor and
    every revision names its predecessor's digest. *)
Inductive chained : option Head -> list ParsedContract -> Prop :=
| chained_nil o : chained o []
| chained_first p ps :
    revision (contract p) = 0%Z ->
    chained (Some (mkHead 0 (digest p))) ps ->
    chained None (p :: ps)
| chained_next h p ps :
    revision (contract p) = (h_revision h + 1)%Z ->
    predecessor_digest (contract p) = Some (h_digest h) ->
    chained (Some (mkHead (revision (contract p)) (digest p))) ps ->
    chained (Some h) (p :: ps).

Definition head_of (s : HeadState) : option Head :=
  match s with Empty => None | Open h | Locked h => Some h end.

(** The guard of the design: when a revision advances the head. *)
Definition can_advance (head : HeadState) (p : ParsedContract) : Prop :=
  match head with
  | Empty => revision (contract p) = 0%Z
  | Open h => revision (contract p) <> 0%Z /\
              revision (contract p) = (h_revision h + 1)%Z /\
              predecessor_digest (contract p) = Some (h_digest h)
  | Locked _ => False
  end.

(** The verdict is exactly the guard, and names the new head. *)
Theorem apply_revision_spec head p :
  (can_advance head p ->
     apply_revision head p = Advance (mkHead (revision (contract p)) (digest p))) /\
  (~ can_advance head p -> exists r, apply_revision head p = Stale r).
Proof.
  unfold can_advance, apply_revision. split.
  - intros H. destruct head; simpl in *; repeat case_decide; naive_solver.
  - intros H. destruct head; simpl in *; repeat case_decide; naive_solver.
Qed.

Lemma apply_revision_Advance head p h :
  apply_revision head p = Advance h ->
  can_advance head p /\ h = mkHead (revision (contract p)) (digest p).
Proof.
  intros Ha. destruct (apply_revision_spec head p) as [H1 H2].
  assert (Decision (can_advance head p)) as [Hc|Hc].
  { unfold can_advance. destruct head; apply _. }
  - rewrite H1 in Ha by done. by simplify_eq.
  - destruct (H2 Hc) as [r Hr]. congruence.
Qed.

Lemma locked_stuck h e : step_head (Locked h) e = Locked h.
Proof. destruct e; simpl; unfold apply_revision; by repeat case_decide. Qed.

Lemma steps_locked h evs : steps_head (Locked h) evs = Locked h.
Proof.
  unfold steps_head. induction evs as [|e evs IH]; [done|].
  cbn [foldl]. by rewrite locked_stuck.
Qed.

Lemma locks_taken_locked h evs : locks_taken (Locked h) evs = 0.
Proof.
  induction evs as [|[p|d] evs IH]; [done|..]; cbn [locks_taken]; by rewrite locked_stuck.
Qed.

Lemma accepted_locked h evs : accepted_revisions (Locked h) evs = [].
Proof.
  induction evs as [|[p|d] evs IH]; [done|..]; cbn [accepted_revisions]; rewrite locked_stuck; [|done].
  unfold apply_revision. by repeat case_decide.
Qed.

(** A lock is final: whatever arrives afterwards, the head stays locked at the
    digest that was accepted, at most one acceptance of a history ever succeeds,
    and the locked digest is the digest of a revision the head advanced to. *)
Theorem lock_final h evs1 evs2 l :
  steps_head h evs1 = Locked l ->
  steps_head h (evs1 ++ evs2) = Locked l /\
  accepted_revisions (steps_head h evs1) evs2 = [] /\
  locks_taken h (evs1 ++ evs2) <= 1.
Proof.
  intros Hl. assert (forall h evs, locks_taken h evs <= 1) as Hmax.
  { clear. intros h evs. revert h. induction evs as [|[p|d] evs IH]; intros h; simpl; [lia|apply IH|].
    destruct (accept_head h d) as [h'|] eqn:Ha; [|apply IH].
    destruct h as [|h|h]; simpl in Ha; try done. case_decide; simplify_eq.
    rewrite locks_taken_locked. lia. }
  split_and!; [|by rewrite Hl, accepted_locked|apply Hmax].
  unfold steps_head in *. rewrite foldl_app, Hl. apply steps_locked.
Qed.

Lemma accepted_chained h evs : chained (head_of h) (accepted_revisions h evs).
Proof.
  revert h. induction evs as [|[p|d] evs IH]; intros h; cbn [accepted_revisions]; [constructor| |].
  - cbn [step_head]. destruct (apply_revision h p) as [h'|r] eqn:Ha; [|apply IH].
    apply apply_revision_Advance in Ha as [Hc ->]. destruct h as [|h|h]; simpl in *.
    + apply chained_first; [done|]. specialize (IH (Open (mkHead (revision (contract p)) (digest p)))).
      simpl in IH. by rewrite Hc in *.
    + destruct Hc as (_ & ? & ?). apply chained_next; [done..|].
      apply (IH (Open (mkHead (revision (contract p)) (digest p)))).
    + done.
  - replace (head_of h) with (head_of (step_head h (Accept d))); [apply IH|].
    destruct h; simpl; try done. by case_decide.
Qed.

Lemma steps_head_app h evs e : steps_head h (evs ++ [e]) = step_head (steps_head h evs) e.
Proof. unfold steps_head. by rewrite foldl_app. Qed.

Lemma accepted_app h evs evs' :
  accepted_revisions h (evs ++ evs') =
  accepted_revisions h evs ++ accepted_revisions (steps_head h evs) evs'.
Proof.
  revert h. induction evs as [|[p|d] evs IH]; intros h; [done|..];
    cbn [app accepted_revisions]; [|by rewrite IH].
  destruct (apply_revision h p); by rewrite IH.
Qed.

(** The current head of a fresh Task is the last accepted revision. *)
Lemma head_is_last evs :
  head_of (steps_head Empty evs) =
  (fun p => mkHead (revision (contract p)) (digest p)) <$> last (accepted_revisions Empty evs).
Proof.
  induction evs as [|e evs IH] using rev_ind; [done|].
  rewrite steps_head_app, accepted_app. destruct e as [p|d]; cbn [accepted_revisions step_head].
  - destruct (apply_revision (steps_head Empty evs) p) as [h'|r] eqn:Ha.
    + apply apply_revision_Advance in Ha as [_ ->]. by rewrite last_snoc.
    + by rewrite app_nil_r.
  - rewrite app_nil_r, <- IH. destruct (steps_head Empty evs); simpl; try done.
    by case_decide.
Qed.

(** Chain integrity: whatever an adversary delivers to a fresh Task, the
    accepted history is one unbroken predecessor-digest chain from revision zero
    and the head, open or locked, is its last element. *)
Theorem chain_integrity evs :
  chained None (accepted_revisions Empty evs) /\
  head_of (steps_head Empty evs) =
    (fun p => mkHead (revision (contract p)) (digest p)) <$> last (accepted_revisions Empty evs).
Proof. split; [apply (accepted_chained Empty)|apply head_is_last]. Qed.

(** ** Witnesses *)

Definition sample_identity (a : string) : Identity := mkIdentity "iss" a "root".

Definition sample_contract (rev : Z) (pred : option string) (obj : string) : Contract :=
  {| schema_version := 1; contract_id := "c-1"; revision := rev; predecessor_digest := pred;
     task_type := "https://akson.invalid/t"; message_id := "m1"; context_id := None;
     c_task_id := None; requester := sample_identity "a"; performer := sample_identity "b";
     objective := obj; inputs := []; deliverables := [mkDeliverable "r" "text/plain"];
     evidence_slots := []; requested_capabilities := []; processor_constraints := mkConstraints DiscloseNone;
     limits := mkLimits "2030-01-01T00:00:00Z" 1024 None; result_recipient := RequestOrigin;
     retention_request := None; created_at := "2026-01-01T00:00:00Z";
     expires_at := "2030-01-01T00:00:00Z" |}.

Definition sample_parsed (rev : Z) (pred : option string) (d : string) : ParsedContract :=
  mkParsed (sample_contract rev pred "o") d (as_bytes d).

Example lock_final_witness :
  steps_head Empty ([Submit (sample_parsed 0 None "d0"); Accept "d0"] ++
                    [Submit (sample_parsed 1 (Some "d0") "d1"); Accept "d0"])
    = Locked (mkHead 0 "d0").
Proof.
  exact (proj1 (lock_final Empty [Submit (sample_parsed 0 None "d0"); Accept "d0"]
    [Submit (sample_parsed 1 (Some "d0") "d1"); Accept "d0"] (mkHead 0 "d0") eq_refl)).
Defined.

End Contract.
