(* ===== verification/Lifecycle.v ===== *)
(** Peer identities and the peer lifecycle (akson-crypto/src/identity.rs,
    akson-crypto/src/purpose.rs, akson-pairing/src/lifecycle.rs): the pinned
    tuple, the status column and the change that suspends a relationship. *)
From S2P Require Import Prelude Crypto.

Module Lifecycle.

Inductive KeyPurpose :=
| TlsEndpoint | AgentCard | ContractProposal | ContractDecision
| TaskResult | Evidence | RequesterOutcome | LocalAuthority.

Definition PAIRED : list KeyPurpose :=
  [TlsEndpoint; AgentCard; ContractProposal; ContractDecision; TaskResult; Evidence;
   RequesterOutcome].

Inductive FingerprintKind := CertSha256 | Jwk7638 | JsonSha256.

Record Fingerprint := mkFp { fp_kind : FingerprintKind; fp_value : string }.

Record KeyBinding := mkBinding { kb_purpose : KeyPurpose; kb_thumbprint : Fingerprint }.

Record PeerIdentity := mkPeerIdentity {
  p_issuer : option string;
  agent_id : string;
  workload_id : option string;
  endpoint_id : string;
  tls_cert : Fingerprint;
  agent_card_key : Fingerprint;
  key_bindings : list KeyBinding;
  security_projection_digest : Fingerprint;
  full_card_digest : Fingerprint;
}.

#[global] Instance KeyPurpose_eq_dec : EqDecision KeyPurpose.
Proof. solve_decision. Defined.

#[global] Instance FingerprintKind_eq_dec : EqDecision FingerprintKind.
Proof. solve_decision. Defined.

#[global] Instance Fingerprint_eq_dec : EqDecision Fingerprint.
Proof. solve_decision. Defined.

#[global] Instance KeyBinding_eq_dec : EqDecision KeyBinding.
Proof. solve_decision. Defined.

#[global] Instance PeerIdentity_eq_dec : EqDecision PeerIdentity.
Proof. solve_decision. Defined.

#[global] Instance KeyPurpose_wire : Wire KeyPurpose.
Proof.
  refine (wire_inj (fun p => match p with
      | TlsEndpoint => 0 | AgentCard => 1 | ContractProposal => 2 | ContractDecision => 3
      | TaskResult => 4 | Evidence => 5 | RequesterOutcome => 6 | LocalAuthority => 7 end)%Z
    (fun n => match n with
      | 0 => TlsEndpoint | 1 => AgentCard | 2 => ContractProposal | 3 => ContractDecision
      | 4 => TaskResult | 5 => Evidence | 6 => RequesterOutcome | _ => LocalAuthority end)%Z _).
  by intros [].
Defined.

#[global] Instance FingerprintKind_wire : Wire FingerprintKind.
Proof.
  refine (wire_inj (fun p => match p with CertSha256 => 0 | Jwk7638 => 1 | JsonSha256 => 2 end)%Z
    (fun n => match n with 0 => CertSha256 | 1 => Jwk7638 | _ => JsonSha256 end)%Z _).
  by intros [].
Defined.

#[global] Instance Fingerprint_wire : Wire Fingerprint.
Proof.
  refine (wire_inj (fun f => (fp_kind f, fp_value f)) (fun t => mkFp t.1 t.2) _).
  by intros [].
Defined.

#[global] Instance KeyBinding_wire : Wire KeyBinding.
Proof.
  refine (wire_inj (fun f => (kb_purpose f, kb_thumbprint f)) (fun t => mkBinding t.1 t.2) _).
  by intros [].
Defined.

#[global] Instance PeerIdentity_wire : Wire PeerIdentity.
Proof.
  refine (wire_inj (fun p => (p_issuer p, agent_id p, workload_id p, endpoint_id p, tls_cert p,
      agent_card_key p, key_bindings p, security_projection_digest p, full_card_digest p))
    (fun '(a, b, c, d, e, f, g, h, i) => mkPeerIdentity a b c d e f g h i) _).
  by intros [].
Defined.

(** [Fingerprint::matches]: kind and full value. *)
Definition matches (a b : Fingerprint) : bool :=
  bool_decide (fp_kind a = fp_kind b) && bool_decide (fp_value a = fp_value b).

(** [Fingerprint::display]. *)
Definition display (f : Fingerprint) : string :=
  (match fp_kind f with CertSha256 | JsonSha256 => "sha256" | Jwk7638 => "jwk-thumbprint" end)
    +:+ ":" +:+ fp_value f.

(** ** The status column *)

Inductive SuspendReason :=
| IssuerChanged | EndpointChanged | KeyChanged | ProjectionChanged | SubjectChanged.

Inductive PeerStatus :=
| Pending
| Active
| Suspended (reason : SuspendReason).

#[global] Instance SuspendReason_eq_dec : EqDecision SuspendReason.
Proof. solve_decision. Defined.

#[global] Instance PeerStatus_eq_dec : EqDecision PeerStatus.
Proof. solve_decision. Defined.

Definition reason_as_str (r : SuspendReason) : string :=
  match r with
  | IssuerChanged => "issuer"
  | EndpointChanged => "endpoint"
  | KeyChanged => "key"
  | ProjectionChanged => "projection"
  | SubjectChanged => "subject"
  end.

Definition reason_from_str (s : string) : option SuspendReason :=
  if decide (s = "issuer") then Some IssuerChanged
  else if decide (s = "endpoint") then Some EndpointChanged
  else if decide (s = "key") then Some KeyChanged
  else if decide (s = "projection") then Some ProjectionChanged
  else if decide (s = "subject") then Some SubjectChanged
  else None.

(** The [Debug] form of a reason, what [format!] of it renders. *)
Definition reason_debug (r : SuspendReason) : string :=
  match r with
  | IssuerChanged => "IssuerChanged"
  | EndpointChanged => "EndpointChanged"
  | KeyChanged => "KeyChanged"
  | ProjectionChanged => "ProjectionChanged"
  | SubjectChanged => "SubjectChanged"
  end.

Definition may_start_session (s : PeerStatus) : bool :=
  match s with Active => true | _ => false end.

Definition as_column (s : PeerStatus) : string :=
  match s with
  | Pending => "pending"
  | Active => "active"
  | Suspended r => "suspended:" +:+ reason_as_str r
  end.

(** [str::strip_prefix]. *)
Definition strip_prefix (p s : string) : option string :=
  if String.prefix p s
  then Some (String.substring (String.length p) (String.length s - String.length p) s)
  else None.

Definition from_column (s : string) : option PeerStatus :=
  if decide (s = "pending") then Some Pending
  else if decide (s = "active") then Some Active
  else r ← strip_prefix "suspended:" s; Suspended <$> reason_from_str r.

(** ** Changes of the pinned material *)

Definition detect_change (pinned presented : PeerIdentity) : option SuspendReason :=
  if decide (p_issuer pinned <> p_issuer presented) then Some IssuerChanged
  else if negb (matches (tls_cert pinned) (tls_cert presented)) then Some EndpointChanged
  else if negb (matches (agent_card_key pinned) (agent_card_key presented))
          || bool_decide (key_bindings pinned <> key_bindings presented) then Some KeyChanged
  else if negb (matches (security_projection_digest pinned)
                        (security_projection_digest presented)) then Some ProjectionChanged
  else None.

Lemma matches_eq a b : matches a b = true <-> a = b.
Proof.
  unfold matches. rewrite andb_true_iff, !bool_decide_eq_true.
  destruct a, b; simpl. naive_solver.
Qed.

Lemma reason_round_trip r : reason_from_str (reason_as_str r) = Some r.
Proof. by destruct r. Qed.

Lemma column_round_trip s : from_column (as_column s) = Some s.
Proof. by destruct s as [| |[]]. Qed.

(** The status column round-trips, and parsing accepts nothing else. *)
Theorem status_column_round_trip s t :
  from_column (as_column s) = Some s /\
  (from_column t = Some s -> may_start_session s = true -> t = "active").
Proof.
  split; [apply column_round_trip|].
  unfold from_column. intros Hf Ha. destruct s; try done. repeat case_decide; try done.
  destruct (strip_prefix _ _) as [u|]; simpl in Hf; [|done].
  by destruct (reason_from_str u).
Qed.

(** No reported change means every safety-critical component is the pinned one,
    and conversely; the full-card digest, the agent name, the workload and the
    endpoint instance play no role. *)
Theorem detect_change_None a b :
  detect_change a b = None <->
  p_issuer a = p_issuer b /\ tls_cert a = tls_cert b /\
  agent_card_key a = agent_card_key b /\ key_bindings a = key_bindings b /\
  security_projection_digest a = security_projection_digest b.
Proof.
  unfold detect_change.
  destruct (decide (p_issuer a <> p_issuer b)) as [?|H1]; [naive_solver|].
  apply dec_stable in H1.
  assert (forall f g, negb (matches f g) = false <-> f = g) as Hm.
  { intros f g. rewrite negb_false_iff. apply matches_eq. }
  destruct (negb (matches (tls_cert a) (tls_cert b))) eqn:H2.
  { split; [done|]. intros (_ & H & _). apply Hm in H. congruence. }
  apply Hm in H2.
  destruct (negb (matches (agent_card_key a) (agent_card_key b))) eqn:H3; simpl.
  { split; [done|]. intros (_ & _ & H & _). apply Hm in H. congruence. }
  apply Hm in H3. case_bool_decide as H4; [naive_solver|].
  destruct (negb (matches (security_projection_digest a) _)) eqn:H5.
  { split; [done|]. intros (_ & _ & _ & _ & H). apply Hm in H. congruence. }
  apply Hm in H5. naive_solver.
Qed.

Definition sample_fp (k : FingerprintKind) (v : string) : Fingerprint := mkFp k v.

Definition sample_peer (root agent cert : string) : PeerIdentity :=
  {| p_issuer := Some "iss"; agent_id := agent; workload_id := None; endpoint_id := "ep";
     tls_cert := mkFp CertSha256 cert; agent_card_key := mkFp Jwk7638 root;
     key_bindings := [mkBinding TaskResult (mkFp Jwk7638 "k")];
     security_projection_digest := mkFp JsonSha256 "p"; full_card_digest := mkFp JsonSha256 "c" |}.

Example status_column_witness : from_column "active" = Some Active /\ "active" = as_column Active.
Proof.
  split; [apply (status_column_round_trip Active "active")|].
  apply (status_column_round_trip Active "active"); reflexivity.
Defined.
End Lifecycle.
