(* ===== verification/Keys.v ===== *)
(** Purpose-bound keys, JWK thumbprints and detached JWS signatures
    (akson-crypto/src/keypair.rs, jwk.rs, jws.rs). *)
From S2P Require Import Prelude Text Crypto Sign Lifecycle.

Module Keys.
Import Lifecycle (KeyPurpose, KeyPurpose_eq_dec, AgentCard, TaskResult).

(** [base64]'s [URL_SAFE_NO_PAD] engine: decoding refuses symbols outside its
    alphabet. *)
Class Base64Url := {
  url_encode : bytes -> string;
  url_decode : string -> option bytes;
  url_decode_encode : forall b, url_decode (url_encode b) = Some b;
  url_alphabet : forall s b c, url_decode s = Some b -> c ∈ as_bytes s -> c <> "."%char /\ c <> " "%char;
}.

Lemma url_encode_inj `{Base64Url} a b : url_encode a = url_encode b -> a = b.
Proof. intros E. apply (f_equal url_decode) in E. rewrite !url_decode_encode in E. congruence. Qed.

(** ** Purpose-bound keys *)

Inductive KeyError := Purpose (actual requested : KeyPurpose) | MalformedKey.

(** The seed is the secret [SigningKey]. *)
Record PurposeKey := mkKey { purpose : KeyPurpose; signing : bytes }.
Record PurposeVerifyingKey := mkVKey { v_purpose : KeyPurpose; v_verifying : bytes }.

(** [generate] draws the seed that [from_seed] is given. *)
Definition from_seed (p : KeyPurpose) (seed : bytes) : PurposeKey := mkKey p seed.

Definition sign_with {T} (k : PurposeKey) (intended : KeyPurpose) (f : bytes -> T) : result KeyError T :=
  if decide (intended <> purpose k) then Err (Purpose (purpose k) intended) else Ok (f (signing k)).

Definition key_for (k : PurposeVerifyingKey) (intended : KeyPurpose) : result KeyError bytes :=
  if decide (intended <> v_purpose k) then Err (Purpose (v_purpose k) intended) else Ok (v_verifying k).

Definition to_public_bytes (k : PurposeVerifyingKey) : bytes := v_verifying k.

Section keys.
Context {ED : Ed25519}.

Definition verifying (k : PurposeKey) : PurposeVerifyingKey := mkVKey (purpose k) (public_key (signing k)).

Definition from_public_bytes (p : KeyPurpose) (b : bytes) : result KeyError PurposeVerifyingKey :=
  if key_decodes b then Ok (mkVKey p b) else Err MalformedKey.
End keys.

(** ** JWKs *)

Inductive JwkError := Unsupported | InvalidX.

Record Ed25519PublicJwk := mkJwk { kty : string; crv : string; x : string }.

(** [serde_json::to_vec] of the struct [{crv, kty, x}]: it does not fail on strings and,
    escaping what must be escaped, loses nothing. *)
Class JwkText := {
  construction : string -> string -> string -> option bytes;
  construction_total : forall a b c, is_Some (construction a b c);
  construction_inj : forall a b c a' b' c', construction a b c = construction a' b' c' ->
    a = a' /\ b = b' /\ c = c';
}.

Section jwk.
Context {HS : Hashes} {ED : Ed25519} {BU : Base64Url} {JT : JwkText}.

Definition from_key (key : bytes) : Ed25519PublicJwk := mkJwk "OKP" "Ed25519" (url_encode key).

Definition to_key (j : Ed25519PublicJwk) : result JwkError bytes :=
  if decide (kty j <> "OKP" \/ crv j <> "Ed25519") then Err Unsupported
  else
    b ← ok_or (url_decode (x j)) InvalidX;
    if decide (length b <> 32) then Err InvalidX
    else if key_decodes b then Ok b else Err InvalidX.

Definition jwk_thumbprint (j : Ed25519PublicJwk) : string :=
  url_encode (sha256 (default [] (construction (crv j) (kty j) (x j)))).

Definition thumbprint (key : bytes) : string := jwk_thumbprint (from_key key).

Definition jwk (key : bytes) : Lifecycle.Fingerprint := Lifecycle.mkFp Lifecycle.Jwk7638 (thumbprint key).

(** [KeyBinding::new]. *)
Definition binding_new (p : KeyPurpose) (key : bytes) : Lifecycle.KeyBinding := Lifecycle.mkBinding p (jwk key).

(** A thumbprint names one key, or SHA-256 has a collision. *)
Lemma thumbprint_binds k k' : thumbprint k = thumbprint k' -> k = k' \/ sha256_collision.
Proof.
  unfold thumbprint, jwk_thumbprint, from_key. cbn. intros H%url_encode_inj.
  destruct (construction_total "Ed25519" "OKP" (url_encode k)) as [t Ht].
  destruct (construction_total "Ed25519" "OKP" (url_encode k')) as [t' Ht'].
  rewrite Ht, Ht' in H. cbn in H. destruct (decide (t = t')) as [->|Hne]; [left|right; by exists t, t'].
  rewrite <- Ht' in Ht. apply construction_inj in Ht as (_ & _ & Hx). by apply url_encode_inj.
Qed.

Lemma to_key_from_key k : length k = 32 -> key_decodes k = true -> to_key (from_key k) = Ok k.
Proof.
  intros Hl Hd. unfold to_key, from_key. cbn. rewrite decide_False by naive_solver.
  rewrite url_decode_encode. cbn. by rewrite decide_False, Hd by naive_solver.
Qed.

Lemma to_key_Ok j k : to_key j = Ok k -> length k = 32 /\ key_decodes k = true /\ kty j = "OKP" /\ crv j = "Ed25519".
Proof.
  unfold to_key. destruct (decide _) as [|Hn]; [done|]. destruct (url_decode (x j)) as [b|]; [|done]. cbn.
  destruct (decide _) as [|Hl]; [done|]. destruct (key_decodes b) eqn:E; [|done]. intros [= <-].
  split; [by destruct (decide (length b = 32))|]. split; [done|].
  split; [destruct (decide (kty j = "OKP"))|destruct (decide (crv j = "Ed25519"))]; naive_solver.
Qed.
End jwk.

(** ** Detached JWS *)

Definition ALG : string := "EdDSA".
Definition TYP : string := "JOSE".

Inductive JwsError :=
| Alg (found : string) | Typ (found : string) | KeyId (expected found : string)
| Base64Error (field : string) | BadHeader | BadSignature.

Record ProtectedHeader := mkHeader { alg : string; typ : string; kid : string }.
Record Jws := mkJws { protected : string; signature : string }.

#[global] Instance ProtectedHeader_wire : Wire ProtectedHeader.
Proof. refine (wire_inj (fun h => (alg h, typ h, kid h)) (fun '(a, b, c) => mkHeader a b c) _). by intros []. Defined.

Section jws.
Context {HS : Hashes} {ED : Ed25519} {BU : Base64Url} {JT : JwkText} {CH : Codec ProtectedHeader}.

Definition signing_input (protected_b64 : string) (payload : bytes) : bytes :=
  as_bytes protected_b64 ++ ["."%char] ++ as_bytes (url_encode payload).

(** [key] is the secret seed; the codec is [json_canon::to_vec] of the header and
    [serde_json::from_slice]. *)
Definition sign_detached (payload key : bytes) : Jws :=
  let header := mkHeader ALG TYP (thumbprint (public_key key)) in
  let protected := url_encode (encode header) in
  mkJws protected (url_encode (sign_bytes key (signing_input protected payload))).

Definition verify_detached (jws : Jws) (payload key : bytes) : result JwsError () :=
  header_bytes ← ok_or (url_decode (protected jws)) (Base64Error "protected");
  header ← ok_or (decode header_bytes) BadHeader;
  if decide (alg header <> ALG) then Err (Alg (alg header)) else
  if decide (typ header <> TYP) then Err (Typ (typ header)) else
  let expected_kid := thumbprint key in
  if decide (kid header <> expected_kid) then Err (KeyId expected_kid (kid header)) else
  sig_bytes ← ok_or (url_decode (signature jws)) (Base64Error "signature");
  if decide (length sig_bytes <> 64) then Err (Base64Error "signature") else
  if verify_strict key (signing_input (protected jws) payload) sig_bytes then Ok () else Err BadSignature.

(** What a verified JWS established. *)
Definition jws_valid (jws : Jws) (payload key : bytes) : Prop := exists hb sig,
  url_decode (protected jws) = Some hb /\ decode hb = Some (mkHeader ALG TYP (thumbprint key)) /\
  url_decode (signature jws) = Some sig /\ length sig = 64 /\
  verify_strict key (signing_input (protected jws) payload) sig = true.

Lemma verify_detached_Ok jws payload key : verify_detached jws payload key = Ok () <-> jws_valid jws payload key.
Proof.
  unfold verify_detached, jws_valid. split.
  - destruct (url_decode (protected jws)) as [hb|] eqn:E1; [|done]. cbn [ok_or mbind result_bind].
    destruct (decode hb) as [[a t k]|] eqn:E2; [|done]. cbn [ok_or mbind result_bind alg typ kid].
    destruct (decide (a <> ALG)) as [|Ha]; [done|]. destruct (decide (t <> TYP)) as [|Ht]; [done|].
    destruct (decide (k <> thumbprint key)) as [|Hk]; [done|].
    destruct (url_decode (signature jws)) as [sig|]; [|done]. cbn [ok_or mbind result_bind].
    destruct (decide (length sig <> 64)) as [|Hl]; [done|]. destruct (verify_strict _ _ _) eqn:E3; [|done].
    intros _. apply dec_stable in Ha, Ht, Hk, Hl. subst. exists hb, sig. done.
  - intros (hb & sig & -> & E2 & -> & Hl & Hv). cbn [ok_or mbind result_bind]. rewrite E2.
    cbn [ok_or mbind result_bind alg typ kid]. rewrite !decide_False by (intros Hn; by apply Hn).
    by rewrite Hv.
Qed.

Lemma url_encode_no_dot b : "."%char ∉ as_bytes (url_encode b).
Proof. intros Hin. by destruct (url_alphabet _ _ _ (url_decode_encode b) Hin). Qed.

(** The last [.] of a signing input separates: the input determines both parts. *)
Lemma signing_input_inj p m p' m' : signing_input p m = signing_input p' m' -> p = p' /\ m = m'.
Proof.
  unfold signing_input. intros H.
  apply (sep_last_inj "."%char) in H as [H1%(inj as_bytes) H2%(inj as_bytes)%url_encode_inj];
    [done|apply url_encode_no_dot..].
Qed.

Lemma verify_sign_detached p seed : jws_valid (sign_detached p seed) p (public_key seed).
Proof.
  eexists _, _. unfold sign_detached. cbn. rewrite !url_decode_encode, decode_encode.
  repeat split; [apply sign_length|apply verify_sign].
Qed.

(** A signed card verifies under its key, and under no other: a
    signature that verifies under two keys names both by one thumbprint, so the keys are the same
    or SHA-256 has a collision; one that verifies for two payloads verifies for two messages. *)
Theorem jws_binds payload seed jws m m' k k' :
  verify_detached (sign_detached payload seed) payload (public_key seed) = Ok () /\
  (verify_detached jws m k = Ok () -> verify_detached jws m' k' = Ok () ->
   (k = k' \/ sha256_collision) /\
   (m = m' \/ exists sig, verify_strict k (signing_input (protected jws) m) sig = true /\
                          verify_strict k' (signing_input (protected jws) m') sig = true /\
                          signing_input (protected jws) m <> signing_input (protected jws) m')).
Proof.
  split.
  - apply verify_detached_Ok, verify_sign_detached.
  - intros (hb & sig & E1 & E2 & E3 & _ & Hv)%verify_detached_Ok (hb' & sig' & E1' & E2' & E3' & _ & Hv')%verify_detached_Ok.
    simplify_eq. split.
    + by apply thumbprint_binds.
    + destruct (decide (m = m')) as [|Hne]; [by left|right]. exists sig. split; [done|]. split; [done|].
      by intros [_ ?]%signing_input_inj.
Qed.
End jws.
End Keys.
