(* ===== verification/Dsse.v ===== *)
(** Signed extension objects: the DSSE v1 envelope (akson-ext/src/dsse.rs), the media
    types that tell objects apart (akson-ext/src/namespace.rs) and the closed registry of
    schemas (akson-ext/src/schema.rs). *)
From S2P Require Import Prelude Text Crypto Sign Lifecycle Keys Json.

Module Dsse.
Import Keys.

(** ** Namespace *)

Definition EXTENSION_NAMESPACE : string := "https://akson.cc/ext".
Definition DSSE_ENVELOPE_MEDIA_TYPE : string := "application/vnd.akson-dev.dsse.v1+json".

Definition ext_uri (name : string) (version : N) : string :=
  EXTENSION_NAMESPACE +:+ "/" +:+ name +:+ "/v" +:+ to_string version.

Definition required_extension_uris : list string :=
  [ext_uri "contract" 1; ext_uri "key-binding" 1; ext_uri "delivery" 1; ext_uri "result-evidence" 1;
   ext_uri "outcome" 1].

Definition payload_media_type (name : string) (version : N) : string :=
  "application/vnd.akson-dev." +:+ name +:+ ".v" +:+ to_string version +:+ "+json".

(** ** Schema registry *)

Inductive SchemaId :=
| ContractV1 | DecisionV1 | KeyBindingV1 | DeliveryV1 | ResultManifestV1 | EvidenceReferenceV1
| VerifierSummaryV1 | OutcomeV1 | CoordDispatchV1.

#[global] Instance SchemaId_eq_dec : EqDecision SchemaId.
Proof. solve_decision. Defined.

Definition ALL : list SchemaId :=
  [ContractV1; DecisionV1; KeyBindingV1; DeliveryV1; ResultManifestV1; EvidenceReferenceV1;
   VerifierSummaryV1; OutcomeV1; CoordDispatchV1].

Definition name (id : SchemaId) : string :=
  match id with
  | ContractV1 => "contract"
  | DecisionV1 => "decision"
  | KeyBindingV1 => "key-binding"
  | DeliveryV1 => "delivery"
  | ResultManifestV1 => "result-manifest"
  | EvidenceReferenceV1 => "evidence-reference"
  | VerifierSummaryV1 => "verifier-summary"
  | OutcomeV1 => "outcome"
  | CoordDispatchV1 => "coord-dispatch"
  end.

Definition version (id : SchemaId) : N := 1.

Definition by_name (n : string) (v : N) : option SchemaId :=
  snd <$> list_find (fun id => name id = n /\ version id = v) ALL.

(** [SchemaId::payload_media_type]. *)
Definition schema_media_type (id : SchemaId) : string := payload_media_type (name id) (version id).

(** The [jsonschema] validator of the registered schema files: the errors it iterates
    over, each as its bounded, content-free text. *)
Class Schemas := { schema_errors : SchemaId -> Json.Json -> list string }.

Inductive SchemaError := Invalid (schema first_error : string) (error_count : nat).

Definition MAX_COUNTED_ERRORS : nat := 64.

Definition validate `{Schemas} (id : SchemaId) (instance : Json.Json) : result SchemaError () :=
  match schema_errors id instance with
  | first :: errors => Err (Invalid (name id) first (1 + length (take MAX_COUNTED_ERRORS errors)))
  | [] => Ok ()
  end.

(** The text of a schema error is cut at a character boundary: a UTF-8 continuation
    byte is [10xxxxxx]. *)
Definition is_char_boundary (s : bytes) (i : nat) : bool :=
  match s !! i with
  | Some b => negb (Z.land (byte_to_Z b) 0xc0 =? 0x80)%Z
  | None => bool_decide (i = length s)
  end.

Fixpoint boundary_below (s : bytes) (fuel : nat) : nat :=
  match fuel with
  | O => 0
  | S n => if is_char_boundary s fuel then fuel else boundary_below s n
  end.

Definition truncate_on_char_boundary (s : bytes) (max : nat) : bytes :=
  if decide (length s <= max) then s else take (boundary_below s max) s.

(** ** Envelopes *)

Inductive DsseError :=
| SignatureCount (n : nat) | PayloadType (expected found : string) | EnvKeyId (expected found : string)
| EnvBase64 (field : string) | EnvBadSignature.

Record EnvelopeSignature := mkEnvSig { keyid : string; sig : string }.
Record Envelope := mkEnvelope { payload : string; payload_type : string; signatures : list EnvelopeSignature }.

Definition pae (payload_type : string) (payload : bytes) : bytes :=
  as_bytes "DSSEv1 " ++ as_bytes (to_string (N.of_nat (String.length payload_type))) ++ [" "%char] ++
  as_bytes payload_type ++ [" "%char] ++ as_bytes (to_string (N.of_nat (length payload))) ++ [" "%char] ++
  payload.

(** The other three [base64] engines of [decode_b64]. *)
Class Base64Variants := {
  std_no_pad_decode : string -> option bytes;
  url_pad_decode : string -> option bytes;
}.

Section dsse.
Context {HS : Hashes} {ED : Ed25519} {B64 : Base64} {BU : Base64Url} {BV : Base64Variants} {JT : JwkText}.

Definition decode_b64 (s : string) : option bytes :=
  match b64_decode s with
  | Some b => Some b
  | None =>
      match std_no_pad_decode s with
      | Some b => Some b
      | None => match url_pad_decode s with Some b => Some b | None => url_decode s end
      end
  end.

Definition sign (ty : string) (p : bytes) (key : bytes) : Envelope :=
  mkEnvelope (b64_encode p) ty
    [mkEnvSig (thumbprint (public_key key)) (b64_encode (sign_bytes key (pae ty p)))].

Definition verify (env : Envelope) (expected_payload_type : string) (key : bytes) : result DsseError bytes :=
  match signatures env with
  | [sig_entry] =>
      if decide (payload_type env <> expected_payload_type)
      then Err (PayloadType expected_payload_type (payload_type env)) else
      let expected_keyid := thumbprint key in
      if decide (keyid sig_entry <> expected_keyid) then Err (EnvKeyId expected_keyid (keyid sig_entry)) else
      p ← ok_or (decode_b64 (payload env)) (EnvBase64 "payload");
      sig_bytes ← ok_or (decode_b64 (sig sig_entry)) (EnvBase64 "sig");
      if decide (length sig_bytes <> 64) then Err (EnvBase64 "sig") else
      if verify_strict key (pae (payload_type env) p) sig_bytes then Ok p else Err EnvBadSignature
  | l => Err (SignatureCount (length l))
  end.

(** *** The signed bytes determine type and payload *)

Lemma pae_inj ty p ty' p' : pae ty p = pae ty' p' -> ty = ty' /\ p = p'.
Proof.
  unfold pae. cbn [app]. intros H. apply app_inj_length in H as [_ H]; [|done].
  apply sep_first_inj in H as [Hn H]; [|by apply not_in_digits..].
  apply (inj as_bytes), (inj to_string), Nat2N.inj in Hn.
  apply app_inj_length in H as [Ht H]; [|by rewrite !length_as_bytes].
  injection H as H. apply sep_first_inj in H as [_ H]; [|by apply not_in_digits..].
  split; [by apply (inj as_bytes)|done].
Qed.

(** No byte string is signed both as an envelope and as a JWS: the first has a space
    before any [.] that a protected header could supply. *)
Lemma pae_not_jws ty p protected hb m : url_decode protected = Some hb -> pae ty p <> signing_input protected m.
Proof.
  intros Hd H. unfold pae, signing_input in H.
  change (as_bytes "DSSEv1 ") with (as_bytes "DSSEv1" ++ [" "%char]) in H. rewrite <- app_assoc in H. cbn [app] in H.
  assert (" "%char ∉ as_bytes protected) as Hs.
  { intros Hin. by destruct (url_alphabet _ _ _ Hd Hin). }
  assert (" "%char ∉ as_bytes (url_encode m)) as Hm.
  { intros Hin. by destruct (url_alphabet _ _ _ (url_decode_encode m) Hin). }
  assert (" "%char ∈ as_bytes protected ++ "."%char :: as_bytes (url_encode m)) as Hin.
  { rewrite <- H. apply elem_of_app. right. left. }
  apply elem_of_app in Hin as [Hin|Hin]; [done|]. apply elem_of_cons in Hin as [Hin|Hin]; done.
Qed.

(** What a verified envelope established. *)
Definition env_valid (env : Envelope) (ty : string) (key p : bytes) : Prop := exists e s,
  signatures env = [e] /\ payload_type env = ty /\ keyid e = thumbprint key /\
  decode_b64 (payload env) = Some p /\ decode_b64 (sig e) = Some s /\ length s = 64 /\
  verify_strict key (pae ty p) s = true.

Lemma verify_Ok env ty key p : verify env ty key = Ok p <-> env_valid env ty key p.
Proof.
  unfold verify, env_valid. split.
  - destruct (signatures env) as [|e [|]] eqn:Es; [done| |done].
    destruct (decide (payload_type env <> ty)) as [|Ht]; [done|].
    destruct (decide (keyid e <> thumbprint key)) as [|Hk]; [done|].
    destruct (decode_b64 (payload env)) as [q|] eqn:Ep; [|done]. cbn [ok_or mbind result_bind].
    destruct (decode_b64 (sig e)) as [s|] eqn:Eg; [|done]. cbn [ok_or mbind result_bind].
    destruct (decide (length s <> 64)) as [|Hl]; [done|]. destruct (verify_strict _ _ _) eqn:Ev; [|done].
    intros [= <-]. apply dec_stable in Ht, Hk, Hl. subst. by exists e, s.
  - intros (e & s & -> & <- & Hk & -> & E & Hl & Hv). rewrite !decide_False by (intros Hn; by apply Hn).
    cbn [ok_or mbind result_bind]. rewrite E. cbn [ok_or mbind result_bind].
    by rewrite decide_False, Hv by (intros Hn; by apply Hn).
Qed.

Lemma decode_b64_encode b : decode_b64 (b64_encode b) = Some b.
Proof. unfold decode_b64. by rewrite b64_decode_encode. Qed.

Lemma verify_sign_env ty p seed : verify (sign ty p seed) ty (public_key seed) = Ok p.
Proof.
  apply verify_Ok. exists (mkEnvSig (thumbprint (public_key seed)) (b64_encode (sign_bytes seed (pae ty p)))).
  exists (sign_bytes seed (pae ty p)). cbn [signatures sign payload_type keyid payload sig].
  rewrite !decode_b64_encode. repeat split; [apply sign_length|apply verify_sign].
Qed.

(** *** One signature, one meaning *)

(** The signature bytes of an envelope. *)
Definition signature_of (env : Envelope) : option bytes :=
  match signatures env with [e] => decode_b64 (sig e) | _ => None end.

Lemma verify_signature env ty key p :
  verify env ty key = Ok p -> exists s, signature_of env = Some s /\ verify_strict key (pae ty p) s = true.
Proof.
  intros (e & s & He & _ & _ & _ & Hs & _ & Hv)%verify_Ok. exists s. unfold signature_of. by rewrite He.
Qed.

(** C36. A signed envelope verifies to its payload under its type and key only:
    the type is the verifier's, the key is the one the envelope names (or SHA-256 has a
    collision), and a signature that verifies as two types or payloads verifies two distinct
    messages, none of which can be an Agent Card's signing input. *)
Theorem dsse_binds ty p seed env ty' key key' q env' q' :
  verify (sign ty p seed) ty (public_key seed) = Ok p /\
  (verify env ty key = Ok q -> payload_type env = ty) /\
  (verify env ty key = Ok q -> verify env ty key' = Ok q' -> key = key' \/ sha256_collision) /\
  (verify env ty key = Ok q -> verify env' ty' key = Ok q' -> signature_of env = signature_of env' ->
   (ty = ty' /\ q = q') \/
   exists s, verify_strict key (pae ty q) s = true /\ verify_strict key (pae ty' q') s = true /\
             pae ty q <> pae ty' q') /\
  (forall protected hb m, url_decode protected = Some hb -> pae ty q <> signing_input protected m).
Proof.
  split; [apply verify_sign_env|]. split; [by intros (e & s & _ & Ht & _)%verify_Ok|]. split; [|split].
  - intros (e & s & He & _ & Hk & _)%verify_Ok (e' & s' & He' & _ & Hk' & _)%verify_Ok.
    apply thumbprint_binds. congruence.
  - intros (s & Hs & Hv)%verify_signature (s' & Hs' & Hv')%verify_signature Heq.
    assert (s = s') as <- by congruence. destruct (decide (ty = ty' /\ q = q')) as [|Hne]; [by left|right].
    exists s. split; [done|]. split; [done|]. by intros ?%pae_inj.
  - intros protected hb m. apply pae_not_jws.
Qed.

(** *** The registry *)

(** Each object type has its own name and media type, and [by_name] finds it. *)
Lemma registry_closed id id' :
  by_name (name id) (version id) = Some id /\ (schema_media_type id = schema_media_type id' -> id = id') /\ id ∈ ALL.
Proof.
  split; [by destruct id|]. split; [destruct id, id'; first [done|discriminate]|].
  destruct id; unfold ALL; repeat constructor.
Qed.
End dsse.

(** Truncation keeps a prefix of at most [max] bytes that ends between characters. *)
Lemma boundary_below_ok s n : boundary_below s n <= n /\ (boundary_below s n = 0 \/ is_char_boundary s (boundary_below s n) = true).
Proof.
  induction n as [|n [IH1 IH2]]; [by split; [|left]|]. cbn [boundary_below].
  destruct (is_char_boundary s (S n)) eqn:E; [by split; [|right]|]. split; [lia|done].
Qed.

Lemma truncate_prefix s max :
  exists n, truncate_on_char_boundary s max = take n s /\ (n <= max \/ n = length s /\ length s <= max) /\
    (n = 0 \/ is_char_boundary s n = true).
Proof.
  unfold truncate_on_char_boundary. destruct (decide (length s <= max)).
  - exists (length s). rewrite firstn_all. split; [done|]. split; [by right|]. right.
    unfold is_char_boundary. rewrite lookup_ge_None_2 by lia. by apply bool_decide_true.
  - exists (boundary_below s max). destruct (boundary_below_ok s max) as [H1 H2]. split; [done|]. split; [by left|done].
Qed.
End Dsse.
