(* ===== verification/Toy.v ===== *)
(** Executable instances of the text, signature and JSON interfaces: they satisfy the
    laws and let the witnesses run. *)
From S2P Require Import Prelude Text Crypto Sign Lifecycle Keys Json IJson Dsse.

(** A byte as two letters [a] to [p]. *)
Definition nibble (n : Z) : byte := byte_of_Z (97 + n).

Fixpoint letters (b : bytes) : bytes :=
  match b with
  | [] => []
  | c :: b => nibble (byte_to_Z c / 16) :: nibble (byte_to_Z c mod 16) :: letters b
  end.

Definition letter_value (c : byte) : option Z :=
  let n := (byte_to_Z c - 97)%Z in if (0 <=? n)%Z && (n <? 16)%Z then Some n else None.

Fixpoint unletters (l : bytes) : option bytes :=
  match l with
  | [] => Some []
  | x :: l =>
      match l with
      | [] => None
      | y :: l => hi ← letter_value x; lo ← letter_value y; b ← unletters l; Some (byte_of_Z (16 * hi + lo) :: b)
      end
  end.

Lemma letter_value_nibble n : (0 <= n < 16)%Z -> letter_value (nibble n) = Some n.
Proof.
  intros Hn. unfold letter_value, nibble. rewrite byte_to_Z_of_Z, Z.mod_small by lia.
  replace (97 + n - 97)%Z with n by lia. destruct (Z.leb_spec 0 n), (Z.ltb_spec n 16); (done || lia).
Qed.

Lemma toy_byte_roundtrip c : byte_of_Z (16 * (byte_to_Z c / 16) + byte_to_Z c mod 16) = c.
Proof.
  rewrite <- Z.div_mod by lia. by destruct c as [[] [] [] [] [] [] [] []].
Qed.

Lemma unletters_letters b : unletters (letters b) = Some b.
Proof.
  induction b as [|c b IH]; [done|]. cbn [letters unletters].
  assert (0 <= byte_to_Z c < 256)%Z as Hc by (unfold byte_to_Z; pose proof (N_ascii_bounded c); lia).
  rewrite !letter_value_nibble; [|split; [apply Z.div_pos; lia|apply Z.div_lt_upper_bound; lia]|apply Z.mod_pos_bound; lia].
  cbn [mbind option_bind]. rewrite IH. cbn [mbind option_bind]. by rewrite toy_byte_roundtrip.
Qed.

Lemma letter_value_Some c n : letter_value c = Some n -> (97 <= byte_to_Z c < 113)%Z.
Proof. unfold letter_value. destruct (Z.leb_spec 0 (byte_to_Z c - 97)), (Z.ltb_spec (byte_to_Z c - 97) 16); cbn; (done || lia). Qed.

Lemma unletters_alphabet n : forall l b, length l <= n -> unletters l = Some b ->
  Forall (fun c => 97 <= byte_to_Z c < 113)%Z l.
Proof.
  induction n as [|n IH]; intros [|x [|y l]] b Hn; cbn in Hn |- *; try lia; try (by intros _; constructor); [done|].
  destruct (letter_value x) eqn:Ex; [|done]. destruct (letter_value y) eqn:Ey; [|done].
  destruct (unletters l) as [r|] eqn:El; [|done]. intros _.
  constructor; [by eapply letter_value_Some|]. constructor; [by eapply letter_value_Some|]. eapply IH; [|exact El]. lia.
Qed.

Definition toy_encode (b : bytes) : string := from_utf8 (letters b).
Definition toy_decode (s : string) : option bytes := unletters (as_bytes s).

Lemma toy_decode_encode b : toy_decode (toy_encode b) = Some b.
Proof. unfold toy_decode, toy_encode. rewrite as_bytes_from_utf8. apply unletters_letters. Qed.

Lemma toy_alphabet s b c : toy_decode s = Some b -> c ∈ as_bytes s -> (97 <= byte_to_Z c < 113)%Z.
Proof.
  intros H Hc. apply (unletters_alphabet (length (as_bytes s))) in H; [|done].
  rewrite Forall_forall in H. by apply H.
Qed.

Definition ToyBase64 : Base64.
Proof.
  refine {| b64_encode := toy_encode; b64_decode := toy_decode; b64_decode_encode := toy_decode_encode |}.
  intros b c Hc. apply (toy_alphabet _ _ _ (toy_decode_encode b)) in Hc.
  repeat split; intros ->; revert Hc; vm_compute; intros []; congruence.
Defined.

(** [base64::engine::general_purpose::URL_SAFE_NO_PAD], by groups of six bits; a sextet is
    a byte whose two top bits are clear. *)
Definition url_charset : bytes := as_bytes "ABCDEFGHIJKLMNOPQRSTUVWXYZabcdefghijklmnopqrstuvwxyz0123456789-_".

Definition url_char (s : byte) : byte := nth (N.to_nat (N_of_ascii s)) url_charset "A"%char.

Fixpoint index_of (c : byte) (l : bytes) (i : nat) : option nat :=
  match l with [] => None | x :: l => if decide (x = c) then Some i else index_of c l (S i) end.

Definition url_sextet (c : byte) : option byte := ascii_of_nat <$> index_of c url_charset 0.

Definition sextet_1 (a : byte) : byte := let 'Ascii _ _ a2 a3 a4 a5 a6 a7 := a in Ascii a2 a3 a4 a5 a6 a7 false false.
Definition sextet_2 (a b : byte) : byte :=
  let 'Ascii a0 a1 _ _ _ _ _ _ := a in let 'Ascii _ _ _ _ b4 b5 b6 b7 := b in Ascii b4 b5 b6 b7 a0 a1 false false.
Definition sextet_3 (b c : byte) : byte :=
  let 'Ascii b0 b1 b2 b3 _ _ _ _ := b in let 'Ascii _ _ _ _ _ _ c6 c7 := c in Ascii c6 c7 b0 b1 b2 b3 false false.
Definition sextet_4 (c : byte) : byte := let 'Ascii c0 c1 c2 c3 c4 c5 _ _ := c in Ascii c0 c1 c2 c3 c4 c5 false false.

Definition octet_1 (x y : byte) : byte :=
  let 'Ascii a2 a3 a4 a5 a6 a7 _ _ := x in let 'Ascii _ _ _ _ a0 a1 _ _ := y in Ascii a0 a1 a2 a3 a4 a5 a6 a7.
Definition octet_2 (y z : byte) : byte :=
  let 'Ascii b4 b5 b6 b7 _ _ _ _ := y in let 'Ascii _ _ b0 b1 b2 b3 _ _ := z in Ascii b0 b1 b2 b3 b4 b5 b6 b7.
Definition octet_3 (z w : byte) : byte :=
  let 'Ascii c6 c7 _ _ _ _ _ _ := z in let 'Ascii c0 c1 c2 c3 c4 c5 _ _ := w in Ascii c0 c1 c2 c3 c4 c5 c6 c7.

Fixpoint url_letters (l : bytes) : bytes :=
  match l with
  | [] => []
  | [a] => [url_char (sextet_1 a); url_char (sextet_2 a zero)]
  | [a; b] => [url_char (sextet_1 a); url_char (sextet_2 a b); url_char (sextet_3 b zero)]
  | a :: b :: c :: l =>
      url_char (sextet_1 a) :: url_char (sextet_2 a b) :: url_char (sextet_3 b c) :: url_char (sextet_4 c) :: url_letters l
  end.

(** Trailing bits must be clear. *)
Fixpoint url_unletters (l : bytes) : option bytes :=
  match l with
  | [] => Some []
  | [_] => None
  | [x; y] =>
      x ← url_sextet x; y ← url_sextet y;
      if decide (sextet_2 (octet_1 x y) zero = y) then Some [octet_1 x y] else None
  | [x; y; z] =>
      x ← url_sextet x; y ← url_sextet y; z ← url_sextet z;
      if decide (sextet_3 (octet_2 y z) zero = z) then Some [octet_1 x y; octet_2 y z] else None
  | x :: y :: z :: w :: l =>
      x ← url_sextet x; y ← url_sextet y; z ← url_sextet z; w ← url_sextet w;
      r ← url_unletters l; Some (octet_1 x y :: octet_2 y z :: octet_3 z w :: r)
  end.

Lemma url_sextet_char b0 b1 b2 b3 b4 b5 :
  url_sextet (url_char (Ascii b0 b1 b2 b3 b4 b5 false false)) = Some (Ascii b0 b1 b2 b3 b4 b5 false false).
Proof. by destruct b0, b1, b2, b3, b4, b5; vm_compute. Qed.

Lemma url_unletters_letters n : forall l, length l <= n -> url_unletters (url_letters l) = Some l.
Proof.
  induction n as [|n IH]; intros [|[] [|[] [|[] l]]] Hn; cbn in Hn; try lia; try done;
    cbn [url_letters url_unletters sextet_1 sextet_2 sextet_3 sextet_4 zero];
    rewrite !url_sextet_char; cbn [mbind option_bind]; [by rewrite decide_True..|].
  rewrite IH by lia. done.
Qed.

Lemma index_of_elem c l i n : index_of c l i = Some n -> c ∈ l.
Proof.
  revert i. induction l as [|x l IH]; intros i; cbn [index_of]; [done|].
  destruct (decide (x = c)) as [->|]; [by left|]. intros H%IH. by right.
Qed.

Lemma url_sextet_elem c s : url_sextet c = Some s -> c ∈ url_charset.
Proof. unfold url_sextet. destruct (index_of c url_charset 0) eqn:E; [|done]. intros _. by eapply index_of_elem. Qed.

Lemma url_unletters_charset n : forall l b, length l <= n -> url_unletters l = Some b -> Forall (fun c => c ∈ url_charset) l.
Proof.
  induction n as [|n IH]; intros [|x [|y [|z [|w l]]]] b Hn; cbn in Hn; try lia; try (by intros _; constructor); try done;
    cbn [url_unletters].
  all: destruct (url_sextet x) eqn:Ex; [|done]; destruct (url_sextet y) eqn:Ey; [|done]; cbn [mbind option_bind];
    try (destruct (url_sextet z) eqn:Ez; [|done]); cbn [mbind option_bind];
    try (destruct (url_sextet w) eqn:Ew; [|done]); cbn [mbind option_bind].
  1, 2: (intros _; repeat (constructor; [by eapply url_sextet_elem|]); by constructor).
  destruct (url_unletters l) as [r|] eqn:El; [|done]. intros _.
  repeat (constructor; [by eapply url_sextet_elem|]). eapply IH; [|exact El]. lia.
Qed.

Definition ToyBase64Url : Keys.Base64Url.
Proof.
  refine {| Keys.url_encode := fun b => from_utf8 (url_letters b); Keys.url_decode := fun s => url_unletters (as_bytes s) |}.
  - intros b. rewrite as_bytes_from_utf8. by eapply url_unletters_letters.
  - intros s b c Hs Hc. apply (url_unletters_charset (length (as_bytes s))) in Hs; [|done].
    rewrite Forall_forall in Hs. apply Hs in Hc.
    split; intros ->; pose proof (bool_decide_eq_true_2 _ Hc) as Hb; revert Hb; vm_compute; discriminate.
Defined.

Definition ToyVariants : Dsse.Base64Variants :=
  {| Dsse.std_no_pad_decode := fun _ => None; Dsse.url_pad_decode := fun _ => None |}.

Definition ToyJwkText : Keys.JwkText.
Proof.
  refine {| Keys.construction := fun a b c => Some (put (a, b, c)) |}; [by eexists|].
  intros a b c a' b' c' H. assert (put (a, b, c) = put (a', b', c')) as Hp by congruence.
  pose proof (get_put (a, b, c) []) as H1. rewrite Hp, get_put in H1. by simplify_eq.
Defined.

(** The tree of a value, and a syntax in which bytes are its wire format. *)
Fixpoint raw_of (j : Json.Json) : IJson.Raw :=
  match j with
  | Json.JNull => IJson.RUnit
  | Json.JBool b => IJson.RBool b
  | Json.JInt z => IJson.RI64 z
  | Json.JFloat m e => IJson.RF64 (IJson.Finite m e)
  | Json.JStr s => IJson.RStr s
  | Json.JArr l => IJson.RSeq (map raw_of l) None
  | Json.JObj l => IJson.RMap (map (fun kv => (kv.1, raw_of kv.2)) l) None
  end.

Definition ToySyntax : IJson.JsonSyntax := {|
  IJson.lex := fun b => match get b with Some (j, []) => raw_of j | _ => IJson.RBad "bytes" end;
  IJson.trailing := fun _ => None;
|}.

Definition ToySchemas : Dsse.Schemas := {| Dsse.schema_errors := fun _ _ => [] |}.

#[global] Instance EnvelopeSignature_wire : Wire Dsse.EnvelopeSignature.
Proof. refine (wire_inj (fun e => (Dsse.keyid e, Dsse.sig e)) (fun '(a, b) => Dsse.mkEnvSig a b) _). by intros []. Defined.

#[global] Instance Envelope_wire : Wire Dsse.Envelope.
Proof.
  refine (wire_inj (fun e => (Dsse.payload e, Dsse.payload_type e, Dsse.signatures e)) (fun '(a, b, c) => Dsse.mkEnvelope a b c) _).
  by intros [].
Defined.
