(* ===== verification/Proposal.v ===== *)
(** Reception of a contract proposal (akson-contract/src): the payload pipeline of
    contract.rs, the trusted-time window of expiry.rs, the Part extraction of extraction.rs,
    the input manifest of manifest.rs, the signed proposal of proposal.rs and decision of
    decision.rs, and their composition in receive.rs.

    The generated A2A types are modelled by the fields these functions read; serde's derived
    deserializers, the RFC 3339 parser and the schema validator are parameters. *)
From S2P Require Import Prelude Text Crypto Sign Lifecycle Keys Json IJson Dsse Toy Contract.

Module Proposal.
Import Contract Keys Json.

(** [serde_json::from_value] of a derived type. *)
Class FromValue (A : Type) := { from_value : Json -> option A }.

(** [serde_json::to_value]: an encodable type whose value reads back. *)
Class ToValue (A : Type) := {
  to_value : A -> Json;
  of_value :: FromValue A;
  from_to_value : forall a, from_value (to_value a) = Some a;
}.

#[global] Existing Instance of_value.

(** [OffsetDateTime::parse(s, &Rfc3339)], as unix seconds. *)
Class Rfc3339 := { parse_rfc3339 : string -> option Z }.

(** ** The payload pipeline (contract.rs) *)

Inductive ContractError :=
| EIJson (e : IJson.IJsonError) | EJcs | NotCanonical | ESchema (e : Dsse.SchemaError) | Shape.

(** [?] with the [From] conversion of the error. *)
Definition lift_err {E F A} (f : E -> F) (r : result E A) : result F A :=
  match r with Ok a => Ok a | Err e => Err (f e) end.

Lemma lift_err_Ok {E F A} (f : E -> F) (r : result E A) a : lift_err f r = Ok a <-> r = Ok a.
Proof. destruct r; cbn; split; congruence. Qed.

Section payload.
Context {HS : Hashes} {HX : Hex} {SX : IJson.JsonSyntax} {CN : Canon Json} {SV : Dsse.Schemas}.

(** [jcs::canonical_bytes]. *)
Definition canonical_bytes (v : Json) : option bytes := to_canon v.

(** [hex::encode(Sha256::digest(..))]. *)
Definition hex_digest (b : bytes) : string := hex_encode (sha256 b).

Definition parse_payload {FV : FromValue Contract} (payload : bytes) : result ContractError ParsedContract :=
  value ← lift_err EIJson (IJson.parse payload);
  canonical ← ok_or (canonical_bytes value) EJcs;
  if decide (canonical <> payload) then Err NotCanonical else
  _ ← lift_err ESchema (Dsse.validate Dsse.ContractV1 value);
  contract ← ok_or (from_value value) Shape;
  Ok (mkParsed contract (hex_digest payload) payload).
End payload.

(** ** The validity window (expiry.rs) *)

Inductive Validity := Valid | NotYetValid | Expired.

Inductive TimestampError := mkTimestampError (field : string).

Definition NOT_YET_VALID_LEEWAY_SECS : Z := 5.

Section window.
Context {TM : Rfc3339}.

(** [expiry::parse]. *)
Definition parse_time (s field : string) : result TimestampError Z :=
  ok_or (parse_rfc3339 s) (mkTimestampError field).

Definition validity (c : Contract) (now_unix : Z) : result TimestampError Validity :=
  created ← parse_time (created_at c) "created_at";
  expires ← parse_time (expires_at c) "expires_at";
  if (expires <=? created)%Z then Ok Expired
  else if (now_unix <? created - NOT_YET_VALID_LEEWAY_SECS)%Z then Ok NotYetValid
  else if (expires <=? now_unix)%Z then Ok Expired
  else Ok Valid.

Definition expires_at_unix (c : Contract) : result TimestampError Z := parse_time (expires_at c) "expires_at".
Definition deadline_unix (c : Contract) : result TimestampError Z := parse_time (l_deadline (limits c)) "deadline".
End window.

(** ** The input manifest (manifest.rs) *)

Inductive PartBody := BText (s : string) | BData (v : Json).

Record InputPart := mkPart { ip_message_id : string; ip_part_index : Z; ip_media_type : string; ip_body : PartBody }.

Inductive BindError :=
| Unmanifested (message_id : string) (part_index : Z) | DuplicatePart (message_id : string) (part_index : Z)
| MultiplyReferenced (a b : string) | DanglingEntry (id : string) | KindMismatch (id : string)
| MediaTypeMismatch (id : string) | ByteLengthMismatch (id : string) | BindDigestMismatch (id : string)
| Canonicalize (id : string).

Definition entry_coords (e : InputEntry) : string * Z := (in_message_id e, in_part_index e).
Definition part_coords (p : InputPart) : string * Z := (ip_message_id p, ip_part_index p).

Section manifest.
Context {HS : Hashes} {HX : Hex} {CN : Canon Json}.

Definition check_part (entry : InputEntry) (part : InputPart) : result BindError () :=
  let id := in_id entry in
  match ip_body part, in_kind entry with
  | BText _, Text | BData _, Data =>
      if decide (in_media_type entry <> ip_media_type part) then Err (MediaTypeMismatch id) else
      b ← match ip_body part, in_canonical_rule entry with
          | BText s, Utf8Exact => Ok (as_bytes s)
          | BData v, Jcs => ok_or (canonical_bytes v) (Canonicalize id)
          | _, _ => Err (KindMismatch id)
          end;
      if decide (Z.of_nat (length b) <> in_byte_length entry) then Err (ByteLengthMismatch id) else
      if decide (hex_digest b <> in_sha256 entry) then Err (BindDigestMismatch id) else Ok ()
  | _, _ => Err (KindMismatch id)
  end.

(** The three loops of [bind_inputs]. *)
Fixpoint index_entries (by_coords : gmap (string * Z) InputEntry) (entries : list InputEntry) :
  result BindError (gmap (string * Z) InputEntry) :=
  match entries with
  | [] => Ok by_coords
  | entry :: entries =>
      match by_coords !! entry_coords entry with
      | Some prior => Err (MultiplyReferenced (in_id prior) (in_id entry))
      | None => index_entries (<[entry_coords entry := entry]> by_coords) entries
      end
  end.

Fixpoint match_parts (by_coords : gmap (string * Z) InputEntry) (seen : gset (string * Z)) (parts : list InputPart) :
  result BindError (gset (string * Z)) :=
  match parts with
  | [] => Ok seen
  | part :: parts =>
      if decide (part_coords part ∈ seen) then Err (DuplicatePart (ip_message_id part) (ip_part_index part)) else
      entry ← ok_or (by_coords !! part_coords part) (Unmanifested (ip_message_id part) (ip_part_index part));
      _ ← check_part entry part;
      match_parts by_coords ({[part_coords part]} ∪ seen) parts
  end.

Fixpoint check_complete (seen : gset (string * Z)) (entries : list InputEntry) : result BindError () :=
  match entries with
  | [] => Ok ()
  | entry :: entries =>
      if decide (entry_coords entry ∉ seen) then Err (DanglingEntry (in_id entry)) else check_complete seen entries
  end.

Definition bind_inputs (entries : list InputEntry) (parts : list InputPart) : result BindError () :=
  by_coords ← index_entries ∅ entries;
  seen ← match_parts by_coords ∅ parts;
  check_complete seen entries.
End manifest.

(** ** Part extraction (extraction.rs) *)

(** The [oneof content] of an A2A Part; [V] is the protobuf [Value]. *)
Inductive Content (V : Type) := CText (s : string) | CRaw (b : bytes) | CUrl (s : string) | CData (v : V).
Arguments CText {V} s.
Arguments CRaw {V} b.
Arguments CUrl {V} s.
Arguments CData {V} v.

Record Part (V : Type) := mkMsgPart { filename : string; content : option (Content V); media_type : string }.
Arguments mkMsgPart {V} _ _ _.
Arguments filename {V} _.
Arguments content {V} _.
Arguments media_type {V} _.

(** [serde_json::to_value] of a protobuf [Value]: a non-finite number has no JSON. *)
Class ProtoValue (V : Type) := { to_json : V -> option Json }.

Record Extracted := mkExtracted { x_envelope : Dsse.Envelope; x_inputs : list InputPart }.

Inductive ExtractError :=
| MissingContractPart | MultipleContractParts | ContractPartNotData | MalformedEnvelope
| UnsupportedPartKind (index : Z) | EmptyPart (index : Z) | NonJsonData (index : Z).

Section extraction.
Context {V : Type} {PV : ProtoValue V} {FE : FromValue Dsse.Envelope}.

Definition parse_envelope (value : V) : result ExtractError Dsse.Envelope :=
  json ← ok_or (to_json value) MalformedEnvelope;
  ok_or (from_value json) MalformedEnvelope.

(** The loop, at position [idx]; [idx as u32] is the index. *)
Fixpoint extract_loop (message_id : string) (idx : Z) (envelope : option Dsse.Envelope) (inputs : list InputPart)
  (parts : list (Part V)) : result ExtractError (option Dsse.Envelope * list InputPart) :=
  match parts with
  | [] => Ok (envelope, inputs)
  | part :: parts =>
      let index := (idx mod 2 ^ 32)%Z in
      let is_contract := bool_decide (media_type part = Dsse.DSSE_ENVELOPE_MEDIA_TYPE) in
      let input body := mkPart message_id index (media_type part) body in
      match content part, is_contract with
      | Some (CData value), true =>
          match envelope with
          | Some _ => Err MultipleContractParts
          | None => e ← parse_envelope value; extract_loop message_id (idx + 1) (Some e) inputs parts
          end
      | _, true => Err ContractPartNotData
      | Some (CText text), false =>
          extract_loop message_id (idx + 1) envelope (inputs ++ [input (BText text)]) parts
      | Some (CData value), false =>
          json ← ok_or (to_json value) (NonJsonData index);
          extract_loop message_id (idx + 1) envelope (inputs ++ [input (BData json)]) parts
      | Some (CRaw _), false | Some (CUrl _), false => Err (UnsupportedPartKind index)
      | None, false => Err (EmptyPart index)
      end
  end.

Definition extract_proposal (message_id : string) (parts : list (Part V)) : result ExtractError Extracted :=
  '(envelope, inputs) ← extract_loop message_id 0 None [] parts;
  envelope ← ok_or envelope MissingContractPart;
  Ok (mkExtracted envelope inputs).
End extraction.

(** ** Signed proposals and decisions (proposal.rs, decision.rs) *)

Inductive ProposalError :=
| PPurpose (e : KeyError) | PDsse (e : Dsse.DsseError) | PContract (e : ContractError)
| RequesterMismatch | PerformerMismatch.

Inductive DecisionKind := Accept | Reject | RevisionRequest.

Record Decision := mkDecision {
  dc_schema_version : Z;
  dc_decision : DecisionKind;
  dc_contract_id : string;
  dc_contract_revision : Z;
  dc_contract_digest : string;
  dc_task_id : string;
  dc_context_id : string;
  dc_decider : Identity;
  dc_reason_code : option string;
  dc_note : option string;
  dc_decided_at : string;
}.

Inductive DecisionError :=
| DPurpose (e : KeyError) | DDsse (e : Dsse.DsseError) | DIJson (e : IJson.IJsonError) | DJcs | DNotCanonical
| DSchema (e : Dsse.SchemaError) | DShape | DBinding (what : string).

Definition check_proposal_identities (c : Contract) (requester_origin local_performer : Identity) :
  result ProposalError () :=
  if decide (requester c <> requester_origin) then Err RequesterMismatch
  else if decide (performer c <> local_performer) then Err PerformerMismatch else Ok ().

Definition check_binds_to (d : Decision) (proposal : ParsedContract) : result DecisionError () :=
  let c := contract proposal in
  if decide (dc_contract_id d <> contract_id c) then Err (DBinding "contract id")
  else if decide (dc_contract_revision d <> revision c) then Err (DBinding "contract revision")
  else if decide (dc_contract_digest d <> digest proposal) then Err (DBinding "contract digest")
  else if decide (dc_decider d <> performer c) then Err (DBinding "decider is not the performer")
  else Ok ().

Section signed.
Context {HS : Hashes} {HX : Hex} {ED : Ed25519} {B64 : Base64} {BU : Base64Url} {BV : Dsse.Base64Variants}
  {JT : JwkText} {SX : IJson.JsonSyntax} {CN : Canon Json} {SV : Dsse.Schemas}.

Definition proposal_payload_type : string := Dsse.schema_media_type Dsse.ContractV1.
Definition decision_payload_type : string := Dsse.schema_media_type Dsse.DecisionV1.

Section proposal.
Context {FV : FromValue Contract}.

Definition sign_proposal (payload : bytes) (key : PurposeKey) : result ProposalError Dsse.Envelope :=
  _ ← lift_err PContract (parse_payload payload);
  lift_err PPurpose (sign_with key Lifecycle.ContractProposal (Dsse.sign proposal_payload_type payload)).

Definition verify_proposal (env : Dsse.Envelope) (key : PurposeVerifyingKey) : result ProposalError ParsedContract :=
  vk ← lift_err PPurpose (key_for key Lifecycle.ContractProposal);
  payload ← lift_err PDsse (Dsse.verify env proposal_payload_type vk);
  lift_err PContract (parse_payload payload).
End proposal.

Section decision.
Context {TV : ToValue Decision}.

Definition sign_decision (d : Decision) (key : PurposeKey) : result DecisionError Dsse.Envelope :=
  let value := to_value d in
  _ ← lift_err DSchema (Dsse.validate Dsse.DecisionV1 value);
  payload ← ok_or (canonical_bytes value) DJcs;
  lift_err DPurpose (sign_with key Lifecycle.ContractDecision (Dsse.sign decision_payload_type payload)).

Definition verify_decision (env : Dsse.Envelope) (key : PurposeVerifyingKey) : result DecisionError Decision :=
  vk ← lift_err DPurpose (key_for key Lifecycle.ContractDecision);
  payload ← lift_err DDsse (Dsse.verify env decision_payload_type vk);
  value ← lift_err DIJson (IJson.parse payload);
  canonical ← ok_or (canonical_bytes value) DJcs;
  if decide (canonical <> payload) then Err DNotCanonical else
  _ ← lift_err DSchema (Dsse.validate Dsse.DecisionV1 value);
  ok_or (from_value value) DShape.
End decision.
End signed.

(** ** Reception (receive.rs) *)

Record ReceivedProposal := mkReceived { r_proposal : ParsedContract; r_inputs : list InputPart }.

Inductive ReceiveError :=
| RExtract (e : ExtractError) | RProposal (e : ProposalError) | RBind (e : BindError) | RExpired | RNotYetValid
| RTimestamp (e : TimestampError).

Section receive.
Context {HS : Hashes} {HX : Hex} {ED : Ed25519} {B64 : Base64} {BU : Base64Url} {BV : Dsse.Base64Variants}
  {JT : JwkText} {SX : IJson.JsonSyntax} {CN : Canon Json} {SV : Dsse.Schemas} {FV : FromValue Contract}
  {FE : FromValue Dsse.Envelope} {TM : Rfc3339} {V : Type} {PV : ProtoValue V}.

Definition receive_proposal (message_id : string) (parts : list (Part V)) (proposal_key : PurposeVerifyingKey)
  (requester_origin local_performer : Identity) (trusted_now_unix : Z) : result ReceiveError ReceivedProposal :=
  extracted ← lift_err RExtract (extract_proposal message_id parts);
  proposal ← lift_err RProposal (verify_proposal (x_envelope extracted) proposal_key);
  _ ← lift_err RProposal (check_proposal_identities (contract proposal) requester_origin local_performer);
  _ ← lift_err RBind (bind_inputs (inputs (contract proposal)) (x_inputs extracted));
  v ← lift_err RTimestamp (validity (contract proposal) trusted_now_unix);
  match v with
  | Valid => Ok (mkReceived proposal (x_inputs extracted))
  | Expired => Err RExpired
  | NotYetValid => Err RNotYetValid
  end.
End receive.

(** ** The manifest is a bijection *)

Section manifest_facts.
Context {HS : Hashes} {HX : Hex} {CN : Canon Json}.

(** The bytes a Part is digested as. *)
Definition part_bytes (b : PartBody) : option bytes :=
  match b with BText s => Some (as_bytes s) | BData v => canonical_bytes v end.

Definition kind_of (b : PartBody) : PartKind * CanonicalRule :=
  match b with BText _ => (Text, Utf8Exact) | BData _ => (Data, Jcs) end.

(** A Part is what its entry says: kind and rule, media type, length, digest. *)
Definition conforms (e : InputEntry) (p : InputPart) : Prop :=
  kind_of (ip_body p) = (in_kind e, in_canonical_rule e) /\ in_media_type e = ip_media_type p /\
  exists b, part_bytes (ip_body p) = Some b /\ Z.of_nat (length b) = in_byte_length e /\ hex_digest b = in_sha256 e.

Lemma check_part_Ok e p : check_part e p = Ok () <-> conforms e p.
Proof.
  unfold check_part, conforms.
  assert (forall o id, (b ← (o : result BindError bytes);
      if decide (Z.of_nat (length b) <> in_byte_length e) then Err (ByteLengthMismatch id) else
      if decide (hex_digest b <> in_sha256 e) then Err (BindDigestMismatch id) else Ok ()) = Ok () <->
      exists b, o = Ok b /\ Z.of_nat (length b) = in_byte_length e /\ hex_digest b = in_sha256 e) as Htail.
  { intros [b|err] id; cbn; [|split; [done|by intros (? & ? & _)]].
    destruct (decide (Z.of_nat (length b) <> _)) as [Hl|Hl]; [split; [done|intros (? & [= <-] & ? & _); done]|].
    destruct (decide (hex_digest b <> _)) as [Hd|Hd]; [split; [done|intros (? & [= <-] & _ & ?); done]|].
    apply dec_stable in Hl, Hd. split; [by exists b|done]. }
  destruct (ip_body p) as [s|v], (in_kind e); cbn; try (split; [done|by intros [? _]]);
    (destruct (decide (in_media_type e <> ip_media_type p)) as [Hm|Hm]; [split; [done|by intros (_ & ? & _)]|]);
    apply dec_stable in Hm; rewrite Htail; destruct (in_canonical_rule e); cbn;
    try (split; [by intros (? & ? & _)|by intros [? _]]); split.
  - intros (b & [= <-] & Hl & Hd). repeat split; [done|by exists (as_bytes s)].
  - intros (_ & _ & b & [= <-] & Hl & Hd). by exists (as_bytes s).
  - intros (b & Hb%ok_or_Ok & Hl & Hd). repeat split; [done|by exists b].
  - intros (_ & _ & b & Hb & Hl & Hd). exists b. by rewrite ok_or_Ok.
Qed.

(** Every Part has exactly one entry, every entry exactly one Part, and they conform. *)
Definition bound (entries : list InputEntry) (parts : list InputPart) : Prop :=
  NoDup (entry_coords <$> entries) /\ NoDup (part_coords <$> parts) /\
  (forall p, p ∈ parts -> exists e, e ∈ entries /\ entry_coords e = part_coords p /\ conforms e p) /\
  (forall e, e ∈ entries -> exists p, p ∈ parts /\ part_coords p = entry_coords e).

Definition indexed (m : gmap (string * Z) InputEntry) (entries : list InputEntry) : Prop :=
  forall c e, m !! c = Some e <-> e ∈ entries /\ entry_coords e = c.

Lemma index_entries_Ok entries : forall done m m',
  indexed m done -> NoDup (entry_coords <$> done) ->
  index_entries m entries = Ok m' <->
  NoDup (entry_coords <$> (done ++ entries)) /\ m' = foldl (fun m e => <[entry_coords e := e]> m) m entries.
Proof.
  induction entries as [|e entries IH]; intros done m m' Hm Hd; cbn [index_entries foldl].
  { rewrite app_nil_r. split; [by intros [= <-]|by intros [_ ->]]. }
  destruct (m !! entry_coords e) as [prior|] eqn:E.
  { split; [discriminate|]. intros [Hnd _]. exfalso. apply Hm in E as [Hin Hc].
    rewrite fmap_app, NoDup_app in Hnd. destruct Hnd as (_ & Hdis & _).
    apply (Hdis (entry_coords e)); [rewrite <- Hc; by apply list_elem_of_fmap_2|left]. }
  assert (entry_coords e ∉ entry_coords <$> done) as Hfresh.
  { intros (e' & He & Hin)%list_elem_of_fmap. assert (m !! entry_coords e = Some e') by by apply Hm. congruence. }
  rewrite (IH (done ++ [e])); [by rewrite <- app_assoc| |].
  - intros c e'. destruct (decide (c = entry_coords e)) as [->|Hne].
    + rewrite lookup_insert_eq. split; [intros [= <-]; set_solver|].
      intros [[Hin| ->%list_elem_of_singleton]%elem_of_app Hc]; [|done].
      destruct Hfresh. rewrite <- Hc. by apply list_elem_of_fmap_2.
    + rewrite lookup_insert_ne by done. rewrite (Hm c e'). set_solver.
  - rewrite fmap_app. apply NoDup_app. split; [done|]. split; [|apply NoDup_singleton].
    by intros x Hx ->%list_elem_of_singleton.
Qed.

Lemma foldl_indexed entries : forall done m,
  indexed m done -> NoDup (entry_coords <$> (done ++ entries)) ->
  indexed (foldl (fun m e => <[entry_coords e := e]> m) m entries) (done ++ entries).
Proof.
  induction entries as [|e entries IH]; intros done m Hm Hnd; cbn [foldl]; [by rewrite app_nil_r|].
  rewrite cons_middle, app_assoc in Hnd |- *. apply IH; [|done].
  rewrite fmap_app, NoDup_app in Hnd. destruct Hnd as (Hnd & _ & _).
  rewrite fmap_app, NoDup_app in Hnd. destruct Hnd as (_ & Hdis & _).
  intros c e'. destruct (decide (c = entry_coords e)) as [->|Hne].
  - rewrite lookup_insert_eq. split; [intros [= <-]; set_solver|].
    intros [[Hin| ->%list_elem_of_singleton]%elem_of_app Hc]; [|done]. exfalso.
    apply (Hdis (entry_coords e)); [rewrite <- Hc; by apply list_elem_of_fmap_2|left].
  - rewrite lookup_insert_ne by done. rewrite (Hm c e'). set_solver.
Qed.

Lemma match_parts_Ok m parts : forall seen seen',
  match_parts m seen parts = Ok seen' <->
  NoDup (part_coords <$> parts) /\ (forall p, p ∈ parts -> part_coords p ∉ seen) /\
  (forall p, p ∈ parts -> exists e, m !! part_coords p = Some e /\ conforms e p) /\
  seen' = list_to_set (part_coords <$> parts) ∪ seen.
Proof.
  induction parts as [|p parts IH]; intros seen seen'; cbn [match_parts].
  { cbn. rewrite (left_id_L ∅ (∪)). split; [intros [= <-]; split; [constructor|set_solver]|by intros (_ & _ & _ & ->)]. }
  destruct (decide (part_coords p ∈ seen)) as [Hin|Hout].
  { split; [discriminate|]. intros (_ & Hn & _). destruct (Hn p); [left|done]. }
  destruct (m !! part_coords p) as [e|] eqn:E; cbn [ok_or mbind result_bind].
  2: { split; [discriminate|]. intros (_ & _ & Hall & _). destruct (Hall p) as (e & He & _); [left|congruence]. }
  destruct (check_part e p) as [[]|err] eqn:Ec; cbn [mbind result_bind].
  2: { split; [discriminate|]. intros (_ & _ & Hall & _). destruct (Hall p) as (e' & He & Hc); [left|].
       apply check_part_Ok in Hc. simplify_eq. congruence. }
  apply check_part_Ok in Ec. rewrite IH. rewrite fmap_cons, NoDup_cons, list_to_set_cons.
  rewrite <- (union_assoc_L {[part_coords p]}), (union_assoc_L (list_to_set _)), (union_comm_L (list_to_set _) {[part_coords p]}).
  rewrite <- (union_assoc_L {[part_coords p]} (list_to_set _)). split.
  - intros (Hnd & Hn & Hall & ->). repeat split; [|done| |].
    + intros (q & Hq & Hqin)%list_elem_of_fmap. apply (Hn q Hqin). rewrite <- Hq.
      by apply elem_of_union_l, elem_of_singleton.
    + intros q [->|Hq]%elem_of_cons; [done|]. by apply Hn, not_elem_of_union in Hq as [_ ?].
    + intros q [->|Hq]%elem_of_cons; [by exists e|by apply Hall].
  - intros ([Hp Hnd] & Hn & Hall & ->). repeat split; [done| |].
    + intros q Hq. apply not_elem_of_union. split; [|apply Hn; by right].
      intros Hs%elem_of_singleton. apply Hp. rewrite <- Hs. by apply list_elem_of_fmap_2.
    + intros q Hq. apply Hall. by right.
Qed.

Lemma check_complete_Ok seen entries : check_complete seen entries = Ok () <-> forall e, e ∈ entries -> entry_coords e ∈ seen.
Proof.
  induction entries as [|e entries IH]; cbn [check_complete]; [split; [set_solver|done]|].
  destruct (decide (entry_coords e ∉ seen)) as [Hn|Hn].
  - split; [discriminate|]. intros H. destruct Hn. apply H. left.
  - apply dec_stable in Hn. rewrite IH. set_solver.
Qed.

Definition index_of (entries : list InputEntry) : gmap (string * Z) InputEntry :=
  foldl (fun m e => <[entry_coords e := e]> m) ∅ entries.

Lemma indexed_empty : indexed ∅ [].
Proof. intros c e. rewrite lookup_empty. split; [done|]. by intros [?%not_elem_of_nil _]. Qed.

Lemma bind_inputs_Ok entries parts : bind_inputs entries parts = Ok () <-> bound entries parts.
Proof.
  unfold bind_inputs, bound.
  assert (forall m, index_entries ∅ entries = Ok m <-> NoDup (entry_coords <$> entries) /\ m = index_of entries) as Hi
    by (intros m; apply (index_entries_Ok entries [] ∅); [apply indexed_empty|constructor]).
  destruct (index_entries ∅ entries) as [m|err] eqn:E; cbn [mbind result_bind].
  2: { split; [discriminate|]. intros [Hnd _]. by destruct (Hi (index_of entries)) as [_ ?]; intuition discriminate. }
  destruct (proj1 (Hi m) eq_refl) as [Hnd ->].
  pose proof (foldl_indexed entries [] ∅ indexed_empty Hnd) as Hm. fold (index_of entries) in Hm. cbn [app] in Hm.
  pose proof (match_parts_Ok (index_of entries) parts ∅) as Hp.
  assert (forall p, (exists e, index_of entries !! part_coords p = Some e /\ conforms e p) <->
                    (exists e, e ∈ entries /\ entry_coords e = part_coords p /\ conforms e p)) as Hlook.
  { intros p. split; intros (e & He); exists e; rewrite (Hm (part_coords p) e) in *; naive_solver. }
  setoid_rewrite <- Hlook. split.
  - destruct (match_parts (index_of entries) ∅ parts) as [seen|]; [|discriminate]. cbn [mbind result_bind].
    destruct (proj1 (Hp seen) eq_refl) as (Hpd & _ & Hall & ->). rewrite check_complete_Ok. intros Hc.
    repeat split; [done..|]. intros e He. apply Hc in He. rewrite union_empty_r_L, elem_of_list_to_set in He.
    apply list_elem_of_fmap in He as (p & ? & ?). by exists p.
  - intros (_ & Hpd & Hall & Hc).
    rewrite (proj2 (Hp (list_to_set (part_coords <$> parts) ∪ ∅))) by (repeat split; [done|set_solver|done]).
    cbn [mbind result_bind]. rewrite check_complete_Ok. intros e He. apply Hc in He as (p & Hin & <-).
    apply elem_of_union_l, elem_of_list_to_set. by apply list_elem_of_fmap_2.
Qed.
End manifest_facts.

(** ** Extraction separates the envelopes from the inputs *)

Section extraction_facts.
Context {V : Type} {PV : ProtoValue V} {FE : FromValue Dsse.Envelope}.

(** The Parts of a message from position [i] on, as envelopes and inputs in order; an index has 32 bits. *)
Inductive separated (mid : string) : Z -> list (Part V) -> list Dsse.Envelope -> list InputPart -> Prop :=
| sep_nil i : separated mid i [] [] []
| sep_envelope i f v ps env es ins :
    parse_envelope v = Ok env -> separated mid (i + 1) ps es ins ->
    separated mid i (mkMsgPart f (Some (CData v)) Dsse.DSSE_ENVELOPE_MEDIA_TYPE :: ps) (env :: es) ins
| sep_text i f s mt ps es ins :
    mt <> Dsse.DSSE_ENVELOPE_MEDIA_TYPE -> separated mid (i + 1) ps es ins ->
    separated mid i (mkMsgPart f (Some (CText s)) mt :: ps) es (mkPart mid (i mod 2 ^ 32)%Z mt (BText s) :: ins)
| sep_data i f v j mt ps es ins :
    mt <> Dsse.DSSE_ENVELOPE_MEDIA_TYPE -> to_json v = Some j -> separated mid (i + 1) ps es ins ->
    separated mid i (mkMsgPart f (Some (CData v)) mt :: ps) es (mkPart mid (i mod 2 ^ 32)%Z mt (BData j) :: ins).

Lemma extract_loop_Ok mid parts : forall i env acc env' ins',
  extract_loop mid i env acc parts = Ok (env', ins') <->
  exists es ins, separated mid i parts es ins /\ ins' = acc ++ ins /\ option_list env ++ es = option_list env'.
Proof.
  induction parts as [|[f c mt] parts IH]; intros i env acc env' ins'; cbn [extract_loop media_type content].
  { split.
    - intros [= <- <-]. exists [], []. rewrite !app_nil_r. repeat split. constructor.
    - intros (es & ins & H & -> & He). inversion H. subst. rewrite !app_nil_r in *.
      by destruct env, env'; simplify_eq/=. }
  case_bool_decide as Hmt.
  - subst mt. split.
    + destruct c as [[s|b|u|v]|]; try discriminate. destruct env; [discriminate|].
      destruct (parse_envelope v) as [e|] eqn:Ee; [|discriminate]. cbn [mbind result_bind].
      intros (es & ins & H & -> & He)%IH. exists (e :: es), ins. by repeat split; [constructor|].
    + intros (es & ins & H & -> & He). inversion H as [|? ? v ? e es' ? Hp Hs| |]; subst; [|done..].
      destruct env as [e0|]; [by destruct env'|]. rewrite Hp. cbn [mbind result_bind]. apply IH.
      exists es', ins. by repeat split.
  - split.
    + destruct c as [[s|b|u|v]|]; try discriminate.
      * intros (es & ins & H & -> & He)%IH. exists es, (mkPart mid (i mod 2 ^ 32)%Z mt (BText s) :: ins).
        rewrite <- app_assoc. by repeat split; [constructor|].
      * destruct (to_json v) as [j|] eqn:Ej; [|discriminate]. cbn [ok_or mbind result_bind].
        intros (es & ins & H & -> & He)%IH. exists es, (mkPart mid (i mod 2 ^ 32)%Z mt (BData j) :: ins).
        rewrite <- app_assoc. by repeat split; [econstructor|].
    + intros (es & ins & H & -> & He). inversion H as [|? ? v ? e es' ? Hp Hs|? ? s ? ? ? ins0 Hm Hs|? ? v j ? ? ? ins0 Hm Hj Hs];
        subst; [done| |]; [|rewrite Hj; cbn [ok_or mbind result_bind]]; apply IH; exists es, ins0;
        rewrite <- app_assoc; by repeat split.
Qed.

Lemma extract_proposal_Ok mid parts env ins :
  extract_proposal mid parts = Ok (mkExtracted env ins) <-> separated mid 0 parts [env] ins.
Proof.
  unfold extract_proposal. split.
  - destruct (extract_loop mid 0 None [] parts) as [[[e|] i]|] eqn:E; [|done..]. cbn. intros [= <- <-].
    apply extract_loop_Ok in E as (es & ins' & H & -> & He). cbn in *. by subst.
  - intros H. rewrite (proj2 (extract_loop_Ok mid parts 0 None [] (Some env) ins)); [done|]. by exists [env], ins.
Qed.

End extraction_facts.

(** ** Reception, exactly *)

Section facts.
Context {HS : Hashes} {HX : Hex} {ED : Ed25519} {B64 : Base64} {BU : Base64Url} {BV : Dsse.Base64Variants}
  {JT : JwkText} {SX : IJson.JsonSyntax} {CN : Canon Json} {SV : Dsse.Schemas} {FV : FromValue Contract}.

(** A payload is a contract: strict I-JSON in its one canonical form, valid under the
    schema. *)
Definition contract_payload (b : bytes) (p : ParsedContract) : Prop := exists v,
  IJson.parse b = Ok v /\ canonical_bytes v = Some b /\ Dsse.schema_errors Dsse.ContractV1 v = [] /\
  from_value v = Some (contract p) /\ payload p = b /\ digest p = hex_digest b.

Lemma validate_Ok id v : Dsse.validate id v = Ok () <-> Dsse.schema_errors id v = [].
Proof. unfold Dsse.validate. by destruct (Dsse.schema_errors id v). Qed.

Lemma parse_payload_Ok b p : parse_payload b = Ok p <-> contract_payload b p.
Proof.
  unfold parse_payload, contract_payload. split.
  - destruct (IJson.parse b) as [v|]; [|done]. cbn [lift_err mbind result_bind].
    destruct (canonical_bytes v) as [c|] eqn:Ec; [|done]. cbn [ok_or mbind result_bind].
    destruct (decide (c <> b)) as [|Hc]; [done|]. apply dec_stable in Hc as ->.
    destruct (Dsse.validate Dsse.ContractV1 v) as [[]|] eqn:Ev; [|done]. cbn [lift_err mbind result_bind].
    destruct (from_value v) as [k|] eqn:Ef; [|done]. intros [= <-]. exists v. by rewrite <- validate_Ok.
  - intros (v & -> & Hc & Hv & Hf & Hp & Hd). cbn [lift_err mbind result_bind]. rewrite Hc.
    cbn [ok_or mbind result_bind]. rewrite decide_False by (intros Hn; by apply Hn).
    rewrite (proj2 (validate_Ok _ _) Hv). cbn [lift_err mbind result_bind]. rewrite Hf. destruct p; cbn in *. by subst.
Qed.

Lemma key_for_Ok k p vk : key_for k p = Ok vk <-> v_purpose k = p /\ vk = v_verifying k.
Proof. unfold key_for. destruct (decide (p <> v_purpose k)) as [Hn|Hn%dec_stable]; split; naive_solver. Qed.

Lemma sign_with_Ok {T} k p (f : bytes -> T) x : sign_with k p f = Ok x <-> purpose k = p /\ x = f (signing k).
Proof. unfold sign_with. destruct (decide (p <> purpose k)) as [Hn|Hn%dec_stable]; split; naive_solver. Qed.

Lemma verify_proposal_Ok env key p :
  verify_proposal env key = Ok p <->
  v_purpose key = Lifecycle.ContractProposal /\
  exists b, Dsse.env_valid env proposal_payload_type (v_verifying key) b /\ contract_payload b p.
Proof.
  unfold verify_proposal. split.
  - destruct (key_for key Lifecycle.ContractProposal) as [vk|] eqn:Ek; [|done]. cbn [lift_err mbind result_bind].
    apply key_for_Ok in Ek as [Hp ->]. destruct (Dsse.verify env _ _) as [b|] eqn:Ev; [|done].
    cbn [lift_err mbind result_bind]. intros H%lift_err_Ok%parse_payload_Ok. split; [done|]. exists b.
    by rewrite <- Dsse.verify_Ok.
  - intros [Hp (b & Hv & Hc)]. rewrite (proj2 (key_for_Ok _ _ _) (conj Hp eq_refl)). cbn [lift_err mbind result_bind].
    rewrite (proj2 (Dsse.verify_Ok _ _ _ _) Hv). cbn [lift_err mbind result_bind]. apply lift_err_Ok. by apply parse_payload_Ok.
Qed.

Lemma check_identities_Ok c r p : check_proposal_identities c r p = Ok () <-> requester c = r /\ performer c = p.
Proof.
  unfold check_proposal_identities. destruct (decide (requester c <> r)) as [Hr|Hr%dec_stable]; [split; naive_solver|].
  destruct (decide (performer c <> p)) as [Hp|Hp%dec_stable]; split; naive_solver.
Qed.

Section times.
Context {TM : Rfc3339}.

(** The window a contract is received in: it opens five seconds early and closes on time. *)
Definition in_window (c : Contract) (now : Z) : Prop := exists created expires,
  parse_rfc3339 (created_at c) = Some created /\ parse_rfc3339 (expires_at c) = Some expires /\
  (created < expires)%Z /\ (created - NOT_YET_VALID_LEEWAY_SECS <= now < expires)%Z.

Lemma validity_Valid c now : validity c now = Ok Valid <-> in_window c now.
Proof.
  unfold validity, in_window, parse_time. destruct (parse_rfc3339 (created_at c)) as [cr|]; cbn;
    [|split; [done|by intros (? & ? & ? & _)]].
  destruct (parse_rfc3339 (expires_at c)) as [ex|]; cbn; [|split; [done|by intros (? & ? & _ & ? & _)]].
  destruct (Z.leb_spec ex cr); [split; [done|intros (? & ? & [= <-] & [= <-] & ?); lia]|].
  destruct (Z.ltb_spec now (cr - NOT_YET_VALID_LEEWAY_SECS));
    [split; [done|intros (? & ? & [= <-] & [= <-] & ? & ?); lia]|].
  destruct (Z.leb_spec ex now); [split; [done|intros (? & ? & [= <-] & [= <-] & ? & ?); lia]|].
  split; [|done]. intros _. by exists cr, ex.
Qed.

Context {FE : FromValue Dsse.Envelope} {V : Type} {PV : ProtoValue V}.

(** Everything a received proposal was checked for. *)
Definition receivable (mid : string) (parts : list (Part V)) (key : PurposeVerifyingKey) (from me : Identity)
  (now : Z) (r : ReceivedProposal) : Prop := exists env b,
  separated mid 0 parts [env] (r_inputs r) /\
  v_purpose key = Lifecycle.ContractProposal /\
  Dsse.env_valid env proposal_payload_type (v_verifying key) b /\
  contract_payload b (r_proposal r) /\
  requester (contract (r_proposal r)) = from /\ performer (contract (r_proposal r)) = me /\
  bound (inputs (contract (r_proposal r))) (r_inputs r) /\
  in_window (contract (r_proposal r)) now.

Lemma receive_proposal_Ok mid parts key from me now r :
  receive_proposal mid parts key from me now = Ok r <-> receivable mid parts key from me now r.
Proof.
  unfold receive_proposal, receivable. split.
  - destruct (extract_proposal mid parts) as [[env ins]|] eqn:Ex; [|done]. cbn [lift_err mbind result_bind x_envelope x_inputs].
    apply extract_proposal_Ok in Ex. destruct (verify_proposal env key) as [p|] eqn:Ep; [|done].
    cbn [lift_err mbind result_bind]. apply verify_proposal_Ok in Ep as [Hk (b & Hv & Hc)].
    destruct (check_proposal_identities _ _ _) as [[]|] eqn:Ei; [|done]. apply check_identities_Ok in Ei as [Hf Hm].
    cbn [lift_err mbind result_bind]. destruct (bind_inputs _ _) as [[]|] eqn:Eb; [|done]. apply bind_inputs_Ok in Eb.
    cbn [lift_err mbind result_bind]. destruct (validity _ now) as [[| |]|] eqn:Ew; try discriminate.
    cbn [lift_err mbind result_bind]. intros [= <-]. apply validity_Valid in Ew. by exists env, b.
  - intros (env & b & Hs & Hk & Hv & Hc & Hf & Hm & Hb & Hw).
    rewrite (proj2 (extract_proposal_Ok _ _ _ _) Hs). cbn [lift_err mbind result_bind x_envelope x_inputs].
    rewrite (proj2 (verify_proposal_Ok env key (r_proposal r))) by (split; [done|by exists b]).
    cbn [lift_err mbind result_bind]. rewrite (proj2 (check_identities_Ok _ _ _) (conj Hf Hm)).
    cbn [lift_err mbind result_bind]. rewrite (proj2 (bind_inputs_Ok _ _) Hb). cbn [lift_err mbind result_bind].
    rewrite (proj2 (validity_Valid _ _) Hw). cbn. by destruct r.
Qed.

(** C29. A proposal is received exactly when its message holds one envelope,
    signed as a contract under the sender's proposal key over a canonical, schema-valid
    payload, naming the authenticated sender and this endpoint, whose manifest and the
    message's other Parts are in bijection by position with every Part's kind, media type,
    length and digest as declared, within the trusted-time window. *)
Theorem proposal_reception mid parts key from me now r :
  receive_proposal mid parts key from me now = Ok r <-> receivable mid parts key from me now r.
Proof. apply receive_proposal_Ok. Qed.

Lemma hex_digest_inj b b' : hex_digest b = hex_digest b' -> b = b' \/ sha256_collision.
Proof.
  unfold hex_digest. intros H. apply (f_equal hex_decode) in H. rewrite !hex_decode_encode in H. injection H as H.
  destruct (decide (b = b')) as [|Hne]; [by left|right]. by exists b, b'.
Qed.

Lemma contract_payload_digest b b' p p' :
  contract_payload b p -> contract_payload b' p' -> digest p = digest p' -> p = p' \/ sha256_collision.
Proof.
  intros (v & Hp & _ & _ & Hf & Hb & Hd) (v' & Hp' & _ & _ & Hf' & Hb' & Hd') He.
  rewrite Hd, Hd' in He. destruct (hex_digest_inj _ _ He) as [->|]; [|by right]. left.
  assert (v = v') as <- by congruence. assert (contract p = contract p') by congruence.
  destruct p, p'; cbn in *. by subst.
Qed.

(** Two Parts that conform to one entry have the same bytes. *)
Lemma conforms_bytes e p p' :
  conforms e p -> conforms e p' ->
  (ip_media_type p = ip_media_type p' /\ part_bytes (ip_body p) = part_bytes (ip_body p')) \/ sha256_collision.
Proof.
  intros (_ & Hm & b & Hb & _ & Hd) (_ & Hm' & b' & Hb' & _ & Hd').
  destruct (hex_digest_inj b b') as [->|]; [congruence| |by right]. left. split; congruence.
Qed.

(** Inputs that agree position by position in media type and bytes. *)
Definition same_inputs (l l' : list InputPart) : Prop :=
  forall p, p ∈ l -> exists p', p' ∈ l' /\ part_coords p' = part_coords p /\
    ((ip_media_type p = ip_media_type p' /\ part_bytes (ip_body p) = part_bytes (ip_body p')) \/ sha256_collision).

(** The contract digest a decision or a work order names fixes the content:
    two messages received under one contract digest, from whatever sender and at whatever time,
    carry the same contract and, position by position, inputs with the same media type and
    bytes, or SHA-256 has a collision. *)
Theorem inputs_pinned mid parts key from me now r mid' parts' key' from' me' now' r' :
  receive_proposal mid parts key from me now = Ok r ->
  receive_proposal mid' parts' key' from' me' now' = Ok r' ->
  digest (r_proposal r) = digest (r_proposal r') ->
  sha256_collision \/ (r_proposal r = r_proposal r' /\ same_inputs (r_inputs r) (r_inputs r')).
Proof.
  intros (env & b & _ & _ & _ & Hc & _ & _ & (Hn & _ & Hall & _) & _)%receive_proposal_Ok
    (env' & b' & _ & _ & _ & Hc' & _ & _ & (_ & _ & Hall' & Hcov) & _)%receive_proposal_Ok Hd.
  destruct (contract_payload_digest _ _ _ _ Hc Hc' Hd) as [Heq|]; [right|by left]. split; [done|].
  intros p (e & He & Hpe & Hce)%Hall. rewrite Heq in Hn, He. destruct (Hcov e He) as (p' & Hp' & Hpc).
  exists p'. split; [done|]. split; [congruence|]. destruct (Hall' p' Hp') as (e' & He' & Hpe' & Hce').
  assert (e = e') as <-; [|by apply (conforms_bytes e)].
  apply list_elem_of_lookup in He as [i Hi], He' as [i' Hi'].
  assert (i = i') as <-; [|congruence]. apply (NoDup_lookup _ i i' (entry_coords e) Hn); rewrite list_lookup_fmap.
  - by rewrite Hi.
  - rewrite Hi'. cbn. congruence.
Qed.
End times.

(** ** Decisions *)

Section decisions.
Context {TV : ToValue Decision}.

Lemma verify_decision_Ok env key d :
  verify_decision env key = Ok d ->
  v_purpose key = Lifecycle.ContractDecision /\
  exists b v, Dsse.env_valid env decision_payload_type (v_verifying key) b /\ IJson.parse b = Ok v /\
    canonical_bytes v = Some b /\ Dsse.schema_errors Dsse.DecisionV1 v = [] /\ from_value v = Some d.
Proof.
  unfold verify_decision. destruct (key_for key Lifecycle.ContractDecision) as [vk|] eqn:Ek; [|done].
  cbn [lift_err mbind result_bind]. apply key_for_Ok in Ek as [Hp ->].
  destruct (Dsse.verify env _ _) as [b|] eqn:Ev; [|done]. cbn [lift_err mbind result_bind].
  destruct (IJson.parse b) as [v|] eqn:Ei; [|done]. cbn [lift_err mbind result_bind].
  destruct (canonical_bytes v) as [c|] eqn:Ec; [|done]. cbn [ok_or mbind result_bind].
  destruct (decide (c <> b)) as [|Hc%dec_stable]; [done|]. subst c.
  destruct (Dsse.validate _ v) as [[]|] eqn:Es; [|done]. cbn [lift_err mbind result_bind].
  intros Hd%ok_or_Ok. split; [done|]. exists b, v. by rewrite <- Dsse.verify_Ok, <- validate_Ok.
Qed.

Lemma check_binds_Ok d p :
  check_binds_to d p = Ok () <->
  dc_contract_id d = contract_id (contract p) /\ dc_contract_revision d = revision (contract p) /\
  dc_contract_digest d = digest p /\ dc_decider d = performer (contract p).
Proof.
  unfold check_binds_to.
  destruct (decide (dc_contract_id d <> _)) as [|H1%dec_stable]; [split; naive_solver|].
  destruct (decide (dc_contract_revision d <> _)) as [|H2%dec_stable]; [split; naive_solver|].
  destruct (decide (dc_contract_digest d <> _)) as [|H3%dec_stable]; [split; naive_solver|].
  destruct (decide (dc_decider d <> _)) as [|H4%dec_stable]; split; naive_solver.
Qed.

(** A signed decision cannot be turned into something else. It verifies only
    under a decision key, its envelope never verifies as a proposal (nor a proposal's as a
    decision), it reads back as signed, and it binds to one proposal: two contracts it binds
    to are the same, or SHA-256 has a collision. *)
Theorem decision_binds d sk env key key' p p' b b' d' :
  sign_decision d sk = Ok env ->
  (forall x, canonical_bytes (to_value d) = Some x -> IJson.parse x = Ok (to_value d)) ->
  contract_payload b p -> contract_payload b' p' ->
  verify_decision env (verifying sk) = Ok d /\
  (verify_decision env key = Ok d' -> v_purpose key = Lifecycle.ContractDecision) /\
  is_ok (verify_proposal env key') = false /\
  (check_binds_to d p = Ok () -> check_binds_to d p' = Ok () -> p = p' \/ sha256_collision).
Proof.
  unfold sign_decision. intros Hs Hparse Hp Hp'.
  destruct (Dsse.validate Dsse.DecisionV1 (to_value d)) as [[]|] eqn:Ev; [|done]. cbn [lift_err mbind result_bind] in Hs.
  destruct (canonical_bytes (to_value d)) as [x|] eqn:Ec; [|done]. cbn [ok_or mbind result_bind] in Hs.
  apply lift_err_Ok, sign_with_Ok in Hs as [Hk ->]. split; [|split; [|split]].
  - unfold verify_decision, verifying. rewrite (proj2 (key_for_Ok _ _ (public_key (signing sk)))) by done.
    cbn [lift_err mbind result_bind]. rewrite Dsse.verify_sign_env. cbn [lift_err mbind result_bind].
    rewrite (Hparse _ eq_refl). cbn [lift_err mbind result_bind]. rewrite Ec. cbn [ok_or mbind result_bind].
    rewrite decide_False by (intros Hn; by apply Hn). rewrite Ev. cbn [lift_err mbind result_bind].
    by rewrite from_to_value.
  - by intros [? _]%verify_decision_Ok.
  - destruct (verify_proposal _ key') as [q|] eqn:Eq; [|done].
    apply verify_proposal_Ok in Eq as [_ (y & (e & s & _ & Ht & _) & _)]. discriminate.
  - intros (_ & _ & H1 & _)%check_binds_Ok (_ & _ & H2 & _)%check_binds_Ok.
    apply (contract_payload_digest b b'); [done..|congruence].
Qed.
End decisions.
End facts.

(** ** Witnesses *)

Definition sample_identity (a : string) : Identity := mkIdentity "iss" a (a +:+ "-root").

Definition sample_entry : InputEntry :=
  mkInputEntry "src" "m1" 1 Text "text/plain" (Some "utf-8") Utf8Exact 2
    (hex_digest (HS := ToyHashes) (HX := ToyHex) (as_bytes "hi")) true false.

Definition sample_contract : Contract :=
  mkContract 1 "c1" 0 None "https://akson.invalid/t" "m1" None None (sample_identity "requester")
    (sample_identity "performer") "o" [sample_entry] [mkDeliverable "report" "text/plain"] [] []
    (mkConstraints DiscloseNone) (mkLimits "d" 1024 None) RequestOrigin None "0" "9".

Definition sample_payload : bytes := put (JStr "contract").
Definition sample_key : PurposeKey := from_seed Lifecycle.ContractProposal (as_bytes "seed").

#[local] Instance sample_hashes : Hashes := ToyHashes.
#[local] Instance sample_hex : Hex := ToyHex.
#[local] Instance sample_ed : Ed25519 := ToyEd25519.
#[local] Instance sample_b64 : Base64 := ToyBase64.
#[local] Instance sample_url : Base64Url := ToyBase64Url.
#[local] Instance sample_variants : Dsse.Base64Variants := ToyVariants.
#[local] Instance sample_jwk : JwkText := ToyJwkText.
#[local] Instance sample_syntax : IJson.JsonSyntax := ToySyntax.
#[local] Instance sample_canon : Canon Json := ToyCanon Json.
#[local] Instance sample_schemas : Dsse.Schemas := ToySchemas.
#[local] Instance sample_from_contract : FromValue Contract := {| from_value := fun _ => Some sample_contract |}.
#[local] Instance sample_times : Rfc3339 :=
  {| parse_rfc3339 := fun s => if decide (s = "0") then Some 0%Z else Some 9%Z |}.
#[local] Instance sample_proto : ProtoValue Json := {| to_json := Some |}.

Definition sample_env : Dsse.Envelope := Dsse.sign proposal_payload_type sample_payload (as_bytes "seed").

#[local] Instance sample_from_env : FromValue Dsse.Envelope := {| from_value := fun _ => Some sample_env |}.

Definition sample_parts : list (Part Json) :=
  [mkMsgPart "" (Some (CData JNull)) Dsse.DSSE_ENVELOPE_MEDIA_TYPE; mkMsgPart "" (Some (CText "hi")) "text/plain"].

Definition sample_received : ReceivedProposal :=
  mkReceived (mkParsed sample_contract (hex_digest sample_payload) sample_payload)
    [mkPart "m1" 1 "text/plain" (BText "hi")].

Lemma sample_received_eq now :
  now = 3%Z \/ now = 4%Z ->
  receive_proposal "m1" sample_parts (verifying sample_key) (sample_identity "requester") (sample_identity "performer") now
  = Ok sample_received.
Proof. intros [->| ->]; vm_compute; reflexivity. Qed.

Lemma inputs_pinned_witness :
  sha256_collision \/
  (r_proposal sample_received = r_proposal sample_received /\
   same_inputs (r_inputs sample_received) (r_inputs sample_received)).
Proof.
  apply (inputs_pinned _ _ _ _ _ 3 _ "m1" sample_parts (verifying sample_key) (sample_identity "requester")
    (sample_identity "performer") 4 _ (sample_received_eq 3 (or_introl eq_refl)) (sample_received_eq 4 (or_intror eq_refl)) eq_refl).
Defined.

Definition sample_decision : Decision :=
  mkDecision 1 Accept "c1" 0 (hex_digest sample_payload) "t1" "x1" (sample_identity "performer") None None "1".

Definition ToyToValue (A : Type) `{!Wire A} : ToValue A.
Proof.
  refine {| to_value := fun a => JStr (from_utf8 (put a));
            of_value := {| from_value := fun v => match v with
              | JStr s => match get (as_bytes s) with Some (a, []) => Some a | _ => None end
              | _ => None end |} |}.
  intros a. cbn. rewrite as_bytes_from_utf8. pose proof (get_put a []) as H. rewrite app_nil_r in H. by rewrite H.
Defined.

#[global] Instance Identity_wire : Wire Identity.
Proof. refine (wire_inj (fun i => (issuer i, agent i, root i)) (fun '(a, b, c) => mkIdentity a b c) _). by intros []. Defined.

#[global] Instance DecisionKind_wire : Wire DecisionKind.
Proof.
  refine (wire_inj (fun k => match k with Accept => 0 | Reject => 1 | RevisionRequest => 2 end)%Z
    (fun z => match z with 0 => Accept | 1 => Reject | _ => RevisionRequest end)%Z _). by intros [].
Defined.

#[global] Instance Decision_wire : Wire Decision.
Proof.
  refine (wire_inj (fun d => (dc_schema_version d, dc_decision d, dc_contract_id d, dc_contract_revision d,
      dc_contract_digest d, dc_task_id d, dc_context_id d, dc_decider d, dc_reason_code d, dc_note d, dc_decided_at d))
    (fun '(a, b, c, d, e, f, g, h, i, j, k) => mkDecision a b c d e f g h i j k) _). by intros [].
Defined.

#[local] Instance sample_to_decision : ToValue Decision := ToyToValue Decision.

Definition sample_decision_key : PurposeKey := from_seed Lifecycle.ContractDecision (as_bytes "perf").

Lemma sample_payload_ok : contract_payload sample_payload (r_proposal sample_received).
Proof. exists (JStr "contract"). repeat split. Qed.

Definition sample_decision_env : Dsse.Envelope :=
  match sign_decision sample_decision sample_decision_key with Ok e => e | Err _ => sample_env end.

Lemma sample_decision_env_eq : sign_decision sample_decision sample_decision_key = Ok sample_decision_env.
Proof. vm_compute. reflexivity. Qed.

Lemma sample_decision_parses x :
  canonical_bytes (to_value sample_decision) = Some x -> IJson.parse x = Ok (to_value sample_decision).
Proof. intros H. vm_compute in H. injection H as <-. vm_compute. reflexivity. Qed.

Lemma decision_binds_witness :
  verify_decision sample_decision_env (verifying sample_decision_key) = Ok sample_decision /\
  is_ok (verify_proposal sample_decision_env (verifying sample_key)) = false.
Proof.
  destruct (decision_binds sample_decision sample_decision_key sample_decision_env (verifying sample_decision_key)
    (verifying sample_key) (r_proposal sample_received) (r_proposal sample_received) sample_payload sample_payload
    sample_decision sample_decision_env_eq sample_decision_parses sample_payload_ok sample_payload_ok)
    as (H1 & _ & H2 & _). exact (conj H1 H2).
Defined.
End Proposal.
