(* ===== verification/RiskCard.v ===== *)
(** The approval surface (akson-contract/src/risk_card.rs): the five questions projected
    from a signed contract, and their rendering into the sentence and detail lines the
    operator approves from. *)
From S2P Require Import Prelude Text Contract.

Module RiskCard.
Import Contract.

Record Who := mkWho { w_requester : Identity; w_task_type : string }.

Record ExposedInput := mkExposed {
  x_id : string; x_media_type : string; x_byte_length : Z; x_worker_visible : bool; x_processor_visible : bool }.

Record WhatLeaves := mkLeaves { wl_inputs : list ExposedInput; wl_disclosure : Disclosure }.

Record WhatRuns := mkRuns {
  wr_task_type : string; wr_requested_capabilities : list Capability; wr_disclosure : Disclosure }.

Record LimitsCard := mkLimitsCard {
  lc_revision : Z; lc_revision_digest : string; lc_deadline : string; lc_max_response_bytes : Z;
  lc_max_cost_microusd : option Z }.

Record EvidenceSlotCard := mkSlotCard {
  sc_slot_id : string; sc_statement_type : string; sc_trust_classes : list TrustClass }.

Record EvidenceDestination := mkDestination {
  ed_evidence_slots : list EvidenceSlotCard; ed_result_recipient : ResultRecipient; ed_retention_days : option Z }.

Record RiskCard := mkCard {
  who : Who; what_leaves : WhatLeaves; what_runs : WhatRuns; limits_card : LimitsCard;
  evidence_and_destination : EvidenceDestination }.

Definition project_risk_card (proposal : ParsedContract) : RiskCard :=
  let c := contract proposal in
  mkCard (mkWho (requester c) (task_type c))
    (mkLeaves ((fun e => mkExposed (in_id e) (in_media_type e) (in_byte_length e) (in_worker_visible e)
                           (in_processor_visible e)) <$> inputs c)
       (pc_disclosure (processor_constraints c)))
    (mkRuns (task_type c) (requested_capabilities c) (pc_disclosure (processor_constraints c)))
    (mkLimitsCard (revision c) (digest proposal) (l_deadline (limits c)) (l_max_response_bytes (limits c))
       (l_max_cost_microusd (limits c)))
    (mkDestination ((fun s => mkSlotCard (slot_id s) (statement_type s) (trust_classes s)) <$> evidence_slots c)
       (result_recipient c) (rr_days <$> retention_request c)).

Record RiskSection := mkSection { heading : string; lines : list string }.
Record RenderedRiskCard := mkRendered { sentence : string; sections : list RiskSection }.

Definition disclosure_phrase (d : Disclosure) : string :=
  match d with
  | DiscloseNone => "no processor"
  | LocalOnly => "a local processor"
  | NamedRemote => "a named remote processor"
  end.

Definition capability_phrase (c : Capability) : string :=
  match c with
  | Respond => "respond to the requester"
  | ReadSuppliedInputs => "read the supplied inputs"
  | ProcessorUse => "use a processor"
  | ArtifactExport => "export artifacts"
  end.

Definition recipient_phrase (r : ResultRecipient) : string := match r with RequestOrigin => "the request origin" end.

Definition trust_class_phrase (t : TrustClass) : string :=
  match t with
  | SelfAttested => "self-attested"
  | IndependentlyVerified => "independently verified"
  | HardwareAttested => "hardware-attested"
  end.

(** [format!("{}", n)] of an unsigned value. *)
Definition show (z : Z) : string := to_string (Z.to_N z).

Definition newline : byte := "010"%char.

Definition destination (i : ExposedInput) : string :=
  match x_worker_visible i, x_processor_visible i with
  | true, true => "worker + processor"
  | true, false => "worker only"
  | false, true => "processor only"
  | false, false => "neither"
  end.

Definition input_line (i : ExposedInput) : string :=
  x_id i +:+ " — " +:+ x_media_type i +:+ " (" +:+ show (x_byte_length i) +:+ " B) → " +:+ destination i.

(** The sum is a [u64]; the schema keeps it far below its range. *)
Definition approval (c : RiskCard) : string :=
  let inputs := wl_inputs (what_leaves c) in
  let n := Z.of_nat (length inputs) in
  let total_bytes := as_u64 (foldr (fun i s => x_byte_length i + s)%Z 0%Z inputs) in
  let to_processor := Z.of_nat (length (List.filter x_processor_visible inputs)) in
  let disclosure := disclosure_phrase (wl_disclosure (what_leaves c)) in
  let recipient := recipient_phrase (ed_result_recipient (evidence_and_destination c)) in
  let processor_clause :=
    if (0 <? to_processor)%Z then ", " +:+ show to_processor +:+ " of them to " +:+ disclosure else "" in
  let quote := String "034"%char EmptyString in
  "Approve " +:+ agent (w_requester (who c)) +:+ " to run " +:+ quote +:+ w_task_type (who c) +:+ quote +:+ ": " +:+
  show n +:+ " input(s) (" +:+ show total_bytes +:+ " B) go to the worker" +:+ processor_clause +:+ "; up to " +:+
  show (lc_max_response_bytes (limits_card c)) +:+ " B come back to " +:+ recipient +:+ " by " +:+
  lc_deadline (limits_card c) +:+ ".".

Definition render (c : RiskCard) : RenderedRiskCard :=
  let disclosure := disclosure_phrase (wl_disclosure (what_leaves c)) in
  let recipient := recipient_phrase (ed_result_recipient (evidence_and_destination c)) in
  let sentence := approval c +:+ String newline EmptyString +:+ "Requester root: " +:+ root (w_requester (who c)) in
  let leaves := (input_line <$> wl_inputs (what_leaves c)) ++ ["processor disclosure: " +:+ disclosure] in
  let caps := capability_phrase <$> wr_requested_capabilities (what_runs c) in
  let limits :=
    ["revision " +:+ show (lc_revision (limits_card c)) +:+ " (" +:+
       from_utf8 (take 12 (as_bytes (lc_revision_digest (limits_card c)))) +:+ "…)";
     "deadline: " +:+ lc_deadline (limits_card c);
     "max response: " +:+ show (lc_max_response_bytes (limits_card c)) +:+ " B"] ++
    match lc_max_cost_microusd (limits_card c) with
    | Some cost => ["max cost: " +:+ show cost +:+ " µUSD (estimate)"]
    | None => []
    end in
  let dest :=
    ((fun s => "slot " +:+ sc_slot_id s +:+ " — " +:+ sc_statement_type s +:+ " [" +:+
         join ", " (trust_class_phrase <$> sc_trust_classes s) +:+ "]")
       <$> ed_evidence_slots (evidence_and_destination c)) ++
    ["results to: " +:+ recipient] ++
    match ed_retention_days (evidence_and_destination c) with
    | Some days => ["retention: " +:+ show days +:+ " day(s)"]
    | None => []
    end in
  mkRendered sentence
    [mkSection "Who" ["requester: " +:+ agent (w_requester (who c)) +:+ " (issuer " +:+ issuer (w_requester (who c)) +:+ ")";
                      "task type: " +:+ w_task_type (who c)];
     mkSection "What leaves" leaves;
     mkSection "What runs" ["capabilities: " +:+ (if decide (caps = []) then "none" else join ", " caps)];
     mkSection "Limits" limits;
     mkSection "Evidence & destination" dest].

Lemma label_plain : newline ∉ as_bytes "Requester root: ".
Proof. apply (bool_decide_unpack _). vm_compute. exact I. Qed.

(** Whatever names the parties choose, two requesters are told apart on the
    approval surface: the sentence ends with the authorizing root on a line of its own, so
    equal sentences come from equal roots. *)
Theorem approval_names_root c c' :
  newline ∉ as_bytes (root (w_requester (who c))) -> newline ∉ as_bytes (root (w_requester (who c'))) ->
  sentence (render c) = sentence (render c') -> root (w_requester (who c)) = root (w_requester (who c')).
Proof.
  intros Hc Hc' H. cbn [render sentence] in H. apply (f_equal as_bytes) in H. rewrite !as_bytes_app in H.
  change (as_bytes (String newline EmptyString)) with [newline] in H. cbn [app] in H.
  apply sep_last_inj in H as [_ H].
  - apply app_inv_head in H. by apply (inj as_bytes).
  - rewrite elem_of_app. intros [Hin|Hin]; [by apply label_plain|done].
  - rewrite elem_of_app. intros [Hin|Hin]; [by apply label_plain|done].
Qed.

Definition sample_card (root : string) : RiskCard :=
  mkCard (mkWho (mkIdentity "iss" "alice" root) "t") (mkLeaves [mkExposed "a" "text/plain" 5 false true] LocalOnly)
    (mkRuns "t" [] LocalOnly) (mkLimitsCard 0 "d" "e" 1 None) (mkDestination [] RequestOrigin None).

Lemma approval_names_root_witness : root (w_requester (who (sample_card "r1"))) = "r1".
Proof.
  apply (approval_names_root (sample_card "r1") (sample_card "r1")); [| |reflexivity];
    (apply (bool_decide_unpack _); vm_compute; exact I).
Defined.

(** The sentence counts every listed input as going to the worker, also
    one whose own detail line says that it goes to the processor only. *)
Theorem approval_overcounts :
  approval (sample_card "r1") =
    from_utf8 (as_bytes "Approve alice to run " ++ ["034"%char; "t"%char; "034"%char] ++
      as_bytes ": 1 input(s) (5 B) go to the worker, 1 of them to a local processor; up to 1 B come back to the request origin by e.") /\
  destination (mkExposed "a" "text/plain" 5 false true) = "processor only".
Proof. by vm_compute. Qed.
End RiskCard.
