(* ===== verification/Profile.v ===== *)
(** The A2A profile (akson-proto/src/profile.rs) and the Agent Card signature
    (akson-proto/src/card_sig.rs).

    The A2A types are generated from a protobuf file at build time: the records below have the
    fields this code reads, and [card_value] is the protobuf-JSON rendering of a card. A
    [BTreeSet] of texts is the list of its elements in order. *)
From S2P Require Import Prelude Text Crypto Sign Lifecycle Keys Json Proposal.

Module Profile.
Import Keys Json.

Definition A2A_VERSION : string := "1.0".
Definition MAX_EXTENSION_URI_LEN : nat := 256.
Definition HTTP_JSON_BINDING : string := "HTTP+JSON".

Inductive Violation :=
| BadMessageId | BadId (field : string) | BadRole | NoParts | EmptyPart (i : nat) | RawPartUnsupported (i : nat)
| UrlPartUnsupported (i : nat) | BadExtensionUri (u : string) | EmptyRequiredExtensionSet
| BadA2aVersion (found pinned : string) | NoMessage | NotNonblocking | PushConfigForbidden | NoV1Interface
| StreamingNotDisabled | PushNotDisabled | NoExtendedCard | MissingRequiredExtension (u : string) | NoMutualTls
| DisallowedTaskState (s : Z) | ExtensionNotActivated (u : string) | ExtensionNotSupported (u : string).

Record ProfileConfig := mkProfile { required_extensions : list string }.

(** [ProfileConfig::new]. *)
Definition profile_new (required : list string) : result (list Violation) ProfileConfig :=
  match required with [] => Err [EmptyRequiredExtensionSet] | _ => Ok (mkProfile required) end.

(** [Err] carries a non-empty list. *)
Definition finish (violations : list Violation) : result (list Violation) () :=
  match violations with [] => Ok () | _ => Err violations end.

(** ** Texts *)

Definition in_bytes (lo hi : Z) (b : byte) : bool := (lo <=? byte_to_Z b)%Z && (byte_to_Z b <=? hi)%Z.

Definition is_valid_id (id : string) : bool :=
  bool_decide (1 <= String.length id <= 128) && forallb (in_bytes 0x21 0x7e) (as_bytes id).

Fixpoint strip_prefix (p l : bytes) : option bytes :=
  match p, l with
  | [], l => Some l
  | c :: p, d :: l => if decide (c = d) then strip_prefix p l else None
  | _ :: _, [] => None
  end.

(** [split(['/', '?', '#']).next()]: the text before the first separator. *)
Fixpoint before_sep (l : bytes) : bytes :=
  match l with
  | [] => []
  | c :: l => if decide (c = "/"%char \/ c = "?"%char \/ c = "#"%char) then [] else c :: before_sep l
  end.

Definition is_bounded_https_uri (uri : string) : bool :=
  if decide (MAX_EXTENSION_URI_LEN < String.length uri) then false
  else match strip_prefix (as_bytes "https://") (as_bytes uri) with
       | None => false
       | Some rest =>
           let authority := before_sep rest in
           negb (bool_decide (authority = [])) &&
           negb (existsb (fun b => (byte_to_Z b <=? 0x20)%Z || (byte_to_Z b =? 0x7f)%Z) rest)
       end.

Definition validate_a2a_version (v : string) : result (list Violation) () :=
  if decide (v = A2A_VERSION) then Ok () else Err [BadA2aVersion v A2A_VERSION].

Definition check_extension_uri (uri : string) : list Violation :=
  if is_bounded_https_uri uri then [] else [BadExtensionUri uri].

(** ** Messages *)

Section messages.
Context {V : Type}.

Record Message := mkMessage {
  message_id : string;
  context_id : string;
  task_id : string;
  reference_task_ids : list string;
  role : Z;
  parts : list (Proposal.Part V);
  extensions : list string;
}.

(** The two fields of [SendMessageConfiguration] that are read. *)
Record Configuration := mkConfiguration { return_immediately : bool; has_push_config : bool }.

Record SendMessageRequest := mkRequest { r_message : option Message; r_configuration : option Configuration }.

(** Whether a check failed, as the violation it pushes. *)
Definition unless (ok : bool) (v : Violation) : list Violation := if ok then [] else [v].

Definition part_violations (i : nat) (p : Proposal.Part V) : list Violation :=
  match Proposal.content p with
  | Some (Proposal.CText _) | Some (Proposal.CData _) => []
  | Some (Proposal.CRaw _) => [RawPartUnsupported i]
  | Some (Proposal.CUrl _) => [UrlPartUnsupported i]
  | None => [EmptyPart i]
  end.

Definition is_empty (s : string) : bool := bool_decide (s = "").

(** [ROLE_USER] is 1 and [ROLE_AGENT] 2. *)
Definition message_violations (m : Message) : list Violation :=
  unless (is_valid_id (message_id m)) BadMessageId ++
  unless (is_empty (context_id m) || is_valid_id (context_id m)) (BadId "contextId") ++
  unless (is_empty (task_id m) || is_valid_id (task_id m)) (BadId "taskId") ++
  (reference_task_ids m ≫= fun id => unless (is_valid_id id) (BadId "referenceTaskIds")) ++
  unless (bool_decide (role m = 1 \/ role m = 2)%Z) BadRole ++
  unless (negb (bool_decide (parts m = [] :> list (Proposal.Part V)))) NoParts ++
  concat (imap part_violations (parts m)) ++
  (extensions m ≫= check_extension_uri).

Definition validate_message (m : Message) : result (list Violation) () := finish (message_violations m).

Definition validate_send_message_request (r : SendMessageRequest) : result (list Violation) () :=
  finish (match r_message r with None => [NoMessage] | Some m => message_violations m end ++
          match r_configuration r with
          | None => [NotNonblocking]
          | Some c => unless (return_immediately c) NotNonblocking ++ unless (negb (has_push_config c)) PushConfigForbidden
          end).
End messages.

(** ** Agent Cards *)

Record AgentInterface := mkInterface { url : string; protocol_binding : string; protocol_version : string }.
Record AgentExtension := mkExtension { uri : string; required : bool }.

Record AgentCapabilities := mkCapabilities {
  streaming : option bool;
  push_notifications : option bool;
  extended_agent_card : option bool;
  cap_extensions : list AgentExtension;
}.

(** The [oneof] of a security scheme: mutual TLS or another one. *)
Inductive SecurityScheme := MtlsSecurityScheme | OtherScheme | NoScheme.

Record AgentCardSignature := mkCardSig { cs_protected : string; cs_signature : string }.

(** [rest] stands for the fields only the JSON rendering carries. *)
Record AgentCard := mkAgentCard {
  supported_interfaces : list AgentInterface;
  capabilities : option AgentCapabilities;
  security_schemes : gmap string SecurityScheme;
  security_requirements : list (list string);   (* the scheme names of each alternative *)
  signatures : list AgentCardSignature;
  rest : Json;
}.

Definition v1_interface (i : AgentInterface) : bool :=
  bool_decide (protocol_binding i = HTTP_JSON_BINDING) && bool_decide (protocol_version i = A2A_VERSION) &&
  is_bounded_https_uri (url i).

Definition is_mtls (card : AgentCard) (name : string) : bool :=
  match security_schemes card !! name with Some MtlsSecurityScheme => true | _ => false end.

Definition card_violations (card : AgentCard) (config : ProfileConfig) : list Violation :=
  unless (existsb v1_interface (supported_interfaces card)) NoV1Interface ++
  match capabilities card with
  | None => [StreamingNotDisabled; PushNotDisabled; NoExtendedCard] ++
            (MissingRequiredExtension <$> required_extensions config)
  | Some caps =>
      unless (bool_decide (streaming caps = Some false)) StreamingNotDisabled ++
      unless (bool_decide (push_notifications caps = Some false)) PushNotDisabled ++
      unless (bool_decide (extended_agent_card caps = Some true)) NoExtendedCard ++
      (required_extensions config ≫= fun u =>
         unless (existsb (fun e => bool_decide (uri e = u) && required e) (cap_extensions caps)) (MissingRequiredExtension u))
  end ++
  unless (negb (bool_decide (security_requirements card = [])) &&
          forallb (existsb (is_mtls card)) (security_requirements card)) NoMutualTls.

Definition validate_agent_card (card : AgentCard) (config : ProfileConfig) : result (list Violation) () :=
  finish (card_violations card config).

(** [TaskState::try_from] and the states a v1 producer may report: submitted to
    rejected are 1 to 7, [AUTH_REQUIRED] is 8. *)
Definition validate_task_state (state : Z) : result (list Violation) () :=
  if (1 <=? state)%Z && (state <=? 7)%Z then Ok () else Err [DisallowedTaskState state].

Definition negotiate_extensions (supported required activated : list string) : result (list Violation) (list string) :=
  _ ← finish ((required ≫= fun u => unless (bool_decide (u ∈ activated)) (ExtensionNotActivated u)) ++
              (activated ≫= fun u => unless (bool_decide (u ∈ supported)) (ExtensionNotSupported u)));
  Ok activated.

(** *** Card signatures *)

Inductive CardSigError := NoSignatures | NoValidSignature | CardPurpose (e : KeyError) | CardSerialize.

(** [serde_json::to_value] of a card; [None] where serialization fails. *)
Class CardJson := { card_value : AgentCard -> option Json }.

(** [Map::remove] of an object's member. *)
Definition remove_member (name : string) (v : Json) : Json :=
  match v with JObj l => JObj (List.filter (fun kv => negb (bool_decide (kv.1 = name))) l) | _ => v end.

Section signing.
Context {HS : Hashes} {ED : Ed25519} {BU : Base64Url} {JT : JwkText} {CH : Codec ProtectedHeader} {CN : Canon Json}
  {CJ : CardJson}.

Definition canonical_payload (card : AgentCard) : option bytes :=
  v ← card_value card; to_canon (remove_member "signatures" v).

Definition sign_card (card : AgentCard) (key : PurposeKey) : result CardSigError AgentCardSignature :=
  payload ← ok_or (canonical_payload card) CardSerialize;
  match sign_with key Lifecycle.AgentCard (sign_detached payload) with
  | Ok jws => Ok (mkCardSig (protected jws) (signature jws))
  | Err e => Err (CardPurpose e)
  end.

Definition sig_ok (payload vk : bytes) (s : AgentCardSignature) : bool :=
  is_ok (verify_detached (mkJws (cs_protected s) (cs_signature s)) payload vk).

Definition verify_card (card : AgentCard) (key : PurposeVerifyingKey) : result CardSigError () :=
  match key_for key Lifecycle.AgentCard with
  | Err e => Err (CardPurpose e)
  | Ok vk =>
      if decide (signatures card = []) then Err NoSignatures
      else
        payload ← ok_or (canonical_payload card) CardSerialize;
        if existsb (sig_ok payload vk) (signatures card) then Ok () else Err NoValidSignature
  end.
End signing.

(** ** What passes *)

Lemma finish_Ok l : finish l = Ok () <-> l = [].
Proof. by destruct l. Qed.

Lemma unless_nil ok v : unless ok v = [] <-> ok = true.
Proof. by destruct ok. Qed.

Lemma bind_nil {A B} (f : A -> list B) l : l ≫= f = [] <-> Forall (fun x => f x = []) l.
Proof.
  induction l as [|x l IH]; [split; [constructor|done]|]. cbn. rewrite Forall_cons, <- IH. split.
  - intros H. by apply app_eq_nil in H.
  - intros [-> H]. done.
Qed.

Lemma app_nil_iff {A} (l l' : list A) : l ++ l' = [] <-> l = [] /\ l' = [].
Proof. split; [apply app_eq_nil|by intros [-> ->]]. Qed.

(** A card of the v1 profile: an [https] HTTP+JSON interface at the pinned version,
    streaming and push off, the extended card on, every required extension marked required,
    and no alternative without mutual TLS. *)
Definition conforming (card : AgentCard) (config : ProfileConfig) : Prop :=
  (exists i, i ∈ supported_interfaces card /\ v1_interface i = true) /\
  (exists caps, capabilities card = Some caps /\ streaming caps = Some false /\ push_notifications caps = Some false /\
     extended_agent_card caps = Some true /\
     forall u, u ∈ required_extensions config -> exists e, e ∈ cap_extensions caps /\ uri e = u /\ required e = true) /\
  security_requirements card <> [] /\
  (forall req, req ∈ security_requirements card -> exists n, n ∈ req /\ security_schemes card !! n = Some MtlsSecurityScheme).

Lemma existsb_elem {A} (f : A -> bool) l : existsb f l = true <-> exists x, x ∈ l /\ f x = true.
Proof. rewrite existsb_exists. by setoid_rewrite list_elem_of_In. Qed.

Lemma is_mtls_iff card n : is_mtls card n = true <-> security_schemes card !! n = Some MtlsSecurityScheme.
Proof. unfold is_mtls. destruct (security_schemes card !! n) as [[]|]; naive_solver. Qed.

Lemma validate_agent_card_Ok card config :
  validate_agent_card card config = Ok () <-> conforming card config.
Proof.
  unfold validate_agent_card, card_violations, conforming. rewrite finish_Ok, !app_nil_iff, !unless_nil, existsb_elem.
  assert (negb (bool_decide (security_requirements card = [])) && forallb (existsb (is_mtls card)) (security_requirements card) = true <->
    security_requirements card <> [] /\
    (forall req, req ∈ security_requirements card -> exists n, n ∈ req /\ security_schemes card !! n = Some MtlsSecurityScheme)) as ->.
  { rewrite andb_true_iff, negb_true_iff, bool_decide_eq_false, forallb_forall. f_equiv.
    setoid_rewrite <- list_elem_of_In. setoid_rewrite existsb_elem. by setoid_rewrite is_mtls_iff. }
  f_equiv. f_equiv. destruct (capabilities card) as [caps|]; [|split; [done|by intros (? & ? & _)]].
  rewrite !app_nil_iff, !unless_nil, !bool_decide_eq_true, bind_nil, Forall_forall. setoid_rewrite unless_nil.
  setoid_rewrite existsb_elem. setoid_rewrite andb_true_iff. setoid_rewrite bool_decide_eq_true.
  split; [intros (? & ? & ? & ?); by exists caps|]. by intros (? & [= <-] & ? & ? & ? & ?).
Qed.

Lemma negotiate_Ok supported required activated echo :
  negotiate_extensions supported required activated = Ok echo <->
  echo = activated /\ (forall u, u ∈ required -> u ∈ activated) /\ (forall u, u ∈ activated -> u ∈ supported).
Proof.
  unfold negotiate_extensions.
  set (l := _ ++ _). assert (l = [] <-> (forall u, u ∈ required -> u ∈ activated) /\ (forall u, u ∈ activated -> u ∈ supported)) as Hl.
  { subst l. rewrite app_nil_iff, !bind_nil, !Forall_forall. setoid_rewrite unless_nil. by setoid_rewrite bool_decide_eq_true. }
  destruct (finish l) as [[]|e] eqn:E; cbn.
  - apply finish_Ok in E. rewrite <- Hl. split; [by intros [= <-]|by intros [-> _]].
  - rewrite <- Hl. split; [done|]. intros [_ Hn]. rewrite Hn in E. done.
Qed.

Section card_signatures.
Context {HS : Hashes} {ED : Ed25519} {BU : Base64Url} {JT : JwkText} {CH : Codec ProtectedHeader} {CN : Canon Json}
  {CJ : CardJson}.

Lemma verify_card_Ok card key :
  verify_card card key = Ok () <->
  v_purpose key = Lifecycle.AgentCard /\
  exists payload s, canonical_payload card = Some payload /\ s ∈ signatures card /\
    jws_valid (mkJws (cs_protected s) (cs_signature s)) payload (v_verifying key).
Proof.
  unfold verify_card. destruct (key_for key Lifecycle.AgentCard) as [vk|e] eqn:Ek.
  - apply Proposal.key_for_Ok in Ek as [Hp ->]. destruct (decide (signatures card = [])) as [Hn|Hn].
    { split; [done|]. intros (_ & p & s & _ & Hs & _). rewrite Hn in Hs. by apply not_elem_of_nil in Hs. }
    destruct (canonical_payload card) as [p|] eqn:Ec; cbn; [|split; [done|by intros (_ & ? & ? & ? & _)]].
    destruct (existsb _ _) eqn:Ex.
    + split; [|done]. intros _. split; [done|]. apply existsb_elem in Ex as (s & Hs & Ho). exists p, s.
      split; [done|]. split; [done|]. apply verify_detached_Ok. unfold sig_ok in Ho. by destruct (verify_detached _ _ _) as [[]|].
    + split; [done|]. intros (_ & ? & s & [= <-] & Hs & Hv%verify_detached_Ok). exfalso.
      assert (existsb (sig_ok p (v_verifying key)) (signatures card) = true); [|congruence].
      apply existsb_elem. exists s. split; [done|]. unfold sig_ok. by rewrite Hv.
  - split; [done|]. intros [Hp _]. assert (key_for key Lifecycle.AgentCard = Ok (v_verifying key)) by by apply Proposal.key_for_Ok.
    congruence.
Qed.

(** Signing does not depend on the signatures already there: the payload leaves them out. *)
Lemma sign_card_verifies card key s :
  sign_card card key = Ok s -> forall card', canonical_payload card' = canonical_payload card -> s ∈ signatures card' ->
  verify_card card' (verifying key) = Ok ().
Proof.
  unfold sign_card. destruct (canonical_payload card) as [p|] eqn:Ec; [|done]. cbn.
  destruct (sign_with key Lifecycle.AgentCard _) as [jws|] eqn:Es; [|done]. intros [= <-] card' Hp Hs.
  apply Proposal.sign_with_Ok in Es as [Hk ->]. apply verify_card_Ok. split; [done|].
  eexists p, _. split; [done|]. split; [exact Hs|]. cbn.
  apply verify_sign_detached.
Qed.
End card_signatures.
End Profile.
