(* ===== verification/Introduction.v ===== *)
(** First contact (akson-pairing/src): the key-binding record of key_binding.rs, the
    proofs of possession of bootstrap.rs, the session-bound transcript and its two sides in
    introduction.rs, and the pinned identity assembled by session.rs.

    A [BTreeMap] is a finite map visited in key order; an instant is the nanosecond count of an
    [OffsetDateTime]. *)
From S2P Require Import Prelude Text Crypto Sign Lifecycle Keys Json IJson Dsse Toy Proposal Profile.

Module Introduction.
Import Keys Json.
Import Lifecycle (KeyPurpose).

(** [OffsetDateTime::parse(s, &Rfc3339)]. *)
Class Instants := { parse_instant : string -> option Z }.

(** The entries of a map in key order. *)
Definition entries {A} (m : gmap string A) : list (string * A) := sorted_rows (fun _ _ => true) m.

Lemma elem_of_entries {A} (m : gmap string A) k v : (k, v) ∈ entries m <-> m !! k = Some v.
Proof. unfold entries. rewrite elem_of_sorted_rows. naive_solver. Qed.

(** The kebab-case names serde gives the purposes. *)
Definition purpose_name (p : KeyPurpose) : string :=
  match p with
  | Lifecycle.TlsEndpoint => "tls-endpoint"
  | Lifecycle.AgentCard => "agent-card"
  | Lifecycle.ContractProposal => "contract-proposal"
  | Lifecycle.ContractDecision => "contract-decision"
  | Lifecycle.TaskResult => "task-result"
  | Lifecycle.Evidence => "evidence"
  | Lifecycle.RequesterOutcome => "requester-outcome"
  | Lifecycle.LocalAuthority => "local-authority"
  end.

Definition purpose_of_name (s : string) : option KeyPurpose :=
  snd <$> list_find (fun p => purpose_name p = s) (Lifecycle.PAIRED ++ [Lifecycle.LocalAuthority]).

(** ** Key bindings (key_binding.rs) *)

Record KeyEntry := mkEntry {
  e_jwk : Ed25519PublicJwk; e_thumbprint : string; e_generation : Z; e_not_before : string; e_not_after : string }.

Record Subject := mkSubject { s_issuer : string; s_agent : string }.

Record KeyBindingSet := mkSet {
  kb_schema_version : Z;
  subject : Subject;
  tls_certificate_sha256 : string;
  keys : gmap string KeyEntry;
}.

Inductive KeyBindingError :=
| KSchema (e : Dsse.SchemaError) | KParse | KBadJwk (p : string) | ThumbprintMismatch (p : string) | ReusedKey (p : string)
| BadTimestamp (p : string) | BadInterval (p : string) | NotCurrentlyValid (p : string).

Inductive PopError :=
| MissingProof (p : string) | Malformed (p : string) | BadProof (p : string) | UnexpectedProof (p : string) | PBadJwk (p : string).

Section verification.
Context {HS : Hashes} {HX : Hex} {ED : Ed25519} {BU : Base64Url} {JT : JwkText} {SV : Dsse.Schemas} {TM : Instants}.

(** One round of the loop in [key_binding::verify]. *)
Definition check_entry (seen : list string) (p : string) (e : KeyEntry) (now : Z) : result KeyBindingError (list string) :=
  match to_key (e_jwk e) with
  | Err _ => Err (KBadJwk p)
  | Ok _ =>
      let thumbprint := jwk_thumbprint (e_jwk e) in
      if decide (thumbprint <> e_thumbprint e) then Err (ThumbprintMismatch p) else
      if decide (thumbprint ∈ seen) then Err (ReusedKey p) else
      nb ← ok_or (parse_instant (e_not_before e)) (BadTimestamp p);
      na ← ok_or (parse_instant (e_not_after e)) (BadTimestamp p);
      if (na <=? nb)%Z then Err (BadInterval p) else
      if (now <? nb)%Z || (na <=? now)%Z then Err (NotCurrentlyValid p) else Ok (thumbprint :: seen)
  end.

Fixpoint check_entries (seen : list string) (l : list (string * KeyEntry)) (now : Z) : result KeyBindingError () :=
  match l with
  | [] => Ok ()
  | (p, e) :: l => seen ← check_entry seen p e now; check_entries seen l now
  end.

(** [key_binding::verify]. *)
Definition verify_bindings {FV : Proposal.FromValue KeyBindingSet} (value : Json) (now : Z) : result KeyBindingError KeyBindingSet :=
  _ ← Proposal.lift_err KSchema (Dsse.validate Dsse.KeyBindingV1 value);
  set ← ok_or (Proposal.from_value value) KParse;
  _ ← check_entries [] (entries (keys set)) now;
  Ok set.

(** ** Proofs of possession (bootstrap.rs) *)

Definition check_proof (message : bytes) (proofs : gmap string string) (p : string) (e : KeyEntry) : result PopError () :=
  proof ← ok_or (proofs !! p) (MissingProof p);
  sig ← ok_or (url_decode proof) (Malformed p);
  if decide (length sig <> 64) then Err (Malformed p) else
  match to_key (e_jwk e) with
  | Err _ => Err (PBadJwk p)
  | Ok key => if verify_strict key message sig then Ok () else Err (BadProof p)
  end.

Fixpoint check_proofs (message : bytes) (proofs : gmap string string) (l : list (string * KeyEntry)) : result PopError () :=
  match l with
  | [] => Ok ()
  | (p, e) :: l => _ ← check_proof message proofs p e; check_proofs message proofs l
  end.

Definition verify_proofs_over (bindings : KeyBindingSet) (message : bytes) (proofs : gmap string string) : result PopError () :=
  _ ← check_proofs message proofs (entries (keys bindings));
  match list_find (fun kv => keys bindings !! kv.1 = None) (entries proofs) with
  | Some (_, (p, _)) => Err (UnexpectedProof p)
  | None => Ok ()
  end.
End verification.

(** ** The transcript (introduction.rs) *)

Inductive Role := Dialer | Responder.

#[global] Instance Role_eq_dec : EqDecision Role.
Proof. solve_decision. Defined.

Definition PROTOCOL_VERSION : Z := 1.
Definition TOKEN_VERSION : Z := 1.
Definition DOMAIN : string := "akson-introduction-v1".
Definition INTRODUCTION_MEDIA_TYPE : string := "application/vnd.akson-dev.introduction.v1+json".
Definition HELLO_PATH : string := "/akson/introduce/v1/hello".
Definition COMPLETE_PATH : string := "/akson/introduce/v1/complete".

Record Hello := mkHello {
  h_protocol_version : Z; h_token_version : Z; target_root : string; claimed_root : string; h_nonce : string }.

Record IntroMaterial := mkMaterial {
  key_binding : Json; extended_card : Profile.AgentCard; proofs : gmap string string }.

Record IntroTranscript := mkTranscript {
  protocol_version : Z;
  token_version : Z;
  role : Role;
  dialer_root : string;
  responder_root : string;
  dialer_tls_sha256 : string;
  responder_tls_sha256 : string;
  tls_exporter : string;
  nonce : string;
  key_binding_sha256 : string;
}.

#[global] Instance IntroTranscript_eq_dec : EqDecision IntroTranscript.
Proof. solve_decision. Defined.

Definition role_name (r : Role) : string := match r with Dialer => "dialer" | Responder => "responder" end.

(** The transcript as an object with the domain inserted, members in key order. *)
Definition transcript_json (t : IntroTranscript) : list (string * Json) :=
  [("dialer_root", JStr (dialer_root t)); ("dialer_tls_sha256", JStr (dialer_tls_sha256 t)); ("domain", JStr DOMAIN);
   ("key_binding_sha256", JStr (key_binding_sha256 t)); ("nonce", JStr (nonce t));
   ("protocol_version", JInt (protocol_version t)); ("responder_root", JStr (responder_root t));
   ("responder_tls_sha256", JStr (responder_tls_sha256 t)); ("role", JStr (role_name (role t)));
   ("tls_exporter", JStr (tls_exporter t)); ("token_version", JInt (token_version t))].

Definition bind_record (t : IntroTranscript) (digest : string) : IntroTranscript :=
  mkTranscript (protocol_version t) (token_version t) (role t) (dialer_root t) (responder_root t) (dialer_tls_sha256 t)
    (responder_tls_sha256 t) (tls_exporter t) (nonce t) digest.

Definition transcript_tls_of_signer (t : IntroTranscript) : string :=
  match role t with Dialer => dialer_tls_sha256 t | Responder => responder_tls_sha256 t end.

Inductive IntroError :=
| IKeyBinding (e : KeyBindingError) | TlsCertificateMismatch | NoAgentCardKey | RootMismatch | CardSignature
| CardProfile | IProofOfPossession (e : PopError) | IBuild.

Record VerifiedIntroduction := mkVerified { bindings : KeyBindingSet; root : Lifecycle.Fingerprint }.

(** [str::eq_ignore_ascii_case]. *)
Definition ascii_lower (c : byte) : byte :=
  let n := byte_to_Z c in if (65 <=? n)%Z && (n <=? 90)%Z then byte_of_Z (n + 32) else c.

Definition eq_ignore_ascii_case (a b : string) : bool :=
  bool_decide (ascii_lower <$> as_bytes a = ascii_lower <$> as_bytes b).

Section introduction.
Context {HS : Hashes} {HX : Hex} {ED : Ed25519} {BU : Base64Url} {JT : JwkText} {CH : Codec ProtectedHeader}
  {SV : Dsse.Schemas} {TM : Instants} {CN : Canon Json} {CJ : Profile.CardJson} {FV : Proposal.FromValue KeyBindingSet}.

Definition signing_bytes (t : IntroTranscript) : bytes := default [] (to_canon (JObj (transcript_json t))).

(** [session::key_binding_digest_hex]. *)
Definition key_binding_digest_hex (v : Json) : string := hex_encode (sha256 (default [] (to_canon v))).

Definition verify_introduction (expected_root_thumbprint : string) (t : IntroTranscript) (subject_tls_sha256 : string)
  (material : IntroMaterial) (profile_config : Profile.ProfileConfig) (now : Z) : result IntroError VerifiedIntroduction :=
  bindings ← Proposal.lift_err IKeyBinding (verify_bindings (key_binding material) now);
  if negb (eq_ignore_ascii_case (tls_certificate_sha256 bindings) subject_tls_sha256) then Err TlsCertificateMismatch else
  card_entry ← ok_or (keys bindings !! "agent-card") NoAgentCardKey;
  if decide (e_thumbprint card_entry <> expected_root_thumbprint) then Err RootMismatch else
  match to_key (e_jwk card_entry) with
  | Err _ => Err CardSignature
  | Ok card_key =>
      let card_vk := mkVKey Lifecycle.AgentCard card_key in
      match Profile.verify_card (extended_card material) card_vk with
      | Err _ => Err CardSignature
      | Ok _ =>
          match Profile.validate_agent_card (extended_card material) profile_config with
          | Err _ => Err CardProfile
          | Ok _ =>
              let bound := bind_record t (key_binding_digest_hex (key_binding material)) in
              _ ← Proposal.lift_err IProofOfPossession
                    (verify_proofs_over bindings (signing_bytes bound) (proofs material));
              Ok (mkVerified bindings (Lifecycle.mkFp Lifecycle.Jwk7638 (e_thumbprint card_entry)))
          end
      end
  end.

(** *** Building one side's material *)

Definition jwk_json (j : Ed25519PublicJwk) : Json :=
  JObj [("crv", JStr (crv j)); ("kty", JStr (kty j)); ("x", JStr (x j))].

Definition entry_json (k : PurposeKey) (not_before not_after : string) (generation : Z) : Json :=
  let jwk := from_key (v_verifying (verifying k)) in
  JObj [("generation", JInt generation); ("jwk", jwk_json jwk); ("not_after", JStr not_after);
        ("not_before", JStr not_before); ("thumbprint", JStr (jwk_thumbprint jwk))].

(** [keys] is a [BTreeMap] by purpose: a list in purpose order. The object it becomes is
    sorted by name. *)
Definition key_binding_json (t : IntroTranscript) (issuer agent : string) (keys : list (KeyPurpose * PurposeKey))
  (not_before not_after : string) (generation : Z) : Json :=
  JObj [("keys", JObj (foldl IJson.put_entry []
           ((fun pk => (purpose_name pk.1, entry_json pk.2 not_before not_after generation)) <$> keys)));
        ("schema_version", JInt 1);
        ("subject", JObj [("agent", JStr agent); ("issuer", JStr issuer)]);
        ("tls_certificate_sha256", JStr (transcript_tls_of_signer t))].

Fixpoint build_proofs (message : bytes) (keys : list (KeyPurpose * PurposeKey)) (acc : gmap string string) :
  result IntroError (gmap string string) :=
  match keys with
  | [] => Ok acc
  | (p, k) :: keys =>
      match sign_with k p (fun sk => sign_bytes sk message) with
      | Err _ => Err IBuild
      | Ok sig => build_proofs message keys (<[purpose_name p := url_encode sig]> acc)
      end
  end.

Definition build_intro_material (t : IntroTranscript) (issuer agent : string) (signed_card : Profile.AgentCard)
  (keys : list (KeyPurpose * PurposeKey)) (not_before not_after : string) (generation : Z) : result IntroError IntroMaterial :=
  let kb := key_binding_json t issuer agent keys not_before not_after generation in
  let message := signing_bytes (bind_record t (key_binding_digest_hex kb)) in
  ps ← build_proofs message keys ∅;
  Ok (mkMaterial kb signed_card ps).

(** ** The pinned identity (session.rs) *)

Inductive PeerError := SSerialize | UnknownPurpose (p : string).

(** [Value::get], [as_array], [as_str], [as_bool]. *)
Definition member (name : string) (v : Json) : option Json :=
  match v with
  | JObj l => match list_find (fun kv => kv.1 = name) l with Some (_, (_, v)) => Some v | None => None end
  | _ => None
  end.

Definition as_array (v : Json) : option (list Json) := match v with JArr l => Some l | _ => None end.
Definition as_str (v : Json) : option string := match v with JStr s => Some s | _ => None end.
Definition as_bool (v : Json) : option bool := match v with JBool b => Some b | _ => None end.

(** The required extension URIs of a card, sorted. *)
Definition required_uris (card : Json) : list string :=
  match (c ← member "capabilities" card; e ← member "extensions" c; as_array e) with
  | Some arr => sort_text (omap (fun e => u ← member "uri" e; as_str u : option string)
                  (List.filter (fun e => default false (r ← member "required" e; as_bool r)) arr))
  | None => []
  end.

Definition security_projection (card key_binding : Json) : Json :=
  let field name := default JNull (member name card) in
  JObj [("keyBinding", key_binding); ("requiredExtensions", JArr (JStr <$> required_uris card));
        ("securityRequirements", field "securityRequirements"); ("securitySchemes", field "securitySchemes");
        ("supportedInterfaces", field "supportedInterfaces")].

Definition jwk_fp (thumbprint : string) : Lifecycle.Fingerprint := Lifecycle.mkFp Lifecycle.Jwk7638 thumbprint.

(** [Fingerprint::json_sha256]; [hex_lower] renders as [hex::encode]. *)
Definition json_sha256 (canonical : bytes) : Lifecycle.Fingerprint :=
  Lifecycle.mkFp Lifecycle.JsonSha256 (hex_encode (sha256 canonical)).

Fixpoint pinned_bindings (l : list (string * KeyEntry)) : result PeerError (list Lifecycle.KeyBinding) :=
  match l with
  | [] => Ok []
  | (name, e) :: l =>
      p ← ok_or (purpose_of_name name) (UnknownPurpose name);
      rest ← pinned_bindings l;
      Ok (Lifecycle.mkBinding p (jwk_fp (e_thumbprint e)) :: rest)
  end.

Definition peer_identity_from {TV : Proposal.ToValue KeyBindingSet} (bindings : KeyBindingSet) (card : Profile.AgentCard) :
  result PeerError Lifecycle.PeerIdentity :=
  card_value ← ok_or (Profile.card_value card) SSerialize;
  let endpoint_id := default "" (l ← member "supportedInterfaces" card_value; a ← as_array l; i ← head a; u ← member "url" i; as_str u) in
  key_bindings ← pinned_bindings (entries (keys bindings));
  let agent_card_key := match keys bindings !! "agent-card" with Some e => jwk_fp (e_thumbprint e) | None => jwk_fp "" end in
  let projection := security_projection card_value (Proposal.to_value bindings) in
  Ok {| Lifecycle.p_issuer := Some (s_issuer (subject bindings));
        Lifecycle.agent_id := s_agent (subject bindings);
        Lifecycle.workload_id := None;
        Lifecycle.endpoint_id := endpoint_id;
        Lifecycle.tls_cert := Lifecycle.mkFp Lifecycle.CertSha256 (tls_certificate_sha256 bindings);
        Lifecycle.agent_card_key := agent_card_key;
        Lifecycle.key_bindings := key_bindings;
        Lifecycle.security_projection_digest := json_sha256 (default [] (to_canon projection));
        Lifecycle.full_card_digest := json_sha256 (default [] (to_canon (Profile.remove_member "signatures" card_value))) |}.

(** ** What verification establishes *)

Definition in_validity (e : KeyEntry) (now : Z) : Prop := exists nb na,
  parse_instant (e_not_before e) = Some nb /\ parse_instant (e_not_after e) = Some na /\ (nb <= now < na)%Z.

(** An advertised key: a real key under its own thumbprint, currently valid. *)
Definition entry_good (e : KeyEntry) (now : Z) : Prop :=
  (exists k, to_key (e_jwk e) = Ok k) /\ e_thumbprint e = jwk_thumbprint (e_jwk e) /\ in_validity e now.

Lemma check_entry_Ok seen p e now seen' :
  check_entry seen p e now = Ok seen' <-> entry_good e now /\ e_thumbprint e ∉ seen /\ seen' = e_thumbprint e :: seen.
Proof.
  unfold check_entry, entry_good, in_validity. destruct (to_key (e_jwk e)) as [k|er] eqn:Ek.
  2: { split; [done|]. intros [[[? ?] _] _]. congruence. }
  destruct (decide (jwk_thumbprint (e_jwk e) <> e_thumbprint e)) as [Ht|Ht%dec_stable].
  { split; [done|]. intros [(_ & ? & _) _]. congruence. }
  rewrite Ht. destruct (decide (e_thumbprint e ∈ seen)) as [Hs|Hs]; [split; [done|naive_solver]|].
  destruct (parse_instant (e_not_before e)) as [nb|]; cbn; [|split; [done|naive_solver]].
  destruct (parse_instant (e_not_after e)) as [na|]; cbn; [|split; [done|naive_solver]].
  destruct (Z.leb_spec na nb); [split; [done|]; intros [(_ & _ & ? & ? & [= <-] & [= <-] & ?) _]; lia|].
  destruct (Z.ltb_spec now nb), (Z.leb_spec na now); cbn;
    try (split; [done|]; intros [(_ & _ & ? & ? & [= <-] & [= <-] & ?) _]; lia).
  split; [intros [= <-]|by intros (_ & _ & ->)]. split; [|done]. split; [by exists k|]. split; [done|]. by exists nb, na.
Qed.

Lemma check_entries_Ok l now : forall seen,
  check_entries seen l now = Ok () <->
  Forall (fun pe => entry_good pe.2 now) l /\ NoDup ((e_thumbprint ∘ snd) <$> l) /\
  (forall pe, pe ∈ l -> e_thumbprint pe.2 ∉ seen).
Proof.
  induction l as [|[p e] l IH]; intros seen; cbn [check_entries].
  { split; [|done]. intros _. split; [constructor|]. split; [apply NoDup_nil_2|]. intros pe Hp. by apply not_elem_of_nil in Hp. }
  destruct (check_entry seen p e now) as [seen'|er] eqn:E; cbn [mbind result_bind].
  - apply check_entry_Ok in E as (Hg & Hs & ->). rewrite IH, fmap_cons, NoDup_cons, Forall_cons. cbn.
    setoid_rewrite not_elem_of_cons. setoid_rewrite list_elem_of_fmap. split.
    + intros (Hall & Hnd & Hn). split; [done|]. split.
      * split; [|done]. intros (pe & Heq & Hin). cbn in Heq. by destruct (Hn pe Hin) as [Hne _], Hne.
      * intros pe [->|Hin]%elem_of_cons; [done|]. by apply Hn.
    + intros ([_ Hall] & [Hno Hnd] & Hn). split; [done|]. split; [done|]. intros pe Hin. split.
      * intros Heq. apply Hno. by exists pe.
      * apply Hn. by right.
  - split; [done|]. intros (Hall & _ & Hn). apply Forall_cons in Hall as [Hg _].
    assert (check_entry seen p e now = Ok (e_thumbprint e :: seen)); [|congruence].
    apply check_entry_Ok. split; [done|]. split; [|done]. apply (Hn (p, e)). left.
Qed.

(** A verified record: conforming, every key good, no key under two purposes. *)
Definition bindings_good (value : Json) (now : Z) (s : KeyBindingSet) : Prop :=
  Dsse.schema_errors Dsse.KeyBindingV1 value = [] /\ Proposal.from_value value = Some s /\
  (forall p e, keys s !! p = Some e -> entry_good e now) /\
  (forall p q e f, keys s !! p = Some e -> keys s !! q = Some f -> e_thumbprint e = e_thumbprint f -> p = q).

Lemma nodup_entries {A B} (m : gmap string A) (f : A -> B) :
  NoDup ((f ∘ snd) <$> entries m) <->
  (forall p q e e', m !! p = Some e -> m !! q = Some e' -> f e = f e' -> p = q).
Proof.
  assert (NoDup (entries m).*1) as Hk.
  { unfold entries, sorted_rows. rewrite merge_sort_Permutation. unfold rows_where.
    rewrite (List.forallb_filter_id _ (map_to_list m)) by (by apply forallb_forall). apply NoDup_fst_map_to_list. }
  split.
  - intros Hn p q e e' Hp%elem_of_entries Hq%elem_of_entries He.
    apply list_elem_of_lookup in Hp as [i Hi], Hq as [j Hj].
    assert (i = j) as <-; [|congruence].
    apply (NoDup_lookup _ i j (f e) Hn); rewrite list_lookup_fmap; [by rewrite Hi|rewrite Hj; cbn; congruence].
  - intros Hinj. apply NoDup_fmap_2_strong; [|by apply NoDup_fmap_1 in Hk].
    intros [p e] [q e'] Hp%elem_of_entries Hq%elem_of_entries He. cbn in He.
    assert (p = q) as <- by by eapply Hinj. congruence.
Qed.

Lemma verify_bindings_Ok value now s : verify_bindings value now = Ok s <-> bindings_good value now s.
Proof.
  unfold verify_bindings, bindings_good. split.
  - destruct (Dsse.validate Dsse.KeyBindingV1 value) as [[]|] eqn:Ev; [|done]. cbn [Proposal.lift_err mbind result_bind].
    destruct (Proposal.from_value value) as [s'|]; [|done]. cbn [ok_or mbind result_bind].
    destruct (check_entries [] (entries (keys s')) now) as [[]|] eqn:Ec; [|done]. intros [= <-].
    apply check_entries_Ok in Ec as (Hall & Hnd & _). rewrite <- Proposal.validate_Ok. split; [done|]. split; [done|].
    rewrite Forall_forall in Hall. split; [|by apply nodup_entries].
    intros p e He%elem_of_entries. by apply (Hall (p, e)).
  - intros (Hv & Hf & Hall & Hnd). rewrite (proj2 (Proposal.validate_Ok _ _) Hv). cbn [Proposal.lift_err mbind result_bind].
    rewrite Hf. cbn [ok_or mbind result_bind].
    rewrite (proj2 (check_entries_Ok (entries (keys s)) now [])); [done|].
    split; [apply Forall_forall; intros [p e] He%elem_of_entries; by eapply Hall|]. split; [by apply nodup_entries|].
    intros pe _. apply not_elem_of_nil.
Qed.

(** *** Proofs of possession *)

(** Every advertised key signed the message; no other proof is present. *)
Definition possessed (s : KeyBindingSet) (message : bytes) (proofs : gmap string string) : Prop :=
  (forall p e, keys s !! p = Some e -> exists k proof sig, to_key (e_jwk e) = Ok k /\ proofs !! p = Some proof /\
     url_decode proof = Some sig /\ length sig = 64 /\ verify_strict k message sig = true) /\
  (forall p, is_Some (proofs !! p) -> is_Some (keys s !! p)).

Lemma check_proof_Ok message proofs p e :
  check_proof message proofs p e = Ok () <->
  exists k proof sig, to_key (e_jwk e) = Ok k /\ proofs !! p = Some proof /\ url_decode proof = Some sig /\
    length sig = 64 /\ verify_strict k message sig = true.
Proof.
  unfold check_proof. split.
  - destruct (proofs !! p) as [proof|]; [|done]. cbn [ok_or mbind result_bind].
    destruct (url_decode proof) as [sig|] eqn:Eu; [|done]. cbn [ok_or mbind result_bind].
    destruct (decide (length sig <> 64)) as [|Hl%dec_stable]; [done|].
    destruct (to_key (e_jwk e)) as [k|]; [|done]. destruct (verify_strict k message sig) eqn:Ev; [|done].
    intros _. by exists k, proof, sig.
  - intros (k & proof & sig & Hk & -> & Hu & Hl & Hv). cbn [ok_or mbind result_bind]. rewrite Hu.
    cbn [ok_or mbind result_bind]. rewrite decide_False by (intros Hn; by apply Hn). by rewrite Hk, Hv.
Qed.

Lemma check_proofs_Ok message proofs l :
  check_proofs message proofs l = Ok () <-> forall p e, (p, e) ∈ l -> check_proof message proofs p e = Ok ().
Proof.
  induction l as [|[p e] l IH]; cbn [check_proofs].
  { split; [|done]. intros _ p e He. by apply not_elem_of_nil in He. }
  destruct (check_proof message proofs p e) as [[]|er] eqn:E; cbn [mbind result_bind].
  - rewrite IH. split; intros Hall q f; [intros [[= -> ->]|Hin]%elem_of_cons; [done|by apply Hall]|].
    intros Hin. apply Hall. by right.
  - split; [done|]. intros Hall. rewrite (Hall p e) in E; [done|left].
Qed.

Lemma verify_proofs_over_Ok s message proofs : verify_proofs_over s message proofs = Ok () <-> possessed s message proofs.
Proof.
  unfold verify_proofs_over, possessed.
  assert (check_proofs message proofs (entries (keys s)) = Ok () <->
    forall p e, keys s !! p = Some e -> exists k proof sig, to_key (e_jwk e) = Ok k /\ proofs !! p = Some proof /\
      url_decode proof = Some sig /\ length sig = 64 /\ verify_strict k message sig = true) as <-.
  { rewrite check_proofs_Ok. setoid_rewrite elem_of_entries. by setoid_rewrite check_proof_Ok. }
  destruct (check_proofs _ _ _) as [[]|er]; cbn [mbind result_bind]; [|split; [done|by intros [? _]]].
  destruct (list_find _ (entries proofs)) as [[i [p v]]|] eqn:Ef.
  - split; [done|]. intros [_ Hall]. apply list_find_Some in Ef as (Hi & Hn & _).
    apply list_elem_of_lookup_2, elem_of_entries in Hi. destruct (Hall p) as [e He]; [by eexists|]. cbn in Hn. congruence.
  - split; [|done]. intros _. split; [done|]. intros p [v Hv%elem_of_entries].
    apply list_find_None in Ef. rewrite Forall_forall in Ef. apply Ef in Hv. cbn in Hv.
    destruct (keys s !! p); [by eexists|done].
Qed.

(** *** The other side is the imported root, on this session *)

(** Everything [verify_introduction] checked. *)
Definition introduced (root_tp : string) (t : IntroTranscript) (tls : string) (m : IntroMaterial)
  (prof : Profile.ProfileConfig) (now : Z) (v : VerifiedIntroduction) : Prop :=
  let s := bindings v in
  bindings_good (key_binding m) now s /\
  eq_ignore_ascii_case (tls_certificate_sha256 s) tls = true /\
  (exists e k, keys s !! "agent-card" = Some e /\ e_thumbprint e = root_tp /\ to_key (e_jwk e) = Ok k /\
     Profile.verify_card (extended_card m) (mkVKey Lifecycle.AgentCard k) = Ok ()) /\
  Profile.conforming (extended_card m) prof /\
  possessed s (signing_bytes (bind_record t (key_binding_digest_hex (key_binding m)))) (proofs m) /\
  root v = jwk_fp root_tp.

Lemma verify_introduction_Ok root_tp t tls m prof now v :
  verify_introduction root_tp t tls m prof now = Ok v <-> introduced root_tp t tls m prof now v.
Proof.
  unfold verify_introduction, introduced. split.
  - destruct (verify_bindings (key_binding m) now) as [s|] eqn:Eb; [|done]. cbn [Proposal.lift_err mbind result_bind].
    apply verify_bindings_Ok in Eb. destruct (eq_ignore_ascii_case _ tls) eqn:Et; [|done]. cbn [negb].
    destruct (keys s !! "agent-card") as [e|] eqn:Ee; [|done]. cbn [ok_or mbind result_bind].
    destruct (decide (e_thumbprint e <> root_tp)) as [|Hr%dec_stable]; [done|].
    destruct (to_key (e_jwk e)) as [k|] eqn:Ek; [|done]. destruct (Profile.verify_card _ _) as [[]|] eqn:Ev; [|done].
    destruct (Profile.validate_agent_card _ prof) as [[]|] eqn:Ep; [|done].
    destruct (verify_proofs_over s _ _) as [[]|] eqn:Eo; [|done]. cbn [Proposal.lift_err mbind result_bind].
    intros [= <-]. cbn [bindings root]. apply verify_proofs_over_Ok in Eo. apply Profile.validate_agent_card_Ok in Ep.
    repeat (split; [done|]). split; [by exists e, k|]. by rewrite Hr.
  - intros (Hb & Ht & (e & k & He & Hr & Hk & Hv) & Hp & Ho & Hroot).
    rewrite (proj2 (verify_bindings_Ok _ _ _) Hb). cbn [Proposal.lift_err mbind result_bind]. rewrite Ht. cbn [negb].
    rewrite He. cbn [ok_or mbind result_bind]. rewrite decide_False by (intros Hn; by apply Hn). rewrite Hk, Hv.
    rewrite (proj2 (Profile.validate_agent_card_Ok _ _) Hp), (proj2 (verify_proofs_over_Ok _ _ _) Ho).
    cbn [Proposal.lift_err mbind result_bind]. rewrite Hr. destruct v; cbn in *. by subst.
Qed.

Lemma jwk_thumbprint_key j k k0 :
  jwk_thumbprint j = thumbprint k0 -> to_key j = Ok k -> k = k0 \/ sha256_collision.
Proof.
  unfold thumbprint, jwk_thumbprint. intros Ht Hk. apply url_encode_inj in Ht.
  destruct (construction_total (crv j) (kty j) (x j)) as [c Hc].
  destruct (construction_total (crv (from_key k0)) (kty (from_key k0)) (x (from_key k0))) as [c' Hc'].
  rewrite Hc, Hc' in Ht. cbn in Ht. destruct (decide (c = c')) as [->|Hne]; [left|right; by exists c, c'].
  rewrite <- Hc' in Hc. apply construction_inj in Hc as (_ & _ & Hx). revert Hk. unfold to_key. rewrite Hx.
  cbn [from_key x]. rewrite url_decode_encode. cbn [ok_or mbind result_bind].
  repeat (destruct (decide _); [done|]). destruct (key_decodes k0); [|done]. congruence.
Qed.

(** C28. Whoever passes the introduction is the imported root: unless SHA-256 has a
    collision, the key behind the imported thumbprint signed the presented card and this
    session's transcript with the presented record's digest in it, the record names the
    certificate of this connection, every other advertised key signed the same transcript,
    and the card meets the profile. *)
Theorem introduction_is_root k0 t tls m prof now v :
  verify_introduction (thumbprint k0) t tls m prof now = Ok v ->
  let msg := signing_bytes (bind_record t (key_binding_digest_hex (key_binding m))) in
  root v = jwk_fp (thumbprint k0) /\ Profile.conforming (extended_card m) prof /\
  eq_ignore_ascii_case (tls_certificate_sha256 (bindings v)) tls = true /\
  (forall p e, keys (bindings v) !! p = Some e ->
     entry_good e now /\ exists k sig, to_key (e_jwk e) = Ok k /\ verify_strict k msg sig = true) /\
  (sha256_collision \/
   (exists payload s, Profile.canonical_payload (extended_card m) = Some payload /\
      s ∈ Profile.signatures (extended_card m) /\
      jws_valid (mkJws (Profile.cs_protected s) (Profile.cs_signature s)) payload k0) /\
   (exists sig, verify_strict k0 msg sig = true)).
Proof.
  intros (Hb & Ht & (e & k & He & Hr & Hk & Hv) & Hp & [Hpos _] & Hroot)%verify_introduction_Ok msg.
  destruct Hb as (_ & _ & Hgood & _). split; [done|]. split; [done|]. split; [done|]. split.
  - intros p f Hf. split; [by eapply Hgood|]. destruct (Hpos p f Hf) as (k' & _ & sig & Hk' & _ & _ & _ & Hs).
    by exists k', sig.
  - destruct (Hgood _ _ He) as (_ & Htp & _). destruct (jwk_thumbprint_key (e_jwk e) k k0) as [->|]; [congruence|done| |by left].
    right. apply Profile.verify_card_Ok in Hv as (_ & payload & s & Hc & Hs & Hj). split; [by exists payload, s|].
    destruct (Hpos _ _ He) as (k' & _ & sig & Hk' & _ & _ & _ & Hsig). exists sig.
    assert (k' = k0) as <- by congruence. exact Hsig.
Qed.

(** *** Proofs are bound to the session *)

Section session.
(** RFC 8785 tells apart objects of the transcript's shape: texts and integers only. *)
Hypothesis canon_transcript : forall t t' b,
  to_canon (JObj (transcript_json t)) = Some b -> to_canon (JObj (transcript_json t')) = Some b ->
  transcript_json t = transcript_json t'.
Hypothesis canon_total : forall t, is_Some (to_canon (JObj (transcript_json t))).

Lemma signing_bytes_inj t t' : signing_bytes t = signing_bytes t' -> t = t'.
Proof.
  unfold signing_bytes. destruct (canon_total t) as [b Hb], (canon_total t') as [b' Hb']. rewrite Hb, Hb'. cbn.
  intros <-. pose proof (canon_transcript _ _ _ Hb Hb') as H. unfold transcript_json in H.
  destruct t as [? ? [] ? ? ? ? ? ? ?], t' as [? ? [] ? ? ? ? ? ? ?]; cbn in H; by simplify_eq.
Qed.

(** A proof of possession is good for one role, one pair of roots and
    certificates, one TLS session, one nonce and one record: if the same signature of the same
    key is accepted in two introductions, then these all agree (the record by its digest), or
    the signature verifies two distinct messages. *)
Theorem proofs_session_bound r t tls m prof now v r' t' tls' m' prof' now' v' p p' e e' k proof :
  verify_introduction r t tls m prof now = Ok v -> verify_introduction r' t' tls' m' prof' now' = Ok v' ->
  keys (bindings v) !! p = Some e -> keys (bindings v') !! p' = Some e' ->
  to_key (e_jwk e) = Ok k -> to_key (e_jwk e') = Ok k ->
  proofs m !! p = Some proof -> proofs m' !! p' = Some proof ->
  bind_record t (key_binding_digest_hex (key_binding m)) = bind_record t' (key_binding_digest_hex (key_binding m')) \/
  exists a b sig, a <> b /\ verify_strict k a sig = true /\ verify_strict k b sig = true.
Proof.
  intros (_ & _ & _ & _ & [Hpos _] & _)%verify_introduction_Ok (_ & _ & _ & _ & [Hpos' _] & _)%verify_introduction_Ok
    He He' Hk Hk' Hp Hp'.
  destruct (Hpos _ _ He) as (k1 & pr & sig & Hk1 & Hpr & Hu & _ & Hv).
  destruct (Hpos' _ _ He') as (k2 & pr' & sig' & Hk2 & Hpr' & Hu' & _ & Hv'). simplify_eq.
  assert (k1 = k) as -> by congruence. assert (k2 = k) as -> by congruence.
  set (a := bind_record t _) in *. set (b := bind_record t' _) in *.
  destruct (decide (a = b)) as [|Hne]; [by left|right].
  exists (signing_bytes a), (signing_bytes b), sig. split; [|done]. by intros ?%signing_bytes_inj.
Qed.
End session.

(** *** An honest introduction succeeds *)

Lemma build_proofs_spec msg l : forall acc,
  Forall (fun pk => purpose pk.2 = pk.1) l -> NoDup (purpose_name ∘ fst <$> l) ->
  exists ps, build_proofs msg l acc = Ok ps /\
    (forall p k, (p, k) ∈ l -> ps !! purpose_name p = Some (url_encode (sign_bytes (signing k) msg))) /\
    (forall n, n ∉ (purpose_name ∘ fst <$> l) -> ps !! n = acc !! n).
Proof.
  induction l as [|[p k] l IH]; intros acc Hp Hn; cbn [build_proofs].
  { exists acc. split; [done|]. split; [|done]. intros p k Hin. by apply not_elem_of_nil in Hin. }
  apply Forall_cons in Hp as [Hpk Hp]. cbn in Hpk. rewrite fmap_cons, NoDup_cons in Hn. destruct Hn as [Hno Hn].
  rewrite (proj2 (Proposal.sign_with_Ok k p _ (sign_bytes (signing k) msg))) by done.
  destruct (IH (<[purpose_name p := url_encode (sign_bytes (signing k) msg)]> acc) Hp Hn) as (ps & -> & Hin & Hout).
  exists ps. split; [done|]. split.
  - intros q j [[= -> ->]|Hq]%elem_of_cons; [|by apply Hin]. rewrite Hout by done. by rewrite lookup_insert_eq.
  - intros n Hni. rewrite fmap_cons, not_elem_of_cons in Hni. destruct Hni as [Hne Hni].
    rewrite Hout by done. rewrite lookup_insert_ne; [done|]. cbn in Hne. congruence.
Qed.

(** The record an honest endpoint presents. *)
Definition honest_entry (k : PurposeKey) (nb na : string) (generation : Z) : KeyEntry :=
  let pk := public_key (signing k) in mkEntry (from_key pk) (thumbprint pk) generation nb na.

Definition honest_set (t : IntroTranscript) (issuer agent : string) (l : list (KeyPurpose * PurposeKey))
  (nb na : string) (generation : Z) : KeyBindingSet :=
  mkSet 1 (mkSubject issuer agent) (transcript_tls_of_signer t)
    (list_to_map ((fun pk => (purpose_name pk.1, honest_entry pk.2 nb na generation)) <$> l)).

Lemma purpose_name_inj p q : purpose_name p = purpose_name q -> p = q.
Proof. by destruct p, q. Qed.

Lemma purpose_names l : (purpose_name ∘ fst <$> l) = purpose_name <$> (l : list (KeyPurpose * PurposeKey)).*1.
Proof. by rewrite <- list_fmap_compose. Qed.

Lemma honest_lookup t issuer agent l nb na g p e :
  NoDup l.*1 ->
  keys (honest_set t issuer agent l nb na g) !! p = Some e <->
  exists q k, (q, k) ∈ l /\ p = purpose_name q /\ e = honest_entry k nb na g.
Proof.
  intros Hn. unfold honest_set. cbn [keys]. rewrite <- elem_of_list_to_map.
  - rewrite list_elem_of_fmap. split; [intros ([q k] & [= -> ->] & Hin); by exists q, k|].
    intros (q & k & Hin & -> & ->). by exists (q, k).
  - rewrite <- list_fmap_compose. change (fst ∘ _) with (purpose_name ∘ @fst KeyPurpose PurposeKey).
    rewrite purpose_names. apply NoDup_fmap_2_strong; [|done]. intros ? ? _ _. apply purpose_name_inj.
Qed.

(** Material built over a session's transcript by keys in their own purposes, distinct from each
    other, with a conforming card signed by the agent-card key and a record that its reader reads
    back, is verified by the other side against that key's thumbprint, on the same transcript and
    certificate. *)
Lemma honest_material t issuer agent card l nb na g prof now rk nbt nat :
  Forall (fun pk => purpose pk.2 = pk.1) l -> NoDup l.*1 -> NoDup ((fun pk => thumbprint (public_key (signing pk.2))) <$> l) ->
  (Lifecycle.AgentCard, rk) ∈ l ->
  Profile.verify_card card (verifying rk) = Ok () -> Profile.conforming card prof ->
  parse_instant nb = Some nbt -> parse_instant na = Some nat -> (nbt <= now < nat)%Z ->
  Proposal.from_value (key_binding_json t issuer agent l nb na g) = Some (honest_set t issuer agent l nb na g) ->
  Dsse.schema_errors Dsse.KeyBindingV1 (key_binding_json t issuer agent l nb na g) = [] ->
  exists m, build_intro_material t issuer agent card l nb na g = Ok m /\
    verify_introduction (thumbprint (public_key (signing rk))) t (transcript_tls_of_signer t) m prof now
    = Ok (mkVerified (honest_set t issuer agent l nb na g) (jwk_fp (thumbprint (public_key (signing rk))))).
Proof.
  intros Hp Hn Htp Hrk Hcard Hconf Hnb Hna Hnow Hfv Hsc. set (kb := key_binding_json _ _ _ _ _ _ _) in *.
  unfold build_intro_material. fold kb. set (msg := signing_bytes _).
  assert (NoDup (purpose_name ∘ fst <$> l)) as Hnn.
  { rewrite purpose_names. apply NoDup_fmap_2_strong; [|done]. intros ? ? _ _. apply purpose_name_inj. }
  destruct (build_proofs_spec msg l ∅ Hp Hnn) as (ps & -> & Hin & Hout). cbn [mbind result_bind].
  eexists. split; [reflexivity|]. apply verify_introduction_Ok. unfold introduced. cbn [bindings root key_binding extended_card proofs].
  assert (forall k, to_key (from_key (public_key (signing k))) = Ok (public_key (signing k))) as Hkey.
  { intros k. apply to_key_from_key; [apply public_key_length|apply public_key_usable]. }
  split; [|split; [|split; [|split; [done|split; [|done]]]]].
  - split; [done|]. split; [done|]. split.
    + intros p e (q & k & _ & _ & ->)%honest_lookup; [|done]. split; [eexists; apply Hkey|]. split; [done|]. by exists nbt, nat.
    + intros p q e f (p' & k & Hk & -> & ->)%honest_lookup (q' & k' & Hk' & -> & ->)%honest_lookup He; [|done..]. cbn in He.
      apply list_elem_of_lookup in Hk as [i Hi], Hk' as [j Hj]. assert (i = j) as <-; [|congruence].
      apply (NoDup_lookup _ i j (thumbprint (public_key (signing k))) Htp); rewrite list_lookup_fmap;
        [by rewrite Hi|rewrite Hj; cbn; congruence].
  - apply bool_decide_true. done.
  - exists (honest_entry rk nb na g), (public_key (signing rk)). split; [apply honest_lookup; [done|]; by exists Lifecycle.AgentCard, rk|].
    split; [done|]. split; [apply Hkey|].
    rewrite Forall_forall in Hp. apply Hp in Hrk. cbn in Hrk. unfold verifying in Hcard. by rewrite Hrk in Hcard.
  - split.
    + intros p e (q & k & Hk & -> & ->)%honest_lookup; [|done]. eexists _, _, _. split; [apply Hkey|].
      split; [by apply Hin|]. split; [apply url_decode_encode|]. split; [apply sign_length|apply verify_sign].
    + intros p [v Hv]. destruct (decide (p ∈ (purpose_name ∘ fst <$> l))) as [Hi|Hi].
      * apply list_elem_of_fmap in Hi as ([q k] & -> & Hi). exists (honest_entry k nb na g). apply honest_lookup; [done|]. by exists q, k.
      * rewrite Hout in Hv by done. by rewrite lookup_empty in Hv.
Qed.

Lemma built_card t issuer agent card l nb na g m : build_intro_material t issuer agent card l nb na g = Ok m -> extended_card m = card.
Proof. unfold build_intro_material. destruct (build_proofs _ _ _); [|done]. cbn. by intros [= <-]. Qed.

Lemma purpose_of_name_of p : purpose_of_name (purpose_name p) = Some p.
Proof. by destruct p. Qed.

Lemma pinned_bindings_total l : (forall n e, (n, e) ∈ l -> exists p, n = purpose_name p) -> exists kb, pinned_bindings l = Ok kb.
Proof.
  induction l as [|[n e] l IH]; intros H; [by eexists|]. destruct (H n e) as [p ->]; [left|].
  destruct IH as [kb E]; [intros n' e' ?; eapply H; by right|]. cbn [pinned_bindings].
  rewrite purpose_of_name_of. cbn [ok_or mbind result_bind]. rewrite E. by eexists.
Qed.

(** What is pinned of an honest endpoint: its subject, its certificate and its root. *)
Lemma honest_identity {TV : Proposal.ToValue KeyBindingSet} t issuer agent l nb na g card rk payload :
  NoDup l.*1 -> (Lifecycle.AgentCard, rk) ∈ l -> Profile.canonical_payload card = Some payload ->
  exists identity, peer_identity_from (honest_set t issuer agent l nb na g) card = Ok identity /\
    Lifecycle.p_issuer identity = Some issuer /\ Lifecycle.agent_id identity = agent /\
    Lifecycle.fp_value (Lifecycle.tls_cert identity) = transcript_tls_of_signer t /\
    Lifecycle.fp_value (Lifecycle.agent_card_key identity) = thumbprint (public_key (signing rk)).
Proof.
  intros Hn Hrk Hc. unfold Profile.canonical_payload in Hc. unfold peer_identity_from.
  destruct (Profile.card_value card) as [cv|]; [|done]. cbn [ok_or mbind result_bind].
  destruct (pinned_bindings_total (entries (keys (honest_set t issuer agent l nb na g)))) as [kb ->].
  { intros n e (q & k & _ & -> & _)%elem_of_entries%honest_lookup; [by exists q|done]. }
  cbn [mbind result_bind]. eexists. split; [reflexivity|]. cbn [Lifecycle.p_issuer Lifecycle.agent_id Lifecycle.tls_cert Lifecycle.agent_card_key].
  split_and!; [done|done|done|].
  assert (keys (honest_set t issuer agent l nb na g) !! "agent-card" = Some (honest_entry rk nb na g)) as ->; [|done].
  apply honest_lookup; [done|]. by exists Lifecycle.AgentCard, rk.
Qed.
End introduction.

(** ** Witnesses *)

#[local] Instance sample_hashes : Hashes := ToyHashes.
#[local] Instance sample_hex : Hex := ToyHex.
#[local] Instance sample_ed : Ed25519 := ToyEd25519.
#[local] Instance sample_url : Base64Url := ToyBase64Url.
#[local] Instance sample_jwk : JwkText := ToyJwkText.
#[local] Instance sample_header : Codec ProtectedHeader := ToyCodec ProtectedHeader.
#[local] Instance sample_schemas : Dsse.Schemas := ToySchemas.
#[local] Instance sample_canon : Canon Json := ToyCanon Json.
#[local] Instance sample_card_json : Profile.CardJson := {| Profile.card_value := fun _ => Some (JStr "card") |}.
#[local] Instance sample_instants : Instants :=
  {| parse_instant := fun s => if decide (s = "0") then Some 0%Z else Some 9%Z |}.

Definition sample_root : PurposeKey := from_seed Lifecycle.AgentCard (as_bytes "root").
Definition sample_keys : list (KeyPurpose * PurposeKey) := [(Lifecycle.AgentCard, sample_root)].

Definition sample_transcript : IntroTranscript := mkTranscript 1 1 Responder "dr" "rr" "dt" "rt" "ex" "no" "".

#[local] Instance sample_from_set : Proposal.FromValue KeyBindingSet :=
  {| Proposal.from_value := fun _ => Some (honest_set sample_transcript "iss" "bob" sample_keys "0" "9" 0) |}.

Definition sample_profile : Profile.ProfileConfig := Profile.mkProfile ["https://x/e"].

Definition sample_card : Profile.AgentCard :=
  let base := Profile.mkAgentCard [Profile.mkInterface "https://h/a2a" "HTTP+JSON" "1.0"]
    (Some (Profile.mkCapabilities (Some false) (Some false) (Some true) [Profile.mkExtension "https://x/e" true]))
    {[ "mtls" := Profile.MtlsSecurityScheme ]} [["mtls"]] [] JNull in
  let sigs := match Profile.sign_card base sample_root with Ok s => [s] | Err _ => [] end in
  Profile.mkAgentCard (Profile.supported_interfaces base) (Profile.capabilities base) (Profile.security_schemes base)
    (Profile.security_requirements base) sigs JNull.

Lemma sample_card_conforms : Profile.conforming sample_card sample_profile.
Proof. apply Profile.validate_agent_card_Ok. vm_compute. reflexivity. Qed.

Lemma sample_card_verifies : Profile.verify_card sample_card (verifying sample_root) = Ok ().
Proof. vm_compute. reflexivity. Qed.

Definition sample_material : IntroMaterial :=
  match build_intro_material sample_transcript "iss" "bob" sample_card sample_keys "0" "9" 0 with
  | Ok m => m | Err _ => mkMaterial JNull sample_card ∅ end.

Definition sample_verified : VerifiedIntroduction :=
  mkVerified (honest_set sample_transcript "iss" "bob" sample_keys "0" "9" 0)
    (jwk_fp (thumbprint (public_key (signing sample_root)))).

Lemma sample_verified_eq :
  verify_introduction (thumbprint (public_key (signing sample_root))) sample_transcript "rt" sample_material sample_profile 5
  = Ok sample_verified.
Proof. vm_compute. reflexivity. Qed.

Lemma introduction_is_root_witness :
  root sample_verified = jwk_fp (thumbprint (public_key (signing sample_root))) /\
  Profile.conforming sample_card sample_profile.
Proof.
  destruct (introduction_is_root _ _ _ _ _ _ _ sample_verified_eq) as (H1 & H2 & _). exact (conj H1 H2).
Defined.

Lemma sample_canon_transcript t t' b :
  to_canon (JObj (transcript_json t)) = Some b -> to_canon (JObj (transcript_json t')) = Some b ->
  transcript_json t = transcript_json t'.
Proof.
  intros H H'. assert (put (JObj (transcript_json t)) = put (JObj (transcript_json t'))) as Hp.
  { cbn [to_canon sample_canon ToyCanon] in H, H'. congruence. }
  pose proof (get_put (JObj (transcript_json t)) []) as H1. rewrite Hp, get_put in H1.
  apply (f_equal (fun o => match o with Some (JObj l, _) => l | _ => [] end)) in H1. exact (eq_sym H1).
Qed.

Definition sample_proof : string := default "" (proofs sample_material !! "agent-card").

Lemma proofs_session_bound_witness :
  bind_record sample_transcript (key_binding_digest_hex (key_binding sample_material))
  = bind_record sample_transcript (key_binding_digest_hex (key_binding sample_material)) \/
  exists a b sig, a <> b /\ verify_strict (public_key (signing sample_root)) a sig = true /\
    verify_strict (public_key (signing sample_root)) b sig = true.
Proof.
  apply (proofs_session_bound sample_canon_transcript (fun t => mk_is_Some _ _ eq_refl) _ _ _ _ _ _ _ _ _ _ _ _ _ _
    "agent-card" "agent-card" (honest_entry sample_root "0" "9" 0) (honest_entry sample_root "0" "9" 0)
    (public_key (signing sample_root)) sample_proof sample_verified_eq sample_verified_eq);
    vm_compute; reflexivity.
Defined.
End Introduction.
