(* ===== verification/Evidence.v ===== *)
(** Evidence (akson-evidence/src): the result manifest (result_manifest.rs), the required
    slots (slots.rs), the requester's outcome (outcome.rs), in-toto statements (intoto.rs)
    and the SARIF reader (sarif.rs).

    serde's derived conversions, the schema validator and [serde_json::from_slice] are
    parameters. *)
From S2P Require Import Prelude Text Crypto Sign Lifecycle Keys Json IJson Dsse Toy Contract Proposal.
From S2P Require Import Profile Introduction.

Module Evidence.
Import Contract (Identity, Identity_eq_dec).
Import Keys Json.
Import Proposal (ToValue, FromValue, to_value, from_value, of_value, lift_err, hex_digest, canonical_bytes).

(** [serde_json::from_slice::<Value>]. *)
Class FromSlice := { from_slice : bytes -> option Json }.

(** ** Orders and sorting *)

(** [slice::sort_by] of a comparison: stable. *)
Section sorting.
Context {A K : Type} (le : relation K) `{!RelDecision le} (key : A -> K).

Fixpoint insert_by (x : A) (l : list A) : list A :=
  match l with
  | [] => [x]
  | y :: l => if decide (le (key x) (key y)) then x :: y :: l else y :: insert_by x l
  end.

Definition sort_by (l : list A) : list A := foldr insert_by [] l.

(** [slice::is_sorted_by]. *)
Fixpoint is_sorted_by (l : list A) : bool :=
  match l with
  | [] => true
  | a :: r => match r with [] => true | b :: _ => bool_decide (le (key a) (key b)) && is_sorted_by r end
  end.
End sorting.

(** The order of tuples. *)
Definition pair_le {A B} (RA : relation A) (RB : relation B) : relation (A * B) :=
  fun x y => RA x.1 y.1 /\ (x.1 = y.1 -> RB x.2 y.2).

#[global] Instance pair_le_dec {A B} (RA : relation A) (RB : relation B) `{!EqDecision A, !RelDecision RA, !RelDecision RB} :
  RelDecision (pair_le RA RB).
Proof. intros x y. unfold pair_le. apply _. Defined.

(** ** The result manifest *)

Record ManifestHeader := mkHeader {
  h_task_id : string;
  h_context_id : string;
  h_contract_id : string;
  h_contract_revision : Z;
  h_contract_digest : string;
  attempt_digest : string;
  work_order_receipt_digest : string;
}.

Record OutputEntry := mkOutput {
  o_role : string; artifact_id : string; part_index : Z; o_media_type : string; o_byte_length : Z; o_sha256 : string }.

Record EvidenceEntry := mkEvidence {
  ev_role : string; ev_payload_type : string; ev_byte_length : Z; ev_sha256 : string; signer_keyid : string }.

Inductive SlotResult := Passed | Failed | Error | NotRun | Unavailable.
Inductive Disclosure := Full | Summary | Redacted.

Record SlotRecord := mkSlot {
  slot_id : string; evidence_role : option string; sl_result : SlotResult; disclosure : Disclosure }.

Record Omission := mkOmission { om_subject : string; om_reason_code : string }.

Record ResultManifest := mkManifest {
  m_schema_version : Z;
  header : ManifestHeader;
  outputs : list OutputEntry;
  evidence : list EvidenceEntry;
  slots : list SlotRecord;
  omissions : list Omission;
}.

#[global] Instance SlotResult_eq_dec : EqDecision SlotResult.
Proof. solve_decision. Defined.
#[global] Instance Disclosure_eq_dec : EqDecision Disclosure.
Proof. solve_decision. Defined.

Inductive ManifestError :=
| MSchema (e : Dsse.SchemaError) | MJcs | MSerde | MDsse (e : Dsse.DsseError) | MKey (e : KeyError)
| WrongPayloadType (got : string) | NotCanonicalOrder.

Definition output_key (o : OutputEntry) : string * (string * (Z * string)) :=
  (o_role o, (artifact_id o, (part_index o, o_sha256 o))).
Definition output_le : relation (string * (string * (Z * string))) := pair_le text_le (pair_le text_le (pair_le Z.le text_le)).

Definition evidence_key (e : EvidenceEntry) : string * (string * string) := (ev_role e, (ev_payload_type e, ev_sha256 e)).
Definition evidence_le : relation (string * (string * string)) := pair_le text_le (pair_le text_le text_le).

Definition omission_key (o : Omission) : string * string := (om_subject o, om_reason_code o).
Definition omission_le : relation (string * string) := pair_le text_le text_le.

Definition assemble (header : ManifestHeader) (outputs : list OutputEntry) (evidence : list EvidenceEntry)
  (slots : list SlotRecord) (omissions : list Omission) : ResultManifest :=
  mkManifest 1 header (sort_by output_le output_key outputs) (sort_by evidence_le evidence_key evidence)
    (sort_by text_le slot_id slots) (sort_by omission_le omission_key omissions).

Definition is_canonically_ordered (m : ResultManifest) : bool :=
  is_sorted_by output_le output_key (outputs m) && is_sorted_by evidence_le evidence_key (evidence m) &&
  is_sorted_by text_le slot_id (slots m) && is_sorted_by omission_le omission_key (omissions m).

Section manifest.
Context {HS : Hashes} {HX : Hex} {ED : Ed25519} {B64 : Base64} {BU : Base64Url} {BV : Dsse.Base64Variants} {JT : JwkText}
  {CN : Canon Json} {SV : Dsse.Schemas} {FS : FromSlice} {TV : ToValue ResultManifest}.

(** [ResultManifest::validate]. *)
Definition manifest_validate (m : ResultManifest) : result ManifestError () :=
  _ ← lift_err MSchema (Dsse.validate Dsse.ResultManifestV1 (to_value m));
  if negb (is_canonically_ordered m) then Err NotCanonicalOrder else Ok ().

(** [ResultManifest::canonical_bytes]. *)
Definition manifest_bytes (m : ResultManifest) : result ManifestError bytes :=
  _ ← manifest_validate m; ok_or (canonical_bytes (to_value m)) MJcs.

Definition bundle_digest (m : ResultManifest) : result ManifestError string :=
  b ← manifest_bytes m; Ok (hex_digest b).

(** [ResultManifest::sign]. *)
Definition sign_manifest (m : ResultManifest) (key : PurposeKey) : result ManifestError Dsse.Envelope :=
  payload ← manifest_bytes m;
  lift_err MKey (sign_with key Lifecycle.TaskResult (Dsse.sign (Dsse.schema_media_type Dsse.ResultManifestV1) payload)).

(** [ResultManifest::verify]. *)
Definition verify_manifest (env : Dsse.Envelope) (key : PurposeVerifyingKey) : result ManifestError (ResultManifest * string) :=
  let payload_type := Dsse.schema_media_type Dsse.ResultManifestV1 in
  if decide (Dsse.payload_type env <> payload_type) then Err (WrongPayloadType (Dsse.payload_type env)) else
  vk ← lift_err MKey (key_for key Lifecycle.TaskResult);
  payload ← lift_err MDsse (Dsse.verify env payload_type vk);
  value ← ok_or (from_slice payload) MSerde;
  _ ← lift_err MSchema (Dsse.validate Dsse.ResultManifestV1 value);
  canonical ← ok_or (canonical_bytes value) MJcs;
  if decide (canonical <> payload) then Err (WrongPayloadType Dsse.DSSE_ENVELOPE_MEDIA_TYPE) else
  manifest ← ok_or (from_value value) MSerde;
  _ ← manifest_validate manifest;
  Ok (manifest, hex_digest payload).
End manifest.

(** ** Required slots *)

Record RequiredSlot := mkRequired { rq_slot_id : string; required_result : SlotResult; require_full_disclosure : bool }.

Inductive SlotError :=
| Missing (id : string)
| ResultMismatch (id : string) (want got : SlotResult)
| RedactedSlot (id : string) (got : Disclosure)
| MissingEvidenceRole (id : string).

(** The records whose result calls for evidence. *)
Definition conclusive (s : SlotRecord) : bool :=
  match sl_result s with Passed | Failed | Error => true | NotRun | Unavailable => false end.

Fixpoint check_roles (provided : list SlotRecord) : result SlotError () :=
  match provided with
  | [] => Ok ()
  | slot :: provided =>
      if conclusive slot && bool_decide (evidence_role slot = None) then Err (MissingEvidenceRole (slot_id slot))
      else check_roles provided
  end.

Fixpoint check_required (required : list RequiredSlot) (provided : list SlotRecord) : result SlotError () :=
  match required with
  | [] => Ok ()
  | req :: required =>
      match List.find (fun s => bool_decide (slot_id s = rq_slot_id req)) provided with
      | None => Err (Missing (rq_slot_id req))
      | Some got =>
          if decide (sl_result got <> required_result req)
          then Err (ResultMismatch (rq_slot_id req) (required_result req) (sl_result got)) else
          if require_full_disclosure req && bool_decide (disclosure got <> Full)
          then Err (RedactedSlot (rq_slot_id req) (disclosure got)) else
          check_required required provided
      end
  end.

Definition check_slots (required : list RequiredSlot) (provided : list SlotRecord) : result SlotError () :=
  _ ← check_roles provided; check_required required provided.

(** ** The requester's outcome *)

Inductive OutcomeState := Accepted | Rejected | Disputed.

Record Outcome := mkOutcome {
  oc_schema_version : Z;
  oc_task_id : string;
  oc_context_id : string;
  oc_contract_id : string;
  oc_contract_revision : Z;
  oc_contract_digest : string;
  result_manifest_digest : string;
  oc_state : OutcomeState;
  oc_reason_code : option string;
  oc_note : option string;
  oc_requester : Identity;
  oc_signed_at : string;
}.

Inductive OutcomeError :=
| OSchema (e : Dsse.SchemaError) | OJcs | OSerde | ODsse (e : Dsse.DsseError) | OKey (e : KeyError) | OManifest (e : ManifestError)
| OWrongPayloadType (got : string) | Binding (what : string).

(** [Receipt]. *)
Record FixedReceipt := mkReceipt { received : bool; rc_context_id : string; reference_task_id : string; rc_outcome_digest : string }.

Section outcome.
Context {HS : Hashes} {HX : Hex} {ED : Ed25519} {B64 : Base64} {BU : Base64Url} {BV : Dsse.Base64Variants} {JT : JwkText}
  {CN : Canon Json} {SV : Dsse.Schemas} {FS : FromSlice} {TM : ToValue ResultManifest} {TO : ToValue Outcome}.

Definition for_manifest (m : ResultManifest) (state : OutcomeState) (requester : Identity) (signed_at : string) :
  result OutcomeError Outcome :=
  digest ← lift_err OManifest (bundle_digest m);
  let h := header m in
  Ok (mkOutcome 1 (h_task_id h) (h_context_id h) (h_contract_id h) (h_contract_revision h) (h_contract_digest h) digest
        state None None requester signed_at).

(** [Outcome::validate]. *)
Definition outcome_validate (o : Outcome) : result OutcomeError () :=
  lift_err OSchema (Dsse.validate Dsse.OutcomeV1 (to_value o)).

(** [Outcome::canonical_bytes]. *)
Definition outcome_bytes (o : Outcome) : result OutcomeError bytes :=
  _ ← outcome_validate o; ok_or (canonical_bytes (to_value o)) OJcs.

(** [Outcome::digest]. *)
Definition outcome_digest (o : Outcome) : result OutcomeError string := b ← outcome_bytes o; Ok (hex_digest b).

(** [Outcome::check_binds_to]. *)
Definition outcome_binds_to (o : Outcome) (m : ResultManifest) : result OutcomeError () :=
  digest ← lift_err OManifest (bundle_digest m);
  if decide (result_manifest_digest o <> digest) then Err (Binding "result-manifest digest") else
  let h := header m in
  if decide (oc_task_id o <> h_task_id h \/ oc_context_id o <> h_context_id h \/ oc_contract_id o <> h_contract_id h \/
             oc_contract_revision o <> h_contract_revision h \/ oc_contract_digest o <> h_contract_digest h)
  then Err (Binding "contract binding") else Ok ().

(** [Outcome::sign]. *)
Definition sign_outcome (o : Outcome) (key : PurposeKey) : result OutcomeError Dsse.Envelope :=
  payload ← outcome_bytes o;
  lift_err OKey (sign_with key Lifecycle.RequesterOutcome (Dsse.sign (Dsse.schema_media_type Dsse.OutcomeV1) payload)).

(** [Outcome::verify]. *)
Definition verify_outcome (env : Dsse.Envelope) (key : PurposeVerifyingKey) : result OutcomeError Outcome :=
  let payload_type := Dsse.schema_media_type Dsse.OutcomeV1 in
  if decide (Dsse.payload_type env <> payload_type) then Err (OWrongPayloadType (Dsse.payload_type env)) else
  vk ← lift_err OKey (key_for key Lifecycle.RequesterOutcome);
  payload ← lift_err ODsse (Dsse.verify env payload_type vk);
  value ← ok_or (from_slice payload) OSerde;
  _ ← lift_err OSchema (Dsse.validate Dsse.OutcomeV1 value);
  canonical ← ok_or (canonical_bytes value) OJcs;
  if decide (canonical <> payload) then Err (Binding "payload is not canonical") else
  ok_or (from_value value) OSerde.

Definition fixed_receipt (o : Outcome) : result OutcomeError FixedReceipt :=
  d ← outcome_digest o; Ok (mkReceipt true (oc_context_id o) (oc_task_id o) d).
End outcome.

(** ** In-toto statements *)

Definition STATEMENT_TYPE_V1 : string := "https://in-toto.io/Statement/v1".
Definition INTOTO_PAYLOAD_TYPE : string := "application/vnd.in-toto+json".
Definition PREDICATE_EXECUTION_V1 : string := "https://akson.invalid/attestation/execution/v1".

(** A subject with its [DigestSet]. *)
Record Subject := mkSubject { sub_name : string; sub_sha256 : string }.

Record Statement := mkStatement {
  st_type : string; st_subject : list Subject; predicate_type : string; predicate : Json }.

Inductive StatementError :=
| SJcs | SSerde | SDsse (e : Dsse.DsseError) | SKey (e : KeyError) | SWrongPayloadType (got : string) | Invalid (what : string).

(** [Subject::from_output]; [format!] of an unsigned index. *)
Definition from_output (o : OutputEntry) : Subject :=
  mkSubject (o_role o +:+ "/" +:+ artifact_id o +:+ "#" +:+ to_string (Z.to_N (part_index o))) (o_sha256 o).

(** [Statement::new]. *)
Definition statement_new (subjects : list Subject) (predicate_type : string) (predicate : Json) : Statement :=
  mkStatement STATEMENT_TYPE_V1 subjects predicate_type predicate.

Definition execution_over (outputs : list OutputEntry) (predicate : Json) : Statement :=
  statement_new (from_output <$> outputs) PREDICATE_EXECUTION_V1 predicate.

Definition hexdigit (b : byte) : bool := Profile.in_bytes 48 57 b || Profile.in_bytes 97 102 b || Profile.in_bytes 65 70 b.

(** [Statement::validate]. *)
Definition statement_validate (s : Statement) : result StatementError () :=
  if decide (st_type s <> STATEMENT_TYPE_V1) then Err (Invalid "_type is not Statement v1") else
  if decide (st_subject s = []) then Err (Invalid "no subjects") else
  if existsb (fun s => negb (bool_decide (String.length (sub_sha256 s) = 64)) || negb (forallb hexdigit (as_bytes (sub_sha256 s))))
       (st_subject s)
  then Err (Invalid "subject digest is not sha256 hex") else
  if decide (predicate_type s = "") then Err (Invalid "empty predicateType") else Ok ().

Definition subject_digests (s : Statement) : gmap string string :=
  foldl (fun m s => <[sub_name s := sub_sha256 s]> m) ∅ (st_subject s).

Section statement.
Context {HS : Hashes} {HX : Hex} {ED : Ed25519} {B64 : Base64} {BU : Base64Url} {BV : Dsse.Base64Variants} {JT : JwkText}
  {CN : Canon Json} {FS : FromSlice} {TV : ToValue Statement}.

(** [Statement::canonical_bytes]. *)
Definition statement_bytes (s : Statement) : result StatementError bytes :=
  _ ← statement_validate s; ok_or (canonical_bytes (to_value s)) SJcs.

(** [Statement::sign]. *)
Definition sign_statement (s : Statement) (key : PurposeKey) : result StatementError Dsse.Envelope :=
  payload ← statement_bytes s;
  lift_err SKey (sign_with key Lifecycle.Evidence (Dsse.sign INTOTO_PAYLOAD_TYPE payload)).

(** [Statement::verify]. *)
Definition verify_statement (env : Dsse.Envelope) (key : PurposeVerifyingKey) : result StatementError Statement :=
  if decide (Dsse.payload_type env <> INTOTO_PAYLOAD_TYPE) then Err (SWrongPayloadType (Dsse.payload_type env)) else
  vk ← lift_err SKey (key_for key Lifecycle.Evidence);
  payload ← lift_err SDsse (Dsse.verify env INTOTO_PAYLOAD_TYPE vk);
  value ← ok_or (from_slice payload) SSerde;
  canonical ← ok_or (canonical_bytes value) SJcs;
  if decide (canonical <> payload) then Err (Invalid "payload is not canonical") else
  s ← ok_or (from_value value) SSerde;
  _ ← statement_validate s;
  Ok s.
End statement.

(** ** SARIF reports *)

Record SarifLimits := mkLimits { max_bytes : Z; max_depth : nat; max_findings : nat; max_message_len : nat }.

(** [SarifLimits::default]. *)
Definition sarif_default : SarifLimits := mkLimits 4194304 64 (N.to_nat 4096) 1024.

Inductive SarifLevel := LError | LWarning | LNote | LNone.

(** [SarifLevel::parse]. *)
Definition level_parse (s : option string) : SarifLevel :=
  match s with
  | None => LWarning
  | Some s => if decide (s = "error") then LError else if decide (s = "warning") then LWarning else
              if decide (s = "note") then LNote else LNone
  end.

Record SarifFinding := mkFinding { rule_id : string; level : SarifLevel; message : string }.

Record SarifReport := mkReport {
  sr_digest : string; sr_byte_length : nat; tool_name : string; findings : list SarifFinding; truncated_findings : nat }.

Inductive SarifError := TooLarge (actual limit : Z) | SIJson (e : IJson.IJsonError) | NotSarif (what : string).

Definition nearest_char_boundary (s : bytes) (max : nat) : nat := Dsse.boundary_below s (Nat.min max (length s)).

(** One result of a run. *)
Definition read_finding (limits : SarifLimits) (r : Json) : SarifFinding :=
  let rule_id := default "" (v ← Introduction.member "ruleId" r; Introduction.as_str v) in
  let level := level_parse (v ← Introduction.member "level" r; Introduction.as_str v) in
  let message := default "" (m ← Introduction.member "message" r; t ← Introduction.member "text" m; Introduction.as_str t) in
  let message := if decide (max_message_len limits < String.length message)
                 then from_utf8 (take (nearest_char_boundary (as_bytes message) (max_message_len limits)) (as_bytes message))
                 else message in
  mkFinding rule_id level message.

(** The loop over the results: the findings so far and the count of the others. *)
Fixpoint read_results (limits : SarifLimits) (results : list Json) (findings : list SarifFinding) (truncated : nat) :
  list SarifFinding * nat :=
  match results with
  | [] => (findings, truncated)
  | r :: results =>
      if decide (max_findings limits <= length findings) then read_results limits results findings (S truncated)
      else read_results limits results (findings ++ [read_finding limits r]) truncated
  end.

Definition run_results (run : Json) : list Json := default [] (v ← Introduction.member "results" run; Introduction.as_array v).

Definition parse_sarif {HS : Hashes} {HX : Hex} {SX : IJson.JsonSyntax} (b : bytes) (limits : SarifLimits) :
  result SarifError SarifReport :=
  if (max_bytes limits <? Z.of_nat (length b))%Z then Err (TooLarge (Z.of_nat (length b)) (max_bytes limits)) else
  value ← lift_err SIJson (IJson.parse_with_limits b (max_bytes limits) (max_depth limits));
  match value with
  | JObj _ =>
      if decide ((v ← Introduction.member "version" value; Introduction.as_str v) <> Some "2.1.0")
      then Err (NotSarif "version is not 2.1.0") else
      runs ← ok_or (v ← Introduction.member "runs" value; Introduction.as_array v) (NotSarif "runs is not an array");
      first_run ← ok_or (head runs) (NotSarif "no runs");
      tool_name ← ok_or (t ← Introduction.member "tool" first_run; d ← Introduction.member "driver" t;
                         n ← Introduction.member "name" d; Introduction.as_str n) (NotSarif "missing tool.driver.name");
      let '(findings, truncated) := read_results limits (runs ≫= run_results) [] 0 in
      Ok (mkReport (hex_digest b) (length b) tool_name findings truncated)
  | _ => Err (NotSarif "top level is not an object")
  end.

(** ** Facts about sorting *)

#[global] Instance pair_le_trans {A B} (RA : relation A) (RB : relation B) `{!AntiSymm (=) RA, !Transitive RA, !Transitive RB} :
  Transitive (pair_le RA RB).
Proof.
  intros x y z [H1 H2] [H3 H4]. split; [by etrans|]. intros E.
  assert (x.1 = y.1) as E1 by (apply (anti_symm RA); [done|by rewrite E]). etrans; [by apply H2|apply H4]. congruence.
Qed.

#[global] Instance pair_le_total {A B} (RA : relation A) (RB : relation B) `{!EqDecision A, !Total RA, !Total RB} :
  Total (pair_le RA RB).
Proof.
  intros x y. unfold pair_le. destruct (decide (x.1 = y.1)) as [E|E].
  - assert (RA x.1 y.1 /\ RA y.1 x.1) as [? ?] by (rewrite E; split; by destruct (total RA y.1 y.1)).
    destruct (total RB x.2 y.2); [left|right]; by split.
  - destruct (total RA x.1 y.1); [left|right]; (split; [done|congruence]).
Qed.

#[global] Instance pair_le_antisymm {A B} (RA : relation A) (RB : relation B) `{!AntiSymm (=) RA, !AntiSymm (=) RB} :
  AntiSymm (=) (pair_le RA RB).
Proof.
  intros [a b] [a' b'] [H1 H2] [H3 H4]; cbn in *. assert (a = a') as -> by by apply (anti_symm RA).
  f_equal. apply (anti_symm RB); auto.
Qed.

Section sorted.
Context {A K : Type} (le : relation K) `{!RelDecision le, !Total le, !Transitive le} (key : A -> K).
#[local] Notation by_key := (fun x y => le (key x) (key y)).

Lemma insert_by_perm x l : insert_by le key x l ≡ₚ x :: l.
Proof. induction l as [|y l IH]; cbn [insert_by]; [done|]. destruct (decide _); [done|]. rewrite IH. apply Permutation_swap. Qed.

Lemma sort_by_perm l : sort_by le key l ≡ₚ l.
Proof. induction l as [|x l IH]; cbn [sort_by foldr]; [done|]. rewrite insert_by_perm. by rewrite IH. Qed.

Lemma insert_by_sorted x l : StronglySorted by_key l -> StronglySorted by_key (insert_by le key x l).
Proof.
  induction 1 as [|y l Hl IH Hy]; cbn [insert_by]; [by repeat constructor|].
  destruct (decide (le (key x) (key y))) as [Hxy|Hxy].
  - constructor; [by constructor|]. constructor; [done|]. eapply Forall_impl; [exact Hy|]. intros z Hz. by etrans.
  - constructor; [done|]. rewrite insert_by_perm. constructor; [|done]. by destruct (total le (key x) (key y)).
Qed.

Lemma sort_by_sorted l : StronglySorted by_key (sort_by le key l).
Proof. induction l as [|x l IH]; [constructor|]. by apply insert_by_sorted. Qed.

Lemma is_sorted_by_true l : is_sorted_by le key l = true <-> StronglySorted by_key l.
Proof.
  split.
  - intros H. apply Sorted_StronglySorted; [intros x y z ? ?; by etrans|].
    induction l as [|a [|b r] IH]; [constructor|by repeat constructor|]. cbn [is_sorted_by] in H.
    apply andb_prop in H as [H1%bool_decide_eq_true H2]. constructor; [by apply IH|by constructor].
  - induction 1 as [|a [|b r] Hs IH Ha]; [done|done|].
    change (bool_decide (le (key a) (key b)) && is_sorted_by le key (b :: r) = true). rewrite bool_decide_true, IH; [done|].
    by apply Forall_cons in Ha as [? _].
Qed.

(** Entries of one key keep their order. *)
Lemma insert_by_stable `{!EqDecision K} x l k :
  List.filter (fun a => bool_decide (key a = k)) (insert_by le key x l)
  = List.filter (fun a => bool_decide (key a = k)) (x :: l).
Proof.
  induction l as [|y l IH]; [done|]. cbn [insert_by]. destruct (decide (le (key x) (key y))) as [|Hn]; [done|].
  cbn [List.filter] in *. rewrite IH. destruct (bool_decide (key x = k)) eqn:Ex, (bool_decide (key y = k)) eqn:Ey; try done.
  apply bool_decide_eq_true in Ex, Ey. destruct Hn. rewrite Ex, Ey. by destruct (total le k k).
Qed.

Lemma sort_by_stable `{!EqDecision K} l k :
  List.filter (fun a => bool_decide (key a = k)) (sort_by le key l) = List.filter (fun a => bool_decide (key a = k)) l.
Proof.
  induction l as [|x l IH]; [done|]. cbn [sort_by foldr]. rewrite insert_by_stable. cbn [List.filter].
  change (foldr (insert_by le key) [] l) with (sort_by le key l). by rewrite IH.
Qed.

(** With distinct keys the order of the input does not matter. *)
Lemma sort_by_det `{!AntiSymm (=) le} l l' : NoDup (key <$> l) -> l ≡ₚ l' -> sort_by le key l = sort_by le key l'.
Proof.
  intros Hd Hp. apply (StronglySorted_unique_strong by_key); [|apply sort_by_sorted..|].
  - intros x y Hx Hy H1 H2. rewrite sort_by_perm in Hx, Hy. rewrite <- Hp in Hy.
    assert (key x = key y) as E by by apply (anti_symm le).
    apply list_elem_of_lookup in Hx as [i Hi], Hy as [j Hj].
    assert (i = j) as <-; [|congruence]. apply (NoDup_lookup _ i j (key x) Hd); rewrite list_lookup_fmap; [by rewrite Hi|].
    by rewrite Hj, E.
  - by rewrite !sort_by_perm.
Qed.
End sorted.

(** ** The manifest *)

Definition distinct_entries (o : list OutputEntry) (e : list EvidenceEntry) (s : list SlotRecord) (om : list Omission) : Prop :=
  NoDup (output_key <$> o) /\ NoDup (evidence_key <$> e) /\ NoDup (slot_id <$> s) /\ NoDup (omission_key <$> om).

Lemma assemble_ordered h o e s om : is_canonically_ordered (assemble h o e s om) = true.
Proof.
  unfold is_canonically_ordered, assemble. cbn [outputs evidence slots omissions].
  rewrite !andb_true_iff, !is_sorted_by_true by apply _. repeat split; apply sort_by_sorted; apply _.
Qed.

(** Assembling a manifest puts every array in the normative order, keeps
    exactly the given entries, and, where no two entries share their ordering key, does not
    depend on the order they were given in. *)
Theorem assembly_canonical h o e s om o' e' s' om' :
  distinct_entries o e s om -> o ≡ₚ o' -> e ≡ₚ e' -> s ≡ₚ s' -> om ≡ₚ om' ->
  is_canonically_ordered (assemble h o e s om) = true /\
  outputs (assemble h o e s om) ≡ₚ o /\ evidence (assemble h o e s om) ≡ₚ e /\
  slots (assemble h o e s om) ≡ₚ s /\ omissions (assemble h o e s om) ≡ₚ om /\
  assemble h o e s om = assemble h o' e' s' om'.
Proof.
  intros (Ho & He & Hs & Hom) Po Pe Ps Pom. split; [apply assemble_ordered|].
  do 4 (split; [apply sort_by_perm|]). unfold assemble. f_equal; apply sort_by_det; (done || apply _).
Qed.

(** Two entries that tie on the ordering key keep the order they were given
    in, so assembling the same evidence in another order gives another manifest. *)
Theorem assembly_keeps_ties h (e e' : EvidenceEntry) :
  evidence_key e = evidence_key e' -> e <> e' ->
  assemble h [] [e; e'] [] [] <> assemble h [] [e'; e] [] [].
Proof.
  intros Hk Hne H. apply (f_equal evidence) in H. cbn [assemble evidence] in H.
  unfold sort_by in H. cbn [foldr insert_by] in H.
  assert (evidence_le (evidence_key e') (evidence_key e')) as Hr by by destruct (total evidence_le (evidence_key e') (evidence_key e')).
  rewrite Hk, !decide_True in H by done. congruence.
Qed.

Section facts.
Context {HS : Hashes} {HX : Hex} {ED : Ed25519} {B64 : Base64} {BU : Base64Url} {BV : Dsse.Base64Variants} {JT : JwkText}
  {CN : Canon Json} {SV : Dsse.Schemas} {FS : FromSlice} {TM : ToValue ResultManifest} {TO : ToValue Outcome} {TS : ToValue Statement}.

Lemma manifest_bytes_Ok m b : manifest_bytes m = Ok b <->
  Dsse.schema_errors Dsse.ResultManifestV1 (to_value m) = [] /\ is_canonically_ordered m = true /\
  canonical_bytes (to_value m) = Some b.
Proof.
  unfold manifest_bytes, manifest_validate. rewrite <- Proposal.validate_Ok.
  destruct (Dsse.validate _ _) as [[]|]; cbn [lift_err mbind result_bind]; [|naive_solver].
  destruct (is_canonically_ordered m); cbn [negb]; [|naive_solver]. cbn [mbind result_bind]. rewrite ok_or_Ok. naive_solver.
Qed.

Lemma bundle_digest_Ok m d : bundle_digest m = Ok d <-> exists b, manifest_bytes m = Ok b /\ d = hex_digest b.
Proof. unfold bundle_digest. destruct (manifest_bytes m) as [b|]; cbn [mbind result_bind]; naive_solver. Qed.

(** What a verified manifest envelope is. *)
Definition manifest_of (env : Dsse.Envelope) (key : PurposeVerifyingKey) (m : ResultManifest) (d : string) : Prop :=
  v_purpose key = Lifecycle.TaskResult /\ exists p v,
    Dsse.env_valid env (Dsse.schema_media_type Dsse.ResultManifestV1) (v_verifying key) p /\
    from_slice p = Some v /\ Dsse.schema_errors Dsse.ResultManifestV1 v = [] /\ canonical_bytes v = Some p /\
    from_value v = Some m /\ is_ok (manifest_validate m) = true /\ d = hex_digest p.

Lemma verify_manifest_Ok env key m d : verify_manifest env key = Ok (m, d) <-> manifest_of env key m d.
Proof.
  unfold verify_manifest, manifest_of. split.
  - destruct (decide _); [done|]. destruct (key_for key _) as [vk|] eqn:Ek; [|done]. cbn [lift_err mbind result_bind].
    apply Proposal.key_for_Ok in Ek as [Hp ->]. destruct (Dsse.verify env _ _) as [p|] eqn:Ev; [|done].
    cbn [lift_err mbind result_bind]. destruct (from_slice p) as [v|] eqn:Ef; [|done]. cbn [ok_or mbind result_bind].
    destruct (Dsse.validate _ v) as [[]|] eqn:Es; [|done]. cbn [lift_err mbind result_bind].
    destruct (canonical_bytes v) as [c|] eqn:Ec; [|done]. cbn [ok_or mbind result_bind].
    destruct (decide (c <> p)) as [|Hc%dec_stable]; [done|]. subst c.
    destruct (from_value v) as [m'|] eqn:Em; [|done]. cbn [ok_or mbind result_bind].
    destruct (manifest_validate m') as [[]|] eqn:Eo; [|done]. cbn [mbind result_bind]. intros [= -> <-]. split; [done|].
    exists p, v. rewrite <- Proposal.validate_Ok, <- Dsse.verify_Ok, Eo. done.
  - intros [Hp (p & v & Henv & Hf & Hs & Hc & Hm & Ho & ->)]. pose proof Henv as (? & ? & _ & Ht & _).
    rewrite decide_False by (intros Hn; by apply Hn). rewrite (proj2 (Proposal.key_for_Ok _ _ _)) by done.
    cbn [lift_err mbind result_bind]. rewrite (proj2 (Dsse.verify_Ok _ _ _ _) Henv). cbn [lift_err mbind result_bind].
    rewrite Hf. cbn [ok_or mbind result_bind]. rewrite (proj2 (Proposal.validate_Ok _ _) Hs). cbn [lift_err mbind result_bind].
    rewrite Hc. cbn [ok_or mbind result_bind]. rewrite decide_False by (intros Hn; by apply Hn). rewrite Hm. cbn [ok_or mbind result_bind].
    destruct (manifest_validate m) as [[]|]; [|done]. done.
Qed.

(** An envelope has one payload. *)
Lemma env_valid_payload env ty key p ty' key' p' :
  Dsse.env_valid env ty key p -> Dsse.env_valid env ty' key' p' -> p = p'.
Proof. intros (? & ? & _ & _ & _ & H & _) (? & ? & _ & _ & _ & H' & _). congruence. Qed.

(** What signing a manifest leaves: a valid envelope over its canonical bytes. *)
Lemma sign_manifest_Ok m sk env :
  sign_manifest m sk = Ok env -> exists b, manifest_bytes m = Ok b /\ purpose sk = Lifecycle.TaskResult /\
    Dsse.env_valid env (Dsse.schema_media_type Dsse.ResultManifestV1) (public_key (signing sk)) b.
Proof.
  unfold sign_manifest. intros Hs. destruct (manifest_bytes m) as [b|] eqn:Eb; [|done]. cbn [mbind result_bind] in Hs.
  apply Proposal.lift_err_Ok, Proposal.sign_with_Ok in Hs as [Hk ->]. exists b. split; [done|]. split; [done|].
  by apply Dsse.verify_Ok, Dsse.verify_sign_env.
Qed.

(** A signed manifest verifies under its signer's key. *)
Lemma signed_manifest_verifies m sk env d :
  sign_manifest m sk = Ok env -> bundle_digest m = Ok d ->
  (forall x, canonical_bytes (to_value m) = Some x -> from_slice x = Some (to_value m)) ->
  verify_manifest env (verifying sk) = Ok (m, d).
Proof.
  intros (b & Hb & Hk & Henv)%sign_manifest_Ok (b' & Hb' & ->)%bundle_digest_Ok Hread.
  assert (b' = b) as -> by congruence. pose proof (proj1 (manifest_bytes_Ok _ _) Hb) as (Hv & Ho & Hc).
  assert (is_ok (manifest_validate m) = true) as Hok.
  { unfold manifest_validate. rewrite (proj2 (Proposal.validate_Ok _ _) Hv). cbn [lift_err mbind result_bind]. by rewrite Ho. }
  apply verify_manifest_Ok. split; [done|]. exists b, (to_value m). rewrite (Hread b Hc), Proposal.from_to_value. done.
Qed.

(** A manifest survives signing: the envelope its producer signs verifies to
    that manifest and its bundle digest under the producer's key, and whatever key accepts
    that envelope is a task-result key and yields the same manifest and digest. *)
Theorem manifest_roundtrip m sk env :
  sign_manifest m sk = Ok env ->
  (forall x, canonical_bytes (to_value m) = Some x -> from_slice x = Some (to_value m)) ->
  exists d, bundle_digest m = Ok d /\ verify_manifest env (verifying sk) = Ok (m, d) /\
    (forall key m' d', verify_manifest env key = Ok (m', d') -> v_purpose key = Lifecycle.TaskResult /\ m' = m /\ d' = d).
Proof.
  intros Hs Hread. pose proof Hs as (b & Hb & Hk & Henv)%sign_manifest_Ok. pose proof (proj1 (manifest_bytes_Ok _ _) Hb) as (_ & _ & Hc).
  assert (bundle_digest m = Ok (hex_digest b)) as Hd by (apply bundle_digest_Ok; by exists b).
  exists (hex_digest b). split; [done|]. split; [by apply signed_manifest_verifies|].
  intros key m' d' [Hp (p & v & Henv' & Hf & _ & _ & Hm & _ & ->)]%verify_manifest_Ok. split; [done|].
  rewrite <- (env_valid_payload _ _ _ _ _ _ _ Henv Henv') in *. rewrite (Hread b Hc) in Hf. injection Hf as <-.
  rewrite Proposal.from_to_value in Hm. by injection Hm as <-.
Qed.

(** ** Slots *)

Lemma check_roles_Ok provided : check_roles provided = Ok () <->
  forall s, s ∈ provided -> conclusive s = true -> evidence_role s <> None.
Proof.
  induction provided as [|s l IH]; cbn [check_roles]; [split; [intros _ s Hs; by apply not_elem_of_nil in Hs|done]|].
  setoid_rewrite elem_of_cons. destruct (conclusive s) eqn:Ec, (decide (evidence_role s = None)) as [Er|Er]; cbn [andb].
  - rewrite bool_decide_true by done. split; [done|]. intros H. by destruct (H s (or_introl eq_refl) Ec).
  - rewrite bool_decide_false, IH by done. split; [|by eauto]. intros H x [->|Hx] Hc; [done|by apply H].
  - rewrite IH. split; [|by eauto]. intros H x [->|Hx] Hc; [congruence|by apply H].
  - rewrite IH. split; [|by eauto]. intros H x [->|Hx] Hc; [congruence|by apply H].
Qed.

(** The record a requirement is judged by: the first one with its id. *)
Definition satisfied (provided : list SlotRecord) (req : RequiredSlot) : Prop := exists got,
  List.find (fun s => bool_decide (slot_id s = rq_slot_id req)) provided = Some got /\
  sl_result got = required_result req /\ (require_full_disclosure req = true -> disclosure got = Full).

Lemma check_required_Ok required provided : check_required required provided = Ok () <-> Forall (satisfied provided) required.
Proof.
  induction required as [|req l IH]; cbn [check_required]; [by split; [constructor|]|]. rewrite Forall_cons. unfold satisfied at 1.
  destruct (List.find _ provided) as [got|]; [|naive_solver].
  destruct (decide (sl_result got <> required_result req)) as [|Hr%dec_stable]; [naive_solver|].
  destruct (require_full_disclosure req); cbn [andb]; [|rewrite IH; naive_solver].
  destruct (decide (disclosure got = Full)) as [E|E]; [rewrite bool_decide_false by (by intros Hn)|rewrite bool_decide_true by done]; [rewrite IH|];
    naive_solver.
Qed.

(** The slot check passes exactly when every conclusive record names its
    evidence and every required slot has a record whose result is the required one, fully
    disclosed where the requirement says so: a missing, inconclusive or redacted slot never
    counts as passed. *)
Theorem slots_exact required provided :
  check_slots required provided = Ok () <->
  (forall s, s ∈ provided -> conclusive s = true -> evidence_role s <> None) /\ Forall (satisfied provided) required.
Proof.
  unfold check_slots. rewrite <- check_roles_Ok, <- check_required_Ok.
  destruct (check_roles provided) as [[]|]; cbn [mbind result_bind]; naive_solver.
Qed.

(** ** Outcomes *)

Lemma outcome_binds_to_Ok o m : outcome_binds_to o m = Ok () <->
  bundle_digest m = Ok (result_manifest_digest o) /\
  oc_task_id o = h_task_id (header m) /\ oc_context_id o = h_context_id (header m) /\
  oc_contract_id o = h_contract_id (header m) /\ oc_contract_revision o = h_contract_revision (header m) /\
  oc_contract_digest o = h_contract_digest (header m).
Proof.
  unfold outcome_binds_to. destruct (bundle_digest m) as [d|]; cbn [lift_err mbind result_bind]; [|naive_solver].
  destruct (decide (result_manifest_digest o <> d)) as [|Hd%dec_stable]; [naive_solver|].
  destruct (decide _) as [Hn|Hn]; [split; [done|]; naive_solver|]. split; [|done]. intros _.
  split; [congruence|]. repeat split; apply dec_stable; naive_solver.
Qed.

(** An outcome built for a manifest binds it, and binds no other one: two
    manifests bound by one outcome are equal, or a SHA-256 collision is at hand. *)
Theorem outcome_binds_one m m' state requester at_ o :
  for_manifest m state requester at_ = Ok o ->
  (forall n x, canonical_bytes (to_value n) = Some x -> from_slice x = Some (to_value (n : ResultManifest))) ->
  outcome_binds_to o m = Ok () /\ oc_state o = state /\ oc_requester o = requester /\
  (outcome_binds_to o m' = Ok () -> m' = m \/ sha256_collision).
Proof.
  unfold for_manifest. intros Hf Hread. destruct (bundle_digest m) as [d|] eqn:Ed; [|done]. cbn [lift_err mbind result_bind] in Hf.
  injection Hf as <-. split; [by apply outcome_binds_to_Ok|]. do 2 (split; [done|]).
  intros (Hd & _)%outcome_binds_to_Ok. cbn in Hd.
  apply bundle_digest_Ok in Ed as (b & Hb & ->), Hd as (b' & Hb' & He).
  destruct (Proposal.hex_digest_inj _ _ He) as [<-|]; [left|by right].
  apply manifest_bytes_Ok in Hb as (_ & _ & Hb), Hb' as (_ & _ & Hb').
  apply Hread in Hb, Hb'. assert (to_value m = to_value m') as E by congruence.
  pose proof (Proposal.from_to_value m) as H1. rewrite E, Proposal.from_to_value in H1. congruence.
Qed.

(** ** Domains *)

Inductive Kind := KProposal | KDecision | KManifest | KOutcome | KStatement.

(** The payload type each kind is signed under. *)
Definition kind_type (k : Kind) : string :=
  match k with
  | KProposal => Proposal.proposal_payload_type
  | KDecision => Proposal.decision_payload_type
  | KManifest => Dsse.schema_media_type Dsse.ResultManifestV1
  | KOutcome => Dsse.schema_media_type Dsse.OutcomeV1
  | KStatement => INTOTO_PAYLOAD_TYPE
  end.

Context {SX : IJson.JsonSyntax} {FC : FromValue Contract.Contract} {TD : ToValue Proposal.Decision}.

(** Some key accepts the envelope as a record of the kind. *)
Definition accepted (env : Dsse.Envelope) (k : Kind) : Prop :=
  match k with
  | KProposal => exists key p, Proposal.verify_proposal env key = Ok p
  | KDecision => exists key d, Proposal.verify_decision env key = Ok d
  | KManifest => exists key r, verify_manifest env key = Ok r
  | KOutcome => exists key o, verify_outcome env key = Ok o
  | KStatement => exists key s, verify_statement env key = Ok s
  end.

Lemma accepted_type env k : accepted env k -> Dsse.payload_type env = kind_type k.
Proof.
  destruct k; intros (key & r & H); cbn [kind_type].
  - by apply Proposal.verify_proposal_Ok in H as [_ (b & (? & ? & _ & ? & _) & _)].
  - by apply Proposal.verify_decision_Ok in H as [_ (b & v & (? & ? & _ & ? & _) & _)].
  - unfold verify_manifest in H. by destruct (decide _) as [|Ht%dec_stable].
  - unfold verify_outcome in H. by destruct (decide _) as [|Ht%dec_stable].
  - unfold verify_statement in H. by destruct (decide _) as [|Ht%dec_stable].
Qed.

Lemma kind_type_inj a b : kind_type a = kind_type b -> a = b.
Proof. destruct a, b; try done; vm_compute; discriminate. Qed.

(** C37. Signed records do not change kind: an envelope that any key makes pass as
    a proposal, a decision, a result manifest, an outcome or an in-toto statement passes as
    no other of them under any key. *)
Theorem one_kind env a b : accepted env a -> accepted env b -> a = b.
Proof. intros Ha%accepted_type Hb%accepted_type. apply kind_type_inj. congruence. Qed.
End facts.

(** ** SARIF *)

Lemma read_results_spec limits : forall results fs n,
  length fs <= max_findings limits ->
  read_results limits results fs n =
    (fs ++ (read_finding limits <$> take (max_findings limits - length fs) results),
     n + (length results - (max_findings limits - length fs))).
Proof.
  induction results as [|r results IH]; intros fs n Hfs; cbn [read_results].
  { rewrite take_nil. cbn. rewrite app_nil_r. f_equal. lia. }
  destruct (decide (max_findings limits <= length fs)).
  - rewrite IH by done. replace (max_findings limits - length fs) with 0 by lia. cbn. f_equal. lia.
  - rewrite IH by (rewrite length_app; cbn; lia). rewrite length_app. cbn [length].
    replace (max_findings limits - length fs) with (S (max_findings limits - (length fs + 1))) by lia.
    cbn [take fmap list_fmap length]. rewrite <- app_assoc. done.
Qed.

Lemma read_finding_bounded limits r : String.length (message (read_finding limits r)) <= max_message_len limits.
Proof.
  cbn [read_finding message]. set (m := default _ _). destruct (decide (max_message_len limits < String.length m)); [|lia].
  rewrite <- length_as_bytes, as_bytes_from_utf8, length_take. unfold nearest_char_boundary.
  pose proof (proj1 (Dsse.boundary_below_ok (as_bytes m) (Nat.min (max_message_len limits) (length (as_bytes m))))). lia.
Qed.

(** A SARIF report is bounded and accounts for everything: it keeps the first
    findings up to the limit over all runs, every message within its limit, and counts every
    result it left out; its digest is that of the bytes as they came. *)
Theorem sarif_bounded {HS : Hashes} {HX : Hex} {SX : IJson.JsonSyntax} b limits report :
  parse_sarif b limits = Ok report ->
  sr_digest report = hex_digest b /\ length (findings report) <= max_findings limits /\
  Forall (fun f => String.length (message f) <= max_message_len limits) (findings report) /\
  exists v runs, IJson.parse_with_limits b (max_bytes limits) (max_depth limits) = Ok v /\
    (w ← Introduction.member "runs" v; Introduction.as_array w) = Some runs /\
    findings report = read_finding limits <$> take (max_findings limits) (runs ≫= run_results) /\
    length (findings report) + truncated_findings report = length (runs ≫= run_results).
Proof.
  unfold parse_sarif. destruct (_ <? _)%Z; [done|].
  destruct (IJson.parse_with_limits _ _ _) as [v|] eqn:Ev; [|done]. cbn [lift_err mbind result_bind].
  destruct v as [| | | | | |l]; try done. set (v := JObj l) in *. destruct (decide _); [done|].
  destruct (Introduction.member "runs" v ≫= Introduction.as_array) as [runs|] eqn:Er; [|done]. cbn [ok_or mbind result_bind].
  destruct (head runs) as [fr|]; [|done]. cbn [ok_or mbind result_bind].
  destruct (ok_or _ _) as [tool|]; [|done]. cbn [mbind result_bind].
  rewrite (read_results_spec limits _ [] 0) by (cbn; lia). cbn [length app]. rewrite Nat.sub_0_r. intros [= <-].
  cbn [sr_digest findings truncated_findings]. split; [done|]. split; [|split].
  - rewrite length_fmap, length_take. lia.
  - apply Forall_fmap, Forall_true. intros r. apply read_finding_bounded.
  - exists v, runs. do 3 (split; [done|]). rewrite length_fmap, length_take. lia.
Qed.

(** ** Witnesses *)

#[global] Instance Header_wire : Wire ManifestHeader.
Proof.
  refine (wire_inj (fun h => (h_task_id h, h_context_id h, h_contract_id h, h_contract_revision h, h_contract_digest h,
                              attempt_digest h, work_order_receipt_digest h))
            (fun '(a, b, c, d, e, f, g) => mkHeader a b c d e f g) _). by intros [].
Defined.

#[global] Instance Output_wire : Wire OutputEntry.
Proof.
  refine (wire_inj (fun o => (o_role o, artifact_id o, part_index o, o_media_type o, o_byte_length o, o_sha256 o))
            (fun '(a, b, c, d, e, f) => mkOutput a b c d e f) _). by intros [].
Defined.

#[global] Instance Evidence_wire : Wire EvidenceEntry.
Proof.
  refine (wire_inj (fun e => (ev_role e, ev_payload_type e, ev_byte_length e, ev_sha256 e, signer_keyid e))
            (fun '(a, b, c, d, e) => mkEvidence a b c d e) _). by intros [].
Defined.

#[global] Instance Slot_wire : Wire SlotRecord.
Proof.
  refine (wire_inj (fun s => (slot_id s, evidence_role s,
      match sl_result s with Passed => 0 | Failed => 1 | Error => 2 | NotRun => 3 | Unavailable => 4 end%Z,
      match disclosure s with Full => 0 | Summary => 1 | Redacted => 2 end%Z))
    (fun '(a, b, c, d) => mkSlot a b (match c with 0 => Passed | 1 => Failed | 2 => Error | 3 => NotRun | _ => Unavailable end%Z)
       (match d with 0 => Full | 1 => Summary | _ => Redacted end%Z)) _). by intros [? ? [] []].
Defined.

#[global] Instance Omission_wire : Wire Omission.
Proof. refine (wire_inj (fun o => (om_subject o, om_reason_code o)) (fun '(a, b) => mkOmission a b) _). by intros []. Defined.

#[global] Instance Manifest_wire : Wire ResultManifest.
Proof.
  refine (wire_inj (fun m => (m_schema_version m, header m, outputs m, evidence m, slots m, omissions m))
            (fun '(a, b, c, d, e, f) => mkManifest a b c d e f) _). by intros [].
Defined.

#[global] Instance Outcome_wire : Wire Outcome.
Proof.
  refine (wire_inj (fun o => (oc_schema_version o, oc_task_id o, oc_context_id o, oc_contract_id o, oc_contract_revision o,
      oc_contract_digest o, result_manifest_digest o, match oc_state o with Accepted => 0 | Rejected => 1 | Disputed => 2 end%Z,
      oc_reason_code o, oc_note o, oc_requester o, oc_signed_at o))
    (fun '(a, b, c, d, e, f, g, h, i, j, k, l) =>
       mkOutcome a b c d e f g (match h with 0 => Accepted | 1 => Rejected | _ => Disputed end%Z) i j k l) _).
  by intros [? ? ? ? ? ? ? [] ? ? ? ?].
Defined.

#[global] Instance Subject_wire : Wire Subject.
Proof. refine (wire_inj (fun s => (sub_name s, sub_sha256 s)) (fun '(a, b) => mkSubject a b) _). by intros []. Defined.

#[global] Instance Statement_wire : Wire Statement.
Proof.
  refine (wire_inj (fun s => (st_type s, st_subject s, predicate_type s, predicate s))
            (fun '(a, b, c, d) => mkStatement a b c d) _). by intros [].
Defined.

(** Reads what [ToyCanon] writes. *)
Definition ToySlice : FromSlice := {| from_slice := fun b => match get b with Some (v, []) => Some v | _ => None end |}.

#[local] Existing Instances ToyHashes ToyHex ToyEd25519 ToyBase64 ToyBase64Url ToyVariants ToyJwkText ToySchemas ToySlice ToySyntax.
#[local] Instance sample_canon : Canon Json := ToyCanon Json.
#[local] Instance sample_manifests : ToValue ResultManifest := Proposal.ToyToValue ResultManifest.
#[local] Instance sample_outcomes : ToValue Outcome := Proposal.ToyToValue Outcome.
#[local] Instance sample_statements : ToValue Statement := Proposal.ToyToValue Statement.
#[local] Instance sample_decisions : ToValue Proposal.Decision := Proposal.ToyToValue Proposal.Decision.
#[local] Instance sample_contracts : FromValue Contract.Contract := {| from_value := fun _ => None |}.

Lemma sample_slice v x : canonical_bytes v = Some x -> from_slice x = Some v.
Proof.
  change (Some (put v) = Some x -> match get x with Some (v, []) => Some v | _ => None end = Some v).
  intros H. assert (x = put v) as -> by congruence. pose proof (get_put v []) as Hv. rewrite app_nil_r in Hv. by rewrite Hv.
Qed.

Definition sample_header : ManifestHeader := mkHeader "task-1" "ctx" "c-1" 0 "digest" "attempt" "receipt".
Definition sample_out (role id : string) : OutputEntry := mkOutput role id 0 "text/plain" 2 "00".
Definition sample_manifest : ResultManifest := assemble sample_header [sample_out "b" "2"; sample_out "a" "1"] [] [] [].
Definition sample_result_key : PurposeKey := from_seed Lifecycle.TaskResult (as_bytes "result").
Definition sample_manifest_env : Dsse.Envelope :=
  match sign_manifest sample_manifest sample_result_key with Ok e => e | Err _ => Dsse.mkEnvelope "" "" [] end.

Lemma sample_manifest_signed : sign_manifest sample_manifest sample_result_key = Ok sample_manifest_env.
Proof. vm_compute. reflexivity. Qed.

Lemma manifest_roundtrip_witness :
  exists d, bundle_digest sample_manifest = Ok d /\
    verify_manifest sample_manifest_env (verifying sample_result_key) = Ok (sample_manifest, d).
Proof.
  destruct (manifest_roundtrip sample_manifest sample_result_key sample_manifest_env sample_manifest_signed
    (sample_slice (to_value sample_manifest))) as (d & H1 & H2 & _). exists d. exact (conj H1 H2).
Defined.

Lemma assembly_canonical_witness :
  assemble sample_header [sample_out "b" "2"; sample_out "a" "1"] [] [] []
  = assemble sample_header [sample_out "a" "1"; sample_out "b" "2"] [] [] [].
Proof.
  apply (assembly_canonical sample_header [sample_out "b" "2"; sample_out "a" "1"] [] [] []
    [sample_out "a" "1"; sample_out "b" "2"] [] [] []); [|apply Permutation_swap|done|done|done].
  split; [|by repeat split; constructor].
  apply NoDup_cons; split; [intros H%list_elem_of_singleton; discriminate|apply NoDup_singleton].
Defined.

Definition signed_by (k : string) : EvidenceEntry := mkEvidence "license" "application/json" 2 "00" k.

Lemma assembly_keeps_ties_witness :
  assemble sample_header [] [signed_by "k1"; signed_by "k2"] [] [] <>
  assemble sample_header [] [signed_by "k2"; signed_by "k1"] [] [].
Proof. apply assembly_keeps_ties; [reflexivity|discriminate]. Defined.

Definition sample_outcome : Outcome :=
  match for_manifest sample_manifest Accepted (Proposal.sample_identity "alice") "2026-01-01T00:00:00Z" with
  | Ok o => o | Err _ => mkOutcome 0 "" "" "" 0 "" "" Rejected None None (Proposal.sample_identity "") "" end.

Lemma sample_outcome_built :
  for_manifest sample_manifest Accepted (Proposal.sample_identity "alice") "2026-01-01T00:00:00Z" = Ok sample_outcome.
Proof. vm_compute. reflexivity. Qed.

Lemma outcome_binds_one_witness :
  outcome_binds_to sample_outcome sample_manifest = Ok () /\ oc_state sample_outcome = Accepted.
Proof.
  destruct (outcome_binds_one sample_manifest sample_manifest _ _ _ _ sample_outcome_built (fun n => sample_slice (to_value n)))
    as (H1 & H2 & _). exact (conj H1 H2).
Defined.

Lemma sample_accepted : accepted sample_manifest_env KManifest.
Proof.
  exists (verifying sample_result_key), (sample_manifest, match bundle_digest sample_manifest with Ok d => d | Err _ => "" end).
  vm_compute. reflexivity.
Qed.

Lemma one_kind_witness : ~ accepted sample_manifest_env KOutcome.
Proof. intros H. discriminate (one_kind sample_manifest_env _ _ sample_accepted H). Defined.

Definition sample_sarif : bytes := put (JObj [("version", JStr "2.1.0"); ("runs", JArr [
  JObj [("tool", JObj [("driver", JObj [("name", JStr "clippy")])]);
        ("results", JArr [JObj [("ruleId", JStr "r1")]; JObj [("ruleId", JStr "r2")]])]])]).

Definition sample_report : SarifReport :=
  match parse_sarif sample_sarif (mkLimits 4096 64 1 16) with Ok r => r | Err _ => mkReport "" 0 "" [] 0 end.

Lemma sample_sarif_parsed : parse_sarif sample_sarif (mkLimits 4096 64 1 16) = Ok sample_report.
Proof. vm_compute. reflexivity. Qed.

Lemma sarif_bounded_witness : length (findings sample_report) <= 1 /\ truncated_findings sample_report = 1.
Proof. split; [apply (sarif_bounded _ _ _ sample_sarif_parsed)|vm_compute; reflexivity]. Defined.
End Evidence.
