(* ===== verification/Capability.v ===== *)
(** The capability vector and the standing policy of the local authority
    (akson-authority/src/capability.rs, akson-authority/src/policy.rs). *)
From S2P Require Import Prelude Contract.
Import Contract (Identity, Identity_eq_dec).

Module Capability.

Inductive CapabilityComponent :=
| Respond | ReadSuppliedInputs | ReadSnapshot | ProcessorUse | StageWrite | RunProfile
| Apply | Egress | SecretUse | ArtifactExport | Delegate | RemoteCancel.

#[global] Instance CapabilityComponent_eq_dec : EqDecision CapabilityComponent.
Proof. solve_decision. Defined.

Definition grantable_in_v1 (c : CapabilityComponent) : bool :=
  match c with
  | Respond | ReadSuppliedInputs | ProcessorUse | ArtifactExport => true
  | _ => false
  end.

Record RespondScope := mkRespondScope {
  rs_task_id : string;
  rs_message_id : string;
  rs_recipient : string;
  rs_max_responses : Z;
  rs_max_bytes : Z;
  rs_deadline : string;
}.

Record ReadInputsScope := mkReadInputsScope {
  ri_input_ids : list string;
  ri_contract_digest : string;
}.

Record ProcessorUseScope := mkProcessorUseScope {
  pu_processor_id : string;
  pu_input_ids : list string;
  pu_max_cost_microusd : Z;
  pu_max_bytes : Z;
}.

Record ArtifactExportScope := mkArtifactExportScope {
  ae_recipient : string;
  ae_task_id : string;
  ae_media_types : list string;
  ae_max_count : Z;
  ae_max_bytes : Z;
}.

Inductive Grant :=
| GRespond (s : RespondScope)
| GReadSuppliedInputs (s : ReadInputsScope)
| GProcessorUse (s : ProcessorUseScope)
| GArtifactExport (s : ArtifactExportScope).

#[global] Instance RespondScope_eq_dec : EqDecision RespondScope.
Proof. solve_decision. Defined.

#[global] Instance ReadInputsScope_eq_dec : EqDecision ReadInputsScope.
Proof. solve_decision. Defined.

#[global] Instance ProcessorUseScope_eq_dec : EqDecision ProcessorUseScope.
Proof. solve_decision. Defined.

#[global] Instance ArtifactExportScope_eq_dec : EqDecision ArtifactExportScope.
Proof. solve_decision. Defined.

#[global] Instance Grant_eq_dec : EqDecision Grant.
Proof. solve_decision. Defined.

Definition component (g : Grant) : CapabilityComponent :=
  match g with
  | GRespond _ => Respond
  | GReadSuppliedInputs _ => ReadSuppliedInputs
  | GProcessorUse _ => ProcessorUse
  | GArtifactExport _ => ArtifactExport
  end.

Inductive VectorError :=
| DuplicateComponent (c : CapabilityComponent)
| EmptyVector.

(** The field is private to the module: a vector is only made by [new]. *)
Record CapabilityVector := mkVector { grants : list Grant }.

(** The loop of [CapabilityVector::new]: [seen] is [grants[..i]]. *)
Fixpoint check_duplicates (seen rest : list Grant) : result VectorError () :=
  match rest with
  | [] => Ok ()
  | g :: rest =>
      if existsb (fun h => bool_decide (component h = component g)) seen
      then Err (DuplicateComponent (component g))
      else check_duplicates (seen ++ [g]) rest
  end.

Definition new (gs : list Grant) : result VectorError CapabilityVector :=
  match gs with
  | [] => Err EmptyVector
  | _ => _ ← check_duplicates [] gs; Ok (mkVector gs)
  end.

Definition grant (v : CapabilityVector) (c : CapabilityComponent) : option Grant :=
  List.find (fun g => bool_decide (component g = c)) (grants v).

Definition grants_component (v : CapabilityVector) (c : CapabilityComponent) : bool :=
  match grant v c with Some _ => true | None => false end.

(** ** Standing policy *)

Inductive PolicyDecision := Deny | Prompt.

Inductive StandingRule := DenyRule (subject : Identity) (task_type : option string).

Definition rule_matches (r : StandingRule) (subject : Identity) (task_type : string) : bool :=
  match r with
  | DenyRule s t =>
      bool_decide (s = subject) &&
      match t with None => true | Some t => bool_decide (t = task_type) end
  end.

Definition evaluate (rules : list StandingRule) (subject : Identity) (task_type : string) :
  PolicyDecision :=
  if existsb (fun r => rule_matches r subject task_type) rules then Deny else Prompt.

Record RuleBinding := mkRuleBinding {
  peer_agent_card_key : string;
  contract_task_type : string;
  processor_id : option string;
  sandbox_digest : option string;
  extension_version : Z;
}.

Inductive PolicyChange :=
| KeyChanged | TaskTypeChanged | ProcessorChanged | SandboxChanged | ExtensionChanged.

Definition binding_changed (pinned current : RuleBinding) : option PolicyChange :=
  if decide (peer_agent_card_key pinned <> peer_agent_card_key current) then Some KeyChanged
  else if decide (contract_task_type pinned <> contract_task_type current) then
    Some TaskTypeChanged
  else if decide (processor_id pinned <> processor_id current) then Some ProcessorChanged
  else if decide (sandbox_digest pinned <> sandbox_digest current) then Some SandboxChanged
  else if decide (extension_version pinned <> extension_version current) then
    Some ExtensionChanged
  else None.

(** ** What the constructor guarantees *)

Lemma existsb_component l c :
  existsb (fun h => bool_decide (component h = c)) l = true <-> c ∈ component <$> l.
Proof.
  rewrite existsb_exists, list_elem_of_fmap. setoid_rewrite bool_decide_eq_true.
  setoid_rewrite list_elem_of_In. naive_solver.
Qed.

Lemma check_duplicates_spec seen rest :
  NoDup (component <$> seen) ->
  check_duplicates seen rest = Ok () <-> NoDup (component <$> (seen ++ rest)).
Proof.
  revert seen. induction rest as [|g rest IH]; intros seen Hseen; cbn [check_duplicates].
  - by rewrite app_nil_r.
  - destruct (existsb _ seen) eqn:He.
    + split; [done|]. intros Hnd. apply existsb_component in He.
      rewrite fmap_app, fmap_cons in Hnd. apply NoDup_app in Hnd as (_ & Hd & _).
      exfalso. apply (Hd _ He). left.
    + rewrite IH; [by rewrite <- app_assoc|].
      rewrite fmap_app. apply NoDup_app. split_and!; [done| |apply NoDup_singleton].
      intros c Hc [= ->]%list_elem_of_singleton. apply existsb_component in Hc. congruence.
Qed.

Lemma check_duplicates_err seen rest e :
  check_duplicates seen rest = Err e -> exists c, e = DuplicateComponent c.
Proof.
  revert seen. induction rest as [|g rest IH]; intros seen; simpl; [done|].
  case_match; [intros [= <-]; eauto|apply IH].
Qed.

Lemma find_component gs g :
  NoDup (component <$> gs) -> g ∈ gs ->
  List.find (fun h => bool_decide (component h = component g)) gs = Some g.
Proof.
  induction gs as [|h gs IH]; [by intros _ ?%not_elem_of_nil|].
  rewrite fmap_cons, NoDup_cons. intros [Hn Hd] [->|Hin]%elem_of_cons; simpl.
  - by rewrite bool_decide_eq_true_2.
  - rewrite bool_decide_eq_false_2; [by apply IH|].
    intros Heq. apply Hn. rewrite Heq. by apply list_elem_of_fmap_2.
Qed.

(** A vector is built exactly when the grants are non-empty and name pairwise
    distinct components; it holds those grants and no others, every granted
    component is one of the four that v1 can grant, and the authority for a
    component is a listed grant or nothing. *)
Theorem vector_sound gs v :
  new gs = Ok v <-> v = mkVector gs /\ gs <> [] /\ NoDup (component <$> gs).
Proof.
  unfold new. destruct gs as [|g gs]; [naive_solver|]. unfold_result.
  pose proof (check_duplicates_spec [] (g :: gs) ltac:(constructor)) as Hc. cbn [app] in Hc.
  destruct (check_duplicates [] (g :: gs)) as [[]|] eqn:E; split.
  - intros [= <-]. by split_and!; [| |apply Hc].
  - by intros (-> & _).
  - done.
  - intros (_ & _ & Hn). by apply Hc in Hn.
Qed.

(** A vector is exactly the authority granted. For a component it answers the one
    grant that was put in for it and nothing else, and whatever it grants is a
    component this version may grant. *)
Theorem grant_authority gs v c :
  new gs = Ok v ->
  (forall g, grant v c = Some g <-> g ∈ gs /\ component g = c) /\
  (grants_component v c = true -> grantable_in_v1 c = true).
Proof.
  intros (-> & _ & Hnd)%vector_sound. unfold grants_component, grant; simpl. split.
  - intros g. split.
    + intros [Hin Hb]%List.find_some. apply bool_decide_eq_true in Hb.
      by rewrite list_elem_of_In.
    + intros [Hin <-]. by apply find_component.
  - destruct (List.find _ gs) as [g|] eqn:E; [|done]. intros _.
    apply List.find_some in E as [_ <-%bool_decide_eq_true]. by destruct g.
Qed.

(** Policy never grants: an answer is a denial, which needs a rule naming that
    very subject, or a prompt; adding rules can only turn prompts into denials. *)
Theorem policy_sound rules subject tt :
  (evaluate rules subject tt = Deny <->
     exists t, DenyRule subject t ∈ rules /\ (t = None \/ t = Some tt)) /\
  (forall more, evaluate rules subject tt = Deny -> evaluate (rules ++ more) subject tt = Deny).
Proof.
  unfold evaluate. split.
  - destruct (existsb _ rules) eqn:E; split; try done.
    + intros _. apply existsb_exists in E as ([s t] & Hin & Hm). simpl in Hm.
      apply andb_true_iff in Hm as [->%bool_decide_eq_true Ht]. exists t.
      rewrite list_elem_of_In. split; [done|]. destruct t; [|by left].
      right. by apply bool_decide_eq_true in Ht as ->.
    + intros (t & Hin & Ht). assert (existsb (fun r => rule_matches r subject tt) rules = true);
        [|congruence].
      apply existsb_exists. exists (DenyRule subject t). rewrite <- list_elem_of_In.
      split; [done|]. simpl. rewrite bool_decide_eq_true_2 by done.
      destruct Ht as [->| ->]; [done|]. by rewrite bool_decide_eq_true_2.
  - intros more. rewrite existsb_app. by destruct (existsb _ rules).
Qed.

Lemma binding_changed_None a b : binding_changed a b = None <-> a = b.
Proof.
  unfold binding_changed. destruct a, b; simpl. repeat case_decide; naive_solver.
Qed.

Definition sample_respond : Grant := GRespond (mkRespondScope "t" "m" "request-origin" 1 8192 "d").
Definition sample_export : Grant := GArtifactExport (mkArtifactExportScope "r" "t" [] 1 10).

Example grant_authority_witness :
  grant (mkVector [sample_respond; sample_export]) ArtifactExport = Some sample_export.
Proof.
  apply (grant_authority [sample_respond; sample_export]); [reflexivity|].
  split; [right; left | reflexivity].
Defined.
End Capability.
