(* ===== verification/Gate.v ===== *)
(** The worker's two file-and-output boundaries: the output gate
    (akson-worker/src/gate.rs) and the staging of its inputs (akson-worker/src/staging.rs).

    A staging directory is the map from the names in it to their contents; a write that the
    operating system refuses for another reason than an existing name is not modelled. *)
From S2P Require Import Prelude Text Crypto Capability Profile.

Module Gate.
Import Capability.

(** ** The output gate *)

Inductive OutputChannel := Response | Artifact.

#[global] Instance OutputChannel_eq_dec : EqDecision OutputChannel.
Proof. solve_decision. Defined.

(** [OutputChannel::component]. *)
Definition channel_component (c : OutputChannel) : CapabilityComponent :=
  match c with Response => Respond | Artifact => ArtifactExport end.

Record ProposedOutput := mkProposed {
  channel : OutputChannel; recipient : string; media_type : string; out_bytes : Z }.

Inductive GateReject :=
| NoGrant (c : CapabilityComponent)
| Recipient (allowed got : string)
| MediaType (got : string)
| Size (max got : Z)
| Count (max : Z).

Record GateError := mkGateError { index : nat; reason : GateReject }.

(** The loop of [gate_outputs]: the index, the responses and the artifacts so far. *)
Fixpoint gate_loop (vector : CapabilityVector) (i : nat) (responses artifacts : Z) (outputs : list ProposedOutput) :
  result GateError () :=
  match outputs with
  | [] => Ok ()
  | out :: outputs =>
      let err r := Err (mkGateError i r) in
      match grant vector (channel_component (channel out)) with
      | None => err (NoGrant (channel_component (channel out)))
      | Some g =>
          match channel out, g with
          | Response, GRespond scope =>
              if decide (recipient out <> rs_recipient scope) then err (Recipient (rs_recipient scope) (recipient out)) else
              if (rs_max_bytes scope <? out_bytes out)%Z then err (Size (rs_max_bytes scope) (out_bytes out)) else
              if (rs_max_responses scope <? responses + 1)%Z then err (Count (rs_max_responses scope)) else
              gate_loop vector (S i) (responses + 1) artifacts outputs
          | Artifact, GArtifactExport scope =>
              if decide (recipient out <> ae_recipient scope) then err (Recipient (ae_recipient scope) (recipient out)) else
              if negb (existsb (fun m => bool_decide (m = media_type out)) (ae_media_types scope))
              then err (MediaType (media_type out)) else
              if (ae_max_bytes scope <? out_bytes out)%Z then err (Size (ae_max_bytes scope) (out_bytes out)) else
              if (ae_max_count scope <? artifacts + 1)%Z then err (Count (ae_max_count scope)) else
              gate_loop vector (S i) responses (artifacts + 1) outputs
          | _, _ => err (NoGrant (channel_component (channel out)))
          end
      end
  end.

Definition gate_outputs (vector : CapabilityVector) (outputs : list ProposedOutput) : result GateError () :=
  gate_loop vector 0 0 0 outputs.

(** ** What the gate lets out *)

(** The outputs of a channel. *)
Definition on_channel (c : OutputChannel) (outputs : list ProposedOutput) : list ProposedOutput :=
  List.filter (fun o => bool_decide (channel o = c)) outputs.

(** One output against the grant of its channel: granted at all, to the granted recipient,
    within the byte budget, and an artifact in a granted media type. *)
Definition within_grant (vector : CapabilityVector) (o : ProposedOutput) : Prop :=
  match channel o with
  | Response => exists s, grant vector Respond = Some (GRespond s) /\ recipient o = rs_recipient s /\
      (out_bytes o <= rs_max_bytes s)%Z
  | Artifact => exists s, grant vector ArtifactExport = Some (GArtifactExport s) /\ recipient o = ae_recipient s /\
      media_type o ∈ ae_media_types s /\ (out_bytes o <= ae_max_bytes s)%Z
  end.

(** How many outputs a channel may carry. *)
Definition allowance (vector : CapabilityVector) (c : OutputChannel) : Z :=
  match c, grant vector (channel_component c) with
  | Response, Some (GRespond s) => rs_max_responses s
  | Artifact, Some (GArtifactExport s) => ae_max_count s
  | _, _ => 0
  end.

Definition count (c : OutputChannel) (outputs : list ProposedOutput) : Z := Z.of_nat (length (on_channel c outputs)).

(** Counts so far, by channel. *)
Definition counted (responses artifacts : Z) (c : OutputChannel) : Z :=
  match c with Response => responses | Artifact => artifacts end.

Definition one_if (b : bool) : Z := if b then 1 else 0.

Lemma count_cons c o outputs : count c (o :: outputs) = (count c outputs + one_if (bool_decide (channel o = c)))%Z.
Proof. unfold count, on_channel. cbn [List.filter]. destruct (bool_decide _); cbn [length one_if]; lia. Qed.

Lemma count_nonneg c outputs : (0 <= count c outputs)%Z.
Proof. unfold count. lia. Qed.

(** One step of the loop: it passes exactly when the output is within its grant and,
    counting itself, within the allowance. *)
Lemma gate_step v i r a o outputs :
  gate_loop v i r a (o :: outputs) = Ok () <->
  within_grant v o /\ (counted r a (channel o) + 1 <= allowance v (channel o))%Z /\
  gate_loop v (S i) (r + one_if (bool_decide (channel o = Response)))
    (a + one_if (bool_decide (channel o = Artifact))) outputs = Ok ().
Proof.
  cbn [gate_loop]. unfold within_grant, allowance. destruct (channel o) eqn:Ec; cbn [channel_component counted].
  - rewrite bool_decide_true, bool_decide_false by done. cbn [one_if]. rewrite Z.add_0_r.
    destruct (grant v Respond) as [[s| | |]|]; [|by split; [done|intros [(? & ? & _) _]]..].
    destruct (decide _); [by split; [done|intros [(? & [= <-] & ? & _) _]]|].
    destruct (Z.ltb_spec (rs_max_bytes s) (out_bytes o)); [split; [done|intros [(? & [= <-] & ?) _]; lia]|].
    destruct (Z.ltb_spec (rs_max_responses s) (r + 1)); [split; [done|lia]|].
    split; [|naive_solver]. intros ->. split; [|done]. exists s. repeat split; [by apply dec_stable|lia].
  - rewrite bool_decide_false, bool_decide_true by done. cbn [one_if]. rewrite Z.add_0_r.
    destruct (grant v ArtifactExport) as [[| | |s]|]; [by split; [done|intros [(? & ? & _) _]]..| |by split; [done|intros [(? & ? & _) _]]].
    destruct (decide _); [by split; [done|intros [(? & [= <-] & ? & _) _]]|].
    assert (existsb (fun m => bool_decide (m = media_type o)) (ae_media_types s) = true <-> media_type o ∈ ae_media_types s) as Hm.
    { rewrite existsb_exists. setoid_rewrite bool_decide_eq_true. rewrite list_elem_of_In. naive_solver. }
    destruct (existsb _ _); cbn [negb];
      [|split; [done|]; intros [(? & [= <-] & _ & H%Hm & _) _]; done].
    destruct (Z.ltb_spec (ae_max_bytes s) (out_bytes o)); [split; [done|intros [(? & [= <-] & ?) _]; lia]|].
    destruct (Z.ltb_spec (ae_max_count s) (a + 1)); [split; [done|lia]|].
    split; [|naive_solver]. intros ->. split; [|done]. exists s. repeat split; [by apply dec_stable|by apply Hm|lia].
Qed.

Lemma gate_loop_Ok v outputs : forall i r a,
  gate_loop v i r a outputs = Ok () <->
  (forall o, o ∈ outputs -> within_grant v o) /\
  (forall c, (0 < count c outputs)%Z -> (counted r a c + count c outputs <= allowance v c)%Z).
Proof.
  induction outputs as [|o outputs IH]; intros i r a.
  { split; [|done]. intros _. split; [intros o Ho; by apply not_elem_of_nil in Ho|]. intros c. unfold count; cbn. lia. }
  rewrite gate_step, IH. setoid_rewrite count_cons.
  assert (forall c, counted (r + one_if (bool_decide (channel o = Response))) (a + one_if (bool_decide (channel o = Artifact))) c
                    = (counted r a c + one_if (bool_decide (channel o = c)))%Z) as Hc by by intros [].
  setoid_rewrite Hc. setoid_rewrite elem_of_cons. split.
  - intros (Ho & H1 & Hrest & Hcount). split; [naive_solver|]. intros c. specialize (Hcount c).
    pose proof (count_nonneg c outputs). destruct (decide (channel o = c)) as [<-|Hne].
    + rewrite bool_decide_true in * by done. cbn [one_if] in *. lia.
    + rewrite bool_decide_false in * by done. cbn [one_if] in *. lia.
  - intros [Hall Hcount]. split; [apply Hall; by left|]. split; [|split; [naive_solver|]].
    + specialize (Hcount (channel o)). rewrite bool_decide_true in Hcount by done. cbn [one_if] in Hcount.
      pose proof (count_nonneg (channel o) outputs). lia.
    + intros c Hp. specialize (Hcount c). destruct (bool_decide (channel o = c)); cbn [one_if] in *; lia.
Qed.

(** An output is refused whatever follows it, or leaves the verdict to what follows. *)
Lemma gate_cons v i r a o :
  (exists e, index e = i /\ forall outputs, gate_loop v i r a (o :: outputs) = Err e) \/
  (exists r' a', forall outputs, gate_loop v i r a (o :: outputs) = gate_loop v (S i) r' a' outputs).
Proof. cbn [gate_loop]. repeat case_match; eauto; left; by eexists (mkGateError i _). Qed.

(** The index of a refusal counts the outputs that passed before it. *)
Lemma gate_loop_Err v outputs : forall i r a e,
  gate_loop v i r a outputs = Err e ->
  exists k, index e = i + k /\ k < length outputs /\
    gate_loop v i r a (take k outputs) = Ok () /\ gate_loop v i r a (take (S k) outputs) = Err e.
Proof.
  induction outputs as [|o outputs IH]; intros i r a e; [done|].
  destruct (gate_cons v i r a o) as [(e' & He' & H)|(r' & a' & H)].
  - rewrite H. intros [= <-]. exists 0. cbn [length take]. rewrite H. repeat split; (done || lia).
  - rewrite H. intros (k & Hi & Hk & Hok & Herr)%IH. exists (S k). rewrite !firstn_cons, !H.
    cbn [length]. repeat split; [lia|lia|done|done].
Qed.

(** The gate lets a worker's outputs out exactly when each is within the grant
    of its channel (recipient, bytes, media type) and no channel carries more of them than
    its grant allows; otherwise it names the first output that does not fit: the ones before
    it pass on their own and with it they do not. *)
Theorem gate_exact v outputs :
  (gate_outputs v outputs = Ok () <->
   (forall o, o ∈ outputs -> within_grant v o) /\
   (forall c, (0 < count c outputs)%Z -> (count c outputs <= allowance v c)%Z)) /\
  (forall e, gate_outputs v outputs = Err e ->
   index e < length outputs /\ gate_outputs v (take (index e) outputs) = Ok () /\
   gate_outputs v (take (S (index e)) outputs) = Err e).
Proof.
  split.
  - unfold gate_outputs. rewrite gate_loop_Ok. assert (forall c, counted 0 0 c = 0%Z) as Hz by by intros [].
    by setoid_rewrite Hz.
  - intros e (k & Hi & Hk & H1 & H2)%gate_loop_Err. cbn in Hi. by rewrite Hi.
Qed.

(** ** Staging inputs *)

Record StageItem := mkItem { item_id : string; item_media_type : string; item_content : bytes }.

Record StagedInput := mkStaged {
  s_id : string; s_path : string; s_media_type : string; s_byte_length : Z; s_sha256 : string }.

Inductive StageError := UnsafeId (id : string) | DuplicateId (id : string) | Io | Serialize.

(** [is_ascii_lowercase() || is_ascii_digit()]. *)
Definition slug_byte (b : byte) : bool := Profile.in_bytes 97 122 b || Profile.in_bytes 48 57 b.

Definition is_safe_id (id : string) : bool :=
  match as_bytes id with
  | [] => false
  | b :: _ => slug_byte b && forallb (fun b => slug_byte b || bool_decide (b = "-"%char)) (as_bytes id)
  end.

(** The names in the staging directory and what they hold. *)
#[local] Notation Dir := (gmap string bytes).

(** [O_CREAT | O_EXCL]: an existing name is refused. *)
Definition write_new (name : string) (content : bytes) (d : Dir) : option Dir :=
  match d !! name with Some _ => None | None => Some (<[name := content]> d) end.

(** [trim_end_matches('/')]. *)
Fixpoint trim_slashes (l : bytes) : bytes :=
  match l with
  | [] => []
  | c :: l => match trim_slashes l with
              | [] => if decide (c = "/"%char) then [] else [c]
              | r => c :: r
              end
  end.

(** [serde_json::to_vec_pretty] of the manifest. *)
Class ManifestText := { manifest_text : list StagedInput -> option bytes }.

Section staging.
Context {HS : Hashes} {HX : Hex} {MT : ManifestText}.

Definition staged (root : string) (item : StageItem) : StagedInput :=
  mkStaged (item_id item) (root +:+ "/" +:+ item_id item) (item_media_type item)
    (Z.of_nat (length (item_content item))) (hex_encode (sha256 (item_content item))).

(** The loop of [stage_inputs]: the manifest so far and the directory. *)
Fixpoint stage_loop (root : string) (items : list StageItem) (manifest : list StagedInput) (d : Dir) :
  result StageError (list StagedInput) * Dir :=
  match items with
  | [] => (Ok manifest, d)
  | item :: items =>
      if negb (is_safe_id (item_id item)) then (Err (UnsafeId (item_id item)), d) else
      if existsb (fun s => bool_decide (s_id s = item_id item)) manifest then (Err (DuplicateId (item_id item)), d) else
      match write_new (item_id item) (item_content item) d with
      | None => (Err Io, d)
      | Some d => stage_loop root items (manifest ++ [staged root item]) d
      end
  end.

Definition stage_inputs (items : list StageItem) (sandbox_input_root : string) (d : Dir) :
  result StageError (list StagedInput) * Dir :=
  let root := from_utf8 (trim_slashes (as_bytes sandbox_input_root)) in
  match stage_loop root items [] d with
  | (Err e, d) => (Err e, d)
  | (Ok manifest, d) =>
      match manifest_text manifest with
      | None => (Err Serialize, d)
      | Some json => match write_new "manifest.json" json d with
                     | None => (Err Io, d)
                     | Some d => (Ok manifest, d)
                     end
      end
  end.

(** The approved files of a list of items. *)
Definition approved (items : list StageItem) : Dir := list_to_map ((fun i => (item_id i, item_content i)) <$> items).

Lemma write_new_Some name c d d' : write_new name c d = Some d' <-> d !! name = None /\ d' = <[name := c]> d.
Proof. unfold write_new. destruct (d !! name); naive_solver. Qed.

Lemma stage_loop_spec root items : forall manifest d,
  match stage_loop root items manifest d with
  | (Ok m, d') => m = manifest ++ (staged root <$> items) /\
      Forall (fun i => is_safe_id (item_id i) = true) items /\ NoDup (item_id <$> items) /\
      (forall i, i ∈ items -> d !! item_id i = None) /\ d' = approved items ∪ d
  | (Err e, d') => exists k, d' = approved (take k items) ∪ d /\
      Forall (fun i => is_safe_id (item_id i) = true /\ d !! item_id i = None) (take k items)
  end.
Proof.
  induction items as [|item items IH]; intros manifest d; cbn [stage_loop].
  { unfold approved. cbn. rewrite app_nil_r, (left_id_L ∅ (∪)). repeat split; [constructor|constructor|].
    intros i Hi. by apply not_elem_of_nil in Hi. }
  assert (d = approved (take 0 (item :: items)) ∪ d) as H0 by (unfold approved; cbn; by rewrite (left_id_L ∅ (∪))).
  destruct (is_safe_id (item_id item)) eqn:Es; cbn [negb]; [|exists 0; split; [done|constructor]].
  destruct (existsb _ _); [exists 0; split; [done|constructor]|].
  destruct (write_new _ _ d) as [d1|] eqn:Ew; [|exists 0; split; [done|constructor]].
  apply write_new_Some in Ew as [Hn ->]. specialize (IH (manifest ++ [staged root item]) (<[item_id item := item_content item]> d)).
  assert (forall l, (forall i, i ∈ l -> <[item_id item := item_content item]> d !! item_id i = None) ->
    approved l ∪ <[item_id item := item_content item]> d = approved (item :: l) ∪ d) as Hunion.
  { intros l Hl. change (approved (item :: l)) with (<[item_id item := item_content item]> (approved l)).
    rewrite <- insert_union_l, <- insert_union_r; [done|]. apply not_elem_of_list_to_map_1.
    rewrite <- list_fmap_compose. intros (i & Hi & Hin)%list_elem_of_fmap. cbn in Hi.
    apply Hl in Hin. rewrite Hi, lookup_insert_eq in Hin. done. }
  destruct (stage_loop root items _ _) as [[m|e] d'].
  - destruct IH as (-> & Hs & Hd & Hfresh & ->). rewrite <- app_assoc. split; [done|].
    split; [by constructor|]. split.
    + cbn [fmap list_fmap]. constructor; [|done]. intros (i & Hi & Hin)%list_elem_of_fmap.
      apply Hfresh in Hin. by rewrite <- Hi, lookup_insert_eq in Hin.
    + split; [|by apply Hunion]. intros i [->|Hin]%elem_of_cons; [done|]. apply Hfresh in Hin.
      by apply lookup_insert_None in Hin as [? _].
  - destruct IH as (k & -> & Hk). exists (S k). rewrite firstn_cons. split.
    + apply Hunion. intros i Hi. rewrite Forall_forall in Hk. by apply Hk.
    + constructor; [done|]. eapply Forall_impl; [exact Hk|]. intros i [? ?%lookup_insert_None]. naive_solver.
Qed.

(** A safe name has no separator and no dot. *)
Lemma safe_id_chars id : is_safe_id id = true ->
  id <> "" /\ "/"%char ∉ as_bytes id /\ "."%char ∉ as_bytes id.
Proof.
  unfold is_safe_id. destruct (as_bytes id) as [|b l] eqn:E; [done|]. intros [_ Hall]%andb_prop. split.
  - intros ->. by cbn in E.
  - rewrite forallb_forall in Hall. split; intros Hin%list_elem_of_In%Hall; revert Hin; vm_compute; discriminate.
Qed.

Lemma safe_not_manifest id : is_safe_id id = true -> id <> "manifest.json".
Proof.
  intros (_ & _ & Hdot)%safe_id_chars ->. apply Hdot. by do 8 right; left.
Qed.

Lemma approved_lookup items name c : approved items !! name = Some c ->
  exists i, i ∈ items /\ item_id i = name /\ item_content i = c.
Proof.
  intros H%elem_of_list_to_map_2. apply list_elem_of_fmap in H as (i & [= -> ->] & Hi). by exists i.
Qed.

(** Whatever the outcome, staging adds only files named by the ids of given
    items, each a slug without a separator or a dot, holding that item's bytes, and the
    manifest; what was in the directory stays. On success the directory gained exactly the
    given items and the manifest, whose entries are the items in order with their lengths
    and digests, under distinct ids none of which was there before. *)
Theorem staging_confined items root d r d' :
  stage_inputs items root d = (r, d') ->
  d ⊆ d' /\
  (forall name c, d' !! name = Some c -> d !! name = None -> name <> "manifest.json" ->
    exists i, i ∈ items /\ item_id i = name /\ item_content i = c /\ name <> "" /\
      "/"%char ∉ as_bytes name /\ "."%char ∉ as_bytes name) /\
  (forall m, r = Ok m -> exists json, manifest_text m = Some json /\
    d' = <["manifest.json" := json]> (approved items ∪ d) /\ NoDup (item_id <$> items) /\
    (forall i, i ∈ items -> d !! item_id i = None) /\
    m = staged (from_utf8 (trim_slashes (as_bytes root))) <$> items).
Proof.
  unfold stage_inputs. set (rt := from_utf8 _). pose proof (stage_loop_spec rt items [] d) as H.
  destruct (stage_loop rt items [] d) as [[m|e] d1].
  - destruct H as (-> & Hs & Hd & Hf & ->). cbn [app].
    assert (d ⊆ approved items ∪ d) as Hsub.
    { apply map_union_subseteq_r, map_disjoint_spec. intros name c c' (i & Hi & <- & _)%approved_lookup. by rewrite Hf. }
    assert (forall name c, (approved items ∪ d) !! name = Some c -> d !! name = None ->
      exists i, i ∈ items /\ item_id i = name /\ item_content i = c /\ name <> "" /\
        "/"%char ∉ as_bytes name /\ "."%char ∉ as_bytes name) as Hnew.
    { intros name c [Ha|[_ Hb]]%lookup_union_Some_raw Hn; [|congruence]. apply approved_lookup in Ha as (i & Hi & <- & Hc).
      exists i. do 3 (split; [done|]). rewrite Forall_forall in Hs. by apply safe_id_chars, Hs. }
    destruct (manifest_text _) as [json|] eqn:Ej; [|intros [= <- <-]; split; [done|]; split; [|done]; naive_solver].
    destruct (write_new _ _ _) as [d2|] eqn:Ew; [|intros [= <- <-]; split; [done|]; split; [|done]; naive_solver].
    apply write_new_Some in Ew as [Hn ->]. intros [= <- <-]. split; [|split].
    + etrans; [exact Hsub|]. by apply insert_subseteq.
    + intros name c Hl Hd' Hne. rewrite lookup_insert_ne in Hl by done. by eapply Hnew.
    + intros m [= <-]. by exists json.
  - destruct H as (k & -> & Hk). intros [= <- <-]. rewrite Forall_forall in Hk. split; [|split; [|done]].
    + apply map_union_subseteq_r, map_disjoint_spec. intros name c c' (i & Hi & <- & _)%approved_lookup.
      apply Hk in Hi as [_ ->]. done.
    + intros name c [Ha|[_ Hb]]%lookup_union_Some_raw Hn _; [|congruence]. apply approved_lookup in Ha as (i & Hi & <- & Hc).
      exists i. split; [apply elem_of_take in Hi as (j & Hj & _); by apply list_elem_of_lookup_2 in Hj|]. do 2 (split; [done|]). by apply safe_id_chars, Hk.
Qed.
End staging.

(** ** Witnesses *)

Definition sample_items : list StageItem := [mkItem "diff" "text/x-diff" (as_bytes "+x"); mkItem "notes-1" "text/plain" []].

#[local] Existing Instances ToyHashes ToyHex.
#[local] Instance sample_manifest_text : ManifestText := {| manifest_text := fun l => Some (as_bytes (join "," (s_id <$> l))) |}.

Definition sample_dir : gmap string bytes := (stage_inputs sample_items "/inputs/" ∅).2.

Lemma sample_staged : stage_inputs sample_items "/inputs/" ∅ = (Ok (staged "/inputs" <$> sample_items), sample_dir).
Proof. reflexivity. Qed.

Lemma staging_confined_witness :
  sample_dir !! "diff" = Some (as_bytes "+x") /\ "/"%char ∉ as_bytes "diff" /\
  exists json, sample_dir = <["manifest.json" := json]> (approved sample_items ∪ ∅).
Proof.
  destruct (staging_confined _ _ _ _ _ sample_staged) as (_ & H1 & H2). split; [reflexivity|].
  destruct (H1 "diff" _ eq_refl eq_refl ltac:(discriminate)) as (_ & _ & _ & _ & _ & H & _).
  destruct (H2 _ eq_refl) as (json & _ & H3 & _). split; [exact H|]. by exists json.
Defined.
End Gate.
