(* ===== verification/Inert.v ===== *)
(** The scan for active content in artifacts that a viewer renders
    (akson-worker/src/inert.rs), over the bytes of the artifact. *)
From S2P Require Import Prelude Profile.

Module Inert.

Record NotInert := mkNotInert { media_type : string; reason : string }.

(** ** Texts of the standard library *)

Definition byte_is (n : Z) (b : byte) : bool := (byte_to_Z b =? n)%Z.
Definition cont (b : byte) : bool := Profile.in_bytes 0x80 0xbf b.

(** [std::str::from_utf8(..).is_ok()]. *)
Fixpoint valid_utf8 (l : bytes) : bool :=
  match l with
  | [] => true
  | a :: l1 =>
      if Profile.in_bytes 0 0x7f a then valid_utf8 l1 else
      match l1 with
      | [] => false
      | b :: l2 =>
          if Profile.in_bytes 0xc2 0xdf a then cont b && valid_utf8 l2 else
          match l2 with
          | [] => false
          | c :: l3 =>
              if Profile.in_bytes 0xe0 0xef a then
                (if byte_is 0xe0 a then Profile.in_bytes 0xa0 0xbf b else if byte_is 0xed a then Profile.in_bytes 0x80 0x9f b else cont b)
                && cont c && valid_utf8 l3
              else
                match l3 with
                | [] => false
                | d :: l4 =>
                    Profile.in_bytes 0xf0 0xf4 a &&
                    (if byte_is 0xf0 a then Profile.in_bytes 0x90 0xbf b else if byte_is 0xf4 a then Profile.in_bytes 0x80 0x8f b else cont b)
                    && cont c && cont d && valid_utf8 l4
                end
          end
      end
  end.

Definition lower (b : byte) : byte := if Profile.in_bytes 65 90 b then byte_of_Z (byte_to_Z b + 32) else b.
Definition to_ascii_lowercase (l : bytes) : bytes := lower <$> l.

Definition starts (p l : bytes) : bool := match Profile.strip_prefix p l with Some _ => true | None => false end.

Fixpoint skip (f : byte -> bool) (l : bytes) : bytes :=
  match l with [] => [] | c :: r => if f c then skip f r else l end.

Definition one_of (s : bytes) (b : byte) : bool := existsb (fun c => bool_decide (c = b)) s.

(** [split(c).next()]. *)
Fixpoint before (c : byte) (l : bytes) : bytes :=
  match l with [] => [] | d :: r => if decide (d = c) then [] else d :: before c r end.

(** The encodings of the characters [str::trim] removes. *)
Definition white_space : list bytes :=
  (fun n => [byte_of_Z n]) <$> [9; 10; 11; 12; 13; 32]%Z.

Definition wide_white_space : list bytes :=
  List.map (List.map byte_of_Z) [[0xc2; 0x85]; [0xc2; 0xa0]; [0xe1; 0x9a; 0x80]; [0xe2; 0x80; 0x80]; [0xe2; 0x80; 0x81];
    [0xe2; 0x80; 0x82]; [0xe2; 0x80; 0x83]; [0xe2; 0x80; 0x84]; [0xe2; 0x80; 0x85]; [0xe2; 0x80; 0x86]; [0xe2; 0x80; 0x87];
    [0xe2; 0x80; 0x88]; [0xe2; 0x80; 0x89]; [0xe2; 0x80; 0x8a]; [0xe2; 0x80; 0xa8]; [0xe2; 0x80; 0xa9]; [0xe2; 0x80; 0xaf];
    [0xe2; 0x81; 0x9f]; [0xe3; 0x80; 0x80]]%Z.

Fixpoint strip_any (ps : list bytes) (l : bytes) : option bytes :=
  match ps with [] => None | p :: ps => match Profile.strip_prefix p l with Some r => Some r | None => strip_any ps l end end.

Fixpoint trim_start (fuel : nat) (ps : list bytes) (l : bytes) : bytes :=
  match fuel, strip_any ps l with S n, Some r => trim_start n ps r | _, _ => l end.

Definition trim (l : bytes) : bytes :=
  let ps := white_space ++ wide_white_space in
  let l := trim_start (length l) ps l in
  reverse (trim_start (length l) (reverse <$> ps) (reverse l)).

(** [u32::from_str_radix(.., radix).ok()]. *)
Definition digit_value (radix : Z) (b : byte) : option Z :=
  let n := byte_to_Z b in
  let v := if Profile.in_bytes 48 57 b then Some (n - 48)%Z
           else if Profile.in_bytes 97 122 b then Some (n - 87)%Z
           else if Profile.in_bytes 65 90 b then Some (n - 55)%Z else None in
  v ← v; if (v <? radix)%Z then Some v else None.

Fixpoint digits_value (radix acc : Z) (l : bytes) : option Z :=
  match l with
  | [] => Some acc
  | b :: l => v ← digit_value radix b;
      let acc := (acc * radix + v)%Z in if (acc <? 2 ^ 32)%Z then digits_value radix acc l else None
  end.

Definition from_str_radix (l : bytes) (radix : Z) : option Z :=
  match l with
  | [] => None
  | c :: r => if decide (c = "+"%char) then match r with [] => None | _ => digits_value radix 0 r end
              else digits_value radix 0 l
  end.

(** [char::from_u32], and the UTF-8 of the character. *)
Definition from_u32 (n : Z) : option Z :=
  if (n <? 0xd800)%Z || ((0xe000 <=? n) && (n <=? 0x10ffff))%Z then Some n else None.

Definition utf8 (n : Z) : bytes :=
  byte_of_Z <$>
    if (n <? 0x80)%Z then [n]
    else if (n <? 0x800)%Z then [0xc0 + n / 64; 0x80 + n mod 64]%Z
    else if (n <? 0x10000)%Z then [0xe0 + n / 4096; 0x80 + n / 64 mod 64; 0x80 + n mod 64]%Z
    else [0xf0 + n / 262144; 0x80 + n / 4096 mod 64; 0x80 + n / 64 mod 64; 0x80 + n mod 64]%Z.

(** ** The scan *)

Definition is_renderable (media_type : string) : bool :=
  let m := from_utf8 (to_ascii_lowercase (trim (before ";"%char (as_bytes media_type)))) in
  existsb (fun t => bool_decide (t = m))
    ["image/svg+xml"; "text/html"; "application/xhtml+xml"; "text/markdown"; "text/x-markdown"; "text/vnd.mermaid";
     "text/vnd.graphviz"; "text/vnd.graphviz+dot"].

(** The text before the first [';'] and after it. *)
Fixpoint split_semi (l : bytes) : option (bytes * bytes) :=
  match l with
  | [] => None
  | c :: l => if decide (c = ";"%char) then Some ([], l) else '(a, b) ← split_semi l; Some (c :: a, b)
  end.

(** A decodable reference at the head of the text: its character and the text after it. *)
Definition reference (l : bytes) : option (bytes * bytes) :=
  match l with
  | a :: h :: c :: r =>
      if decide (a = "&"%char /\ h = "#"%char) then
        let '(radix, body) := if decide (c = "x"%char \/ c = "X"%char) then (16%Z, r) else (10%Z, c :: r) in
        '(digits, rest) ← split_semi body;
        n ← from_str_radix digits radix; ch ← from_u32 n; Some (utf8 ch, rest)
      else None
  | _ => None
  end.

Fixpoint decode_loop (fuel : nat) (l : bytes) : bytes :=
  match fuel, l with
  | S n, c :: r => match reference l with Some (ch, rest) => ch ++ decode_loop n rest | None => c :: decode_loop n r end
  | _, _ => []
  end.

Definition decode_numeric_entities (l : bytes) : bytes := decode_loop (length l) l.

(** Whether [f] holds at an occurrence of [tok], given the byte before it and the text
    after it. *)
Fixpoint any_at (tok : bytes) (f : option byte -> bytes -> bool) (prev : option byte) (l : bytes) : bool :=
  match Profile.strip_prefix tok l with Some after => f prev after | None => false end ||
  match l with [] => false | c :: r => any_at tok f (Some c) r end.

Definition contains (tok : string) (l : bytes) : bool := any_at (as_bytes tok) (fun _ _ => true) None l.

Definition form_feed : byte := byte_of_Z 12.
Definition tab : byte := byte_of_Z 9.
Definition newline : byte := byte_of_Z 10.
Definition return_ : byte := byte_of_Z 13.
Definition quote : byte := byte_of_Z 34.

Definition blank : byte -> bool := one_of [" "%char; tab; newline; return_; form_feed].
Definition alphanumeric (b : byte) : bool := Profile.in_bytes 48 57 b || Profile.in_bytes 65 90 b || Profile.in_bytes 97 122 b.

(** The boundary and the [=] or [(] that make a [url] a reference. *)
Definition url_anchor (prev : option byte) (after : bytes) : bool :=
  match prev with None => true | Some b => negb (alphanumeric b) end &&
  match skip blank after with c :: _ => one_of ["="%char; "("%char] c | [] => false end.

Definition is_external (target : bytes) : bool :=
  starts (as_bytes "http://") target || starts (as_bytes "https://") target || starts (as_bytes "//") target.

Definition external_at (anchor : string) (prev : option byte) (after : bytes) : bool :=
  (if decide (anchor = "url") then url_anchor prev after else true) &&
  is_external (skip (one_of ["="%char; quote; "'"%char; "("%char; " "%char; tab]) after).

Definition references_external_url (text : bytes) : bool :=
  existsb (fun anchor => any_at (as_bytes anchor) (external_at anchor) None text) ["href"; "srcset"; "src"; "url"].

Definition attribute_boundary (prev : option byte) : bool :=
  match prev with
  | None => true
  | Some b => one_of [" "%char; tab; newline; return_; "<"%char; "/"%char; quote; "'"%char] b
  end.

Definition lowercase (b : byte) : bool := Profile.in_bytes 97 122 b.

Definition handler_at (prev : option byte) (after : bytes) : bool :=
  attribute_boundary prev &&
  match after with
  | c :: r => lowercase c && match skip blank (skip lowercase r) with d :: _ => bool_decide (d = "="%char) | [] => false end
  | [] => false
  end.

Definition has_event_handler (text : bytes) : bool := any_at (as_bytes "on") handler_at None text.

Definition active_markup : list string :=
  ["<script"; "<iframe"; "<object"; "<embed"; "<foreignobject"; "<applet"; "<meta http-equiv"; "<!entity"; "<!doctype";
   "<?xml-stylesheet"].
Definition script_uris : list string := ["javascript:"; "data:text/html"; "vbscript:"].

(** The text that is scanned. *)
Definition scanned (b : bytes) : bytes := to_ascii_lowercase (decode_numeric_entities b).

Definition check_inert (media_type : string) (b : bytes) : result NotInert () :=
  if negb (is_renderable media_type) then Ok () else
  let reject reason := Err (mkNotInert media_type reason) in
  if existsb (fun c => bool_decide (c = zero)) b || negb (valid_utf8 b)
  then reject "is not clean UTF-8 text (may hide active content)" else
  let text := scanned b in
  if existsb (fun t => contains t text) active_markup then reject "contains active or embedding markup" else
  if existsb (fun t => contains t text) script_uris then reject "contains a script or html data URI" else
  if has_event_handler text then reject "contains an inline event handler" else
  if references_external_url text then reject "references an external URL" else Ok ().

(** ** What a passing artifact does not contain *)

Lemma strip_prefix_Some p l r : Profile.strip_prefix p l = Some r <-> l = p ++ r.
Proof.
  revert l. induction p as [|c p IH]; intros l; cbn [Profile.strip_prefix app]; [naive_solver|].
  destruct l as [|d l]; [naive_solver|]. destruct (decide (c = d)) as [->|]; [rewrite IH; naive_solver|naive_solver].
Qed.

(** The byte before a position. *)
Definition byte_before (prev : option byte) (pre : bytes) : option byte := match last pre with Some c => Some c | None => prev end.

Lemma any_at_spec tok f : forall l prev,
  any_at tok f prev l = true <-> exists pre post, l = pre ++ tok ++ post /\ f (byte_before prev pre) post = true.
Proof.
  induction l as [|c l IH]; intros prev; cbn [any_at]; rewrite orb_true_iff.
  - split.
    + destruct (Profile.strip_prefix tok []) as [post|] eqn:E; [|naive_solver].
      apply strip_prefix_Some in E. intros [H|?]; [|done]. by exists [], post.
    + intros ([|? pre] & post & H & Hf); [|done]. left.
      destruct (Profile.strip_prefix tok []) as [post'|] eqn:E.
      * apply strip_prefix_Some in E. cbn [app] in H. rewrite E in H. apply app_inv_head in H as <-. done.
      * cbn [app] in H. apply strip_prefix_Some in H. congruence.
  - rewrite IH. split.
    + intros [H|(pre & post & -> & Hf)].
      * destruct (Profile.strip_prefix tok (c :: l)) as [post|] eqn:E; [|done]. apply strip_prefix_Some in E. by exists [], post.
      * exists (c :: pre), post. split; [done|]. unfold byte_before in *. rewrite last_cons. by destruct (last pre).
    + intros ([|d pre] & post & H & Hf).
      * left. cbn [app] in H. apply strip_prefix_Some in H. by rewrite H.
      * right. injection H as -> ->. exists pre, post. split; [done|]. unfold byte_before in *. rewrite last_cons in Hf.
        by destruct (last pre).
Qed.

Lemma skip_spec f l : exists s, l = s ++ skip f l /\ Forall (fun c => f c = true) s /\
  match skip f l with [] => True | c :: _ => f c = false end.
Proof.
  induction l as [|c l (s & Hl & Hs & Hh)]; [by exists []|]. cbn [skip]. destruct (f c) eqn:E.
  - exists (c :: s). split; [cbn [app]; by rewrite <- Hl|]. by split; [constructor|].
  - exists []. by split_and!.
Qed.

Lemma skip_app f s l : Forall (fun c => f c = true) s ->
  match l with [] => True | c :: _ => f c = false end -> skip f (s ++ l) = l.
Proof. induction 1 as [|c s Hc _ IH]; intros Hl; cbn [app skip]; [by destruct l; [|cbn; rewrite Hl]|by rewrite Hc, IH]. Qed.

(** An inline event handler: [on], a lower-case name, blanks and [=], where an attribute
    may start. *)
Definition event_handler (text : bytes) : Prop := exists pre name blanks post,
  text = pre ++ as_bytes "on" ++ name ++ blanks ++ "="%char :: post /\ attribute_boundary (last pre) = true /\
  name <> [] /\ Forall (fun c => lowercase c = true) name /\ Forall (fun c => blank c = true) blanks.

Lemma handler_at_spec prev after : handler_at prev after = true <-> attribute_boundary prev = true /\
  exists name blanks post, after = name ++ blanks ++ "="%char :: post /\ name <> [] /\
    Forall (fun c => lowercase c = true) name /\ Forall (fun c => blank c = true) blanks.
Proof.
  unfold handler_at. rewrite andb_true_iff. apply and_iff_compat_l. split.
  - destruct after as [|c r]; [done|]. intros [Hc H]%andb_prop.
    destruct (skip_spec lowercase r) as (n & Hn & Hln & _). destruct (skip_spec blank (skip lowercase r)) as (s & Hs & Hbs & _).
    destruct (skip blank (skip lowercase r)) as [|d post]; [done|]. apply bool_decide_eq_true in H as ->.
    exists (c :: n), s, post. split; [|by split_and!; [|constructor|]]. cbn [app]. rewrite Hn at 1. by rewrite Hs at 1.
  - intros (name & blanks & post & -> & Hne & Hln & Hbs). destruct Hln as [|c n Hc Hn]; [done|]. cbn [app]. rewrite Hc. cbn [andb].
    assert (forall l, match blanks ++ "="%char :: l with [] => True | c :: _ => lowercase c = false end) as Hstop.
    { intros l. destruct Hbs as [|b bs Hb _]; [done|]. cbn [app]. revert Hb. unfold blank, one_of. rewrite existsb_exists.
      intros (x & Hx & ->%bool_decide_eq_true). repeat (destruct Hx as [<-|Hx]; [reflexivity|]). done. }
    rewrite skip_app by (done || apply Hstop). rewrite skip_app by done. done.
Qed.

Lemma has_event_handler_spec text : has_event_handler text = true <-> event_handler text.
Proof.
  unfold has_event_handler, event_handler. rewrite any_at_spec. setoid_rewrite handler_at_spec.
  assert (forall pre, byte_before None pre = last pre) as Hb by (intros pre; unfold byte_before; by destruct (last pre)).
  setoid_rewrite Hb. naive_solver.
Qed.

(** A reference to an absolute or protocol-relative URL: an anchor, characters of an
    assignment, and the start of the URL; after [url] the assignment must be explicit. *)
Definition external_reference (text : bytes) : Prop := exists anchor pre fill post,
  anchor ∈ ["href"; "srcset"; "src"; "url"] /\ text = pre ++ as_bytes anchor ++ fill ++ post /\
  Forall (fun c => one_of ["="%char; quote; "'"%char; "("%char; " "%char; tab] c = true) fill /\ is_external post = true /\
  (anchor = "url" -> url_anchor (last pre) (fill ++ post) = true).

Lemma is_external_head l : is_external l = true ->
  match l with [] => True | c :: _ => one_of ["="%char; quote; "'"%char; "("%char; " "%char; tab] c = false end.
Proof.
  unfold is_external, starts. destruct l as [|c l]; [done|]. rewrite !orb_true_iff. cbn [as_bytes Profile.strip_prefix].
  intros [[H|H]|H]; revert H; cbn; repeat case_match; try done; subst; reflexivity.
Qed.

Lemma external_at_spec anchor prev after : external_at anchor prev after = true <->
  exists fill post, after = fill ++ post /\
    Forall (fun c => one_of ["="%char; quote; "'"%char; "("%char; " "%char; tab] c = true) fill /\ is_external post = true /\
    (anchor = "url" -> url_anchor prev after = true).
Proof.
  unfold external_at. rewrite andb_true_iff. split.
  - intros [Hu He]. destruct (skip_spec (one_of ["="%char; quote; "'"%char; "("%char; " "%char; tab]) after) as (s & Hs & Hf & _).
    exists s, (skip (one_of ["="%char; quote; "'"%char; "("%char; " "%char; tab]) after). split_and!; [done|done|done|].
    intros ->. by rewrite decide_True in Hu.
  - intros (fill & post & -> & Hf & He & Hu). split; [destruct (decide _); auto|].
    rewrite skip_app; [done|done|]. by apply is_external_head.
Qed.

Lemma references_external_url_spec text : references_external_url text = true <-> external_reference text.
Proof.
  unfold references_external_url, external_reference. rewrite existsb_exists. setoid_rewrite any_at_spec.
  setoid_rewrite external_at_spec. setoid_rewrite <- list_elem_of_In.
  assert (forall pre, byte_before None pre = last pre) as Hb by (intros pre; unfold byte_before; by destruct (last pre)).
  setoid_rewrite Hb. split.
  - intros (anchor & Ha & pre & after & -> & fill & post & -> & H). exists anchor, pre, fill, post. naive_solver.
  - intros (anchor & pre & fill & post & Ha & -> & Hf & He & Hu). exists anchor. split; [done|].
    exists pre, (fill ++ post). split; [done|]. by exists fill, post.
Qed.

Lemma split_semi_length l a b : split_semi l = Some (a, b) -> length b < length l.
Proof.
  revert a b. induction l as [|c l IH]; intros a b; cbn [split_semi]; [done|].
  destruct (decide _); [intros [= <- <-]; cbn; lia|].
  destruct (split_semi l) as [[a' b']|]; [|done]. intros [= <- <-]. specialize (IH _ _ eq_refl). cbn. lia.
Qed.

Lemma reference_length l ch rest : reference l = Some (ch, rest) -> length rest < length l.
Proof.
  unfold reference. destruct l as [|a [|h [|c r]]]; [done..|]. destruct (decide _); [|done].
  destruct (decide _); (destruct (split_semi _) as [[ds rs]|] eqn:E; [|done]); cbn [mbind option_bind];
    (destruct (from_str_radix _ _); [|done]); cbn [mbind option_bind]; (destruct (from_u32 _); [|done]); intros [= <- <-];
    apply split_semi_length in E; cbn in *; lia.
Qed.

Lemma decode_loop_fuel n : forall m l, length l <= n -> length l <= m -> decode_loop n l = decode_loop m l.
Proof.
  induction n as [|n IH]; intros [|m] [|c l] Hn Hm; cbn in Hn, Hm; try lia; try done. cbn [decode_loop].
  destruct (reference (c :: l)) as [[ch rest]|] eqn:E; [|f_equal; apply IH; lia].
  apply reference_length in E. cbn in E. f_equal. apply IH; lia.
Qed.

(** The decoding loop has enough fuel: it reads a reference or a byte and goes on. *)
Lemma decode_step c r : decode_numeric_entities (c :: r) =
  match reference (c :: r) with
  | Some (ch, rest) => ch ++ decode_numeric_entities rest
  | None => c :: decode_numeric_entities r
  end.
Proof.
  unfold decode_numeric_entities at 1. cbn [length decode_loop].
  destruct (reference (c :: r)) as [[ch rest]|] eqn:E; [|done].
  apply reference_length in E. cbn in E. f_equal. apply decode_loop_fuel; lia.
Qed.

Lemma contains_spec tok l : contains tok l = true <-> exists pre post, l = pre ++ as_bytes tok ++ post.
Proof. unfold contains. rewrite any_at_spec. naive_solver. Qed.

Lemma existsb_false_forall {A} (f : A -> bool) l : existsb f l = false <-> forall x, x ∈ l -> f x = false.
Proof.
  rewrite <- not_true_iff_false, existsb_exists. setoid_rewrite <- list_elem_of_In. split.
  - intros H x Hx. destruct (f x) eqn:E; [|done]. destruct H. by exists x.
  - intros H (x & Hx & E). rewrite H in E by done. done.
Qed.

(** What the scan excludes, on the decoded lower-case text. *)
Definition inert_text (b : bytes) : Prop :=
  zero ∉ b /\ valid_utf8 b = true /\
  (forall tok pre post, tok ∈ active_markup ++ script_uris -> scanned b <> pre ++ as_bytes tok ++ post) /\
  ~ event_handler (scanned b) /\ ~ external_reference (scanned b).

Lemma tokens_absent l text : existsb (fun t => contains t text) l = false <->
  forall tok pre post, tok ∈ l -> text <> pre ++ as_bytes tok ++ post.
Proof.
  rewrite existsb_false_forall. split.
  - intros H tok pre post Ht E. apply H in Ht. rewrite <- not_true_iff_false, contains_spec in Ht. naive_solver.
  - intros H tok Ht. rewrite <- not_true_iff_false, contains_spec. naive_solver.
Qed.

(** C39. The inert check passes an artifact exactly when its media type is not a
    rendered one, or it is UTF-8 without NUL bytes in which, after decoding numeric
    character references and lowering case, no active markup and no script URI occurs, no
    inline event handler is assigned and no absolute or protocol-relative URL is
    referenced. *)
Theorem inert_scan media_type b :
  check_inert media_type b = Ok () <-> is_renderable media_type = false \/ inert_text b.
Proof.
  unfold check_inert, inert_text. destruct (is_renderable media_type); cbn [negb]; [|by split; auto].
  assert (existsb (fun c => bool_decide (c = zero)) b = false <-> zero ∉ b) as Hz.
  { rewrite existsb_false_forall. setoid_rewrite bool_decide_eq_false. split; [intros H Hin; by apply (H _ Hin)|].
    by intros H x Hx ->. }
  setoid_rewrite elem_of_app. pose proof (tokens_absent active_markup (scanned b)) as Hm.
  pose proof (tokens_absent script_uris (scanned b)) as Hs.
  rewrite <- has_event_handler_spec, <- references_external_url_spec, !not_true_iff_false.
  destruct (existsb _ b); cbn [orb]; [naive_solver|]. destruct (valid_utf8 b); cbn [negb]; [|naive_solver].
  destruct (existsb _ active_markup); [naive_solver|]. destruct (existsb _ script_uris); [naive_solver|].
  destruct (has_event_handler _); [naive_solver|]. destruct (references_external_url _); naive_solver.
Qed.

Definition unterminated_reference : bytes := as_bytes "<a href='java&#115cript:alert(1)'>x</a>".
Definition split_scheme : bytes := as_bytes "<a href='java&#9;script:alert(1)'>x</a>".
Definition form_feed_handler : bytes := as_bytes "<svg" ++ form_feed :: as_bytes "onload='alert(1)'>".

(** Three texts a browser executes pass the check as HTML: a numeric reference
    without its semicolon is not decoded, a tab inside the scheme is not removed, and a form
    feed is not taken for the blank before an attribute. Each is refused when written
    plainly. *)
Theorem inert_gaps :
  check_inert "text/html" unterminated_reference = Ok () /\
  check_inert "text/html" split_scheme = Ok () /\
  check_inert "text/html" form_feed_handler = Ok () /\
  check_inert "text/html" (as_bytes "<a href='java&#115;cript:alert(1)'>x</a>") =
    Err (mkNotInert "text/html" "contains a script or html data URI") /\
  check_inert "text/html" (as_bytes "<svg onload='alert(1)'>") =
    Err (mkNotInert "text/html" "contains an inline event handler").
Proof. repeat split; vm_compute; reflexivity. Qed.
End Inert.
