(* ===== verification/Control.v ===== *)
(** The local control surfaces (aksond/src/control.rs) and the gate every connection on
    them passes (aksond/src/socket.rs).

    A connection is the caller's credentials and the bytes it sends; the dispatcher is a
    parameter with a state of its own. Writing the response back is not modelled. *)
From S2P Require Import Prelude Json Inert.

Module Control.
Import Json.

(** ** Surfaces and operations *)

Inductive Surface := Admin | Worker | Coord.

#[global] Instance Surface_eq_dec : EqDecision Surface.
Proof. solve_decision. Defined.

Definition satisfies (s required : Surface) : bool :=
  match s, required with Admin, _ | Worker, Worker | Coord, Coord => true | _, _ => false end.

Inductive ControlOp :=
| SubmitTaskInput | ReportProgress | SubmitResult | ReferenceEvidence | RequestProcessorCall
| Pair | Policy | ApproveContract | IssueWorkOrder | SignOutcome | DeliverResult | SendTask | Export | Recovery | Processor
| TaskInspect | TaskCancel | RunWorker | FulfillTask | Inspect | Diagnose | StageConsent
| CoordWhoAmI | CoordPeerShow | CoordStage | CoordStageShow | CoordDispatch | CoordTaskStatus | CoordEventsRead
| CoordCapabilityEvidence.

Definition required_surface (op : ControlOp) : Surface :=
  match op with
  | SubmitTaskInput | ReportProgress | SubmitResult | ReferenceEvidence | RequestProcessorCall => Worker
  | CoordWhoAmI | CoordPeerShow | CoordStage | CoordStageShow | CoordDispatch | CoordTaskStatus | CoordEventsRead
  | CoordCapabilityEvidence => Coord
  | _ => Admin
  end.

Record Problem := mkProblem { type_ : string; title : string; status : Z; detail : option string }.

#[global] Instance Problem_eq_dec : EqDecision Problem.
Proof. solve_decision. Defined.

(** [Problem::new], also the [problem] function of each handler. *)
Definition problem (status : Z) (kind title : string) : Problem :=
  mkProblem ("urn:akson:error:" +:+ kind) title status None.

Definition forbidden_surface (s : Surface) : Problem :=
  mkProblem "urn:akson:error:forbidden-surface" "operation not permitted on this local surface" 403
    (Some match s with
          | Worker => "the worker surface cannot perform this operation"
          | Coord => "the coordination surface cannot perform this operation"
          | Admin => "operation not permitted"
          end).

Definition authorize (s : Surface) (op : ControlOp) : result Problem () :=
  if satisfies s (required_surface op) then Ok () else Err (forbidden_surface s).

(** ** Admission *)

(** [Admission]: the UIDs a socket admits. *)
Definition Admission : Type := list Z.

Definition same_uid (daemon_uid : Z) : Admission := [daemon_uid].

Definition coord_admission (daemon_uid coord_uid : Z) : Admission :=
  if decide (coord_uid = daemon_uid) then [daemon_uid] else [coord_uid; daemon_uid].

Definition admits (a : Admission) (uid : Z) : bool := existsb (fun u => bool_decide (u = uid)) a.

(** [bind_coord_socket], without the file: no UID, no socket. *)
Definition bind_coord_socket (coord_uid : option Z) (daemon_uid : Z) : option Admission :=
  match coord_uid with None => None | Some c => Some (coord_admission daemon_uid c) end.

(** ** Requests *)

Record FulfillOutput := mkFulfill { f_role : string; f_media_type : string; content_base64 : string }.

(** The task specification and the worker's submission are modelled where they are used. *)
Section requests.
Context {Spec Submission : Type}.

Inductive ControlRequest :=
| RDiagnose | RWhoAmI | RTaskInbox
| RTaskShow (task_id : string)
| RPeerList | RToken
| RPeerAdd (token label : string) (endpoint : option string) (update : bool)
| RPeerLabel (label new_label : string)
| RPeerImportRemove (label : string)
| RPeerKnocks
| RPeerPing (label : string)
| RPeerAutoApprove (agent_id : string) (task_types : list string) (max_response_bytes : Z)
| RTaskSent | RTaskOutcomes
| RTaskOutput (task_id : string) (role : option string)
| RTaskApprove (task_id : string) (processor : option string) (artifacts : bool)
| RTaskDeny (task_id reason : string)
| RTaskRun (task_id : string)
| RTaskFulfill (task_id : string) (outputs : list FulfillOutput)
| RTaskDeliver (task_id : string)
| RTaskSend (spec : Spec)
| RSubmitResult (s : Submission)
| RRequestProcessorCall (processor_id work_order_id request : string)
| RProcessorAdd (processor_id provider origin_host : string) (origin_port : Z) (local : bool)
    (tls_certificate_sha256 path auth : option string) (headers : list string)
| RProcessorList
| RProcessorCredential (processor_id credential : string)
| RIssueWorkOrder (task_id : string)
| RStageConsent (stage_ref : string)
| RCoordWhoAmI
| RPeerShow (label : string)
| RStage (task_type performer payload_base64 : string)
| RStageShow (stage_ref : string)
| RDispatch (stage_ref consent_receipt execution_key : string)
| RTaskStatus (task_id : string)
| REventsRead (cursor : option string) (limit : option Z)
| RCapabilityEvidence (label : string).

Definition op (r : ControlRequest) : ControlOp :=
  match r with
  | RDiagnose | RWhoAmI | RToken => Diagnose
  | RTaskInbox | RTaskShow _ | RTaskSent | RTaskOutcomes | RTaskOutput _ _ => TaskInspect
  | RPeerList | RPeerKnocks => Inspect
  | RPeerAdd _ _ _ _ | RPeerLabel _ _ | RPeerImportRemove _ | RPeerPing _ => Pair
  | RPeerAutoApprove _ _ _ => Policy
  | RTaskApprove _ _ _ | RTaskDeny _ _ => ApproveContract
  | RTaskRun _ => RunWorker
  | RTaskFulfill _ _ => FulfillTask
  | RTaskDeliver _ => DeliverResult
  | RTaskSend _ => SendTask
  | RSubmitResult _ => SubmitResult
  | RRequestProcessorCall _ _ _ => RequestProcessorCall
  | RProcessorAdd _ _ _ _ _ _ _ _ _ | RProcessorList | RProcessorCredential _ _ => Processor
  | RIssueWorkOrder _ => IssueWorkOrder
  | RStageConsent _ => StageConsent
  | RCoordWhoAmI => CoordWhoAmI
  | RPeerShow _ => CoordPeerShow
  | RStage _ _ _ => CoordStage
  | RStageShow _ => CoordStageShow
  | RDispatch _ _ _ => CoordDispatch
  | RTaskStatus _ => CoordTaskStatus
  | REventsRead _ _ => CoordEventsRead
  | RCapabilityEvidence _ => CoordCapabilityEvidence
  end.

Inductive ControlResponse := COk (result : Json) | CProblem (p : Problem).

(** ** A connection *)

Definition MAX_COORD_REQUEST_BYTES : Z := 2 ^ 20.

Definition request_ceiling (s : Surface) : option Z :=
  match s with Coord => Some MAX_COORD_REQUEST_BYTES | Admin | Worker => None end.

(** [BufRead::read_line] up to a newline, within [take(max + 1)] where there is a ceiling;
    [None] is the error of a line that is not UTF-8. *)
Fixpoint upto_newline (l : bytes) : bytes :=
  match l with [] => [] | c :: l => if decide (c = Inert.newline) then [c] else c :: upto_newline l end.

Definition read_line (ceiling : option Z) (input : bytes) : option bytes :=
  let input := match ceiling with Some max => take (Z.to_nat (max + 1)) input | None => input end in
  let line := upto_newline input in
  if Inert.valid_utf8 line then Some line else None.

(** [serde_json::from_str::<ControlRequest>]; the error is its text. *)
Class RequestText := { parse_request : bytes -> result string ControlRequest }.

Context {RT : RequestText} {S : Type} (dispatch : ControlRequest -> S -> result Problem Json * S).

(** The response ([None] where the read fails) and the dispatcher's state. *)
Definition handle_connection (cred : option Z) (surface : Surface) (admission : Admission) (input : bytes) (s : S) :
  option ControlResponse * S :=
  if negb match cred with Some uid => admits admission uid | None => false end
  then (Some (CProblem (mkProblem "urn:akson:error:unauthorized" "local peer is not authorized" 403 None)), s) else
  match read_line (request_ceiling surface) input with
  | None => (None, s)
  | Some line =>
      if match request_ceiling surface with Some max => (max <? Z.of_nat (length line))%Z | None => false end
      then (Some (CProblem (problem 413 "request-too-large" "the control request exceeds this surface's ceiling")), s) else
      match parse_request (Inert.trim line) with
      | Err e => (Some (CProblem (mkProblem "urn:akson:error:malformed-request" "request is not a valid control request" 400 (Some e))), s)
      | Ok request =>
          match authorize surface (op request) with
          | Err p => (Some (CProblem p), s)
          | Ok _ => let '(r, s) := dispatch request s in (Some match r with Ok v => COk v | Err p => CProblem p end, s)
          end
      end
  end.

(** ** What reaches the dispatcher *)

(** The requests of the two narrow surfaces. *)
Definition worker_request (r : ControlRequest) : bool :=
  match r with RSubmitResult _ | RRequestProcessorCall _ _ _ => true | _ => false end.

Definition coord_request (r : ControlRequest) : bool :=
  match r with
  | RCoordWhoAmI | RPeerShow _ | RStage _ _ _ | RStageShow _ | RDispatch _ _ _ | RTaskStatus _ | REventsRead _ _
  | RCapabilityEvidence _ => true
  | _ => false
  end.

(** A surface may carry a request. *)
Definition carries (s : Surface) (r : ControlRequest) : bool :=
  match s with Admin => true | Worker => worker_request r | Coord => coord_request r end.

Lemma authorize_carries s r : authorize s (op r) = if carries s r then Ok () else Err (forbidden_surface s).
Proof. by destruct s, r. Qed.

(** C38. Nothing reaches the dispatcher but an authorized request: when a
    connection changes its state or is answered with a result, the caller's UID is admitted,
    the line is within the surface's ceiling and parses to a request the surface carries,
    and that request alone was dispatched. The worker surface carries two requests and the
    coordination surface eight, none in common, and neither carries consent, approval or
    pairing. *)
Theorem control_gate cred surface admission input s resp s' :
  handle_connection cred surface admission input s = (resp, s') ->
  s' <> s \/ (exists v, resp = Some (COk v)) ->
  exists uid line request, cred = Some uid /\ uid ∈ admission /\ read_line (request_ceiling surface) input = Some line /\
    (forall max, request_ceiling surface = Some max -> Z.of_nat (length line) <= max)%Z /\
    parse_request (Inert.trim line) = Ok request /\ carries surface request = true /\
    (surface = Admin \/ worker_request request = true /\ surface = Worker \/ coord_request request = true /\ surface = Coord) /\
    (surface <> Admin -> forall r t p a, request <> RStageConsent r /\ request <> RTaskApprove t p a) /\
    s' = (dispatch request s).2 /\
    resp = Some match (dispatch request s).1 with Ok v => COk v | Err p => CProblem p end.
Proof.
  unfold handle_connection. destruct cred as [uid|]; cbn [negb]; [|intros [= <- <-]; naive_solver].
  destruct (admits admission uid) eqn:Ea; cbn [negb]; [|intros [= <- <-]; naive_solver].
  destruct (read_line _ input) as [line|] eqn:El; [|intros [= <- <-]; naive_solver].
  destruct (match request_ceiling surface with Some max => _ | None => _ end) eqn:Ec; [intros [= <- <-]; naive_solver|].
  destruct (parse_request _) as [request|e] eqn:Ep; [|intros [= <- <-]; naive_solver].
  rewrite authorize_carries. destruct (carries surface request) eqn:Ecar; [|intros [= <- <-]; naive_solver].
  destruct (dispatch request s) as [r s1] eqn:Ed. intros [= <- <-] _. exists uid, line, request.
  unfold admits in Ea. apply existsb_exists in Ea as (u & Hu & ->%bool_decide_eq_true). rewrite <- list_elem_of_In in Hu.
  rewrite Ed. split_and!; try done.
  - intros max Hm. rewrite Hm in Ec. lia.
  - destruct surface; cbn [carries] in Ecar; naive_solver.
  - intros Hs r0 t p a. destruct surface; [done|..]; destruct request; done.
Qed.
End requests.
Arguments ControlRequest : clear implicits.
Arguments RequestText : clear implicits.

(** ** Witnesses *)

#[local] Instance sample_requests : RequestText () () :=
  {| parse_request := fun b => if decide (b = as_bytes "whoami") then Ok RCoordWhoAmI else Err "no" |}.

(** Counts its requests. *)
Definition sample_dispatch (_ : ControlRequest () ()) (n : nat) : result Problem Json * nat := (Ok JNull, S n).

Lemma sample_handled :
  handle_connection sample_dispatch (Some 1000%Z) Coord (coord_admission 0 1000) (as_bytes "whoami") 0
  = (Some (COk JNull), 1).
Proof. vm_compute. reflexivity. Qed.

Lemma control_gate_witness :
  exists uid line request, Some 1000%Z = Some uid /\ uid ∈ coord_admission 0 1000 /\
    read_line (request_ceiling Coord) (as_bytes "whoami") = Some line /\
    parse_request (Inert.trim line) = Ok request /\ carries Coord request = true.
Proof.
  destruct (control_gate sample_dispatch (Some 1000%Z) Coord (coord_admission 0 1000) (as_bytes "whoami") 0
    (Some (COk JNull)) 1 sample_handled (or_intror (ex_intro _ JNull eq_refl)))
    as (uid & line & request & H1 & H2 & H3 & _ & H4 & H5 & _).
  exists uid, line, request. exact (conj H1 (conj H2 (conj H3 (conj H4 H5)))).
Defined.
End Control.
