(* ===== verification/WorkOrder.v ===== *)
(** The one-shot work order (akson-authority/src/work_order.rs): the order, its
    digest and the local MAC. *)
From S2P Require Import Prelude Crypto Contract Capability.
Import Contract (Identity, Identity_eq_dec).

Module WorkOrder.

Record Audience := mkAudience { daemon : string; executor : string }.

Record RequestOrigin := mkOrigin { o_peer : Identity; tls_certificate_sha256 : string }.

Record Budgets := mkBudgets {
  max_cost_microusd : Z;
  max_bytes : Z;
  max_operations : Z;
}.

Record RemoteCancelCaveat := mkCaveat { allowed_origin : Identity }.

Record WorkOrder := mkWorkOrder {
  version : Z;
  work_order_id : string;
  w_issuer : Identity;
  issuer_assurance : string;
  audience : Audience;
  request_origin : RequestOrigin;
  task_id : string;
  w_context_id : string;
  w_message_id : string;
  contract_revision : Z;
  contract_digest : string;
  capabilities : Capability.CapabilityVector;
  input_manifest : list string;
  processor_digest : option string;
  runner_digest : option string;
  sandbox_digest : option string;
  profile_digest : option string;
  budgets : Budgets;
  w_evidence_slots : list string;
  policy_version : Z;
  decision_id : string;
  not_before : string;
  deadline : string;
  nonce : string;
  remote_cancel : option RemoteCancelCaveat;
}.

(** [mac] and [i_digest] are hex texts. *)
Record IssuedWorkOrder := mkIssued {
  order : WorkOrder;
  i_digest : string;
  mac : string;
}.

Inductive WorkOrderError := Canonicalize | BadMac | DigestMismatch.

Definition remote_cancel_allowed (o : WorkOrder) (origin : Identity) : bool :=
  match remote_cancel o with
  | Some c => bool_decide (allowed_origin c = origin)
  | None => false
  end.

Section work_order.
Context {HS : Hashes} {HX : Hex} {CN : Canon WorkOrder}.

Definition canonical_bytes (o : WorkOrder) : result WorkOrderError bytes :=
  ok_or (to_canon o) Canonicalize.

Definition digest (o : WorkOrder) : result WorkOrderError string :=
  b ← canonical_bytes o; Ok (hex_encode (sha256 b)).

Definition issue (o : WorkOrder) (key : bytes) : result WorkOrderError IssuedWorkOrder :=
  b ← canonical_bytes o;
  Ok (mkIssued o (hex_encode (sha256 b)) (hex_encode (hmac_sha256 key b))).

(** The comparisons are constant-time in the code; their verdict is equality. *)
Definition verify (i : IssuedWorkOrder) (key : bytes) : result WorkOrderError () :=
  b ← canonical_bytes (order i);
  stored ← ok_or (hex_decode (i_digest i)) DigestMismatch;
  if decide (sha256 b <> stored) then Err DigestMismatch
  else
    tag ← ok_or (hex_decode (mac i)) BadMac;
    if decide (tag = hmac_sha256 key b) then Ok () else Err BadMac.

Lemma mac_verify_Ok i key :
  verify i key = Ok () <->
  exists b, canonical_bytes (order i) = Ok b /\ hex_decode (i_digest i) = Some (sha256 b) /\
            hex_decode (mac i) = Some (hmac_sha256 key b).
Proof.
  unfold verify. unfold_result. destruct (canonical_bytes (order i)) as [b|]; [|naive_solver].
  destruct (hex_decode (i_digest i)) as [st|]; simpl; [|naive_solver].
  case_decide as Hd; [naive_solver|]. subst st.
  destruct (hex_decode (mac i)) as [tag|]; simpl; [|naive_solver].
  case_decide; naive_solver.
Qed.

(** An issued order verifies under the key it was issued with, and its MAC vouches
    for nothing else: an order that verifies with the MAC of an issued one has the
    same canonical bytes, hence the same digest, or exhibits an HMAC collision
    under the authority's key. *)
Theorem work_order_mac o key i o' :
  issue o key = Ok i ->
  verify i key = Ok () /\
  (forall dg, verify (mkIssued o' dg (mac i)) key = Ok () ->
     (canonical_bytes o' = canonical_bytes o /\ digest o' = digest o) \/ hmac_collision key).
Proof.
  unfold issue. unfold_result. destruct (canonical_bytes o) as [b|] eqn:Hb; [|done].
  intros [= <-]. split.
  - apply mac_verify_Ok. exists b. cbn [order i_digest mac]. by rewrite !hex_decode_encode.
  - intros dg (b' & Hb' & _ & Hm)%mac_verify_Ok. simpl in *. rewrite hex_decode_encode in Hm.
    injection Hm as Hm. destruct (decide (b = b')) as [<-|Hne].
    + left. unfold digest. unfold_result. by rewrite Hb, Hb'.
    + right. by exists b, b'.
Qed.
End work_order.

(** ** A wire format, for the witnesses *)

#[global] Instance Identity_wire : Wire Identity.
Proof.
  refine (wire_inj (fun i => (Contract.issuer i, Contract.agent i, Contract.root i))
    (fun '(a, b, c) => Contract.mkIdentity a b c) _). by intros [].
Defined.

#[global] Instance Grant_wire : Wire Capability.Grant.
Proof.
  refine (wire_inj
    (fun g => match g with
       | Capability.GRespond (Capability.mkRespondScope a b c d e f) => inl (inl (a, b, c, d, e, f))
       | Capability.GReadSuppliedInputs (Capability.mkReadInputsScope a b) => inl (inr (a, b))
       | Capability.GProcessorUse (Capability.mkProcessorUseScope a b c d) => inr (inl (a, b, c, d))
       | Capability.GArtifactExport (Capability.mkArtifactExportScope a b c d e) => inr (inr (a, b, c, d, e))
       end)
    (fun w => match w with
       | inl (inl (a, b, c, d, e, f)) => Capability.GRespond (Capability.mkRespondScope a b c d e f)
       | inl (inr (a, b)) => Capability.GReadSuppliedInputs (Capability.mkReadInputsScope a b)
       | inr (inl (a, b, c, d)) => Capability.GProcessorUse (Capability.mkProcessorUseScope a b c d)
       | inr (inr (a, b, c, d, e)) => Capability.GArtifactExport (Capability.mkArtifactExportScope a b c d e)
       end) _).
  by intros [[]|[]|[]|[]].
Defined.

#[global] Instance WorkOrder_wire : Wire WorkOrder.
Proof.
  refine (wire_inj
    (fun o => ((version o, work_order_id o, w_issuer o, issuer_assurance o, daemon (audience o),
        executor (audience o), o_peer (request_origin o), tls_certificate_sha256 (request_origin o),
        task_id o, w_context_id o, w_message_id o, contract_revision o, contract_digest o),
      (Capability.grants (capabilities o), input_manifest o, processor_digest o, runner_digest o,
        sandbox_digest o, profile_digest o, max_cost_microusd (budgets o), max_bytes (budgets o),
        max_operations (budgets o), w_evidence_slots o, policy_version o, decision_id o, not_before o,
        deadline o, nonce o, allowed_origin <$> remote_cancel o)))
    (fun '((a, b, c, d, e, f, g, h, i, j, k, l, m), (n, o, p, q, r, s, t, u, v, w, x, y, z, a1, a2, a3)) =>
      mkWorkOrder a b c d (mkAudience e f) (mkOrigin g h) i j k l m (Capability.mkVector n) o p q r s
        (mkBudgets t u v) w x y z a1 a2 (mkCaveat <$> a3)) _).
  by intros [? ? ? ? [] [] ? ? ? ? ? [] ? ? ? ? ? [] ? ? ? ? ? ? [[]|]].
Defined.

#[global] Instance IssuedWorkOrder_wire : Wire IssuedWorkOrder.
Proof.
  refine (wire_inj (fun i => (order i, i_digest i, mac i)) (fun '(a, b, c) => mkIssued a b c) _).
  by intros [].
Defined.

(** ** Witness *)

Definition sample_order (id nonce : string) : WorkOrder :=
  {| version := 1; work_order_id := id; w_issuer := Contract.sample_identity "a";
     issuer_assurance := "local-human"; audience := mkAudience "aksond" "worker-1";
     request_origin := mkOrigin (Contract.sample_identity "r") "ab"; task_id := "task-1";
     w_context_id := "ctx"; w_message_id := "msg"; contract_revision := 0; contract_digest := "dg";
     capabilities := Capability.mkVector
       [Capability.GReadSuppliedInputs (Capability.mkReadInputsScope ["in"] "dg")];
     input_manifest := ["in"]; processor_digest := None; runner_digest := None;
     sandbox_digest := None; profile_digest := None; budgets := mkBudgets 500 8192 4;
     w_evidence_slots := []; policy_version := 1; decision_id := "d";
     not_before := "2026-01-01T00:00:00Z"; deadline := "2030-01-01T00:00:00Z"; nonce := nonce;
     remote_cancel := None |}.

Example work_order_mac_witness :
  exists i, @issue ToyHashes ToyHex (ToyCanon WorkOrder) (sample_order "w1" "n1") (as_bytes "key") = Ok i /\
    @verify ToyHashes ToyHex (ToyCanon WorkOrder) i (as_bytes "key") = Ok ().
Proof.
  eexists. split; [reflexivity|].
  apply (@work_order_mac ToyHashes ToyHex (ToyCanon WorkOrder) (sample_order "w1" "n1") (as_bytes "key") _
           (sample_order "w1" "n1")).
  reflexivity.
Defined.
End WorkOrder.
