(* ===== verification/Envelope.v ===== *)
(** Envelope encryption of sensitive columns (akson-store/src/envelope.rs).

    The AEAD itself is the [Aead] interface; what the file adds is the sealed
    format [0x01 || nonce(24) || ciphertext], the version and length checks and
    the wrapping of the data key.  The random nonce is an explicit argument: the
    bytes the generator produced for this call. *)
From S2P Require Import Prelude Crypto.

Module Envelope.

Definition VERSION : byte := byte_of_Z 1.
Definition NONCE_LEN : nat := 24.
Definition DEK_CONTEXT : string := "akson.dek.v1".

Inductive SealError :=
| Malformed
| Version (v : byte)
| Auth.

#[global] Instance SealError_eq_dec : EqDecision SealError.
Proof. solve_decision. Defined.

Section envelope.
Context {AE : Aead}.

(** [unwrap_or_default]: a refused encryption leaves an empty ciphertext. *)
Definition seal_with (key nonce : bytes) (context : string) (plaintext : bytes) : bytes :=
  let ct := default [] (aead_encrypt key nonce (as_bytes context) plaintext) in
  VERSION :: nonce ++ ct.

Definition open_with (key : bytes) (context : string) (sealed : bytes) :
  result SealError bytes :=
  match sealed with
  | [] => Err Malformed
  | version :: rest =>
      if decide (version <> VERSION) then Err (Version version)
      else if decide (length rest < NONCE_LEN) then Err Malformed
      else
        let nonce := take NONCE_LEN rest in
        let ct := drop NONCE_LEN rest in
        ok_or (aead_decrypt key nonce (as_bytes context) ct) Auth
  end.

(** [DataKey::wrap] and [DataKey::unwrap]; a key is 32 bytes. *)
Definition wrap (kek nonce dek : bytes) : bytes := seal_with kek nonce DEK_CONTEXT dek.

Definition unwrap (kek wrapped : bytes) : result SealError bytes :=
  b ← open_with kek DEK_CONTEXT wrapped;
  if decide (length b = 32) then Ok b else Err Malformed.

Lemma open_seal key nonce context plaintext :
  length nonce = NONCE_LEN -> (Z.of_nat (length plaintext) <= aead_limit)%Z ->
  open_with key context (seal_with key nonce context plaintext) = Ok plaintext.
Proof.
  intros Hn Hfit.
  destruct (aead_encrypt_fits key nonce (as_bytes context) plaintext Hfit) as [ct Hct].
  unfold seal_with, open_with. rewrite Hct. simpl.
  rewrite decide_False by (rewrite length_app; lia).
  replace NONCE_LEN with (length nonce). rewrite take_app_length, drop_app_length.
  by erewrite aead_decrypt_encrypt.
Qed.

Lemma unwrap_wrap kek nonce k :
  length nonce = NONCE_LEN -> (32 <= aead_limit)%Z -> length k = 32 ->
  unwrap kek (wrap kek nonce k) = Ok k.
Proof.
  intros Hn Hl Hk. unfold unwrap, wrap. rewrite open_seal by (done || (rewrite Hk; lia)).
  unfold_result. by rewrite decide_True.
Qed.

(** Sealing under a column's context and opening under the same one returns the
    plaintext, and a wrapped data key unwraps to itself, provided the generator
    gave a full nonce and the cipher accepts the length. *)
Theorem seal_round_trip key nonce context plaintext dek :
  length nonce = NONCE_LEN ->
  (Z.of_nat (length plaintext) <= aead_limit)%Z -> (32 <= aead_limit)%Z ->
  length dek = 32 ->
  open_with key context (seal_with key nonce context plaintext) = Ok plaintext /\
  unwrap key (wrap key nonce dek) = Ok dek.
Proof.
  intros Hn Hp Hl Hd. split; [by apply open_seal|by apply unwrap_wrap].
Qed.

(** Every refusal is one of the three checks, in this order. *)
Theorem open_refusals key context sealed e :
  open_with key context sealed = Err e ->
  match e with
  | Version v => head sealed = Some v /\ v <> VERSION
  | Malformed => sealed = [] \/ (head sealed = Some VERSION /\ length sealed <= NONCE_LEN)
  | Auth => NONCE_LEN < length sealed /\
            aead_decrypt key (take NONCE_LEN (tail sealed)) (as_bytes context)
                         (drop NONCE_LEN (tail sealed)) = None
  end.
Proof.
  destruct sealed as [|v rest]; simpl; [intros [= <-]; by left|].
  case_decide as Hv; [by intros [= <-]|]. subst v.
  case_decide as Hl; [intros [= <-]; right; split; [done|lia]|].
  destruct (aead_decrypt _ _ _ _) eqn:Hd; simpl; [done|]. intros [= <-]. split; [lia|done].
Qed.
End envelope.

Example seal_round_trip_witness :
  @open_with ToyAead (repeat "k"%char 32) "peers.record"
    (@seal_with ToyAead (repeat "k"%char 32) (repeat "n"%char 24) "peers.record" (as_bytes "note"))
  = Ok (as_bytes "note").
Proof.
  apply (@seal_round_trip ToyAead (repeat "k"%char 32) (repeat "n"%char 24) "peers.record"
           (as_bytes "note") (repeat "d"%char 32)); [reflexivity|vm_compute; discriminate..|reflexivity].
Defined.
End Envelope.
