(* ===== verification/AuditLog.v ===== *)
(** The append-only, hash-linked audit log (akson-store/src/audit.rs).

    The table is the list of its rows in [seq] order.  [append] links a record to
    the current head, [verify_chain] walks the chain; the tamper-evidence theorem
    says that two logs that verify and end in the same hash are the same log, or
    else they exhibit a SHA-256 collision. *)
From S2P Require Import Prelude Crypto.

Module Audit.

Record AuditRow := mkRow {
  a_seq : Z;
  a_ts : Z;
  a_event : string;
  a_detail : string;
  a_prev_hash : bytes;
  a_hash : bytes;
}.

Definition GENESIS : bytes := repeat (byte_of_Z 0) 32.

Section audit.
Context {HS : Hashes}.

(** The hashed bytes: [prev || seq || ts || len(event) || event || len(detail)
    || detail], every number a big-endian 64-bit word. *)
Definition record_preimage (prev : bytes) (seq ts : Z) (event detail : string) : bytes :=
  prev ++ to_be_bytes 8 seq ++ to_be_bytes 8 ts
    ++ to_be_bytes 8 (Z.of_nat (length (as_bytes event))) ++ as_bytes event
    ++ to_be_bytes 8 (Z.of_nat (length (as_bytes detail))) ++ as_bytes detail.

Definition record_hash (prev : bytes) (seq ts : Z) (event detail : string) : bytes :=
  sha256 (record_preimage prev seq ts event detail).

(** The most recent record's hash ([ORDER BY seq DESC LIMIT 1]); a stored hash
    that is not 32 bytes reads as [GENESIS]. *)
Definition head (log : list AuditRow) : bytes :=
  match last log with
  | Some r => if decide (length (a_hash r) = 32) then a_hash r else GENESIS
  | None => GENESIS
  end.

(** [COALESCE(MAX(seq), 0)]. *)
Definition max_seq (log : list AuditRow) : Z :=
  foldr (fun r m => Z.max (a_seq r) m) 0%Z log.

Definition append (log : list AuditRow) (ts : Z) (event detail : string) :
  Z * list AuditRow :=
  let prev := head log in
  let next_seq := (max_seq log + 1)%Z in
  let hash := record_hash prev next_seq ts event detail in
  (next_seq, log ++ [mkRow next_seq ts event detail prev hash]).

(** The walk of [verify_chain]: [Ok count], or the [seq] of the first break. *)
Fixpoint verify_from (prev : bytes) (count : Z) (log : list AuditRow) : result Z Z :=
  match log with
  | [] => Ok count
  | r :: log =>
      let expected := record_hash prev (a_seq r) (a_ts r) (a_event r) (a_detail r) in
      if decide (a_prev_hash r <> prev \/ a_hash r <> expected) then Err (a_seq r)
      else verify_from expected (count + 1) log
  end.

Definition verify_chain (log : list AuditRow) : result Z Z := verify_from GENESIS 0 log.

(** ** The chain as a relation *)

Inductive linked : bytes -> list AuditRow -> bytes -> Prop :=
| linked_nil p : linked p [] p
| linked_cons p r rs h :
    a_prev_hash r = p ->
    a_hash r = record_hash p (a_seq r) (a_ts r) (a_event r) (a_detail r) ->
    linked (a_hash r) rs h ->
    linked p (r :: rs) h.

Lemma verify_from_linked prev count log n :
  verify_from prev count log = Ok n ->
  n = (count + Z.of_nat (length log))%Z /\ exists h, linked prev log h.
Proof.
  revert prev count. induction log as [|r log IH]; intros prev count; simpl.
  - intros [= <-]. split; [lia|]. eexists; constructor.
  - case_decide as Hd; [done|]. apply not_or_and in Hd as [H1 H2].
    apply dec_stable in H1, H2. intros Hv. apply IH in Hv as (-> & h & Hl).
    split; [lia|]. exists h. constructor; [done..|]. by rewrite H2.
Qed.

Lemma linked_verify prev count log h :
  linked prev log h -> verify_from prev count log = Ok (count + Z.of_nat (length log))%Z.
Proof.
  intros Hl. revert count. induction Hl as [p|p r rs h Hp Hh Hl IH]; intros count; simpl.
  - f_equal; lia.
  - rewrite decide_False by (intros [?|?]; congruence). rewrite <- Hh, IH. f_equal; lia.
Qed.

Lemma linked_app p log1 log2 h h' :
  linked p log1 h -> linked h log2 h' -> linked p (log1 ++ log2) h'.
Proof. induction 1; [done|]. intros. constructor; auto. Qed.

Lemma linked_snoc_inv p log r h :
  linked p (log ++ [r]) h ->
  exists h', linked p log h' /\ a_prev_hash r = h' /\
    a_hash r = record_hash h' (a_seq r) (a_ts r) (a_event r) (a_detail r) /\ h = a_hash r.
Proof.
  revert p. induction log as [|r' log IH]; simpl; intros p Hl; inversion Hl as [|? ? ? ? Hp Hh Hr]; subst.
  - inversion Hr; subst. eexists; split_and!; [constructor|done..].
  - apply IH in Hr as (h' & ? & ? & ? & ?). exists h'. split_and!; [by constructor|done..].
Qed.

(** The end of a linked log is what [head] reads. *)
Lemma linked_head log h : linked GENESIS log h -> head log = h.
Proof.
  intros Hl. unfold head. destruct log as [|r log _] using rev_ind.
  - by inversion Hl.
  - apply linked_snoc_inv in Hl as (h' & _ & _ & Hr & ->). rewrite last_snoc.
    rewrite decide_True; [done|]. rewrite Hr. apply sha256_length.
Qed.

Lemma linked_append log ts event detail h :
  linked GENESIS log h -> exists h', linked GENESIS (append log ts event detail).2 h'.
Proof.
  intros Hl. eexists. eapply linked_app; [done|].
  rewrite <- (linked_head _ _ Hl). constructor; [done..|]. constructor.
Qed.

(** Every log the program writes verifies: appending to a log that verifies gives
    one that verifies, with one more record. *)
Theorem append_verifies log ts event detail n :
  verify_chain log = Ok n ->
  verify_chain (append log ts event detail).2 = Ok (n + 1)%Z.
Proof.
  unfold verify_chain. intros (-> & h & Hl)%verify_from_linked.
  destruct (linked_append log ts event detail h Hl) as [h' Hl'].
  rewrite (linked_verify _ 0 _ _ Hl'). simpl. rewrite length_app. simpl. f_equal; lia.
Qed.

(** ** Tamper evidence *)

(** The columns' types: [i64] numbers and texts whose length fits a [u64]. *)
Definition row_wf (r : AuditRow) : Prop :=
  in_i64 (a_seq r) /\ in_i64 (a_ts r) /\
  in_u64 (Z.of_nat (length (as_bytes (a_event r)))) /\
  in_u64 (Z.of_nat (length (as_bytes (a_detail r)))).

Lemma be8_u64 x y :
  in_u64 x -> in_u64 y -> to_be_bytes 8 x = to_be_bytes 8 y -> x = y.
Proof.
  unfold in_u64, u64_max. intros ? ? Hbe%to_be_bytes_inj.
  rewrite !Z.mod_small in Hbe; [done|..]; simpl; lia.
Qed.

Lemma be8_i64 x y :
  in_i64 x -> in_i64 y -> to_be_bytes 8 x = to_be_bytes 8 y -> x = y.
Proof.
  unfold in_i64, i64_min, i64_max. intros ? ? Hbe%to_be_bytes_inj.
  change (256 ^ Z.of_nat 8)%Z with (2 ^ 64)%Z in Hbe.
  apply (f_equal (fun z => as_i64 z)) in Hbe. unfold as_i64 in Hbe.
  rewrite !Zplus_mod_idemp_l, !Z.mod_small in Hbe; lia.
Qed.

(** The hashed bytes determine the record and the link. *)
Lemma preimage_inj p p' r r' :
  length p = 32 -> length p' = 32 -> row_wf r -> row_wf r' ->
  record_preimage p (a_seq r) (a_ts r) (a_event r) (a_detail r) =
  record_preimage p' (a_seq r') (a_ts r') (a_event r') (a_detail r') ->
  p = p' /\ a_seq r = a_seq r' /\ a_ts r = a_ts r' /\ a_event r = a_event r' /\
  a_detail r = a_detail r'.
Proof.
  intros Hp Hp' (?&?&?&?) (?&?&?&?) HP. unfold record_preimage in HP.
  apply app_inj_length in HP as [-> HP]; [|lia].
  apply app_inj_length in HP as [Hs HP]; [|by rewrite !length_to_be_bytes].
  apply app_inj_length in HP as [Ht HP]; [|by rewrite !length_to_be_bytes].
  apply app_inj_length in HP as [Hle HP]; [|by rewrite !length_to_be_bytes].
  apply be8_u64 in Hle; [|done..].
  apply app_inj_length in HP as [He HP]; [|lia].
  apply app_inj_length in HP as [_ Hd]; [|by rewrite !length_to_be_bytes].
  apply be8_i64 in Hs, Ht; [|done..]. apply as_bytes_inj in He, Hd. done.
Qed.

Lemma linked_length p log h : length p = 32 -> linked p log h -> length h = 32.
Proof. intros Hp. induction 1 as [|p r rs h _ Hh _ IH]; [done|]. apply IH. rewrite Hh. apply sha256_length. Qed.

(** A forged log must exhibit a collision. *)
Lemma linked_unique log1 log2 h :
  Forall row_wf log1 -> Forall row_wf log2 -> length log1 = length log2 ->
  linked GENESIS log1 h -> linked GENESIS log2 h ->
  log1 = log2 \/ sha256_collision.
Proof.
  revert log2 h. induction log1 as [|r1 log1 IH] using rev_ind; intros log2 h Hw1 Hw2 Hlen Hl1 Hl2.
  { destruct log2; [by left|done]. }
  destruct log2 as [|r2 log2 _] using rev_ind; [rewrite length_app in Hlen; simpl in *; lia|].
  rewrite !length_app in Hlen. simpl in Hlen.
  rewrite Forall_app, Forall_singleton in Hw1, Hw2.
  destruct Hw1 as [Hw1 Hr1], Hw2 as [Hw2 Hr2].
  apply linked_snoc_inv in Hl1 as (h1 & Hl1 & Hp1 & Hh1 & ->).
  apply linked_snoc_inv in Hl2 as (h2 & Hl2 & Hp2 & Hh2 & Heq).
  destruct (decide (record_preimage h1 (a_seq r1) (a_ts r1) (a_event r1) (a_detail r1) =
                    record_preimage h2 (a_seq r2) (a_ts r2) (a_event r2) (a_detail r2))) as [He|Hne].
  - pose proof (linked_length GENESIS _ _ eq_refl Hl1) as L1.
    pose proof (linked_length GENESIS _ _ eq_refl Hl2) as L2.
    apply preimage_inj in He as (-> & ? & ? & ? & ?); [|done..].
    destruct (IH log2 h2) as [->|Hc]; [done|done|lia|done|done| |by right].
    left. do 2 f_equal. destruct r1, r2; simpl in *; congruence.
  - right. eexists _, _. split; [done|]. unfold record_hash in *. congruence.
Qed.

(** Tamper evidence. Take a log that verifies and any other log of as many
    records that also verifies and ends in the same hash (the value an external
    checkpoint would hold): it is the same log, field by field, unless the two
    exhibit a SHA-256 collision. *)
Theorem tamper_evidence log1 log2 n :
  Forall row_wf log1 -> Forall row_wf log2 ->
  verify_chain log1 = Ok n -> verify_chain log2 = Ok n ->
  head log1 = head log2 ->
  log1 = log2 \/ sha256_collision.
Proof.
  intros Hw1 Hw2 (-> & h1 & Hl1)%verify_from_linked (Hn & h2 & Hl2)%verify_from_linked Hh.
  rewrite (linked_head _ _ Hl1), (linked_head _ _ Hl2) in Hh. subst h2.
  apply (linked_unique _ _ h1); [done|done|lia|done|done].
Qed.

(** The walk stops at the first record that does not link or does not hash. *)
Theorem verify_break log seq :
  verify_chain log = Err seq <->
  exists pre r post h, log = pre ++ r :: post /\ linked GENESIS pre h /\ a_seq r = seq /\
    (a_prev_hash r <> h \/
     a_hash r <> record_hash h (a_seq r) (a_ts r) (a_event r) (a_detail r)).
Proof.
  unfold verify_chain. generalize GENESIS 0%Z. induction log as [|r log IH]; intros p c; simpl.
  - split; [done|]. intros (pre & r & post & h & He & _). by destruct pre.
  - case_decide as Hd.
    + split.
      * intros [= <-]. exists [], r, log, p. split_and!; [done|constructor|done|done].
      * intros (pre & r' & post & h & He & Hl & Hs & Hb). destruct pre as [|r0 pre]; simplify_eq/=.
        -- inversion Hl; subst. done.
        -- inversion Hl; subst. destruct_or!; congruence.
    + apply not_or_and in Hd as [H1 H2]. apply dec_stable in H1, H2.
      rewrite IH. split; intros (pre & r' & post & h & He & Hl & Hs & Hb).
      * subst log. exists (r :: pre), r', post, h. split_and!; [done| |done|done].
        constructor; [done|done|]. by rewrite H2.
      * destruct pre as [|r0 pre]; simplify_eq/=.
        -- inversion Hl; subst. destruct_or!; congruence.
        -- inversion Hl; subst. exists pre, r', post, h. rewrite <- H2. done.
Qed.
End audit.

(** ** Witnesses *)

Definition sample_log : list AuditRow :=
  (@append ToyHashes (@append ToyHashes [] 100 "pair.created" "peer=abc").2 101 "a" "b").2.

Example append_verifies_witness :
  @verify_chain ToyHashes (@append ToyHashes sample_log 102 "c" "d").2 = Ok 3%Z.
Proof. apply (@append_verifies ToyHashes sample_log 102 "c" "d" 2). vm_compute. reflexivity. Defined.

#[global] Instance row_wf_dec r : Decision (row_wf r).
Proof. unfold row_wf, in_i64, in_u64. apply _. Defined.

Lemma sample_log_wf : Forall row_wf sample_log.
Proof. apply (bool_decide_unpack _). vm_compute. exact I. Qed.

Example tamper_evidence_witness : sample_log = sample_log \/ @sha256_collision ToyHashes.
Proof.
  apply (@tamper_evidence ToyHashes sample_log sample_log 2);
    [apply sample_log_wf|apply sample_log_wf|vm_compute; reflexivity..|reflexivity].
Defined.
End Audit.
