(* ===== verification/Delivery.v ===== *)
(** Reliable-delivery primitives (akson-store/src/delivery.rs): the RFC 9530
    Content-Digest, the covered-value tuple with its normalization and keyed
    commitment, and the tombstone lifetime.  The store operations over them are in
    [StoreInbox]. *)
From S2P Require Import Prelude Crypto.

Module Delivery.

Inductive DeliveryError := Missing | NotSingle | Algorithm | Malformed | Mismatch.

#[global] Instance DeliveryError_eq_dec : EqDecision DeliveryError.
Proof. solve_decision. Defined.

(** ** String operations of the header parser. The header is visible ASCII, so
    [trim] strips ASCII white space. *)

Definition is_white (c : byte) : bool :=
  let n := byte_to_Z c in (n =? 32)%Z || ((9 <=? n)%Z && (n <=? 13)%Z).

Fixpoint trim_start (l : bytes) : bytes :=
  match l with
  | c :: l' => if is_white c then trim_start l' else l
  | [] => []
  end.

Definition trim (l : bytes) : bytes := reverse (trim_start (reverse (trim_start l))).

(** [str::split_once] at a character. *)
Fixpoint split_once (c : byte) (l : bytes) : option (bytes * bytes) :=
  match l with
  | [] => None
  | d :: l => if decide (d = c) then Some ([], l)
              else '(a, b) ← split_once c l; Some (d :: a, b)
  end.

Definition strip_prefix_char (c : byte) (l : bytes) : option bytes :=
  match l with d :: l => if decide (d = c) then Some l else None | [] => None end.

Definition strip_suffix_char (c : byte) (l : bytes) : option bytes :=
  reverse <$> strip_prefix_char c (reverse l).

Section digest.
Context {HS : Hashes} {B64 : Base64}.

Definition body_digest (body : bytes) : string := b64_encode (sha256 body).

Definition content_digest (body : bytes) : string :=
  "sha-256=:" +:+ body_digest body +:+ ":".

Definition verify_content_digest (header : string) (body : bytes) : result DeliveryError () :=
  let header := trim (as_bytes header) in
  if decide (header = []) then Err Missing
  else if decide (","%char ∈ header) then Err NotSingle
  else
    '(alg, value) ← ok_or (split_once "="%char header) Malformed;
    if decide (trim alg <> as_bytes "sha-256") then Err Algorithm
    else
      inner ← ok_or (v ← strip_prefix_char ":"%char (trim value);
                     strip_suffix_char ":"%char v) Malformed;
      got ← ok_or (b64_decode (from_utf8 inner)) Malformed;
      if decide (got <> sha256 body) then Err Mismatch else Ok ().
End digest.

(** ** Covered values *)

Record CoveredValues := mkCovered {
  peer : string;
  message_id : string;
  cv_body_digest : string;
  interface_url : string;
  tenant : option string;
  a2a_version : string;
  extensions : list string;
  content_type : string;
  http_method : string;
}.

#[global] Instance CoveredValues_eq_dec : EqDecision CoveredValues.
Proof. solve_decision. Defined.

(** [Vec::dedup]: drops an element equal to the one kept before it. *)
Fixpoint dedup (l : list string) : list string :=
  match l with
  | x :: l' =>
      match l' with
      | y :: _ => if decide (x = y) then dedup l' else x :: dedup l'
      | [] => [x]
      end
  | [] => []
  end.

Definition normalized (c : CoveredValues) : CoveredValues :=
  {| peer := peer c; message_id := message_id c; cv_body_digest := cv_body_digest c;
     interface_url := interface_url c; tenant := tenant c; a2a_version := a2a_version c;
     extensions := dedup (sort_text (extensions c));
     content_type := content_type c; http_method := http_method c |}.

Section commitment.
Context {HS : Hashes} {CC : Codec CoveredValues}.

(** RFC 8785 bytes of the tuple: the JSON codec of the struct. *)
Definition canonical_bytes (c : CoveredValues) : bytes := encode c.

Definition commitment (c : CoveredValues) (key : bytes) : bytes :=
  hmac_sha256 key (canonical_bytes c).

Lemma canonical_inj c c' : canonical_bytes c = canonical_bytes c' -> c = c'.
Proof.
  unfold canonical_bytes. intros H. apply (f_equal decode) in H.
  rewrite !decode_encode in H. congruence.
Qed.

(** Equal commitments are equal covered values, or an HMAC collision. *)
Lemma commitment_binds c c' key :
  commitment c key = commitment c' key -> c = c' \/ hmac_collision key.
Proof.
  intros Hc. destruct (decide (c = c')) as [|Hne]; [by left|right].
  exists (canonical_bytes c), (canonical_bytes c'). split; [|done].
  by intros ?%canonical_inj.
Qed.
End commitment.

(** [u64] seconds; the sum wraps as [u64] addition does without overflow checks. *)
Definition tombstone_lifetime_secs (task_retention max_retry_window contract_expiry : Z) : Z :=
  Z.max task_retention (as_u64 (max_retry_window + contract_expiry)).

(** The tombstone outlives the task retention and the sender's whole retry
    horizon, as long as that horizon is representable. *)
Lemma tombstone_outlives r w e :
  in_u64 (w + e) ->
  (r <= tombstone_lifetime_secs r w e /\ w + e <= tombstone_lifetime_secs r w e)%Z.
Proof.
  unfold tombstone_lifetime_secs, as_u64, in_u64, u64_max. intros. rewrite Z.mod_small by lia. lia.
Qed.

(** ** Normalization *)

Lemma elem_of_dedup x l : x ∈ dedup l <-> x ∈ l.
Proof.
  induction l as [|y [|z l] IH]; [done..|].
  change (dedup (y :: z :: l)) with (if decide (y = z) then dedup (z :: l) else y :: dedup (z :: l)).
  case_decide; subst; set_solver.
Qed.

Lemma dedup_sorted l : StronglySorted text_le l -> StronglySorted text_le (dedup l) /\ NoDup (dedup l).
Proof.
  induction l as [|y l IH]; [repeat constructor|].
  intros Hs. inversion Hs as [|? ? Hl Hy]; subst. specialize (IH Hl) as [IH1 IH2].
  destruct l as [|z l]; [split; [repeat constructor|apply NoDup_singleton]|].
  change (dedup (y :: z :: l)) with (if decide (y = z) then dedup (z :: l) else y :: dedup (z :: l)).
  case_decide as Hyz; [done|].
  rewrite Forall_forall in Hy. split.
  - constructor; [done|]. apply Forall_forall. intros x Hx. rewrite elem_of_dedup in Hx. by apply Hy.
  - constructor; [|done]. intros Hin. rewrite elem_of_dedup in Hin.
    assert (text_le y z) by (apply Hy; left).
    assert (text_le z y).
    { inversion Hl as [|? ? _ Hz]; subst. apply elem_of_cons in Hin as [->|Hin]; [done|].
      rewrite Forall_forall in Hz. by apply Hz. }
    apply Hyz. by apply (anti_symm text_le).
Qed.

(** The normal form of the extension list depends on the set it lists only. *)
Lemma normal_extensions l l' :
  dedup (sort_text l) = dedup (sort_text l') <-> forall x, x ∈ l <-> x ∈ l'.
Proof.
  assert (forall l x, x ∈ dedup (sort_text l) <-> x ∈ l) as Hin.
  { intros k x. rewrite elem_of_dedup. by rewrite sort_text_perm. }
  split.
  - intros H x. rewrite <- (Hin l), <- (Hin l'). by rewrite H.
  - intros H. destruct (dedup_sorted _ (sort_text_sorted l)) as [S N].
    destruct (dedup_sorted _ (sort_text_sorted l')) as [S' N'].
    apply (StronglySorted_unique text_le); [done..|].
    apply NoDup_Permutation; [done..|]. intros x. by rewrite !Hin.
Qed.

(** Two requests have one identity exactly when every covered value agrees and
    the extension lists name the same set; the order and the repetitions of the
    extensions do not matter, and normalizing twice changes nothing. *)
Theorem covered_identity c c' :
  (normalized c = normalized c' <->
     peer c = peer c' /\ message_id c = message_id c' /\ cv_body_digest c = cv_body_digest c' /\
     interface_url c = interface_url c' /\ tenant c = tenant c' /\
     a2a_version c = a2a_version c' /\ content_type c = content_type c' /\
     http_method c = http_method c' /\ (forall x, x ∈ extensions c <-> x ∈ extensions c')) /\
  normalized (normalized c) = normalized c.
Proof.
  split.
  - rewrite <- normal_extensions. unfold normalized. split.
    + intros [= ? ? ? ? ? ? He ? ?]. done.
    + intros (?&?&?&?&?&?&?&?&He). f_equal; done.
  - unfold normalized at 1. simpl. unfold normalized. f_equal.
    apply normal_extensions. intros x. rewrite elem_of_dedup. by rewrite sort_text_perm.
Qed.

(** ** The Content-Digest round trip *)

Lemma trim_start_id l : (forall c, head l = Some c -> is_white c = false) -> trim_start l = l.
Proof. destruct l as [|c l]; [done|]. simpl. intros ->; done. Qed.

Lemma trim_id l :
  (forall c, head l = Some c -> is_white c = false) ->
  (forall c, last l = Some c -> is_white c = false) -> trim l = l.
Proof.
  intros Hh Hl. unfold trim. rewrite (trim_start_id l) by done.
  rewrite trim_start_id; [apply reverse_involutive|].
  intros c. rewrite head_reverse. apply Hl.
Qed.

Section round_trip.
Context {HS : Hashes} {B64 : Base64}.

Lemma as_bytes_content_digest body :
  as_bytes (content_digest body) =
  as_bytes "sha-256" ++ "="%char :: ":"%char :: as_bytes (body_digest body) ++ [":"%char].
Proof. unfold content_digest. by rewrite !as_bytes_app. Qed.

Lemma split_once_app c a b : c ∉ a -> split_once c (a ++ c :: b) = Some (a, b).
Proof.
  induction a as [|d a IH]; simpl; intros Hn.
  - by rewrite decide_True.
  - rewrite decide_False by set_solver. by rewrite IH by set_solver.
Qed.

Lemma trim_digest body : trim (as_bytes (content_digest body)) = as_bytes (content_digest body).
Proof.
  rewrite as_bytes_content_digest. apply trim_id; [by intros c [= <-]|].
  intros c. rewrite !app_comm_cons, app_assoc, last_snoc. by intros [= <-].
Qed.

Lemma strip_colons l :
  (v ← strip_prefix_char ":"%char (":"%char :: l ++ [":"%char]);
   strip_suffix_char ":"%char v) = Some l.
Proof.
  simpl. unfold strip_suffix_char. rewrite reverse_snoc. simpl. by rewrite reverse_involutive.
Qed.

(** A header made for a body verifies against that body, and against another
    body exactly when the two have the same SHA-256; otherwise it is reported as
    a mismatch. *)
Theorem content_digest_round_trip body body' :
  verify_content_digest (content_digest body) body = Ok () /\
  verify_content_digest (content_digest body) body' =
    (if decide (sha256 body = sha256 body') then Ok () else Err Mismatch).
Proof.
  assert (forall body', verify_content_digest (content_digest body) body' =
    (if decide (sha256 body = sha256 body') then Ok () else Err Mismatch)) as Hv.
  { clear body'. intros body'. unfold verify_content_digest. rewrite trim_digest, as_bytes_content_digest.
    rewrite decide_False by done. rewrite decide_False.
    2: { rewrite elem_of_app, !elem_of_cons, elem_of_app, list_elem_of_singleton.
         intros [Hc|[Hc|[Hc|[Hc|Hc]]]]; try done.
         - by apply (bool_decide_pack _) in Hc; vm_compute in Hc.
         - by apply b64_alphabet in Hc as [? _]. }
    rewrite split_once_app by (apply (bool_decide_unpack _); vm_compute; exact I). unfold_result. simpl ok_or.
    cbv iota beta. rewrite decide_False by (intros Hne; apply Hne; reflexivity).
    rewrite trim_id.
    2: { by intros c [= <-]. }
    2: { intros c. rewrite app_comm_cons, last_snoc. by intros [= <-]. }
    rewrite strip_colons. simpl ok_or. cbv iota beta. unfold body_digest.
    rewrite from_utf8_as_bytes, b64_decode_encode. simpl ok_or. cbv iota beta.
    by repeat case_decide. }
  split; [|done]. rewrite Hv. by rewrite decide_True.
Qed.
End round_trip.
End Delivery.
