(* ===== verification/Db.v ===== *)
(** The database schema (akson-store/src/schema.rs at version 23) and the store
    monad.

    One row type per table, one finite map per table keyed by its primary key
    (the two [AUTOINCREMENT] logs are lists in sequence order), grouped by the
    part of the store that writes them.  SQL statements become the map operations
    of [Prelude]: a strict [INSERT] refuses a duplicate key, [ON CONFLICT DO
    NOTHING] keeps the old row, an [UPDATE ... WHERE] rewrites the matching rows
    and reports how many there were.

    A store operation is one [IMMEDIATE] transaction: it reads and writes the
    whole database and either returns a value with the new database or fails,
    and then the transaction is rolled back, so the failure carries no state. *)
From S2P Require Import Prelude Crypto Envelope AuditLog.

Module Schema.

(** ** Rows *)

Record PeerRow := mkPeerRow {
  pr_agent_id : string;
  pr_issuer : option string;
  pr_endpoint_id : string;
  pr_agent_card_thumbprint : string;
  pr_record : bytes;
  pr_created_generation : Z;
  pr_status : string;
}.

Record PeerKeyRow := mkPeerKeyRow {
  pk_agent_id : string;
  pk_issuer : string;
  pk_public_key : bytes;
  pk_root_thumbprint : string;
  pk_updated_at : Z;
}.

Record ImportRow := mkImportRow {
  im_label : option string;
  im_endpoint_hint : string;
  im_epoch : Z;
  im_added_at : Z;
  im_tombstoned_at : option Z;
}.

Record KnockRow := mkKnockRow {
  kn_first_at : Z;
  kn_last_at : Z;
  kn_count : Z;
}.

Record AutoApproveRow := mkAutoApproveRow {
  aa_agent_id : string;
  aa_task_types : string;
  aa_max_response_bytes : Z;
  aa_updated_at : Z;
}.

Record InboxRow := mkInboxRow {
  ib_commitment : bytes;
  ib_body_digest : string;
  ib_task_id : option string;
  ib_response_class : string;
  ib_body : bytes;
  ib_response : bytes;
  ib_received_at : Z;
}.

Record TombstoneRow := mkTombstoneRow {
  tb_commitment : bytes;
  tb_task_id : option string;
  tb_response_class : string;
  tb_response : bytes;
  tb_expires_at : Z;
}.

Record HeadRow := mkHeadRow {
  hd_contract_id : string;
  hd_revision : Z;
  hd_digest : string;
  hd_status : string;
  hd_context_id : string;
  hd_origin_root : string;
}.

Record ContractRow := mkContractRow {
  ct_task_id : string;
  ct_contract_id : string;
  ct_revision : Z;
  ct_payload : bytes;
  ct_expires_at : Z;
}.

Record AttemptRow := mkAttemptRow {
  at_nonce : string;
  at_task_id : string;
  at_work_order_digest : string;
  at_state : string;
  at_max_cost_microusd : Z;
  at_max_bytes : Z;
  at_max_operations : Z;
  at_claimed_at : Z;
  at_deadline : string;
}.

Record WorkOrderRow := mkWorkOrderRow {
  wo_task_id : string;
  wo_digest : string;
  wo_order_json : bytes;
  wo_issued_at : Z;
}.

Record ResultRow := mkResultRow {
  re_task_id : string;
  re_bundle_digest : string;
  re_manifest : bytes;
  re_completed_at : Z;
}.

Record SentRow := mkSentRow {
  se_task_id : string;
  se_context_id : string;
  se_contract_id : string;
  se_performer_agent : string;
  se_performer_issuer : string;
  se_message_id : string;
  se_performer_root : string;
  se_requested_at : Z;
}.

Record OutcomeRow := mkOutcomeRow {
  ou_task_id : string;
  ou_bundle_digest : string;
  ou_outcome_digest : string;
  ou_state : string;
  ou_outcome : bytes;
  ou_signed_at : string;
  ou_recorded_at : Z;
}.

Record TaskInputRow := mkTaskInputRow {
  ti_ordinal : Z;
  ti_media_type : string;
  ti_byte_length : Z;
  ti_sha256 : string;
  ti_payload : bytes;
}.

Record TaskOutputRow := mkTaskOutputRow {
  to_ordinal : Z;
  to_role : string;
  to_media_type : string;
  to_byte_length : Z;
  to_sha256 : string;
  to_payload : bytes;
}.

Record ProcessorRow := mkProcessorRow {
  pc_provider : string;
  pc_location : string;
  pc_config : bytes;
  pc_added_at : Z;
}.

Record CredentialRow := mkCredentialRow {
  cr_credential : bytes;
  cr_updated_at : Z;
}.

Record CallRow := mkCallRow {
  ca_work_order_id : string;
  ca_task_id : string;
  ca_processor_id : string;
  ca_provider : string;
  ca_config_digest : string;
  ca_request_digest : string;
  ca_origin : bytes;
  ca_state : string;
  ca_max_cost_microusd : Z;
  ca_max_response_bytes : Z;
  ca_deadline : string;
  ca_prepared_at : Z;
}.

Record StagedRow := mkStagedRow {
  sg_staged_digest : string;
  sg_task_type : string;
  sg_performer : string;
  sg_payload_sha256 : string;
  sg_byte_length : Z;
  sg_payload : bytes;
  sg_status : string;
  sg_staged_at : Z;
}.

Record ConsentRow := mkConsentRow {
  cs_stage_ref : string;
  cs_staged_digest : string;
  cs_receipt : bytes;
  cs_max_uses : Z;
  cs_uses : Z;
  cs_minted_at : Z;
}.

Record EventRow := mkEventRow {
  ev_seq : Z;
  ev_kind : string;
  ev_stage_ref : option string;
  ev_detail : bytes;
  ev_at : Z;
}.

Record DispatchRow := mkDispatchRow {
  dp_stage_ref : string;
  dp_staged_digest : string;
  dp_receipt_id : string;
  dp_dispatch_receipt : string;
  dp_dispatched_at : Z;
  dp_egress_state : string;
  dp_egress_detail : string;
  dp_egress_at : option Z;
}.

(** ** Tables, grouped by the part of the store that owns them *)

Record PeersDb := mkPeersDb {
  peers : gmap string PeerRow;
  peer_keys : gmap (string * string) PeerKeyRow;
  peer_imports : gmap string ImportRow;
  knock_log : gmap (string * string * string) KnockRow;
  auto_approve : gmap string AutoApproveRow;
}.

Record InboxDb := mkInboxDb {
  inbox_objects : gmap (string * string) InboxRow;
  replay_tombstones : gmap (string * string) TombstoneRow;
}.

Record ContractsDb := mkContractsDb {
  contract_heads : gmap string HeadRow;
  contracts : gmap string ContractRow;
  task_reactions : gmap string Z;
}.

Record AttemptsDb := mkAttemptsDb {
  attempts : gmap string AttemptRow;
  work_orders : gmap string WorkOrderRow;
  results : gmap string ResultRow;
}.

Record RequesterDb := mkRequesterDb {
  sent_requests : gmap string SentRow;
  outcomes : gmap string OutcomeRow;
  task_inputs : gmap (string * string) TaskInputRow;
  task_outputs : gmap (string * string) TaskOutputRow;
}.

Record CallsDb := mkCallsDb {
  processors : gmap string ProcessorRow;
  processor_credentials : gmap string CredentialRow;
  processor_calls : gmap string CallRow;
}.

Record CoordDb := mkCoordDb {
  coord_staged : gmap string StagedRow;
  coord_consents : gmap string ConsentRow;
  coord_events : list EventRow;
  coord_dispatches : gmap string DispatchRow;
}.

Record Db := mkDb {
  meta : gmap string bytes;
  audit_log : list Audit.AuditRow;
  peers_db : PeersDb;
  inbox_db : InboxDb;
  contracts_db : ContractsDb;
  attempts_db : AttemptsDb;
  requester_db : RequesterDb;
  calls_db : CallsDb;
  coord_db : CoordDb;
}.

Definition upd_peers (u : gmap string PeerRow -> gmap string PeerRow) (d : PeersDb) : PeersDb :=
  mkPeersDb (u (peers d)) (peer_keys d) (peer_imports d) (knock_log d) (auto_approve d).

Definition upd_peer_keys (u : gmap (string * string) PeerKeyRow -> gmap (string * string) PeerKeyRow) (d : PeersDb) : PeersDb :=
  mkPeersDb (peers d) (u (peer_keys d)) (peer_imports d) (knock_log d) (auto_approve d).

Definition upd_peer_imports (u : gmap string ImportRow -> gmap string ImportRow) (d : PeersDb) : PeersDb :=
  mkPeersDb (peers d) (peer_keys d) (u (peer_imports d)) (knock_log d) (auto_approve d).

Definition upd_knock_log (u : gmap (string * string * string) KnockRow -> gmap (string * string * string) KnockRow) (d : PeersDb) : PeersDb :=
  mkPeersDb (peers d) (peer_keys d) (peer_imports d) (u (knock_log d)) (auto_approve d).

Definition upd_auto_approve (u : gmap string AutoApproveRow -> gmap string AutoApproveRow) (d : PeersDb) : PeersDb :=
  mkPeersDb (peers d) (peer_keys d) (peer_imports d) (knock_log d) (u (auto_approve d)).

Definition upd_inbox_objects (u : gmap (string * string) InboxRow -> gmap (string * string) InboxRow) (d : InboxDb) : InboxDb :=
  mkInboxDb (u (inbox_objects d)) (replay_tombstones d).

Definition upd_replay_tombstones (u : gmap (string * string) TombstoneRow -> gmap (string * string) TombstoneRow) (d : InboxDb) : InboxDb :=
  mkInboxDb (inbox_objects d) (u (replay_tombstones d)).

Definition upd_contract_heads (u : gmap string HeadRow -> gmap string HeadRow) (d : ContractsDb) : ContractsDb :=
  mkContractsDb (u (contract_heads d)) (contracts d) (task_reactions d).

Definition upd_contracts (u : gmap string ContractRow -> gmap string ContractRow) (d : ContractsDb) : ContractsDb :=
  mkContractsDb (contract_heads d) (u (contracts d)) (task_reactions d).

Definition upd_task_reactions (u : gmap string Z -> gmap string Z) (d : ContractsDb) : ContractsDb :=
  mkContractsDb (contract_heads d) (contracts d) (u (task_reactions d)).

Definition upd_attempts (u : gmap string AttemptRow -> gmap string AttemptRow) (d : AttemptsDb) : AttemptsDb :=
  mkAttemptsDb (u (attempts d)) (work_orders d) (results d).

Definition upd_work_orders (u : gmap string WorkOrderRow -> gmap string WorkOrderRow) (d : AttemptsDb) : AttemptsDb :=
  mkAttemptsDb (attempts d) (u (work_orders d)) (results d).

Definition upd_results (u : gmap string ResultRow -> gmap string ResultRow) (d : AttemptsDb) : AttemptsDb :=
  mkAttemptsDb (attempts d) (work_orders d) (u (results d)).

Definition upd_sent_requests (u : gmap string SentRow -> gmap string SentRow) (d : RequesterDb) : RequesterDb :=
  mkRequesterDb (u (sent_requests d)) (outcomes d) (task_inputs d) (task_outputs d).

Definition upd_outcomes (u : gmap string OutcomeRow -> gmap string OutcomeRow) (d : RequesterDb) : RequesterDb :=
  mkRequesterDb (sent_requests d) (u (outcomes d)) (task_inputs d) (task_outputs d).

Definition upd_task_inputs (u : gmap (string * string) TaskInputRow -> gmap (string * string) TaskInputRow) (d : RequesterDb) : RequesterDb :=
  mkRequesterDb (sent_requests d) (outcomes d) (u (task_inputs d)) (task_outputs d).

Definition upd_task_outputs (u : gmap (string * string) TaskOutputRow -> gmap (string * string) TaskOutputRow) (d : RequesterDb) : RequesterDb :=
  mkRequesterDb (sent_requests d) (outcomes d) (task_inputs d) (u (task_outputs d)).

Definition upd_processors (u : gmap string ProcessorRow -> gmap string ProcessorRow) (d : CallsDb) : CallsDb :=
  mkCallsDb (u (processors d)) (processor_credentials d) (processor_calls d).

Definition upd_processor_credentials (u : gmap string CredentialRow -> gmap string CredentialRow) (d : CallsDb) : CallsDb :=
  mkCallsDb (processors d) (u (processor_credentials d)) (processor_calls d).

Definition upd_processor_calls (u : gmap string CallRow -> gmap string CallRow) (d : CallsDb) : CallsDb :=
  mkCallsDb (processors d) (processor_credentials d) (u (processor_calls d)).

Definition upd_coord_staged (u : gmap string StagedRow -> gmap string StagedRow) (d : CoordDb) : CoordDb :=
  mkCoordDb (u (coord_staged d)) (coord_consents d) (coord_events d) (coord_dispatches d).

Definition upd_coord_consents (u : gmap string ConsentRow -> gmap string ConsentRow) (d : CoordDb) : CoordDb :=
  mkCoordDb (coord_staged d) (u (coord_consents d)) (coord_events d) (coord_dispatches d).

Definition upd_coord_events (u : list EventRow -> list EventRow) (d : CoordDb) : CoordDb :=
  mkCoordDb (coord_staged d) (coord_consents d) (u (coord_events d)) (coord_dispatches d).

Definition upd_coord_dispatches (u : gmap string DispatchRow -> gmap string DispatchRow) (d : CoordDb) : CoordDb :=
  mkCoordDb (coord_staged d) (coord_consents d) (coord_events d) (u (coord_dispatches d)).

Definition upd_meta (u : gmap string bytes -> gmap string bytes) (d : Db) : Db :=
  mkDb (u (meta d)) (audit_log d) (peers_db d) (inbox_db d) (contracts_db d) (attempts_db d) (requester_db d) (calls_db d) (coord_db d).

Definition upd_audit_log (u : list Audit.AuditRow -> list Audit.AuditRow) (d : Db) : Db :=
  mkDb (meta d) (u (audit_log d)) (peers_db d) (inbox_db d) (contracts_db d) (attempts_db d) (requester_db d) (calls_db d) (coord_db d).

Definition upd_peers_db (u : PeersDb -> PeersDb) (d : Db) : Db :=
  mkDb (meta d) (audit_log d) (u (peers_db d)) (inbox_db d) (contracts_db d) (attempts_db d) (requester_db d) (calls_db d) (coord_db d).

Definition upd_inbox_db (u : InboxDb -> InboxDb) (d : Db) : Db :=
  mkDb (meta d) (audit_log d) (peers_db d) (u (inbox_db d)) (contracts_db d) (attempts_db d) (requester_db d) (calls_db d) (coord_db d).

Definition upd_contracts_db (u : ContractsDb -> ContractsDb) (d : Db) : Db :=
  mkDb (meta d) (audit_log d) (peers_db d) (inbox_db d) (u (contracts_db d)) (attempts_db d) (requester_db d) (calls_db d) (coord_db d).

Definition upd_attempts_db (u : AttemptsDb -> AttemptsDb) (d : Db) : Db :=
  mkDb (meta d) (audit_log d) (peers_db d) (inbox_db d) (contracts_db d) (u (attempts_db d)) (requester_db d) (calls_db d) (coord_db d).

Definition upd_requester_db (u : RequesterDb -> RequesterDb) (d : Db) : Db :=
  mkDb (meta d) (audit_log d) (peers_db d) (inbox_db d) (contracts_db d) (attempts_db d) (u (requester_db d)) (calls_db d) (coord_db d).

Definition upd_calls_db (u : CallsDb -> CallsDb) (d : Db) : Db :=
  mkDb (meta d) (audit_log d) (peers_db d) (inbox_db d) (contracts_db d) (attempts_db d) (requester_db d) (u (calls_db d)) (coord_db d).

Definition upd_coord_db (u : CoordDb -> CoordDb) (d : Db) : Db :=
  mkDb (meta d) (audit_log d) (peers_db d) (inbox_db d) (contracts_db d) (attempts_db d) (requester_db d) (calls_db d) (u (coord_db d)).

Definition empty_peers_db : PeersDb := mkPeersDb ∅ ∅ ∅ ∅ ∅.
Definition empty_inbox_db : InboxDb := mkInboxDb ∅ ∅.
Definition empty_contracts_db : ContractsDb := mkContractsDb ∅ ∅ ∅.
Definition empty_attempts_db : AttemptsDb := mkAttemptsDb ∅ ∅ ∅.
Definition empty_requester_db : RequesterDb := mkRequesterDb ∅ ∅ ∅ ∅.
Definition empty_calls_db : CallsDb := mkCallsDb ∅ ∅ ∅.
Definition empty_coord_db : CoordDb := mkCoordDb ∅ ∅ [] ∅.
Definition empty_db : Db :=
  mkDb ∅ [] empty_peers_db empty_inbox_db empty_contracts_db empty_attempts_db empty_requester_db empty_calls_db empty_coord_db.

End Schema.
Export Schema.

(** ** Errors and the transaction monad *)

Module Store.

(** What [rusqlite] can refuse here: a constraint of the schema, or a negative
    integer read into an unsigned Rust type. *)
Inductive DbErr := Constraint | OutOfRange.

(** The text of [Corrupt] is the fixed part of the code's message; the value the
    message interpolates is left out. *)
Inductive StoreError :=
| DbError (e : DbErr)
| Seal (e : Envelope.SealError)
| AuditBroken (seq : Z)
| Serde
| Corrupt (what : string)
| UnknownAttempt (id : string)
| UnknownProcessorCall (key : string)
| TimeUncertain.

Definition M (A : Type) : Type := Db -> result StoreError (A * Db).

#[global] Instance M_ret : MRet M := fun A a d => Ok (a, d).

#[global] Instance M_bind : MBind M := fun A B f m d =>
  match m d with
  | Ok (a, d') => f a d'
  | Err e => Err e
  end.

Definition fail {A} (e : StoreError) : M A := fun _ => Err e.
Definition gets {A} (f : Db -> A) : M A := fun d => Ok (f d, d).
Definition modify (f : Db -> Db) : M () := fun d => Ok ((), f d).
Definition lift {A} (r : result StoreError A) : M A := fun d =>
  match r with Ok a => Ok (a, d) | Err e => Err e end.

(** The open handle: the keys and the verdict determined at open. *)
Inductive RecoveryReason := StateGenerationMismatch (external database : Z).

Inductive Recovery :=
| Normal
| RollbackDetectionUnavailable
| InRecovery (r : RecoveryReason).

Record Store := mkStore {
  dek : bytes;
  commitment_key : bytes;
  recovery : Recovery;
}.

(** A column read into an unsigned Rust integer. *)
Definition get_unsigned (z : Z) : result StoreError Z :=
  if (z <? 0)%Z then Err (DbError OutOfRange) else Ok z.

(** A strict [INSERT]. *)
Definition insert_new `{Countable K} {V} (k : K) (v : V) (m : gmap K V) :
  result StoreError (gmap K V) :=
  match m !! k with
  | Some _ => Err (DbError Constraint)
  | None => Ok (<[k := v]> m)
  end.

(** [INSERT ... ON CONFLICT DO NOTHING]: the new table and the rows inserted. *)
Definition insert_or_ignore `{Countable K} {V} (k : K) (v : V) (m : gmap K V) :
  gmap K V * nat :=
  match m !! k with
  | Some _ => (m, 0)
  | None => (<[k := v]> m, 1)
  end.

Section monad.
Context {HS : Hashes} {AE : Aead}.

(** [audit::append] inside the operation's transaction. *)
Definition audit (ts : Z) (event detail : string) : M Z := fun d =>
  let '(seq, log) := Audit.append (audit_log d) ts event detail in
  Ok (seq, upd_audit_log (fun _ => log) d).

Definition seal (s : Store) (context : string) (nonce plaintext : bytes) : bytes :=
  Envelope.seal_with (dek s) nonce context plaintext.

(** [self.dek.open(context, &bytes)?]. *)
Definition open_col (s : Store) (context : string) (sealed : bytes) : result StoreError bytes :=
  match Envelope.open_with (dek s) context sealed with
  | Ok b => Ok b
  | Err e => Err (Seal e)
  end.

(** [serde_json::from_slice(&json)?]. *)
Definition parse_json {A} `{!Codec A} (b : bytes) : result StoreError A :=
  ok_or (decode b) Serde.

Lemma open_col_seal s context nonce plaintext :
  length nonce = Envelope.NONCE_LEN -> (Z.of_nat (length plaintext) <= aead_limit)%Z ->
  open_col s context (seal s context nonce plaintext) = Ok plaintext.
Proof. intros. unfold open_col, seal. by rewrite Envelope.open_seal. Qed.

Lemma parse_json_encode {A} `{!Codec A} (a : A) : parse_json (encode a) = Ok a.
Proof. unfold parse_json. by rewrite decode_encode. Qed.
End monad.

(** The operation fails and leaves the database as it was, or succeeds. *)
Definition exec {A} (m : M A) (d : Db) : result StoreError A * Db :=
  match m d with
  | Ok (a, d') => (Ok a, d')
  | Err e => (Err e, d)
  end.

End Store.
Export Store.

(** ** Automation for store operations *)

Ltac unfold_M :=
  unfold mbind, mret, M_bind, M_ret, fail, gets, modify, lift, result_bind, result_ret in *.

(** Symbolic execution of an operation in a hypothesis [op d = Ok (r, d')]. *)
Ltac run_M H :=
  unfold_M; cbn beta iota zeta in H;
  repeat (case_match; simplify_eq/=).

Lemma bind_Ok {A B} (m : M A) (f : A -> M B) d r :
  (m ≫= f) d = Ok r <-> exists a d1, m d = Ok (a, d1) /\ f a d1 = Ok r.
Proof.
  unfold mbind, M_bind. destruct (m d) as [[a d1]|e]; naive_solver.
Qed.

(** Executing the first half of a sequence in the goal. *)
Lemma bind_run {A B} (m : M A) (f : A -> M B) d a d1 :
  m d = Ok (a, d1) -> (m ≫= f) d = f a d1.
Proof. intros H. unfold mbind, M_bind. by rewrite H. Qed.

Lemma bind_gets {A B} (g : Db -> A) (f : A -> M B) d : (gets g ≫= f) d = f (g d) d.
Proof. done. Qed.

Lemma bind_modify {B} g (f : () -> M B) d : (modify g ≫= f) d = f () (g d).
Proof. done. Qed.

Lemma bind_lift {A B} (a : A) (f : A -> M B) d : (lift (Ok a) ≫= f) d = f a d.
Proof. done. Qed.

Lemma audit_run {HS : Hashes} ts ev de d :
  exists n log, audit ts ev de d = Ok (n, upd_audit_log (fun _ => log) d).
Proof. unfold audit. destruct (Audit.append _ _ _ _) as [n log]. eauto. Qed.

(** Executes the audit append at the front of the goal's sequence. *)
Ltac run_audit :=
  match goal with
  | |- context[(audit ?n ?e ?x ≫= _) ?y] =>
      let H := fresh in
      destruct (audit_run n e x y) as (? & ? & H); rewrite (bind_run _ _ _ _ _ H); clear H
  end.
