(* ===== verification/Handler.v ===== *)
(** Handlers of the daemon: code that makes several store calls and can stop between them.

    Each store call is a transaction of its own, so an error does not undo the calls before
    it: a handler returns its result together with the database it leaves, whichever way it
    ends. The control handlers fail with a problem document (aksond/src/control.rs), the
    receive handlers with the store's error. *)
From S2P Require Import Prelude Control Db.

Module Handler.
Import Control (Problem, problem).

Definition HM (E A : Type) : Type := Db -> result E A * Db.

#[global] Instance H_ret {E} : MRet (HM E) := fun A a d => (Ok a, d).

#[global] Instance H_bind {E} : MBind (HM E) := fun A B f m d =>
  match m d with
  | (Ok a, d') => f a d'
  | (Err p, d') => (Err p, d')
  end.

(** The control handlers answer with a problem document. *)
Notation H := (HM Problem).

(** [store_problem]. *)
Definition internal : Problem := problem 500 "internal" "the request could not be processed".

(** One store call, [map_err(store_problem)?]. *)
Definition call {A} (m : M A) : H A := fun d =>
  match exec m d with
  | (Ok a, d') => (Ok a, d')
  | (Err _, d') => (Err internal, d')
  end.

(** One store call whose error is passed on: [?] in a function that returns the store's
    error. *)
Definition run {A} (m : M A) : HM StoreError A := exec m.

Definition raise {E A} (p : E) : HM E A := fun d => (Err p, d).
Definition require {E A} (o : option A) (p : E) : HM E A := fun d => (ok_or o p, d).
Definition check {E F A} (r : result F A) (p : E) : HM E A := fun d => (match r with Ok a => Ok a | Err _ => Err p end, d).

Definition hlift {E A} (r : result E A) : HM E A := fun d => (r, d).

(** A store call whose error is taken for [None]: [.ok().flatten()]. *)
Definition attempt {E A} (m : M (option A)) : HM E (option A) := fun d =>
  match exec m d with
  | (Ok o, d') => (Ok o, d')
  | (Err _, d') => (Ok None, d')
  end.

(** *** Reasoning about handlers *)

Lemma hbind_Ok {E A B} (m : HM E A) (f : A -> HM E B) d b d' :
  (m ≫= f) d = (Ok b, d') <-> exists a d1, m d = (Ok a, d1) /\ f a d1 = (Ok b, d').
Proof. unfold mbind, H_bind. destruct (m d) as [[a|p] d1]; naive_solver. Qed.

Lemma hbind_run {E A B} (m : HM E A) (f : A -> HM E B) d a d1 : m d = (Ok a, d1) -> (m ≫= f) d = f a d1.
Proof. intros Hm. unfold mbind, H_bind. by rewrite Hm. Qed.

Lemma hbind_stop {E A B} (m : HM E A) (f : A -> HM E B) d p d1 : m d = (Err p, d1) -> (m ≫= f) d = (Err p, d1).
Proof. intros Hm. unfold mbind, H_bind. by rewrite Hm. Qed.

Lemma call_Ok {A} (m : M A) d a d' : call m d = (Ok a, d') <-> m d = Ok (a, d').
Proof. unfold call, exec. destruct (m d) as [[b d1]|e]; naive_solver. Qed.

Lemma run_Ok {A} (m : M A) d a d' : run m d = (Ok a, d') <-> m d = Ok (a, d').
Proof. unfold run, exec. destruct (m d) as [[b d1]|e]; naive_solver. Qed.

Lemma require_Ok {E A} (o : option A) (p : E) d a d' : require o p d = (Ok a, d') <-> o = Some a /\ d' = d.
Proof. unfold require. destruct o; cbn; naive_solver. Qed.

Lemma check_Ok {E F A} (r : result F A) (p : E) d a d' : check r p d = (Ok a, d') <-> r = Ok a /\ d' = d.
Proof. unfold check. destruct r; naive_solver. Qed.

Lemma hlift_Ok {E A} (r : result E A) d a d' : hlift r d = (Ok a, d') <-> r = Ok a /\ d' = d.
Proof. unfold hlift. naive_solver. Qed.

Lemma mret_Ok {E A} (a b : A) d d' : (mret a : HM E A) d = (Ok b, d') <-> b = a /\ d' = d.
Proof. unfold mret, H_ret. naive_solver. Qed.

(** Store operations and handlers that leave the database as it is. *)
Class Reads {A} (m : M A) : Prop := reads : forall d a d', m d = Ok (a, d') -> d' = d.
Class HReads {E A} (h : HM E A) : Prop := hreads : forall d, (h d).2 = d.

#[global] Instance gets_reads {A} (f : Db -> A) : Reads (gets f).
Proof. intros d a d'. unfold gets. congruence. Qed.
#[global] Instance lift_reads {A} (r : result StoreError A) : Reads (lift r).
Proof. intros d a d'. unfold lift. destruct r; congruence. Qed.
#[global] Instance fail_reads {A} e : Reads (@fail A e).
Proof. by intros d a d'. Qed.
#[global] Instance mret_reads {A} (a : A) : Reads (mret a).
Proof. intros d b d'. unfold mret, M_ret. congruence. Qed.
#[global] Instance bind_reads {A B} (m : M A) (f : A -> M B) : Reads m -> (forall a, Reads (f a)) -> Reads (m ≫= f).
Proof. intros Hm Hf d b d' (a & d1 & H1 & H2)%bind_Ok. apply Hm in H1 as ->. by apply Hf in H2. Qed.

#[global] Instance call_reads {A} (m : M A) : Reads m -> HReads (call m).
Proof. intros Hm d. unfold call, exec. destruct (m d) as [[a d1]|] eqn:E; [|done]. by apply Hm in E. Qed.
#[global] Instance run_reads {A} (m : M A) : Reads m -> HReads (run m).
Proof. intros Hm d. unfold run, exec. destruct (m d) as [[a d1]|] eqn:E; [|done]. by apply Hm in E. Qed.
#[global] Instance attempt_reads {E A} (m : M (option A)) : Reads m -> HReads (attempt (E := E) m).
Proof. intros Hm d. unfold attempt, exec. destruct (m d) as [[a d1]|] eqn:Em; [|done]. by apply Hm in Em. Qed.
#[global] Instance hmret_reads {E A} (a : A) : HReads (E := E) (mret a).
Proof. done. Qed.
#[global] Instance raise_reads {E A} p : HReads (@raise E A p).
Proof. done. Qed.
#[global] Instance require_reads {E A} (o : option A) (p : E) : HReads (require o p).
Proof. done. Qed.
#[global] Instance check_reads {E F A} (r : result F A) (p : E) : HReads (check r p).
Proof. done. Qed.
#[global] Instance hlift_reads {E A} (r : result E A) : HReads (hlift r).
Proof. done. Qed.
#[global] Instance hbind_reads {E A B} (m : HM E A) (f : A -> HM E B) : HReads m -> (forall a, HReads (f a)) -> HReads (m ≫= f).
Proof. intros Hm Hf d. specialize (Hm d). unfold mbind, H_bind. destruct (m d) as [[a|p] d1]; cbn in Hm; [subst; apply Hf|done]. Qed.

(** A handler made of readers. *)
Ltac solve_reads :=
  repeat first [ progress intros | apply bind_reads | apply hbind_reads | apply call_reads | apply run_reads | apply attempt_reads
               | progress (apply _) | case_match ].

Lemma hread_Ok {E A B} (m : HM E A) (f : A -> HM E B) d b d' : HReads m ->
  (m ≫= f) d = (Ok b, d') <-> exists a, m d = (Ok a, d) /\ f a d = (Ok b, d').
Proof.
  intros Hm. rewrite hbind_Ok. specialize (Hm d). split.
  - intros (a & d1 & H1 & H2). rewrite H1 in Hm. cbn in Hm. subst. by exists a.
  - intros (a & H1 & H2). by exists a, d.
Qed.

(** A reading prefix: the handler stops there without a change, or goes on. *)
Lemma hread_cases {E A B} (m : HM E A) (f : A -> HM E B) d : HReads m ->
  (exists p, (m ≫= f) d = (Err p, d) /\ m d = (Err p, d)) \/ (exists a, m d = (Ok a, d) /\ (m ≫= f) d = f a d).
Proof.
  intros Hm. specialize (Hm d). unfold mbind, H_bind. destruct (m d) as [[a|p] d1] eqn:Em; cbn in Hm; subst; eauto.
Qed.

(** Runs the reading prefix in the goal, closing the case where it stops. *)
Tactic Notation "hread" ident(a) ident(Ha) :=
  match goal with
  | |- context [(?m ≫= ?f) ?d] =>
      let q := fresh "q" in let E := fresh "E" in let E' := fresh "E" in
      destruct (hread_cases m f d _) as [(q & E & E')|(a & Ha & E)]; rewrite E; clear E;
      [try (by intros [= <- <-])|]
  end.

(** *** Relations a handler keeps

    [R] relates the database before to the one a handler leaves, however it ends. *)
Class Keeps (R : relation Db) {E A} (h : HM E A) : Prop := keeps : forall d, R d (h d).2.

Section keeps.
Context (R : relation Db) `{!PreOrder R}.

Lemma keeps_reads {E A} (h : HM E A) : HReads h -> Keeps R h.
Proof. intros Hr d. rewrite Hr. reflexivity. Qed.

Lemma keeps_bind {E A B} (m : HM E A) (f : A -> HM E B) : Keeps R m -> (forall a, Keeps R (f a)) -> Keeps R (m ≫= f).
Proof.
  intros Hm Hf d. specialize (Hm d). unfold mbind, H_bind. destruct (m d) as [[a|p] d1]; [|done].
  etrans; [exact Hm|apply Hf].
Qed.

Lemma keeps_call {A} (m : M A) : (forall d a d', m d = Ok (a, d') -> R d d') -> Keeps R (call m).
Proof. intros Hm d. unfold call, exec. destruct (m d) as [[a d1]|] eqn:E; [by eapply Hm|reflexivity]. Qed.

Lemma keeps_run {A} (m : M A) : (forall d a d', m d = Ok (a, d') -> R d d') -> Keeps R (run m).
Proof. intros Hm d. unfold run, exec. destruct (m d) as [[a d1]|] eqn:E; [by eapply Hm|reflexivity]. Qed.
End keeps.

(** Splits a handler into the calls that may change the database. *)
Ltac solve_keeps :=
  repeat first [ progress intros | (apply keeps_reads; [apply _|by apply _]) | (apply keeps_bind; [apply _| |]) | case_match ].
End Handler.
