(* ===== verification/Chars.v ===== *)
(** Characters of a text: Rust's [str::chars] and [String::from_utf8_lossy] over UTF-8
    bytes, the character classes the daemon asks about, and decimal [i64] texts. *)
From S2P Require Import Prelude Text Profile Inert.

Module Chars.

Definition replacement : Z := 0xfffd.

(** The second byte a first byte admits. *)
Definition second (a b : byte) : bool :=
  if Inert.byte_is 0xe0 a then Profile.in_bytes 0xa0 0xbf b
  else if Inert.byte_is 0xed a then Profile.in_bytes 0x80 0x9f b
  else if Inert.byte_is 0xf0 a then Profile.in_bytes 0x90 0xbf b
  else if Inert.byte_is 0xf4 a then Profile.in_bytes 0x80 0x8f b
  else Inert.cont b.

Definition low (b : byte) : Z := (byte_to_Z b - 0x80)%Z.

(** [from_utf8_lossy]: each maximal invalid piece becomes one replacement character. On
    valid UTF-8, which every [str] is, these are its [chars]. *)
Fixpoint lossy (l : bytes) : list Z :=
  match l with
  | [] => []
  | a :: l1 =>
      if Profile.in_bytes 0 0x7f a then byte_to_Z a :: lossy l1
      else if Profile.in_bytes 0xc2 0xdf a then
        match l1 with
        | [] => [replacement]
        | b :: l2 =>
            if Inert.cont b then ((byte_to_Z a - 0xc0) * 64 + low b)%Z :: lossy l2 else replacement :: lossy l1
        end
      else if Profile.in_bytes 0xe0 0xef a then
        match l1 with
        | [] => [replacement]
        | b :: l2 =>
            if second a b then
              match l2 with
              | [] => [replacement]
              | c :: l3 =>
                  if Inert.cont c then ((byte_to_Z a - 0xe0) * 4096 + low b * 64 + low c)%Z :: lossy l3
                  else replacement :: lossy l2
              end
            else replacement :: lossy l1
        end
      else if Profile.in_bytes 0xf0 0xf4 a then
        match l1 with
        | [] => [replacement]
        | b :: l2 =>
            if second a b then
              match l2 with
              | [] => [replacement]
              | c :: l3 =>
                  if Inert.cont c then
                    match l3 with
                    | [] => [replacement]
                    | d :: l4 =>
                        if Inert.cont d
                        then ((byte_to_Z a - 0xf0) * 262144 + low b * 4096 + low c * 64 + low d)%Z :: lossy l4
                        else replacement :: lossy l3
                    end
                  else replacement :: lossy l2
              end
            else replacement :: lossy l1
        end
      else replacement :: lossy l1
  end.

Definition chars (s : string) : list Z := lossy (as_bytes s).

(** [String] of characters. *)
Definition text (cs : list Z) : string := from_utf8 (concat (Inert.utf8 <$> cs)).

(** [char::is_control] (category Cc) and [char::is_whitespace] (White_Space). *)
Definition is_control (c : Z) : bool := ((0 <=? c) && (c <=? 0x1f) || (0x7f <=? c) && (c <=? 0x9f))%Z.

Definition is_whitespace (c : Z) : bool :=
  ((9 <=? c) && (c <=? 0xd) || (0x2000 <=? c) && (c <=? 0x200a))%Z ||
  existsb (Z.eqb c) [0x20; 0x85; 0xa0; 0x1680; 0x2028; 0x2029; 0x202f; 0x205f; 0x3000]%Z.

(** A Unicode scalar value. *)
Definition scalar (c : Z) : Prop := (0 <= c < 0xd800 \/ 0xe000 <= c <= 0x10ffff)%Z.

(** Decides a condition on bytes of known value. *)
Ltac byte_lia := unfold second, low, Inert.byte_is, Inert.cont, Profile.in_bytes in *; lia.

Lemma byte_small z : (0 <= z < 256)%Z -> byte_to_Z (byte_of_Z z) = z.
Proof. intros. rewrite byte_to_Z_of_Z. by apply Z.mod_small. Qed.

Lemma byte_to_Z_range b : (0 <= byte_to_Z b < 256)%Z.
Proof. unfold byte_to_Z. pose proof (N_ascii_bounded b). lia. Qed.

(** The digits of a code point in base 64. *)
Lemma sextets c : (0 <= c)%Z -> exists x y z w, c = (x * 262144 + y * 4096 + z * 64 + w)%Z /\
  (c / 262144 = x /\ c / 4096 = x * 64 + y /\ c / 64 = x * 4096 + y * 64 + z /\
   (c / 4096) mod 64 = y /\ (c / 64) mod 64 = z /\ c mod 64 = w)%Z /\ (0 <= x /\ 0 <= y < 64 /\ 0 <= z < 64 /\ 0 <= w < 64)%Z.
Proof.
  intros Hc. exists (c / 262144)%Z, ((c / 4096) mod 64)%Z, ((c / 64) mod 64)%Z, (c mod 64)%Z.
  Z.to_euclidean_division_equations. lia.
Qed.

Lemma lossy_utf8 c rest : scalar c -> lossy (Inert.utf8 c ++ rest) = c :: lossy rest.
Proof.
  intros Hc. unfold Inert.utf8, scalar in *.
  destruct (sextets c) as (x & y & z & w & Ec & (H1 & H2 & H3 & H4 & H5 & H6) & Hr); [lia|].
  rewrite H4, H5, H6, H1, H2, H3. clear H1 H2 H3 H4 H5 H6.
  destruct (Z.ltb_spec c 0x80); [|destruct (Z.ltb_spec c 0x800); [|destruct (Z.ltb_spec c 0x10000)]];
    cbn [fmap list_fmap app];
    repeat match goal with |- context [byte_of_Z ?v] =>
      let b := fresh "b" in let Hb := fresh "Hb" in
      assert (byte_to_Z (byte_of_Z v) = v) as Hb by (apply byte_small; lia); set (b := byte_of_Z v) in *; clearbody b end;
    cbn [lossy].
  - replace (Profile.in_bytes 0 0x7f _) with true by byte_lia. f_equal. lia.
  - replace (Profile.in_bytes 0 0x7f _) with false by byte_lia. replace (Profile.in_bytes 0xc2 0xdf _) with true by byte_lia.
    replace (Inert.cont _) with true by byte_lia. f_equal. byte_lia.
  - replace (Profile.in_bytes 0 0x7f _) with false by byte_lia. replace (Profile.in_bytes 0xc2 0xdf _) with false by byte_lia.
    replace (Profile.in_bytes 0xe0 0xef _) with true by byte_lia. replace (second _ _) with true by (unfold second; repeat case_match; byte_lia).
    replace (Inert.cont _) with true by byte_lia. f_equal. byte_lia.
  - replace (Profile.in_bytes 0 0x7f _) with false by byte_lia. replace (Profile.in_bytes 0xc2 0xdf _) with false by byte_lia.
    replace (Profile.in_bytes 0xe0 0xef _) with false by byte_lia. replace (Profile.in_bytes 0xf0 0xf4 _) with true by byte_lia.
    replace (second _ _) with true by (unfold second; repeat case_match; byte_lia). replace (Inert.cont _) with true by byte_lia.
    replace (Inert.cont _) with true by byte_lia. f_equal. byte_lia.
Qed.

Lemma chars_text cs : Forall scalar cs -> chars (text cs) = cs.
Proof.
  unfold chars, text. rewrite as_bytes_from_utf8. induction 1 as [|c cs Hc _ IH]; [done|]. cbn [fmap list_fmap concat].
  by rewrite lossy_utf8, IH.
Qed.

Lemma lossy_scalar n : forall l, length l <= n -> Forall scalar (lossy l).
Proof.
  induction n as [|n IH]; intros [|a l1] Hl; try (cbn in Hl; lia); [done..|]. cbn [length] in Hl.
  assert (scalar replacement) as Hr by (unfold scalar, replacement; lia). pose proof (byte_to_Z_range a).
  cbn [lossy]. repeat case_match; subst; repeat first [apply Forall_nil_2 | apply Forall_cons_2]; try exact Hr;
    try (apply IH; cbn [length] in *; lia); unfold scalar;
    repeat match goal with b : byte |- _ => lazymatch goal with _ : (0 <= byte_to_Z b < 256)%Z |- _ => fail | _ => pose proof (byte_to_Z_range b) end end;
    unfold second in *; repeat case_match; byte_lia.
Qed.

(** ** Decimal [i64] *)

(** [to_string] of an [i64]. *)
Definition show_i64 (z : Z) : string := if (z <? 0)%Z then "-" +:+ to_string (Z.to_N (- z)) else to_string (Z.to_N z).

Fixpoint digits_of (acc : Z) (l : bytes) : option Z :=
  match l with
  | [] => Some acc
  | c :: l => if digit c then digits_of (acc * 10 + (byte_to_Z c - 48)) l else None
  end.

(** [str::parse::<i64>]: an optional sign, then digits; out of range is an error. *)
Definition parse_i64 (s : string) : option Z :=
  let value l := match l with [] => None | _ => digits_of 0 l end in
  z ← match as_bytes s with
      | c :: l => if decide (c = "+"%char) then value l
                  else if decide (c = "-"%char) then Z.opp <$> value l
                  else value (c :: l)
      | [] => None
      end;
  if decide (in_i64 z) then Some z else None.

Lemma digits_of_app a acc b :
  Forall (fun c => digit c = true) a ->
  digits_of acc (a ++ b) = match digits_of acc a with Some v => digits_of v b | None => None end.
Proof. intros Ha. revert acc. induction Ha as [|c a Hc _ IH]; intros acc; [done|]. cbn [app digits_of]. by rewrite Hc. Qed.


(** The value of a decimal rendering. *)
Lemma digits_of_go x : forall s acc, Forall (fun c => digit c = true) (as_bytes s) ->
  exists k, digits_of acc (as_bytes (pretty_N_go x s)) = digits_of (acc * 10 ^ Z.of_nat k + Z.of_N x) (as_bytes s).
Proof.
  induction (N.lt_wf_0 x) as [x _ IH]; intros s acc Hs. destruct (decide (x = 0%N)) as [->|Hx].
  - exists 0. rewrite pretty_N_go_0. f_equal. lia.
  - rewrite pretty_N_go_step by lia. assert (x mod 10 < 10)%N as Hm by (apply N.mod_lt; lia).
    assert (forall n, (n < 10)%N -> byte_to_Z (pretty_N_char n) = (48 + Z.of_N n)%Z /\ digit (pretty_N_char n) = true) as Hd.
    { intros n Hn. assert (n ∈ [0; 1; 2; 3; 4; 5; 6; 7; 8; 9]%N) as Hi by (rewrite !elem_of_cons; lia).
      repeat (apply elem_of_cons in Hi as [->|Hi]; [done|]). by apply not_elem_of_nil in Hi. }
    destruct (Hd _ Hm) as [Hv Hg].
    destruct (IH (x / 10)%N ltac:(apply N.div_lt; lia) (String (pretty_N_char (x mod 10)) s) acc) as [k Hk].
    { constructor; [done|exact Hs]. }
    exists (S k). rewrite Hk. cbn [as_bytes list_ascii_of_string digits_of]. unfold as_bytes. cbn [list_ascii_of_string digits_of].
    rewrite Hg, Hv. f_equal. rewrite Nat2Z.inj_succ, Z.pow_succ_r by lia.
    pose proof (N.div_mod x 10 ltac:(lia)). lia.
Qed.

Lemma digits_of_to_string n : digits_of 0 (as_bytes (to_string n)) = Some (Z.of_N n).
Proof.
  unfold to_string, pretty, pretty_N. destruct (decide _) as [->|Hn]; [done|].
  destruct (digits_of_go n "" 0) as [k ->]; [constructor|]. done.
Qed.

Lemma to_string_head n : exists c l, as_bytes (to_string n) = c :: l /\ c <> "+"%char /\ c <> "-"%char.
Proof.
  pose proof (digits_of_to_string n) as Hv. pose proof (to_string_digits n) as Hd.
  destruct (as_bytes (to_string n)) as [|c l] eqn:E.
  - exfalso. injection Hv as Hv. assert (n = 0%N) as -> by lia. discriminate E.
  - exists c, l. apply Forall_cons in Hd as [Hc _]. split; [done|]. split; intros ->; discriminate Hc.
Qed.

Lemma parse_show_i64 z : (0 <= z)%Z -> in_i64 z -> parse_i64 (show_i64 z) = Some z.
Proof.
  intros Hz Hi. unfold parse_i64, show_i64. destruct (Z.ltb_spec z 0); [lia|].
  pose proof (digits_of_to_string (Z.to_N z)) as Hv. destruct (to_string_head (Z.to_N z)) as (c & l & E & H1 & H2).
  rewrite E in *. rewrite !decide_False by done. cbn [mbind option_bind] in *. rewrite Hv. cbn [mbind option_bind].
  rewrite Z2N.id by lia. by rewrite decide_True.
Qed.
End Chars.
