(* ===== verification/Http.v ===== *)
(** The HTTP texts of the daemon's two outbound clients: the processor call
    (aksond/src/broker.rs [HttpsTransport::send], [split_response], [dechunk]) and the
    peer post (aksond/src/a2a_client.rs).

    TLS and the network are what happens at each stage; the bytes the client hands to the
    TLS stream are kept, so that a claim about what left the host is a claim about them. *)
From S2P Require Import Prelude Text Profile Inert Chars Broker.

Module Http.

Definition CR : byte := byte_of_Z 13.
Definition LF : byte := byte_of_Z 10.
Definition CRLF : bytes := [CR; LF].

(** ** Reading a response *)

(** [windows(n).position(|w| w == pat)], for a pattern of [n] bytes. *)
Fixpoint position (pat l : bytes) : option nat :=
  match l with
  | [] => None
  | _ :: l' => if Inert.starts pat l then Some 0 else S <$> position pat l'
  end.

(** [strip_suffix('\r')], on the reversed line. *)
Definition strip_cr (rl : bytes) : bytes := match rl with c :: r => if decide (c = CR) then r else rl | [] => [] end.

(** [str::lines]: a line ends at a line feed, with the carriage return before it; a last
    line without one is kept as it is. [cur] is the open line, reversed. *)
Fixpoint lines_from (cur l : bytes) : list bytes :=
  match l with
  | [] => match cur with [] => [] | _ => [reverse cur] end
  | c :: l => if decide (c = LF) then reverse (strip_cr cur) :: lines_from [] l else lines_from (c :: cur) l
  end.

Definition lines (l : bytes) : list bytes := lines_from [] l.

(** [str::split_whitespace], over characters; [cur] is the open word, reversed. *)
Fixpoint words_from (cur : list Z) (l : list Z) : list (list Z) :=
  match l with
  | [] => match cur with [] => [] | _ => [reverse cur] end
  | c :: l =>
      if Chars.is_whitespace c then match cur with [] => words_from [] l | _ => reverse cur :: words_from [] l end
      else words_from (c :: cur) l
  end.

Definition split_whitespace (l : bytes) : list bytes := (fun w => as_bytes (Chars.text w)) <$> words_from [] (Chars.lossy l).

(** The digits of an unsigned number with an optional plus sign, below [bound]:
    [from_str_radix] and [parse] of an unsigned type. *)
Fixpoint digits_value (radix acc : Z) (l : bytes) : option Z :=
  match l with
  | [] => Some acc
  | b :: l => v ← Inert.digit_value radix b; digits_value radix (acc * radix + v)%Z l
  end.

Definition parse_unsigned (radix bound : Z) (l : bytes) : option Z :=
  let digits := match l with c :: r => if decide (c = "+"%char) then r else l | [] => [] end in
  match digits with
  | [] => None
  | _ => v ← digits_value radix 0 digits; if (v <? bound)%Z then Some v else None
  end.

(** The size a chunk's line announces. *)
Definition chunk_size (line : bytes) : option Z :=
  if Inert.valid_utf8 line then parse_unsigned 16 (2 ^ 64) (Inert.trim (Inert.before ";"%char line)) else None.

(** [dechunk], whose loop consumes at least a line end: [fuel] bounds its turns. *)
Fixpoint dechunk_loop (fuel : nat) (data out : bytes) : bytes :=
  match fuel with
  | O => out
  | S fuel =>
      match position CRLF data with
      | None => out
      | Some nl =>
          match chunk_size (take nl data) with
          | None => out
          | Some hex =>
              let data := drop (nl + 2) data in
              if decide (hex = 0%Z) then out
              else
                let n := Z.to_nat (Z.min hex (Z.of_nat (length data))) in
                let out := out ++ take n data in
                match Profile.strip_prefix CRLF (drop n data) with
                | Some rest => dechunk_loop fuel rest out
                | None => out
                end
          end
      end
  end.

Definition dechunk (data : bytes) : bytes := dechunk_loop (S (length data)) data [].

Definition SEP : bytes := CRLF ++ CRLF.

Definition status_of (head_text : bytes) : option Z :=
  line ← head (lines head_text);
  word ← split_whitespace line !! 1;
  parse_unsigned 10 (2 ^ 16) word.

Definition is_chunked (line : bytes) : bool :=
  let l := Inert.to_ascii_lowercase line in
  Inert.starts (as_bytes "transfer-encoding:") l && Inert.contains "chunked" l.

(** [split_response] of broker.rs. *)
Definition split_response (raw : bytes) : option (Z * bytes) :=
  sep ← position SEP raw;
  let head_text := take sep raw in
  if negb (Inert.valid_utf8 head_text) then None else
  status ← status_of head_text;
  let raw_body := drop (sep + 4) raw in
  Some (status, if existsb is_chunked (lines head_text) then dechunk raw_body else raw_body).

(** [split_response] of a2a_client.rs: the body as it came. *)
Definition split_response_plain (raw : bytes) : option (Z * bytes) :=
  sep ← position SEP raw;
  let head_text := take sep raw in
  if negb (Inert.valid_utf8 head_text) then None else
  status ← status_of head_text;
  Some (status, drop (sep + 4) raw).

(** ** The request *)

Definition crlf : string := from_utf8 CRLF.

(** [s.replace(['\r', '\n'], "")]. *)
Definition clean (s : string) : string :=
  from_utf8 (List.filter (fun c => negb (bool_decide (c = CR)) && negb (bool_decide (c = LF))) (as_bytes s)).

(** [String::from_utf8_lossy]. *)
Definition lossy_text (b : bytes) : string := Chars.text (Chars.lossy b).

Definition auth_header (auth : Broker.AuthScheme) (credential : option bytes) : option string :=
  c ← credential; Broker.header_line auth (lossy_text c).

Definition static_header (h : string * string) : string := clean h.1 +:+ ": " +:+ clean h.2.

Fixpoint concat_text (l : list string) : string := match l with [] => "" | s :: l => s +:+ concat_text l end.

Definition target_of (path : string) : string := if Inert.starts (as_bytes "/") (as_bytes path) then path else "/".

Definition request_head (host path : string) (auth : Broker.AuthScheme) (credential : option bytes)
  (headers : list (string * string)) (request : bytes) : string :=
  "POST " +:+ target_of path +:+ " HTTP/1.1" +:+ crlf +:+ "Host: " +:+ host +:+ crlf +:+
  "Content-Type: application/json" +:+ crlf +:+
  match auth_header auth credential with Some line => line +:+ crlf | None => "" end +:+
  concat_text ((fun h => static_header h +:+ crlf) <$> headers) +:+
  "Content-Length: " +:+ to_string (N.of_nat (length request)) +:+ crlf +:+
  "Connection: close" +:+ crlf +:+ crlf.

(** ** The exchange *)

Record CallResponse := mkResponse { rs_status : Z; rs_body : bytes }.

Inductive TransportError := Clean (detail : string) | Uncertain (detail : string).

(** What one step of the connection meets: it passes, fails with an error text, or runs
    into the step's time limit. *)
Inductive Stage := Passed | Broke (e : string) | TimedOut.

(** One [read] of the TLS stream into a buffer of 4096 bytes. *)
Inductive Read := Data (b : bytes) | Closed | UnexpectedEof | ReadError (e : string).

Definition CHUNK : nat := 4096.
Definition HEADROOM : Z := 8192.

Definition well_read (r : Read) : Prop := match r with Data b => 0 < length b <= CHUNK | _ => True end.

(** The read loop, up to [cap] bytes: [None] while the peer keeps the connection open and says
    nothing, which the time limit ends. *)
Fixpoint read_until (cap : Z) (raw : bytes) (reads : list Read) : option (result string bytes) :=
  match reads with
  | [] => None
  | Data b :: reads =>
      let raw := raw ++ b in
      if (cap <=? Z.of_nat (length raw))%Z then Some (Ok raw) else read_until cap raw reads
  | Closed :: _ | UnexpectedEof :: _ => Some (Ok raw)
  | ReadError e :: _ => Some (Err e)
  end.

(** The loop of a call with a limit on its response. *)
Definition read_response (limit : Z) (reads : list Read) : option (result string bytes) :=
  read_until (as_u64 (limit + HEADROOM)) [] reads.

(** The network a call meets: whether the TLS configuration can be built for the pin, the
    stages up to the handshake, how many of the written bytes the stream takes before it
    breaks or stalls ([None]: all of them), and the reads. *)
Record Network := mkNetwork {
  n_config : option string -> option string;
  n_connect : Stage;
  n_name : bool;
  n_handshake : Stage;
  n_write : option (nat * Stage);
  n_reads : list Read;
}.

(** What [send] is given. *)
Record Sending := mkSending {
  s_host : string; s_port : Z; s_addr : Broker.IpAddr; s_path : string; s_cert : option string;
  s_auth : Broker.AuthScheme; s_credential : option bytes; s_headers : list (string * string);
  s_request : bytes; s_max_response_bytes : Z;
}.

Definition request_bytes (s : Sending) : bytes :=
  as_bytes (request_head (s_host s) (s_path s) (s_auth s) (s_credential s) (s_headers s) (s_request s)) ++ s_request s.

(** [HttpsTransport::send]: the outcome and the bytes handed to the stream. *)
Definition send (net : Network) (s : Sending) : result TransportError CallResponse * bytes :=
  match n_config net (s_cert s) with
  | Some e => (Err (Clean e), [])
  | None =>
  match n_connect net with
  | TimedOut => (Err (Clean "connect timed out"), [])
  | Broke e => (Err (Clean e), [])
  | Passed =>
  if negb (n_name net) then (Err (Clean "bad host"), []) else
  match n_handshake net with
  | TimedOut => (Err (Clean "handshake timed out"), [])
  | Broke e => (Err (Clean e), [])
  | Passed =>
      let all := request_bytes s in
      match n_write net with
      | Some (n, Broke e) => (Err (Uncertain e), take n all)
      | Some (n, _) => (Err (Uncertain "response timed out"), take n all)
      | None =>
          (match read_response (s_max_response_bytes s) (n_reads net) with
           | None => Err (Uncertain "response timed out")
           | Some (Err e) => Err (Uncertain e)
           | Some (Ok raw) =>
               match split_response raw with
               | Some (status, body) => Ok (mkResponse status body)
               | None => Err (Uncertain "no HTTP response")
               end
           end, all)
      end
  end end end.

(** ** ASCII texts *)

Definition ascii_byte (c : byte) : Prop := (byte_to_Z c < 0x80)%Z.
Definition white_byte (c : byte) : bool := Chars.is_whitespace (byte_to_Z c).

(** A header field: printable ASCII. *)
Definition field (l : bytes) : Prop := Forall (fun c => 32 <= byte_to_Z c < 127)%Z l.

Lemma lossy_ascii l : Forall ascii_byte l -> Chars.lossy l = byte_to_Z <$> l.
Proof.
  induction 1 as [|c l Hc _ IH]; [done|]. cbn [Chars.lossy fmap list_fmap]. pose proof (Chars.byte_to_Z_range c).
  unfold ascii_byte in Hc. replace (Profile.in_bytes 0 0x7f c) with true by (unfold Profile.in_bytes; lia). by rewrite IH.
Qed.

Lemma utf8_ascii l : Forall ascii_byte l -> Inert.valid_utf8 l = true.
Proof.
  induction 1 as [|c l Hc _ IH]; [done|]. cbn [Inert.valid_utf8]. pose proof (Chars.byte_to_Z_range c).
  unfold ascii_byte in Hc. by replace (Profile.in_bytes 0 0x7f c) with true by (unfold Profile.in_bytes; lia).
Qed.

Lemma text_ascii l : Forall ascii_byte l -> as_bytes (Chars.text (byte_to_Z <$> l)) = l.
Proof.
  unfold Chars.text. rewrite as_bytes_from_utf8. induction 1 as [|c l Hc _ IH]; [done|].
  cbn [fmap list_fmap concat]. unfold Inert.utf8 at 1. unfold ascii_byte in Hc. destruct (Z.ltb_spec (byte_to_Z c) 0x80); [|lia].
  cbn [fmap list_fmap app]. by rewrite byte_of_to_Z, IH.
Qed.

Lemma field_ascii l : field l -> Forall ascii_byte l.
Proof. intros H. eapply Forall_impl; [exact H|]. unfold ascii_byte. cbn. lia. Qed.

Lemma field_not_in l c : field l -> (byte_to_Z c < 32)%Z -> c ∉ l.
Proof. unfold field. rewrite Forall_forall. intros Hl Hc Hin. apply Hl in Hin. lia. Qed.

(** *** Words *)

Lemma words_word w : forall cur rest, Forall (fun z => Chars.is_whitespace z = false) w ->
  words_from cur (w ++ rest) = words_from (reverse w ++ cur) rest.
Proof.
  induction w as [|z w IH]; intros cur rest Hw; [done|]. apply Forall_cons in Hw as [Hz Hw]. cbn [app words_from].
  rewrite Hz, IH by done. by rewrite reverse_cons, <- app_assoc.
Qed.

Lemma words_space cur c rest : Chars.is_whitespace c = true -> cur <> [] ->
  words_from cur (c :: rest) = reverse cur :: words_from [] rest.
Proof. intros Hc Hcur. cbn [words_from]. rewrite Hc. by destruct cur. Qed.

(** The second word of a text whose first two words are [a] and [b]. *)
Lemma second_word a b rest : Forall (fun z => Chars.is_whitespace z = false) a -> Forall (fun z => Chars.is_whitespace z = false) b ->
  a <> [] -> b <> [] -> words_from [] (a ++ [32] ++ b ++ [32] ++ rest)%Z !! 1 = Some b.
Proof.
  intros Ha Hb Hna Hnb. rewrite words_word, app_nil_r by done. cbn [app].
  rewrite words_space by (done || by intros ?%(f_equal reverse); rewrite reverse_involutive in *).
  rewrite reverse_involutive, words_word, app_nil_r by done.
  rewrite words_space by (done || by intros ?%(f_equal reverse); rewrite reverse_involutive in *).
  by rewrite reverse_involutive.
Qed.

(** *** Numbers *)

Lemma digit_value_10 c : Inert.digit_value 10 c = if digit c then Some (byte_to_Z c - 48)%Z else None.
Proof.
  unfold Inert.digit_value, digit, Profile.in_bytes. pose proof (Chars.byte_to_Z_range c).
  destruct (48 <=? byte_to_Z c)%Z eqn:E1, (byte_to_Z c <=? 57)%Z eqn:E2; cbn [andb mbind option_bind];
    repeat (case_match; cbn [mbind option_bind]; try done); lia.
Qed.

Lemma digits_value_10 l : forall acc, digits_value 10 acc l = Chars.digits_of acc l.
Proof.
  induction l as [|c l IH]; intros acc; [done|]. cbn [digits_value Chars.digits_of]. rewrite digit_value_10.
  by destruct (digit c); cbn [mbind option_bind].
Qed.

Lemma parse_to_string n bound : (Z.of_N n < bound)%Z -> parse_unsigned 10 bound (as_bytes (to_string n)) = Some (Z.of_N n).
Proof.
  intros Hn. destruct (Chars.to_string_head n) as (c & l & E & Hc & _). unfold parse_unsigned.
  pose proof (Chars.digits_of_to_string n) as Hd. rewrite E in *. rewrite decide_False by done.
  rewrite digits_value_10, Hd. cbn [mbind option_bind]. by destruct (Z.ltb_spec (Z.of_N n) bound); [|lia].
Qed.

Definition hex_digit (z : Z) : byte := byte_of_Z (if (z <? 10)%Z then 48 + z else 87 + z)%Z.

(** Hexadecimal without leading zeros, of a number below [16 ^ k]. *)
Fixpoint hex_text (k : nat) (z : Z) : bytes :=
  match k with
  | O => []
  | S k => (if (z <? 16)%Z then [] else hex_text k (z / 16)) ++ [hex_digit (z mod 16)]
  end.

Lemma hex_digit_value z : (0 <= z < 16)%Z -> Inert.digit_value 16 (hex_digit z) = Some z.
Proof.
  intros Hz. unfold Inert.digit_value, Profile.in_bytes, hex_digit.
  assert (exists v, v = (if z <? 10 then 48 + z else 87 + z)%Z /\ byte_to_Z (byte_of_Z v) = v /\
    ((z < 10 /\ v = 48 + z) \/ (10 <= z /\ v = 87 + z))%Z) as (v & <- & Hv & H).
  { eexists. split; [done|]. split; [apply Chars.byte_small|]; destruct (Z.ltb_spec z 10); lia. }
  rewrite Hv. destruct H as [[? ->]|[? ->]]; repeat (case_match; cbn [mbind option_bind]; try lia); f_equal; lia.
Qed.

Lemma digits_value_app radix a : forall acc b, digits_value radix acc (a ++ b) =
  v ← digits_value radix acc a; digits_value radix v b.
Proof.
  induction a as [|c a IH]; intros acc b; [done|]. cbn [app digits_value]. destruct (Inert.digit_value radix c); [|done].
  cbn [mbind option_bind]. apply IH.
Qed.

Lemma hex_text_value k : forall z, (0 <= z < 16 ^ Z.of_nat k)%Z -> digits_value 16 0 (hex_text k z) = Some z.
Proof.
  induction k as [|k IH]; intros z Hz; [cbn in *; f_equal; lia|]. cbn [hex_text].
  rewrite Nat2Z.inj_succ, Z.pow_succ_r in Hz by lia. rewrite digits_value_app.
  pose proof (Z.mod_pos_bound z 16 ltac:(lia)) as Hm. pose proof (Z.div_mod z 16 ltac:(lia)) as Hd.
  destruct (Z.ltb_spec z 16).
  - cbn [digits_value mbind option_bind]. rewrite hex_digit_value by lia. cbn [mbind option_bind]. f_equal. lia.
  - rewrite IH by lia. cbn [digits_value mbind option_bind]. rewrite hex_digit_value by lia. cbn [mbind option_bind].
    f_equal. lia.
Qed.

Lemma hex_digit_field z : (0 <= z < 16)%Z -> (48 <= byte_to_Z (hex_digit z) < 103)%Z /\ hex_digit z <> ";"%char /\ white_byte (hex_digit z) = false.
Proof.
  intros Hz. assert (forall n, n < 16 -> (48 <= byte_to_Z (hex_digit (Z.of_nat n)) < 103)%Z /\ hex_digit (Z.of_nat n) <> ";"%char /\
    white_byte (hex_digit (Z.of_nat n)) = false) as H.
  { intros n Hn. do 16 (destruct n as [|n]; [vm_compute; split_and!; [discriminate|reflexivity|discriminate|reflexivity]|]). lia. }
  rewrite <- (Z2Nat.id z) by lia. apply H. lia.
Qed.

(** *** Trimming *)

Definition foreign (c : byte) (p : bytes) : Prop := match p with b :: _ => b <> c | [] => False end.

Lemma strip_any_foreign ps c l : Forall (foreign c) ps -> Inert.strip_any ps (c :: l) = None.
Proof.
  induction 1 as [|p ps Hp _ IH]; [done|]. cbn [Inert.strip_any]. destruct p as [|b p]; [done|]. cbn in Hp |- *.
  rewrite decide_False by congruence. exact IH.
Qed.

Definition pattern_start (p : bytes) : bool :=
  match p with b :: _ => white_byte b || (0x80 <=? byte_to_Z b)%Z | [] => false end.

Lemma patterns_foreign c ps : ascii_byte c -> white_byte c = false -> forallb pattern_start ps = true -> Forall (foreign c) ps.
Proof.
  intros Hc Hw. unfold ascii_byte in Hc. induction ps as [|p ps IH]; [constructor|]. cbn [forallb]. intros [Hp Hps]%andb_prop.
  constructor; [|by apply IH]. destruct p as [|b p]; [done|]. cbn in *. intros ->. rewrite Hw in Hp. cbn in Hp. lia.
Qed.

Lemma trim_start_kept fuel ps c l : ascii_byte c -> white_byte c = false -> forallb pattern_start ps = true ->
  Inert.trim_start fuel ps (c :: l) = c :: l.
Proof.
  intros. destruct fuel as [|fuel]; [done|]. cbn [Inert.trim_start]. by rewrite strip_any_foreign by (by apply patterns_foreign).
Qed.

(** Solid ASCII text is not trimmed. *)
Lemma trim_solid l : Forall ascii_byte l -> Forall (fun c => white_byte c = false) l -> Inert.trim l = l.
Proof.
  intros Ha Hw. unfold Inert.trim. set (ps := Inert.white_space ++ Inert.wide_white_space). cbn zeta.
  assert (forallb pattern_start ps = true) as H1 by (vm_compute; reflexivity).
  assert (forallb pattern_start (reverse <$> ps) = true) as H2 by (vm_compute; reflexivity).
  destruct l as [|c l]; [by vm_compute|]. apply Forall_cons in Ha as [Hc Ha], Hw as [Hwc Hw].
  rewrite trim_start_kept by done. destruct (reverse (c :: l)) as [|e r] eqn:E.
  { by apply (f_equal reverse) in E; rewrite reverse_involutive in E. }
  assert (Forall ascii_byte (reverse (c :: l)) /\ Forall (fun c => white_byte c = false) (reverse (c :: l))) as [Hra Hrw]
    by (split; apply Forall_reverse; by constructor).
  rewrite E in Hra, Hrw. apply Forall_cons in Hra as [He _], Hrw as [Hwe _].
  rewrite trim_start_kept, <- E by done. apply reverse_involutive.
Qed.

(** ** Chunks *)

Definition chunk_line (n : nat) (ext : bytes) : bytes :=
  hex_text 16 (Z.of_nat n) ++ match ext with [] => [] | _ => ";"%char :: ext end.

(** A chunk is its extension and its data. *)
Definition chunk_text (c : bytes * bytes) : bytes := chunk_line (length c.2) c.1 ++ CRLF ++ c.2 ++ CRLF.

(** A body as a server frames it; what follows the last chunk is of no concern. *)
Definition chunked (cs : list (bytes * bytes)) (trailer : bytes) : bytes :=
  concat (chunk_text <$> cs) ++ as_bytes "0" ++ CRLF ++ trailer.

Definition chunk_ok (c : bytes * bytes) : Prop := field c.1 /\ c.2 <> [] /\ (Z.of_nat (length c.2) < 2 ^ 64)%Z.

Lemma hex_text_all (P : byte -> Prop) k : forall z, (0 <= z)%Z -> (forall d, (0 <= d < 16)%Z -> P (hex_digit d)) -> Forall P (hex_text k z).
Proof.
  induction k as [|k IH]; intros z Hz HP; [constructor|]. cbn [hex_text]. apply Forall_app. split.
  - destruct (z <? 16)%Z; [constructor|]. apply IH; [|done]. apply Z.div_pos; lia.
  - constructor; [|constructor]. apply HP, Z.mod_pos_bound. lia.
Qed.

Lemma hex_text_field k z : (0 <= z)%Z -> field (hex_text k z).
Proof. intros Hz. apply hex_text_all; [done|]. intros d [? _]%hex_digit_field. lia. Qed.

Lemma before_absent c l rest : c ∉ l -> Inert.before c (l ++ rest) = l ++ Inert.before c rest.
Proof.
  induction l as [|d l IH]; intros Hl; [done|]. apply not_elem_of_cons in Hl as [Hd Hl]. cbn [app Inert.before].
  by rewrite decide_False, IH.
Qed.

Lemma chunk_line_field n ext : field ext -> field (chunk_line n ext).
Proof.
  intros He. unfold chunk_line. apply Forall_app. split; [apply hex_text_field; lia|]. destruct ext; [constructor|].
  constructor; [vm_compute; by split|done].
Qed.

Lemma hex_text_cons k z : exists c l, hex_text (S k) z = c :: l.
Proof. cbn [hex_text]. destruct (if (z <? 16)%Z then [] else hex_text k (z / 16)); cbn [app]; eauto. Qed.

Lemma parse_hex_text n : (Z.of_nat n < 2 ^ 64)%Z -> parse_unsigned 16 (2 ^ 64) (hex_text 16 (Z.of_nat n)) = Some (Z.of_nat n).
Proof.
  intros Hn. pose proof (hex_text_value 16 (Z.of_nat n)) as Hv. rewrite (eq_refl : 16 ^ Z.of_nat 16 = 2 ^ 64)%Z in Hv.
  destruct (hex_text_cons 15 (Z.of_nat n)) as (c & l & E).
  assert (c <> "+"%char) as Hc.
  { pose proof (hex_text_all (fun c => c <> "+"%char) 16 (Z.of_nat n) ltac:(lia)) as H. rewrite E in H.
    apply Forall_cons in H as [H _]; [done|]. intros d [Hd _]%hex_digit_field Hp. rewrite Hp in Hd. vm_compute in Hd. by destruct Hd. }
  unfold parse_unsigned. rewrite E in *. rewrite decide_False by done. rewrite Hv by lia. cbn [mbind option_bind].
  by destruct (Z.ltb_spec (Z.of_nat n) (2 ^ 64)); [|lia].
Qed.

Lemma chunk_size_line n ext : field ext -> (Z.of_nat n < 2 ^ 64)%Z -> chunk_size (chunk_line n ext) = Some (Z.of_nat n).
Proof.
  intros He Hn. unfold chunk_size. rewrite utf8_ascii by (by apply field_ascii, chunk_line_field). unfold chunk_line.
  rewrite before_absent.
  - assert (Inert.before ";"%char (match ext with [] => [] | _ => ";"%char :: ext end) = []) as -> by (by destruct ext).
    rewrite app_nil_r, trim_solid; [by apply parse_hex_text| |].
    + apply field_ascii, hex_text_field. lia.
    + apply hex_text_all; [lia|]. by intros d (_ & _ & ?)%hex_digit_field.
  - intros Hin. eapply Forall_forall in Hin; [|apply (hex_text_all (fun c => c <> ";"%char)); [lia|]]; [done|].
    by intros d (_ & ? & _)%hex_digit_field.
Qed.

Lemma position_crlf l rest : CR ∉ l -> position CRLF (l ++ CRLF ++ rest) = Some (length l).
Proof.
  induction l as [|c l IH]; intros Hl; [done|]. apply not_elem_of_cons in Hl as [Hc Hl]. cbn [app position].
  unfold Inert.starts. cbn [Profile.strip_prefix CRLF]. rewrite decide_False by done.
  change (CR :: LF :: rest) with (CRLF ++ rest). by rewrite IH.
Qed.

Lemma position_no_lf l : LF ∉ l -> position CRLF l = None.
Proof.
  induction l as [|c l IH]; intros Hl; [done|]. apply not_elem_of_cons in Hl as [Hc Hl]. cbn [position].
  rewrite IH by done. unfold Inert.starts, CRLF. cbn [Profile.strip_prefix]. case_decide; [|done].
  destruct l as [|d l]; [done|]. apply not_elem_of_cons in Hl as [Hd _]. cbn [Profile.strip_prefix]. by rewrite decide_False.
Qed.

(** One turn of the loop at a chunk's line; [data] is what came after it. *)
Lemma dechunk_turn fuel line size data out : CR ∉ line -> chunk_size line = Some (Z.of_nat size) -> size <> 0 ->
  dechunk_loop (S fuel) (line ++ CRLF ++ data) out =
  match Profile.strip_prefix CRLF (drop (size `min` length data) data) with
  | Some rest => dechunk_loop fuel rest (out ++ take size data)
  | None => out ++ take size data
  end.
Proof.
  intros Hl Hs Hn. cbn [dechunk_loop]. rewrite position_crlf by done. rewrite take_app_length. rewrite Hs.
  rewrite decide_False by lia. cbn zeta.
  assert (drop (length line + 2) (line ++ CRLF ++ data) = data) as ->.
  { rewrite drop_app_add. done. }
  replace (Z.to_nat (Z.min (Z.of_nat size) (Z.of_nat (length data)))) with (size `min` length data) by lia.
  assert (take (size `min` length data) data = take size data) as ->; [|done].
  rewrite <- take_take. by rewrite firstn_all.
Qed.

Lemma strip_prefix_append p l : Profile.strip_prefix p (p ++ l) = Some l.
Proof. induction p as [|c p IH]; [done|]. cbn. by rewrite decide_True. Qed.

Lemma dechunk_done cs trailer : Forall chunk_ok cs -> forall fuel out, length cs < fuel ->
  dechunk_loop fuel (chunked cs trailer) out = out ++ concat (snd <$> cs).
Proof.
  unfold chunked. induction 1 as [|[ext data] cs (He & Hne & Hlt) _ IH]; intros [|fuel] out Hf; try (cbn in *; lia).
  - rewrite app_nil_r. cbn [fmap list_fmap concat app dechunk_loop].
    change (as_bytes "0" ++ CRLF ++ trailer) with (as_bytes "0" ++ CRLF ++ trailer).
    rewrite position_crlf by (vm_compute; intros Hin%list_elem_of_singleton; discriminate). done.
  - cbn [fmap list_fmap concat fst snd] in *. unfold chunk_text at 1. cbn [fst snd]. rewrite <- !app_assoc.
    rewrite (dechunk_turn fuel (chunk_line (length data) ext) (length data));
      [|apply field_not_in; [by apply chunk_line_field|done]|by apply chunk_size_line|by destruct data].
    rewrite length_app, Nat.min_l, drop_app_length, strip_prefix_append, take_app_length by lia.
    rewrite IH by (cbn in Hf; lia). by rewrite app_assoc.
Qed.

Lemma strip_prefix_short p l : length l < length p -> Profile.strip_prefix p l = None.
Proof.
  revert l. induction p as [|c p IH]; intros l Hl; [cbn in Hl; lia|]. destruct l as [|d l]; [done|]. cbn in *.
  case_decide; [|done]. apply IH. lia.
Qed.

(** A chunk cut short: its data so far. *)
Lemma dechunk_cut fuel line data rest m out : CR ∉ line -> chunk_size line = Some (Z.of_nat (length data)) -> data <> [] ->
  m < length data + 2 ->
  dechunk_loop (S fuel) (line ++ CRLF ++ take m (data ++ CRLF ++ rest)) out = out ++ take m data.
Proof.
  intros Hl Hs Hd Hm. rewrite (dechunk_turn fuel line (length data)) by (done || by destruct data).
  assert (take (length data) (take m (data ++ CRLF ++ rest)) = take m data) as ->.
  { rewrite take_take, Nat.min_comm, <- take_take, take_app_length. done. }
  rewrite strip_prefix_short; [done|]. rewrite length_drop, length_take, !length_app. cbn [length CRLF]. lia.
Qed.

Lemma take_past {A} (a b : list A) n : length a <= n -> take n (a ++ b) = a ++ take (n - length a) b.
Proof. intros Hn. by rewrite take_app, take_ge. Qed.

Lemma take_line line rest n : field line -> n < length line + 2 -> LF ∉ take n (line ++ CRLF ++ rest).
Proof.
  intros Hf Hn Hin. assert (LF ∉ line) as Hl by (by apply field_not_in).
  assert (take n (line ++ CRLF ++ rest) = take n (line ++ [CR])) as E.
  { change (CRLF ++ rest) with ([CR] ++ LF :: rest). rewrite app_assoc, take_app_le; [done|]. rewrite length_app. cbn. lia. }
  rewrite E in Hin. apply elem_of_take in Hin as (i & Hi & _). apply list_elem_of_lookup_2, elem_of_app in Hi as [?|Hc]; [done|].
  apply list_elem_of_singleton in Hc. discriminate.
Qed.

(** A body cut anywhere, as the response cap cuts it, gives a prefix of the payload. *)
Lemma dechunk_prefix cs trailer : Forall chunk_ok cs -> forall fuel n out,
  exists q, dechunk_loop fuel (take n (chunked cs trailer)) out = out ++ q /\ q `prefix_of` concat (snd <$> cs).
Proof.
  unfold chunked. induction 1 as [|[ext data] cs (He & Hne & Hlt) _ IH]; intros [|fuel] n out;
    try (exists []; split; [by rewrite app_nil_r|apply prefix_nil]).
  - exists []. rewrite app_nil_r. split; [|apply prefix_nil]. cbn [fmap list_fmap concat app].
    destruct (decide (n < 3)).
    + cbn [dechunk_loop]. rewrite position_no_lf; [done|]. apply (take_line (as_bytes "0")); [|done].
      constructor; [vm_compute; by split|constructor].
    + rewrite (take_past (as_bytes "0")) by (cbn; lia). rewrite (take_past CRLF) by (change (length CRLF) with 2; change (length (as_bytes "0")) with 1; lia). cbn [dechunk_loop].
      rewrite position_crlf by (vm_compute; intros Hin%list_elem_of_singleton; discriminate). done.
  - cbn [fmap list_fmap concat fst snd] in *. unfold chunk_text at 1. cbn [fst snd]. rewrite <- !app_assoc.
    set (line := chunk_line (length data) ext). assert (field line) as Hf by (by apply chunk_line_field).
    assert (CR ∉ line) as Hcr by (by apply field_not_in).
    destruct (decide (n < length line + 2)) as [Hn|Hn].
    { exists []. rewrite app_nil_r. split; [|apply prefix_nil]. cbn [dechunk_loop]. by rewrite position_no_lf by (by apply take_line). }
    rewrite (take_past line) by lia. rewrite (take_past CRLF) by (change (length CRLF) with 2; lia). cbn [length CRLF].
    set (m := n - length line - 2). destruct (decide (m < length data + 2)) as [Hm|Hm].
    + rewrite dechunk_cut by (done || by apply chunk_size_line). eexists. split; [done|].
      apply prefix_app_r. exists (drop m data). by rewrite take_drop.
    + rewrite (take_past data) by lia. rewrite (take_past CRLF) by (change (length CRLF) with 2; lia).
      rewrite (dechunk_turn fuel line (length data)) by (done || (by apply chunk_size_line) || by destruct data).
      rewrite length_app, Nat.min_l, drop_app_length, strip_prefix_append, take_app_length by lia.
      match goal with |- context [dechunk_loop fuel (take ?k _) ?o] => destruct (IH fuel k o) as (q & Hq & Hp) end.
      exists (data ++ q). rewrite Hq, app_assoc. split; [done|]. by apply prefix_app.
Qed.

(** ** Responses as a server writes them *)

Fixpoint join_lines (ls : list bytes) : bytes :=
  match ls with [] => [] | [l] => l | l :: ls => l ++ CRLF ++ join_lines ls end.

Definition status_line (status : N) (reason : bytes) : bytes :=
  as_bytes "HTTP/1.1" ++ as_bytes " " ++ as_bytes (to_string status) ++ as_bytes " " ++ reason.

Definition reply_text (status : N) (reason : bytes) (headers : list bytes) (body : bytes) : bytes :=
  join_lines (status_line status reason :: headers) ++ SEP ++ body.

Definition header_ok (l : bytes) : Prop := field l /\ l <> [].

Lemma position_skip pat c l : Inert.starts pat (c :: l) = false -> position pat (c :: l) = S <$> position pat l.
Proof. intros H. cbn [position]. by rewrite H. Qed.

Lemma position_field pat l rest c0 p0 : pat = c0 :: p0 -> c0 ∉ l ->
  position pat (l ++ rest) = Nat.add (length l) <$> position pat rest.
Proof.
  intros -> Hl. induction l as [|c l IH]; [cbn [app]; by destruct (position _ rest)|]. apply not_elem_of_cons in Hl as [Hc Hl].
  cbn [app]. rewrite position_skip by (unfold Inert.starts; cbn; by rewrite decide_False). rewrite IH by done.
  by destruct (position _ rest).
Qed.

(** A line of a head: no line end inside, and not the empty line that ends the head. *)
Definition line_ok (l : bytes) : Prop := CR ∉ l /\ LF ∉ l /\ l <> [].

Lemma header_line_ok l : header_ok l -> line_ok l.
Proof. intros [Hf Hn]. split_and!; [by apply field_not_in..|done]. Qed.

Lemma headers_line_ok ls : Forall header_ok ls -> Forall line_ok ls.
Proof. intros H. eapply Forall_impl; [exact H|apply header_line_ok]. Qed.

Lemma position_sep ls body : Forall line_ok ls -> ls <> [] ->
  position SEP (join_lines ls ++ SEP ++ body) = Some (length (join_lines ls)).
Proof.
  induction ls as [|l ls IH]; intros Hls Hne; [done|]. apply Forall_cons in Hls as [[Hl _] Hls]. destruct ls as [|l' ls].
  - cbn [join_lines]. rewrite (position_field SEP l _ CR (LF :: CRLF)) by done.
    change (position SEP (SEP ++ body)) with (Some 0). cbn [fmap option_fmap option_map]. f_equal. lia.
  - change (join_lines (l :: l' :: ls)) with (l ++ CRLF ++ join_lines (l' :: ls)). rewrite <- !app_assoc.
    rewrite (position_field SEP l _ CR (LF :: CRLF)) by done. specialize (IH Hls ltac:(done)).
    set (rest := join_lines (l' :: ls) ++ SEP ++ body) in *.
    assert (exists c r, rest = c :: r /\ c <> CR) as (c & r & Er & Hc).
    { apply Forall_cons in Hls as [(Hf' & _ & Hn') _]. destruct l' as [|c l']; [done|]. unfold rest.
      apply not_elem_of_cons in Hf' as [Hc _].
      destruct ls; eexists _, _; split; [reflexivity|done|reflexivity|done]. }
    assert (position SEP (CRLF ++ rest) = S <$> (S <$> position SEP rest)) as ->.
    { cbn [CRLF app]. rewrite position_skip, position_skip; [done|done|]. rewrite Er. unfold Inert.starts.
      change (Profile.strip_prefix SEP (CR :: LF :: c :: r)) with (Profile.strip_prefix CRLF (c :: r)). cbn.
      by rewrite decide_False. }
    rewrite IH. cbn [fmap option_fmap option_map]. f_equal. rewrite !length_app. cbn [length CRLF]. lia.
Qed.

Lemma lines_plain l : forall cur rest, LF ∉ l -> lines_from cur (l ++ rest) = lines_from (reverse l ++ cur) rest.
Proof.
  induction l as [|c l IH]; intros cur rest Hl; [done|]. apply not_elem_of_cons in Hl as [Hc Hl]. cbn [app lines_from].
  rewrite decide_False, IH by done. by rewrite reverse_cons, <- app_assoc.
Qed.

Lemma lines_crlf l rest : LF ∉ l -> lines (l ++ CRLF ++ rest) = l :: lines rest.
Proof.
  intros Hl. unfold lines. rewrite lines_plain, app_nil_r by done. cbn [CRLF app lines_from].
  rewrite decide_False, decide_True by done. cbn [strip_cr]. rewrite decide_True by done. by rewrite reverse_involutive.
Qed.

Lemma lines_last l : LF ∉ l -> l <> [] -> lines l = [l].
Proof.
  intros Hl Hn. unfold lines. rewrite <- (app_nil_r l) at 1. rewrite lines_plain, app_nil_r by done. cbn [lines_from].
  destruct (reverse l) as [|c r] eqn:E; [apply (f_equal reverse) in E; by rewrite reverse_involutive in E|].
  by rewrite <- E, reverse_involutive.
Qed.

Lemma lines_joined ls : Forall header_ok ls -> lines (join_lines ls) = ls.
Proof.
  induction 1 as [|l ls [Hf Hn] _ IH]; [done|]. assert (LF ∉ l) as Hl by (by apply field_not_in). destruct ls as [|l' ls].
  - by apply lines_last.
  - change (join_lines (l :: l' :: ls)) with (l ++ CRLF ++ join_lines (l' :: ls)). by rewrite lines_crlf, IH.
Qed.

Lemma joined_ascii ls : Forall header_ok ls -> Forall ascii_byte (join_lines ls).
Proof.
  induction 1 as [|l ls [Hf _] _ IH]; [constructor|]. apply field_ascii in Hf. destruct ls as [|l' ls]; [done|].
  change (join_lines (l :: l' :: ls)) with (l ++ CRLF ++ join_lines (l' :: ls)). rewrite !Forall_app. split_and!; [done| |done].
  repeat constructor; vm_compute; done.
Qed.

Lemma digit_solid c : digit c = true -> (48 <= byte_to_Z c <= 57)%Z /\ white_byte c = false.
Proof.
  unfold digit. intros Hc. split; [lia|]. unfold white_byte, Chars.is_whitespace. cbn [existsb]. lia.
Qed.

Lemma status_line_ok n reason : field reason -> header_ok (status_line n reason).
Proof.
  intros Hr. split; [|done]. unfold status_line, field. rewrite !Forall_app. split_and!; [| | | |exact Hr].
  - repeat constructor; vm_compute; done.
  - repeat constructor; vm_compute; done.
  - eapply Forall_impl; [apply to_string_digits|]. intros c [? _]%digit_solid. lia.
  - repeat constructor; vm_compute; done.
Qed.

Lemma status_of_line n reason rest : field reason -> (Z.of_N n < 2 ^ 16)%Z ->
  head (lines rest) = Some (status_line n reason) -> status_of rest = Some (Z.of_N n).
Proof.
  intros Hr Hn Hl. unfold status_of. rewrite Hl. cbn [mbind option_bind]. unfold split_whitespace.
  destruct (status_line_ok n reason Hr) as [Hf _]. rewrite lossy_ascii by (by apply field_ascii). unfold status_line.
  rewrite !fmap_app. change (byte_to_Z <$> as_bytes " ") with [32%Z]. rewrite list_lookup_fmap, second_word.
  - cbn [fmap option_fmap option_map mbind option_bind]. rewrite text_ascii; [by apply parse_to_string|].
    eapply Forall_impl; [apply to_string_digits|]. intros c [? _]%digit_solid. unfold ascii_byte. lia.
  - repeat constructor.
  - apply Forall_fmap. eapply Forall_impl; [apply to_string_digits|]. by intros c [_ ?]%digit_solid.
  - done.
  - destruct (Chars.to_string_head n) as (c & l & -> & _). done.
Qed.

Lemma status_line_plain n reason : is_chunked (status_line n reason) = false.
Proof. done. Qed.

Lemma split_reply n reason headers body : field reason -> Forall header_ok headers -> (Z.of_N n < 2 ^ 16)%Z ->
  split_response (reply_text n reason headers body) = Some (Z.of_N n, if existsb is_chunked headers then dechunk body else body) /\
  split_response_plain (reply_text n reason headers body) = Some (Z.of_N n, body).
Proof.
  intros Hr Hh Hn. assert (Forall header_ok (status_line n reason :: headers)) as Hls
    by (constructor; [by apply status_line_ok|done]).
  unfold split_response, split_response_plain, reply_text. rewrite position_sep by (done || by apply headers_line_ok). cbn [mbind option_bind].
  rewrite take_app_length, utf8_ascii by (by apply joined_ascii). cbn [negb].
  rewrite (status_of_line n reason) by (done || by rewrite lines_joined). cbn [mbind option_bind].
  rewrite drop_app_add, lines_joined by done. cbn [existsb]. by rewrite status_line_plain.
Qed.

Lemma chunked_length cs trailer : length cs < S (length (chunked cs trailer)).
Proof.
  unfold chunked. rewrite length_app. enough (length cs <= length (concat (chunk_text <$> cs))) by lia.
  induction cs as [|c cs IH]; [done|]. cbn [fmap list_fmap concat length]. rewrite length_app.
  enough (2 <= length (chunk_text c)) by lia. unfold chunk_text. rewrite !length_app. change (length CRLF) with 2. lia.
Qed.

(** C24. A response is read as it was written. A response with a printable head comes back with
    its status and, unless a header announces chunks, its very body; a chunked body comes back
    as the concatenation of its chunks, whatever their extensions and the trailer; and a chunked
    body cut at any point gives a prefix of that. *)
Theorem response_roundtrip n reason headers cs trailer body k :
  field reason -> Forall header_ok headers -> (Z.of_N n < 2 ^ 16)%Z -> Forall chunk_ok cs ->
  split_response_plain (reply_text n reason headers body) = Some (Z.of_N n, body) /\
  if existsb is_chunked headers then
    split_response (reply_text n reason headers (chunked cs trailer)) = Some (Z.of_N n, concat (snd <$> cs)) /\
    exists q, split_response (reply_text n reason headers (take k (chunked cs trailer))) = Some (Z.of_N n, q) /\
      q `prefix_of` concat (snd <$> cs)
  else split_response (reply_text n reason headers body) = Some (Z.of_N n, body).
Proof.
  intros Hr Hh Hn Hcs. split; [by apply split_reply|]. destruct (existsb is_chunked headers) eqn:E.
  - split.
    + destruct (split_reply n reason headers (chunked cs trailer)) as [-> _]; [done..|]. rewrite E. do 2 f_equal.
      by apply (dechunk_done cs trailer Hcs _ []), chunked_length.
    + destruct (dechunk_prefix cs trailer Hcs (S (length (take k (chunked cs trailer)))) k []) as (q & Hq & Hp).
      exists q. destruct (split_reply n reason headers (take k (chunked cs trailer))) as [-> _]; [done..|]. rewrite E.
      split; [|done]. do 2 f_equal. exact Hq.
  - destruct (split_reply n reason headers body) as [-> _]; [done..|]. by rewrite E.
Qed.

(** ** The request on the wire *)

(** The lines of the request's head. *)
Definition request_lines (s : Sending) : list bytes :=
  as_bytes <$> (["POST " +:+ target_of (s_path s) +:+ " HTTP/1.1"; "Host: " +:+ s_host s; "Content-Type: application/json"] ++
    match auth_header (s_auth s) (s_credential s) with Some l => [l] | None => [] end ++ (static_header <$> s_headers s) ++
    ["Content-Length: " +:+ to_string (N.of_nat (length (s_request s))); "Connection: close"]).

(** The host, the path and the credential's line hold no line end. The code removes line ends only
    from the static headers, so this is not asked of those; of the host the TLS server name is
    asked for it, while a path and a credential are sent as the owner gave them ([splits]). *)
Definition one_line (t : string) : Prop := CR ∉ as_bytes t /\ LF ∉ as_bytes t.

Record configured (s : Sending) : Prop := {
  cf_host : one_line (s_host s);
  cf_path : one_line (s_path s);
  cf_auth : forall l, auth_header (s_auth s) (s_credential s) = Some l -> one_line l /\ l <> "";
}.

Lemma one_line_app a b : one_line (a +:+ b) <-> one_line a /\ one_line b.
Proof. unfold one_line. rewrite as_bytes_app, !not_elem_of_app. tauto. Qed.

Lemma one_line_clean t : one_line (clean t).
Proof.
  unfold one_line, clean. rewrite as_bytes_from_utf8. split; intros Hin; apply list_elem_of_In, filter_In in Hin as [_ H];
    rewrite bool_decide_eq_true_2 in H by done; [discriminate|]. by rewrite andb_false_r in H.
Qed.

Lemma one_line_digits n : one_line (to_string n).
Proof. split; by apply not_in_digits. Qed.

Lemma one_line_literal t : bool_decide (CR ∈ as_bytes t) || bool_decide (LF ∈ as_bytes t) = false -> one_line t.
Proof. intros [H1 H2]%orb_false_elim. by apply bool_decide_eq_false in H1, H2. Qed.

Lemma one_line_ok t : one_line t -> t <> "" -> line_ok (as_bytes t).
Proof. intros [H1 H2] Hn. split_and!; [done..|]. intros He. apply Hn. apply (inj as_bytes). exact He. Qed.

(** Each line followed by its line end. *)
Fixpoint ended (ls : list bytes) : bytes := match ls with [] => [] | l :: ls => l ++ CRLF ++ ended ls end.

Lemma ended_app a b : ended (a ++ b) = ended a ++ ended b.
Proof. induction a as [|l a IH]; [done|]. cbn [app ended]. by rewrite IH, <- !app_assoc. Qed.

Lemma ended_joined ls : ls <> [] -> ended ls = join_lines ls ++ CRLF.
Proof.
  induction ls as [|l ls IH]; [done|]. intros _. destruct ls as [|l' ls]; [done|].
  change (join_lines (l :: l' :: ls)) with (l ++ CRLF ++ join_lines (l' :: ls)). cbn [ended] in *. rewrite IH by done.
  by rewrite <- !app_assoc.
Qed.

Lemma static_ended hs : as_bytes (concat_text ((fun h => static_header h +:+ crlf) <$> hs)) = ended (as_bytes <$> (static_header <$> hs)).
Proof.
  induction hs as [|h hs IH]; [done|]. cbn [fmap list_fmap concat_text ended]. rewrite !as_bytes_app, IH. unfold crlf.
  by rewrite as_bytes_from_utf8, <- app_assoc.
Qed.

Lemma request_bytes_lines s : request_bytes s = join_lines (request_lines s) ++ SEP ++ s_request s.
Proof.
  assert (as_bytes (request_head (s_host s) (s_path s) (s_auth s) (s_credential s) (s_headers s) (s_request s)) =
    ended (request_lines s) ++ CRLF) as E.
  { unfold request_head, request_lines. rewrite !fmap_app, !ended_app. rewrite <- static_ended.
    assert (as_bytes (match auth_header (s_auth s) (s_credential s) with Some l => l +:+ crlf | None => "" end) =
      ended (as_bytes <$> (match auth_header (s_auth s) (s_credential s) with Some l => [l] | None => [] end))) as Ha.
    { destruct (auth_header _ _) as [l|]; [|done]. cbn [fmap list_fmap ended]. rewrite as_bytes_app. unfold crlf.
      by rewrite as_bytes_from_utf8. }
    rewrite <- Ha. cbn [fmap list_fmap ended]. rewrite !as_bytes_app. unfold crlf. rewrite !as_bytes_from_utf8.
    rewrite !app_nil_r, <- !app_assoc. done. }
  unfold request_bytes. rewrite E, ended_joined by done. unfold SEP. by rewrite <- !app_assoc.
Qed.

Lemma request_lines_ok s : configured s -> Forall line_ok (request_lines s).
Proof.
  intros [Hh Hp Ha]. unfold request_lines. apply Forall_fmap.
  pose proof one_line_ok as Hok. pose proof one_line_literal as Hlit.
  assert (one_line (target_of (s_path s))) as Ht
    by (unfold target_of; case_match; [done|vm_compute; split; intros Hin%list_elem_of_singleton; discriminate]).
  rewrite !Forall_app, !Forall_cons. split_and!; try apply Forall_nil_2.
  - apply Hok; [|done]. rewrite !one_line_app. split_and!; [by apply Hlit|done|by apply Hlit].
  - apply Hok; [|done]. rewrite one_line_app. split; [by apply Hlit|done].
  - apply Hok; [by apply Hlit|done].
  - destruct (auth_header _ _) as [l|]; [|constructor]. constructor; [|constructor]. destruct (Ha l) as [? ?]; [done|]. by apply Hok.
  - apply Forall_fmap. apply Forall_true. intros [name value]. apply Hok.
    + unfold static_header. rewrite !one_line_app. split_and!; [apply one_line_clean|by apply Hlit|apply one_line_clean].
    + unfold static_header. cbn [fst snd]. by destruct (clean name).
  - apply Hok; [|done]. rewrite one_line_app. split; [by apply Hlit|apply one_line_digits].
  - apply Hok; [by apply Hlit|done].
Qed.

(** ** What a call sends and what it takes in *)

Lemma dechunk_loop_length fuel : forall data out, length (dechunk_loop fuel data out) <= length out + length data.
Proof.
  induction fuel as [|fuel IH]; intros data out; cbn [dechunk_loop]; [lia|]. destruct (position CRLF data) as [nl|]; [|lia].
  destruct (chunk_size _) as [hex|]; [|lia]. case_decide; [lia|]. set (d := drop (nl + 2) data).
  assert (length d <= length data) by (unfold d; rewrite length_drop; lia).
  set (n := Z.to_nat _). assert (n <= length d) by lia. clearbody n d.
  destruct (Profile.strip_prefix CRLF (drop n d)) as [rest|] eqn:E; [|rewrite length_app, length_take; lia].
  specialize (IH rest (out ++ take n d)). rewrite length_app, length_take in IH.
  assert (length rest <= length (drop n d)) as Hr; [|rewrite length_drop in Hr; lia].
  clear -E. destruct (drop n d) as [|c [|c' r]]; cbn in E; repeat case_decide; simplify_eq; cbn; lia.
Qed.

Lemma read_until_bound cap reads : Forall well_read reads -> forall raw r, (Z.of_nat (length raw) < cap)%Z ->
  read_until cap raw reads = Some (Ok r) -> (Z.of_nat (length r) < cap + Z.of_nat CHUNK)%Z.
Proof.
  induction 1 as [|x reads Hx _ IH]; intros raw r Hraw H; [done|].
  destruct x as [b| | |]; cbn [read_until] in H; [|injection H as <-; lia|injection H as <-; lia|done].
  destruct (Z.leb_spec cap (Z.of_nat (length (raw ++ b)))); [|by apply (IH (raw ++ b))].
  injection H as <-. rewrite length_app. unfold well_read in Hx. lia.
Qed.

Lemma read_response_bound limit reads r : (0 <= limit)%Z -> (limit + HEADROOM < 2 ^ 64)%Z -> Forall well_read reads ->
  read_response limit reads = Some (Ok r) -> (Z.of_nat (length r) < limit + HEADROOM + Z.of_nat CHUNK)%Z.
Proof.
  unfold read_response, as_u64, HEADROOM. intros H0 Hl Hr. rewrite Z.mod_small by lia. apply read_until_bound; [done|cbn; lia].
Qed.

(** What the peer sent before it closed is what is read, if it fits. *)
Lemma read_until_all cap ds rest : forall raw, (Z.of_nat (length raw + length (concat ds)) < cap)%Z ->
  read_until cap raw ((Data <$> ds) ++ Closed :: rest) = Some (Ok (raw ++ concat ds)).
Proof.
  induction ds as [|x ds IH]; intros raw H; [by rewrite app_nil_r|]. cbn [fmap list_fmap app read_until concat] in *.
  rewrite length_app in H. destruct (Z.leb_spec cap (Z.of_nat (length (raw ++ x)))) as [Hle|Hlt]; [rewrite length_app in Hle; lia|].
  rewrite (IH (raw ++ x)) by (rewrite length_app; lia). by rewrite <- app_assoc.
Qed.

Lemma parse_unsigned_bound radix bound l v : parse_unsigned radix bound l = Some v -> (v < bound)%Z.
Proof.
  unfold parse_unsigned. destruct (match l with [] => [] | _ => _ end); [done|]. destruct (digits_value _ _ _) as [w|]; [|done].
  cbn [mbind option_bind]. destruct (Z.ltb_spec w bound); congruence.
Qed.

Lemma split_response_length raw status body : split_response raw = Some (status, body) -> length body <= length raw.
Proof.
  unfold split_response. destruct (position SEP raw) as [sep|]; [|done]. cbn [mbind option_bind].
  destruct (Inert.valid_utf8 _); [|done]. cbn [negb]. destruct (status_of _); [|done]. cbn [mbind option_bind].
  intros [= _ <-]. destruct (existsb _ _); [|rewrite length_drop; lia]. unfold dechunk.
  pose proof (dechunk_loop_length (S (length (drop (sep + 4) raw))) (drop (sep + 4) raw) []) as H.
  rewrite length_drop in H at 2. cbn [length] in H. lia.
Qed.

(** C22. A call on the wire. Whatever the network does, what leaves the host is a prefix of one
    POST, the lines the code composed, a blank line and exactly the request; an error reported as
    clean means that no byte left; a response was read after all of it left, and what is kept of it
    is bounded by the call's limit, the room for a head and one read, of at most 4096 bytes, unless
    the limit and that room overflow 64 bits. When the host, the path and
    the credential's line hold no line end, which the code does not see to, the first blank line
    is the head's end, however the static headers were written: they add no header and no body. *)
Theorem call_on_the_wire net s r w :
  send net s = (r, w) ->
  w `prefix_of` request_bytes s /\
  request_bytes s = join_lines (request_lines s) ++ SEP ++ s_request s /\
  (configured s -> position SEP (request_bytes s) = Some (length (join_lines (request_lines s)))) /\
  match r with
  | Err (Clean _) => w = []
  | Err (Uncertain _) => True
  | Ok resp => w = request_bytes s /\
      (Forall well_read (n_reads net) -> (0 <= s_max_response_bytes s)%Z -> (s_max_response_bytes s + HEADROOM < 2 ^ 64)%Z ->
       (Z.of_nat (length (rs_body resp)) < s_max_response_bytes s + HEADROOM + Z.of_nat CHUNK)%Z)
  end.
Proof.
  intros Hs. split; [|split; [apply request_bytes_lines|split]].
  - unfold send in Hs. repeat (case_match; simplify_eq; try apply prefix_nil); try done; try apply prefix_take.
  - intros Hc. rewrite request_bytes_lines. apply position_sep; [by apply request_lines_ok|done].
  - unfold send in Hs. repeat (case_match; simplify_eq/=; try done). split; [done|]. intros Hrd Hmin Hlim.
    match goal with H : split_response _ = _ |- _ => apply split_response_length in H end.
    match goal with H : read_response _ _ = _ |- _ => apply read_response_bound in H; [lia|done|done|done] end.
Qed.

(** ** Witnesses *)

(** A header value that tries to end the head, and a chunked answer. *)
Definition sample_sending : Sending :=
  mkSending "api.example.com" 443 (Broker.IpV4 (Broker.V4 93 184 216 34)) "/v1" None Broker.Bearer (Some (as_bytes "key"))
    [("x-note", "a" +:+ crlf +:+ crlf +:+ "POST /evil")] (as_bytes "{}") 4.

Definition sample_chunks : list (bytes * bytes) := [(as_bytes "q=1", as_bytes "hello "); ([], as_bytes "world")].

Definition sample_reply : bytes :=
  reply_text 200 (as_bytes "OK") [as_bytes "Transfer-Encoding: chunked"] (chunked sample_chunks CRLF).

Definition sample_network : Network :=
  mkNetwork (fun _ => None) Passed true Passed None [Data (take 20 sample_reply); Data (drop 20 sample_reply); Closed].

Lemma sample_sending_configured : configured sample_sending.
Proof.
  pose proof one_line_literal as H.
  split; [apply H; vm_compute; reflexivity|apply H; vm_compute; reflexivity|]. intros l [= <-].
  split; [apply H; vm_compute; reflexivity|done].
Qed.

(** The limit on a response is not a limit on its body: a call limited to four bytes takes in
    eleven. *)
Lemma limit_exceeded :
  send sample_network sample_sending = (Ok (mkResponse 200 (as_bytes "hello world")), request_bytes sample_sending).
Proof. vm_compute. reflexivity. Qed.

(** A credential with a line end, or a path with one, ends the head before the code does: what
    was to follow is no longer part of it. *)
Definition split_credential : Sending :=
  mkSending "api.example.com" 443 (Broker.IpV4 (Broker.V4 93 184 216 34)) "/v1" None Broker.Bearer
    (Some (as_bytes ("key" +:+ crlf +:+ crlf +:+ "x"))) [] (as_bytes "{}") 4.

Definition split_path : Sending :=
  mkSending "api.example.com" 443 (Broker.IpV4 (Broker.V4 93 184 216 34)) ("/v1 HTTP/1.1" +:+ crlf +:+ crlf) None Broker.Bearer
    (Some (as_bytes "key")) [] (as_bytes "{}") 4.

Definition splits (s : Sending) : bool :=
  match position SEP (request_bytes s) with Some n => n <? length (join_lines (request_lines s)) | None => false end.

Example line_ends_split : (splits sample_sending, splits split_credential, splits split_path) = (false, true, true).
Proof. vm_compute. reflexivity. Qed.

Example call_on_the_wire_witness :
  position SEP (request_bytes sample_sending) = Some (length (join_lines (request_lines sample_sending))).
Proof.
  apply (call_on_the_wire sample_network sample_sending (Ok (mkResponse 200 (as_bytes "hello world"))) (request_bytes sample_sending)).
  - exact limit_exceeded.
  - exact sample_sending_configured.
Defined.

Example response_roundtrip_witness : split_response sample_reply = Some (200%Z, as_bytes "hello world").
Proof.
  apply (response_roundtrip 200 (as_bytes "OK") [as_bytes "Transfer-Encoding: chunked"] sample_chunks CRLF [] 0).
  - repeat constructor; vm_compute; discriminate.
  - constructor; [|constructor]. split; [repeat constructor; vm_compute; discriminate|discriminate].
  - reflexivity.
  - repeat constructor; vm_compute; discriminate.
Defined.
End Http.
