(* ===== verification/StoreMeta.v ===== *)
(** Opening the store, the state generation and the trusted-time floor
    (akson-store/src/lib.rs [from_conn], [trusted_now], [observe_time];
    akson-store/src/schema.rs [meta_*]). *)
From S2P Require Import Prelude Crypto Envelope AuditLog Db.

Module StoreMeta.

Definition WRAPPED_DEK : string := "wrapped_dek".
Definition COMMITMENT_KEY : string := "commitment_key".
Definition STATE_GENERATION : string := "state_generation".
Definition TRUSTED_TIME : string := "trusted_time".
Definition CLOCK_TOLERANCE_SECS : Z := 300.
Definition COMMITMENT_KEY_CONTEXT : string := "meta.commitment_key".

(** ** The [meta] key/value table *)

Definition meta_get (key : string) (d : Db) : option bytes := meta d !! key.

Definition meta_set (key : string) (value : bytes) (d : Db) : Db :=
  upd_meta (fun m => <[key := value]> m) d.

(** A stored number is 8 big-endian bytes; anything else reads as absent. *)
Definition meta_get_u64 (key : string) (d : Db) : option Z :=
  b ← meta_get key d;
  if decide (length b = 8) then Some (from_be_bytes b) else None.

Definition meta_set_u64 (key : string) (z : Z) (d : Db) : Db :=
  meta_set key (to_be_bytes 8 z) d.

Definition meta_get_i64 (key : string) (d : Db) : option Z :=
  b ← meta_get key d;
  if decide (length b = 8) then Some (as_i64 (from_be_bytes b)) else None.

Definition meta_set_i64 (key : string) (z : Z) (d : Db) : Db :=
  meta_set key (to_be_bytes 8 z) d.

Record ExternalCheckpoint := mkCheckpoint {
  cp_state_generation : Z;
  cp_trusted_time : Z;
  rollback_detectable : bool;
}.

Definition automatic_authority_enabled (r : Recovery) : bool :=
  match r with InRecovery _ => false | _ => true end.

Definition is_recovery (r : Recovery) : bool :=
  match r with InRecovery _ => true | _ => false end.

Inductive TimeStatus :=
| TimeOk (floor : Z)
| Uncertain (floor observed : Z).

Section open.
Context {AE : Aead}.

(** The data key: unwrapped, or generated on first init together with the
    adoption of the checkpoint.  [rand_dek] and [nonce] are the generator's
    bytes. *)
Definition load_dek (kek : bytes) (cp : ExternalCheckpoint) (rand_dek nonce : bytes) (d : Db) :
  result StoreError bytes * Db :=
  match meta_get WRAPPED_DEK d with
  | Some wrapped =>
      match Envelope.unwrap kek wrapped with
      | Ok k => (Ok k, d)
      | Err e => (Err (Seal e), d)
      end
  | None =>
      let d := meta_set WRAPPED_DEK (Envelope.wrap kek nonce rand_dek) d in
      let d := meta_set_u64 STATE_GENERATION (cp_state_generation cp) d in
      let d := meta_set_i64 TRUSTED_TIME (cp_trusted_time cp) d in
      (Ok rand_dek, d)
  end.

Definition load_commitment_key (k rand_key nonce : bytes) (d : Db) :
  result StoreError bytes * Db :=
  match meta_get COMMITMENT_KEY d with
  | Some sealed =>
      match Envelope.open_with k COMMITMENT_KEY_CONTEXT sealed with
      | Ok b => if decide (length b = 32) then (Ok b, d) else (Err (Seal Envelope.Malformed), d)
      | Err e => (Err (Seal e), d)
      end
  | None =>
      (Ok rand_key,
       meta_set COMMITMENT_KEY (Envelope.seal_with k nonce COMMITMENT_KEY_CONTEXT rand_key) d)
  end.

Definition recovery_verdict (cp : ExternalCheckpoint) (db_gen : Z) : Recovery :=
  if negb (rollback_detectable cp) then RollbackDetectionUnavailable
  else if decide (db_gen <> cp_state_generation cp) then
    InRecovery (StateGenerationMismatch (cp_state_generation cp) db_gen)
  else Normal.

Definition adopt_floor (cp : ExternalCheckpoint) (d : Db) : Db :=
  if rollback_detectable cp then
    let stored := default 0%Z (meta_get_i64 TRUSTED_TIME d) in
    if (stored <? cp_trusted_time cp)%Z then meta_set_i64 TRUSTED_TIME (cp_trusted_time cp) d
    else d
  else d.

(** [Store::from_conn] on a migrated database.  The writes are autocommitted one
    by one, so a failure keeps the ones before it. *)
Definition from_conn (journal_mode : string) (kek : bytes) (cp : ExternalCheckpoint)
  (rand_dek rand_key nonce1 nonce2 : bytes) (d : Db) : result StoreError Store * Db :=
  if decide (journal_mode <> "wal" /\ journal_mode <> "memory") then
    (Err (Corrupt "journal_mode, expected wal"), d)
  else
    match load_dek kek cp rand_dek nonce1 d with
    | (Err e, d) => (Err e, d)
    | (Ok k, d) =>
        match load_commitment_key k rand_key nonce2 d with
        | (Err e, d) => (Err e, d)
        | (Ok ck, d) =>
            let db_gen := default 0%Z (meta_get_u64 STATE_GENERATION d) in
            let rec := recovery_verdict cp db_gen in
            (Ok (mkStore k ck rec), adopt_floor cp d)
        end
    end.
End open.

Definition state_generation (d : Db) : Z := default 0%Z (meta_get_u64 STATE_GENERATION d).

Definition set_state_generation (g : Z) : M () := modify (meta_set_u64 STATE_GENERATION g).

Definition trusted_time_floor (d : Db) : Z := default 0%Z (meta_get_i64 TRUSTED_TIME d).

(** The [i64] subtraction wraps, as it does in a release build. *)
Definition observe_time (now tolerance_secs : Z) : M TimeStatus :=
  floor ← gets (fun d => default now (meta_get_i64 TRUSTED_TIME d));
  if (now <? as_i64 (floor - tolerance_secs))%Z then mret (Uncertain floor now)
  else
    _ ← (if (floor <? now)%Z then modify (meta_set_i64 TRUSTED_TIME now) else mret ());
    mret (TimeOk (Z.max now floor)).

Definition trusted_now (wall_clock : Z) : M Z :=
  st ← observe_time wall_clock CLOCK_TOLERANCE_SECS;
  match st with
  | TimeOk floor => mret floor
  | Uncertain _ _ => fail TimeUncertain
  end.

(** ** Round trips of the meta table *)

Lemma meta_get_set key v d : meta_get key (meta_set key v d) = Some v.
Proof. apply lookup_insert_eq. Qed.

Lemma meta_get_set_ne key key' v d : key <> key' -> meta_get key' (meta_set key v d) = meta_get key' d.
Proof. apply lookup_insert_ne. Qed.

Lemma be8_as_i64 z : in_i64 z -> as_i64 (from_be_bytes (to_be_bytes 8 z)) = z.
Proof.
  intros Hz. rewrite from_to_be_bytes. change (256 ^ Z.of_nat 8)%Z with (2 ^ 64)%Z.
  unfold as_i64. rewrite Zplus_mod_idemp_l. apply as_i64_small, Hz.
Qed.

Lemma meta_i64_get_set key z d : in_i64 z -> meta_get_i64 key (meta_set_i64 key z d) = Some z.
Proof.
  intros Hz. unfold meta_get_i64, meta_set_i64. rewrite meta_get_set.
  unfold mbind, option_bind. rewrite decide_True by apply length_to_be_bytes.
  by rewrite be8_as_i64.
Qed.

Lemma meta_u64_get_set key z d : in_u64 z -> meta_get_u64 key (meta_set_u64 key z d) = Some z.
Proof.
  intros Hz. unfold meta_get_u64, meta_set_u64. rewrite meta_get_set.
  unfold mbind, option_bind. rewrite decide_True by apply length_to_be_bytes.
  rewrite from_to_be_bytes, Z.mod_small; [done|]. unfold in_u64, u64_max in Hz. simpl. lia.
Qed.

(** ** The trusted clock *)

(** The floor as the clock sees it: absent means never observed. *)
Definition floor_of (d : Db) : option Z := meta_get_i64 TRUSTED_TIME d.

Lemma floor_in d f : floor_of d = Some f -> in_i64 f.
Proof.
  unfold floor_of, meta_get_i64. destruct (meta_get _ d) as [b|]; simpl; [|done].
  case_decide; [|done]. intros [= <-]. apply as_i64_in.
Qed.

Lemma observe_time_spec now tol d :
  in_i64 now ->
  exists st d', observe_time now tol d = Ok (st, d') /\
    let floor := default now (floor_of d) in
    if (now <? as_i64 (floor - tol))%Z then st = Uncertain floor now /\ d' = d
    else st = TimeOk (Z.max now floor) /\
         floor_of d' = (fun _ => Z.max now floor) <$> floor_of d.
Proof.
  intros Hnow. unfold observe_time, floor_of. unfold_M. simpl.
  destruct (_ <? as_i64 _)%Z eqn:E1; [by eexists _, _|].
  destruct (meta_get_i64 TRUSTED_TIME d) as [f|] eqn:Ef; simpl in *.
  - destruct (f <? now)%Z eqn:E2; eexists _, _; (split; [done|]); split; try done.
    + rewrite meta_i64_get_set by done. simpl. f_equal; lia.
    + rewrite Ef. simpl. f_equal; lia.
  - rewrite Z.ltb_irrefl. eexists _, _. split; [done|]. by rewrite Ef.
Qed.

(** One observation of the trusted clock: it fails exactly when the wall clock is
    more than the tolerance behind the floor, and then changes nothing; otherwise
    the value returned is at least the wall clock and at least the previous floor
    and is the new floor. *)
Lemma trusted_now_spec now d :
  in_i64 now ->
  match exec (trusted_now now) d with
  | (Err e, d') =>
      e = TimeUncertain /\ d' = d /\
      (now < as_i64 (default now (floor_of d) - CLOCK_TOLERANCE_SECS))%Z
  | (Ok t, d') =>
      t = Z.max now (default now (floor_of d)) /\ floor_of d' = (fun _ => t) <$> floor_of d /\
      (as_i64 (default now (floor_of d) - CLOCK_TOLERANCE_SECS) <= now)%Z
  end.
Proof.
  intros Hnow. unfold exec, trusted_now.
  destruct (observe_time_spec now CLOCK_TOLERANCE_SECS d Hnow) as (st & d' & Ho & Hs).
  unfold mbind, M_bind. rewrite Ho. cbn zeta in Hs. destruct (_ <? _)%Z eqn:E.
  - destruct Hs as [-> ->]. simpl. split_and!; [done..|lia].
  - destruct Hs as (-> & Hf). simpl. split_and!; [done|done|lia].
Qed.

(** Running the clock over a list of wall-clock readings: the trusted values that
    were handed out. *)
Fixpoint clock_run (walls : list Z) (d : Db) : list Z * Db :=
  match walls with
  | [] => ([], d)
  | w :: walls =>
      let '(r, d1) := exec (trusted_now w) d in
      let '(ts, d2) := clock_run walls d1 in
      (match r with Ok t => t :: ts | Err _ => ts end, d2)
  end.

Lemma clock_run_bound walls d f :
  Forall in_i64 walls -> floor_of d = Some f ->
  let '(ts, d') := clock_run walls d in
  Forall (fun t => f <= t)%Z ts /\ StronglySorted Z.le ts /\
  exists f', floor_of d' = Some f' /\ (f <= f')%Z /\ Forall (fun t => t <= f')%Z ts.
Proof.
  intros Hw. revert d f. induction Hw as [|w walls Hw _ IH]; intros d f Hf; cbn [clock_run].
  { split_and!; [constructor..|]. exists f. split_and!; [done|lia|constructor]. }
  pose proof (trusted_now_spec w d Hw) as Hs.
  destruct (exec (trusted_now w) d) as [[t|e] d1].
  - destruct Hs as (Ht & Hf1 & _). rewrite Hf in Ht, Hf1. simpl in Ht, Hf1.
    specialize (IH d1 t Hf1). destruct (clock_run walls d1) as [ts d2].
    destruct IH as (Hge & Hs & f' & Hf' & Hle & Hall). split_and!.
    + constructor; [lia|]. eapply Forall_impl; [exact Hge|]. intros x Hx. simpl in Hx. lia.
    + by constructor.
    + exists f'. split_and!; [done|lia|]. by constructor.
  - destruct Hs as (_ & -> & _). specialize (IH d f Hf). by destruct (clock_run walls d).
Qed.

(** Monotone trusted time. Over any sequence of wall-clock readings, forged or
    rolled back, the trusted values handed out never decrease, none is below the
    floor the store started with, and the floor itself never moves back. *)
Theorem trusted_time_monotone walls d f :
  Forall in_i64 walls -> floor_of d = Some f ->
  let '(ts, d') := clock_run walls d in
  Forall (fun t => f <= t)%Z ts /\ StronglySorted Z.le ts /\
  exists f', floor_of d' = Some f' /\ (f <= f')%Z.
Proof.
  intros Hw Hf. pose proof (clock_run_bound walls d f Hw Hf) as H.
  destruct (clock_run walls d) as [ts d']. naive_solver.
Qed.

(** A clock rolled back past the tolerance is refused, never answered with an
    earlier time. *)
Theorem rollback_refused now d f :
  in_i64 now -> floor_of d = Some f -> (now < f - CLOCK_TOLERANCE_SECS)%Z ->
  exec (trusted_now now) d = (Err TimeUncertain, d).
Proof.
  intros Hi Hf Hlt. pose proof (trusted_now_spec now d Hi) as H.
  assert (as_i64 (f - CLOCK_TOLERANCE_SECS) = f - CLOCK_TOLERANCE_SECS)%Z as Hsub.
  { pose proof (floor_in d f Hf). apply as_i64_small. unfold in_i64, CLOCK_TOLERANCE_SECS in *. lia. }
  destruct (exec (trusted_now now) d) as [[t|e] d']; rewrite Hf in H; simpl in H; rewrite Hsub in H; [lia|].
  by destruct H as (-> & -> & _).
Qed.

(** ** Opening *)

Section opening.
Context {AE : Aead}.

Lemma adopt_floor_spec cp d :
  in_i64 (cp_trusted_time cp) ->
  (trusted_time_floor d <= trusted_time_floor (adopt_floor cp d))%Z /\
  (rollback_detectable cp = true ->
     cp_trusted_time cp <= trusted_time_floor (adopt_floor cp d))%Z.
Proof.
  intros Hi. unfold adopt_floor, trusted_time_floor.
  destruct (rollback_detectable cp); [|split; [lia|done]].
  destruct (_ <? _)%Z eqn:E; [rewrite meta_i64_get_set by done; simpl; lia|lia].
Qed.

Lemma meta_set_other k1 k2 v d :
  k1 <> k2 -> meta_get_i64 k2 (meta_set k1 v d) = meta_get_i64 k2 d /\
              meta_get_u64 k2 (meta_set k1 v d) = meta_get_u64 k2 d.
Proof. intros Hne. unfold meta_get_i64, meta_get_u64. by rewrite meta_get_set_ne. Qed.

Lemma adopt_floor_keeps cp k d : k <> TRUSTED_TIME -> meta_get k (adopt_floor cp d) = meta_get k d.
Proof.
  intros. unfold adopt_floor. repeat case_match; try done. by apply meta_get_set_ne.
Qed.

(** What a store file must hold for [from_conn] to return these keys. *)
Definition holds_keys (kek k ck : bytes) (d : Db) : Prop :=
  (exists w, meta_get WRAPPED_DEK d = Some w /\ Envelope.unwrap kek w = Ok k) /\
  (exists c, meta_get COMMITMENT_KEY d = Some c /\
     Envelope.open_with k COMMITMENT_KEY_CONTEXT c = Ok ck) /\
  length ck = 32.

(** Reopening a store under the same key-encryption key returns the same data and
    commitment keys; the verdict is recovery exactly when rollback is detectable
    and the generations disagree, and then automatic authority is off; and the
    trusted-time floor is at least the stored one and the checkpoint's. *)
Theorem reopen_verdict journal kek cp rd rk n1 n2 k ck d :
  journal = "wal" \/ journal = "memory" -> holds_keys kek k ck d ->
  in_i64 (cp_trusted_time cp) ->
  exists s d', from_conn journal kek cp rd rk n1 n2 d = (Ok s, d') /\
    dek s = k /\ commitment_key s = ck /\
    (automatic_authority_enabled (recovery s) = false <->
       rollback_detectable cp = true /\ state_generation d <> cp_state_generation cp) /\
    (trusted_time_floor d <= trusted_time_floor d')%Z /\
    (rollback_detectable cp = true -> cp_trusted_time cp <= trusted_time_floor d')%Z /\
    holds_keys kek k ck d'.
Proof.
  intros Hj ((w & Hw & Hu) & (c & Hc & Ho) & Hl) Hi. unfold from_conn.
  rewrite decide_False by (intros [? ?]; naive_solver).
  unfold load_dek, load_commitment_key. rewrite Hw, Hu, Hc, Ho, decide_True by done.
  eexists _, _. split; [done|]. cbn [dek commitment_key recovery].
  destruct (adopt_floor_spec cp d Hi) as [Hf1 Hf2]. split_and!; try done.
  - unfold recovery_verdict, state_generation.
    destruct (rollback_detectable cp); simpl; [case_decide; naive_solver|naive_solver].
  - unfold holds_keys. rewrite !adopt_floor_keeps by done. naive_solver.
Qed.

(** A fresh database: the first open adopts the checkpoint, and every later open
    finds the keys it wrote. *)
Theorem first_open journal kek cp rd rk n1 n2 d :
  journal = "wal" \/ journal = "memory" ->
  meta d = ∅ -> length rd = 32 -> length rk = 32 ->
  length n1 = Envelope.NONCE_LEN -> length n2 = Envelope.NONCE_LEN ->
  (32 <= aead_limit)%Z -> in_u64 (cp_state_generation cp) -> in_i64 (cp_trusted_time cp) ->
  exists s d', from_conn journal kek cp rd rk n1 n2 d = (Ok s, d') /\
    dek s = rd /\ commitment_key s = rk /\
    automatic_authority_enabled (recovery s) = true /\
    state_generation d' = cp_state_generation cp /\
    trusted_time_floor d' = cp_trusted_time cp /\
    holds_keys kek rd rk d'.
Proof.
  intros Hj Hm Hrd Hrk Hn1 Hn2 Hlim Hg Ht. unfold from_conn.
  rewrite decide_False by (intros [? ?]; naive_solver).
  unfold load_dek. unfold meta_get at 1. rewrite Hm, lookup_empty.
  set (d1 := meta_set_i64 TRUSTED_TIME _ _).
  assert (meta_get COMMITMENT_KEY d1 = None) as Hc.
  { unfold d1, meta_set_i64, meta_set_u64. rewrite !meta_get_set_ne by done.
    unfold meta_get. by rewrite Hm. }
  unfold load_commitment_key. rewrite Hc. set (d2 := meta_set COMMITMENT_KEY _ d1).
  assert (meta_get_i64 TRUSTED_TIME d2 = Some (cp_trusted_time cp)) as Ht2.
  { unfold d2. rewrite (proj1 (meta_set_other COMMITMENT_KEY TRUSTED_TIME _ _ ltac:(done))).
    unfold d1. by rewrite meta_i64_get_set. }
  assert (meta_get_u64 STATE_GENERATION d2 = Some (cp_state_generation cp)) as Hg2.
  { unfold d2, d1, meta_set_i64.
    rewrite (proj2 (meta_set_other COMMITMENT_KEY STATE_GENERATION _ _ ltac:(done))).
    rewrite (proj2 (meta_set_other TRUSTED_TIME STATE_GENERATION _ _ ltac:(done))).
    by rewrite meta_u64_get_set. }
  assert (adopt_floor cp d2 = d2) as Had.
  { unfold adopt_floor. rewrite Ht2. simpl. rewrite Z.ltb_irrefl. by case_match. }
  rewrite Had, Hg2. eexists _, _. split; [done|]. cbn [dek commitment_key recovery].
  split_and!; [done|done| | | |].
  - unfold recovery_verdict. simpl. case_match; [done|]. by rewrite decide_False by naive_solver.
  - unfold state_generation. by rewrite Hg2.
  - unfold trusted_time_floor. by rewrite Ht2.
  - split_and!; [| |done].
    + exists (Envelope.wrap kek n1 rd). split.
      * unfold d2, d1, meta_set_i64, meta_set_u64. rewrite !meta_get_set_ne by done. apply meta_get_set.
      * by apply Envelope.unwrap_wrap.
    + eexists. split; [apply meta_get_set|]. apply Envelope.open_seal; [done|]. rewrite Hrk. simpl. lia.
Qed.
End opening.

(** ** Witnesses *)

Definition sample_clock : Db := meta_set_i64 TRUSTED_TIME 1000 empty_db.

Definition sample_checkpoint (gen time : Z) : ExternalCheckpoint := mkCheckpoint gen time true.

(** A store file as a first open leaves it. *)
Definition sample_file : Db :=
  (@from_conn ToyAead "wal" (repeat "k"%char 32) (sample_checkpoint 7 1000) (repeat "d"%char 32)
     (repeat "c"%char 32) (repeat "n"%char 24) (repeat "m"%char 24) empty_db).2.

Example trusted_time_witness :
  let '(ts, d') := clock_run [1000; 1500; 1400; 3; 1600]%Z sample_clock in
  Forall (fun t => 1000 <= t)%Z ts /\ StronglySorted Z.le ts /\
  exists f', floor_of d' = Some f' /\ (1000 <= f')%Z.
Proof.
  apply (trusted_time_monotone [1000; 1500; 1400; 3; 1600]%Z sample_clock 1000);
    [|reflexivity]. repeat constructor; vm_compute; discriminate.
Defined.

Example rollback_refused_witness : exec (trusted_now 3) sample_clock = (Err TimeUncertain, sample_clock).
Proof.
  apply (rollback_refused 3 sample_clock 1000);
    [split; vm_compute; discriminate|reflexivity|reflexivity].
Defined.

Example reopen_witness :
  exists s d', @from_conn ToyAead "wal" (repeat "k"%char 32) (sample_checkpoint 8 2000) [] [] [] []
                 sample_file = (Ok s, d') /\
    dek s = repeat "d"%char 32 /\ automatic_authority_enabled (recovery s) = false.
Proof.
  destruct (@reopen_verdict ToyAead "wal" (repeat "k"%char 32) (sample_checkpoint 8 2000) [] [] [] []
    (repeat "d"%char 32) (repeat "c"%char 32) sample_file) as (s & d' & Ho & Hd & _ & Ha & _).
  - by left.
  - split_and!; [eexists; split; reflexivity|eexists; split; reflexivity|reflexivity].
  - split; vm_compute; discriminate.
  - exists s, d'. split_and!; [exact Ho|exact Hd|]. apply Ha. split; [reflexivity|].
    vm_compute. discriminate.
Defined.

Example first_open_witness :
  exists s d', @from_conn ToyAead "wal" (repeat "k"%char 32) (sample_checkpoint 7 1000)
      (repeat "d"%char 32) (repeat "c"%char 32) (repeat "n"%char 24) (repeat "m"%char 24) empty_db
      = (Ok s, d') /\ state_generation d' = 7%Z.
Proof.
  destruct (@first_open ToyAead "wal" (repeat "k"%char 32) (sample_checkpoint 7 1000)
    (repeat "d"%char 32) (repeat "c"%char 32) (repeat "n"%char 24) (repeat "m"%char 24) empty_db)
    as (s & d' & Ho & _ & _ & _ & Hg & _);
    [by left|reflexivity..|vm_compute; discriminate|split; vm_compute; discriminate
    |split; vm_compute; discriminate|].
  by exists s, d'.
Defined.
End StoreMeta.
