(* ===== verification/StorePeers.v ===== *)
(** Peers, verification keys, imports, introductions and the knock log
    (akson-store/src/lib.rs, the peer part of [impl Store]).

    An import is the operator's trust act: a root key pinned under a local label,
    with an epoch that removal advances.  An introduction commits a peer by a
    compare-and-swap on that epoch. *)
From S2P Require Import Prelude Crypto Envelope AuditLog Lifecycle Db StoreMeta.
Import Lifecycle StoreMeta.

Module StorePeers.

Definition PEER_RECORD_CONTEXT : string := "peers.record".
Definition KNOCK_LOG_CAP : Z := 1024.

Record StoredPeer := mkStoredPeer { identity : PeerIdentity; local_note : string }.

Record PeerKey := mkPeerKey {
  k_agent_id : string;
  k_issuer : string;
  k_public_key : bytes;
  k_root_thumbprint : string;
}.

Record PeerImport := mkPeerImport {
  i_root_thumbprint : string;
  i_label : string;
  i_endpoint_hint : string;
  i_epoch : Z;
  i_added_at : Z;
}.

Record PeerSummary := mkPeerSummary { s_agent_id : string; s_endpoint_id : string; s_status : string }.

Record AutoApprovePolicy := mkAutoApprove { task_types : list string; max_response_bytes : Z }.

Inductive IntroCommitOutcome :=
| Committed
| AlreadyActive
| NotImported
| EpochChanged
| IntroSuspended (why : string).

Inductive ImportOutcome := Added | Updated | DuplicateRoot | LabelTaken | UnknownRoot.

(** ** Table access *)

Definition tbl_peers (d : Db) := peers (peers_db d).
Definition tbl_keys (d : Db) := peer_keys (peers_db d).
Definition tbl_imports (d : Db) := peer_imports (peers_db d).
Definition tbl_knocks (d : Db) := knock_log (peers_db d).
Definition tbl_auto (d : Db) := auto_approve (peers_db d).

Definition on_peers f := upd_peers_db (upd_peers f).
Definition on_keys f := upd_peers_db (upd_peer_keys f).
Definition on_imports f := upd_peers_db (upd_peer_imports f).
Definition on_knocks f := upd_peers_db (upd_knock_log f).
Definition on_auto f := upd_peers_db (upd_auto_approve f).

(** An [INTEGER] column plus one: beyond [i64] SQLite yields a real, which a
    [STRICT] table refuses. *)
Definition int_succ (z : Z) : result StoreError Z :=
  if (z <? i64_max)%Z then Ok (z + 1)%Z else Err (DbError Constraint).

(** [UNIQUE (label)] on the imports, ignoring the row being written. *)
Definition label_unique (root label : string) (m : gmap string ImportRow) : bool :=
  bool_decide (count_where (fun k r => bool_decide (k <> root /\ im_label r = Some label)) m = 0).

(** [SELECT root_thumbprint FROM peer_imports WHERE label = ?]. *)
Definition label_holder (label : string) (m : gmap string ImportRow) : option string :=
  fst <$> first_row (fun _ r => bool_decide (im_label r = Some label)) m.

(** [holder.is_some_and(|h| h != root)]. *)
Definition held_by_other (holder : option string) (root : string) : bool :=
  match holder with Some h => bool_decide (h <> root) | None => false end.

Definition is_live (r : ImportRow) : bool := bool_decide (im_tombstoned_at r = None).

(** The epoch column of the live import of a root. *)
Definition live_epoch (root : string) (m : gmap string ImportRow) : option Z :=
  r ← m !! root; if is_live r then Some (im_epoch r) else None.

Definition import_from_row (root : string) (r : ImportRow) : result StoreError PeerImport :=
  label ← ok_or (im_label r) (DbError OutOfRange);
  Ok (mkPeerImport root label (im_endpoint_hint r) (Z.max (im_epoch r) 0) (im_added_at r)).

Definition set_status (st : string) (r : PeerRow) : PeerRow :=
  mkPeerRow (pr_agent_id r) (pr_issuer r) (pr_endpoint_id r) (pr_agent_card_thumbprint r)
            (pr_record r) (pr_created_generation r) st.

Section peers.
Context {HS : Hashes} {AE : Aead} {CP : Codec StoredPeer}.

(** ** Peers *)

Definition put_peer_status (s : Store) (nonce : bytes) (peer : StoredPeer)
  (status_on_insert : PeerStatus) : M () :=
  let id := identity peer in
  let root := fp_value (agent_card_key id) in
  if decide (root = "") then fail (Corrupt "a peer must carry an identity root thumbprint")
  else
    let sealed := seal s PEER_RECORD_CONTEXT nonce (encode peer) in
    gen ← gets state_generation;
    modify (on_peers (fun m =>
      <[root := match m !! root with
                | Some old => mkPeerRow (agent_id id) (p_issuer id) (endpoint_id id)
                    (fp_value (agent_card_key id)) sealed (pr_created_generation old)
                    (pr_status old)
                | None => mkPeerRow (agent_id id) (p_issuer id) (endpoint_id id)
                    (fp_value (agent_card_key id)) sealed (as_i64 gen)
                    (as_column status_on_insert)
                end]> m)).

Definition put_peer (s : Store) (nonce : bytes) (peer : StoredPeer) : M () :=
  put_peer_status s nonce peer Active.

Definition parse_status (o : option string) : result StoreError (option PeerStatus) :=
  match o with
  | Some text => match from_column text with
                 | Some st => Ok (Some st)
                 | None => Err (Corrupt "unknown peer status")
                 end
  | None => Ok None
  end.

Definition named (agent : string) (_ : string) (r : PeerRow) : bool :=
  bool_decide (pr_agent_id r = agent).

Definition peer_status (agent : string) : M (option PeerStatus) :=
  o ← gets (fun d => (pr_status ∘ snd) <$> first_row (named agent) (tbl_peers d));
  lift (parse_status o).

Definition peer_status_by_root (root : string) : M (option PeerStatus) :=
  o ← gets (fun d => pr_status <$> tbl_peers d !! root);
  lift (parse_status o).

Definition remove_peer (agent : string) (now : Z) : M bool :=
  removed ← gets (fun d => count_where (named agent) (tbl_peers d));
  _ ← modify (on_peers (delete_where (named agent)));
  if decide (removed = 1) then
    _ ← modify (on_keys (delete_where (fun _ r => bool_decide (pk_agent_id r = agent))));
    _ ← modify (on_auto (delete_where (fun _ r => bool_decide (aa_agent_id r = agent))));
    _ ← audit now "peer.removed" agent;
    mret true
  else mret false.

(** Unsealing the record column of an optional row. *)
Definition open_peer (s : Store) (o : option bytes) : result StoreError (option StoredPeer) :=
  match o with
  | Some sealed => json ← open_col s PEER_RECORD_CONTEXT sealed; p ← parse_json json; Ok (Some p)
  | None => Ok None
  end.

Definition get_peer (s : Store) (agent : string) : M (option StoredPeer) :=
  o ← gets (fun d => (pr_record ∘ snd) <$> first_row (named agent) (tbl_peers d));
  lift (open_peer s o).

Definition get_peer_by_root (s : Store) (root : string) : M (option StoredPeer) :=
  o ← gets (fun d => pr_record <$> tbl_peers d !! root);
  lift (open_peer s o).

Definition sole_peer_named (s : Store) (agent : string) : M (option StoredPeer) :=
  n ← gets (fun d => count_where (named agent) (tbl_peers d));
  if decide (n <> 1) then mret None else get_peer s agent.

Definition peer_named_with_other_root (agent root : string) : M bool :=
  n ← gets (fun d => count_where
        (fun k r => bool_decide (pr_agent_id r = agent /\ k <> root)) (tbl_peers d));
  mret (bool_decide (0 < n)).

Definition peer_by_root (root : string) : M (option (string * string)) :=
  gets (fun d => (fun r => (pr_agent_id r, pr_status r)) <$> tbl_peers d !! root).

(** ** Verification keys *)

Definition put_peer_key (tls_fingerprint purpose agent iss : string) (public_key : bytes)
  (root : string) (now : Z) : M () :=
  _ ← modify (on_keys (fun m =>
        <[(tls_fingerprint, purpose) := mkPeerKeyRow agent iss public_key root now]> m));
  _ ← audit now "peer.key_persisted" (agent +:+ ":" +:+ purpose);
  mret ().

Definition peer_key (tls_fingerprint purpose : string) : M (option PeerKey) :=
  o ← gets (fun d => tbl_keys d !! (tls_fingerprint, purpose));
  match o with
  | Some r =>
      if decide (length (pk_public_key r) = 32) then
        mret (Some (mkPeerKey (pk_agent_id r) (pk_issuer r) (pk_public_key r)
                              (pk_root_thumbprint r)))
      else fail (Corrupt "peer key is not 32 bytes")
  | None => mret None
  end.

(** ** Standing auto-approval *)

(** [join] with newlines. *)
Fixpoint join_lines (l : list string) : string :=
  match l with
  | [] => ""
  | [x] => x
  | x :: l => x +:+ String "010"%char (join_lines l)
  end.

Definition put_auto_approve (agent root : string) (policy : AutoApprovePolicy) (now : Z) : M () :=
  modify (on_auto (fun m =>
    <[root := mkAutoApproveRow agent (join_lines (task_types policy))
                (as_i64 (max_response_bytes policy)) now]> m)).

(** [str::lines]: splits at newlines, drops one carriage return before each, and
    has no final empty line. *)
Fixpoint lines_from (cur : list ascii) (l : list ascii) : list (list ascii) :=
  match l with
  | [] => match cur with [] => [] | _ => [reverse cur] end
  | c :: l =>
      if decide (c = "010"%char) then
        reverse (match cur with r :: cur' => if decide (r = "013"%char) then cur' else cur
                              | [] => [] end) :: lines_from [] l
      else lines_from (c :: cur) l
  end.

Definition lines (s : string) : list string := from_utf8 <$> lines_from [] (as_bytes s).

Definition auto_approve_for_root (root : string) : M (option AutoApprovePolicy) :=
  gets (fun d => (fun r =>
    mkAutoApprove (List.filter (fun t => negb (bool_decide (t = ""))) (lines (aa_task_types r)))
                  (Z.max (aa_max_response_bytes r) 0)) <$> tbl_auto d !! root).

Definition delete_auto_approve (root : string) : M bool :=
  o ← gets (fun d => tbl_auto d !! root);
  _ ← modify (on_auto (delete root));
  mret (bool_decide (is_Some o)).

(** ** Imports *)

Definition add_peer_import (root label endpoint_hint : string) (now : Z) : M ImportOutcome :=
  existing ← gets (fun d => im_tombstoned_at <$> tbl_imports d !! root);
  if decide (existing = Some None) then mret DuplicateRoot
  else
    holder ← gets (fun d => label_holder label (tbl_imports d));
    if held_by_other holder root then mret LabelTaken
    else
      uniq ← gets (fun d => label_unique root label (tbl_imports d));
      if negb uniq then fail (DbError Constraint)
      else
        match existing with
        | Some _ =>
            _ ← modify (on_imports (alter (fun r =>
                  mkImportRow (Some label) endpoint_hint (im_epoch r) now None) root));
            mret Added
        | None =>
            _ ← modify (on_imports (insert root
                  (mkImportRow (Some label) endpoint_hint 1 now None)));
            mret Added
        end.

Definition update_peer_import (root : string) (new_label new_endpoint : option string) :
  M ImportOutcome :=
  live ← gets (fun d => live_epoch root (tbl_imports d));
  match live with
  | None => mret UnknownRoot
  | Some _ =>
      taken ← match new_label with
              | Some label =>
                  holder ← gets (fun d => label_holder label (tbl_imports d));
                  if held_by_other holder root then mret true
                  else
                    uniq ← gets (fun d => label_unique root label (tbl_imports d));
                    if negb uniq then fail (DbError Constraint)
                    else
                      _ ← modify (on_imports (alter (fun r =>
                            mkImportRow (Some label) (im_endpoint_hint r) (im_epoch r)
                                        (im_added_at r) (im_tombstoned_at r)) root));
                      mret false
              | None => mret false
              end;
      if (taken : bool) then mret LabelTaken
      else
        _ ← match new_endpoint with
            | Some endpoint =>
                modify (on_imports (alter (fun r =>
                  mkImportRow (im_label r) endpoint (im_epoch r) (im_added_at r)
                              (im_tombstoned_at r)) root))
            | None => mret ()
            end;
        mret Updated
  end.

(** The tombstoning [UPDATE] shared by the two removals: the rows changed. *)
Definition tombstone_import (root : string) (now : Z) : M nat :=
  o ← gets (fun d => tbl_imports d !! root);
  match o with
  | Some r =>
      if is_live r then
        e ← lift (int_succ (im_epoch r));
        _ ← modify (on_imports (insert root
              (mkImportRow None (im_endpoint_hint r) e (im_added_at r) (Some now))));
        mret 1
      else mret 0
  | None => mret 0
  end.

Definition remove_peer_import (root : string) (now : Z) : M bool :=
  n ← tombstone_import root now;
  mret (bool_decide (n = 1)).

Definition remove_relationship (root : string) (now : Z) : M bool :=
  removed ← tombstone_import root now;
  if decide (removed = 1) then
    _ ← modify (on_peers (delete_where (fun k _ => bool_decide (k = root /\ k <> ""))));
    _ ← modify (on_keys (delete_where (fun _ r =>
          bool_decide (pk_root_thumbprint r = root /\ pk_root_thumbprint r <> ""))));
    _ ← modify (on_auto (delete_where (fun k _ => bool_decide (k = root /\ k <> ""))));
    _ ← audit now "peer.removed" root;
    mret true
  else mret false.

Definition peer_import (root : string) : M (option PeerImport) :=
  o ← gets (fun d => tbl_imports d !! root);
  match o with
  | Some r => if is_live r then i ← lift (import_from_row root r); mret (Some i) else mret None
  | None => mret None
  end.

Definition peer_import_by_label (label : string) : M (option PeerImport) :=
  o ← gets (fun d => first_row (fun _ r => bool_decide (im_label r = Some label) && is_live r)
                               (tbl_imports d));
  match o with
  | Some (root, r) => i ← lift (import_from_row root r); mret (Some i)
  | None => mret None
  end.

(** Listings: [ORDER BY] a text column; rows that tie come in no particular order. *)
Definition text_by_dec {A} (f : A -> string) : RelDecision (fun a b : A => text_le (f a) (f b)) :=
  fun a b => decide (text_le (f a) (f b)).

Definition order_by_text {A} (f : A -> string) (l : list A) : list A :=
  @merge_sort A (fun a b => text_le (f a) (f b)) (text_by_dec f) l.

Definition list_peers : M (list PeerSummary) :=
  gets (fun d => order_by_text s_agent_id
    ((fun kr => mkPeerSummary (pr_agent_id kr.2) (pr_endpoint_id kr.2) (pr_status kr.2))
       <$> map_to_list (tbl_peers d))).

(** [LIMIT 1] without an order: some row of the identity. *)
Definition peer_tls_fingerprint (issuer agent : string) : M (option string) :=
  gets (fun d => (fun kr => kr.1.1) <$>
    head (rows_where (fun _ r => bool_decide (pk_issuer r = issuer /\ pk_agent_id r = agent)) (tbl_keys d))).

Definition list_peer_imports : M (list PeerImport) :=
  rows ← gets (fun d => order_by_text (fun kr : string * ImportRow => default "" (im_label kr.2))
                 (rows_where (fun _ r => is_live r) (tbl_imports d)));
  lift (mapM (fun kr => import_from_row kr.1 kr.2) rows).

(** ** The knock log *)

Record Knock := mkKnock {
  k_claimed_root : string;
  k_source : string;
  k_refusal_class : string;
  k_first_at : Z;
  k_last_at : Z;
  k_count : Z;
}.

(** [ORDER BY last_at DESC, claimed_root]. *)
Definition knock_le (a b : Knock) : Prop :=
  (k_last_at b < k_last_at a)%Z \/ (k_last_at a = k_last_at b /\ text_le (k_claimed_root a) (k_claimed_root b)).

#[global] Instance knock_le_dec : RelDecision knock_le.
Proof. intros a b. unfold knock_le. apply _. Defined.

Definition knocks : M (list Knock) :=
  gets (fun d => merge_sort knock_le
    ((fun '((root, source, class), r) =>
        mkKnock root source class (kn_first_at r) (kn_last_at r) (Z.max (kn_count r) 0))
       <$> map_to_list (tbl_knocks d))).

Definition record_knock (claimed_root source refusal_class : string) (now : Z) : M () :=
  let k := (claimed_root, source, refusal_class) in
  o ← gets (fun d => tbl_knocks d !! k);
  match o with
  | Some r =>
      c ← lift (int_succ (kn_count r));
      modify (on_knocks (insert k (mkKnockRow (kn_first_at r) now c)))
  | None =>
      rows ← gets (fun d => Z.of_nat (size (tbl_knocks d)));
      if (KNOCK_LOG_CAP <=? rows)%Z then mret ()
      else modify (on_knocks (insert k (mkKnockRow now now 1)))
  end.

(** ** Introductions *)

Definition suspend_root (root : string) (r : SuspendReason) : M () :=
  modify (on_peers (alter (set_status (as_column (Suspended r))) root)).

(** One key of the committed introduction. *)
Definition pin_key (peer : StoredPeer) (root : string) (now : Z) (key : string * bytes) : M () :=
  modify (on_keys (insert (fp_value (tls_cert (identity peer)), key.1)
    (mkPeerKeyRow (agent_id (identity peer)) (default "" (p_issuer (identity peer))) key.2
                  root now))).

Fixpoint pin_keys (peer : StoredPeer) (root : string) (now : Z) (keys : list (string * bytes)) :
  M () :=
  match keys with
  | [] => mret ()
  | k :: keys => _ ← pin_key peer root now k; pin_keys peer root now keys
  end.

(** What the pinned record says about the presented material: a refusal to
    return at once, or whether a peer was already pinned. *)
Definition check_pinned (s : Store) (root : string) (peer : StoredPeer) (now : Z) :
  M (IntroCommitOutcome + bool) :=
  o ← get_peer_by_root s root;
  match o with
  | Some existing =>
      match detect_change (identity existing) (identity peer) with
      | Some reason =>
          _ ← suspend_root root reason;
          _ ← audit now "peer.suspended" root;
          mret (inl (IntroSuspended (reason_debug reason)))
      | None =>
          if decide (agent_id (identity existing) <> agent_id (identity peer)) then
            _ ← suspend_root root SubjectChanged;
            _ ← audit now "peer.suspended" root;
            mret (inl (IntroSuspended "SubjectChanged"))
          else
            st ← peer_status_by_root root;
            match st with
            | Some (Suspended _) => mret (inl (IntroSuspended "previously-suspended"))
            | _ => mret (inr true)
            end
      end
  | None => mret (inr false)
  end.

Definition commit_introduced_peer (s : Store) (nonce : bytes) (root : string)
  (expected_epoch : Z) (peer : StoredPeer) (keys : list (string * bytes)) (now : Z) :
  M IntroCommitOutcome :=
  epoch ← gets (fun d => live_epoch root (tbl_imports d));
  match epoch with
  | None => mret NotImported
  | Some epoch =>
      if decide (Z.max epoch 0 <> expected_epoch) then mret EpochChanged
      else
        c ← check_pinned s root peer now;
        match c with
        | inl refusal => mret refusal
        | inr was_pinned =>
            _ ← put_peer_status s nonce peer Active;
            _ ← modify (on_peers (alter (set_status "active") root));
            _ ← pin_keys peer root now keys;
            _ ← audit now "peer.introduced" root;
            mret (if (was_pinned : bool) then AlreadyActive else Committed)
        end
  end.

(** ** What each operation does to the tables *)

Lemma audit_peers ts ev de d n d' :
  audit ts ev de d = Ok (n, d') -> peers_db d' = peers_db d /\ meta d' = meta d.
Proof. unfold audit. destruct (Audit.append _ _ _ _). intros [= <- <-]. done. Qed.

Lemma on_imports_id d : on_imports (fun _ => tbl_imports d) d = d.
Proof. by destruct d as [? ? [] ? ? ? ? ? ?]. Qed.

Lemma on_keys_id d : on_keys (fun _ => tbl_keys d) d = d.
Proof. by destruct d as [? ? [] ? ? ? ? ? ?]. Qed.

Lemma label_holder_None label m :
  label_holder label m = None <-> forall k r, m !! k = Some r -> im_label r <> Some label.
Proof.
  unfold label_holder. rewrite fmap_None, first_row_None.
  setoid_rewrite bool_decide_eq_false. done.
Qed.

Lemma held_by_other_false label root m :
  held_by_other (label_holder label m) root = false -> label_unique root label m = true ->
  forall k r, m !! k = Some r -> im_label r = Some label -> k = root.
Proof.
  intros _ Hu k r Hk Hl. unfold label_unique in Hu.
  apply bool_decide_eq_true, count_where_zero with (k := k) (v := r) in Hu; [|done].
  apply bool_decide_eq_false in Hu. destruct (decide (k = root)); naive_solver.
Qed.

(** The row an accepted import writes: a fresh one at epoch one, or the
    tombstoned one revived at the epoch its removal left. *)
Definition imported_row (label hint : string) (now : Z) (old : option ImportRow) : ImportRow :=
  mkImportRow (Some label) hint (match old with Some r => im_epoch r | None => 1 end) now None.

Lemma add_import_effect root label hint now d o d' :
  add_peer_import root label hint now d = Ok (o, d') ->
  (o <> Added /\ d' = d) \/
  (o = Added /\ live_epoch root (tbl_imports d) = None /\
   (forall k r, tbl_imports d !! k = Some r -> im_label r = Some label -> k = root) /\
   d' = on_imports (insert root (imported_row label hint now (tbl_imports d !! root))) d).
Proof.
  unfold add_peer_import, live_epoch. unfold_M. intros H.
  destruct (tbl_imports d !! root) as [r|] eqn:Er; simpl in H.
  - case_decide as Hd; [left; naive_solver|].
    destruct (held_by_other _ _) eqn:Hh; [left; naive_solver|].
    destruct (label_unique _ _ _) eqn:Hu; simpl in H; [|done].
    right. simplify_eq. split_and!; [done| |by eapply held_by_other_false|].
    + simpl. unfold is_live. rewrite bool_decide_eq_false_2; [done|congruence].
    + unfold on_imports, upd_peers_db, upd_peer_imports.
      unfold tbl_imports in *. by rewrite (alter_as_insert _ _ _ r Er).
  - destruct (held_by_other _ _) eqn:Hh; [left; naive_solver|].
    destruct (label_unique _ _ _) eqn:Hu; simpl in H; [|done].
    right. simplify_eq. split_and!; [done|done|by eapply held_by_other_false|done].
Qed.

Definition relabeled (new_label new_endpoint : option string) (r : ImportRow) : ImportRow :=
  mkImportRow (match new_label with Some l => Some l | None => im_label r end)
              (default (im_endpoint_hint r) new_endpoint) (im_epoch r) (im_added_at r)
              (im_tombstoned_at r).

Lemma update_import_effect root nl ne d o d' :
  update_peer_import root nl ne d = Ok (o, d') ->
  (o <> Updated /\ d' = d) \/
  (o = Updated /\ exists r, tbl_imports d !! root = Some r /\ is_live r = true /\
   (forall l k r', nl = Some l -> tbl_imports d !! k = Some r' -> im_label r' = Some l -> k = root) /\
   tbl_imports d' = <[root := relabeled nl ne r]> (tbl_imports d) /\
   d' = on_imports (fun _ => tbl_imports d') d).
Proof.
  unfold update_peer_import, live_epoch. unfold_M. intros H.
  destruct (tbl_imports d !! root) as [r|] eqn:Er; simpl in H; [|left; naive_solver].
  destruct (is_live r) eqn:El; simpl in H; [|left; naive_solver].
  destruct nl as [l|]; simpl in H.
  - destruct (held_by_other _ _) eqn:Hh; [left; naive_solver|].
    destruct (label_unique _ _ _) eqn:Hu; simpl in H; [|done].
    right. destruct ne as [e|]; simpl in H; simplify_eq; (split; [done|]); exists r;
      (split_and!; [done|done| | |done]);
      try (intros l' k r' [= <-]; by eapply held_by_other_false);
      unfold tbl_imports, on_imports, upd_peers_db, upd_peer_imports in *; simpl;
      rewrite (alter_as_insert _ _ _ r Er); [|done].
    by rewrite (alter_as_insert _ _ _ _ (lookup_insert_eq _ _ _)), insert_insert_eq.
  - right. destruct ne as [e|]; simpl in H; simplify_eq; (split; [done|]); exists r;
      (split_and!; [done|done|done| |]);
      unfold tbl_imports, on_imports, upd_peers_db, upd_peer_imports in *; simpl; try done.
    + by rewrite (alter_as_insert _ _ _ r Er).
    + rewrite insert_id; [done|]. rewrite Er. by destruct r.
    + by apply symmetry, on_imports_id.
Qed.

(** The row a removal writes. *)
Definition tombstoned_row (now : Z) (r : ImportRow) : ImportRow :=
  mkImportRow None (im_endpoint_hint r) (im_epoch r + 1) (im_added_at r) (Some now).

Lemma tombstone_effect root now d n d' :
  tombstone_import root now d = Ok (n, d') ->
  (n = 0 /\ d' = d /\ live_epoch root (tbl_imports d) = None) \/
  (n = 1 /\ exists r, tbl_imports d !! root = Some r /\ is_live r = true /\
   d' = on_imports (insert root (tombstoned_row now r)) d).
Proof.
  unfold tombstone_import, live_epoch, int_succ. unfold_M. intros H.
  destruct (tbl_imports d !! root) as [r|] eqn:Er; simpl in H; [|left; naive_solver].
  destruct (is_live r) eqn:El; simpl in H; [|left; simplify_eq; simpl; by rewrite El].
  destruct (_ <? _)%Z; [|done]. right. simplify_eq. split; [done|]. by exists r.
Qed.

Lemma remove_effect root now d b d' :
  remove_relationship root now d = Ok (b, d') ->
  (b = false /\ d' = d) \/
  (b = true /\ exists r, tbl_imports d !! root = Some r /\ is_live r = true /\
   peers_db d' = mkPeersDb
     (delete_where (fun k _ => bool_decide (k = root /\ k <> "")) (tbl_peers d))
     (delete_where (fun _ r => bool_decide (pk_root_thumbprint r = root /\ pk_root_thumbprint r <> ""))
                   (tbl_keys d))
     (<[root := tombstoned_row now r]> (tbl_imports d)) (tbl_knocks d)
     (delete_where (fun k _ => bool_decide (k = root /\ k <> "")) (tbl_auto d))).
Proof.
  unfold remove_relationship. intros (n & d1 & Ht & H)%bind_Ok.
  apply tombstone_effect in Ht as [(-> & -> & _)|(-> & r & Hr & Hl & ->)].
  - left. simpl in H. unfold_M. naive_solver.
  - right. simpl in H. unfold mbind at 1 2 3, M_bind, modify in H. simpl in H.
    apply bind_Ok in H as (seq & d2 & Ha & H). unfold mret, M_ret in H. simplify_eq.
    apply audit_peers in Ha as [Ha _]. split; [done|]. exists r. rewrite Ha. done.
Qed.

Lemma pin_keys_effect peer root now keys d u d' :
  pin_keys peer root now keys d = Ok (u, d') ->
  exists ks, d' = on_keys (fun _ => ks) d /\
    (forall k r, ks !! k = Some r -> tbl_keys d !! k = Some r \/ pk_root_thumbprint r = root).
Proof.
  revert d. induction keys as [|k keys IH]; intros d H.
  - simpl in H. unfold_M. simplify_eq. exists (tbl_keys d'). split; [|naive_solver].
    by apply symmetry, on_keys_id.
  - simpl in H. apply bind_Ok in H as (? & d1 & H1 & H2). unfold pin_key, modify in H1.
    simplify_eq. apply IH in H2 as (ks & -> & Hks). exists ks. split; [done|].
    intros k' r' Hk. apply Hks in Hk as [Hk|]; [|by right].
    change (tbl_keys (on_keys ?f d)) with (f (tbl_keys d)) in Hk.
    apply lookup_insert_Some in Hk as [[_ <-]|[_ Hk]]; [by right|by left].
Qed.

Lemma open_get_by_root s root d o d' :
  get_peer_by_root s root d = Ok (o, d') ->
  d' = d /\ (o = None <-> tbl_peers d !! root = None).
Proof.
  unfold get_peer_by_root. unfold_M. simpl.
  destruct (tbl_peers d !! root) as [r|]; simpl.
  - destruct (open_col _ _ _) as [j|]; simpl; [|done].
    destruct (parse_json j); simpl; [|done]. intros [= <- <-]. split; [done|]. by split.
  - intros [= <- <-]. by split.
Qed.

Lemma check_pinned_effect s root peer now d c d' :
  check_pinned s root peer now d = Ok (c, d') ->
  match c with
  | inl o => (exists w, o = IntroSuspended w) /\
      (peers_db d' = peers_db d \/
       exists r, peers_db d' = upd_peers (alter (set_status (as_column (Suspended r))) root)
                                         (peers_db d))
  | inr pinned => d' = d /\ (pinned = false <-> tbl_peers d !! root = None) /\
      (forall r, tbl_peers d !! root = Some r ->
         forall why, pr_status r <> as_column (Suspended why))
  end.
Proof.
  unfold check_pinned. intros (o & d1 & Hg & H)%bind_Ok.
  apply open_get_by_root in Hg as [-> Ho]. destruct o as [existing|].
  - destruct (detect_change _ _) as [reason|].
    + apply bind_Ok in H as (? & d2 & H1 & H). unfold suspend_root, modify in H1. simplify_eq.
      apply bind_Ok in H as (? & d3 & [Ha _]%audit_peers & H). unfold_M. simplify_eq.
      split; [by eexists|]. right. exists reason. by rewrite Ha.
    + case_decide as Hid.
      * apply bind_Ok in H as (? & d2 & H1 & H). unfold suspend_root, modify in H1. simplify_eq.
        apply bind_Ok in H as (? & d3 & [Ha _]%audit_peers & H). unfold_M. simplify_eq.
        split; [by eexists|]. right. exists SubjectChanged. by rewrite Ha.
      * apply bind_Ok in H as (st & d2 & H1 & H). unfold peer_status_by_root in H1. unfold_M.
        destruct (tbl_peers d !! root) as [r|] eqn:Er; [|naive_solver]. simpl in H1.
        destruct (from_column (pr_status r)) as [st'|] eqn:Ef; simplify_eq/=.
        destruct st' as [| |why]; simplify_eq; [..|split; [by eexists|by left]];
          (split_and!; [done|done|]); intros r' [= <-] why Hw; pose proof (column_round_trip (Suspended why)) as Hc;
          change (as_column (Suspended why)) with ("suspended:" +:+ reason_as_str why) in Hc;
          rewrite <- Hw in Hc; congruence.
  - unfold_M. simplify_eq. split_and!; [done|naive_solver|].
    intros r Hr. naive_solver.
Qed.

(** The row a committed introduction leaves under the peer's own root. *)
Definition introduced_row (s : Store) (nonce : bytes) (gen : Z) (peer : StoredPeer)
  (old : option PeerRow) : PeerRow :=
  let id := identity peer in
  mkPeerRow (agent_id id) (p_issuer id) (endpoint_id id) (fp_value (agent_card_key id))
    (seal s PEER_RECORD_CONTEXT nonce (encode peer))
    (match old with Some r => pr_created_generation r | None => as_i64 gen end)
    (match old with Some r => pr_status r | None => as_column Active end).

Lemma put_peer_status_effect s nonce peer d u d' :
  put_peer_status s nonce peer Active d = Ok (u, d') ->
  let root := fp_value (agent_card_key (identity peer)) in
  root <> "" /\
  d' = on_peers (insert root (introduced_row s nonce (state_generation d) peer
                                              (tbl_peers d !! root))) d.
Proof.
  unfold put_peer_status. cbn zeta. case_decide as Hr; [by unfold_M|]. unfold_M.
  intros [= <- <-]. split; [done|]. unfold on_peers, upd_peers_db, upd_peers, tbl_peers. simpl.
  do 3 f_equal. unfold introduced_row. by destruct (peers (peers_db d) !! _).
Qed.

Lemma commit_effect s nonce root e peer keys now d o d' :
  commit_introduced_peer s nonce root e peer keys now d = Ok (o, d') ->
  let own := fp_value (agent_card_key (identity peer)) in
  match o with
  | NotImported => d' = d /\ live_epoch root (tbl_imports d) = None
  | EpochChanged => d' = d /\ exists e', live_epoch root (tbl_imports d) = Some e' /\ Z.max e' 0 <> e
  | IntroSuspended _ =>
      (exists e', live_epoch root (tbl_imports d) = Some e' /\ Z.max e' 0 = e) /\
      (peers_db d' = peers_db d \/
       exists r, peers_db d' = upd_peers (alter (set_status (as_column (Suspended r))) root)
                                         (peers_db d))
  | Committed | AlreadyActive =>
      own <> "" /\ (o = Committed <-> tbl_peers d !! root = None) /\
      (exists e', live_epoch root (tbl_imports d) = Some e' /\ Z.max e' 0 = e) /\
      (forall r why, tbl_peers d !! root = Some r -> pr_status r <> as_column (Suspended why)) /\
      exists ks,
        peers_db d' = mkPeersDb
          (alter (set_status "active") root
             (<[own := introduced_row s nonce (state_generation d) peer (tbl_peers d !! own)]>
                (tbl_peers d)))
          ks (tbl_imports d) (tbl_knocks d) (tbl_auto d) /\
        (forall k r, ks !! k = Some r -> tbl_keys d !! k = Some r \/ pk_root_thumbprint r = root)
  end.
Proof.
  unfold commit_introduced_peer. intros (ep & d1 & Hg & H)%bind_Ok.
  unfold gets in Hg. simplify_eq. destruct (live_epoch root (tbl_imports d1)) as [e'|] eqn:Ee.
  2: { unfold_M. by simplify_eq. }
  case_decide as He; [unfold_M; simplify_eq; eauto|].
  apply bind_Ok in H as (c & d2 & Hc & H). apply check_pinned_effect in Hc.
  destruct c as [refusal|pinned].
  { unfold_M. simplify_eq. destruct Hc as [[w ->] Hc]. split; [by exists e'|done]. }
  destruct Hc as (-> & Hp & Hs).
  apply bind_Ok in H as (? & d2 & [Hne ->]%put_peer_status_effect & H).
  apply bind_Ok in H as (? & d3 & H3 & H). unfold modify in H3. simplify_eq.
  apply bind_Ok in H as (? & d4 & (ks & -> & Hks)%pin_keys_effect & H).
  apply bind_Ok in H as (? & d5 & [Ha _]%audit_peers & H). unfold mret, M_ret in H. simplify_eq.
  assert (forall P : Prop, P -> (if pinned then P else P)) as Hif by by destruct pinned.
  destruct pinned; (split_and!; [done|naive_solver|by exists e'|naive_solver|]);
    exists ks; (split; [|exact Hks]); rewrite Ha; done.
Qed.

Lemma knock_effect a b c now d u d' :
  record_knock a b c now d = Ok (u, d') ->
  exists ks, d' = on_knocks (fun _ => ks) d /\
    (size ks <= Nat.max (size (tbl_knocks d)) 1024).
Proof.
  unfold record_knock. intros (o & d1 & Hg & H)%bind_Ok. unfold gets in Hg. simplify_eq.
  destruct (tbl_knocks d1 !! (a, b, c)) as [r|] eqn:Ek.
  - apply bind_Ok in H as (n & d2 & H1 & H). unfold lift in H1. destruct (int_succ _); simplify_eq.
    unfold modify in H. simplify_eq. eexists. split; [done|].
    unfold tbl_knocks in *. rewrite map_size_insert_Some by done. lia.
  - unfold_M. cbn in H. destruct (_ <=? _)%Z eqn:E; simplify_eq.
    + exists (tbl_knocks d'). split; [by destruct d' as [? ? [] ? ? ? ? ? ?]|lia].
    + eexists. split; [done|]. unfold tbl_knocks in *. rewrite map_size_insert_None by done.
      unfold KNOCK_LOG_CAP in E. lia.
Qed.

(** ** The relationship invariant *)

Record peers_inv (p : PeersDb) : Prop := {
  (** A label names at most one import, and exactly the live ones have one. *)
  inv_label : forall k1 k2 r1 r2 l,
    peer_imports p !! k1 = Some r1 -> peer_imports p !! k2 = Some r2 ->
    im_label r1 = Some l -> im_label r2 = Some l -> k1 = k2;
  inv_live : forall k r, peer_imports p !! k = Some r -> is_live r = bool_decide (is_Some (im_label r));
  inv_epoch : forall k r, peer_imports p !! k = Some r -> (1 <= im_epoch r)%Z;
  (** Every pinned peer and every verification key stands behind a live import. *)
  inv_peer : forall k r, peers p !! k = Some r ->
    k <> "" /\ is_Some (live_epoch k (peer_imports p)) /\ exists st, pr_status r = as_column st;
  inv_key : forall k r, peer_keys p !! k = Some r ->
    pk_root_thumbprint r <> "" /\ is_Some (live_epoch (pk_root_thumbprint r) (peer_imports p));
  (** The knock log is bounded whatever knocks. *)
  inv_knock : size (knock_log p) <= 1024;
}.

(** The operations the daemon drives relationships with.  [commit] is called with
    the root the verified identity itself carries. *)
Inductive peers_step (s : Store) : Db -> Db -> Prop :=
| ps_add root label hint now o d d' :
    add_peer_import root label hint now d = Ok (o, d') -> peers_step s d d'
| ps_update root nl ne o d d' :
    update_peer_import root nl ne d = Ok (o, d') -> peers_step s d d'
| ps_remove root now b d d' :
    remove_relationship root now d = Ok (b, d') -> peers_step s d d'
| ps_commit nonce root e peer keys now o d d' :
    fp_value (agent_card_key (identity peer)) = root ->
    commit_introduced_peer s nonce root e peer keys now d = Ok (o, d') -> peers_step s d d'
| ps_knock a b c now u d d' :
    record_knock a b c now d = Ok (u, d') -> peers_step s d d'
| ps_policy agent root policy now u d d' :
    put_auto_approve agent root policy now d = Ok (u, d') -> peers_step s d d'
| ps_unpolicy root b d d' :
    delete_auto_approve root d = Ok (b, d') -> peers_step s d d'.

Lemma live_epoch_insert_ne k root r m :
  k <> root -> live_epoch k (<[root := r]> m) = live_epoch k m.
Proof. intros. unfold live_epoch. by rewrite lookup_insert_ne. Qed.

Lemma live_epoch_insert_eq root r m :
  live_epoch root (<[root := r]> m) = (if is_live r then Some (im_epoch r) else None).
Proof. unfold live_epoch. by rewrite lookup_insert_eq. Qed.

(** Writing a live import row never disconnects a peer. *)
Lemma live_epoch_insert_live k root r m :
  is_live r = true -> is_Some (live_epoch k m) -> is_Some (live_epoch k (<[root := r]> m)).
Proof.
  intros Hr Hk. destruct (decide (k = root)) as [->|Hne].
  - rewrite live_epoch_insert_eq, Hr. by eexists.
  - by rewrite live_epoch_insert_ne.
Qed.

(** Replacing the imports by a table that extends the live ones keeps the
    invariant, given the three facts about the table itself. *)
Lemma inv_set_import p root r :
  peers_inv p -> is_live r = true -> is_Some (im_label r) -> (1 <= im_epoch r)%Z ->
  (forall k r' l, peer_imports p !! k = Some r' -> im_label r' = Some l ->
     im_label r = Some l -> k = root) ->
  peers_inv (upd_peer_imports (insert root r) p).
Proof.
  intros [Hl Hv He Hp Hk Hn] Hr Hlab Hep Huniq. constructor; simpl; [| | | | |done].
  - intros k1 k2 r1 r2 l.
    rewrite !lookup_insert_Some. intros [[<- <-]|[? H1]] [[<- <-]|[? H2]] L1 L2; eauto.
    symmetry; eauto.
  - intros k r'. rewrite lookup_insert_Some. intros [[<- <-]|[? H1]]; [|eauto].
    rewrite Hr. by rewrite bool_decide_eq_true_2.
  - intros k r'. rewrite lookup_insert_Some. intros [[<- <-]|[? H1]]; eauto.
  - intros k r' Hk'. destruct (Hp _ _ Hk') as (? & ? & ?). split_and!; [done| |done].
    by apply live_epoch_insert_live.
  - intros k r' Hk'. destruct (Hk _ _ Hk') as (? & ?). split; [done|].
    by apply live_epoch_insert_live.
Qed.

(** Rewriting the rows of [peers] without adding an unbacked one. *)
Lemma inv_set_peers p m ks :
  peers_inv p ->
  (forall k r, m !! k = Some r ->
     k <> "" /\ is_Some (live_epoch k (peer_imports p)) /\ exists st, pr_status r = as_column st) ->
  (forall k r, ks !! k = Some r ->
     pk_root_thumbprint r <> "" /\ is_Some (live_epoch (pk_root_thumbprint r) (peer_imports p))) ->
  peers_inv (mkPeersDb m ks (peer_imports p) (knock_log p) (auto_approve p)).
Proof. intros [] Hm Hks. by constructor. Qed.

Lemma inv_frame p m a :
  peers_inv p -> size m <= 1024 ->
  peers_inv (mkPeersDb (peers p) (peer_keys p) (peer_imports p) m a).
Proof. intros [] ?. by constructor. Qed.

Lemma inv_suspend p root r :
  peers_inv p -> peers_inv (upd_peers (alter (set_status (as_column (Suspended r))) root) p).
Proof.
  intros Hinv. apply inv_set_peers; [done| |by apply Hinv].
  intros k row. rewrite lookup_alter_Some. intros [(<- & row' & Hk & ->)|[? Hk]];
    destruct (inv_peer _ Hinv _ _ Hk) as (? & ? & ?); eauto.
Qed.

Lemma inv_remove p root now r :
  peers_inv p -> peer_imports p !! root = Some r -> is_live r = true ->
  peers_inv (mkPeersDb
     (delete_where (fun k _ => bool_decide (k = root /\ k <> "")) (peers p))
     (delete_where (fun _ r => bool_decide (pk_root_thumbprint r = root /\ pk_root_thumbprint r <> ""))
                   (peer_keys p))
     (<[root := tombstoned_row now r]> (peer_imports p)) (knock_log p)
     (delete_where (fun k _ => bool_decide (k = root /\ k <> "")) (auto_approve p))).
Proof.
  intros [Hl Hv He Hp Hk Hn] Hr Hlive. constructor; simpl; [| | | | |done].
  - intros k1 k2 r1 r2 l. rewrite !lookup_insert_Some.
    intros [[<- <-]|[? H1]] [[<- <-]|[? H2]] L1 L2; simpl in *; try done. eauto.
  - intros k r'. rewrite lookup_insert_Some. intros [[<- <-]|[? H1]]; [done|eauto].
  - intros k r'. rewrite lookup_insert_Some. intros [[<- <-]|[? H1]]; [|eauto].
    simpl. specialize (He _ _ Hr). lia.
  - intros k r'. rewrite lookup_delete_where. intros H.
    destruct (peers p !! k) as [r0|] eqn:E; [|done]. case_bool_decide as Hd; simplify_eq.
    destruct (Hp _ _ E) as (? & ? & ?). split_and!; [done| |done].
    rewrite live_epoch_insert_ne; naive_solver.
  - intros k r'. rewrite lookup_delete_where. intros H.
    destruct (peer_keys p !! k) as [r0|] eqn:E; [|done]. case_bool_decide as Hd; simplify_eq.
    destruct (Hk _ _ E) as (? & ?). split; [done|]. rewrite live_epoch_insert_ne; naive_solver.
Qed.

Lemma inv_commit s p gen nonce peer ks root :
  peers_inv p -> root <> "" -> fp_value (agent_card_key (identity peer)) = root ->
  is_Some (live_epoch root (peer_imports p)) ->
  (forall k r, ks !! k = Some r -> peer_keys p !! k = Some r \/ pk_root_thumbprint r = root) ->
  peers_inv (mkPeersDb
    (alter (set_status "active") root
       (<[root := introduced_row s nonce gen peer (peers p !! root)]> (peers p)))
    ks (peer_imports p) (knock_log p) (auto_approve p)).
Proof.
  intros Hinv Hne Hroot Hlive Hks. apply inv_set_peers; [done| |].
  - intros k r. rewrite lookup_alter_Some. intros [(<- & r' & Hk & ->)|[? Hk]].
    + split_and!; [done..|]. by exists Active.
    + rewrite lookup_insert_ne in Hk by done. by apply (inv_peer _ Hinv).
  - intros k r [Hk| ->]%Hks; [by apply (inv_key _ Hinv) in Hk|done].
Qed.

(** Every step preserves the relationship invariant. *)
Lemma peers_step_inv s d d' : peers_step s d d' -> peers_inv (peers_db d) -> peers_inv (peers_db d').
Proof.
  intros Hst Hinv. destruct Hst as [? ? ? ? ? ? ? H|? ? ? ? ? ? H|? ? ? ? ? H
    |? ? ? ? ? ? ? ? ? Hroot H|? ? ? ? ? ? ? H|? ? ? ? ? ? ? H|? ? ? ? H].
  - apply add_import_effect in H as [[_ ->]|(-> & Hn & Hu & ->)]; [done|].
    change (peers_db (on_imports ?f d)) with (upd_peer_imports f (peers_db d)).
    apply inv_set_import; [done|done|by eexists| |].
    + simpl. destruct (tbl_imports d !! root) eqn:E; [by apply (inv_epoch _ Hinv) in E|lia].
    + intros k r' l Hk Hl [= <-]. eauto.
  - apply update_import_effect in H as [[_ ->]|(-> & r & Hr & Hlive & Hu & Ht & ->)]; [done|].
    rewrite Ht. change (peers_db (on_imports _ d)) with
      (upd_peer_imports (insert root (relabeled nl ne r)) (peers_db d)).
    assert (is_Some (im_label r)) as [l0 Hl0].
    { pose proof (inv_live _ Hinv _ _ Hr) as Hv. rewrite Hlive in Hv.
      by apply symmetry, bool_decide_eq_true in Hv. }
    apply inv_set_import; [done|done| | |].
    + simpl. destruct nl; [by eexists|by rewrite Hl0; eexists].
    + by apply (inv_epoch _ Hinv) in Hr.
    + simpl. intros k r' l Hk Hl HL. destruct nl as [l'|].
      * injection HL as ->. by eapply Hu.
      * by eapply (inv_label _ Hinv).
  - apply remove_effect in H as [[_ ->]|(-> & r & Hr & Hl & ->)]; [done|]. by apply inv_remove.
  - apply commit_effect in H. rewrite Hroot in H. cbn zeta in H. destruct o; try done.
    + destruct H as (? & _ & (e' & He & _) & _ & ks & -> & Hks).
      apply inv_commit; [done..|by eexists|done].
    + destruct H as (? & _ & (e' & He & _) & _ & ks & -> & Hks).
      apply inv_commit; [done..|by eexists|done].
    + by destruct H as [-> _].
    + by destruct H as [-> _].
    + destruct H as [_ [->|[r ->]]]; [done|by apply inv_suspend].
  - apply knock_effect in H as (ks & -> & Hsz).
    apply (inv_frame _ ks (auto_approve (peers_db d))) in Hinv as Hinv'; [done|].
    pose proof (inv_knock _ Hinv). unfold tbl_knocks in Hsz. lia.
  - unfold put_auto_approve, modify in H. simplify_eq. apply inv_frame; [done|by apply Hinv].
  - unfold delete_auto_approve in H. unfold_M. simplify_eq. apply inv_frame; [done|by apply Hinv].
Qed.

Lemma peers_steps_inv s d d' :
  rtc (peers_step s) d d' -> peers_inv (peers_db d) -> peers_inv (peers_db d').
Proof. induction 1; [done|]. intros. eauto using peers_step_inv. Qed.

Lemma empty_peers_inv : peers_inv empty_peers_db.
Proof.
  constructor; simpl; try (intros *; by rewrite lookup_empty). rewrite map_size_empty. lia.
Qed.

(** No admission without an import. Whatever the daemon's relationship operations
    are interleaved with, every pinned peer and every verification key in the
    store belongs to a root that the operator imported and has not removed, every
    peer has a readable status, a label resolves to at most one root, and the
    knock log stays within its cap. *)
Theorem admission_needs_import s d :
  rtc (peers_step s) empty_db d ->
  (forall root r, tbl_peers d !! root = Some r ->
     is_Some (live_epoch root (tbl_imports d)) /\ is_Some (from_column (pr_status r))) /\
  (forall k r, tbl_keys d !! k = Some r ->
     is_Some (live_epoch (pk_root_thumbprint r) (tbl_imports d))) /\
  (forall k1 k2 r1 r2 l, tbl_imports d !! k1 = Some r1 -> tbl_imports d !! k2 = Some r2 ->
     im_label r1 = Some l -> im_label r2 = Some l -> k1 = k2) /\
  size (tbl_knocks d) <= 1024.
Proof.
  intros Hst. apply peers_steps_inv in Hst; [|apply empty_peers_inv].
  destruct Hst as [Hl Hv He Hp Hk Hn]. split_and!; [| |done|done].
  - intros root r (_ & ? & st & Hst)%Hp. split; [done|]. rewrite Hst, column_round_trip. by eexists.
  - intros k r (_ & ?)%Hk. done.
Qed.

(** ** Epochs *)

(** The epoch of a root that was imported at least once; zero before. *)
Definition epoch_of (root : string) (d : Db) : Z :=
  match tbl_imports d !! root with Some r => im_epoch r | None => 0 end.

Lemma epoch_step s d d' root :
  peers_step s d d' -> peers_inv (peers_db d) -> (epoch_of root d <= epoch_of root d')%Z.
Proof.
  intros Hst Hinv. unfold epoch_of.
  assert (forall r r0, (match tbl_imports d !! r0 with Some x => im_epoch x | None => 0 end <= im_epoch r)%Z ->
    (match tbl_imports d !! root with Some x => im_epoch x | None => 0 end <=
     match <[r0 := r]> (tbl_imports d) !! root with Some x => im_epoch x | None => 0 end)%Z) as Hins.
  { intros r r0 Hle. destruct (decide (r0 = root)) as [->|].
    - by rewrite lookup_insert_eq.
    - by rewrite lookup_insert_ne. }
  destruct Hst as [? ? ? ? ? ? ? H|? ? ? ? ? ? H|? ? ? ? ? H
    |? ? ? ? ? ? ? ? ? Hroot H|? ? ? ? ? ? ? H|? ? ? ? ? ? ? H|? ? ? ? H].
  - apply add_import_effect in H as [[_ ->]|(-> & Hn & Hu & ->)]; [done|]. apply Hins. simpl.
    destruct (tbl_imports d !! root0); lia.
  - apply update_import_effect in H as [[_ ->]|(-> & r & Hr & Hlive & Hu & Ht & ->)]; [done|].
    rewrite Ht. apply Hins. by rewrite Hr.
  - apply remove_effect in H as [[_ ->]|(-> & r & Hr & Hl & Hd)]; [done|].
    unfold tbl_imports at 2. rewrite Hd. apply Hins. rewrite Hr. simpl. lia.
  - apply commit_effect in H. cbn zeta in H. destruct o; unfold tbl_imports at 2; try done.
    + destruct H as (? & _ & _ & _ & ks & -> & _). done.
    + destruct H as (? & _ & _ & _ & ks & -> & _). done.
    + by destruct H as [-> _].
    + by destruct H as [-> _].
    + by destruct H as [_ [->|[r ->]]].
  - by apply knock_effect in H as (ks & -> & _).
  - unfold put_auto_approve, modify in H. by simplify_eq.
  - unfold delete_auto_approve in H. unfold_M. by simplify_eq.
Qed.

Lemma epoch_steps s d d' root :
  rtc (peers_step s) d d' -> peers_inv (peers_db d) -> (epoch_of root d <= epoch_of root d')%Z.
Proof.
  induction 1 as [|d d1 d2 H1 H2 IH]; [done|]. intros Hinv.
  pose proof (epoch_step _ _ _ root H1 Hinv).
  specialize (IH (peers_step_inv _ _ _ H1 Hinv)). lia.
Qed.

Lemma live_epoch_of root d e : live_epoch root (tbl_imports d) = Some e -> epoch_of root d = e.
Proof.
  unfold live_epoch, epoch_of. destruct (tbl_imports d !! root) as [r|]; [|done]. simpl.
  destruct (is_live r); naive_solver.
Qed.

Lemma remove_bumps root now d d' :
  remove_relationship root now d = Ok (true, d') -> epoch_of root d' = (epoch_of root d + 1)%Z.
Proof.
  intros [[? _]|(_ & r & Hr & _ & Hd)]%remove_effect; [done|].
  unfold epoch_of. rewrite Hr. unfold tbl_imports. rewrite Hd. simpl. by rewrite lookup_insert_eq.
Qed.

(** C30. No resurrection. A handshake that started under the epoch of a live import
    can never commit once that relationship has been removed, no matter what
    happens before and after the removal, a re-import of the same root included:
    the commit reports the race and writes nothing. *)
Theorem no_resurrection s root e d0 d1 d2 d3 now nonce peer keys now' o d4 :
  peers_inv (peers_db d0) ->
  live_epoch root (tbl_imports d0) = Some e ->
  rtc (peers_step s) d0 d1 ->
  remove_relationship root now d1 = Ok (true, d2) ->
  rtc (peers_step s) d2 d3 ->
  commit_introduced_peer s nonce root (Z.max e 0) peer keys now' d3 = Ok (o, d4) ->
  (o = EpochChanged \/ o = NotImported) /\ d4 = d3.
Proof.
  intros Hinv He Hs1 Hrem Hs2 Hc.
  pose proof (peers_steps_inv _ _ _ Hs1 Hinv) as Hinv1.
  pose proof (ps_remove s _ _ _ _ _ Hrem) as Hrs.
  pose proof (peers_step_inv _ _ _ Hrs Hinv1) as Hinv2.
  pose proof (epoch_steps _ _ _ root Hs1 Hinv). pose proof (epoch_steps _ _ _ root Hs2 Hinv2).
  pose proof (remove_bumps _ _ _ _ Hrem).
  pose proof (live_epoch_of _ _ _ He) as He0.
  assert (1 <= epoch_of root d0)%Z as Hpos.
  { unfold epoch_of, live_epoch in *. destruct (tbl_imports d0 !! root) eqn:Er; [|done].
    by apply (inv_epoch _ Hinv) in Er. }
  assert (forall e', live_epoch root (tbl_imports d3) = Some e' -> Z.max e' 0 <> Z.max e 0) as Hne.
  { intros e' He'%live_epoch_of. lia. }
  apply commit_effect in Hc. cbn zeta in Hc. destruct o.
  - destruct Hc as (_ & _ & (e' & He' & Hm) & _). by apply Hne in He'.
  - destruct Hc as (_ & _ & (e' & He' & Hm) & _). by apply Hne in He'.
  - destruct Hc as [-> _]. auto.
  - destruct Hc as [-> _]. auto.
  - destruct Hc as ((e' & He' & Hm) & _). by apply Hne in He'.
Qed.

(** A suspension is the operator's to lift. No introduction and no other
    relationship operation turns a suspended peer active: after any step the row
    is still suspended, or the relationship was removed. *)
Theorem suspension_sticky s d d' root r why :
  peers_step s d d' -> tbl_peers d !! root = Some r ->
  pr_status r = as_column (Suspended why) ->
  tbl_peers d' !! root = None \/
  exists r' why', tbl_peers d' !! root = Some r' /\ pr_status r' = as_column (Suspended why').
Proof.
  intros Hst Hr Hs. assert (forall d', peers (peers_db d') = tbl_peers d ->
    exists r' why', tbl_peers d' !! root = Some r' /\ pr_status r' = as_column (Suspended why')) as Hsame.
  { intros d0 Hd. unfold tbl_peers in *. rewrite Hd. eauto. }
  destruct Hst as [? ? ? ? ? ? ? H|? ? ? ? ? ? H|? ? ? ? ? H
    |? ? ? ? ? ? ? ? ? Hroot H|? ? ? ? ? ? ? H|? ? ? ? ? ? ? H|? ? ? ? H].
  - right. by apply add_import_effect in H as [[_ ->]|(-> & Hn & Hu & ->)]; apply Hsame.
  - right. by apply update_import_effect in H as [[_ ->]|(-> & ? & ? & ? & ? & ? & ->)]; apply Hsame.
  - apply remove_effect in H as [[_ ->]|(-> & r0 & Hr0 & Hl & Hd)]; [right; by apply Hsame|].
    unfold tbl_peers in *. rewrite Hd. simpl. rewrite lookup_delete_where, Hr.
    case_bool_decide; [by left|right]. eauto.
  - right. apply commit_effect in H. cbn zeta in H. rewrite Hroot in H. destruct o.
    1-2: destruct H as (_ & _ & _ & Hns & ks & Hd & _); unfold tbl_peers in *; rewrite Hd; simpl;
      (destruct (decide (root0 = root)) as [->|Hne]; [by edestruct (Hns r why)|]);
      rewrite lookup_alter_ne, lookup_insert_ne by done; eauto.
    + destruct H as [-> _]. by apply Hsame.
    + destruct H as [-> _]. by apply Hsame.
    + destruct H as [_ [Hd|[r0 Hd]]]; [by apply Hsame; rewrite Hd|].
      unfold tbl_peers in *. rewrite Hd. simpl. destruct (decide (root0 = root)) as [->|Hne].
      * rewrite lookup_alter_eq, Hr. simpl. eauto.
      * rewrite lookup_alter_ne by done. eauto.
  - right. apply knock_effect in H as (ks & -> & _). by apply Hsame.
  - right. unfold put_auto_approve, modify in H. simplify_eq. by apply Hsame.
  - right. unfold delete_auto_approve in H. unfold_M. simplify_eq. by apply Hsame.
Qed.

(** ** Removal by name *)

(** Removing by name is complete when the name is borne by one peer: the peer,
    every key and every standing policy filed under that name are gone and the
    removal is audited.  When several peers bear the name, which the root-keyed
    schema allows, the rows are deleted all the same, but the keys and policies
    stay, nothing is audited and the caller is told that nothing was removed. *)
Theorem remove_peer_by_name agent now d b d' :
  remove_peer agent now d = Ok (b, d') ->
  (forall k r, tbl_peers d' !! k = Some r -> pr_agent_id r <> agent) /\
  (count_where (named agent) (tbl_peers d) = 1 ->
     b = true /\ length (audit_log d') = S (length (audit_log d)) /\
     (forall k r, tbl_keys d' !! k = Some r -> pk_agent_id r <> agent) /\
     (forall k r, tbl_auto d' !! k = Some r -> aa_agent_id r <> agent)) /\
  (2 <= count_where (named agent) (tbl_peers d) ->
     b = false /\ tbl_keys d' = tbl_keys d /\ tbl_auto d' = tbl_auto d /\
     audit_log d' = audit_log d).
Proof.
  unfold remove_peer. intros (n & d1 & Hg & H)%bind_Ok. unfold gets in Hg. simplify_eq.
  apply bind_Ok in H as (? & d2 & H2 & H). unfold modify in H2. simplify_eq.
  assert (forall {K V} `{Countable K} (p : K -> V -> bool) (m : gmap K V) k r,
    delete_where p m !! k = Some r -> p k r = false) as Hdel.
  { intros K V ? ? p m k r. rewrite lookup_delete_where. destruct (m !! k) as [v|]; [|done].
    destruct (p k v) eqn:E; naive_solver. }
  case_decide as Hn.
  - unfold mbind at 1 2, M_bind, modify in H. simpl in H.
    apply bind_Ok in H as (seq & d3 & Ha & H). unfold mret, M_ret in H. simplify_eq.
    unfold audit in Ha. simpl in Ha. simplify_eq. split_and!; [| |lia].
    + intros k r Hk%Hdel. by apply bool_decide_eq_false in Hk.
    + intros _. split_and!; [done|by simpl; rewrite length_app; simpl; lia|..];
        intros k r Hk%Hdel; by apply bool_decide_eq_false in Hk.
  - unfold mret, M_ret in H. simplify_eq. split_and!; [|lia|done].
    intros k r Hk%Hdel. by apply bool_decide_eq_false in Hk.
Qed.

(** ** Re-introduction *)

(** The root's record, unsealed, is this peer. *)
Definition pinned_as (s : Store) (root : string) (peer : StoredPeer) (d : Db) : Prop :=
  exists r, tbl_peers d !! root = Some r /\
    open_peer s (Some (pr_record r)) = Ok (Some peer) /\ pr_status r = as_column Active.

Lemma open_peer_seal s nonce peer :
  length nonce = Envelope.NONCE_LEN -> (Z.of_nat (length (encode peer)) <= aead_limit)%Z ->
  open_peer s (Some (seal s PEER_RECORD_CONTEXT nonce (encode peer))) = Ok (Some peer).
Proof.
  intros Hn Hf. unfold open_peer. rewrite open_col_seal by done. unfold_result.
  by rewrite parse_json_encode.
Qed.

Lemma commit_pins s nonce root e peer keys now d o d' :
  fp_value (agent_card_key (identity peer)) = root ->
  length nonce = Envelope.NONCE_LEN -> (Z.of_nat (length (encode peer)) <= aead_limit)%Z ->
  commit_introduced_peer s nonce root e peer keys now d = Ok (o, d') ->
  o = Committed \/ o = AlreadyActive ->
  pinned_as s root peer d' /\ live_epoch root (tbl_imports d') = live_epoch root (tbl_imports d).
Proof.
  intros Hroot Hn Hf Hc Ho. apply commit_effect in Hc. cbn zeta in Hc. rewrite Hroot in Hc.
  destruct o; destruct_or!; simplify_eq;
    destruct Hc as (_ & _ & _ & _ & ks & Hd & _); unfold tbl_imports, tbl_peers, pinned_as in *;
    unfold tbl_peers; rewrite Hd; simpl; (split; [|done]); rewrite lookup_alter_eq, lookup_insert_eq;
    (eexists; split; [done|]); (split; [|done]); by apply open_peer_seal.
Qed.

Lemma put_peer_status_run s nonce peer d root :
  fp_value (agent_card_key (identity peer)) = root -> root <> "" ->
  put_peer_status s nonce peer Active d =
    Ok ((), on_peers (insert root (introduced_row s nonce (state_generation d) peer
                                               (tbl_peers d !! root))) d).
Proof.
  intros Hr Hne. unfold put_peer_status. rewrite Hr, decide_False by done.
  rewrite bind_gets. unfold modify. do 2 f_equal. unfold on_peers, upd_peers_db, upd_peers, tbl_peers.
  simpl. do 3 f_equal. unfold introduced_row. rewrite Hr. by destruct (peers (peers_db d) !! _).
Qed.

Lemma pin_keys_run peer root now keys d : exists d', pin_keys peer root now keys d = Ok ((), d').
Proof.
  revert d. induction keys as [|k keys IH]; intros d; [by eexists|].
  simpl. unfold pin_key. rewrite bind_modify. apply IH.
Qed.

(** A first introduction under a live import is committed. *)
Lemma commit_fresh s nonce root e peer keys now d :
  live_epoch root (tbl_imports d) = Some e -> tbl_peers d !! root = None ->
  fp_value (agent_card_key (identity peer)) = root -> root <> "" ->
  exists d', commit_introduced_peer s nonce root (Z.max e 0) peer keys now d = Ok (Committed, d').
Proof.
  intros He Hp Hr Hne. unfold commit_introduced_peer. rewrite bind_gets, He, decide_False by (intros H; by apply H).
  assert (check_pinned s root peer now d = Ok (inr false, d)) as Hc.
  { unfold check_pinned, get_peer_by_root. unfold_M. unfold gets. by rewrite Hp. }
  rewrite (bind_run _ _ _ _ _ Hc), (bind_run _ _ _ _ _ (put_peer_status_run s nonce peer d root Hr Hne)), bind_modify.
  destruct (pin_keys_run peer root now keys (on_peers (alter (set_status "active") root)
    (on_peers (insert root (introduced_row s nonce (state_generation d) peer (tbl_peers d !! root))) d))) as [d2 Hk].
  rewrite (bind_run _ _ _ _ _ Hk). destruct (audit_run now "peer.introduced" root d2) as (n & log & Ha).
  rewrite (bind_run _ _ _ _ _ Ha). by eexists.
Qed.

(** The check against an active pinned record runs to one of two verdicts. *)
Lemma check_pinned_run s root pinned peer now d r :
  get_peer_by_root s root d = Ok (Some pinned, d) ->
  peer_status_by_root root d = Ok (Some Active, d) ->
  tbl_peers d !! root = Some r ->
  exists c d1, check_pinned s root peer now d = Ok (c, d1) /\
    if decide (detect_change (identity pinned) (identity peer) = None /\
               agent_id (identity pinned) = agent_id (identity peer))
    then c = inr true /\ d1 = d
    else exists why r', c = inl (IntroSuspended (reason_debug why)) /\
           tbl_peers d1 !! root = Some r' /\ pr_status r' = as_column (Suspended why) /\
           pr_record r' = pr_record r.
Proof.
  intros Hget Hps Hr. unfold check_pinned. rewrite (bind_run _ _ _ _ _ Hget).
  assert (forall why, exists r',
    tbl_peers (on_peers (alter (set_status (as_column (Suspended why))) root) d) !! root = Some r' /\
    pr_status r' = as_column (Suspended why) /\ pr_record r' = pr_record r) as Hsusp.
  { intros why. change (tbl_peers (on_peers ?f d)) with (f (tbl_peers d)).
    rewrite lookup_alter_eq, Hr. by eexists. }
  destruct (detect_change _ _) as [why|] eqn:Hdc; [|case_decide as Hid].
  - unfold suspend_root. rewrite bind_modify.
    destruct (audit_run now "peer.suspended" root
      (on_peers (alter (set_status (as_column (Suspended why))) root) d)) as (n & log & Ha).
    rewrite (bind_run _ _ _ _ _ Ha). eexists _, _. split; [done|].
    rewrite decide_False by naive_solver. destruct (Hsusp why) as (r' & ?). by exists why, r'.
  - unfold suspend_root. rewrite bind_modify.
    destruct (audit_run now "peer.suspended" root
      (on_peers (alter (set_status (as_column (Suspended SubjectChanged))) root) d)) as (n & log & Ha).
    rewrite (bind_run _ _ _ _ _ Ha). eexists _, _. split; [done|].
    rewrite decide_False by naive_solver. destruct (Hsusp SubjectChanged) as (r' & ?). by exists SubjectChanged, r'.
  - rewrite (bind_run _ _ _ _ _ Hps). eexists _, _. split; [done|]. by rewrite decide_True.
Qed.

Lemma reintroduction_run s root pinned peer nonce e keys now d :
  peers_inv (peers_db d) ->
  fp_value (agent_card_key (identity peer)) = root ->
  pinned_as s root pinned d ->
  live_epoch root (tbl_imports d) = Some e ->
  exists o d', commit_introduced_peer s nonce root e peer keys now d = Ok (o, d') /\
    (if decide (detect_change (identity pinned) (identity peer) = None /\
                agent_id (identity pinned) = agent_id (identity peer))
     then o = AlreadyActive
     else (exists why, o = IntroSuspended why) /\
          exists r why, tbl_peers d' !! root = Some r /\
            pr_status r = as_column (Suspended why) /\
            open_peer s (Some (pr_record r)) = Ok (Some pinned)).
Proof.
  intros Hinv Hroot (r & Hr & Hop & Hst) He.
  assert (1 <= e)%Z as Hpos.
  { unfold live_epoch in He. destruct (tbl_imports d !! root) as [i|] eqn:Ei; [|done].
    apply (inv_epoch _ Hinv) in Ei. simpl in He. destruct (is_live i); naive_solver. }
  assert (root <> "") as Hne by by apply (inv_peer _ Hinv) in Hr as [? _].
  assert (get_peer_by_root s root d = Ok (Some pinned, d)) as Hget.
  { unfold get_peer_by_root. unfold_M. rewrite Hr. simpl fmap. by rewrite Hop. }
  assert (peer_status_by_root root d = Ok (Some Active, d)) as Hps.
  { unfold peer_status_by_root. unfold_M. rewrite Hr. simpl fmap. rewrite Hst. done. }
  unfold commit_introduced_peer. rewrite bind_gets, He, decide_False by lia.
  destruct (check_pinned_run s root pinned peer now d r Hget Hps Hr) as (c & d1 & Hc & Hcase).
  rewrite (bind_run _ _ _ _ _ Hc).
  destruct (decide (detect_change _ _ = None /\ _)) as [Hsame|Hsame].
  - destruct Hcase as [-> ->]. rewrite (bind_run _ _ _ _ _ (put_peer_status_run _ _ _ _ _ Hroot Hne)).
    rewrite bind_modify. edestruct (pin_keys_run peer root now keys) as [d2 Hp].
    rewrite (bind_run _ _ _ _ _ Hp). destruct (audit_run now "peer.introduced" root d2) as (n & log & Ha).
    rewrite (bind_run _ _ _ _ _ Ha). by eexists _, _.
  - destruct Hcase as (why & r' & -> & Hr' & Hst' & Hrec). eexists _, _. split; [done|].
    split; [by eexists|]. exists r', why. by rewrite Hrec.
Qed.

(** What re-introducing a pinned, active peer under the current epoch does. Material
    that agrees in every safety-critical component and in the agent name is
    accepted, and the presented record is the pinned one from then on; anything
    else suspends the peer, and its pinned record stays the one it had. *)
Theorem reintroduction s root pinned peer nonce e keys now d :
  peers_inv (peers_db d) ->
  fp_value (agent_card_key (identity peer)) = root ->
  length nonce = Envelope.NONCE_LEN -> (Z.of_nat (length (encode peer)) <= aead_limit)%Z ->
  pinned_as s root pinned d ->
  live_epoch root (tbl_imports d) = Some e ->
  exists o d', commit_introduced_peer s nonce root e peer keys now d = Ok (o, d') /\
    (if decide (detect_change (identity pinned) (identity peer) = None /\
                agent_id (identity pinned) = agent_id (identity peer))
     then o = AlreadyActive /\ pinned_as s root peer d'
     else (exists why, o = IntroSuspended why) /\
          exists r why, tbl_peers d' !! root = Some r /\
            pr_status r = as_column (Suspended why) /\
            open_peer s (Some (pr_record r)) = Ok (Some pinned)).
Proof.
  intros Hinv Hroot Hn Hf Hp He.
  destruct (reintroduction_run s root pinned peer nonce e keys now d Hinv Hroot Hp He) as (o & d' & Hc & Ho).
  exists o, d'. split; [done|]. case_decide; [|done]. split; [done|].
  by eapply commit_pins; [..|right].
Qed.
End peers.

(** ** Witnesses *)

#[global] Instance StoredPeer_eq_dec : EqDecision StoredPeer.
Proof. solve_decision. Defined.

#[global] Instance StoredPeer_wire : Wire StoredPeer.
Proof.
  refine (wire_inj (fun p => (identity p, local_note p)) (fun '(i, n) => mkStoredPeer i n) _).
  by intros [].
Defined.

Section sample.
#[local] Existing Instances ToyHashes ToyAead.
#[local] Instance sample_codec : Codec StoredPeer := ToyCodec StoredPeer.

Definition sample_store : Store := mkStore (repeat "d"%char 32) (repeat "c"%char 32) Normal.
Definition sample_nonce : bytes := repeat "n"%char 24.

(** The database after an operation, or the one before when it fails. *)
Definition after {A} (m : M A) (d : Db) : Db := (exec m d).2.

Definition alice : StoredPeer := mkStoredPeer (sample_peer "root-a" "alice" "cert-a") "".
Definition alice_moved : StoredPeer := mkStoredPeer (sample_peer "root-a" "alice" "cert-b") "".

Definition d_imported : Db := after (add_peer_import "root-a" "a" "host:1" 10) empty_db.
Definition d_active : Db :=
  after (commit_introduced_peer sample_store sample_nonce "root-a" 1 alice
           [("agent-card", repeat "p"%char 32)] 11) d_imported.
Definition d_suspended : Db :=
  after (commit_introduced_peer sample_store sample_nonce "root-a" 1 alice_moved [] 12) d_active.
Definition d_removed : Db := after (remove_relationship "root-a" 13) d_active.
Definition d_reimported : Db := after (add_peer_import "root-a" "a" "host:1" 14) d_removed.

Lemma d_imported_eq : add_peer_import "root-a" "a" "host:1" 10 empty_db = Ok (Added, d_imported).
Proof. vm_compute. reflexivity. Qed.

Lemma d_active_eq :
  commit_introduced_peer sample_store sample_nonce "root-a" 1 alice
    [("agent-card", repeat "p"%char 32)] 11 d_imported = Ok (Committed, d_active).
Proof. vm_compute. reflexivity. Qed.

Lemma d_removed_eq : remove_relationship "root-a" 13 d_active = Ok (true, d_removed).
Proof. vm_compute. reflexivity. Qed.

Lemma d_reimported_eq : add_peer_import "root-a" "a" "host:1" 14 d_removed = Ok (Added, d_reimported).
Proof. vm_compute. reflexivity. Qed.

Lemma d_imported_reached : rtc (peers_step sample_store) empty_db d_imported.
Proof. eapply rtc_once, ps_add, d_imported_eq. Qed.

Lemma d_active_reached : rtc (peers_step sample_store) d_imported d_active.
Proof. eapply rtc_once, ps_commit; [|apply d_active_eq]. reflexivity. Qed.

Lemma d_active_from_empty : rtc (peers_step sample_store) empty_db d_active.
Proof. etrans; [apply d_imported_reached|apply d_active_reached]. Qed.

Lemma sample_inv d : rtc (peers_step sample_store) empty_db d -> peers_inv (peers_db d).
Proof. intros H. apply (peers_steps_inv _ _ _ H), empty_peers_inv. Qed.

Example admission_needs_import_witness :
  tbl_peers d_active !! "root-a" <> None /\ size (tbl_knocks d_active) <= 1024.
Proof.
  split; [vm_compute; discriminate|].
  apply (admission_needs_import sample_store d_active d_active_from_empty).
Defined.

Example no_resurrection_witness :
  commit_introduced_peer sample_store sample_nonce "root-a" 1 alice [] 15 d_reimported
    = Ok (EpochChanged, d_reimported).
Proof.
  destruct (commit_introduced_peer sample_store sample_nonce "root-a" 1 alice [] 15 d_reimported)
    as [[o d4]|e] eqn:E; [|exfalso; revert E; vm_compute; discriminate].
  destruct (no_resurrection sample_store "root-a" 1 d_imported d_active d_removed d_reimported 13
    sample_nonce alice [] 15 o d4) as [[->| ->] ->].
  - apply sample_inv, d_imported_reached.
  - vm_compute. reflexivity.
  - apply d_active_reached.
  - apply d_removed_eq.
  - eapply rtc_once, ps_add, d_reimported_eq.
  - exact E.
  - reflexivity.
  - exfalso. revert E. vm_compute. discriminate.
Defined.

Definition suspended_row : PeerRow :=
  default (introduced_row sample_store [] 0 alice None) (tbl_peers d_suspended !! "root-a").

Definition d_retried : Db :=
  after (commit_introduced_peer sample_store sample_nonce "root-a" 1 alice [] 16) d_suspended.

Example suspension_sticky_witness :
  tbl_peers d_retried !! "root-a" = None \/
  exists r' why', tbl_peers d_retried !! "root-a" = Some r' /\ pr_status r' = as_column (Suspended why').
Proof.
  apply (suspension_sticky sample_store d_suspended d_retried "root-a" suspended_row EndpointChanged).
  - apply (ps_commit _ sample_nonce "root-a" 1 alice [] 16 (IntroSuspended "previously-suspended"));
      vm_compute; reflexivity.
  - vm_compute. reflexivity.
  - vm_compute. reflexivity.
Defined.

(** Two peers that both call themselves alice. *)
Definition d_namesakes : Db :=
  on_peers (insert "root-b" (introduced_row sample_store sample_nonce 0 alice None)) d_active.

Example remove_peer_by_name_witness :
  remove_peer "alice" 17 d_namesakes = Ok (false, after (remove_peer "alice" 17) d_namesakes) /\
  audit_log (after (remove_peer "alice" 17) d_namesakes) = audit_log d_namesakes.
Proof.
  assert (remove_peer "alice" 17 d_namesakes = Ok (false, after (remove_peer "alice" 17) d_namesakes)) as H
    by (vm_compute; reflexivity).
  split; [exact H|].
  destruct (remove_peer_by_name "alice" 17 d_namesakes false _ H) as (_ & _ & H2).
  destruct H2 as (_ & _ & _ & H2); [apply Nat.leb_le; vm_compute; reflexivity|]. exact H2.
Defined.

Example reintroduction_witness :
  exists why d', commit_introduced_peer sample_store sample_nonce "root-a" 1 alice_moved [] 12 d_active
    = Ok (IntroSuspended why, d').
Proof.
  destruct (reintroduction sample_store "root-a" alice alice_moved sample_nonce 1 [] 12 d_active)
    as (o & d' & Hc & Ho).
  - apply sample_inv, d_active_from_empty.
  - reflexivity.
  - reflexivity.
  - vm_compute. discriminate.
  - exists (default (introduced_row sample_store [] 0 alice None) (tbl_peers d_active !! "root-a")).
    split_and!; vm_compute; reflexivity.
  - vm_compute. reflexivity.
  - rewrite decide_False in Ho by (vm_compute; intros [? _]; discriminate).
    destruct Ho as [[why ->] _]. by exists why, d'.
Defined.
End sample.
End StorePeers.
