(* ===== verification/Introduce.v ===== *)
(** The responder's half of first contact in the daemon (aksond/src/introduce.rs): one
    connection's state, the two flights, the knock log and the commit, over the store.

    The store lock is taken for single operations only, so between two requests of a
    connection the database may have changed in any way. A poisoned lock (a panic elsewhere)
    is not modelled. Bodies are the values they serialize. *)
From S2P Require Import Prelude Text Crypto Sign Envelope AuditLog Lifecycle Keys Json Dsse Proposal Profile.
From S2P Require Import Introduction Db StoreMeta StorePeers Toy.

Module Introduce.
Import StorePeers Keys Json.
Import Introduction (Hello, IntroMaterial, IntroTranscript, mkTranscript, Role, Dialer, Responder, HELLO_PATH,
  COMPLETE_PATH, INTRODUCTION_MEDIA_TYPE, PROTOCOL_VERSION, TOKEN_VERSION).

Definition NOT_BEFORE : string := "2020-01-01T00:00:00Z".
Definition NOT_AFTER : string := "2035-01-01T00:00:00Z".

(** The parts of [IntroIdentity] the responder uses; [cert] is the fingerprint of the
    certificate it presents. *)
Record IntroIdentity := mkIntroIdentity {
  keys : list (Lifecycle.KeyPurpose * PurposeKey);
  signed_card : Profile.AgentCard;
  cert : string;
  own_root : string;
  issuer : string;
  agent : string;
  profile : Profile.ProfileConfig;
}.

Inductive IntroConnState := Fresh | Pending (hello : Hello) (epoch : Z) | Done.

(** A problem document: the URN's last part, the title and the status. *)
Record Problem := mkProblem { p_kind : string; p_title : string; p_status : Z }.

Inductive Body := BProblem (p : Problem) | BMaterial (m : IntroMaterial) | BAck.

Record Response := mkResponse { status : Z; content_type : string; body : Body }.

Definition problem (status : Z) (kind title : string) : Response :=
  mkResponse status "application/problem+json" (BProblem (mkProblem kind title status)).

Definition refused : Response := problem 403 "introduction-refused" "the introduction was refused".

Definition internal : Response := problem 500 "internal" "the request could not be processed".

Definition suspended : Response :=
  problem 409 "peer-suspended" "pinned identity material changed; operator review required".

(** [is_ascii_alphanumeric() || b == b'-' || b == b'_']. *)
Definition base64url_byte (b : byte) : bool :=
  Profile.in_bytes 48 57 b || Profile.in_bytes 65 90 b || Profile.in_bytes 97 122 b ||
  bool_decide (b = "-"%char) || bool_decide (b = "_"%char).

Definition sane_claim (claimed : string) : string * bool :=
  let plausible := bool_decide (String.length claimed = 43) && forallb base64url_byte (as_bytes claimed) in
  if plausible then (claimed, true) else ("", false).

(** [OffsetDateTime::from_unix_timestamp(..).unwrap_or(UNIX_EPOCH)], in nanoseconds: years
    -9999 to 9999. *)
Definition instant (now_unix : Z) : Z :=
  if (-377705116800 <=? now_unix)%Z && (now_unix <=? 253402300799)%Z then (now_unix * 1000000000)%Z else 0%Z.

Definition starts_with (p s : string) : bool := bool_decide (is_Some (Profile.strip_prefix (as_bytes p) (as_bytes s))).

(** What the listener hands over: the request and the facts of its TLS session. *)
Record Request := mkReq {
  path : string;
  method : string;
  req_content_type : string;
  source : string;
  dialer_tls : option string;
  exporter : option bytes;
  payload : bytes;
  now_unix : Z;
}.

Section responder.
Context {HS : Hashes} {HX : Hex} {AE : Aead} {ED : Ed25519} {BU : Base64Url} {JT : JwkText} {CH : Codec ProtectedHeader}
  {SV : Dsse.Schemas} {TM : Introduction.Instants} {CN : Canon Json} {CJ : Profile.CardJson}
  {TV : Proposal.ToValue Introduction.KeyBindingSet} {CP : Codec StoredPeer} {CHello : Codec Hello} {CMat : Codec IntroMaterial}.
Context (me : IntroIdentity) (s : Store).

Definition transcript (role : Role) (dialer_root responder_root dialer_tls_sha256 responder_tls_sha256 : string)
  (exporter : bytes) (nonce : string) : IntroTranscript :=
  mkTranscript PROTOCOL_VERSION TOKEN_VERSION role dialer_root responder_root dialer_tls_sha256 responder_tls_sha256
    (url_encode exporter) nonce "".

Definition binding_keys (b : Introduction.KeyBindingSet) : list (string * bytes) :=
  omap (fun pe => match to_key (Introduction.e_jwk pe.2) with Ok k => Some (pe.1, k) | Err _ => None end)
    (Introduction.entries (Introduction.keys b)).

(** [let _ = store.record_knock(..)]. *)
Definition knock (claim source class : string) (now : Z) (d : Db) : Db :=
  (exec (record_knock claim source class now) d).2.

(** The state after a request: the response, whether the connection closes, the slot and
    the database. *)
Definition Outcome : Type := Response * bool * IntroConnState * Db.

(** Flight 1. *)
Definition respond_hello (r : Request) (tls : string) (exp : bytes) (slot : IntroConnState) (d : Db) : Outcome :=
  match slot with
  | Pending _ _ | Done => (refused, true, Done, d)
  | Fresh =>
      match decode (payload r) : option Hello with
      | None => (refused, true, Fresh, d)
      | Some hello =>
          let '(claim, plausible) := sane_claim (Introduction.claimed_root hello) in
          if decide (Introduction.h_protocol_version hello <> PROTOCOL_VERSION \/
                     Introduction.h_token_version hello <> TOKEN_VERSION)
          then (refused, true, Fresh, knock claim (source r) "bad-version" (now_unix r) d)
          else if bool_decide (Introduction.target_root hello <> own_root me) || negb plausible
          then (refused, true, Fresh,
                knock claim (source r) (if (plausible : bool) then "wrong-target" else "malformed") (now_unix r) d)
          else
            match exec (peer_import (Introduction.claimed_root hello)) d with
            | (Ok (Some import), d) =>
                let t := transcript Responder (Introduction.claimed_root hello) (own_root me) tls (cert me) exp
                           (Introduction.h_nonce hello) in
                match Introduction.build_intro_material t (issuer me) (agent me) (signed_card me) (keys me)
                        NOT_BEFORE NOT_AFTER 0 with
                | Err _ => (internal, true, Fresh, d)
                | Ok material =>
                    (mkResponse 200 INTRODUCTION_MEDIA_TYPE (BMaterial material), false, Pending hello (i_epoch import), d)
                end
            | (_, d) => (refused, true, Fresh, knock claim (source r) "not-imported" (now_unix r) d)
            end
      end
  end.

(** Flight 3; [nonce] seals the committed record. *)
Definition respond_complete (nonce : bytes) (r : Request) (tls : string) (exp : bytes) (slot : IntroConnState) (d : Db) : Outcome :=
  match slot with
  | Fresh | Done => (refused, true, Done, d)
  | Pending hello epoch =>
      match decode (payload r) : option IntroMaterial with
      | None => (refused, true, Done, d)
      | Some material =>
          let claimed := Introduction.claimed_root hello in
          let t := transcript Dialer claimed (own_root me) tls (cert me) exp (Introduction.h_nonce hello) in
          match Introduction.verify_introduction claimed t tls material (profile me) (instant (now_unix r)) with
          | Err _ => (refused, true, Done, knock (sane_claim claimed).1 (source r) "bad-proof" (now_unix r) d)
          | Ok verified =>
              match Introduction.peer_identity_from (Introduction.bindings verified) (Introduction.extended_card material) with
              | Err _ => (refused, true, Done, d)
              | Ok identity =>
                  let peer := mkStoredPeer identity "" in
                  let '(outcome, d) := exec (commit_introduced_peer s nonce claimed epoch peer
                                               (binding_keys (Introduction.bindings verified)) (now_unix r)) d in
                  (match outcome with
                   | Ok Committed | Ok AlreadyActive => mkResponse 200 INTRODUCTION_MEDIA_TYPE BAck
                   | Ok (IntroSuspended _) => suspended
                   | Ok EpochChanged | Ok NotImported => refused
                   | Err _ => internal
                   end, true, Done, d)
              end
          end
      end
  end.

(** [respond_introduction_inner]. *)
Definition respond_introduction (nonce : bytes) (r : Request) (slot : IntroConnState) (d : Db) : Outcome :=
  if bool_decide (method r <> "POST") || negb (starts_with INTRODUCTION_MEDIA_TYPE (req_content_type r))
  then (refused, true, slot, d)
  else
    match dialer_tls r, exporter r with
    | Some tls, Some exp =>
        if decide (path r = HELLO_PATH) then respond_hello r tls exp slot d
        else if decide (path r = COMPLETE_PATH) then respond_complete nonce r tls exp slot d
        else (refused, true, slot, d)
    | _, _ => (refused, true, slot, d)
    end.

(** ** What a response tells *)

(** The hello of a request was admitted: right versions and target, and a live import. *)
Definition admitted (r : Request) (d : Db) (hello : Hello) (epoch : Z) : Prop :=
  decode (payload r) = Some hello /\
  Introduction.h_protocol_version hello = PROTOCOL_VERSION /\ Introduction.h_token_version hello = TOKEN_VERSION /\
  Introduction.target_root hello = own_root me /\
  exists import, peer_import (Introduction.claimed_root hello) d = Ok (Some import, d) /\ i_epoch import = epoch.

(** The material of a request proved the claimed root over this session. *)
Definition proved (r : Request) (hello : Hello) (material : IntroMaterial)
  (verified : Introduction.VerifiedIntroduction) : Prop := exists tls exp,
  dialer_tls r = Some tls /\ exporter r = Some exp /\ decode (payload r) = Some material /\
  Introduction.verify_introduction (Introduction.claimed_root hello)
    (transcript Dialer (Introduction.claimed_root hello) (own_root me) tls (cert me) exp (Introduction.h_nonce hello))
    tls material (profile me) (instant (now_unix r)) = Ok verified.

(** The commit that answered a request. *)
Definition committed (nonce : bytes) (r : Request) (d : Db) (hello : Hello) (epoch : Z) (o : IntroCommitOutcome) (d' : Db) : Prop :=
  exists material verified identity,
    proved r hello material verified /\
    Introduction.peer_identity_from (Introduction.bindings verified) (Introduction.extended_card material) = Ok identity /\
    commit_introduced_peer s nonce (Introduction.claimed_root hello) epoch (mkStoredPeer identity "")
      (binding_keys (Introduction.bindings verified)) (now_unix r) d = Ok (o, d').

(** One response, with what it implies: the generic refusal or an internal error, or
    material for an admitted hello, or an ack or a suspension for a committed proof. *)
Inductive told (nonce : bytes) (r : Request) (d : Db) : IntroConnState -> Response -> IntroConnState -> Prop :=
| told_nothing st resp st' :
    resp = refused \/ resp = internal -> st' = st \/ st' = Done -> told nonce r d st resp st'
| told_material hello epoch m :
    admitted r d hello epoch ->
    told nonce r d Fresh (mkResponse 200 INTRODUCTION_MEDIA_TYPE (BMaterial m)) (Pending hello epoch)
| told_ack hello epoch o d' :
    committed nonce r d hello epoch o d' -> o = Committed \/ o = AlreadyActive ->
    told nonce r d (Pending hello epoch) (mkResponse 200 INTRODUCTION_MEDIA_TYPE BAck) Done
| told_suspended hello epoch why d' :
    committed nonce r d hello epoch (IntroSuspended why) d' ->
    told nonce r d (Pending hello epoch) suspended Done.

Lemma peer_import_reads root d o d' : peer_import root d = Ok (o, d') -> d' = d.
Proof.
  unfold peer_import. intros H. unfold_M.
  destruct (tbl_imports d !! root) as [row|]; [|by simplify_eq].
  destruct (is_live row); [|by simplify_eq]. destruct (import_from_row root row); by simplify_eq.
Qed.

Lemma respond_hello_told nonce r tls exp slot d resp close slot' d' :
  respond_hello r tls exp slot d = (resp, close, slot', d') -> told nonce r d slot resp slot'.
Proof.
  unfold respond_hello. destruct slot as [|h e|].
  2, 3: (intros [= <- <- <- <-]; apply told_nothing; by auto).
  destruct (decode (payload r)) as [hello|] eqn:Ed; [|intros [= <- <- <- <-]; apply told_nothing; by auto].
  destruct (sane_claim _) as [claim plausible].
  destruct (decide _) as [|Hv]; [intros [= <- <- <- <-]; apply told_nothing; by auto|].
  apply not_or_and in Hv as [Hp%dec_stable Ht%dec_stable].
  destruct (bool_decide (Introduction.target_root hello <> own_root me)) eqn:Et; cbn [orb];
    [intros [= <- <- <- <-]; apply told_nothing; by auto|].
  apply bool_decide_eq_false, dec_stable in Et.
  destruct plausible; cbn [negb]; [|intros [= <- <- <- <-]; apply told_nothing; by auto].
  unfold exec. destruct (peer_import _ d) as [[[import|] d1]|er] eqn:Ei;
    [|intros [= <- <- <- <-]; apply told_nothing; by auto..].
  pose proof (peer_import_reads _ _ _ _ Ei) as ->.
  destruct (Introduction.build_intro_material _ _ _ _ _ _ _ _) as [m|];
    [|intros [= <- <- <- <-]; apply told_nothing; by auto].
  intros [= <- <- <- <-]. apply told_material. repeat split; [done..|]. by exists import.
Qed.

Lemma respond_complete_told nonce r tls exp slot d resp close slot' d' :
  dialer_tls r = Some tls -> exporter r = Some exp ->
  respond_complete nonce r tls exp slot d = (resp, close, slot', d') -> told nonce r d slot resp slot'.
Proof.
  intros Htls Hexp. unfold respond_complete. destruct slot as [|hello epoch|];
    [intros [= <- <- <- <-]; apply told_nothing; by auto| |intros [= <- <- <- <-]; apply told_nothing; by auto].
  destruct (decode (payload r)) as [material|] eqn:Ed; [|intros [= <- <- <- <-]; apply told_nothing; by auto].
  destruct (Introduction.verify_introduction _ _ _ _ _ _) as [v|] eqn:Ev;
    [|intros [= <- <- <- <-]; apply told_nothing; by auto].
  destruct (Introduction.peer_identity_from _ _) as [identity|] eqn:Ep;
    [|intros [= <- <- <- <-]; apply told_nothing; by auto].
  assert (proved r hello material v) as Hproved by by exists tls, exp.
  unfold exec. destruct (commit_introduced_peer _ _ _ _ _ _ _ d) as [[o d1]|er] eqn:Ec;
    [|intros [= <- <- <- <-]; apply told_nothing; by auto].
  assert (committed nonce r d hello epoch o d1) as Hc by by exists material, v, identity.
  destruct o; intros [= <- <- <- <-]; first
    [by eapply told_ack; eauto|by eapply told_suspended|apply told_nothing; by auto].
Qed.

Lemma respond_told nonce r slot d resp close slot' d' :
  respond_introduction nonce r slot d = (resp, close, slot', d') -> told nonce r d slot resp slot'.
Proof.
  unfold respond_introduction. destruct (_ || _); [intros [= <- <- <- <-]; apply told_nothing; by auto|].
  destruct (dialer_tls r) as [tls|] eqn:Et; [|intros [= <- <- <- <-]; apply told_nothing; by auto].
  destruct (exporter r) as [exp|] eqn:Ee; [|intros [= <- <- <- <-]; apply told_nothing; by auto].
  destruct (decide _); [apply respond_hello_told|].
  destruct (decide _); [by apply respond_complete_told|]. intros [= <- <- <- <-]. apply told_nothing; by auto.
Qed.

(** ** One connection *)

(** The requests of one connection with their responses, oldest first, each with the
    database it met: other connections and the operator may have changed it in between. *)
Inductive session : IntroConnState -> list (Db * Request * Response) -> Prop :=
| session_open : session Fresh []
| session_request st h nonce r d resp close st' d' :
    session st h -> respond_introduction nonce r st d = (resp, close, st', d') ->
    session st' (h ++ [(d, r, resp)]).

Definition is_ack (resp : Response) : bool := match body resp with BAck => true | _ => false end.
Definition is_material (resp : Response) : bool := match body resp with BMaterial _ => true | _ => false end.

(** A hello was admitted earlier in the history. *)
Definition greeted (h : list (Db * Request * Response)) (hello : Hello) (epoch : Z) : Prop :=
  exists d r resp, (d, r, resp) ∈ h /\ is_material resp = true /\ admitted r d hello epoch.

(** An ack is backed by that hello, by a proof of the claimed root over this session, and
    by a commit against the epoch admission saw, still live at the commit, which pins the
    claimed root. *)
Definition backed (h : list (Db * Request * Response)) (d : Db) (r : Request) : Prop :=
  exists hello epoch nonce o d', greeted h hello epoch /\ committed nonce r d hello epoch o d' /\
    (o = Committed \/ o = AlreadyActive) /\
    (exists e, live_epoch (Introduction.claimed_root hello) (tbl_imports d) = Some e /\ Z.max e 0 = epoch) /\
    is_Some (tbl_peers d' !! Introduction.claimed_root hello).

Lemma verified_root root t tls material prof now v identity :
  Introduction.verify_introduction root t tls material prof now = Ok v ->
  Introduction.peer_identity_from (Introduction.bindings v) (Introduction.extended_card material) = Ok identity ->
  Lifecycle.fp_value (Lifecycle.agent_card_key identity) = root.
Proof.
  intros Hv Hi. apply Introduction.verify_introduction_Ok in Hv as (_ & _ & (e & k & He & Hr & _) & _).
  unfold Introduction.peer_identity_from in Hi. destruct (Profile.card_value _) as [cv|]; [|done]. cbn [ok_or mbind result_bind] in Hi.
  destruct (Introduction.pinned_bindings _) as [kb|]; [|done]. cbn [mbind result_bind] in Hi. rewrite He in Hi.
  injection Hi as <-. cbn. done.
Qed.

Lemma identity_root material v identity r hello :
  proved r hello material v ->
  Introduction.peer_identity_from (Introduction.bindings v) (Introduction.extended_card material) = Ok identity ->
  Lifecycle.fp_value (Lifecycle.agent_card_key identity) = Introduction.claimed_root hello.
Proof. intros (tls & exp & _ & _ & _ & Hv). by apply (verified_root _ _ _ _ _ _ _ _ Hv). Qed.

Lemma committed_backed nonce r d hello epoch o d' h :
  greeted h hello epoch -> committed nonce r d hello epoch o d' -> o = Committed \/ o = AlreadyActive -> backed h d r.
Proof.
  intros Hg Hc Ho. exists hello, epoch, nonce, o, d'. split; [done|]. split; [done|]. split; [done|].
  destruct Hc as (material & v & identity & Hp & Hi & Hcommit). pose proof (identity_root _ _ _ _ _ Hp Hi) as Hroot.
  pose proof (commit_effect _ _ _ _ _ _ _ _ _ _ Hcommit) as He. cbn [StorePeers.identity] in He. rewrite Hroot in He.
  assert (forall P : Prop, (o = Committed -> P) -> (o = AlreadyActive -> P) -> P) as Hcase by (destruct Ho; auto).
  destruct o; try (by destruct Ho); destruct He as (_ & _ & Hlive & _ & ks & Hdb & _); (split; [exact Hlive|]);
    unfold tbl_peers; rewrite Hdb; cbn; rewrite lookup_alter_eq, lookup_insert_eq; by eexists.
Qed.

Definition session_inv (st : IntroConnState) (h : list (Db * Request * Response)) : Prop :=
  (forall h1 d r resp h2, h = h1 ++ (d, r, resp) :: h2 -> is_ack resp = true -> backed h1 d r) /\
  match st with
  | Fresh => forall d r resp, (d, r, resp) ∈ h -> is_ack resp = false /\ is_material resp = false
  | Pending hello epoch =>
      greeted h hello epoch /\ (forall d r resp, (d, r, resp) ∈ h -> is_ack resp = false) /\
      length (List.filter (fun e => is_material e.2) h) = 1
  | Done => length (List.filter (fun e => is_ack e.2) h) <= 1 /\ length (List.filter (fun e => is_material e.2) h) <= 1
  end.

(** The last entry of a history or an earlier one. *)
Lemma snoc_split {A} (h h1 h2 : list A) x y :
  h ++ [x] = h1 ++ y :: h2 -> (h2 = [] /\ h1 = h /\ y = x) \/ exists h2', h2 = h2' ++ [x] /\ h = h1 ++ y :: h2'.
Proof.
  destruct h2 as [|z h2' _] using rev_ind.
  - intros H. apply app_inj_tail in H as [-> ->]. by left.
  - rewrite app_comm_cons, app_assoc. intros H. apply app_inj_tail in H as [-> ->]. right. by exists h2'.
Qed.

Lemma count_none {A} (f : A -> bool) l : (forall x, x ∈ l -> f x = false) -> List.filter f l = [].
Proof.
  induction l as [|x l IH]; intros H; [done|]. cbn. rewrite (H x) by left. apply IH. intros y Hy. apply H. by right.
Qed.

Lemma refused_quiet resp : resp = refused \/ resp = internal \/ resp = suspended -> is_ack resp = false /\ is_material resp = false.
Proof. by intros [->|[->| ->]]. Qed.

Lemma session_inv_quiet st st' h d r resp :
  session_inv st h -> is_ack resp = false -> is_material resp = false -> st' = st \/ st' = Done ->
  session_inv st' (h ++ [(d, r, resp)]).
Proof.
  intros [Hb Hst] Ha Hm Hs. split.
  - intros h1 d1 r1 resp1 h2 [(_ & -> & [= -> -> ->])|(h2' & _ & ->)]%snoc_split Hack; [congruence|by eapply Hb].
  - rewrite !List.filter_app, !length_app. cbn [List.filter snd]. rewrite Ha, Hm. cbn [length]. rewrite !Nat.add_0_r.
    assert (forall d1 r1 resp1, (d1, r1, resp1) ∈ h ++ [(d, r, resp)] -> (d1, r1, resp1) ∈ h \/ resp1 = resp) as Hin.
    { intros d1 r1 resp1 [?|[= -> -> ->]%list_elem_of_singleton]%elem_of_app; auto. }
    destruct Hs as [-> | ->].
    + destruct st as [|hello epoch|]; [|destruct Hst as ((d0 & r0 & m0 & H0 & H1 & H2) & Hn & Hc); split; [|split; [|done]]|done].
      * intros d1 r1 resp1 [?| ->]%Hin; [by eapply Hst|done].
      * exists d0, r0, m0. split; [apply elem_of_app; by left|done].
      * intros d1 r1 resp1 [?| ->]%Hin; [by eapply Hn|done].
    + destruct st as [|hello epoch|]; [| |done].
      * rewrite !count_none; [cbn; lia|..]; intros [[d1 r1] resp1] Hi; by apply Hst in Hi as [? ?].
      * destruct Hst as (_ & Hn & Hc). rewrite Hc, (count_none (fun e => is_ack e.2)); [cbn; lia|].
        intros [[d1 r1] resp1] Hi. by apply Hn in Hi.
Qed.

Lemma session_ok st h : session st h -> session_inv st h.
Proof.
  induction 1 as [|st h nonce r d resp close st' d' _ IH Hr%respond_told].
  { split; [intros [|? ?] ? ? ? ? ?; done|]. intros d r resp Hin. by apply not_elem_of_nil in Hin. }
  destruct Hr as [st resp st' Hresp Hst|hello epoch m Ha|hello epoch o d1 Hc Ho|hello epoch why d1 Hc].
  - destruct (refused_quiet resp) as [? ?]; [naive_solver|]. by eapply session_inv_quiet.
  - destruct IH as [Hb Hf]. split.
    + intros h1 d2 r2 resp2 h2 [(_ & _ & [= -> -> ->])|(h2' & _ & ->)]%snoc_split Hack; [done|by eapply Hb].
    + split; [|split].
      * exists d, r, (mkResponse 200 INTRODUCTION_MEDIA_TYPE (BMaterial m)). split; [|done]. apply elem_of_app. right. left.
      * intros d2 r2 resp2 [Hin|[= -> -> ->]%list_elem_of_singleton]%elem_of_app; [by apply Hf in Hin as [? _]|done].
      * rewrite List.filter_app, length_app, count_none; [done|]. intros [[d2 r2] resp2] Hi. by apply Hf in Hi as [_ ?].
  - destruct IH as [Hb (Hg & Hn & Hcount)]. split.
    + intros h1 d2 r2 resp2 h2 [(_ & -> & [= -> -> ->])|(h2' & _ & ->)]%snoc_split Hack; [|by eapply Hb].
      by eapply committed_backed.
    + rewrite !List.filter_app, !length_app, Hcount, count_none; [cbn; lia|].
      intros [[d2 r2] resp2] Hi. by apply Hn in Hi.
  - destruct (refused_quiet suspended) as [? ?]; [auto|]. eapply session_inv_quiet; eauto.
Qed.

(** C26. On one connection, whatever is sent and however the store changes
    underneath, identity material is disclosed at most once and at most one introduction is
    acknowledged; every acknowledgement follows an admitted hello, a proof of the claimed root
    over this session's certificate and exporter, and a commit at the epoch admission saw,
    which leaves a peer pinned under the claimed root. *)
Theorem one_introduction st h :
  session st h ->
  length (List.filter (fun e => is_ack e.2) h) <= 1 /\ length (List.filter (fun e => is_material e.2) h) <= 1 /\
  (forall h1 d r resp h2, h = h1 ++ (d, r, resp) :: h2 -> is_ack resp = true -> backed h1 d r).
Proof.
  intros [Hb Hst]%session_ok. split; [|split; [|exact Hb]].
  - destruct st as [|hello epoch|]; [| |apply Hst]; rewrite count_none; try (cbn; lia); intros [[d r] resp] Hi.
    + by apply Hst in Hi as [? _].
    + destruct Hst as (_ & Hn & _). by apply Hn in Hi.
  - destruct st as [|hello epoch|]; [|destruct Hst as (_ & _ & ->); done|apply Hst].
    rewrite count_none; [cbn; lia|]. intros [[d r] resp] Hi. by apply Hst in Hi as [_ ?].
Qed.

(** A caller learns nothing from a refusal: a response that is not the one
    fixed refusal (or an internal error) means that the hello named this endpoint and an
    imported root, or that the proof of the claimed root verified. *)
Theorem refusals_alike nonce r slot d resp close slot' d' :
  respond_introduction nonce r slot d = (resp, close, slot', d') ->
  resp = refused \/ resp = internal \/
  (exists hello epoch, slot = Fresh /\ admitted r d hello epoch) \/
  (exists hello epoch material v, slot = Pending hello epoch /\ proved r hello material v).
Proof.
  intros [st resp' st' [->| ->] _|hello epoch m Ha|hello epoch o d1 (m & v & i & Hp & _) _|hello epoch why d1 (m & v & i & Hp & _)]%respond_told.
  - by left.
  - by right; left.
  - right. right. left. by exists hello, epoch.
  - do 3 right. by exists hello, epoch, m, v.
  - do 3 right. by exists hello, epoch, m, v.
Qed.
End responder.

(** ** Witnesses *)

#[local] Instance Hello_wire : Wire Hello.
Proof.
  refine (wire_inj (fun h => (Introduction.h_protocol_version h, Introduction.h_token_version h, Introduction.target_root h,
                              Introduction.claimed_root h, Introduction.h_nonce h))
            (fun '(a, b, c, d, e) => Introduction.mkHello a b c d e) _). by intros [].
Defined.

#[local] Instance Map_wire {A} `{!Wire A} : Wire (gmap string A) := wire_inj map_to_list list_to_map (list_to_map_to_list).

#[local] Instance Interface_wire : Wire Profile.AgentInterface.
Proof.
  refine (wire_inj (fun i => (Profile.url i, Profile.protocol_binding i, Profile.protocol_version i))
            (fun '(a, b, c) => Profile.mkInterface a b c) _). by intros [].
Defined.

#[local] Instance Extension_wire : Wire Profile.AgentExtension.
Proof. refine (wire_inj (fun e => (Profile.uri e, Profile.required e)) (fun '(a, b) => Profile.mkExtension a b) _). by intros []. Defined.

#[local] Instance Capabilities_wire : Wire Profile.AgentCapabilities.
Proof.
  refine (wire_inj (fun c => (Profile.streaming c, Profile.push_notifications c, Profile.extended_agent_card c, Profile.cap_extensions c))
            (fun '(a, b, c, d) => Profile.mkCapabilities a b c d) _). by intros [].
Defined.

#[local] Instance Scheme_wire : Wire Profile.SecurityScheme.
Proof.
  refine (wire_inj (fun s => match s with Profile.MtlsSecurityScheme => Some true | Profile.OtherScheme => Some false | Profile.NoScheme => None end)
            (fun o => match o with Some true => Profile.MtlsSecurityScheme | Some false => Profile.OtherScheme | None => Profile.NoScheme end) _).
  by intros [].
Defined.

#[local] Instance CardSig_wire : Wire Profile.AgentCardSignature.
Proof.
  refine (wire_inj (fun s => (Profile.cs_protected s, Profile.cs_signature s)) (fun '(a, b) => Profile.mkCardSig a b) _). by intros [].
Defined.

#[local] Instance Card_wire : Wire Profile.AgentCard.
Proof.
  refine (wire_inj (fun c => (Profile.supported_interfaces c, Profile.capabilities c, Profile.security_schemes c,
                              Profile.security_requirements c, Profile.signatures c, Profile.rest c))
            (fun '(a, b, c, d, e, f) => Profile.mkAgentCard a b c d e f) _). by intros [].
Defined.

#[local] Instance Material_wire : Wire IntroMaterial.
Proof.
  refine (wire_inj (fun m => (Introduction.key_binding m, Introduction.extended_card m, Introduction.proofs m))
            (fun '(a, b, c) => Introduction.mkMaterial a b c) _). by intros [].
Defined.

#[local] Instance Entry_wire : Wire Introduction.KeyEntry.
Proof.
  refine (wire_inj (fun e => (kty (Introduction.e_jwk e), crv (Introduction.e_jwk e), x (Introduction.e_jwk e),
                              Introduction.e_thumbprint e, Introduction.e_generation e, Introduction.e_not_before e,
                              Introduction.e_not_after e))
            (fun '(a, b, c, d, e, f, g) => Introduction.mkEntry (mkJwk a b c) d e f g) _). by intros [[]].
Defined.

#[local] Instance Set_wire : Wire Introduction.KeyBindingSet.
Proof.
  refine (wire_inj (fun s => (Introduction.kb_schema_version s, Introduction.s_issuer (Introduction.subject s),
                              Introduction.s_agent (Introduction.subject s), Introduction.tls_certificate_sha256 s,
                              Introduction.keys s))
            (fun '(a, b, c, d, e) => Introduction.mkSet a (Introduction.mkSubject b c) d e) _). by intros [? []].
Defined.

#[local] Existing Instances ToyHashes ToyHex ToyAead ToyEd25519 ToyBase64Url ToyJwkText ToySchemas.
#[local] Existing Instances Introduction.sample_canon Introduction.sample_card_json Introduction.sample_header.
#[local] Instance sample_peer_codec : Codec StoredPeer := ToyCodec StoredPeer.
#[local] Instance sample_hello_codec : Codec Hello := ToyCodec Hello.
#[local] Instance sample_material_codec : Codec IntroMaterial := ToyCodec IntroMaterial.
#[local] Instance sample_instants : Introduction.Instants := {|
  Introduction.parse_instant := fun s =>
    if decide (s = NOT_BEFORE) then Some 1577836800000000000%Z else Some 2051222400000000000%Z |}.

(** The dialer's root and the session it opens to [bob]. *)
Definition dialer_root : string := thumbprint (public_key (signing Introduction.sample_root)).
Definition sample_hello : Hello := Introduction.mkHello 1 1 "bob-root" dialer_root "n1".
Definition sample_transcript : IntroTranscript :=
  transcript Dialer dialer_root "bob-root" "dialer-cert" "bob-cert" (as_bytes "exporter") "n1".

(** A set as a text; any other value reads as the honest dialer's set. *)
#[local] Instance sample_sets : Proposal.ToValue Introduction.KeyBindingSet.
Proof.
  refine {| Proposal.to_value := fun s => JStr (from_utf8 (put s));
            Proposal.of_value := {| Proposal.from_value := fun v =>
              match v with
              | JStr s => fst <$> get (as_bytes s)
              | _ => Some (Introduction.honest_set sample_transcript "iss" "alice" Introduction.sample_keys NOT_BEFORE NOT_AFTER 0)
              end |} |}.
  intros s. cbn [Proposal.from_value]. rewrite as_bytes_from_utf8, <- (app_nil_r (put s)), get_put. done.
Defined.

Definition sample_material : IntroMaterial :=
  match Introduction.build_intro_material sample_transcript "iss" "alice" Introduction.sample_card Introduction.sample_keys
          NOT_BEFORE NOT_AFTER 0 with
  | Ok m => m | Err _ => Introduction.mkMaterial JNull Introduction.sample_card ∅ end.

Definition sample_me : IntroIdentity :=
  mkIntroIdentity [(Lifecycle.AgentCard, from_seed Lifecycle.AgentCard (as_bytes "bob"))] Introduction.sample_card "bob-cert"
    "bob-root" "iss" "bob" Introduction.sample_profile.

Definition sample_request (p : string) (b : bytes) : Request :=
  mkReq p "POST" INTRODUCTION_MEDIA_TYPE "203.0.113.7" (Some "dialer-cert") (Some (as_bytes "exporter")) b 1700000000.

Definition sample_db : Db := after (add_peer_import dialer_root "alice" "host:1" 10) empty_db.

Definition first_flight : Outcome :=
  respond_introduction sample_me sample_store sample_nonce (sample_request HELLO_PATH (encode sample_hello)) Fresh sample_db.
Definition third_flight : Outcome :=
  respond_introduction sample_me sample_store sample_nonce (sample_request COMPLETE_PATH (encode sample_material))
    (first_flight.1.2) sample_db.

Lemma first_flight_material : is_material first_flight.1.1.1 = true /\ first_flight.1.2 = Pending sample_hello 1.
Proof. split; vm_compute; reflexivity. Qed.

Lemma third_flight_ack : is_ack third_flight.1.1.1 = true /\ third_flight.1.2 = Done.
Proof. split; vm_compute; reflexivity. Qed.

Definition sample_history : list (Db * Request * Response) :=
  [(sample_db, sample_request HELLO_PATH (encode sample_hello), first_flight.1.1.1);
   (sample_db, sample_request COMPLETE_PATH (encode sample_material), third_flight.1.1.1)].

(** A session grows by the outcome of a request. *)
Lemma session_outcome me store st h nonce r d (o : Outcome) :
  session me store st h -> respond_introduction me store nonce r st d = o -> session me store o.1.2 (h ++ [(d, r, o.1.1.1)]).
Proof. intros Hs Ho. destruct o as [[[resp close] st'] d']. by eapply session_request. Qed.

Lemma sample_session : session sample_me sample_store third_flight.1.2 sample_history.
Proof.
  exact (session_outcome sample_me sample_store first_flight.1.2
    [(sample_db, sample_request HELLO_PATH (encode sample_hello), first_flight.1.1.1)] sample_nonce
    (sample_request COMPLETE_PATH (encode sample_material)) sample_db third_flight
    (session_outcome sample_me sample_store Fresh [] sample_nonce (sample_request HELLO_PATH (encode sample_hello)) sample_db
       first_flight (session_open sample_me sample_store) eq_refl) eq_refl).
Qed.

(** An honest dialer's session ends in an acknowledgement that is backed. *)
Lemma one_introduction_witness :
  backed sample_me sample_store
    [(sample_db, sample_request HELLO_PATH (encode sample_hello), first_flight.1.1.1)]
    sample_db (sample_request COMPLETE_PATH (encode sample_material)).
Proof.
  destruct (one_introduction _ _ _ _ sample_session) as (_ & _ & H).
  exact (H [_] _ _ _ [] eq_refl (proj1 third_flight_ack)).
Defined.

Lemma first_flight_eq :
  respond_introduction sample_me sample_store sample_nonce (sample_request HELLO_PATH (encode sample_hello)) Fresh sample_db
  = (first_flight.1.1.1, first_flight.1.1.2, first_flight.1.2, first_flight.2).
Proof. fold first_flight. by destruct first_flight as [[[? ?] ?] ?]. Qed.

Lemma refusals_alike_witness :
  first_flight.1.1.1 = refused \/ first_flight.1.1.1 = internal \/
  (exists hello epoch, Fresh = Fresh /\ admitted sample_me (sample_request HELLO_PATH (encode sample_hello)) sample_db hello epoch) \/
  (exists hello epoch material v, Fresh = Pending hello epoch /\
    proved sample_me (sample_request HELLO_PATH (encode sample_hello)) hello material v).
Proof. exact (refusals_alike _ _ _ _ _ _ _ _ _ _ first_flight_eq). Defined.
End Introduce.
