(* ===== verification/StoreInbox.v ===== *)
(** The delivery inbox (akson-store/src/lib.rs [receive_request], [peek],
    [demote_to_tombstone], [prior_response], [decide]): at-most-once effects for
    each (peer, Message id), through live records and replay tombstones. *)
From S2P Require Import Prelude Crypto Envelope AuditLog Delivery Db.
Import Delivery.

Module StoreInbox.

Definition INBOX_BODY_CONTEXT : string := "inbox.body".
Definition INBOX_RESPONSE_CONTEXT : string := "inbox.response".

Inductive Receipt :=
| Fresh
| Duplicate (task_id : option string) (response : bytes) (response_class : string)
| Conflict.

Record PriorSighting := mkPrior {
  ps_commitment : bytes;
  ps_task_id : option string;
  ps_response : bytes;
  ps_response_class : string;
}.

Definition tbl_inbox (d : Db) := inbox_objects (inbox_db d).
Definition tbl_tombs (d : Db) := replay_tombstones (inbox_db d).
Definition on_inbox f := upd_inbox_db (upd_inbox_objects f).
Definition on_tombs f := upd_inbox_db (upd_replay_tombstones f).

Definition inbox_sighting (r : InboxRow) : PriorSighting :=
  mkPrior (ib_commitment r) (ib_task_id r) (ib_response r) (ib_response_class r).

Definition tomb_sighting (r : TombstoneRow) : PriorSighting :=
  mkPrior (tb_commitment r) (tb_task_id r) (tb_response r) (tb_response_class r).

(** The live record first, then the tombstone. *)
Definition prior_response (peer message_id : string) : M (option PriorSighting) :=
  row ← gets (fun d => inbox_sighting <$> tbl_inbox d !! (peer, message_id));
  match row with
  | Some p => mret (Some p)
  | None => gets (fun d => tomb_sighting <$> tbl_tombs d !! (peer, message_id))
  end.

Section inbox.
Context {HS : Hashes} {AE : Aead} {CC : Codec CoveredValues}.

(** A stored response that will not unseal is a conflict, never a replay. *)
Definition decide_prior (s : Store) (commitment : bytes) (prior : PriorSighting) : Receipt :=
  if decide (ps_commitment prior <> commitment) then Conflict
  else
    match Envelope.open_with (dek s) INBOX_RESPONSE_CONTEXT (ps_response prior) with
    | Ok response => Duplicate (ps_task_id prior) response (ps_response_class prior)
    | Err _ => Conflict
    end.

(** [nonce1] and [nonce2] are the fresh nonces of the two seals. *)
Definition receive_request (s : Store) (nonce1 nonce2 : bytes) (covered : CoveredValues)
  (body response : bytes) (task_id : option string) (response_class : string) (now : Z) :
  M Receipt :=
  let c := commitment covered (commitment_key s) in
  prior ← prior_response (peer covered) (message_id covered);
  match prior with
  | Some p => mret (decide_prior s c p)
  | None =>
      let sealed_body := seal s INBOX_BODY_CONTEXT nonce1 body in
      let sealed_response := seal s INBOX_RESPONSE_CONTEXT nonce2 response in
      m ← gets tbl_inbox;
      m' ← lift (insert_new (peer covered, message_id covered)
             (mkInboxRow c (cv_body_digest covered) task_id response_class sealed_body
                         sealed_response now) m);
      _ ← modify (on_inbox (fun _ => m'));
      mret Fresh
  end.

Definition peek (s : Store) (covered : CoveredValues) : M Receipt :=
  let c := commitment covered (commitment_key s) in
  prior ← prior_response (peer covered) (message_id covered);
  mret (match prior with Some p => decide_prior s c p | None => Fresh end).

Definition demote_to_tombstone (peer message_id : string) (expires_at : Z) : M bool :=
  o ← gets (fun d => tbl_inbox d !! (peer, message_id));
  moved ← match o with
          | Some r =>
              m ← gets tbl_tombs;
              m' ← lift (insert_new (peer, message_id)
                     (mkTombstoneRow (ib_commitment r) (ib_task_id r) (ib_response_class r)
                                     (ib_response r) expires_at) m);
              _ ← modify (on_tombs (fun _ => m'));
              mret 1
          | None => mret 0
          end;
  _ ← modify (on_inbox (delete (peer, message_id)));
  mret (bool_decide (0 < moved)).

(** ** What is known about a message *)

(** The sighting of a message, wherever it is kept. *)
Definition sighting (d : Db) (k : string * string) : option PriorSighting :=
  match tbl_inbox d !! k with
  | Some r => Some (inbox_sighting r)
  | None => tomb_sighting <$> tbl_tombs d !! k
  end.

Lemma prior_response_run p m d : prior_response p m d = Ok (sighting d (p, m), d).
Proof.
  unfold prior_response, sighting. rewrite bind_gets. by destruct (tbl_inbox d !! (p, m)).
Qed.

Lemma peek_run s c d :
  peek s c d =
  Ok (match sighting d (peer c, message_id c) with
      | Some p => decide_prior s (commitment c (commitment_key s)) p
      | None => Fresh
      end, d).
Proof. unfold peek. by rewrite (bind_run _ _ _ _ _ (prior_response_run _ _ _)). Qed.

(** The row a first sighting stores. *)
Definition stored_row (s : Store) (n1 n2 : bytes) (c : CoveredValues) (body response : bytes)
  (task : option string) (class : string) (now : Z) : InboxRow :=
  mkInboxRow (commitment c (commitment_key s)) (cv_body_digest c) task class
    (seal s INBOX_BODY_CONTEXT n1 body) (seal s INBOX_RESPONSE_CONTEXT n2 response) now.

Lemma receive_run s n1 n2 c body response task class now d :
  receive_request s n1 n2 c body response task class now d =
  match sighting d (peer c, message_id c) with
  | Some p => Ok (decide_prior s (commitment c (commitment_key s)) p, d)
  | None => Ok (Fresh, on_inbox (insert (peer c, message_id c)
                         (stored_row s n1 n2 c body response task class now)) d)
  end.
Proof.
  unfold receive_request. rewrite (bind_run _ _ _ _ _ (prior_response_run _ _ _)).
  destruct (sighting d _) eqn:E; [done|]. rewrite bind_gets. unfold insert_new.
  unfold sighting in E. destruct (tbl_inbox d !! _) eqn:Ei; [done|]. done.
Qed.

Lemma sighting_receive d k r j :
  sighting (on_inbox (insert k r) d) j =
  if decide (j = k) then Some (inbox_sighting r) else sighting d j.
Proof.
  unfold sighting. change (tbl_inbox (on_inbox ?f d)) with (f (tbl_inbox d)).
  change (tbl_tombs (on_inbox ?f d)) with (tbl_tombs d).
  case_decide as Hj; [subst; by rewrite lookup_insert_eq|by rewrite lookup_insert_ne].
Qed.

Lemma demote_effect p m e d b d' :
  demote_to_tombstone p m e d = Ok (b, d') ->
  (b = false /\ tbl_inbox d !! (p, m) = None /\ tbl_inbox d' = tbl_inbox d /\
   tbl_tombs d' = tbl_tombs d) \/
  (b = true /\ exists r, tbl_inbox d !! (p, m) = Some r /\ tbl_tombs d !! (p, m) = None /\
   tbl_inbox d' = delete (p, m) (tbl_inbox d) /\
   tbl_tombs d' = <[(p, m) := mkTombstoneRow (ib_commitment r) (ib_task_id r)
                                (ib_response_class r) (ib_response r) e]> (tbl_tombs d)).
Proof.
  unfold demote_to_tombstone. rewrite bind_gets. destruct (tbl_inbox d !! (p, m)) as [r|] eqn:Er.
  - intros (n & d1 & H1 & H2)%bind_Ok. rewrite bind_gets in H1. unfold insert_new in H1.
    destruct (tbl_tombs d !! (p, m)) eqn:Et; [done|]. unfold_M. simplify_eq/=.
    right. split; [done|]. by exists r.
  - unfold_M. intros [= <- <-]. left. split_and!; [done|done| |done].
    change (tbl_inbox (on_inbox ?f d)) with (f (tbl_inbox d)). by rewrite delete_id.
Qed.

(** Demotion hides nothing: every message is still known as it was. *)
Lemma sighting_demote p m e d b d' j :
  demote_to_tombstone p m e d = Ok (b, d') -> sighting d' j = sighting d j.
Proof.
  intros H. apply demote_effect in H as [(_ & _ & Hi & Ht)|(_ & r & Hr & Hn & Hi & Ht)];
    unfold sighting; rewrite Hi, Ht; [done|].
  destruct (decide (j = (p, m))) as [->|Hne].
  - by rewrite lookup_delete_eq, lookup_insert_eq, Hr.
  - by rewrite lookup_delete_ne, lookup_insert_ne.
Qed.

(** ** Histories of the inbox *)

Inductive inbox_step (s : Store) : Db -> Db -> Prop :=
| is_receive n1 n2 c body response task class now out d d' :
    receive_request s n1 n2 c body response task class now d = Ok (out, d') -> inbox_step s d d'
| is_demote p m e b d d' :
    demote_to_tombstone p m e d = Ok (b, d') -> inbox_step s d d'.

(** A message once seen is remembered as it was first seen. *)
Lemma sighting_step s d d' k p : inbox_step s d d' -> sighting d k = Some p -> sighting d' k = Some p.
Proof.
  intros [? ? ? ? ? ? ? ? ? ? ? H|? ? ? ? ? ? H] Hk; [|by rewrite (sighting_demote _ _ _ _ _ _ _ H)].
  rewrite receive_run in H. destruct (sighting d0 _) eqn:E; simplify_eq; [done|].
  rewrite sighting_receive. case_decide; congruence.
Qed.

Lemma sighting_steps s d d' k p :
  rtc (inbox_step s) d d' -> sighting d k = Some p -> sighting d' k = Some p.
Proof. induction 1; [done|]. intros. eauto using sighting_step. Qed.

Lemma decide_stored s n1 n2 c body response task class now c' :
  length n2 = Envelope.NONCE_LEN -> (Z.of_nat (length response) <= aead_limit)%Z ->
  decide_prior s (commitment c' (commitment_key s))
    (inbox_sighting (stored_row s n1 n2 c body response task class now)) =
  if decide (commitment c (commitment_key s) <> commitment c' (commitment_key s)) then Conflict
  else Duplicate task response class.
Proof.
  intros Hn Hl. unfold decide_prior.
  cbn [ps_commitment ps_response ps_task_id ps_response_class inbox_sighting stored_row
    ib_commitment ib_response ib_task_id ib_response_class].
  case_decide; [done|]. unfold seal. by rewrite Envelope.open_seal.
Qed.

(** C31. At-most-once delivery. Once a message was accepted as fresh, then after any
    later deliveries and demotions, by whatever peers, a second delivery of the
    same (peer, Message id) changes nothing: with the same covered values it is
    answered with the response, the class and the Task id of the first one, and
    with any covered value changed it is a conflict, unless the change is an HMAC
    collision under the store's commitment key.  [peek] gives the same verdict. *)
Theorem receive_at_most_once s n1 n2 c body response task class now d d1 d2 n1' n2' c' body'
  response' task' class' now' :
  length n2 = Envelope.NONCE_LEN -> (Z.of_nat (length response) <= aead_limit)%Z ->
  receive_request s n1 n2 c body response task class now d = Ok (Fresh, d1) ->
  rtc (inbox_step s) d1 d2 ->
  peer c' = peer c -> message_id c' = message_id c ->
  exists out,
    receive_request s n1' n2' c' body' response' task' class' now' d2 = Ok (out, d2) /\
    peek s c' d2 = Ok (out, d2) /\
    (c' = c -> out = Duplicate task response class) /\
    (c' <> c -> out = Conflict \/ hmac_collision (commitment_key s)).
Proof.
  intros Hn Hl Hr Hs Hp Hm.
  assert (sighting d1 (peer c, message_id c) =
    Some (inbox_sighting (stored_row s n1 n2 c body response task class now))) as Hk.
  { rewrite receive_run in Hr. destruct (sighting d _) as [p|].
    - exfalso. unfold decide_prior in Hr. case_all.
    - simplify_eq. rewrite sighting_receive. by rewrite decide_True. }
  apply (sighting_steps _ _ _ _ _ Hs) in Hk.
  rewrite receive_run, peek_run, Hp, Hm, Hk, decide_stored by done.
  eexists. split_and!; [done|done| |].
  - intros ->. by rewrite decide_False by (by intros []).
  - intros Hne. case_decide as Hc; [by left|right].
    apply commitment_binds in Hc as [?|?]; [congruence|done].
Qed.

(** ** Retention *)

(** A message is kept in one place: as a live record or as a tombstone. *)
Definition inbox_inv (d : Db) : Prop :=
  forall k, is_Some (tbl_inbox d !! k) -> tbl_tombs d !! k = None.

Lemma inbox_inv_step s d d' : inbox_step s d d' -> inbox_inv d -> inbox_inv d'.
Proof.
  intros [? ? ? ? ? ? ? ? ? ? ? H|? ? ? ? ? ? H] Hinv k.
  - rewrite receive_run in H. destruct (sighting d0 _) eqn:E; simplify_eq; [apply Hinv|].
    change (tbl_inbox (on_inbox ?f d0)) with (f (tbl_inbox d0)).
    change (tbl_tombs (on_inbox ?f d0)) with (tbl_tombs d0).
    destruct (decide (k = (peer c, message_id c))) as [->|Hne].
    + intros _. unfold sighting in E. destruct (tbl_inbox d0 !! _); [done|].
      by apply fmap_None in E.
    + rewrite lookup_insert_ne by done. apply Hinv.
  - apply demote_effect in H as [(_ & _ & -> & ->)|(_ & r & Hr & Hn & -> & ->)]; [apply Hinv|].
    destruct (decide (k = (p, m))) as [->|Hne].
    + rewrite lookup_delete_eq. by intros [].
    + rewrite lookup_delete_ne, lookup_insert_ne by done. apply Hinv.
Qed.

Lemma inbox_inv_steps s d d' : rtc (inbox_step s) d d' -> inbox_inv d -> inbox_inv d'.
Proof. induction 1; [done|]. intros. eauto using inbox_inv_step. Qed.

(** Ageing out a record works and forgets the body only. On any reachable inbox
    the demotion succeeds, reports whether there was a live record, leaves none,
    and every message, this one included, gets the same verdict as before. *)
Theorem demotion_keeps_verdicts s d p m e :
  rtc (inbox_step s) empty_db d ->
  exists b d', demote_to_tombstone p m e d = Ok (b, d') /\
    (b = true <-> is_Some (tbl_inbox d !! (p, m))) /\
    tbl_inbox d' !! (p, m) = None /\
    forall c out, peek s c d = Ok (out, d) <-> peek s c d' = Ok (out, d').
Proof.
  intros Hs. apply inbox_inv_steps in Hs; [|by intros k _].
  assert (exists b d', demote_to_tombstone p m e d = Ok (b, d')) as (b & d' & Hd).
  { unfold demote_to_tombstone. rewrite bind_gets. destruct (tbl_inbox d !! (p, m)) eqn:E.
    - unfold insert_new. unfold_M. simpl. rewrite Hs by (by rewrite E). by eexists _, _.
    - by eexists _, _. }
  exists b, d'. split; [done|]. split_and!.
  - apply demote_effect in Hd as [(-> & -> & _)|(-> & r & -> & _)]; [|done].
    split; [done|by intros []].
  - apply demote_effect in Hd as [(-> & Hn & -> & _)|(-> & r & Hr & Hn & -> & _)]; [done|].
    apply lookup_delete_eq.
  - intros c out. rewrite !peek_run, (sighting_demote _ _ _ _ _ _ _ Hd). naive_solver.
Qed.
End inbox.

(** ** Witnesses *)

#[global] Instance CoveredValues_wire : Wire CoveredValues.
Proof.
  refine (wire_inj (fun c => (peer c, message_id c, cv_body_digest c, interface_url c, tenant c,
      a2a_version c, extensions c, content_type c, http_method c))
    (fun '(a, b, c, d, e, f, g, h, i) => mkCovered a b c d e f g h i) _).
  by intros [].
Defined.

Section sample.
#[local] Existing Instances ToyHashes ToyAead.
#[local] Instance sample_codec : Codec CoveredValues := ToyCodec CoveredValues.

Definition sample_store : Store := mkStore (repeat "d"%char 32) (repeat "c"%char 32) Normal.

Definition sample_covered (digest : string) : CoveredValues :=
  mkCovered "p" "m" digest "u" None "1" [] "j" "POST".

Definition d_received : Db :=
  (exec (receive_request sample_store (repeat "a"%char 24) (repeat "b"%char 24) (sample_covered "x")
     (as_bytes "body") (as_bytes "yes") (Some "t1") "task" 5) empty_db).2.

Definition d_aged : Db := (exec (demote_to_tombstone "p" "m" 99) d_received).2.

Example receive_at_most_once_witness :
  receive_request sample_store [] [] (sample_covered "x") [] [] None "" 6 d_aged =
    Ok (Duplicate (Some "t1") (as_bytes "yes") "task", d_aged).
Proof.
  destruct (receive_at_most_once sample_store (repeat "a"%char 24) (repeat "b"%char 24)
    (sample_covered "x") (as_bytes "body") (as_bytes "yes") (Some "t1") "task" 5 empty_db d_received
    d_aged [] [] (sample_covered "x") [] [] None "" 6) as (out & Hr & _ & Heq & _).
  - reflexivity.
  - vm_compute. discriminate.
  - vm_compute. reflexivity.
  - apply rtc_once, (is_demote _ "p" "m" 99 true). vm_compute. reflexivity.
  - reflexivity.
  - reflexivity.
  - rewrite Hr. by rewrite Heq.
Defined.

Example demotion_keeps_verdicts_witness :
  exists b d', demote_to_tombstone "p" "m" 99 d_received = Ok (b, d') /\ tbl_inbox d' !! ("p", "m") = None.
Proof.
  destruct (demotion_keeps_verdicts sample_store d_received "p" "m" 99) as (b & d' & Hd & _ & Hn & _).
  - apply rtc_once, (is_receive _ (repeat "a"%char 24) (repeat "b"%char 24) (sample_covered "x")
      (as_bytes "body") (as_bytes "yes") (Some "t1") "task" 5 Fresh). vm_compute. reflexivity.
  - by exists b, d'.
Defined.
End sample.
End StoreInbox.
