(* ===== verification/StoreContracts.v ===== *)
(** The contract chain in the store (akson-store/src/lib.rs [contract_head],
    [submit_revision], [accept_contract], [get_contract],
    [purge_expired_contracts], the task listings and the reactor's marks).

    Each Task has one head row; the pure compare-and-swap of [Contract] decides
    and the store applies the verdict in the same transaction.  The refinement
    theorem says that a store history is, for every Task, a history of the pure
    head. *)
From S2P Require Import Prelude Crypto Envelope AuditLog Contract Db.
Import Contract.

Module StoreContracts.

Definition CONTRACT_PAYLOAD_CONTEXT : string := "contract.payload".

Record TaskHead := mkTaskHead {
  th_task_id : string;
  th_contract_id : string;
  th_revision : Z;
  th_contract_digest : string;
}.

Definition tbl_heads (d : Db) := contract_heads (contracts_db d).
Definition tbl_contracts (d : Db) := contracts (contracts_db d).
Definition tbl_reactions (d : Db) := task_reactions (contracts_db d).
Definition on_heads f := upd_contracts_db (upd_contract_heads f).
Definition on_contracts f := upd_contracts_db (upd_contracts f).
Definition on_reactions f := upd_contracts_db (upd_task_reactions f).

(** The head a row stands for. *)
Definition head_from_row (o : option HeadRow) : result StoreError HeadState :=
  match o with
  | None => Ok Empty
  | Some r =>
      rev ← get_unsigned (hd_revision r);
      let head := mkHead rev (hd_digest r) in
      if decide (hd_status r = "open") then Ok (Open head)
      else if decide (hd_status r = "locked") then Ok (Locked head)
      else Err (Corrupt "unknown head status")
  end.

Definition contract_head (task_id : string) : M HeadState :=
  o ← gets (fun d => tbl_heads d !! task_id);
  lift (head_from_row o).

Definition set_context (ctx : string) (r : HeadRow) : HeadRow :=
  mkHeadRow (hd_contract_id r) (hd_revision r) (hd_digest r) (hd_status r) ctx (hd_origin_root r).

Definition set_task_context (task_id context_id : string) : M () :=
  modify (on_heads (alter (set_context context_id) task_id)).

Definition task_context (task_id : string) : M (option string) :=
  gets (fun d => match hd_context_id <$> tbl_heads d !! task_id with
                 | Some c => if decide (c = "") then None else Some c
                 | None => None
                 end).

Definition origin_root (task_id : string) : M (option string) :=
  gets (fun d => hd_origin_root <$> tbl_heads d !! task_id).

(** One row of a listing; a negative revision does not fit the [u64] field. *)
Definition task_head_row (kv : string * HeadRow) : result StoreError TaskHead :=
  rev ← get_unsigned (hd_revision kv.2);
  Ok (mkTaskHead kv.1 (hd_contract_id kv.2) rev (hd_digest kv.2)).

(** [collect::<Result<Vec<_>, _>>]: the first error wins. *)
Fixpoint collect {E A B} (f : A -> result E B) (l : list A) : result E (list B) :=
  match l with
  | [] => Ok []
  | a :: l => b ← f a; bs ← collect f l; Ok (b :: bs)
  end.

Definition is_open (_ : string) (r : HeadRow) : bool := bool_decide (hd_status r = "open").

Definition list_submitted_tasks : M (list TaskHead) :=
  rows ← gets (fun d => sorted_rows is_open (tbl_heads d));
  lift (collect task_head_row rows).

Definition tasks_awaiting_reaction : M (list TaskHead) :=
  rows ← gets (fun d => sorted_rows (fun t r => is_open t r && bool_decide (tbl_reactions d !! t = None))
                                    (tbl_heads d));
  lift (collect task_head_row rows).

Definition mark_task_reacted (task_id : string) (now : Z) : M () :=
  modify (on_reactions (fun m => (insert_or_ignore task_id now m).1)).

Definition set_locked (r : HeadRow) : HeadRow :=
  mkHeadRow (hd_contract_id r) (hd_revision r) (hd_digest r) "locked" (hd_context_id r)
            (hd_origin_root r).

(** The upsert of an advancing revision: the origin root and the context of an
    existing head are kept. *)
Definition advanced_row (proposal : ParsedContract) (new_head : Head) (origin : string)
  (old : option HeadRow) : HeadRow :=
  match old with
  | Some r => mkHeadRow (contract_id (contract proposal)) (as_i64 (h_revision new_head))
                        (h_digest new_head) "open" (hd_context_id r) (hd_origin_root r)
  | None => mkHeadRow (contract_id (contract proposal)) (as_i64 (h_revision new_head))
                      (h_digest new_head) "open" "" origin
  end.

Section contracts.
Context {HS : Hashes} {AE : Aead}.

Definition submit_revision (s : Store) (nonce : bytes) (task_id : string)
  (proposal : ParsedContract) (origin : string) (expires_at_unix now : Z) : M RevisionVerdict :=
  head ← contract_head task_id;
  let verdict := apply_revision head proposal in
  match verdict with
  | Advance new_head =>
      _ ← modify (on_heads (fun m =>
            <[task_id := advanced_row proposal new_head origin (m !! task_id)]> m));
      let sealed := seal s CONTRACT_PAYLOAD_CONTEXT nonce (payload proposal) in
      _ ← modify (on_contracts (fun m => (insert_or_ignore (digest proposal)
            (mkContractRow task_id (contract_id (contract proposal)) (as_i64 (h_revision new_head))
                           sealed expires_at_unix) m).1));
      _ ← audit now "contract.submitted" (digest proposal);
      mret verdict
  | Stale _ => mret verdict
  end.

(** The rows the locking [UPDATE] matches. *)
Definition lockable (task_id accepted_digest : string) (t : string) (r : HeadRow) : bool :=
  bool_decide (t = task_id /\ hd_digest r = accepted_digest /\ hd_status r = "open").

Definition accept_contract (task_id accepted_digest : string) (now : Z) :
  M (result LockError ()) :=
  head ← contract_head task_id;
  match accept_head head accepted_digest with
  | Ok _ =>
      changed ← gets (fun d => count_where (lockable task_id accepted_digest) (tbl_heads d));
      _ ← modify (on_heads (update_where (lockable task_id accepted_digest) set_locked));
      if decide (changed <> 1) then fail (Corrupt "contract head moved under accept")
      else
        _ ← audit now "contract.accepted" accepted_digest;
        mret (Ok ())
  | Err e => mret (Err e)
  end.

Definition get_contract (s : Store) (digest : string) : M (option bytes) :=
  o ← gets (fun d => ct_payload <$> tbl_contracts d !! digest);
  match o with
  | Some sealed => p ← lift (open_col s CONTRACT_PAYLOAD_CONTEXT sealed); mret (Some p)
  | None => mret None
  end.

Definition purge_expired_contracts (now : Z) : M () :=
  modify (on_contracts (delete_where (fun _ r => (ct_expires_at r <=? now)%Z))).

(** ** Histories *)

Inductive event :=
| EvSubmit (nonce : bytes) (task_id : string) (p : ParsedContract) (origin : string) (expires now : Z)
| EvAccept (task_id accepted : string) (now : Z)
| EvContext (task_id ctx : string)
| EvReact (task_id : string) (now : Z)
| EvPurge (now : Z).

Definition run_event (s : Store) (d : Db) (e : event) : Db :=
  match e with
  | EvSubmit nonce t p origin expires now => (exec (submit_revision s nonce t p origin expires now) d).2
  | EvAccept t a now => (exec (accept_contract t a now) d).2
  | EvContext t ctx => (exec (set_task_context t ctx) d).2
  | EvReact t now => (exec (mark_task_reacted t now) d).2
  | EvPurge now => (exec (purge_expired_contracts now) d).2
  end.

Definition run_events (s : Store) : Db -> list event -> Db := foldl (run_event s).

(** What the pure head of one Task sees of a history. *)
Definition head_events (t : string) (evs : list event) : list head_event :=
  omap (fun e => match e with
                 | EvSubmit _ t' p _ _ _ => if decide (t' = t) then Some (Submit p) else None
                 | EvAccept t' a _ => if decide (t' = t) then Some (Accept a) else None
                 | _ => None
                 end) evs.

(** Submitted revision numbers fit the [INTEGER] column.  The head counts up from
    zero by one, so no reachable head is near the bound. *)
Definition event_ok (e : event) : Prop :=
  match e with
  | EvSubmit _ _ p _ _ _ => (0 <= revision (contract p) <= i64_max)%Z
  | _ => True
  end.

(** Every stored head is readable. *)
Definition heads_inv (d : Db) : Prop :=
  forall t r, tbl_heads d !! t = Some r ->
    (0 <= hd_revision r <= i64_max)%Z /\ (hd_status r = "open" \/ hd_status r = "locked").

(** The abstraction: the pure head of a Task. *)
Definition abs_row (r : HeadRow) : HeadState :=
  let h := mkHead (hd_revision r) (hd_digest r) in
  if decide (hd_status r = "open") then Open h else Locked h.

Definition abs_head (d : Db) (t : string) : HeadState :=
  match tbl_heads d !! t with Some r => abs_row r | None => Empty end.

Lemma contract_head_run t d : heads_inv d -> contract_head t d = Ok (abs_head d t, d).
Proof.
  intros Hinv. unfold contract_head, abs_head, abs_row. rewrite bind_gets.
  destruct (tbl_heads d !! t) as [r|] eqn:E; [|done]. apply Hinv in E as [Hr Hs].
  unfold head_from_row, get_unsigned. destruct (_ <? 0)%Z eqn:El; [lia|]. unfold_M. cbn.
  case_decide; [done|]. by rewrite decide_True by naive_solver.
Qed.

(** ** What each operation does *)

Definition stored_contract (s : Store) (nonce : bytes) (t : string) (p : ParsedContract) (exp : Z) :=
  mkContractRow t (contract_id (contract p)) (as_i64 (revision (contract p)))
    (seal s CONTRACT_PAYLOAD_CONTEXT nonce (payload p)) exp.

Lemma submit_effect s nonce t p origin exp now d :
  heads_inv d ->
  exists d', submit_revision s nonce t p origin exp now d = Ok (apply_revision (abs_head d t) p, d') /\
  match apply_revision (abs_head d t) p with
  | Advance h =>
      contracts_db d' = mkContractsDb (<[t := advanced_row p h origin (tbl_heads d !! t)]> (tbl_heads d))
        (insert_or_ignore (digest p) (stored_contract s nonce t p exp) (tbl_contracts d)).1
        (tbl_reactions d)
  | Stale _ => d' = d
  end.
Proof.
  intros Hinv. unfold submit_revision. rewrite (bind_run _ _ _ _ _ (contract_head_run t d Hinv)).
  destruct (apply_revision _ p) as [h|r] eqn:Ha; [|by eexists].
  apply apply_revision_Advance in Ha as [_ ->]. rewrite !bind_modify.
  run_audit. eexists. split; [done|]. done.
Qed.

Lemma lockable_update t a (m : gmap string HeadRow) r :
  m !! t = Some r -> hd_digest r = a -> hd_status r = "open" ->
  update_where (lockable t a) set_locked m = <[t := set_locked r]> m.
Proof.
  intros Hr Hd Hs. apply map_eq. intros k. rewrite lookup_update_where. unfold lockable.
  destruct (decide (k = t)) as [->|Hne].
  - rewrite Hr, lookup_insert_eq. simpl. by rewrite bool_decide_eq_true_2.
  - rewrite lookup_insert_ne by done. destruct (m !! k); [|done]. simpl.
    by rewrite bool_decide_eq_false_2 by naive_solver.
Qed.

Lemma lockable_count t a (m : gmap string HeadRow) r :
  m !! t = Some r -> hd_digest r = a -> hd_status r = "open" -> count_where (lockable t a) m = 1.
Proof.
  intros Hr Hd Hs. rewrite <- (insert_delete_id _ _ _ Hr).
  rewrite count_where_insert by apply lookup_delete_eq. unfold lockable at 1.
  rewrite bool_decide_eq_true_2 by done.
  replace (count_where _ _) with 0; [done|]. symmetry. apply count_where_zero.
  intros k v Hk. apply bool_decide_eq_false. intros (-> & _). by rewrite lookup_delete_eq in Hk.
Qed.

Lemma accept_effect t a now d :
  heads_inv d ->
  exists d', accept_contract t a now d =
    Ok (match accept_head (abs_head d t) a with Ok _ => Ok () | Err e => Err e end, d') /\
  match accept_head (abs_head d t) a with
  | Ok _ => exists r, tbl_heads d !! t = Some r /\ hd_status r = "open" /\ hd_digest r = a /\
      contracts_db d' = mkContractsDb (<[t := set_locked r]> (tbl_heads d)) (tbl_contracts d)
                                      (tbl_reactions d)
  | Err _ => d' = d
  end.
Proof.
  intros Hinv. unfold accept_contract. rewrite (bind_run _ _ _ _ _ (contract_head_run t d Hinv)).
  destruct (accept_head (abs_head d t) a) as [h'|e] eqn:Ha; [|by eexists].
  assert (exists r, tbl_heads d !! t = Some r /\ hd_status r = "open" /\ hd_digest r = a)
    as (r & Hr & Hs & Hd).
  { unfold abs_head, abs_row in Ha. destruct (tbl_heads d !! t) as [r|]; [|done].
    destruct (decide (hd_status r = "open")) as [Hs|]; simpl in Ha; [|done].
    case_decide; [|done]. by exists r. }
  rewrite bind_gets, bind_modify. rewrite (lockable_count t a _ r) by done. rewrite decide_False by (by intros []).
  run_audit. eexists. split; [done|]. exists r. split_and!; [done..|].
  simpl. unfold upd_contract_heads. fold (tbl_heads d). by rewrite (lockable_update t a _ r).
Qed.

Lemma exec_Ok {A} (m : M A) d a d' : m d = Ok (a, d') -> (exec m d).2 = d'.
Proof. unfold exec. by intros ->. Qed.

(** ** The refinement *)

Lemma abs_advanced p h origin old :
  (0 <= h_revision h <= i64_max)%Z ->
  abs_row (advanced_row p h origin old) = Open h.
Proof.
  intros Hh. unfold abs_row, advanced_row. destruct old; simpl;
    rewrite as_i64_small by (unfold in_i64, i64_min, i64_max in *; lia); by destruct h.
Qed.

Lemma heads_inv_insert d m t r :
  heads_inv d -> (0 <= hd_revision r <= i64_max)%Z -> (hd_status r = "open" \/ hd_status r = "locked") ->
  contract_heads m = <[t := r]> (tbl_heads d) ->
  heads_inv (upd_contracts_db (fun _ => m) d).
Proof.
  intros Hinv Hr Hs Hm t' r'. unfold tbl_heads. simpl. rewrite Hm.
  rewrite lookup_insert_Some. intros [[<- <-]|[_ H]]; [done|by apply Hinv in H].
Qed.

(** The heads are only looked at through the contract tables. *)
Lemma heads_inv_same d d' : contracts_db d' = contracts_db d -> heads_inv d -> heads_inv d'.
Proof. unfold heads_inv, tbl_heads. by intros ->. Qed.

Lemma abs_head_insert d d' t r k :
  tbl_heads d' = <[t := r]> (tbl_heads d) ->
  abs_head d' k = if decide (k = t) then abs_row r else abs_head d k.
Proof.
  intros Hd. unfold abs_head. rewrite Hd. case_decide as Hk.
  - subst. by rewrite lookup_insert_eq.
  - by rewrite lookup_insert_ne by done.
Qed.

(** One event is one pure step for its own Task and none for the others. *)
Lemma event_refines s d e :
  heads_inv d -> event_ok e ->
  heads_inv (run_event s d e) /\
  forall t, abs_head (run_event s d e) t = steps_head (abs_head d t) (head_events t [e]).
Proof.
  intros Hinv Hok. destruct e as [nonce t p origin exp now|t a now|t ctx|t now|now]; simpl in Hok.
  - destruct (submit_effect s nonce t p origin exp now d Hinv) as (d' & Hr & Hd).
    cbn [run_event]. rewrite (exec_Ok _ _ _ _ Hr). cbn [head_events omap list_omap].
    destruct (apply_revision (abs_head d t) p) as [h|r] eqn:Ha.
    + pose proof (apply_revision_Advance _ _ _ Ha) as [_ ->]. split.
      * apply (heads_inv_same (upd_contracts_db (fun _ => contracts_db d') d)); [done|].
        eapply heads_inv_insert; [done| | |by rewrite Hd];
          destruct (tbl_heads d !! t); simpl; try (by left);
          rewrite as_i64_small; unfold in_i64, i64_min, i64_max in *; lia.
      * intros k. rewrite (abs_head_insert d d' t _ k) by (unfold tbl_heads at 1; by rewrite Hd).
        rewrite abs_advanced by done. do 2 case_decide; subst; try done.
        cbn. by rewrite Ha.
    + subst d'. split; [done|]. intros k. case_decide; [|done]. subst. cbn. by rewrite Ha.
  - destruct (accept_effect t a now d Hinv) as (d' & Hr & Hd).
    cbn [run_event]. rewrite (exec_Ok _ _ _ _ Hr). cbn [head_events omap list_omap].
    destruct (accept_head (abs_head d t) a) as [h|r] eqn:Ha.
    + destruct Hd as (r & Hrow & Hs & Hdg & Hd). split.
      * apply (heads_inv_same (upd_contracts_db (fun _ => contracts_db d') d)); [done|].
        eapply heads_inv_insert; [done| | |by rewrite Hd]; [|by right].
        by apply Hinv in Hrow as [? _].
      * intros k. rewrite (abs_head_insert d d' t _ k) by (unfold tbl_heads at 1; by rewrite Hd).
        do 2 case_decide; subst; try done. cbn. rewrite Ha. unfold abs_head in Ha. rewrite Hrow in Ha.
        unfold abs_row in Ha |- *. rewrite Hs in Ha. simpl in Ha. rewrite decide_True in Ha by done. naive_solver.
    + subst d'. split; [done|]. intros k. case_decide; [|done]. subst. cbn. by rewrite Ha.
  - assert (forall k, tbl_heads (run_event s d (EvContext t ctx)) !! k =
      (fun r => if decide (k = t) then set_context ctx r else r) <$> tbl_heads d !! k) as Hl.
    { intros k. change (tbl_heads (run_event s d (EvContext t ctx)))
        with (alter (set_context ctx) t (tbl_heads d)). case_decide as Hk.
      - subst. apply lookup_alter_eq.
      - rewrite lookup_alter_ne by done. by destruct (tbl_heads d !! k). }
    split.
    + intros k r. rewrite Hl. destruct (tbl_heads d !! k) as [r0|] eqn:E; [|done]. simpl.
      intros [= <-]. apply Hinv in E. by case_decide.
    + intros k. unfold abs_head. rewrite Hl. destruct (tbl_heads d !! k); [|done]. simpl.
      by case_decide.
  - done.
  - done.
Qed.

Lemma events_refine s evs d :
  heads_inv d -> Forall event_ok evs ->
  heads_inv (run_events s d evs) /\
  forall t, abs_head (run_events s d evs) t = steps_head (abs_head d t) (head_events t evs).
Proof.
  intros Hinv Hok. revert d Hinv. induction Hok as [|e evs He _ IH]; intros d Hinv; [done|].
  destruct (event_refines s d e Hinv He) as [Hinv1 Habs].
  destruct (IH _ Hinv1) as [Hinv2 Habs2]. split; [done|]. intros t.
  change (run_events s d (e :: evs)) with (run_events s (run_event s d e) evs).
  rewrite Habs2, Habs. unfold steps_head. rewrite <- foldl_app. f_equal.
  unfold head_events. by rewrite <- omap_app.
Qed.

Lemma empty_heads_inv : heads_inv empty_db.
Proof. by intros t r H. Qed.

(** C32. The store implements the contract chain. After any history of submissions,
    acceptances, context updates, reactor marks and purges over any Tasks, the
    head the store reads for a Task is the one the pure compare-and-swap reaches
    from the empty head on that Task's own events, in order. *)
Theorem store_refines_chain s evs t :
  Forall event_ok evs ->
  let d := run_events s empty_db evs in
  contract_head t d = Ok (steps_head Empty (head_events t evs), d).
Proof.
  intros Hok. cbn zeta. destruct (events_refine s evs empty_db empty_heads_inv Hok) as [Hinv Habs].
  rewrite contract_head_run by done. by rewrite Habs.
Qed.

Lemma accept_Ok_abs t a now d d' :
  heads_inv d -> accept_contract t a now d = Ok (Ok (), d') ->
  heads_inv d' /\ exists rev, abs_head d' t = Locked (mkHead rev a).
Proof.
  intros Hinv Hacc. destruct (event_refines (mkStore [] [] Normal) d (EvAccept t a now) Hinv I) as [Hi Ha].
  cbn [run_event] in Hi, Ha. rewrite (exec_Ok _ _ _ _ Hacc) in Hi, Ha. split; [done|].
  destruct (accept_effect t a now d Hinv) as (d1 & Hr & Hd). rewrite Hr in Hacc.
  specialize (Ha t). cbn in Ha. rewrite decide_True in Ha by done. cbn in Ha. rewrite Ha.
  destruct (abs_head d t) as [|h|h]; cbn in Hacc |- *; try done.
  case_decide; [|done]. exists (h_revision h). subst. by destruct h.
Qed.

(** An acceptance is final in the store. Once [accept_contract] has succeeded,
    then after any further history the Task's head is locked at exactly the
    accepted digest, a second acceptance is refused, no successor revision
    advances it, and neither writes anything. *)
Theorem store_lock_final s evs1 t a now d1 evs2 :
  Forall event_ok evs1 -> Forall event_ok evs2 ->
  accept_contract t a now (run_events s empty_db evs1) = Ok (Ok (), d1) ->
  let d2 := run_events s d1 evs2 in
  (exists rev, contract_head t d2 = Ok (Locked (mkHead rev a), d2)) /\
  (forall a' now', accept_contract t a' now' d2 = Ok (Err AlreadyLocked, d2)) /\
  (forall nonce p origin exp now', exists r,
     submit_revision s nonce t p origin exp now' d2 = Ok (Stale r, d2)).
Proof.
  intros Hok1 Hok2 Hacc. cbn zeta.
  destruct (events_refine s evs1 empty_db empty_heads_inv Hok1) as [Hinv _].
  destruct (accept_Ok_abs _ _ _ _ _ Hinv Hacc) as (Hi1 & rev & Hl).
  destruct (events_refine s evs2 d1 Hi1 Hok2) as [Hi2 Habs]. specialize (Habs t).
  rewrite Hl, steps_locked in Habs. split_and!.
  - exists rev. rewrite contract_head_run by done. by rewrite Habs.
  - intros a' now'. destruct (accept_effect t a' now' _ Hi2) as (d' & Hr & Hd).
    rewrite Habs in Hr, Hd. cbn in Hr, Hd. by subst d'.
  - intros nonce p origin exp now'. destruct (submit_effect s nonce t p origin exp now' _ Hi2) as (d' & Hr & Hd).
    rewrite Habs in Hr, Hd. destruct (apply_revision _ p) as [h|r] eqn:Ha.
    + by apply apply_revision_Advance in Ha as [? _].
    + subst d'. by exists r.
Qed.

(** ** Origin, retention, reactions *)

Lemma event_origin s d e t r :
  heads_inv d -> tbl_heads d !! t = Some r ->
  exists r', tbl_heads (run_event s d e) !! t = Some r' /\ hd_origin_root r' = hd_origin_root r.
Proof.
  intros Hinv Hr. destruct e as [nonce t' p origin exp now|t' a now|t' ctx|t' now|now].
  - destruct (submit_effect s nonce t' p origin exp now d Hinv) as (d' & Hs & Hd).
    cbn [run_event]. rewrite (exec_Ok _ _ _ _ Hs). destruct (apply_revision _ p) as [h|]; [|subst; eauto].
    unfold tbl_heads at 1. rewrite Hd. simpl. destruct (decide (t' = t)) as [->|Hne].
    + rewrite lookup_insert_eq, Hr. eauto.
    + rewrite lookup_insert_ne by done. eauto.
  - destruct (accept_effect t' a now d Hinv) as (d' & Hs & Hd).
    cbn [run_event]. rewrite (exec_Ok _ _ _ _ Hs). destruct (accept_head _ a); [|subst; eauto].
    destruct Hd as (r0 & Hr0 & _ & _ & Hd). unfold tbl_heads at 1. rewrite Hd. simpl.
    destruct (decide (t' = t)) as [->|Hne].
    + rewrite lookup_insert_eq. eexists. split; [done|]. simpl. congruence.
    + rewrite lookup_insert_ne by done. eauto.
  - change (tbl_heads (run_event s d (EvContext t' ctx))) with (alter (set_context ctx) t' (tbl_heads d)).
    destruct (decide (t' = t)) as [->|Hne].
    + rewrite lookup_alter_eq, Hr. eauto.
    + rewrite lookup_alter_ne by done. eauto.
  - eauto.
  - eauto.
Qed.

(** The requester of a Task cannot be changed. The root a Task's first proposal
    arrived from stays its origin through every later revision, whatever root
    that revision arrived from, and through every other operation. *)
Theorem origin_sticky s evs1 evs2 t root0 :
  Forall event_ok evs1 -> Forall event_ok evs2 ->
  let d1 := run_events s empty_db evs1 in
  let d2 := run_events s d1 evs2 in
  origin_root t d1 = Ok (Some root0, d1) -> origin_root t d2 = Ok (Some root0, d2).
Proof.
  intros Hok1 Hok2. cbn zeta. destruct (events_refine s evs1 empty_db empty_heads_inv Hok1) as [Hinv _].
  revert Hinv. generalize (run_events s empty_db evs1). induction Hok2 as [|e evs He _ IH]; [done|].
  intros d Hinv Ho. apply IH; [by apply event_refines|].
  unfold origin_root, gets in Ho |- *. destruct (tbl_heads d !! t) as [r|] eqn:E; [|done].
  destruct (event_origin s d e t r Hinv E) as (r' & -> & Hr'). simpl in *. congruence.
Qed.

Lemma event_contract s d e k r :
  heads_inv d -> tbl_contracts d !! k = Some r ->
  (forall now, e = EvPurge now -> now < ct_expires_at r)%Z ->
  tbl_contracts (run_event s d e) !! k = Some r.
Proof.
  intros Hinv Hr Hp. destruct e as [nonce t' p origin exp now|t' a now|t' ctx|t' now|now]; [| |done|done|].
  - destruct (submit_effect s nonce t' p origin exp now d Hinv) as (d' & Hs & Hd).
    cbn [run_event]. rewrite (exec_Ok _ _ _ _ Hs). destruct (apply_revision _ p) as [h|]; [|by subst].
    unfold tbl_contracts at 1. rewrite Hd. simpl. unfold insert_or_ignore.
    destruct (tbl_contracts d !! digest p) eqn:E; [done|]. simpl. rewrite lookup_insert_ne; [done|congruence].
  - destruct (accept_effect t' a now d Hinv) as (d' & Hs & Hd).
    cbn [run_event]. rewrite (exec_Ok _ _ _ _ Hs). destruct (accept_head _ a); [|by subst].
    destruct Hd as (r0 & _ & _ & _ & Hd). unfold tbl_contracts at 1. by rewrite Hd.
  - change (tbl_contracts (run_event s d (EvPurge now))) with
      (delete_where (fun _ r => (ct_expires_at r <=? now)%Z) (tbl_contracts d)).
    rewrite lookup_delete_where, Hr. specialize (Hp now eq_refl). by destruct (_ <=? _)%Z eqn:E; [lia|].
Qed.

(** An advancing revision can be read back. Its canonical payload is returned for
    its digest, byte for byte, after any later history that does not purge past
    its expiry; a later revision under the same digest does not replace it. *)
Theorem contract_retained s nonce t p origin exp now d0 h d1 evs :
  heads_inv d0 -> (0 <= revision (contract p) <= i64_max)%Z -> Forall event_ok evs ->
  length nonce = Envelope.NONCE_LEN -> (Z.of_nat (length (payload p)) <= aead_limit)%Z ->
  tbl_contracts d0 !! digest p = None ->
  submit_revision s nonce t p origin exp now d0 = Ok (Advance h, d1) ->
  Forall (fun e => forall n, e = EvPurge n -> n < exp)%Z evs ->
  let d2 := run_events s d1 evs in
  get_contract s (digest p) d2 = Ok (Some (payload p), d2).
Proof.
  intros Hinv Hrev Hok Hn Hl Hnone Hsub Hp. cbn zeta.
  assert (heads_inv d1) as Hinv1.
  { rewrite <- (exec_Ok _ _ _ _ Hsub). by apply (event_refines s d0 (EvSubmit nonce t p origin exp now)). }
  assert (tbl_contracts d1 !! digest p = Some (stored_contract s nonce t p exp)) as Hrow.
  { destruct (submit_effect s nonce t p origin exp now d0 Hinv) as (d' & Hs & Hd). rewrite Hs in Hsub.
    injection Hsub as Ha ->. rewrite Ha in Hd. unfold tbl_contracts. rewrite Hd. simpl.
    unfold insert_or_ignore. fold (tbl_contracts d0). rewrite Hnone. apply lookup_insert_eq. }
  enough (tbl_contracts (run_events s d1 evs) !! digest p = Some (stored_contract s nonce t p exp)) as He.
  { unfold get_contract. rewrite bind_gets, He. cbn [fmap option_fmap option_map stored_contract ct_payload].
    unfold lift. unfold_M. by rewrite open_col_seal by done. }
  clear Hsub Hnone. revert d1 Hinv1 Hrow Hp. induction Hok as [|e evs He _ IH]; [done|].
  intros d1 Hinv1 Hrow [Hp1 Hp2]%Forall_cons. apply IH; [by apply event_refines| |done].
  by apply event_contract.
Qed.

Lemma collect_Ok {E A B} (f : A -> result E B) (g : A -> B) l :
  (forall a, a ∈ l -> f a = Ok (g a)) -> collect f l = Ok (g <$> l).
Proof.
  induction l as [|a l IH]; intros H; [done|]. simpl. rewrite H by left.
  unfold_result. rewrite IH; [done|]. intros x Hx. apply H. by right.
Qed.

Definition row_head (kv : string * HeadRow) : TaskHead :=
  mkTaskHead kv.1 (hd_contract_id kv.2) (hd_revision kv.2) (hd_digest kv.2).

Lemma collect_heads d p :
  heads_inv d ->
  collect task_head_row (sorted_rows p (tbl_heads d)) = Ok (row_head <$> sorted_rows p (tbl_heads d)).
Proof.
  intros Hinv. apply collect_Ok. intros [t r] [Hr _]%elem_of_sorted_rows. apply Hinv in Hr as [Hr _].
  unfold task_head_row, get_unsigned. simpl. by destruct (_ <? 0)%Z eqn:E; [lia|].
Qed.

(** Which Tasks the reactor has handled, read off the history. *)
Definition reacted (t : string) (evs : list event) : Prop := exists now, EvReact t now ∈ evs.

Lemma event_reactions s d e t :
  heads_inv d ->
  (is_Some (tbl_reactions (run_event s d e) !! t) <->
   is_Some (tbl_reactions d !! t) \/ exists now, e = EvReact t now).
Proof.
  intros Hinv. destruct e as [nonce t' p origin exp now|t' a now|t' ctx|t' now|now];
    try (split; [by left|by intros [?|[? ?]]]).
  - destruct (submit_effect s nonce t' p origin exp now d Hinv) as (d' & Hs & Hd).
    cbn [run_event]. rewrite (exec_Ok _ _ _ _ Hs).
    assert (tbl_reactions d' = tbl_reactions d) as ->; [|naive_solver].
    destruct (apply_revision _ p); [|by subst]. unfold tbl_reactions at 1. by rewrite Hd.
  - destruct (accept_effect t' a now d Hinv) as (d' & Hs & Hd).
    cbn [run_event]. rewrite (exec_Ok _ _ _ _ Hs).
    assert (tbl_reactions d' = tbl_reactions d) as ->; [|naive_solver].
    destruct (accept_head _ a); [|by subst]. destruct Hd as (? & _ & _ & _ & Hd).
    unfold tbl_reactions at 1. by rewrite Hd.
  - change (tbl_reactions (run_event s d (EvReact t' now))) with
      (insert_or_ignore t' now (tbl_reactions d)).1. unfold insert_or_ignore.
    destruct (tbl_reactions d !! t') eqn:E; simpl.
    + split; [by left|]. intros [?|[n [= -> ->]]]; [done|by rewrite E].
    + destruct (decide (t' = t)) as [->|Hne].
      * rewrite lookup_insert_eq. split; [|done]. intros _. right. by exists now.
      * rewrite lookup_insert_ne by done. split; [by left|]. intros [?|[n [= -> ->]]]; done.
Qed.

Lemma events_reactions s evs d t :
  heads_inv d -> Forall event_ok evs ->
  (is_Some (tbl_reactions (run_events s d evs) !! t) <-> is_Some (tbl_reactions d !! t) \/ reacted t evs).
Proof.
  intros Hinv Hok. revert d Hinv. induction Hok as [|e evs He _ IH]; intros d Hinv.
  - split; [by left|]. intros [?|[n Hn]]; [done|by apply not_elem_of_nil in Hn].
  - change (run_events s d (e :: evs)) with (run_events s (run_event s d e) evs).
    rewrite IH by (by apply event_refines). rewrite event_reactions by done.
    unfold reacted. setoid_rewrite elem_of_cons. naive_solver.
Qed.

(** The reactor sees each Task once. After any history the Tasks offered to the
    reactor are exactly those whose head is open and that it has never marked, in
    Task order; the operator's inbox is exactly those with an open head. *)
Theorem reactor_once s evs :
  Forall event_ok evs ->
  let d := run_events s empty_db evs in
  exists l inbox,
    tasks_awaiting_reaction d = Ok (l, d) /\ list_submitted_tasks d = Ok (inbox, d) /\
    Sorted text_le (th_task_id <$> l) /\
    (forall t, t ∈ th_task_id <$> l <->
       (exists h, steps_head Empty (head_events t evs) = Open h) /\ ~ reacted t evs) /\
    (forall t, t ∈ th_task_id <$> inbox <-> exists h, steps_head Empty (head_events t evs) = Open h).
Proof.
  intros Hok. cbn zeta. destruct (events_refine s evs empty_db empty_heads_inv Hok) as [Hinv Habs].
  set (d := run_events s empty_db evs) in *.
  assert (forall t, (exists h, steps_head Empty (head_events t evs) = Open h) <->
    exists r, tbl_heads d !! t = Some r /\ hd_status r = "open") as Hopen.
  { intros t. specialize (Habs t). change (abs_head empty_db t) with Empty in Habs. rewrite <- Habs.
    unfold abs_head, abs_row. destruct (tbl_heads d !! t) as [r|]; [|naive_solver].
    case_decide; naive_solver. }
  assert (forall p t, t ∈ th_task_id <$> (row_head <$> sorted_rows p (tbl_heads d)) <->
    exists r, tbl_heads d !! t = Some r /\ p t r = true) as Hin.
  { intros p t. rewrite <- list_fmap_compose, list_elem_of_fmap. split.
    - intros ([k r] & -> & ?%elem_of_sorted_rows). by exists r.
    - intros (r & ?%elem_of_sorted_rows). by exists (t, r). }
  unfold tasks_awaiting_reaction, list_submitted_tasks. rewrite !bind_gets, !collect_heads by done.
  eexists _, _. split_and!; [done|done| | |].
  - rewrite <- list_fmap_compose. apply sorted_rows_keys.
  - intros t. rewrite Hin, Hopen.
    pose proof (events_reactions s evs empty_db t empty_heads_inv Hok) as Hr. fold d in Hr.
    assert (tbl_reactions d !! t = None <-> ~ reacted t evs) as Hn.
    { rewrite eq_None_not_Some, Hr. change (tbl_reactions empty_db !! t) with (@None Z).
      assert (~ is_Some (@None Z)) by (by intros []). naive_solver. }
    rewrite <- Hn. split.
    + intros (r & Ht & [Ho%bool_decide_eq_true Hx%bool_decide_eq_true]%andb_true_iff). eauto.
    + intros [(r & Ht & Ho) Hx]. exists r. split; [done|]. unfold is_open.
      by rewrite !bool_decide_eq_true_2.
  - intros t. rewrite Hin, Hopen. unfold is_open. by setoid_rewrite bool_decide_eq_true.
Qed.
End contracts.

(** ** Witnesses *)

Section sample.
#[local] Existing Instances ToyHashes ToyAead.

Definition sample_store : Store := mkStore (repeat "d"%char 32) (repeat "c"%char 32) Normal.
Definition sample_nonce : bytes := repeat "n"%char 24.

Definition submit_first : event := EvSubmit sample_nonce "t1" (sample_parsed 0 None "d0") "root-a" 100 1.
Definition submit_next : event :=
  EvSubmit sample_nonce "t1" (sample_parsed 1 (Some "d0") "d1") "root-b" 100 2.

Lemma sample_events_ok : Forall event_ok [submit_first; submit_next; EvReact "t1" 3].
Proof. repeat constructor; vm_compute; discriminate. Qed.

Lemma sample_tail_ok : Forall event_ok [submit_next].
Proof. repeat constructor; vm_compute; discriminate. Qed.

Lemma sample_head_ok : Forall event_ok [submit_first].
Proof. repeat constructor; vm_compute; discriminate. Qed.

Example store_refines_chain_witness :
  let d := run_events sample_store empty_db [submit_first; submit_next; EvReact "t1" 3] in
  contract_head "t1" d = Ok (Open (mkHead 1 "d1"), d).
Proof.
  exact (store_refines_chain sample_store [submit_first; submit_next; EvReact "t1" 3] "t1" sample_events_ok).
Defined.

Example store_lock_final_witness :
  let d1 := (exec (accept_contract "t1" "d0" 5) (run_events sample_store empty_db [submit_first])).2 in
  let d2 := run_events sample_store d1 [submit_next] in
  accept_contract "t1" "d1" 6 d2 = Ok (Err AlreadyLocked, d2).
Proof.
  cbn zeta. apply (store_lock_final sample_store [submit_first] "t1" "d0" 5).
  - apply sample_head_ok.
  - apply sample_tail_ok.
  - vm_compute. reflexivity.
Defined.

Example origin_sticky_witness :
  let d2 := run_events sample_store (run_events sample_store empty_db [submit_first]) [submit_next] in
  origin_root "t1" d2 = Ok (Some "root-a", d2).
Proof.
  apply (origin_sticky sample_store [submit_first] [submit_next] "t1" "root-a");
    [apply sample_head_ok|apply sample_tail_ok|vm_compute; reflexivity].
Defined.

Example contract_retained_witness :
  let d1 := run_events sample_store empty_db [submit_first] in
  let d2 := run_events sample_store d1 [submit_next] in
  get_contract sample_store "d0" d2 = Ok (Some (as_bytes "d0"), d2).
Proof.
  apply (contract_retained sample_store sample_nonce "t1" (sample_parsed 0 None "d0") "root-a" 100 1
    empty_db (mkHead 0 "d0") (run_events sample_store empty_db [submit_first]) [submit_next]).
  - apply empty_heads_inv.
  - vm_compute. split; discriminate.
  - apply sample_tail_ok.
  - reflexivity.
  - vm_compute. discriminate.
  - reflexivity.
  - vm_compute. reflexivity.
  - by repeat constructor.
Defined.

Example reactor_once_witness :
  let d := run_events sample_store empty_db [submit_first] in
  exists l, tasks_awaiting_reaction d = Ok (l, d) /\ Sorted text_le (th_task_id <$> l).
Proof.
  destruct (reactor_once sample_store [submit_first] sample_head_ok) as (l & i & Hl & _ & Hs & _).
  exists l. split; [exact Hl|exact Hs].
Defined.
End sample.
End StoreContracts.
