(* ===== verification/StoreAttempts.v ===== *)
(** Work-order attempts in the store (akson-store/src/lib.rs [claim_attempt],
    [advance_attempt], [resolve_crashed_attempts], [put_work_order],
    [complete_attempt_with_result] and their readers).

    The row of an attempt is driven by the machine of [Attempt]; the claim is the
    row's insertion, which consumes the one-use nonce and reserves the budgets. *)
From S2P Require Import Prelude Crypto Envelope AuditLog Machine RowMachine Attempt Contract Capability WorkOrder Db.
Import Attempt WorkOrder.

Module StoreAttempts.

Definition WORK_ORDER_CONTEXT : string := "work_order.issued".
Definition RESULT_MANIFEST_CONTEXT : string := "result.manifest".

Inductive ClaimOutcome :=
| ClaimedNow
| AlreadyClaimed (s : AttemptState)
| NonceReused.

Inductive CompletionOutcome :=
| Completed
| AlreadyCompleted
| NotRunnable (s : AttemptState).

Definition tbl_attempts (d : Db) := attempts (attempts_db d).
Definition tbl_orders (d : Db) := work_orders (attempts_db d).
Definition tbl_results (d : Db) := results (attempts_db d).
Definition on_attempts f := upd_attempts_db (upd_attempts f).
Definition on_orders f := upd_attempts_db (upd_work_orders f).
Definition on_results f := upd_attempts_db (upd_results f).

Definition set_state (t : string) (r : AttemptRow) : AttemptRow :=
  mkAttemptRow (at_nonce r) (at_task_id r) (at_work_order_digest r) t (at_max_cost_microusd r)
    (at_max_bytes r) (at_max_operations r) (at_claimed_at r) (at_deadline r).

#[global] Instance attempt_column : StateColumn AttemptRow := {|
  col := at_state;
  set_col := set_state;
  fix_of := fun r => (at_nonce r, at_task_id r, at_work_order_digest r, at_max_cost_microusd r,
                      at_max_bytes r, at_max_operations r, at_claimed_at r, at_deadline r);
  col_set := fun t r => eq_refl;
  fix_set := fun t r => eq_refl;
|}.

Definition attempt_state (id : string) : M (option AttemptState) :=
  o ← gets (fun d => at_state <$> tbl_attempts d !! id);
  match o with
  | None => mret None
  | Some text => match Attempt.from_str text with
                 | Some s => mret (Some s)
                 | None => fail (Corrupt "unknown attempt state")
                 end
  end.

(** The state of a known attempt, or [UnknownAttempt]. *)
Definition known_state (id : string) : M AttemptState :=
  o ← attempt_state id;
  match o with Some s => mret s | None => fail (UnknownAttempt id) end.

(** [SELECT work_order_id ... WHERE task_id = ? LIMIT 1]: a task has at most one
    attempt, so the order of the scan does not matter. *)
Definition attempt_for_task (task : string) : M (option string) :=
  gets (fun d => fst <$> first_row (fun _ r => bool_decide (at_task_id r = task)) (tbl_attempts d)).

Section attempts.
Context {HS : Hashes} {AE : Aead} {HX : Hex} {CN : Canon WorkOrder} {CI : Codec IssuedWorkOrder}.

(** The [UNIQUE (nonce)] index cannot refuse the insertion: the query before it
    found no row with the nonce. *)
Definition claim_attempt (o : WorkOrder) (now : Z) : M ClaimOutcome :=
  prior ← attempt_state (work_order_id o);
  match prior with
  | Some state => mret (AlreadyClaimed state)
  | None =>
      nonce_owner ← gets (fun d =>
        first_row (fun _ r => bool_decide (at_nonce r = nonce o)) (tbl_attempts d));
      match nonce_owner with
      | Some _ => mret NonceReused
      | None =>
          dg ← lift (match WorkOrder.digest o with
                     | Ok dg => Ok dg
                     | Err _ => Err (Corrupt "work order not canonical")
                     end);
          m ← gets tbl_attempts;
          m' ← lift (insert_new (work_order_id o)
                 (mkAttemptRow (nonce o) (task_id o) dg "claimed"
                    (as_i64 (max_cost_microusd (budgets o))) (as_i64 (max_bytes (budgets o)))
                    (as_i64 (max_operations (budgets o))) now (deadline o)) m);
          _ ← modify (on_attempts (fun _ => m'));
          _ ← audit now "attempt.claimed" (work_order_id o);
          mret ClaimedNow
      end
  end.

Definition advance_attempt (id : string) (event : AttemptEvent) (now : Z) :
  M (result (TransitionError AttemptState AttemptEvent) AttemptState) :=
  state ← known_state id;
  match Attempt.next state event with
  | Ok new_state =>
      changed ← gets (fun d => (cas_state id (Attempt.as_str state) (Attempt.as_str new_state)
                                          (tbl_attempts d)).2);
      _ ← modify (on_attempts (fun m => (cas_state id (Attempt.as_str state)
                                                   (Attempt.as_str new_state) m).1));
      if decide (changed <> 1) then fail (Corrupt "attempt changed state concurrently")
      else
        _ ← audit now "attempt.transition" (id +:+ ":" +:+ Attempt.as_str new_state);
        mret (Ok new_state)
  | Err e => mret (Err e)
  end.

Definition in_flight (_ : string) (r : AttemptRow) : bool :=
  bool_decide (at_state r = "claimed" \/ at_state r = "running").

(** The loop of [resolve_crashed_attempts]. *)
Fixpoint resolve_each (ids : list string) (now : Z) : M () :=
  match ids with
  | [] => mret ()
  | id :: ids =>
      _ ← modify (on_attempts (alter (set_state "ambiguous") id));
      _ ← audit now "attempt.transition" (id +:+ ":ambiguous");
      resolve_each ids now
  end.

Definition resolve_crashed_attempts (now : Z) : M nat :=
  ids ← gets (fun d => fst <$> rows_where in_flight (tbl_attempts d));
  _ ← resolve_each ids now;
  mret (length ids).

Definition put_work_order (s : Store) (nonce : bytes) (issued : IssuedWorkOrder) (now : Z) : M () :=
  let sealed := seal s WORK_ORDER_CONTEXT nonce (encode issued) in
  let id := work_order_id (order issued) in
  let row := mkWorkOrderRow (task_id (order issued)) (i_digest issued) sealed now in
  inserted ← gets (fun d => (insert_or_ignore id row (tbl_orders d)).2);
  _ ← modify (on_orders (fun m => (insert_or_ignore id row m).1));
  if decide (inserted = 1) then
    _ ← audit now "work_order.issued" id;
    mret ()
  else mret ().

(** Deserializing an order routes its capability vector through its constructor. *)
Definition parse_issued (json : bytes) : result StoreError IssuedWorkOrder :=
  i ← parse_json json;
  match Capability.new (Capability.grants (capabilities (order i))) with
  | Ok _ => Ok i
  | Err _ => Err Serde
  end.

Definition get_work_order (s : Store) (id : string) : M (option IssuedWorkOrder) :=
  o ← gets (fun d => wo_order_json <$> tbl_orders d !! id);
  match o with
  | Some sealed =>
      json ← lift (open_col s WORK_ORDER_CONTEXT sealed);
      i ← lift (parse_issued json);
      mret (Some i)
  | None => mret None
  end.

Definition complete_attempt_with_result (s : Store) (nonce : bytes) (id task bundle_digest : string)
  (manifest_envelope : bytes) (now : Z) : M CompletionOutcome :=
  state ← known_state id;
  match state with
  | Succeeded => mret AlreadyCompleted
  | Claimed | Running =>
      changed ← gets (fun d => (cas_state id (Attempt.as_str state) "succeeded" (tbl_attempts d)).2);
      _ ← modify (on_attempts (fun m => (cas_state id (Attempt.as_str state) "succeeded" m).1));
      if decide (changed <> 1) then fail (Corrupt "attempt changed state under completion")
      else
        let sealed := seal s RESULT_MANIFEST_CONTEXT nonce manifest_envelope in
        m ← gets tbl_results;
        m' ← lift (insert_new id (mkResultRow task bundle_digest sealed now) m);
        _ ← modify (on_results (fun _ => m'));
        _ ← audit now "attempt.transition" (id +:+ ":succeeded");
        _ ← audit now "result.completed" bundle_digest;
        mret Completed
  | other => mret (NotRunnable other)
  end.

Definition result_manifest (s : Store) (id : string) : M (option (string * bytes)) :=
  o ← gets (fun d => (fun r => (re_bundle_digest r, re_manifest r)) <$> tbl_results d !! id);
  match o with
  | Some (dg, sealed) =>
      manifest ← lift (open_col s RESULT_MANIFEST_CONTEXT sealed);
      mret (Some (dg, manifest))
  | None => mret None
  end.

(** ** What each operation does *)

Lemma attempt_state_Ok id d o d' :
  attempt_state id d = Ok (o, d') ->
  d' = d /\ match o with
            | Some s => exists r, tbl_attempts d !! id = Some r /\ at_state r = Attempt.as_str s
            | None => tbl_attempts d !! id = None
            end.
Proof.
  unfold attempt_state. rewrite bind_gets. destruct (tbl_attempts d !! id) as [r|]; simpl.
  - destruct (Attempt.from_str (at_state r)) as [s|] eqn:E; [|done]. intros [= <- <-].
    apply Attempt.as_from_str in E. eauto.
  - by intros [= <- <-].
Qed.

Lemma known_state_Ok id d s d' :
  known_state id d = Ok (s, d') ->
  d' = d /\ exists r, tbl_attempts d !! id = Some r /\ at_state r = Attempt.as_str s.
Proof.
  unfold known_state. intros (o & d1 & [-> Ho]%attempt_state_Ok & H)%bind_Ok.
  destruct o; [|done]. unfold_M. simplify_eq. eauto.
Qed.

Lemma known_state_run id d r s :
  tbl_attempts d !! id = Some r -> at_state r = Attempt.as_str s -> known_state id d = Ok (s, d).
Proof.
  intros Hr Hs. unfold known_state, attempt_state. unfold_M. rewrite Hr. simpl.
  by rewrite Hs, Attempt.from_as_str.
Qed.

Lemma audit_frame ts ev de d n d' :
  audit ts ev de d = Ok (n, d') -> attempts_db d' = attempts_db d /\
    length (audit_log d') = S (length (audit_log d)).
Proof.
  unfold audit. destruct (Audit.append _ _ _ _) as [k l] eqn:E. intros [= <- <-]. split; [done|].
  simpl. unfold Audit.append in E. injection E as _ <-. rewrite length_app. simpl. lia.
Qed.

Lemma cas_hit (m : gmap string AttemptRow) id r s new :
  m !! id = Some r -> at_state r = Attempt.as_str s ->
  cas_state id (Attempt.as_str s) new m = (<[id := set_state new r]> m, 1).
Proof. exact (cas_state_hit id r m (Attempt.as_str s) new). Qed.

(** The row a claim inserts. *)
Definition claimed_row (o : WorkOrder) (dg : string) (now : Z) : AttemptRow :=
  mkAttemptRow (nonce o) (task_id o) dg "claimed" (as_i64 (max_cost_microusd (budgets o)))
    (as_i64 (max_bytes (budgets o))) (as_i64 (max_operations (budgets o))) now (deadline o).

Lemma claim_effect o now d out d' :
  claim_attempt o now d = Ok (out, d') ->
  match out with
  | ClaimedNow =>
      tbl_attempts d !! work_order_id o = None /\
      (forall k r, tbl_attempts d !! k = Some r -> at_nonce r <> nonce o) /\
      exists dg, WorkOrder.digest o = Ok dg /\
        attempts_db d' = upd_attempts (insert (work_order_id o) (claimed_row o dg now)) (attempts_db d)
  | AlreadyClaimed s =>
      d' = d /\ exists r, tbl_attempts d !! work_order_id o = Some r /\ at_state r = Attempt.as_str s
  | NonceReused =>
      d' = d /\ tbl_attempts d !! work_order_id o = None /\
      exists k r, tbl_attempts d !! k = Some r /\ at_nonce r = nonce o
  end.
Proof.
  unfold claim_attempt. intros (p & d1 & [-> Hp]%attempt_state_Ok & H)%bind_Ok.
  destruct p as [st|]; [unfold_M; by simplify_eq|]. rewrite bind_gets in H.
  destruct (first_row _ _) as [[k r]|] eqn:Ef.
  - unfold_M. simplify_eq. apply first_row_Some in Ef as [? ?%bool_decide_eq_true].
    split_and!; [done|done|]. by exists k, r.
  - rewrite first_row_None in Ef.
    apply bind_Ok in H as (dg & d2 & Hdg & H). unfold lift in Hdg.
    destruct (WorkOrder.digest o) as [dg'|] eqn:Ed; [|done]. simplify_eq.
    rewrite bind_gets in H. unfold insert_new in H. rewrite Hp in H.
    apply bind_Ok in H as (m' & d3 & Hm & H). unfold lift in Hm. simplify_eq. rewrite bind_modify in H.
    apply bind_Ok in H as (n & d4 & [Ha _]%audit_frame & H). unfold_M. simplify_eq.
    split_and!; [done| |exists dg; by rewrite Ha].
    intros k r Hk. specialize (Ef _ _ Hk). by apply bool_decide_eq_false in Ef.
Qed.

Lemma advance_effect id e now d out d' :
  advance_attempt id e now d = Ok (out, d') ->
  exists r s, tbl_attempts d !! id = Some r /\ at_state r = Attempt.as_str s /\
    Attempt.next s e = out /\
    match out with
    | Ok s' => attempts_db d' = upd_attempts (insert id (set_state (Attempt.as_str s') r)) (attempts_db d)
    | Err _ => d' = d
    end.
Proof.
  unfold advance_attempt. intros (s & d1 & (-> & r & Hr & Hs)%known_state_Ok & H)%bind_Ok.
  exists r, s. split_and!; [done|done|..];
    (destruct (Attempt.next s e) as [s'|err]; [|unfold_M; by simplify_eq]);
    rewrite bind_gets, bind_modify, (cas_hit _ _ _ _ _ Hr Hs), decide_False in H by (by intros []);
    apply bind_Ok in H as (n & d4 & [Ha _]%audit_frame & H); unfold_M; simplify_eq; [done|].
  rewrite Ha. simpl. unfold upd_attempts. fold (tbl_attempts d). by rewrite (cas_hit _ _ _ _ _ Hr Hs).
Qed.

Lemma resolve_each_effect ids now d u d' :
  resolve_each ids now d = Ok (u, d') ->
  (forall k, tbl_attempts d' !! k =
     (fun r => if decide (k ∈ ids) then set_state "ambiguous" r else r) <$> tbl_attempts d !! k) /\
  tbl_orders d' = tbl_orders d /\ tbl_results d' = tbl_results d /\
  length (audit_log d') = length ids + length (audit_log d).
Proof.
  revert d. induction ids as [|id ids IH]; intros d.
  - simpl. unfold_M. intros [= _ <-]. split_and!; [|done..]. intros k.
    destruct (tbl_attempts d !! k); [|done]. simpl. done.
  - cbn [resolve_each]. rewrite bind_modify. intros (n & d2 & Ha & H)%bind_Ok.
    apply audit_frame in Ha as [Ha Hl]. apply IH in H as (Hk & Ho & Hr & Hn).
    unfold tbl_orders, tbl_results in *. rewrite Ho, Hr, Hn, Hl, Ha. split_and!; [|done|done|simpl; lia].
    intros k. rewrite Hk. unfold tbl_attempts in *. rewrite Ha. simpl.
    destruct (decide (k = id)) as [->|Hne].
    + rewrite lookup_alter_eq. destruct (attempts (attempts_db d) !! id); [|done]. simpl.
      rewrite (decide_True (P := id ∈ id :: ids)) by left. by case_decide.
    + rewrite lookup_alter_ne by done. destruct (attempts (attempts_db d) !! k); [|done]. simpl.
      do 2 case_decide; set_solver.
Qed.

Lemma resolve_run now d :
  exists d', resolve_crashed_attempts now d = Ok (count_where in_flight (tbl_attempts d), d') /\
    tbl_attempts d' = update_where in_flight (set_state "ambiguous") (tbl_attempts d) /\
    tbl_orders d' = tbl_orders d /\ tbl_results d' = tbl_results d /\
    length (audit_log d') = count_where in_flight (tbl_attempts d) + length (audit_log d).
Proof.
  assert (forall ids d, exists d', resolve_each ids now d = Ok ((), d')) as Hrun.
  { intros ids. induction ids as [|id ids IH]; intros d0; [by eexists|]. cbn [resolve_each].
    rewrite bind_modify. run_audit. apply IH. }
  unfold resolve_crashed_attempts. rewrite bind_gets.
  destruct (Hrun (fst <$> rows_where in_flight (tbl_attempts d)) d) as [d' Hd].
  rewrite (bind_run _ _ _ _ _ Hd). exists d'. unfold count_where. rewrite length_fmap. split; [done|].
  apply resolve_each_effect in Hd as (Hk & Ho & Hr & Hn). rewrite length_fmap in Hn.
  split_and!; [|done..]. apply map_eq. intros k. rewrite Hk, lookup_update_where.
  destruct (tbl_attempts d !! k) as [r|] eqn:E; [|done]. simpl. f_equal.
  assert (k ∈ fst <$> rows_where in_flight (tbl_attempts d) <-> in_flight k r = true) as Hin.
  { rewrite list_elem_of_fmap. split.
    - intros ([k' r'] & -> & [Hk' Hp]%elem_of_rows_where). simpl in *. congruence.
    - intros Hp. exists (k, r). split; [done|]. by apply elem_of_rows_where. }
  case_decide as Hc; [apply Hin in Hc; by rewrite Hc|].
  destruct (in_flight k r) eqn:Ef; [|done]. exfalso. by apply Hc, Hin.
Qed.

Lemma complete_effect s n id task bd man now d out d' :
  complete_attempt_with_result s n id task bd man now d = Ok (out, d') ->
  exists r st, tbl_attempts d !! id = Some r /\ at_state r = Attempt.as_str st /\
    match out with
    | Completed => (st = Claimed \/ st = Running) /\ tbl_results d !! id = None /\
        attempts_db d' = upd_results (insert id (mkResultRow task bd (seal s RESULT_MANIFEST_CONTEXT n man) now))
          (upd_attempts (insert id (set_state "succeeded" r)) (attempts_db d))
    | AlreadyCompleted => st = Succeeded /\ d' = d
    | NotRunnable st' => st' = st /\ st <> Claimed /\ st <> Running /\ st <> Succeeded /\ d' = d
    end.
Proof.
  unfold complete_attempt_with_result.
  intros (st & d1 & (-> & r & Hr & Hs)%known_state_Ok & H)%bind_Ok. exists r, st.
  split; [done|]. split; [done|].
  destruct st; try (unfold_M; simplify_eq; done);
    rewrite bind_gets, bind_modify, (cas_hit _ _ _ _ _ Hr Hs), decide_False in H by (by intros []);
    rewrite bind_gets in H; apply bind_Ok in H as (m' & d3 & Hm & H); unfold lift, insert_new in Hm;
    (match type of Hm with context[match ?t !! id with _ => _ end] =>
       change (t !! id) with (tbl_results d !! id) in Hm end);
    (destruct (tbl_results d !! id) eqn:Er; simplify_eq);
    rewrite bind_modify in H;
    apply bind_Ok in H as (k & d4 & [Ha _]%audit_frame & H);
    apply bind_Ok in H as (k' & d5 & [Ha' _]%audit_frame & H); unfold_M; simplify_eq;
    (split_and!; [by (left + right)|done|]); rewrite Ha', Ha; simpl;
    unfold upd_attempts, upd_results; simpl; fold (tbl_attempts d);
    by rewrite (cas_hit _ _ _ _ _ Hr Hs).
Qed.

Lemma put_order_effect s n i now d u d' :
  put_work_order s n i now d = Ok (u, d') ->
  attempts_db d' = upd_work_orders (fun m => (insert_or_ignore (work_order_id (order i))
    (mkWorkOrderRow (task_id (order i)) (i_digest i) (seal s WORK_ORDER_CONTEXT n (encode i)) now) m).1)
    (attempts_db d).
Proof.
  unfold put_work_order. cbn zeta. rewrite bind_gets, bind_modify. case_decide as Hi.
  - intros (k & d2 & [Ha _]%audit_frame & H)%bind_Ok. unfold_M. simplify_eq. by rewrite Ha.
  - unfold_M. intros [= _ <-]. done.
Qed.

(** ** The attempt invariant *)

Record attempts_inv (a : AttemptsDb) : Prop := {
  (** Every attempt is in a state the machine reaches from a claim. *)
  ai_read : forall id r, attempts a !! id = Some r ->
    exists evs s, run Claimed evs = Ok s /\ at_state r = Attempt.as_str s;
  (** A nonce was consumed by one work order. *)
  ai_nonce : forall i j r r', attempts a !! i = Some r -> attempts a !! j = Some r' ->
    at_nonce r = at_nonce r' -> i = j;
  (** A stored result belongs to a succeeded attempt. *)
  ai_result : forall id, is_Some (results a !! id) ->
    exists r, attempts a !! id = Some r /\ at_state r = "succeeded";
}.

Inductive attempts_step (s : Store) : Db -> Db -> Prop :=
| as_claim o now out d d' : claim_attempt o now d = Ok (out, d') -> attempts_step s d d'
| as_advance id e now out d d' : advance_attempt id e now d = Ok (out, d') -> attempts_step s d d'
| as_resolve now n d d' : resolve_crashed_attempts now d = Ok (n, d') -> attempts_step s d d'
| as_order n i now u d d' : put_work_order s n i now d = Ok (u, d') -> attempts_step s d d'
| as_complete n id task bd man now out d d' :
    complete_attempt_with_result s n id task bd man now d = Ok (out, d') -> attempts_step s d d'.

Lemma as_str_eq s s' : Attempt.as_str s = Attempt.as_str s' -> s = s'.
Proof. intros H%(f_equal Attempt.from_str). rewrite !Attempt.from_as_str in H. congruence. Qed.

Lemma inv_move a id r s evs s' :
  attempts_inv a -> attempts a !! id = Some r -> at_state r = Attempt.as_str s ->
  run s evs = Ok s' -> evs <> [] ->
  attempts_inv (upd_attempts (insert id (set_state (Attempt.as_str s') r)) a).
Proof.
  intros [Hr Hn Hres] Hid Hs Hrun Hne. constructor; simpl.
  - intros k r'. rewrite lookup_insert_Some. intros [[<- <-]|[_ Hk]]; [|eauto].
    destruct (Hr _ _ Hid) as (e0 & s0 & H0 & Hs0). rewrite Hs in Hs0.
    apply as_str_eq in Hs0 as <-. exists (e0 ++ evs), s'.
    by rewrite (run_app _ _ _ _ H0).
  - intros i j r1 r2. rewrite !lookup_insert_Some.
    intros [[<- <-]|[? H1]] [[<- <-]|[? H2]] Heq; simpl in Heq; eauto.
  - intros k Hk. destruct (Hres _ Hk) as (r' & Hr' & Hs'). destruct (decide (id = k)) as [->|?].
    + exfalso. simplify_eq. rewrite Hs in Hs'. change "succeeded" with (Attempt.as_str Succeeded) in Hs'.
      apply as_str_eq in Hs' as ->.
      by apply run_terminal in Hrun.
    + rewrite lookup_insert_ne by done. eauto.
Qed.

Lemma claim_inv a o dg now :
  attempts_inv a -> attempts a !! work_order_id o = None ->
  (forall k r, attempts a !! k = Some r -> at_nonce r <> nonce o) ->
  attempts_inv (upd_attempts (insert (work_order_id o) (claimed_row o dg now)) a).
Proof.
  intros [Hr Hn Hres] Hid Hnew. constructor; simpl.
  - intros k r'. rewrite lookup_insert_Some. intros [[<- <-]|[_ Hk]]; [|eauto]. by exists [], Claimed.
  - intros i j r1 r2. rewrite !lookup_insert_Some.
    intros [[<- <-]|[? H1]] [[<- <-]|[? H2]] Heq; simpl in Heq; eauto; exfalso; naive_solver.
  - intros k Hk. destruct (Hres _ Hk) as (r' & Hr' & Hs'). rewrite lookup_insert_ne by congruence. eauto.
Qed.

Lemma in_flight_spec k r s :
  at_state r = Attempt.as_str s -> in_flight k r = true <-> s = Claimed \/ s = Running.
Proof. intros Hs. unfold in_flight. rewrite bool_decide_eq_true, Hs. destruct s; naive_solver. Qed.

Lemma resolve_inv a a' :
  attempts_inv a -> attempts a' = update_where in_flight (set_state "ambiguous") (attempts a) ->
  results a' = results a -> attempts_inv a'.
Proof.
  intros [Hr Hn Hres] Ha Hre. constructor; rewrite ?Ha, ?Hre.
  - intros k r'. rewrite lookup_update_where. destruct (attempts a !! k) as [r|] eqn:E; [|done]. simpl.
    destruct (Hr _ _ E) as (e0 & s0 & H0 & Hs0). intros [= <-].
    pose proof (in_flight_spec k r s0 Hs0) as Hf. destruct (in_flight k r); [|eauto].
    exists (e0 ++ [RecoverAfterCrash]), Ambiguous. rewrite (run_app _ _ _ _ H0). split; [|done].
    destruct Hf as [Hf _]. by destruct (Hf eq_refl) as [->| ->].
  - intros i j r1 r2. rewrite !lookup_update_where.
    destruct (attempts a !! i) eqn:Ei, (attempts a !! j) eqn:Ej; try done. simpl. intros [= <-] [= <-].
    intros Heq. eapply Hn; [done..|]. by destruct (in_flight _ _), (in_flight _ _).
  - intros k (r & Hk & Hs)%Hres. exists r. rewrite lookup_update_where, Hk. simpl.
    unfold in_flight. rewrite Hs. by rewrite bool_decide_eq_false_2 by naive_solver.
Qed.

Lemma attempts_step_inv s d d' :
  attempts_step s d d' -> attempts_inv (attempts_db d) -> attempts_inv (attempts_db d').
Proof.
  intros Hst Hinv. destruct Hst as [? ? out ? ? H|? ? ? out ? ? H|? ? ? ? H|? ? ? ? ? ? H|? ? ? ? ? ? out ? ? H].
  - apply claim_effect in H. destruct out.
    + destruct H as (? & ? & dg & _ & ->). by apply claim_inv.
    + by destruct H as [-> _].
    + by destruct H as [-> _].
  - apply advance_effect in H as (r & st & Hr & Hs & Hn & Hd). destruct out as [s'|]; [|by subst].
    rewrite Hd. apply (inv_move _ _ _ st [e] s'); [done..| |done]. simpl. unfold_result. by rewrite Hn.
  - destruct (resolve_run now d) as (d1 & H1 & Ha & _ & Hr & _). rewrite H1 in H. simplify_eq.
    by eapply resolve_inv.
  - apply put_order_effect in H as ->. destruct Hinv. by constructor.
  - apply complete_effect in H as (r & st & Hr & Hs & Hd). destruct out.
    + destruct Hd as (Hst & Hres & ->).
      assert (attempts_inv (upd_attempts (insert id (set_state "succeeded" r)) (attempts_db d))) as [? ? Hr'].
      { destruct Hst as [->| ->]; [apply (inv_move _ _ _ Claimed [Start; Succeed] Succeeded)|
          apply (inv_move _ _ _ Running [Succeed] Succeeded)]; done. }
      constructor; [done..|]. intros k. simpl. destruct (decide (k = id)) as [->|Hne].
      * intros _. rewrite lookup_insert_eq. by eexists.
      * rewrite (lookup_insert_ne (results _)) by done. apply Hr'.
    + by destruct Hd as [_ ->].
    + by destruct Hd as (_ & _ & _ & _ & ->).
Qed.

Lemma attempts_steps_inv s d d' :
  rtc (attempts_step s) d d' -> attempts_inv (attempts_db d) -> attempts_inv (attempts_db d').
Proof. induction 1; [done|]. intros. eauto using attempts_step_inv. Qed.

Lemma empty_attempts_inv : attempts_inv empty_attempts_db.
Proof. by constructor; simpl; intros *; rewrite ?lookup_empty; [..|intros []]. Qed.

Lemma inv_readable a : attempts_inv a -> readable (St := AttemptState) (attempts a).
Proof. intros [Hr _ _] k r Hk. destruct (Hr _ _ Hk) as (? & s & _ & Hs). by exists s. Qed.

Lemma attempt_move (m : gmap string AttemptRow) k r s evs s' :
  m !! k = Some r -> at_state r = Attempt.as_str s -> run s evs = Ok s' ->
  driven Claimed m (<[k := set_state (Attempt.as_str s') r]> m).
Proof. exact (driven_move (R := AttemptRow) Claimed m k r s evs s'). Qed.

(** One step moves every row along the machine. *)
Lemma attempts_step_driven s d d' :
  attempts_step s d d' -> attempts_inv (attempts_db d) ->
  driven Claimed (tbl_attempts d) (tbl_attempts d').
Proof.
  intros Hst Hinv. unfold tbl_attempts.
  destruct Hst as [? ? out ? ? H|? ? ? out ? ? H|? ? ? ? H|? ? ? ? ? ? H|? ? ? ? ? ? out ? ? H].
  - apply claim_effect in H. destruct out.
    + destruct H as (? & ? & dg & _ & ->). by apply driven_new.
    + destruct H as [-> _]. apply driven_refl.
    + destruct H as [-> _]. apply driven_refl.
  - apply advance_effect in H as (r & st & Hr & Hs & Hn & Hd).
    destruct out as [s'|]; [|subst; apply driven_refl]. rewrite Hd.
    apply (attempt_move _ id r st [e] s' Hr Hs). simpl. unfold_result. by rewrite Hn.
  - destruct (resolve_run now d) as (d1 & H1 & Ha & _ & Hr & _). rewrite H1 in H. simplify_eq.
    fold (tbl_attempts d') (tbl_attempts d). rewrite Ha. split.
    + intros k r st Hk Hs. rewrite lookup_update_where, Hk. simpl.
      pose proof (in_flight_spec k r st Hs) as Hf. destruct (in_flight k r).
      * eexists _, [RecoverAfterCrash], Ambiguous. split_and!; [done..| |done].
        destruct Hf as [Hf _]. by destruct (Hf eq_refl) as [->| ->].
      * eexists _, [], st. done.
    + intros k r' Hk Hn. by rewrite lookup_update_where, Hn in Hk.
  - apply put_order_effect in H as ->. apply driven_refl.
  - apply complete_effect in H as (r & st & Hr & Hs & Hd). destruct out.
    + destruct Hd as ([-> | ->] & _ & ->); simpl.
      * apply (attempt_move _ id r Claimed [Start; Succeed] Succeeded Hr Hs eq_refl).
      * apply (attempt_move _ id r Running [Succeed] Succeeded Hr Hs eq_refl).
    + destruct Hd as [_ ->]. apply driven_refl.
    + destruct Hd as (_ & _ & _ & _ & ->). apply driven_refl.
Qed.

Lemma attempts_steps_driven s d d' :
  rtc (attempts_step s) d d' -> attempts_inv (attempts_db d) ->
  driven Claimed (tbl_attempts d) (tbl_attempts d').
Proof.
  induction 1 as [|d d1 d2 H1 H2 IH]; intros Hinv; [apply driven_refl|].
  pose proof (attempts_step_inv _ _ _ H1 Hinv) as Hinv1.
  eapply driven_trans; [by apply inv_readable|by eapply attempts_step_driven|by apply IH].
Qed.

(** ** Theorems *)

Lemma attempt_state_run id d r st :
  tbl_attempts d !! id = Some r -> at_state r = Attempt.as_str st ->
  attempt_state id d = Ok (Some st, d).
Proof.
  intros Hr Hs. unfold attempt_state. rewrite bind_gets, Hr. simpl. by rewrite Hs, Attempt.from_as_str.
Qed.

(** The attempt table is sound. Whatever the work-order operations are interleaved
    with, two attempts never share a nonce, every attempt is in a state the machine
    reaches from a claim, and a stored result belongs to a succeeded attempt. *)
Theorem attempts_sound s d :
  rtc (attempts_step s) empty_db d ->
  (forall i j r r', tbl_attempts d !! i = Some r -> tbl_attempts d !! j = Some r' ->
     at_nonce r = at_nonce r' -> i = j) /\
  (forall id r, tbl_attempts d !! id = Some r ->
     exists evs st, run Claimed evs = Ok st /\ attempt_state id d = Ok (Some st, d)) /\
  (forall id, is_Some (tbl_results d !! id) -> attempt_state id d = Ok (Some Succeeded, d)).
Proof.
  intros Hst. apply attempts_steps_inv in Hst; [|apply empty_attempts_inv].
  destruct Hst as [Hr Hn Hres]. split_and!; [done| |].
  - intros id r Hk. destruct (Hr _ _ Hk) as (evs & st & Hrun & Hs). exists evs, st.
    split; [done|]. by eapply attempt_state_run.
  - intros id (r & Hk & Hs)%Hres. by eapply attempt_state_run.
Qed.

(** C3. A work order is claimed once. After a successful claim and any further
    operations, no claim with the same work-order id or with the same nonce
    succeeds: the same id is answered with the attempt's current state, the nonce
    under another id is refused as reuse, and nothing is written. *)
Theorem claim_one_shot s o now d d1 d2 o' now' :
  attempts_inv (attempts_db d) ->
  claim_attempt o now d = Ok (ClaimedNow, d1) ->
  rtc (attempts_step s) d1 d2 ->
  work_order_id o' = work_order_id o \/ nonce o' = nonce o ->
  exists out, claim_attempt o' now' d2 = Ok (out, d2) /\
    match tbl_attempts d2 !! work_order_id o' with
    | Some r => exists st, out = AlreadyClaimed st /\ at_state r = Attempt.as_str st
    | None => out = NonceReused
    end.
Proof.
  intros Hinv Hc Hst Hor. pose proof (attempts_step_inv _ _ _ (as_claim s _ _ _ _ _ Hc) Hinv) as Hinv1.
  pose proof (attempts_steps_inv _ _ _ Hst Hinv1) as Hinv2.
  destruct (attempts_steps_driven _ _ _ Hst Hinv1) as [Hdr _].
  apply claim_effect in Hc as (_ & _ & dg & _ & Hd).
  destruct (Hdr (work_order_id o) (claimed_row o dg now) Claimed) as (r' & _ & _ & Hk & Hf & _);
    [unfold tbl_attempts; rewrite Hd; apply lookup_insert_eq|done|].
  unfold claim_attempt. destruct (tbl_attempts d2 !! work_order_id o') as [r|] eqn:E.
  - destruct (inv_readable _ Hinv2 _ _ E) as [st Hst']. exists (AlreadyClaimed st). split; [|by exists st].
    by rewrite (bind_run _ _ _ _ _ (attempt_state_run _ _ _ _ E Hst')).
  - exists NonceReused. split; [|done]. unfold attempt_state.
    destruct Hor as [Heq|Hn]; [congruence|].
    assert (first_row (fun _ r => bool_decide (at_nonce r = nonce o')) (tbl_attempts d2) <> None) as Hnn.
    { rewrite first_row_None. intros Hall. specialize (Hall _ _ Hk).
      apply bool_decide_eq_false in Hall. apply Hall. rewrite Hn. by injection Hf. }
    unfold_M. rewrite E. cbn [fmap option_fmap option_map]. by destruct (first_row _ _).
Qed.

(** C25. The store runs the attempt machine. Between any two moments of a history no
    attempt disappears, its nonce, task, order digest, budgets and deadline are
    unchanged, and its state moved by a run of events the pure machine accepts;
    in particular a terminal state never changes. *)
Theorem attempts_refine_machine s d d' id r :
  rtc (attempts_step s) empty_db d -> rtc (attempts_step s) d d' ->
  tbl_attempts d !! id = Some r ->
  exists r' st evs st',
    tbl_attempts d' !! id = Some r' /\ fix_of r' = fix_of r /\
    at_state r = Attempt.as_str st /\ run st evs = Ok st' /\ at_state r' = Attempt.as_str st' /\
    (Attempt.is_terminal st = true -> st' = st).
Proof.
  intros H0 H1 Hr. apply attempts_steps_inv in H0; [|apply empty_attempts_inv].
  destruct (inv_readable _ H0 _ _ Hr) as [st Hs].
  destruct (attempts_steps_driven _ _ _ H1 H0) as [Hdr _].
  destruct (Hdr id r st Hr Hs) as (r' & evs & st' & Hk & Hf & Hrun & Hs').
  exists r', st, evs, st'. split_and!; [done..|]. intros Ht.
  pose proof (run_terminal _ _ _ Ht Hrun) as ->. simpl in Hrun. by simplify_eq.
Qed.

(** Recovery after a crash. Every attempt that was claimed or running becomes
    ambiguous, none is left in flight, every other attempt and every result is
    untouched, the count returned is the number resolved, each one is audited, and
    running the recovery again resolves nothing. *)
Theorem crash_resolution now now' d :
  exists d', resolve_crashed_attempts now d = Ok (count_where in_flight (tbl_attempts d), d') /\
    (forall id r, tbl_attempts d !! id = Some r ->
       tbl_attempts d' !! id = Some (if in_flight id r then set_state "ambiguous" r else r)) /\
    tbl_results d' = tbl_results d /\
    length (audit_log d') = count_where in_flight (tbl_attempts d) + length (audit_log d) /\
    exists d'', resolve_crashed_attempts now' d' = Ok (0, d'').
Proof.
  destruct (resolve_run now d) as (d' & Hd & Ha & _ & Hr & Hl). exists d'. split_and!; [done| |done|done|].
  - intros id r Hk. by rewrite Ha, lookup_update_where, Hk.
  - destruct (resolve_run now' d') as (d'' & Hd' & _). exists d''. rewrite Hd'. do 2 f_equal.
    apply count_where_zero. intros k v. rewrite Ha, lookup_update_where.
    destruct (tbl_attempts d !! k) as [r|]; [|done]. simpl. intros [= <-].
    by destruct (in_flight k r) eqn:E.
Qed.

Lemma results_step s d d' id r :
  attempts_step s d d' -> tbl_results d !! id = Some r -> tbl_results d' !! id = Some r.
Proof.
  intros Hst Hr. destruct Hst as [? ? out ? ? H|? ? ? out ? ? H|? ? ? ? H|? ? ? ? ? ? H|? ? ? ? ? ? out ? ? H].
  - apply claim_effect in H. destruct out; [|by destruct H as [-> _]..].
    destruct H as (_ & _ & dg & _ & Hd). unfold tbl_results. by rewrite Hd.
  - apply advance_effect in H as (r0 & st & _ & _ & _ & Hd). destruct out; [|by subst].
    unfold tbl_results. by rewrite Hd.
  - destruct (resolve_run now d) as (d1 & H1 & _ & _ & Hd & _). rewrite H1 in H. simplify_eq.
    by rewrite Hd.
  - apply put_order_effect in H. unfold tbl_results. by rewrite H.
  - apply complete_effect in H as (r0 & st & _ & _ & Hd). destruct out.
    + destruct Hd as (_ & Hn & Hd). unfold tbl_results. rewrite Hd. simpl.
      rewrite lookup_insert_ne; [done|congruence].
    + by destruct Hd as [_ ->].
    + by destruct Hd as (_ & _ & _ & _ & ->).
Qed.

Lemma results_steps s d d' id r :
  rtc (attempts_step s) d d' -> tbl_results d !! id = Some r -> tbl_results d' !! id = Some r.
Proof. induction 1; [done|]. intros. eauto using results_step. Qed.

(** Completion is atomic and final. Once an attempt was completed, then after any
    further operations the attempt reads as succeeded, the signed manifest and the
    bundle digest read back exactly as they were staged, and every re-submission
    is answered as already completed without writing anything. *)
Theorem completion_final s n id task bd man now d d1 d2 :
  attempts_inv (attempts_db d) ->
  length n = Envelope.NONCE_LEN -> (Z.of_nat (length man) <= aead_limit)%Z ->
  complete_attempt_with_result s n id task bd man now d = Ok (Completed, d1) ->
  rtc (attempts_step s) d1 d2 ->
  result_manifest s id d2 = Ok (Some (bd, man), d2) /\
  attempt_state id d2 = Ok (Some Succeeded, d2) /\
  forall n' task' bd' man' now',
    complete_attempt_with_result s n' id task' bd' man' now' d2 = Ok (AlreadyCompleted, d2).
Proof.
  intros Hinv Hn Hl Hc Hst.
  pose proof (attempts_step_inv _ _ _ (as_complete s _ _ _ _ _ _ _ _ _ Hc) Hinv) as Hinv1.
  pose proof (attempts_steps_inv _ _ _ Hst Hinv1) as Hinv2.
  apply complete_effect in Hc as (r & st & Hr & Hs & _ & Hres & Hd).
  assert (tbl_results d2 !! id = Some (mkResultRow task bd (seal s RESULT_MANIFEST_CONTEXT n man) now)) as Hrow.
  { apply (results_steps _ _ _ _ _ Hst). unfold tbl_results. rewrite Hd. apply lookup_insert_eq. }
  destruct (ai_result _ Hinv2 id) as (r2 & Hr2 & Hs2); [unfold tbl_results in Hrow; by rewrite Hrow|].
  split_and!.
  - unfold result_manifest. rewrite bind_gets, Hrow.
    cbn [fmap option_fmap option_map re_bundle_digest re_manifest]. unfold lift. unfold_M.
    by rewrite open_col_seal.
  - by apply (attempt_state_run id d2 r2 Succeeded).
  - intros. unfold complete_attempt_with_result.
    by rewrite (bind_run _ _ _ _ _ (known_state_run id d2 r2 Succeeded Hr2 Hs2)).
Qed.

(** Where completion and the machine part. A claimed attempt completes with a
    result although the machine refuses [Succeed] from [Claimed]; and an attempt
    driven to succeeded by the event alone has no result, and from then on
    completion never stores one. *)
Theorem completion_beside_machine s n id task bd man now d r :
  attempts_inv (attempts_db d) -> tbl_attempts d !! id = Some r ->
  (at_state r = "claimed" ->
     Attempt.next Claimed Succeed = Err (Invalid Claimed Succeed) /\
     exists d', complete_attempt_with_result s n id task bd man now d = Ok (Completed, d')) /\
  (at_state r = "running" ->
     exists d', advance_attempt id Succeed now d = Ok (Ok Succeeded, d') /\
       result_manifest s id d' = Ok (None, d') /\
       complete_attempt_with_result s n id task bd man now d' = Ok (AlreadyCompleted, d')).
Proof.
  intros Hinv Hr.
  assert (forall t, at_state r = t -> t <> "succeeded" -> tbl_results d !! id = None) as Hnores.
  { intros t Ht Hne. destruct (tbl_results d !! id) eqn:E; [|done].
    destruct (ai_result _ Hinv id) as (r' & Hr' & Hs'); [unfold tbl_results in E; by rewrite E|].
    unfold tbl_attempts in Hr. congruence. }
  split; intros Hs.
  - split; [done|]. specialize (Hnores _ Hs ltac:(done)). unfold complete_attempt_with_result.
    rewrite (bind_run _ _ _ _ _ (known_state_run id d r Claimed Hr Hs)).
    rewrite bind_gets, bind_modify, (cas_hit _ _ _ Claimed _ Hr Hs), decide_False by (by intros []).
    rewrite bind_gets. unfold insert_new. change (tbl_results (on_attempts ?f d)) with (tbl_results d).
    rewrite Hnores. unfold lift at 1. unfold mbind at 1, M_bind. rewrite bind_modify.
    repeat (run_audit).
    by eexists.
  - specialize (Hnores _ Hs ltac:(done)). unfold advance_attempt.
    rewrite (bind_run _ _ _ _ _ (known_state_run id d r Running Hr Hs)). cbn [Attempt.next Attempt.is_terminal].
    rewrite bind_gets, bind_modify, (cas_hit _ _ _ Running _ Hr Hs), decide_False by (by intros []).
    run_audit.
    eexists. split; [done|].
    match goal with |- result_manifest s id ?x = _ /\ _ =>
      assert (tbl_attempts x !! id = Some (set_state "succeeded" r)) as Hrow end.
    { unfold tbl_attempts. simpl. fold (tbl_attempts d). rewrite (cas_hit _ _ _ Running _ Hr Hs).
      apply lookup_insert_eq. }
    split.
    + unfold result_manifest. rewrite bind_gets.
      match goal with |- context[tbl_results ?x] => change (tbl_results x) with (tbl_results d) end.
      by rewrite Hnores.
    + unfold complete_attempt_with_result. rewrite (bind_run _ _ _ _ _ (known_state_run id
        _ (set_state "succeeded" r) Succeeded Hrow eq_refl)). done.
Qed.

(** An issued order is stored once and read back whole. The first order under an
    id is returned as it was issued, vector included, and re-issuing under the
    same id leaves it and the audit log alone. *)
Theorem work_order_stored_once s n i now d d1 i' n' now' v :
  length n = Envelope.NONCE_LEN -> (Z.of_nat (length (encode i)) <= aead_limit)%Z ->
  Capability.new (Capability.grants (capabilities (order i))) = Ok v ->
  tbl_orders d !! work_order_id (order i) = None ->
  put_work_order s n i now d = Ok ((), d1) ->
  work_order_id (order i') = work_order_id (order i) ->
  get_work_order s (work_order_id (order i)) d1 = Ok (Some i, d1) /\
  exists d2, put_work_order s n' i' now' d1 = Ok ((), d2) /\ tbl_orders d2 = tbl_orders d1 /\
    audit_log d2 = audit_log d1.
Proof.
  intros Hn Hl Hv Hnone Hp Hid. apply put_order_effect in Hp.
  assert (tbl_orders d1 !! work_order_id (order i) = Some (mkWorkOrderRow (task_id (order i)) (i_digest i)
    (seal s WORK_ORDER_CONTEXT n (encode i)) now)) as Hrow.
  { unfold tbl_orders. rewrite Hp. simpl. unfold insert_or_ignore. fold (tbl_orders d). rewrite Hnone.
    apply lookup_insert_eq. }
  split.
  - unfold get_work_order. rewrite bind_gets, Hrow.
    cbn [fmap option_fmap option_map wo_order_json]. unfold lift. unfold_M.
    rewrite open_col_seal by done. unfold parse_issued. unfold_M. by rewrite parse_json_encode, Hv.
  - unfold put_work_order. cbn zeta. rewrite bind_gets, bind_modify. unfold insert_or_ignore. rewrite Hid.
    rewrite Hrow. cbn [snd]. rewrite decide_False by done. eexists. split; [done|]. split; [|done].
    unfold tbl_orders. simpl. fold (tbl_orders d1). by rewrite Hrow.
Qed.
End attempts.

(** ** Witnesses *)

Section sample.
#[local] Existing Instances ToyHashes ToyAead ToyHex.
#[local] Instance sample_canon : Canon WorkOrder := ToyCanon WorkOrder.
#[local] Instance sample_codec : Codec IssuedWorkOrder := ToyCodec IssuedWorkOrder.

Definition sample_store : Store := mkStore (repeat "d"%char 32) (repeat "c"%char 32) Normal.
Definition sample_nonce : bytes := repeat "n"%char 24.
Definition sample_issued : IssuedWorkOrder := mkIssued (sample_order "w1" "n1") "dg" "mac".

Definition after {A} (m : M A) (d : Db) : Db := (exec m d).2.

Definition d_claimed : Db := after (claim_attempt (sample_order "w1" "n1") 5) empty_db.
Definition d_running : Db := after (advance_attempt "w1" Start 6) d_claimed.
Definition d_done : Db :=
  after (complete_attempt_with_result sample_store sample_nonce "w1" "task-1" "bd" (as_bytes "man") 7) d_running.

Lemma d_claimed_eq : claim_attempt (sample_order "w1" "n1") 5 empty_db = Ok (ClaimedNow, d_claimed).
Proof. vm_compute. reflexivity. Qed.

Lemma d_running_eq : advance_attempt "w1" Start 6 d_claimed = Ok (Ok Running, d_running).
Proof. vm_compute. reflexivity. Qed.

Lemma d_done_eq :
  complete_attempt_with_result sample_store sample_nonce "w1" "task-1" "bd" (as_bytes "man") 7 d_running
    = Ok (Completed, d_done).
Proof. vm_compute. reflexivity. Qed.

Lemma d_claimed_reached : rtc (attempts_step sample_store) empty_db d_claimed.
Proof. eapply rtc_once, as_claim, d_claimed_eq. Qed.

Lemma d_running_reached : rtc (attempts_step sample_store) d_claimed d_running.
Proof. eapply rtc_once, as_advance, d_running_eq. Qed.

Lemma d_done_reached : rtc (attempts_step sample_store) d_running d_done.
Proof. eapply rtc_once, as_complete, d_done_eq. Qed.

Lemma sample_attempts_inv d : rtc (attempts_step sample_store) empty_db d -> attempts_inv (attempts_db d).
Proof. intros H. apply (attempts_steps_inv _ _ _ H), empty_attempts_inv. Qed.

Lemma d_running_from_empty : rtc (attempts_step sample_store) empty_db d_running.
Proof. etrans; [apply d_claimed_reached|apply d_running_reached]. Qed.

Example attempts_sound_witness :
  forall id, is_Some (tbl_results d_done !! id) -> attempt_state id d_done = Ok (Some Succeeded, d_done).
Proof.
  apply (attempts_sound sample_store d_done).
  etrans; [apply d_running_from_empty|apply d_done_reached].
Defined.

Example claim_one_shot_witness :
  claim_attempt (sample_order "w2" "n1") 9 d_running = Ok (NonceReused, d_running).
Proof.
  destruct (claim_one_shot sample_store (sample_order "w1" "n1") 5 empty_db d_claimed d_running
    (sample_order "w2" "n1") 9) as (out & Hc & Ho).
  - apply empty_attempts_inv.
  - apply d_claimed_eq.
  - apply d_running_reached.
  - by right.
  - rewrite Hc. do 2 f_equal. exact Ho.
Defined.

Example attempts_refine_machine_witness :
  exists r' st', tbl_attempts d_done !! "w1" = Some r' /\ at_state r' = Attempt.as_str st'.
Proof.
  destruct (attempts_refine_machine sample_store d_running d_done "w1"
    (set_state "running" (claimed_row (sample_order "w1" "n1")
       (match WorkOrder.digest (sample_order "w1" "n1") with Ok dg => dg | Err _ => "" end) 5)))
    as (r' & st & evs & st' & Hk & _ & _ & _ & Hs & _).
  - apply d_running_from_empty.
  - apply d_done_reached.
  - vm_compute. reflexivity.
  - by exists r', st'.
Defined.

Example completion_final_witness : attempt_state "w1" d_done = Ok (Some Succeeded, d_done).
Proof.
  apply (completion_final sample_store sample_nonce "w1" "task-1" "bd" (as_bytes "man") 7 d_running
    d_done d_done).
  - apply sample_attempts_inv, d_running_from_empty.
  - reflexivity.
  - vm_compute. discriminate.
  - apply d_done_eq.
  - apply rtc_refl.
Defined.

Example completion_beside_machine_witness :
  exists d', complete_attempt_with_result sample_store sample_nonce "w1" "task-1" "bd" (as_bytes "man") 7
    d_claimed = Ok (Completed, d').
Proof.
  apply (completion_beside_machine sample_store sample_nonce "w1" "task-1" "bd" (as_bytes "man") 7 d_claimed
    (claimed_row (sample_order "w1" "n1")
       (match WorkOrder.digest (sample_order "w1" "n1") with Ok dg => dg | Err _ => "" end) 5)).
  - apply sample_attempts_inv, d_claimed_reached.
  - vm_compute. reflexivity.
  - reflexivity.
Defined.

Example work_order_stored_once_witness :
  let d1 := after (put_work_order sample_store sample_nonce sample_issued 5) empty_db in
  get_work_order sample_store "w1" d1 = Ok (Some sample_issued, d1).
Proof.
  apply (work_order_stored_once sample_store sample_nonce sample_issued 5 empty_db
    (after (put_work_order sample_store sample_nonce sample_issued 5) empty_db) sample_issued [] 6
    (capabilities (order sample_issued))).
  - reflexivity.
  - vm_compute. discriminate.
  - vm_compute. reflexivity.
  - reflexivity.
  - vm_compute. reflexivity.
  - reflexivity.
Defined.
End sample.
End StoreAttempts.
