(* ===== verification/StoreRequester.v ===== *)
(** The requester side and the task payloads (akson-store/src/lib.rs
    [put_sent_request], [put_outcome], [record_outcome_with_outputs],
    [put_task_input], [put_task_output] and their readers): what was sent, what
    came back, and the signed disposition that commits with the bytes it covers. *)
From S2P Require Import Prelude Crypto Envelope AuditLog Contract Db StoreContracts.
Import StoreContracts (collect, collect_Ok).

Module StoreRequester.

Definition OUTCOME_CONTEXT : string := "outcome.signed".
Definition TASK_INPUT_CONTEXT : string := "task.input".
Definition TASK_OUTPUT_CONTEXT : string := "task.output".

Record SentRequest := mkSentRequest {
  sr_contract_digest : string;
  sr_task_id : string;
  sr_context_id : string;
  sr_performer_root : string;
  sr_contract_id : string;
  sr_performer_agent : string;
  sr_performer_issuer : string;
  sr_message_id : string;
}.

Record OutcomeSummary := mkOutcomeSummary {
  os_task_id : string;
  os_contract_digest : string;
  os_bundle_digest : string;
  os_state : string;
  os_outcome_digest : string;
}.

Record TaskInput := mkTaskInput {
  input_id : string;
  i_ordinal : Z;
  i_media_type : string;
  i_byte_length : Z;
  i_sha256 : string;
  i_payload : bytes;
}.

(** [TaskOutput] and [NewTaskOutput]: the same fields, owned and borrowed. *)
Record TaskOutput := mkTaskOutput {
  artifact_id : string;
  o_ordinal : Z;
  o_role : string;
  o_media_type : string;
  o_byte_length : Z;
  o_sha256 : string;
  o_payload : bytes;
}.

Inductive OutcomeWrite :=
| Recorded
| AlreadyRecorded (outcome_digest : string).

Definition tbl_sent (d : Db) := sent_requests (requester_db d).
Definition tbl_outcomes (d : Db) := outcomes (requester_db d).
Definition tbl_inputs (d : Db) := task_inputs (requester_db d).
Definition tbl_outputs (d : Db) := task_outputs (requester_db d).
Definition on_sent f := upd_requester_db (upd_sent_requests f).
Definition on_outcomes f := upd_requester_db (upd_outcomes f).
Definition on_inputs f := upd_requester_db (upd_task_inputs f).
Definition on_outputs f := upd_requester_db (upd_task_outputs f).

(** [ORDER BY] an integer column; rows that tie come in no particular order. *)
Definition column_le {A} (f : A -> Z) (a b : A) : Prop := (f a <= f b)%Z.

#[global] Instance column_le_dec {A} (f : A -> Z) : RelDecision (column_le f).
Proof. intros a b. unfold column_le. apply _. Defined.

#[global] Instance column_le_total {A} (f : A -> Z) : Total (column_le f).
Proof. intros a b. unfold column_le. lia. Qed.

Definition order_by {A} (f : A -> Z) : list A -> list A := merge_sort (column_le f).

Section requester.
Context {HS : Hashes} {AE : Aead}.

Definition put_sent_request (req : SentRequest) (now : Z) : M () :=
  let row := mkSentRow (sr_task_id req) (sr_context_id req) (sr_contract_id req)
               (sr_performer_agent req) (sr_performer_issuer req) (sr_message_id req)
               (sr_performer_root req) now in
  inserted ← gets (fun d => (insert_or_ignore (sr_contract_digest req) row (tbl_sent d)).2);
  _ ← modify (on_sent (fun m => (insert_or_ignore (sr_contract_digest req) row m).1));
  if decide (inserted = 1) then
    _ ← audit now "request.sent" (sr_contract_digest req);
    mret ()
  else mret ().

Definition sent_from_row (dg : string) (r : SentRow) : SentRequest :=
  mkSentRequest dg (se_task_id r) (se_context_id r) (se_performer_root r) (se_contract_id r)
    (se_performer_agent r) (se_performer_issuer r) (se_message_id r).

Definition get_sent_request (dg : string) : M (option SentRequest) :=
  gets (fun d => sent_from_row dg <$> tbl_sent d !! dg).

Definition list_sent_requests : M (list SentRequest) :=
  gets (fun d => (fun kv => sent_from_row kv.1 kv.2) <$>
    order_by (fun kv => se_requested_at kv.2) (map_to_list (tbl_sent d))).

Definition put_outcome (s : Store) (nonce : bytes) (contract_digest task_id bundle_digest
  outcome_digest state : string) (outcome_envelope : bytes) (signed_at : string) (now : Z) : M () :=
  let sealed := seal s OUTCOME_CONTEXT nonce outcome_envelope in
  let row := mkOutcomeRow task_id bundle_digest outcome_digest state sealed signed_at now in
  inserted ← gets (fun d => (insert_or_ignore contract_digest row (tbl_outcomes d)).2);
  _ ← modify (on_outcomes (fun m => (insert_or_ignore contract_digest row m).1));
  if decide (inserted = 1) then
    _ ← audit now "outcome.signed" outcome_digest;
    mret ()
  else mret ().

Definition get_outcome (s : Store) (contract_digest : string) : M (option (string * bytes)) :=
  o ← gets (fun d => (fun r => (ou_outcome_digest r, ou_outcome r)) <$> tbl_outcomes d !! contract_digest);
  match o with
  | Some (dg, sealed) =>
      envelope ← lift (open_col s OUTCOME_CONTEXT sealed);
      mret (Some (dg, envelope))
  | None => mret None
  end.

Definition list_outcomes : M (list OutcomeSummary) :=
  gets (fun d => (fun kv => mkOutcomeSummary (ou_task_id kv.2) kv.1 (ou_bundle_digest kv.2)
                              (ou_state kv.2) (ou_outcome_digest kv.2)) <$>
    order_by (fun kv => ou_recorded_at kv.2) (map_to_list (tbl_outcomes d))).

(** ** Task payloads *)

Definition put_task_input (s : Store) (nonce : bytes) (task : string) (i : TaskInput) (now : Z) : M () :=
  let row := mkTaskInputRow (i_ordinal i) (i_media_type i) (i_byte_length i) (i_sha256 i)
               (seal s TASK_INPUT_CONTEXT nonce (i_payload i)) in
  _ ← modify (on_inputs (fun m => (insert_or_ignore (task, input_id i) row m).1));
  _ ← audit now "task.input_stored" task;
  mret ().

Definition open_input (s : Store) (kv : string * string * TaskInputRow) : result StoreError TaskInput :=
  p ← open_col s TASK_INPUT_CONTEXT (ti_payload kv.2);
  Ok (mkTaskInput kv.1.2 (ti_ordinal kv.2) (ti_media_type kv.2) (ti_byte_length kv.2)
                  (ti_sha256 kv.2) p).

Definition list_task_inputs (s : Store) (task : string) : M (list TaskInput) :=
  rows ← gets (fun d => order_by (fun kv => ti_ordinal kv.2)
                 (rows_where (fun k _ => bool_decide (k.1 = task)) (tbl_inputs d)));
  lift (collect (open_input s) rows).

Definition output_row (s : Store) (nonce : bytes) (o : TaskOutput) : TaskOutputRow :=
  mkTaskOutputRow (o_ordinal o) (o_role o) (o_media_type o) (o_byte_length o) (o_sha256 o)
    (seal s TASK_OUTPUT_CONTEXT nonce (o_payload o)).

Definition put_task_output (s : Store) (nonce : bytes) (task : string) (o : TaskOutput) (now : Z) : M () :=
  _ ← modify (on_outputs (fun m => (insert_or_ignore (task, artifact_id o) (output_row s nonce o) m).1));
  _ ← audit now "task.output_stored" task;
  mret ().

Definition open_output (s : Store) (kv : string * string * TaskOutputRow) : result StoreError TaskOutput :=
  p ← open_col s TASK_OUTPUT_CONTEXT (to_payload kv.2);
  Ok (mkTaskOutput kv.1.2 (to_ordinal kv.2) (to_role kv.2) (to_media_type kv.2) (to_byte_length kv.2)
                   (to_sha256 kv.2) p).

Definition list_task_outputs (s : Store) (task : string) : M (list TaskOutput) :=
  rows ← gets (fun d => order_by (fun kv => to_ordinal kv.2)
                 (rows_where (fun k _ => bool_decide (k.1 = task)) (tbl_outputs d)));
  lift (collect (open_output s) rows).

(** ** The disposition and its outputs *)

(** The loop of strict insertions; each output comes with the nonce of its seal. *)
Fixpoint insert_outputs (s : Store) (task : string) (outs : list (bytes * TaskOutput)) : M () :=
  match outs with
  | [] => mret ()
  | (nonce, o) :: outs =>
      m ← gets tbl_outputs;
      m' ← lift (insert_new (task, artifact_id o) (output_row s nonce o) m);
      _ ← modify (on_outputs (fun _ => m'));
      insert_outputs s task outs
  end.

Definition record_outcome_with_outputs (s : Store) (nonce : bytes) (contract_digest task_id
  bundle_digest outcome_digest state : string) (outcome_envelope : bytes)
  (outputs : list (bytes * TaskOutput)) (signed_at : string) (now : Z) : M OutcomeWrite :=
  existing ← gets (fun d => ou_outcome_digest <$> tbl_outcomes d !! contract_digest);
  match existing with
  | Some dg => mret (AlreadyRecorded dg)
  | None =>
      _ ← insert_outputs s task_id outputs;
      let sealed_outcome := seal s OUTCOME_CONTEXT nonce outcome_envelope in
      m ← gets tbl_outcomes;
      m' ← lift (insert_new contract_digest
             (mkOutcomeRow task_id bundle_digest outcome_digest state sealed_outcome signed_at now) m);
      _ ← modify (on_outcomes (fun _ => m'));
      _ ← (if decide (outputs = []) then mret ()
           else _ ← audit now "task.output_stored" task_id; mret ());
      _ ← audit now "outcome.signed" outcome_digest;
      mret Recorded
  end.

(** ** The insertions *)

Definition output_ids (outs : list (bytes * TaskOutput)) : list string :=
  (fun no => artifact_id no.2) <$> outs.

(** What the strict insertions need. *)
Definition outputs_fit (task : string) (outs : list (bytes * TaskOutput)) (d : Db) : Prop :=
  NoDup (output_ids outs) /\ forall id, id ∈ output_ids outs -> tbl_outputs d !! (task, id) = None.

(** The table after them. *)
Definition outputs_inserted (s : Store) (task : string) (outs : list (bytes * TaskOutput))
  (m m' : gmap (string * string) TaskOutputRow) : Prop :=
  (forall n o, (n, o) ∈ outs -> m' !! (task, artifact_id o) = Some (output_row s n o)) /\
  (forall k, (k.1 <> task \/ k.2 ∉ output_ids outs) -> m' !! k = m !! k).

Lemma insert_outputs_ok s task outs d :
  outputs_fit task outs d ->
  exists m', insert_outputs s task outs d = Ok ((), on_outputs (fun _ => m') d) /\
    outputs_inserted s task outs (tbl_outputs d) m'.
Proof.
  revert d. induction outs as [|[n o] outs IH]; intros d [Hnd Hfree].
  - exists (tbl_outputs d). split; [by destruct d as [? ? ? ? ? ? [] ? ?]|].
    split; [intros n o Hin; by apply not_elem_of_nil in Hin|done].
  - cbn [output_ids fmap list_fmap] in Hnd. apply NoDup_cons in Hnd as [Hnew Hnd].
    cbn [insert_outputs]. rewrite bind_gets. unfold insert_new.
    rewrite Hfree by left. unfold lift at 1. unfold mbind at 1, M_bind at 1. rewrite bind_modify.
    destruct (IH (on_outputs (fun _ => <[(task, artifact_id o) := output_row s n o]> (tbl_outputs d)) d))
      as (m' & Hm & Hin & Hout).
    { split; [done|]. intros id Hid. change (tbl_outputs (on_outputs ?f d)) with (f (tbl_outputs d)). cbv beta.
      rewrite lookup_insert_ne by (intros [= <-]; done). apply Hfree. by right. }
    change (tbl_outputs (on_outputs ?f d)) with (f (tbl_outputs d)) in Hout. cbv beta in Hout.
    exists m'. split; [exact Hm|]. split.
    + intros n' o' [[= -> ->]|Hin']%elem_of_cons; [|by apply Hin].
      rewrite Hout by (right; done). apply lookup_insert_eq.
    + intros k Hk. cbn [output_ids fmap list_fmap] in Hk. rewrite Hout by set_solver.
      apply lookup_insert_ne. intros <-. set_solver.
Qed.

Lemma insert_outputs_fail s task outs d :
  ~ outputs_fit task outs d -> insert_outputs s task outs d = Err (DbError Constraint).
Proof.
  revert d. induction outs as [|[n o] outs IH]; intros d Hno.
  - exfalso. apply Hno. split; [constructor|]. intros id Hid. by apply not_elem_of_nil in Hid.
  - cbn [insert_outputs]. rewrite bind_gets. unfold insert_new.
    destruct (tbl_outputs d !! (task, artifact_id o)) eqn:E; [done|].
    unfold lift at 1. unfold mbind at 1, M_bind at 1. rewrite bind_modify. apply IH.
    intros [Hnd Hfree]. change (tbl_outputs (on_outputs ?f d)) with (f (tbl_outputs d)) in Hfree. cbv beta in Hfree.
    apply Hno. split.
    + apply NoDup_cons. split; [|done]. intros Hin. apply Hfree in Hin.
      by rewrite lookup_insert_eq in Hin.
    + intros id [->|Hin]%elem_of_cons; [done|]. specialize (Hfree _ Hin).
      by apply lookup_insert_None in Hfree as [? _].
Qed.

#[global] Instance outputs_fit_dec task outs d : Decision (outputs_fit task outs d).
Proof.
  destruct (decide (NoDup (output_ids outs) /\
    Forall (fun id => tbl_outputs d !! (task, id) = None) (output_ids outs))) as [H|H];
    [left|right]; unfold outputs_fit; by rewrite <- Forall_forall.
Defined.

(** The row a disposition writes. *)
Definition outcome_row (s : Store) (nonce : bytes) (task bd od st : string) (env : bytes) (sa : string)
  (now : Z) : OutcomeRow :=
  mkOutcomeRow task bd od st (seal s OUTCOME_CONTEXT nonce env) sa now.

(** Every branch of the disposition: an existing one stands and its digest is
    returned; otherwise outputs and outcome commit together, or, when two outputs
    share an artifact id or one is already stored for the task, the whole call
    fails on a constraint and nothing is written. *)
Lemma record_run s n cd task bd od st env outs sa now d :
  match tbl_outcomes d !! cd with
  | Some r => record_outcome_with_outputs s n cd task bd od st env outs sa now d =
                Ok (AlreadyRecorded (ou_outcome_digest r), d)
  | None =>
      if decide (outputs_fit task outs d) then
        exists d' m', record_outcome_with_outputs s n cd task bd od st env outs sa now d = Ok (Recorded, d') /\
          requester_db d' = mkRequesterDb (tbl_sent d)
            (<[cd := outcome_row s n task bd od st env sa now]> (tbl_outcomes d)) (tbl_inputs d) m' /\
          outputs_inserted s task outs (tbl_outputs d) m'
      else record_outcome_with_outputs s n cd task bd od st env outs sa now d = Err (DbError Constraint)
  end.
Proof.
  unfold record_outcome_with_outputs. rewrite bind_gets.
  destruct (tbl_outcomes d !! cd) as [r|] eqn:E; [done|]. simpl.
  destruct (decide (outputs_fit task outs d)) as [Hf|Hf].
  - destruct (insert_outputs_ok s task outs d Hf) as (m' & Hm & Hin).
    rewrite (bind_run _ _ _ _ _ Hm), bind_gets. unfold insert_new.
    change (tbl_outcomes (on_outputs ?f d)) with (tbl_outcomes d). rewrite E.
    unfold lift. unfold mbind at 1, M_bind at 1. rewrite bind_modify.
    assert (forall d0, exists log, (if decide (outs = []) then mret () else
      _ ← audit now "task.output_stored" task; mret ()) d0 = Ok ((), upd_audit_log (fun _ => log) d0)) as Hau.
    { intros d0. case_decide; [exists (audit_log d0); by destruct d0|]. run_audit. by eexists. }
    match goal with |- context[(_ ≫= _) ?y] => destruct (Hau y) as (log & Hl) end.
    rewrite (bind_run _ _ _ _ _ Hl).
    run_audit. eexists _, m'. split; [done|]. split; [|done]. done.
  - unfold mbind at 1, M_bind. by rewrite insert_outputs_fail.
Qed.

(** ** Histories *)

Inductive requester_step (s : Store) : Db -> Db -> Prop :=
| rs_sent req now u d d' : put_sent_request req now d = Ok (u, d') -> requester_step s d d'
| rs_outcome n cd task bd od st env sa now u d d' :
    put_outcome s n cd task bd od st env sa now d = Ok (u, d') -> requester_step s d d'
| rs_input n task i now u d d' : put_task_input s n task i now d = Ok (u, d') -> requester_step s d d'
| rs_output n task o now u d d' : put_task_output s n task o now d = Ok (u, d') -> requester_step s d d'
| rs_record n cd task bd od st env outs sa now w d d' :
    record_outcome_with_outputs s n cd task bd od st env outs sa now d = Ok (w, d') ->
    requester_step s d d'.

(** Every table of one database is contained in the other's. *)
Definition extends (d d' : Db) : Prop :=
  tbl_sent d ⊆ tbl_sent d' /\ tbl_outcomes d ⊆ tbl_outcomes d' /\
  tbl_inputs d ⊆ tbl_inputs d' /\ tbl_outputs d ⊆ tbl_outputs d'.

#[global] Instance extends_preorder : PreOrder extends.
Proof. split; [done|]. intros d1 d2 d3 (?&?&?&?) (?&?&?&?). split_and!; by etrans. Qed.

Lemma insert_or_ignore_subseteq `{Countable K} {V} (k : K) (v : V) (m : gmap K V) :
  m ⊆ (insert_or_ignore k v m).1.
Proof. unfold insert_or_ignore. destruct (m !! k) eqn:E; [done|]. by apply insert_subseteq. Qed.

Lemma extends_sent k v d : extends d (on_sent (fun m => (insert_or_ignore k v m).1) d).
Proof. split_and!; try done; apply insert_or_ignore_subseteq. Qed.

Lemma extends_outcomes k v d : extends d (on_outcomes (fun m => (insert_or_ignore k v m).1) d).
Proof. split_and!; try done; apply insert_or_ignore_subseteq. Qed.

Lemma extends_inputs k v d : extends d (on_inputs (fun m => (insert_or_ignore k v m).1) d).
Proof. split_and!; try done; apply insert_or_ignore_subseteq. Qed.

Lemma extends_outputs k v d : extends d (on_outputs (fun m => (insert_or_ignore k v m).1) d).
Proof. split_and!; try done; apply insert_or_ignore_subseteq. Qed.

Lemma extends_db d a b : requester_db b = requester_db a -> extends d a -> extends d b.
Proof. intros Hab. unfold extends, tbl_sent, tbl_outcomes, tbl_inputs, tbl_outputs. by rewrite Hab. Qed.

Lemma audit_requester ts ev de d n d' : audit ts ev de d = Ok (n, d') -> requester_db d' = requester_db d.
Proof. unfold audit. destruct (Audit.append _ _ _ _). by intros [= <- <-]. Qed.

Lemma step_extends s d d' : requester_step s d d' -> extends d d'.
Proof.
  destruct 1 as [? ? ? d d' H|? ? ? ? ? ? ? ? ? ? d d' H|? ? ? ? ? d d' H|? ? ? ? ? d d' H
    |? cd ? ? ? ? ? outs ? ? ? d d' H].
  - unfold put_sent_request in H. cbn zeta in H. rewrite bind_gets, bind_modify in H.
    eapply extends_db; [|eapply extends_sent]. case_decide; [|unfold_M; by simplify_eq].
    apply bind_Ok in H as (? & d1 & Ha%audit_requester & H). unfold_M. simplify_eq. exact Ha.
  - unfold put_outcome in H. cbn zeta in H. rewrite bind_gets, bind_modify in H.
    eapply extends_db; [|eapply extends_outcomes]. case_decide; [|unfold_M; by simplify_eq].
    apply bind_Ok in H as (? & d1 & Ha%audit_requester & H). unfold_M. simplify_eq. exact Ha.
  - unfold put_task_input in H. cbn zeta in H. rewrite bind_modify in H.
    apply bind_Ok in H as (? & d1 & Ha%audit_requester & H). unfold_M. simplify_eq.
    eapply extends_db; [exact Ha|eapply extends_inputs].
  - unfold put_task_output in H. rewrite bind_modify in H.
    apply bind_Ok in H as (? & d1 & Ha%audit_requester & H). unfold_M. simplify_eq.
    eapply extends_db; [exact Ha|eapply extends_outputs].
  - pose proof (record_run s n cd task bd od st env outs sa now d) as Hr.
    destruct (tbl_outcomes d !! cd) eqn:E; [rewrite Hr in H; by simplify_eq|].
    case_decide as Hf; [|by rewrite Hr in H].
    destruct Hr as (d1 & m' & H1 & Hd & _ & Hout). rewrite H1 in H. simplify_eq.
    unfold extends, tbl_sent, tbl_outcomes, tbl_inputs, tbl_outputs in *. rewrite Hd. simpl.
    split_and!; [done|by apply insert_subseteq|done|].
    apply map_subseteq_spec. intros k r Hk. rewrite Hout; [done|].
    destruct (decide (k.1 = task)) as [Ht|]; [right|by left]. intros Hid.
    apply (proj2 Hf) in Hid. unfold tbl_outputs in Hid. destruct k as [k1 k2]. simpl in *. congruence.
Qed.

Lemma steps_extend s d d' : rtc (requester_step s) d d' -> extends d d'.
Proof. induction 1; [done|]. etrans; [by eapply step_extends|done]. Qed.

(** The requester's records are append-only. Through any history a sent request,
    a signed outcome, a task input and a task output, once stored, is never
    changed, replaced or removed: the first one stands. *)
Theorem requester_append_only s d d' dg req o env :
  rtc (requester_step s) d d' ->
  (get_sent_request dg d = Ok (Some req, d) -> get_sent_request dg d' = Ok (Some req, d')) /\
  (get_outcome s dg d = Ok (Some (o, env), d) -> get_outcome s dg d' = Ok (Some (o, env), d')) /\
  tbl_inputs d ⊆ tbl_inputs d' /\ tbl_outputs d ⊆ tbl_outputs d'.
Proof.
  intros (H1 & H2 & H3 & H4)%steps_extend. split_and!; [| |done|done].
  - unfold get_sent_request, gets. destruct (tbl_sent d !! dg) as [r|] eqn:E; [|done].
    rewrite (lookup_weaken _ _ _ _ E H1). naive_solver.
  - unfold get_outcome. rewrite !bind_gets. destruct (tbl_outcomes d !! dg) as [r|] eqn:E; [|done].
    rewrite (lookup_weaken _ _ _ _ E H2). cbn [fmap option_fmap option_map]. unfold_M.
    destruct (open_col _ _ _); naive_solver.
Qed.

(** Accepted means held. When a disposition is recorded, then after any further
    history the signed outcome reads back exactly, every output it covers is
    stored with its own payload readable byte for byte, and a redelivery is
    answered with the recorded digest and writes nothing. *)
Theorem accepted_means_held s n cd task bd od st env outs sa now d d1 d2 :
  length n = Envelope.NONCE_LEN -> (Z.of_nat (length env) <= aead_limit)%Z ->
  Forall (fun no => length no.1 = Envelope.NONCE_LEN /\
            Z.of_nat (length (o_payload no.2)) <= aead_limit)%Z outs ->
  record_outcome_with_outputs s n cd task bd od st env outs sa now d = Ok (Recorded, d1) ->
  rtc (requester_step s) d1 d2 ->
  get_outcome s cd d2 = Ok (Some (od, env), d2) /\
  (forall n' o, (n', o) ∈ outs -> exists row, tbl_outputs d2 !! (task, artifact_id o) = Some row /\
     open_output s (task, artifact_id o, row) = Ok o) /\
  (forall n' task' bd' od' st' env' outs' sa' now',
     record_outcome_with_outputs s n' cd task' bd' od' st' env' outs' sa' now' d2 =
       Ok (AlreadyRecorded od, d2)).
Proof.
  intros Hn Hl Houts Hrec (_ & Hoc & _ & Hout)%steps_extend.
  pose proof (record_run s n cd task bd od st env outs sa now d) as Hr. rewrite Hrec in Hr.
  destruct (tbl_outcomes d !! cd) eqn:E; [done|]. case_decide as Hf; [|done].
  destruct Hr as (d' & m' & [= <-] & Hd & Hin & _).
  assert (tbl_outcomes d2 !! cd = Some (outcome_row s n task bd od st env sa now)) as Hrow.
  { eapply lookup_weaken, Hoc. unfold tbl_outcomes. rewrite Hd. apply lookup_insert_eq. }
  split_and!.
  - unfold get_outcome. rewrite bind_gets, Hrow. cbn [fmap option_fmap option_map outcome_row ou_outcome ou_outcome_digest].
    unfold_M. by rewrite open_col_seal.
  - intros n' o Ho. exists (output_row s n' o). split.
    + eapply lookup_weaken, Hout. unfold tbl_outputs. rewrite Hd. by apply Hin.
    + rewrite Forall_forall in Houts. destruct (Houts _ Ho) as [? ?].
      unfold open_output. cbn [output_row to_payload fst snd]. rewrite open_col_seal by done. by destruct o.
  - intros. pose proof (record_run s n' cd task' bd' od' st' env' outs' sa' now' d2) as Hr.
    by rewrite Hrow in Hr.
Qed.

(** All or nothing. A disposition for a contract without one either commits it
    with all its outputs, or, when two of them share an artifact id or one is already
    stored for the task, fails and leaves the database as it was. *)
Theorem outcome_all_or_nothing s n cd task bd od st env outs sa now d :
  tbl_outcomes d !! cd = None ->
  let '(r, d') := exec (record_outcome_with_outputs s n cd task bd od st env outs sa now) d in
  (outputs_fit task outs d /\ r = Ok Recorded /\
     tbl_outcomes d' !! cd = Some (outcome_row s n task bd od st env sa now) /\
     forall n' o, (n', o) ∈ outs -> tbl_outputs d' !! (task, artifact_id o) = Some (output_row s n' o)) \/
  (~ outputs_fit task outs d /\ r = Err (DbError Constraint) /\ d' = d).
Proof.
  intros E. pose proof (record_run s n cd task bd od st env outs sa now d) as Hr. rewrite E in Hr.
  unfold exec. case_decide as Hf.
  - destruct Hr as (d' & m' & -> & Hd & Hin & _). left. unfold tbl_outcomes, tbl_outputs. rewrite Hd. split_and!; [done|done|apply lookup_insert_eq|].
    intros n' o Ho. by apply Hin.
  - rewrite Hr. by right.
Qed.

Lemma order_by_perm {A} (f : A -> Z) l : order_by f l ≡ₚ l.
Proof. apply merge_sort_Permutation. Qed.

(** Outputs come back in manifest order. When the stored outputs of a task unseal,
    the listing has each of them once, in ascending ordinal. *)
Theorem outputs_in_order s task d l :
  list_task_outputs s task d = Ok (l, d) ->
  Sorted Z.le (o_ordinal <$> l) /\ length l = count_where (fun k _ => bool_decide (k.1 = task)) (tbl_outputs d) /\
  forall id row o, tbl_outputs d !! (task, id) = Some row -> open_output s (task, id, row) = Ok o -> o ∈ l.
Proof.
  unfold list_task_outputs. rewrite bind_gets. unfold lift, count_where.
  set (p := fun (k : string * string) (_ : TaskOutputRow) => bool_decide (k.1 = task)).
  set (rows := order_by _ _). destruct (collect (open_output s) rows) as [l'|] eqn:Hc; [|done].
  intros [= <-].
  assert (Forall2 (fun kv o => open_output s kv = Ok o) rows l') as Hf.
  { clearbody rows. revert l' Hc. induction rows as [|kv rows IH]; intros l' Hc; simpl in Hc; unfold_result.
    - simplify_eq. constructor.
    - destruct (open_output s kv) eqn:E1; [|done]. destruct (collect _ rows) eqn:E2; [|done].
      simplify_eq. constructor; [done|]. by apply IH. }
  assert (Sorted (column_le (fun kv : string * string * TaskOutputRow => to_ordinal kv.2)) rows) as Hs
    by apply (Sorted_merge_sort _ _).
  split_and!.
  - clear Hc. clearbody rows. revert Hs. induction Hf as [|kv o rows l' Ho Hf IH]; intros Hs; [constructor|].
    assert (forall kv o, open_output s kv = Ok o -> o_ordinal o = to_ordinal kv.2) as Hord.
    { intros kv' o'. unfold open_output. unfold_result. destruct (open_col _ _ _); naive_solver. }
    inversion Hs as [|? ? Hs' Hh]; subst. constructor; [by apply IH|].
    destruct Hf as [|kv' o' rows l' Ho' Hf]; constructor. inversion Hh as [|? ? Hle]; subst.
    unfold column_le in Hle. by rewrite (Hord _ _ Ho), (Hord _ _ Ho').
  - rewrite <- (Forall2_length _ _ _ Hf). subst rows. by rewrite order_by_perm.
  - intros id row o Hrow Ho.
    assert ((task, id, row) ∈ rows) as Hin.
    { subst rows. rewrite order_by_perm. apply elem_of_rows_where. split; [done|].
      by apply bool_decide_eq_true_2. }
    destruct (list_elem_of_lookup_1 _ _ Hin) as [i Hi].
    destruct (Forall2_lookup_l _ _ _ _ _ Hf Hi) as (o' & Ho' & Heq).
    rewrite Ho in Heq. simplify_eq. by eapply list_elem_of_lookup_2.
Qed.
End requester.

(** ** Witnesses *)

Section sample.
#[local] Existing Instances ToyHashes ToyAead.

Definition sample_store : Store := mkStore (repeat "d"%char 32) (repeat "c"%char 32) Normal.
Definition sample_nonce : bytes := repeat "n"%char 24.

Definition after {A} (m : M A) (d : Db) : Db := (exec m d).2.

Definition sample_output (id : string) (ord : Z) : TaskOutput :=
  mkTaskOutput id ord "answer" "text/plain" 2 "sha" (as_bytes "hi").

Definition sample_outputs : list (bytes * TaskOutput) :=
  [(sample_nonce, sample_output "b" 1); (sample_nonce, sample_output "a" 0)].

Definition sample_sent : SentRequest := mkSentRequest "cd" "t" "x" "root" "c" "p" "i" "m".

Definition d_sent : Db := after (put_sent_request sample_sent 5) empty_db.
Definition d_recorded : Db :=
  after (record_outcome_with_outputs sample_store sample_nonce "cd" "t" "bd" "od" "accepted"
           (as_bytes "env") sample_outputs "2026" 6) d_sent.

Lemma d_recorded_eq :
  record_outcome_with_outputs sample_store sample_nonce "cd" "t" "bd" "od" "accepted" (as_bytes "env")
    sample_outputs "2026" 6 d_sent = Ok (Recorded, d_recorded).
Proof. vm_compute. reflexivity. Qed.

Example requester_append_only_witness :
  get_sent_request "cd" d_recorded = Ok (Some sample_sent, d_recorded).
Proof.
  apply (requester_append_only sample_store d_sent d_recorded "cd" sample_sent "" []).
  - eapply rtc_once, rs_record, d_recorded_eq.
  - vm_compute. reflexivity.
Defined.

Example accepted_means_held_witness :
  get_outcome sample_store "cd" d_recorded = Ok (Some ("od", as_bytes "env"), d_recorded).
Proof.
  apply (accepted_means_held sample_store sample_nonce "cd" "t" "bd" "od" "accepted" (as_bytes "env")
    sample_outputs "2026" 6 d_sent d_recorded d_recorded).
  - reflexivity.
  - vm_compute. discriminate.
  - repeat constructor; vm_compute; discriminate.
  - apply d_recorded_eq.
  - apply rtc_refl.
Defined.

Example outcome_all_or_nothing_witness :
  exec (record_outcome_with_outputs sample_store sample_nonce "cd" "t" "bd" "od" "accepted" []
    [(sample_nonce, sample_output "a" 0); (sample_nonce, sample_output "a" 1)] "2026" 6) d_sent
  = (Err (DbError Constraint), d_sent).
Proof.
  pose proof (outcome_all_or_nothing sample_store sample_nonce "cd" "t" "bd" "od" "accepted" []
    [(sample_nonce, sample_output "a" 0); (sample_nonce, sample_output "a" 1)] "2026" 6 d_sent
    ltac:(vm_compute; reflexivity)) as H.
  destruct (exec _ d_sent) as [r d']. destruct H as [(Hf & _)|(_ & -> & ->)]; [|reflexivity].
  exfalso. destruct Hf as [Hnd _]. apply NoDup_cons in Hnd as [Hn _]. apply Hn. left.
Defined.

Example outputs_in_order_witness :
  exists l, list_task_outputs sample_store "t" d_recorded = Ok (l, d_recorded) /\
    Sorted Z.le (o_ordinal <$> l).
Proof.
  exists [sample_output "a" 0; sample_output "b" 1].
  assert (list_task_outputs sample_store "t" d_recorded =
    Ok ([sample_output "a" 0; sample_output "b" 1], d_recorded)) as H by (vm_compute; reflexivity).
  split; [exact H|]. apply (outputs_in_order sample_store "t" d_recorded _ H).
Defined.
End sample.
End StoreRequester.
