(* ===== verification/StoreCalls.v ===== *)
(** Processors and processor calls in the store (akson-store/src/lib.rs
    [put_processor], [put_credential], [prepare_call], [advance_call],
    [resolve_crashed_calls] and their readers): the durable sub-attempt of every
    call, recorded before a byte leaves and bounded by the work order's aggregate
    operation budget. *)
From S2P Require Import Prelude Crypto Envelope AuditLog Machine RowMachine SubAttempt Broker Contract Db StoreContracts.
Import SubAttempt Broker.
Import StoreContracts (collect, collect_Ok).

Module StoreCalls.

Definition PROCESSOR_CONFIG_CONTEXT : string := "processor.config".
Definition PROCESSOR_CREDENTIAL_CONTEXT : string := "processor.credential".

Inductive PrepareOutcome :=
| PreparedNow
| AlreadyPrepared (s : SubAttemptState)
| BudgetExhausted (max_operations : Z).

Definition tbl_processors (d : Db) := processors (calls_db d).
Definition tbl_credentials (d : Db) := processor_credentials (calls_db d).
Definition tbl_calls (d : Db) := processor_calls (calls_db d).
Definition on_processors f := upd_calls_db (upd_processors f).
Definition on_credentials f := upd_calls_db (upd_processor_credentials f).
Definition on_calls f := upd_calls_db (upd_processor_calls f).

Definition set_state (t : string) (r : CallRow) : CallRow :=
  mkCallRow (ca_work_order_id r) (ca_task_id r) (ca_processor_id r) (ca_provider r) (ca_config_digest r)
    (ca_request_digest r) (ca_origin r) t (ca_max_cost_microusd r) (ca_max_response_bytes r)
    (ca_deadline r) (ca_prepared_at r).

#[global] Instance call_column : StateColumn CallRow := {|
  col := ca_state;
  set_col := set_state;
  fix_of := fun r => (ca_work_order_id r, ca_task_id r, ca_processor_id r, ca_provider r, ca_config_digest r,
    ca_request_digest r, ca_origin r, ca_max_cost_microusd r, ca_max_response_bytes r, ca_deadline r,
    ca_prepared_at r);
  col_set := fun t r => eq_refl;
  fix_set := fun t r => eq_refl;
|}.

Section calls.
Context {HS : Hashes} {AE : Aead} {CP : Codec ProcessorConfig} {CO : Codec Origin}.

(** ** Processors and credentials *)

Definition put_processor (s : Store) (nonce : bytes) (c : ProcessorConfig) (now : Z) : M () :=
  let sealed := seal s PROCESSOR_CONFIG_CONTEXT nonce (encode c) in
  let loc := if is_local c then "local" else "remote" in
  _ ← modify (on_processors (fun m =>
        <[processor_id c := mkProcessorRow (provider c) loc sealed
            (match m !! processor_id c with Some old => pc_added_at old | None => now end)]> m));
  _ ← audit now "processor.configured" (processor_id c);
  mret ().

Definition open_config (s : Store) (sealed : bytes) : result StoreError ProcessorConfig :=
  json ← open_col s PROCESSOR_CONFIG_CONTEXT sealed; parse_json json.

Definition get_processor (s : Store) (id : string) : M (option ProcessorConfig) :=
  o ← gets (fun d => pc_config <$> tbl_processors d !! id);
  match o with
  | Some sealed => c ← lift (open_config s sealed); mret (Some c)
  | None => mret None
  end.

Definition list_processors (s : Store) : M (list ProcessorConfig) :=
  rows ← gets (fun d => sorted_rows (fun _ _ => true) (tbl_processors d));
  lift (collect (fun kv => open_config s (pc_config kv.2)) rows).

Definition put_credential (s : Store) (nonce : bytes) (id : string) (credential : bytes) (now : Z) : M () :=
  let sealed := seal s PROCESSOR_CREDENTIAL_CONTEXT nonce credential in
  _ ← modify (on_credentials (insert id (mkCredentialRow sealed now)));
  _ ← audit now "processor.credential_set" id;
  mret ().

Definition get_credential (s : Store) (id : string) : M (option bytes) :=
  o ← gets (fun d => cr_credential <$> tbl_credentials d !! id);
  match o with
  | Some sealed => c ← lift (open_col s PROCESSOR_CREDENTIAL_CONTEXT sealed); mret (Some c)
  | None => mret None
  end.

(** ** Calls *)

Definition call_state (key : string) : M (option SubAttemptState) :=
  o ← gets (fun d => ca_state <$> tbl_calls d !! key);
  match o with
  | None => mret None
  | Some text => match SubAttempt.from_str text with
                 | Some st => mret (Some st)
                 | None => fail (Corrupt "unknown sub-attempt state")
                 end
  end.

Definition of_order (w : string) (_ : string) (r : CallRow) : bool := bool_decide (ca_work_order_id r = w).

(** [max_operations] is a [u32]. *)
Definition prepare_call (call : ProcessorCall) (max_operations : Z) (now : Z) : M PrepareOutcome :=
  prior ← call_state (idempotency_key call);
  match prior with
  | Some st => mret (AlreadyPrepared st)
  | None =>
      existing ← gets (fun d => Z.of_nat (count_where (of_order (c_work_order_id call)) (tbl_calls d)));
      if (max_operations <=? existing)%Z then mret (BudgetExhausted max_operations)
      else
        m ← gets tbl_calls;
        m' ← lift (insert_new (idempotency_key call)
               (mkCallRow (c_work_order_id call) (c_task_id call) (c_processor_id call) (c_provider call)
                  (config_digest_of call) (request_digest call) (encode (c_origin call)) "prepared"
                  (as_i64 (c_max_cost_microusd call)) (as_i64 (c_max_response_bytes call))
                  (c_deadline call) now) m);
        _ ← modify (on_calls (fun _ => m'));
        _ ← audit now "processor.prepared" (idempotency_key call);
        mret PreparedNow
  end.

Definition advance_call (key : string) (event : SubAttemptEvent) (now : Z) :
  M (result (TransitionError SubAttemptState SubAttemptEvent) SubAttemptState) :=
  o ← call_state key;
  match o with
  | None => fail (UnknownProcessorCall key)
  | Some state =>
      match SubAttempt.next state event with
      | Ok new_state =>
          changed ← gets (fun d => (cas_state key (SubAttempt.as_str state) (SubAttempt.as_str new_state)
                                              (tbl_calls d)).2);
          _ ← modify (on_calls (fun m => (cas_state key (SubAttempt.as_str state)
                                                    (SubAttempt.as_str new_state) m).1));
          if decide (changed <> 1) then fail (Corrupt "processor call changed state concurrently")
          else
            _ ← audit now "processor.transition" (key +:+ ":" +:+ SubAttempt.as_str new_state);
            mret (Ok new_state)
      | Err e => mret (Err e)
      end
  end.

Definition dispatching (_ : string) (r : CallRow) : bool := bool_decide (ca_state r = "dispatching").

Fixpoint resolve_each (keys : list string) (now : Z) : M () :=
  match keys with
  | [] => mret ()
  | k :: keys =>
      _ ← modify (on_calls (fun m => (cas_state k "dispatching" "ambiguous" m).1));
      _ ← audit now "processor.transition" (k +:+ ":ambiguous");
      resolve_each keys now
  end.

Definition resolve_crashed_calls (now : Z) : M nat :=
  keys ← gets (fun d => fst <$> rows_where dispatching (tbl_calls d));
  _ ← resolve_each keys now;
  mret (length keys).

(** ** What each operation does *)

Lemma call_state_Ok key d o d' :
  call_state key d = Ok (o, d') ->
  d' = d /\ match o with
            | Some st => exists r, tbl_calls d !! key = Some r /\ ca_state r = SubAttempt.as_str st
            | None => tbl_calls d !! key = None
            end.
Proof.
  unfold call_state. rewrite bind_gets. destruct (tbl_calls d !! key) as [r|]; simpl.
  - destruct (SubAttempt.from_str (ca_state r)) as [st|] eqn:E; [|done]. intros [= <- <-].
    apply SubAttempt.call_as_from_str in E. eauto.
  - by intros [= <- <-].
Qed.

Lemma call_state_run key d r st :
  tbl_calls d !! key = Some r -> ca_state r = SubAttempt.as_str st -> call_state key d = Ok (Some st, d).
Proof.
  intros Hr Hs. unfold call_state. rewrite bind_gets, Hr. simpl. by rewrite Hs, SubAttempt.call_from_as_str.
Qed.

Lemma audit_calls ts ev de d n d' : audit ts ev de d = Ok (n, d') -> calls_db d' = calls_db d.
Proof. unfold audit. destruct (Audit.append _ _ _ _). by intros [= <- <-]. Qed.

Definition prepared_row (call : ProcessorCall) (now : Z) : CallRow :=
  mkCallRow (c_work_order_id call) (c_task_id call) (c_processor_id call) (c_provider call)
    (config_digest_of call) (request_digest call) (encode (c_origin call)) "prepared"
    (as_i64 (c_max_cost_microusd call)) (as_i64 (c_max_response_bytes call)) (c_deadline call) now.

Lemma prepare_effect call mx now d out d' :
  prepare_call call mx now d = Ok (out, d') ->
  match out with
  | PreparedNow => tbl_calls d !! idempotency_key call = None /\
      (Z.of_nat (count_where (of_order (c_work_order_id call)) (tbl_calls d)) < mx)%Z /\
      calls_db d' = upd_processor_calls (insert (idempotency_key call) (prepared_row call now)) (calls_db d)
  | AlreadyPrepared st => d' = d /\
      exists r, tbl_calls d !! idempotency_key call = Some r /\ ca_state r = SubAttempt.as_str st
  | BudgetExhausted m => d' = d /\ m = mx /\ tbl_calls d !! idempotency_key call = None /\
      (mx <= Z.of_nat (count_where (of_order (c_work_order_id call)) (tbl_calls d)))%Z
  end.
Proof.
  unfold prepare_call. intros (p & d1 & [-> Hp]%call_state_Ok & H)%bind_Ok.
  destruct p as [st|]; [unfold_M; by simplify_eq|]. rewrite bind_gets in H.
  destruct (mx <=? _)%Z eqn:Em; [unfold_M; simplify_eq; split_and!; [done|done|done|lia]|].
  rewrite bind_gets in H. unfold insert_new in H. rewrite Hp in H.
  apply bind_Ok in H as (m' & d3 & Hm & H). unfold lift in Hm. simplify_eq. rewrite bind_modify in H.
  apply bind_Ok in H as (n & d4 & Ha%audit_calls & H). unfold_M. simplify_eq.
  split_and!; [done|lia|by rewrite Ha].
Qed.

Lemma call_cas_hit (m : gmap string CallRow) key r st new :
  m !! key = Some r -> ca_state r = SubAttempt.as_str st ->
  cas_state key (SubAttempt.as_str st) new m = (<[key := set_state new r]> m, 1).
Proof. exact (cas_state_hit key r m (SubAttempt.as_str st) new). Qed.

Lemma call_advance_effect key e now d out d' :
  advance_call key e now d = Ok (out, d') ->
  exists r st, tbl_calls d !! key = Some r /\ ca_state r = SubAttempt.as_str st /\
    SubAttempt.next st e = out /\
    match out with
    | Ok st' => calls_db d' = upd_processor_calls (insert key (set_state (SubAttempt.as_str st') r)) (calls_db d)
    | Err _ => d' = d
    end.
Proof.
  unfold advance_call. intros (o & d1 & [-> Ho]%call_state_Ok & H)%bind_Ok.
  destruct o as [st|]; [|done]. destruct Ho as (r & Hr & Hs). exists r, st. split_and!; [done|done|..];
    (destruct (SubAttempt.next st e) as [st'|err]; [|unfold_M; by simplify_eq]);
    rewrite bind_gets, bind_modify, (call_cas_hit _ _ _ _ _ Hr Hs), decide_False in H by (by intros []);
    apply bind_Ok in H as (n & d4 & Ha%audit_calls & H); unfold_M; simplify_eq; [done|].
  rewrite Ha. simpl. unfold upd_processor_calls. fold (tbl_calls d). by rewrite (call_cas_hit _ _ _ _ _ Hr Hs).
Qed.

Lemma cas_dispatching k (m : gmap string CallRow) :
  (cas_state k "dispatching" "ambiguous" m).1 =
  alter (fun r => if dispatching k r then set_state "ambiguous" r else r) k m.
Proof.
  apply map_eq. intros j. unfold cas_state, dispatching. simpl.
  destruct (m !! k) as [r|] eqn:E; [|destruct (decide (j = k)) as [->|]; [by rewrite lookup_alter_eq, E|
    by rewrite lookup_alter_ne]].
  case_decide as Hc; destruct (decide (j = k)) as [->|Hne]; simpl;
    rewrite ?lookup_insert_eq, ?lookup_alter_eq, ?E; simpl; rewrite ?lookup_insert_ne, ?lookup_alter_ne by done;
    try done; by rewrite ?bool_decide_eq_true_2, ?bool_decide_eq_false_2 by done.
Qed.

(** Resolving one row twice is resolving it once. *)
Definition resolved (k : string) (r : CallRow) : CallRow :=
  if dispatching k r then set_state "ambiguous" r else r.

Lemma resolved_idem k r : resolved k (resolved k r) = resolved k r.
Proof. unfold resolved. by destruct (dispatching k r) eqn:E; [|rewrite E]. Qed.

Lemma resolve_each_run keys now d :
  exists d', resolve_each keys now d = Ok ((), d') /\
    (forall k, tbl_calls d' !! k =
       (fun r => if decide (k ∈ keys) then resolved k r else r) <$> tbl_calls d !! k) /\
    tbl_processors d' = tbl_processors d /\ tbl_credentials d' = tbl_credentials d /\
    length (audit_log d') = length keys + length (audit_log d).
Proof.
  revert d. induction keys as [|key keys IH]; intros d.
  - eexists. split; [done|]. split_and!; [|done..]. intros k. by destruct (tbl_calls d !! k).
  - cbn [resolve_each]. rewrite bind_modify. unfold audit at 1. unfold mbind at 1, M_bind at 1.
    destruct (Audit.append _ _ _ _) as [n log] eqn:Ea.
    match goal with |- context[resolve_each keys now ?x] => destruct (IH x) as (d' & Hd & Hk & Hp & Hc & Hl) end.
    exists d'. split; [exact Hd|]. split_and!; [|by rewrite Hp|by rewrite Hc|].
    + intros k. rewrite Hk. unfold tbl_calls. simpl. rewrite cas_dispatching. fold (resolved key).
      destruct (decide (k = key)) as [->|Hne].
      * rewrite lookup_alter_eq. destruct (processor_calls (calls_db d) !! key); [|done]. simpl.
        rewrite (decide_True (P := key ∈ key :: keys)) by left. case_decide; [|done].
        f_equal. apply resolved_idem.
      * rewrite lookup_alter_ne by done. destruct (processor_calls (calls_db d) !! k); [|done]. simpl.
        do 2 case_decide; set_solver.
    + rewrite Hl. unfold Audit.append in Ea. injection Ea as _ <-. simpl. rewrite length_app. simpl. lia.
Qed.

Lemma call_resolve_run now d :
  exists d', resolve_crashed_calls now d = Ok (count_where dispatching (tbl_calls d), d') /\
    tbl_calls d' = update_where dispatching (set_state "ambiguous") (tbl_calls d) /\
    tbl_processors d' = tbl_processors d /\ tbl_credentials d' = tbl_credentials d /\
    length (audit_log d') = count_where dispatching (tbl_calls d) + length (audit_log d).
Proof.
  unfold resolve_crashed_calls. rewrite bind_gets.
  destruct (resolve_each_run (fst <$> rows_where dispatching (tbl_calls d)) now d) as (d' & Hd & Hk & Hp & Hc & Hl).
  rewrite (bind_run _ _ _ _ _ Hd). exists d'. unfold count_where. rewrite length_fmap in *. split; [done|].
  split_and!; [|done..]. apply map_eq. intros k. rewrite Hk, lookup_update_where.
  destruct (tbl_calls d !! k) as [r|] eqn:E; [|done]. simpl. f_equal. unfold resolved.
  case_decide as Hin; [done|]. destruct (dispatching k r) eqn:Ef; [|done]. exfalso. apply Hin.
  apply list_elem_of_fmap. exists (k, r). split; [done|]. by apply elem_of_rows_where.
Qed.

(** ** Histories *)

(** [cap] is the aggregate operation budget of each work order: the caller passes
    the budget of the order the call is made under. *)
Inductive calls_step (s : Store) (cap : string -> Z) : Db -> Db -> Prop :=
| cs_processor n c now u d d' : put_processor s n c now d = Ok (u, d') -> calls_step s cap d d'
| cs_credential n id c now u d d' : put_credential s n id c now d = Ok (u, d') -> calls_step s cap d d'
| cs_prepare call now out d d' :
    prepare_call call (cap (c_work_order_id call)) now d = Ok (out, d') -> calls_step s cap d d'
| cs_advance key e now out d d' : advance_call key e now d = Ok (out, d') -> calls_step s cap d d'
| cs_resolve now n d d' : resolve_crashed_calls now d = Ok (n, d') -> calls_step s cap d d'.

Record calls_inv (cap : string -> Z) (m : gmap string CallRow) : Prop := {
  ci_read : forall k r, m !! k = Some r ->
    exists evs st, run Prepared evs = Ok st /\ ca_state r = SubAttempt.as_str st;
  ci_budget : forall w, (0 <= cap w)%Z -> (Z.of_nat (count_where (of_order w) m) <= cap w)%Z;
}.

Lemma put_processor_calls s n c now d u d' :
  put_processor s n c now d = Ok (u, d') -> tbl_calls d' = tbl_calls d.
Proof.
  unfold put_processor. cbn zeta. rewrite bind_modify. intros (k & d1 & Ha%audit_calls & H)%bind_Ok.
  unfold_M. simplify_eq. unfold tbl_calls. by rewrite Ha.
Qed.

Lemma put_credential_calls s n id c now d u d' :
  put_credential s n id c now d = Ok (u, d') -> tbl_calls d' = tbl_calls d.
Proof.
  unfold put_credential. cbn zeta. rewrite bind_modify. intros (k & d1 & Ha%audit_calls & H)%bind_Ok.
  unfold_M. simplify_eq. unfold tbl_calls. by rewrite Ha.
Qed.

(** Rewriting a row in place does not change what it counts for. *)
Lemma count_of_order_update w (m : gmap string CallRow) k r r' :
  m !! k = Some r -> ca_work_order_id r' = ca_work_order_id r ->
  count_where (of_order w) (<[k := r']> m) = count_where (of_order w) m.
Proof.
  intros Hk Hw. rewrite <- (insert_delete_id _ _ _ Hk) at 2. rewrite <- insert_delete_eq.
  rewrite !count_where_insert by apply lookup_delete_eq. unfold of_order. by rewrite Hw.
Qed.

Lemma call_move (m : gmap string CallRow) k r st evs st' :
  m !! k = Some r -> ca_state r = SubAttempt.as_str st -> run st evs = Ok st' ->
  driven Prepared m (<[k := set_state (SubAttempt.as_str st') r]> m).
Proof. exact (driven_move (R := CallRow) Prepared m k r st evs st'). Qed.

(** The resolution as a fold of single moves. *)
Lemma resolve_driven (m : gmap string CallRow) :
  driven Prepared m (update_where dispatching (set_state "ambiguous") m).
Proof.
  split.
  - intros k r st Hk Hs. rewrite lookup_update_where, Hk. simpl.
    destruct (dispatching k r) eqn:E.
    + apply bool_decide_eq_true in E. eexists _, [RecoverAfterCrash], Ambiguous. split_and!; [done..| |done].
      change (ca_state r = SubAttempt.as_str st) in Hs. rewrite Hs in E. by destruct st.
    + eexists _, [], st. done.
  - intros k r' Hk Hn. by rewrite lookup_update_where, Hn in Hk.
Qed.

Lemma calls_step_driven s cap d d' :
  calls_step s cap d d' -> driven Prepared (tbl_calls d) (tbl_calls d').
Proof.
  destruct 1 as [? ? ? ? d d' H|? ? ? ? ? d d' H|call ? out d d' H|? ? ? out d d' H|? ? d d' H].
  - rewrite (put_processor_calls _ _ _ _ _ _ _ H). apply driven_refl.
  - rewrite (put_credential_calls _ _ _ _ _ _ _ _ H). apply driven_refl.
  - apply prepare_effect in H. destruct out.
    + destruct H as (Hn & _ & Hd). unfold tbl_calls at 2. rewrite Hd. by apply driven_new.
    + destruct H as [-> _]. apply driven_refl.
    + destruct H as [-> _]. apply driven_refl.
  - apply call_advance_effect in H as (r & st & Hr & Hs & Hn & Hd).
    destruct out as [st'|]; [|subst; apply driven_refl]. unfold tbl_calls at 2. rewrite Hd.
    apply (call_move _ key r st [e] st' Hr Hs). simpl. unfold_result. by rewrite Hn.
  - destruct (call_resolve_run now d) as (d1 & H1 & Ha & _). rewrite H1 in H. simplify_eq. rewrite Ha.
    apply resolve_driven.
Qed.

(** A driven table stays in reachable states. *)
Lemma driven_read (m m' : gmap string CallRow) :
  driven Prepared m m' ->
  (forall k r, m !! k = Some r -> exists evs st, run Prepared evs = Ok st /\ ca_state r = SubAttempt.as_str st) ->
  forall k r, m' !! k = Some r -> exists evs st, run Prepared evs = Ok st /\ ca_state r = SubAttempt.as_str st.
Proof.
  intros [H1 H2] Hm k r' Hk. destruct (m !! k) as [r|] eqn:E; [|exact (H2 _ _ Hk E)].
  destruct (Hm _ _ E) as (e0 & s0 & Hr0 & Hs0).
  destruct (H1 _ _ _ E Hs0) as (r2 & e1 & s1 & Hk' & _ & Hr1 & Hs1). simplify_eq.
  exists (e0 ++ e1), s1. by rewrite (run_app _ _ _ _ Hr0).
Qed.

Lemma count_update_where w (m : gmap string CallRow) :
  count_where (of_order w) (update_where dispatching (set_state "ambiguous") m) = count_where (of_order w) m.
Proof.
  induction m as [|k r m Hk IH] using map_ind; [done|].
  assert (update_where dispatching (set_state "ambiguous") (<[k := r]> m) =
    <[k := resolved k r]> (update_where dispatching (set_state "ambiguous") m)) as ->.
  { apply map_eq. intros j. rewrite lookup_update_where. destruct (decide (j = k)) as [->|Hne].
    - by rewrite !lookup_insert_eq.
    - by rewrite !lookup_insert_ne, lookup_update_where by done. }
  rewrite !count_where_insert, IH by (by rewrite ?lookup_update_where, ?Hk).
  unfold of_order, resolved. by destruct (dispatching k r).
Qed.

Lemma calls_step_inv s cap d d' :
  calls_step s cap d d' -> calls_inv cap (tbl_calls d) -> calls_inv cap (tbl_calls d').
Proof.
  intros Hst [Hread Hb]. constructor; [by eapply driven_read, Hread; eapply calls_step_driven|].
  intros w Hw. specialize (Hb w Hw).
  destruct Hst as [? ? ? ? d d' H|? ? ? ? ? d d' H|call ? out d d' H|? ? ? out d d' H|? ? d d' H].
  - by rewrite (put_processor_calls _ _ _ _ _ _ _ H).
  - by rewrite (put_credential_calls _ _ _ _ _ _ _ _ H).
  - apply prepare_effect in H. destruct out.
    + destruct H as (Hn & Hlt & Hd). unfold tbl_calls in *. rewrite Hd. simpl.
      rewrite count_where_insert by done. unfold of_order at 1. case_bool_decide as Hc; [|lia].
      simpl in Hc. rewrite Hc in Hlt. lia.
    + by destruct H as [-> _].
    + by destruct H as [-> _].
  - apply call_advance_effect in H as (r & st & Hr & Hs & Hn & Hd). destruct out as [st'|]; [|by subst].
    unfold tbl_calls in *. rewrite Hd. simpl. by rewrite (count_of_order_update _ _ _ r).
  - destruct (call_resolve_run now d) as (d1 & H1 & Ha & _). rewrite H1 in H. simplify_eq.
    rewrite Ha. by rewrite count_update_where.
Qed.

Lemma calls_steps_inv s cap d d' :
  rtc (calls_step s cap) d d' -> calls_inv cap (tbl_calls d) -> calls_inv cap (tbl_calls d').
Proof. induction 1; [done|]. intros. eauto using calls_step_inv. Qed.

Lemma empty_calls_inv cap : calls_inv cap (tbl_calls empty_db).
Proof. constructor; [done|]. intros w Hw. exact Hw. Qed.

(** ** Theorems *)

(** The aggregate operation budget holds. However calls, retries, transitions and
    crash recoveries are interleaved, a work order never has more calls than its
    budget; a retry of a prepared call is answered with its state and never
    refused, and once the budget is spent every new call of the order is refused
    without a record. *)
Theorem operation_budget s cap d w call now :
  rtc (calls_step s cap) empty_db d -> (0 <= cap w)%Z -> c_work_order_id call = w ->
  (Z.of_nat (count_where (of_order w) (tbl_calls d)) <= cap w)%Z /\
  exists out d', prepare_call call (cap w) now d = Ok (out, d') /\
    match tbl_calls d !! idempotency_key call with
    | Some r => d' = d /\ exists st, out = AlreadyPrepared st /\ ca_state r = SubAttempt.as_str st
    | None => if decide (Z.of_nat (count_where (of_order w) (tbl_calls d)) = cap w)
              then out = BudgetExhausted (cap w) /\ d' = d else out = PreparedNow
    end.
Proof.
  intros Hst Hcap Hw. apply calls_steps_inv in Hst as [Hread Hb]; [|apply empty_calls_inv].
  specialize (Hb w Hcap). split; [done|]. unfold prepare_call.
  destruct (tbl_calls d !! idempotency_key call) as [r|] eqn:E.
  - destruct (Hread _ _ E) as (_ & st & _ & Hs). exists (AlreadyPrepared st), d.
    split; [by rewrite (bind_run _ _ _ _ _ (call_state_run _ _ _ _ E Hs))|]. split; [done|]. by exists st.
  - assert (call_state (idempotency_key call) d = Ok (None, d)) as Hn
      by (unfold call_state; by rewrite bind_gets, E).
    rewrite (bind_run _ _ _ _ _ Hn), bind_gets, Hw. case_decide as Hc.
    + rewrite Hc, Z.leb_refl. eexists _, _. split; [done|]. done.
    + destruct (_ <=? _)%Z eqn:El; [lia|]. rewrite bind_gets. unfold insert_new. rewrite E.
      unfold lift. unfold mbind at 1, M_bind at 1. rewrite bind_modify.
      run_audit. by eexists _, _.
Qed.

Lemma steps_driven s cap d d' :
  rtc (calls_step s cap) d d' -> calls_inv cap (tbl_calls d) -> driven Prepared (tbl_calls d) (tbl_calls d').
Proof.
  induction 1 as [|d d1 d2 H1 H2 IH]; intros Hinv; [apply driven_refl|].
  pose proof (calls_step_inv _ _ _ _ H1 Hinv) as Hinv1.
  eapply driven_trans; [|by eapply calls_step_driven|by apply IH].
  intros k r Hk. destruct (ci_read _ _ Hinv1 _ _ Hk) as (_ & st & _ & Hs). by exists st.
Qed.

(** The store runs the sub-attempt machine. Between any two moments of a history no
    call record disappears, what it is bound to and its ceilings are unchanged, and
    its state moved by a run of events the pure machine accepts. *)
Theorem calls_refine_machine s cap d d' key r :
  rtc (calls_step s cap) empty_db d -> rtc (calls_step s cap) d d' ->
  tbl_calls d !! key = Some r ->
  exists r' st evs st',
    tbl_calls d' !! key = Some r' /\ fix_of r' = fix_of r /\
    ca_state r = SubAttempt.as_str st /\ run st evs = Ok st' /\ ca_state r' = SubAttempt.as_str st'.
Proof.
  intros H0 H1 Hr. apply calls_steps_inv in H0; [|apply empty_calls_inv].
  destruct (ci_read _ _ H0 _ _ Hr) as (_ & st & _ & Hs).
  destruct (steps_driven _ _ _ _ H1 H0) as [Hdr _].
  destruct (Hdr key r st Hr Hs) as (r' & evs & st' & Hk & Hf & Hrun & Hs'). by exists r', st, evs, st'.
Qed.

(** Bytes leave at most once. After a call was moved to dispatching, then whatever
    happens, a crash and its recovery included, dispatching it again is refused
    and changes nothing. *)
Theorem dispatch_once s cap key now st d d1 d2 now' :
  calls_inv cap (tbl_calls d) ->
  advance_call key Dispatch now d = Ok (Ok st, d1) ->
  rtc (calls_step s cap) d1 d2 ->
  exists e, advance_call key Dispatch now' d2 = Ok (Err e, d2).
Proof.
  intros Hinv Ha Hst. pose proof (calls_step_inv s cap _ _ (cs_advance _ _ _ _ _ _ _ _ Ha) Hinv) as Hinv1.
  apply call_advance_effect in Ha as (r & st0 & Hr & Hs & Hn & Hd).
  assert (st = Dispatching) as -> by (destruct st0; vm_compute in Hn; congruence).
  destruct (steps_driven _ _ _ _ Hst Hinv1) as [Hdr _].
  destruct (Hdr key (set_state "dispatching" r) Dispatching) as (r' & evs & st' & Hk & _ & Hrun & Hs').
  { unfold tbl_calls. rewrite Hd. apply lookup_insert_eq. }
  { done. }
  assert (exists e, SubAttempt.next st' Dispatch = Err e) as [e He].
  { apply run_climbs in Hrun. destruct st'; simpl in Hrun; try lia; by eexists. }
  exists e. unfold advance_call. rewrite (bind_run _ _ _ _ _ (call_state_run _ _ _ _ Hk Hs')). by rewrite He.
Qed.

(** Recovery of calls after a crash. Every dispatching call becomes ambiguous, every
    other one is untouched, prepared ones included, each resolution is audited and
    counted, and a second recovery resolves nothing. *)
Theorem call_crash_resolution now now' d :
  exists d', resolve_crashed_calls now d = Ok (count_where dispatching (tbl_calls d), d') /\
    (forall key r, tbl_calls d !! key = Some r ->
       tbl_calls d' !! key = Some (if decide (ca_state r = "dispatching") then set_state "ambiguous" r else r)) /\
    length (audit_log d') = count_where dispatching (tbl_calls d) + length (audit_log d) /\
    exists d'', resolve_crashed_calls now' d' = Ok (0, d'').
Proof.
  destruct (call_resolve_run now d) as (d' & Hd & Ha & _ & _ & Hl). exists d'. split_and!; [done| |done|].
  - intros key r Hk. rewrite Ha, lookup_update_where, Hk. simpl. unfold dispatching.
    case_bool_decide; by case_decide.
  - destruct (call_resolve_run now' d') as (d'' & Hd' & _). exists d''. rewrite Hd'. do 2 f_equal.
    apply count_where_zero. intros k v. rewrite Ha, lookup_update_where.
    destruct (tbl_calls d !! k) as [r|]; [|done]. simpl. intros [= <-].
    by destruct (dispatching k r) eqn:E.
Qed.

Lemma put_processor_run s n c now d :
  exists d1, put_processor s n c now d = Ok ((), d1) /\
    calls_db d1 = upd_processors (fun m => <[processor_id c := mkProcessorRow (provider c)
      (if is_local c then "local" else "remote") (seal s PROCESSOR_CONFIG_CONTEXT n (encode c))
      (match m !! processor_id c with Some old => pc_added_at old | None => now end)]> m) (calls_db d).
Proof.
  unfold put_processor. cbn zeta. rewrite bind_modify.
  run_audit. by eexists.
Qed.

Lemma put_credential_run s n id cred now d :
  exists d1, put_credential s n id cred now d = Ok ((), d1) /\
    calls_db d1 = upd_processor_credentials
      (insert id (mkCredentialRow (seal s PROCESSOR_CREDENTIAL_CONTEXT n cred) now)) (calls_db d).
Proof.
  unfold put_credential. cbn zeta. rewrite bind_modify.
  run_audit. by eexists.
Qed.

(** A configured processor reads back whole, and so does its credential; neither
    shows in the other's table nor in any call record. *)
Theorem processor_round_trip s n n' c cred now d :
  length n = Envelope.NONCE_LEN -> length n' = Envelope.NONCE_LEN ->
  (Z.of_nat (length (encode c)) <= aead_limit)%Z -> (Z.of_nat (length cred) <= aead_limit)%Z ->
  exists d1 d2, put_processor s n c now d = Ok ((), d1) /\
    put_credential s n' (processor_id c) cred now d1 = Ok ((), d2) /\
    get_processor s (processor_id c) d2 = Ok (Some c, d2) /\
    get_credential s (processor_id c) d2 = Ok (Some cred, d2) /\
    tbl_calls d2 = tbl_calls d.
Proof.
  intros Hn Hn' Hl Hl'. destruct (put_processor_run s n c now d) as (d1 & H1 & Hd1).
  destruct (put_credential_run s n' (processor_id c) cred now d1) as (d2 & H2 & Hd2).
  exists d1, d2. split; [done|]. split; [done|].
  unfold get_processor, get_credential. rewrite !bind_gets.
  unfold tbl_processors, tbl_credentials, tbl_calls. rewrite Hd2. simpl. rewrite Hd1. simpl.
  rewrite !lookup_insert_eq. cbn [fmap option_fmap option_map pc_config cr_credential].
  unfold open_config. unfold_M. rewrite !open_col_seal, parse_json_encode by done. done.
Qed.
End calls.

(** ** Witnesses *)

Section sample.
#[local] Existing Instances ToyHashes ToyAead.
#[local] Instance sample_origin_codec : Codec Origin := ToyCodec Origin.
#[local] Instance sample_config_codec : Codec ProcessorConfig := ToyCodec ProcessorConfig.

Definition sample_store : Store := mkStore (repeat "d"%char 32) (repeat "c"%char 32) Normal.

Definition after {A} (m : M A) (d : Db) : Db := (exec m d).2.

Definition sample_call (key : string) : ProcessorCall :=
  mkCall "p" "prov" (mkOrigin "https" "h" 443) "cd" "rd" "wo-1" "wd" "t" key 5 "dl" 6.

Definition one_each (w : string) : Z := 1.

Definition d_prepared : Db := after (prepare_call (sample_call "k1") 1 5) empty_db.
Definition d_dispatching : Db := after (advance_call "k1" Dispatch 6) d_prepared.
Definition d_crashed : Db := after (resolve_crashed_calls 7) d_dispatching.

Lemma d_prepared_eq : prepare_call (sample_call "k1") 1 5 empty_db = Ok (PreparedNow, d_prepared).
Proof. vm_compute. reflexivity. Qed.

Lemma d_dispatching_eq : advance_call "k1" Dispatch 6 d_prepared = Ok (Ok Dispatching, d_dispatching).
Proof. vm_compute. reflexivity. Qed.

Lemma d_crashed_eq : resolve_crashed_calls 7 d_dispatching = Ok (1, d_crashed).
Proof. vm_compute. reflexivity. Qed.

Lemma d_prepared_reached : rtc (calls_step sample_store one_each) empty_db d_prepared.
Proof. eapply rtc_once, (cs_prepare _ _ (sample_call "k1") 5), d_prepared_eq. Qed.

Lemma d_dispatching_reached : rtc (calls_step sample_store one_each) d_prepared d_dispatching.
Proof. eapply rtc_once, cs_advance, d_dispatching_eq. Qed.

Lemma d_crashed_reached : rtc (calls_step sample_store one_each) d_dispatching d_crashed.
Proof. eapply rtc_once, cs_resolve, d_crashed_eq. Qed.
Lemma d_dispatching_from_empty : rtc (calls_step sample_store one_each) empty_db d_dispatching.
Proof. etrans; [apply d_prepared_reached|apply d_dispatching_reached]. Qed.

Example operation_budget_witness :
  prepare_call (sample_call "k2") 1 8 d_dispatching = Ok (BudgetExhausted 1, d_dispatching).
Proof.
  destruct (operation_budget sample_store one_each d_dispatching "wo-1" (sample_call "k2") 8)
    as (_ & out & d' & Hp & Ho).
  - apply d_dispatching_from_empty.
  - vm_compute. discriminate.
  - reflexivity.
  - etrans; [exact Hp|]. by destruct Ho as [-> ->].
Defined.

Example calls_refine_machine_witness :
  exists r' st', tbl_calls d_crashed !! "k1" = Some r' /\ ca_state r' = SubAttempt.as_str st'.
Proof.
  destruct (calls_refine_machine sample_store one_each d_prepared d_crashed "k1"
    (prepared_row (sample_call "k1") 5)) as (r' & st & evs & st' & Hk & _ & _ & _ & Hs).
  - apply d_prepared_reached.
  - etrans; [apply d_dispatching_reached|apply d_crashed_reached].
  - vm_compute. reflexivity.
  - by exists r', st'.
Defined.

Example dispatch_once_witness : exists e, advance_call "k1" Dispatch 9 d_crashed = Ok (Err e, d_crashed).
Proof.
  apply (dispatch_once sample_store one_each "k1" 6 Dispatching d_prepared d_dispatching d_crashed 9).
  - apply (calls_steps_inv _ _ _ _ d_prepared_reached), empty_calls_inv.
  - apply d_dispatching_eq.
  - apply d_crashed_reached.
Defined.

Example processor_round_trip_witness :
  exists d1 d2, put_processor sample_store (repeat "n"%char 24) sample_config 5 empty_db = Ok ((), d1) /\
    put_credential sample_store (repeat "m"%char 24) "reviewer" (as_bytes "key") 5 d1 = Ok ((), d2) /\
    get_processor sample_store "reviewer" d2 = Ok (Some sample_config, d2).
Proof.
  destruct (processor_round_trip sample_store (repeat "n"%char 24) (repeat "m"%char 24) sample_config
    (as_bytes "key") 5 empty_db) as (d1 & d2 & H1 & H2 & H3 & _);
    [reflexivity|reflexivity|vm_compute; discriminate|vm_compute; discriminate|].
  exists d1, d2. split; [exact H1|]. split; [exact H2|exact H3].
Defined.
End sample.
End StoreCalls.
