(* ===== verification/StoreCoord.v ===== *)
(** The coordination surface in the store (akson-store/src/lib.rs
    [stage_contract], [mint_consent_receipt], [dispatch_staged], [record_egress],
    the event feed and their readers): bytes are staged inertly, the operator's
    one-shot receipt authorizes one disclosure of exactly those bytes, and the
    dispatch ledger spends it. *)
From S2P Require Import Prelude Crypto Json Envelope AuditLog Contract Broker Db StoreContracts.
Import Json (Json, Json_wire, JNull, JBool, JInt, JFloat, JStr, JArr, JObj).
Import StoreContracts (collect, collect_Ok).

Module StoreCoord.

Definition COORD_STAGED_CONTEXT : string := "coord.staged_payload".
Definition COORD_CONSENT_CONTEXT : string := "coord.consent_receipt".
Definition COORD_EVENT_CONTEXT : string := "coord.event_detail".
Definition COORD_EVENT_STAGED : string := "staged".
Definition COORD_EVENT_CONSENT : string := "consent_recorded".
Definition COORD_EVENT_DISPATCHED : string := "dispatched".
Definition COORD_EVENT_EGRESS : string := "egress_recorded".
Definition COORD_EGRESS_PENDING : string := "pending".
Definition COORD_EGRESS_SENT : string := "sent".
Definition COORD_EGRESS_FAILED : string := "failed".
Definition COORD_STATUS_STAGED : string := "staged".
Definition COORD_STATUS_CONSENTED : string := "consented".
Definition COORD_STATUS_DISPATCHED : string := "dispatched".

Record NewStagedContract := mkNewStaged {
  n_stage_ref : string;
  n_staged_digest : string;
  n_task_type : string;
  n_performer : string;
  n_payload_sha256 : string;
  n_payload : bytes;
  n_event : Json;
}.

Record StagedContract := mkStaged {
  g_stage_ref : string;
  g_staged_digest : string;
  g_task_type : string;
  g_performer : string;
  g_payload_sha256 : string;
  g_byte_length : Z;
  g_status : string;
  g_staged_at : Z;
}.

Inductive StageOutcome := Staged (r : StagedContract) | AlreadyStaged (r : StagedContract).

Definition stage_record (o : StageOutcome) : StagedContract :=
  match o with Staged r | AlreadyStaged r => r end.

Definition already_staged (o : StageOutcome) : bool :=
  match o with AlreadyStaged _ => true | Staged _ => false end.

Record ConsentReceipt := mkReceipt {
  r_receipt_id : string;
  r_stage_ref : string;
  r_staged_digest : string;
  r_max_uses : Z;
  r_uses : Z;
  r_minted_at : Z;
}.

Record CoordEvent := mkCoordEvent {
  e_seq : Z;
  e_kind : string;
  e_stage_ref : option string;
  e_detail : Json;
  e_at : Z;
}.

Record DispatchRecord := mkDispatch {
  x_execution_key : string;
  x_stage_ref : string;
  x_staged_digest : string;
  x_receipt_id : string;
  x_dispatch_receipt : string;
  x_dispatched_at : Z;
  x_egress_state : string;
  x_egress_detail : string;
  x_egress_at : option Z;
}.

Definition egress_may_be_attempted (r : DispatchRecord) : bool :=
  bool_decide (x_egress_state r <> COORD_EGRESS_SENT).

(** The one-shot authority: only [dispatch_staged] makes one. *)
Record ConsentBurn := mkBurn {
  bn_receipt_id : string;
  bn_stage_ref : string;
  bn_staged_digest : string;
  bn_execution_key : string;
  bn_dispatch_receipt : string;
  bn_dispatched_at : Z;
}.

Definition into_record (b : ConsentBurn) : DispatchRecord :=
  mkDispatch (bn_execution_key b) (bn_stage_ref b) (bn_staged_digest b) (bn_receipt_id b)
    (bn_dispatch_receipt b) (bn_dispatched_at b) COORD_EGRESS_PENDING "" None.

Inductive DispatchOutcome :=
| Dispatched (b : ConsentBurn)
| AlreadyDispatched (r : DispatchRecord)
| ConsentSpent
| ConsentUnknown
| ExecutionKeyConflict (r : DispatchRecord).

Definition tbl_staged (d : Db) := coord_staged (coord_db d).
Definition tbl_consents (d : Db) := coord_consents (coord_db d).
Definition tbl_events (d : Db) := coord_events (coord_db d).
Definition tbl_dispatches (d : Db) := coord_dispatches (coord_db d).
Definition on_staged f := upd_coord_db (upd_coord_staged f).
Definition on_consents f := upd_coord_db (upd_coord_consents f).
Definition on_events f := upd_coord_db (upd_coord_events f).
Definition on_dispatches f := upd_coord_db (upd_coord_dispatches f).

Definition staged_from_row (k : string) (r : StagedRow) : StagedContract :=
  mkStaged k (sg_staged_digest r) (sg_task_type r) (sg_performer r) (sg_payload_sha256 r)
    (sg_byte_length r) (sg_status r) (sg_staged_at r).

Definition staged_row (k : string) : M (option StagedContract) :=
  gets (fun d => staged_from_row k <$> tbl_staged d !! k).

Definition staged_contract (k : string) : M (option StagedContract) := staged_row k.

Definition dispatch_from_row (k : string) (r : DispatchRow) : DispatchRecord :=
  mkDispatch k (dp_stage_ref r) (dp_staged_digest r) (dp_receipt_id r) (dp_dispatch_receipt r)
    (dp_dispatched_at r) (dp_egress_state r) (dp_egress_detail r) (dp_egress_at r).

Definition dispatch_by_key (k : string) : M (option DispatchRecord) :=
  gets (fun d => dispatch_from_row k <$> tbl_dispatches d !! k).

(** A lookup by another column; the statement has no [ORDER BY], so when several
    rows match it returns some one of them. *)
Definition dispatch_by (p : DispatchRow -> bool) : M (option DispatchRecord) :=
  gets (fun d => (fun kv => dispatch_from_row kv.1 kv.2) <$> first_row (fun _ r => p r) (tbl_dispatches d)).

Definition coord_dispatch (task_id : string) : M (option DispatchRecord) :=
  row ← dispatch_by (fun r => bool_decide (dp_dispatch_receipt r = task_id));
  match row with
  | Some r => mret (Some r)
  | None => dispatch_by (fun r => bool_decide (dp_stage_ref r = task_id))
  end.

Definition unspent (stage : string) (_ : string) (r : ConsentRow) : bool :=
  bool_decide (cs_stage_ref r = stage /\ (cs_uses r < cs_max_uses r)%Z).

(** The rows in [minted_at] order; [LIMIT 1] takes the first. *)
Definition minted_le (a b : string * ConsentRow) : Prop := (cs_minted_at a.2 <= cs_minted_at b.2)%Z.

#[global] Instance minted_le_dec : RelDecision minted_le.
Proof. intros a b. unfold minted_le. apply _. Defined.

Definition unconsumed_row (stage : string) : M (option ConsentReceipt) :=
  gets (fun d => (fun kv => mkReceipt kv.1 (cs_stage_ref kv.2) (cs_staged_digest kv.2) (cs_max_uses kv.2)
                              (cs_uses kv.2) (cs_minted_at kv.2)) <$>
    head (merge_sort minted_le (rows_where (unspent stage) (tbl_consents d)))).

Definition unconsumed_consent (stage : string) : M (option ConsentReceipt) := unconsumed_row stage.

Definition set_status (t : string) (r : StagedRow) : StagedRow :=
  mkStagedRow (sg_staged_digest r) (sg_task_type r) (sg_performer r) (sg_payload_sha256 r)
    (sg_byte_length r) (sg_payload r) t (sg_staged_at r).

(** [AUTOINCREMENT] on a table nothing is deleted from. *)
Definition next_seq (l : list EventRow) : Z := match last l with Some e => (ev_seq e + 1)%Z | None => 1 end.

(** [LIMIT ?], bound as [limit as i64]: a negative limit is no limit. *)
Definition limit_rows {A} (limit : Z) (l : list A) : list A :=
  if (as_i64 limit <? 0)%Z then l else take (Z.to_nat (as_i64 limit)) l.

Section coord.
Context {HS : Hashes} {AE : Aead} {CJ : Codec Json}.

(** ** The event feed *)

Definition append_event_in (s : Store) (nonce : bytes) (kind : string) (stage_ref : option string)
  (detail : Json) (now : Z) : M Z :=
  let sealed := seal s COORD_EVENT_CONTEXT nonce (encode detail) in
  seq ← gets (fun d => next_seq (tbl_events d));
  _ ← modify (on_events (fun l => l ++ [mkEventRow seq kind stage_ref sealed now]));
  mret seq.

Definition append_coord_event (s : Store) (nonce : bytes) (kind : string) (stage_ref : option string)
  (detail : Json) (now : Z) : M Z := append_event_in s nonce kind stage_ref detail now.

Definition open_event (s : Store) (r : EventRow) : result StoreError CoordEvent :=
  b ← open_col s COORD_EVENT_CONTEXT (ev_detail r);
  detail ← parse_json b;
  Ok (mkCoordEvent (ev_seq r) (ev_kind r) (ev_stage_ref r) detail (ev_at r)).

(** The table is kept in sequence order. *)
Definition read_coord_events (s : Store) (after_seq limit : Z) : M (list CoordEvent) :=
  rows ← gets (fun d => limit_rows limit (List.filter (fun r => (after_seq <? ev_seq r)%Z) (tbl_events d)));
  lift (collect (open_event s) rows).

Definition coord_events_head : M Z :=
  gets (fun d => foldr (fun r m => Z.max (ev_seq r) m) 0%Z (tbl_events d)).

(** ** Staging *)

Definition stage_contract (s : Store) (nonce1 nonce2 : bytes) (new : NewStagedContract) (now : Z) :
  M StageOutcome :=
  existing ← staged_row (n_stage_ref new);
  match existing with
  | Some r => mret (AlreadyStaged r)
  | None =>
      let sealed := seal s COORD_STAGED_CONTEXT nonce1 (n_payload new) in
      let byte_length := Z.of_nat (length (n_payload new)) in
      clash ← gets (fun d => count_where
        (fun _ r => bool_decide (sg_staged_digest r = n_staged_digest new)) (tbl_staged d));
      if decide (clash <> 0) then fail (DbError Constraint)
      else
        m ← gets tbl_staged;
        m' ← lift (insert_new (n_stage_ref new)
               (mkStagedRow (n_staged_digest new) (n_task_type new) (n_performer new)
                  (n_payload_sha256 new) byte_length sealed "staged" now) m);
        _ ← modify (on_staged (fun _ => m'));
        _ ← append_event_in s nonce2 COORD_EVENT_STAGED (Some (n_stage_ref new)) (n_event new) now;
        _ ← audit now "coord.staged" (n_stage_ref new);
        mret (Staged (mkStaged (n_stage_ref new) (n_staged_digest new) (n_task_type new) (n_performer new)
                        (n_payload_sha256 new) byte_length COORD_STATUS_STAGED now))
  end.

Definition staged_payload (s : Store) (k : string) : M (option bytes) :=
  o ← gets (fun d => sg_payload <$> tbl_staged d !! k);
  match o with
  | Some sealed => p ← lift (open_col s COORD_STAGED_CONTEXT sealed); mret (Some p)
  | None => mret None
  end.

(** ** Consent *)

Definition mint_consent_receipt (s : Store) (nonce1 nonce2 : bytes) (stage receipt_id : string)
  (receipt_body : bytes) (event : Json) (now : Z) : M (option ConsentReceipt) :=
  o ← staged_row stage;
  match o with
  | None => fail (Corrupt "consent for an unstaged reference")
  | Some staged =>
      live ← unconsumed_row stage;
      match live with
      | Some _ => mret None
      | None =>
          let sealed := seal s COORD_CONSENT_CONTEXT nonce1 receipt_body in
          m ← gets tbl_consents;
          m' ← lift (insert_new receipt_id
                 (mkConsentRow stage (g_staged_digest staged) sealed 1 0 now) m);
          _ ← modify (on_consents (fun _ => m'));
          _ ← modify (on_staged (alter (set_status "consented") stage));
          _ ← append_event_in s nonce2 COORD_EVENT_CONSENT (Some stage) event now;
          _ ← audit now "coord.consent_minted" stage;
          mret (Some (mkReceipt receipt_id stage (g_staged_digest staged) 1 0 now))
      end
  end.

(** ** Dispatch *)

Definition spend (r : ConsentRow) : ConsentRow :=
  mkConsentRow (cs_stage_ref r) (cs_staged_digest r) (cs_receipt r) (cs_max_uses r) (cs_uses r + 1)
    (cs_minted_at r).

(** The rows the compare-and-set matches: at most one, [receipt_id] is the key. *)
Definition spendable (receipt stage : string) (k : string) (r : ConsentRow) : bool :=
  bool_decide (k = receipt /\ cs_stage_ref r = stage /\ (cs_uses r < cs_max_uses r)%Z).

Definition dispatch_staged (s : Store) (nonce : bytes) (stage receipt execution_key dispatch_receipt : string)
  (event : Json) (now : Z) : M DispatchOutcome :=
  prior ← dispatch_by_key execution_key;
  match prior with
  | Some existing =>
      mret (if decide (x_stage_ref existing = stage /\ x_receipt_id existing = receipt)
            then AlreadyDispatched existing else ExecutionKeyConflict existing)
  | None =>
      spent ← gets (fun d => count_where (spendable receipt stage) (tbl_consents d));
      _ ← modify (on_consents (update_where (spendable receipt stage) spend));
      if decide (spent <> 1) then
        exists_ ← gets (fun d => match tbl_consents d !! receipt with
                                 | Some r => bool_decide (cs_stage_ref r = stage)
                                 | None => false
                                 end);
        mret (if (exists_ : bool) then ConsentSpent else ConsentUnknown)
      else
        o ← gets (fun d => cs_staged_digest <$> tbl_consents d !! receipt);
        dg ← lift (ok_or o (DbError OutOfRange));
        clash ← gets (fun d => count_where (fun _ r => bool_decide (dp_receipt_id r = receipt \/
                                   dp_dispatch_receipt r = dispatch_receipt)) (tbl_dispatches d));
        if decide (clash <> 0) then fail (DbError Constraint)
        else
          m ← gets tbl_dispatches;
          m' ← lift (insert_new execution_key
                 (mkDispatchRow stage dg receipt dispatch_receipt now "pending" "" None) m);
          _ ← modify (on_dispatches (fun _ => m'));
          _ ← modify (on_staged (alter (set_status "dispatched") stage));
          _ ← append_event_in s nonce COORD_EVENT_DISPATCHED (Some stage) event now;
          _ ← audit now "coord.dispatched" stage;
          mret (Dispatched (mkBurn receipt stage dg execution_key dispatch_receipt now))
  end.

(** ** Carriage *)

Definition set_egress (state detail : string) (now : Z) (r : DispatchRow) : DispatchRow :=
  mkDispatchRow (dp_stage_ref r) (dp_staged_digest r) (dp_receipt_id r) (dp_dispatch_receipt r)
    (dp_dispatched_at r) state detail (Some now).

Definition record_egress (s : Store) (nonce : bytes) (execution_key state detail : string) (event : Json)
  (now : Z) : M (option DispatchRecord) :=
  if decide (state <> COORD_EGRESS_PENDING /\ state <> COORD_EGRESS_SENT /\ state <> COORD_EGRESS_FAILED)
  then fail (Corrupt "unknown egress state")
  else
    changed ← gets (fun d => match tbl_dispatches d !! execution_key with
                             | Some r => bool_decide (dp_egress_state r <> "sent")
                             | None => false
                             end);
    _ ← (if (changed : bool) then
           _ ← modify (on_dispatches (alter (set_egress state detail now) execution_key));
           _ ← append_event_in s nonce COORD_EVENT_EGRESS None event now;
           _ ← audit now "coord.egress" (execution_key +:+ ":" +:+ state);
           mret ()
         else mret ());
    dispatch_by_key execution_key.

(** [ORDER BY dispatched_at, execution_key]. *)
Definition dispatch_le (a b : string * DispatchRow) : Prop :=
  (dp_dispatched_at a.2 < dp_dispatched_at b.2)%Z \/
  (dp_dispatched_at a.2 = dp_dispatched_at b.2 /\ text_le a.1 b.1).

#[global] Instance dispatch_le_dec : RelDecision dispatch_le.
Proof. intros a b. unfold dispatch_le. apply _. Defined.

Definition unsent_dispatches (limit : Z) : M (list DispatchRecord) :=
  gets (fun d => (fun kv => dispatch_from_row kv.1 kv.2) <$>
    limit_rows limit (merge_sort dispatch_le
      (rows_where (fun _ r => bool_decide (dp_egress_state r <> "sent")) (tbl_dispatches d)))).

(** ** What each operation does *)

Lemma audit_coord ts ev de d n d' : audit ts ev de d = Ok (n, d') -> coord_db d' = coord_db d.
Proof. unfold audit. destruct (Audit.append _ _ _ _). by intros [= <- <-]. Qed.

(** The event an operation appends. *)
Definition new_event (s : Store) (nonce : bytes) (kind : string) (ref : option string) (detail : Json) (now : Z)
  (l : list EventRow) : EventRow :=
  mkEventRow (next_seq l) kind ref (seal s COORD_EVENT_CONTEXT nonce (encode detail)) now.

Lemma append_event_run s n kind ref detail now d :
  append_event_in s n kind ref detail now d =
  Ok (next_seq (tbl_events d), on_events (fun l => l ++ [new_event s n kind ref detail now (tbl_events d)]) d).
Proof. done. Qed.

Definition fresh_row (s : Store) (n1 : bytes) (new : NewStagedContract) (now : Z) : StagedRow :=
  mkStagedRow (n_staged_digest new) (n_task_type new) (n_performer new) (n_payload_sha256 new)
    (Z.of_nat (length (n_payload new))) (seal s COORD_STAGED_CONTEXT n1 (n_payload new)) "staged" now.

Lemma stage_effect s n1 n2 new now d out d' :
  stage_contract s n1 n2 new now d = Ok (out, d') ->
  match out with
  | AlreadyStaged r => d' = d /\ exists g, tbl_staged d !! n_stage_ref new = Some g /\
      r = staged_from_row (n_stage_ref new) g
  | Staged r => tbl_staged d !! n_stage_ref new = None /\
      (forall k g, tbl_staged d !! k = Some g -> sg_staged_digest g <> n_staged_digest new) /\
      r = staged_from_row (n_stage_ref new) (fresh_row s n1 new now) /\
      coord_db d' = mkCoordDb (<[n_stage_ref new := fresh_row s n1 new now]> (tbl_staged d)) (tbl_consents d)
        (tbl_events d ++ [new_event s n2 COORD_EVENT_STAGED (Some (n_stage_ref new)) (n_event new) now (tbl_events d)])
        (tbl_dispatches d)
  end.
Proof.
  unfold stage_contract, staged_row. rewrite bind_gets.
  destruct (tbl_staged d !! n_stage_ref new) as [g|] eqn:E; simpl.
  - unfold_M. intros [= <- <-]. eauto.
  - rewrite bind_gets. case_decide as Hc; [done|]. rewrite bind_gets. unfold insert_new. rewrite E.
    rewrite bind_lift, bind_modify, (bind_run _ _ _ _ _ (append_event_run _ _ _ _ _ _ _)).
    intros (k & d2 & Ha%audit_coord & H)%bind_Ok. unfold_M. simplify_eq. rewrite Ha.
    split_and!; [done| |done|done].
    intros k' g Hk. apply (proj1 (count_where_zero _ _)) with (k := k') (v := g) in Hc; [|done].
    by apply bool_decide_eq_false in Hc.
Qed.

Lemma unconsumed_None stage d d' :
  unconsumed_row stage d = Ok (None, d') ->
  forall k c, tbl_consents d !! k = Some c -> cs_stage_ref c = stage -> (cs_max_uses c <= cs_uses c)%Z.
Proof.
  unfold unconsumed_row, gets. intros [= H _] k c Hk Hc. destruct (Z.lt_ge_cases (cs_uses c) (cs_max_uses c)); [|lia].
  exfalso. assert ((k, c) ∈ merge_sort minted_le (rows_where (unspent stage) (tbl_consents d))) as Hin.
  { rewrite merge_sort_Permutation. apply elem_of_rows_where. split; [done|]. by apply bool_decide_eq_true. }
  destruct (merge_sort _ _); [by apply not_elem_of_nil in Hin|done].
Qed.

Definition minted_row (s : Store) (n1 : bytes) (stage dg : string) (body : bytes) (now : Z) : ConsentRow :=
  mkConsentRow stage dg (seal s COORD_CONSENT_CONTEXT n1 body) 1 0 now.

Lemma mint_effect s n1 n2 stage rid body ev now d out d' :
  mint_consent_receipt s n1 n2 stage rid body ev now d = Ok (out, d') ->
  match out with
  | None => d' = d
  | Some r => exists g, tbl_staged d !! stage = Some g /\ tbl_consents d !! rid = None /\
      (forall k c, tbl_consents d !! k = Some c -> cs_stage_ref c = stage -> (cs_max_uses c <= cs_uses c)%Z) /\
      r = mkReceipt rid stage (sg_staged_digest g) 1 0 now /\
      coord_db d' = mkCoordDb (alter (set_status "consented") stage (tbl_staged d))
        (<[rid := minted_row s n1 stage (sg_staged_digest g) body now]> (tbl_consents d))
        (tbl_events d ++ [new_event s n2 COORD_EVENT_CONSENT (Some stage) ev now (tbl_events d)])
        (tbl_dispatches d)
  end.
Proof.
  unfold mint_consent_receipt, staged_row. rewrite bind_gets.
  destruct (tbl_staged d !! stage) as [g|] eqn:E; simpl; [|done].
  intros (live & d1 & Hu & H)%bind_Ok. pose proof Hu as Hu'. unfold unconsumed_row, gets in Hu'.
  injection Hu' as _ <-. destruct live as [x|]; [unfold_M; by simplify_eq|].
  rewrite bind_gets in H. unfold insert_new in H. destruct (tbl_consents d !! rid) eqn:Ec; [done|].
  rewrite bind_lift, !bind_modify, (bind_run _ _ _ _ _ (append_event_run _ _ _ _ _ _ _)) in H.
  apply bind_Ok in H as (k & d2 & Ha%audit_coord & H). unfold_M. simplify_eq. exists g.
  split_and!; [done|done|by eapply unconsumed_None|done|by rewrite Ha].
Qed.

Lemma spendable_at receipt stage j w : spendable receipt stage j w = true -> j = receipt.
Proof. intros H%bool_decide_eq_true. naive_solver. Qed.

Lemma on_consents_id d : on_consents (fun _ => tbl_consents d) d = d.
Proof. by destruct d as [? ? ? ? ? ? ? ? []]. Qed.

Lemma on_consents_none p f d : count_where p (tbl_consents d) = 0 -> on_consents (update_where p f) d = d.
Proof.
  intros Hz. rewrite <- (on_consents_id d) at 2. unfold on_consents, upd_coord_db, upd_coord_consents. do 2 f_equal.
  by apply update_where_none.
Qed.

Lemma spent_count r d rid stage :
  tbl_consents d !! rid = Some r -> (cs_max_uses r <= cs_uses r)%Z ->
  count_where (spendable rid stage) (tbl_consents d) = 0.
Proof.
  intros Hr Hu. rewrite (count_where_at _ _ rid (spendable_at rid stage)), Hr.
  destruct (spendable rid stage rid r) eqn:E; [|done]. apply bool_decide_eq_true in E. lia.
Qed.

Lemma dispatch_effect s n stage rid key dr ev now d out d' :
  dispatch_staged s n stage rid key dr ev now d = Ok (out, d') ->
  match out with
  | Dispatched b => exists c, tbl_consents d !! rid = Some c /\ cs_stage_ref c = stage /\
      (cs_uses c < cs_max_uses c)%Z /\ tbl_dispatches d !! key = None /\
      (forall k x, tbl_dispatches d !! k = Some x -> dp_receipt_id x <> rid /\ dp_dispatch_receipt x <> dr) /\
      b = mkBurn rid stage (cs_staged_digest c) key dr now /\
      coord_db d' = mkCoordDb (alter (set_status "dispatched") stage (tbl_staged d))
        (<[rid := spend c]> (tbl_consents d))
        (tbl_events d ++ [new_event s n COORD_EVENT_DISPATCHED (Some stage) ev now (tbl_events d)])
        (<[key := mkDispatchRow stage (cs_staged_digest c) rid dr now "pending" "" None]> (tbl_dispatches d))
  | AlreadyDispatched r => d' = d /\ exists x, tbl_dispatches d !! key = Some x /\
      r = dispatch_from_row key x /\ dp_stage_ref x = stage /\ dp_receipt_id x = rid
  | ExecutionKeyConflict r => d' = d /\ exists x, tbl_dispatches d !! key = Some x /\
      r = dispatch_from_row key x /\ ~ (dp_stage_ref x = stage /\ dp_receipt_id x = rid)
  | ConsentSpent => d' = d /\ tbl_dispatches d !! key = None /\ exists c, tbl_consents d !! rid = Some c /\
      cs_stage_ref c = stage /\ (cs_max_uses c <= cs_uses c)%Z
  | ConsentUnknown => d' = d /\ tbl_dispatches d !! key = None /\
      forall c, tbl_consents d !! rid = Some c -> cs_stage_ref c <> stage
  end.
Proof.
  unfold dispatch_staged, dispatch_by_key. rewrite bind_gets.
  destruct (tbl_dispatches d !! key) as [x|] eqn:Ex; simpl.
  { unfold_M. intros [= <- <-]. case_decide as Hc; split; try done; by exists x. }
  rewrite bind_gets, bind_modify. rewrite (count_where_at _ _ rid (spendable_at rid stage)).
  destruct (decide (match tbl_consents d !! rid with
    | Some v => if spendable rid stage rid v then 1 else 0 | None => 0 end <> 1)) as [Hn|Hn].
  - assert (on_consents (update_where (spendable rid stage) spend) d = d) as ->.
    { rewrite <- (on_consents_id d) at 2. unfold on_consents, upd_coord_db, upd_coord_consents. do 2 f_equal.
      apply update_where_none. rewrite (count_where_at _ _ rid (spendable_at rid stage)).
      change (coord_consents (coord_db d)) with (tbl_consents d).
      destruct (tbl_consents d !! rid) as [v|]; [|done]. by destruct (spendable rid stage rid v). }
    rewrite bind_gets. unfold_M. intros [= <- <-]. destruct (tbl_consents d !! rid) as [c|] eqn:Ec; [|done].
    case_bool_decide as Hs; [|by split_and!; [..|intros c' [= <-]]]. split_and!; [done|done|]. exists c. split_and!; [done..|].
    destruct (spendable rid stage rid c) eqn:Es; [done|]. apply bool_decide_eq_false in Es.
    destruct (Z.lt_ge_cases (cs_uses c) (cs_max_uses c)); [naive_solver|lia].
  - destruct (tbl_consents d !! rid) as [c|] eqn:Ec; [|lia].
    destruct (spendable rid stage rid c) eqn:Es; [|lia].
    pose proof (update_where_at (spendable rid stage) spend (tbl_consents d) rid c Ec Es
      (spendable_at rid stage)) as Hup. apply bool_decide_eq_true in Es as (_ & Hst & Hlt).
    rewrite bind_gets.
    assert (tbl_consents (on_consents (update_where (spendable rid stage) spend) d) = <[rid := spend c]> (tbl_consents d)) as Hc
      by exact Hup.
    rewrite Hc, lookup_insert_eq. cbn [fmap option_fmap option_map ok_or spend cs_staged_digest].
    rewrite bind_lift, bind_gets. case_decide as Hcl; [done|].
    rewrite bind_gets. unfold insert_new.
    change (tbl_dispatches (on_consents ?f d)) with (tbl_dispatches d) in *. rewrite Ex.
    rewrite bind_lift, !bind_modify, (bind_run _ _ _ _ _ (append_event_run _ _ _ _ _ _ _)).
    intros (k & d2 & Ha%audit_coord & H)%bind_Ok. unfold_M. simplify_eq. exists c.
    split_and!; [done..| |done|].
    + intros k' x Hk. apply (proj1 (count_where_zero _ _)) with (k := k') (v := x) in Hcl; [|done].
      apply bool_decide_eq_false in Hcl. naive_solver.
    + rewrite Ha, <- Hup. done.
Qed.

Lemma egress_effect s n key st de ev now d out d' :
  record_egress s n key st de ev now d = Ok (out, d') ->
  (st = "pending" \/ st = "sent" \/ st = "failed") /\
  ((d' = d /\ out = dispatch_from_row key <$> tbl_dispatches d !! key /\
      forall x, tbl_dispatches d !! key = Some x -> dp_egress_state x = "sent") \/
   (exists x, tbl_dispatches d !! key = Some x /\ dp_egress_state x <> "sent" /\
      out = Some (dispatch_from_row key (set_egress st de now x)) /\
      coord_db d' = mkCoordDb (tbl_staged d) (tbl_consents d)
        (tbl_events d ++ [new_event s n COORD_EVENT_EGRESS None ev now (tbl_events d)])
        (<[key := set_egress st de now x]> (tbl_dispatches d)))).
Proof.
  unfold record_egress. case_decide as Hst; [done|]. rewrite bind_gets. intros H. split.
  { unfold COORD_EGRESS_PENDING, COORD_EGRESS_SENT, COORD_EGRESS_FAILED in Hst.
    destruct (decide (st = "pending")), (decide (st = "sent")), (decide (st = "failed")); naive_solver. }
  destruct (tbl_dispatches d !! key) as [x|] eqn:E.
  - case_bool_decide as Hs.
    + right. exists x. apply bind_Ok in H as (u & d1 & H1 & H2). rewrite bind_modify in H1.
      rewrite (bind_run _ _ _ _ _ (append_event_run _ _ _ _ _ _ _)) in H1.
      apply bind_Ok in H1 as (k & d2 & Ha%audit_coord & H1). unfold mret, M_ret in H1. simplify_eq.
      assert (coord_db d1 = mkCoordDb (tbl_staged d) (tbl_consents d)
        (tbl_events d ++ [new_event s n COORD_EVENT_EGRESS None ev now (tbl_events d)])
        (<[key := set_egress st de now x]> (tbl_dispatches d))) as Hd.
      { rewrite Ha. simpl. unfold upd_coord_dispatches, upd_coord_events. simpl.
        by rewrite (alter_as_insert _ _ _ x E). }
      unfold dispatch_by_key, gets in H2. simplify_eq. split_and!; [done|done| |done].
      unfold tbl_dispatches. rewrite Hd. simpl. by rewrite lookup_insert_eq.
    + left. unfold_M. simplify_eq. unfold dispatch_by_key, gets in H. simplify_eq.
      split_and!; [done|by rewrite E|]. by intros x' [= <-].
  - left. unfold_M. unfold dispatch_by_key, gets in H. simplify_eq. by rewrite E.
Qed.

(** ** The ledger invariant *)

Record coord_inv (c : CoordDb) : Prop := {
  (** A receipt is good for one use and names a staged contract and its digest. *)
  ci_consent : forall k r, coord_consents c !! k = Some r ->
    cs_max_uses r = 1%Z /\ (cs_uses r = 0%Z \/ cs_uses r = 1%Z) /\
    exists g, coord_staged c !! cs_stage_ref r = Some g /\ sg_staged_digest g = cs_staged_digest r;
  (** A dispatch is backed by a spent receipt for its stage and digest. *)
  ci_dispatch : forall k x, coord_dispatches c !! k = Some x ->
    exists r, coord_consents c !! dp_receipt_id x = Some r /\ cs_uses r = 1%Z /\
      cs_stage_ref r = dp_stage_ref x /\ cs_staged_digest r = dp_staged_digest x;
  ci_unique : forall i j x y, coord_dispatches c !! i = Some x -> coord_dispatches c !! j = Some y ->
    dp_receipt_id x = dp_receipt_id y -> i = j;
  (** A spent receipt has its dispatch. *)
  ci_spent : forall k r, coord_consents c !! k = Some r -> cs_uses r = 1%Z ->
    exists key x, coord_dispatches c !! key = Some x /\ dp_receipt_id x = k;
  (** One live authorization per stage. *)
  ci_live : forall i j r q, coord_consents c !! i = Some r -> coord_consents c !! j = Some q ->
    cs_stage_ref r = cs_stage_ref q -> cs_uses r = 0%Z -> cs_uses q = 0%Z -> i = j;
  ci_egress : forall k x, coord_dispatches c !! k = Some x ->
    dp_egress_state x = "pending" \/ dp_egress_state x = "sent" \/ dp_egress_state x = "failed";
  (** The feed is numbered from one without gaps. *)
  ci_feed : forall i e, coord_events c !! i = Some e -> ev_seq e = (Z.of_nat i + 1)%Z;
}.

Inductive coord_step (s : Store) : Db -> Db -> Prop :=
| co_stage n1 n2 new now out d d' : stage_contract s n1 n2 new now d = Ok (out, d') -> coord_step s d d'
| co_mint n1 n2 stage rid body ev now out d d' :
    mint_consent_receipt s n1 n2 stage rid body ev now d = Ok (out, d') -> coord_step s d d'
| co_dispatch n stage rid key dr ev now out d d' :
    dispatch_staged s n stage rid key dr ev now d = Ok (out, d') -> coord_step s d d'
| co_egress n key st de ev now out d d' :
    record_egress s n key st de ev now d = Ok (out, d') -> coord_step s d d'
| co_event n kind ref detail now seq d d' :
    append_coord_event s n kind ref detail now d = Ok (seq, d') -> coord_step s d d'.

Lemma feed_append s n kind ref ev now (l : list EventRow) :
  (forall i e, l !! i = Some e -> ev_seq e = (Z.of_nat i + 1)%Z) ->
  forall i e, (l ++ [new_event s n kind ref ev now l]) !! i = Some e -> ev_seq e = (Z.of_nat i + 1)%Z.
Proof.
  intros Hl i e. rewrite lookup_app_Some. intros [?|[Hge Hi]]; [eauto|].
  apply list_lookup_singleton_Some in Hi as [Hi <-]. simpl. unfold next_seq.
  assert (i = length l) as -> by lia. rewrite last_lookup. destruct l as [|x l] using rev_ind; [done|].
  rewrite length_app. simpl. rewrite Nat.add_1_r. simpl. rewrite lookup_app_r, Nat.sub_diag by lia. simpl.
  rewrite (Hl (length l) x); [lia|]. by rewrite lookup_app_r, Nat.sub_diag by lia.
Qed.

(** A status change leaves every staged digest in place. *)
Lemma staged_digest_alter t k (m : gmap string StagedRow) j g :
  m !! j = Some g -> exists g', alter (set_status t) k m !! j = Some g' /\
    sg_staged_digest g' = sg_staged_digest g /\ sg_payload g' = sg_payload g.
Proof.
  intros Hj. destruct (decide (k = j)) as [->|Hne].
  - rewrite lookup_alter_eq, Hj. by eexists.
  - rewrite lookup_alter_ne by done. eauto.
Qed.

Lemma inv_stage c ref row evs :
  coord_inv c -> coord_staged c !! ref = None ->
  (forall i e, evs !! i = Some e -> ev_seq e = (Z.of_nat i + 1)%Z) ->
  coord_inv (mkCoordDb (<[ref := row]> (coord_staged c)) (coord_consents c) evs (coord_dispatches c)).
Proof.
  intros [H1 H2 H3 H4 H5 H6 H7] Hn Hev. constructor; simpl; try done.
  intros k r Hk. destruct (H1 _ _ Hk) as (? & ? & g & Hg & ?). split_and!; [done..|]. exists g.
  rewrite lookup_insert_ne by congruence. done.
Qed.

Lemma inv_mint c s n1 stage g rid body now evs :
  coord_inv c -> coord_staged c !! stage = Some g -> coord_consents c !! rid = None ->
  (forall k r, coord_consents c !! k = Some r -> cs_stage_ref r = stage -> (cs_max_uses r <= cs_uses r)%Z) ->
  (forall i e, evs !! i = Some e -> ev_seq e = (Z.of_nat i + 1)%Z) ->
  coord_inv (mkCoordDb (alter (set_status "consented") stage (coord_staged c))
    (<[rid := minted_row s n1 stage (sg_staged_digest g) body now]> (coord_consents c)) evs (coord_dispatches c)).
Proof.
  intros [H1 H2 H3 H4 H5 H6 H7] Hg Hn Hsp Hev. constructor; simpl; try done.
  - intros k r. rewrite lookup_insert_Some. intros [[<- <-]|[_ Hk]].
    + split_and!; [done|by left|]. destruct (staged_digest_alter "consented" stage _ _ _ Hg) as (g' & Hg' & Hd & _).
      exists g'. by rewrite Hd.
    + destruct (H1 _ _ Hk) as (? & ? & g0 & Hg0 & Hd0). split_and!; [done..|].
      destruct (staged_digest_alter "consented" stage _ _ _ Hg0) as (g' & Hg' & Hd & _). exists g'. by rewrite Hd.
  - intros k x Hk. destruct (H2 _ _ Hk) as (r & Hr & ?). exists r. rewrite lookup_insert_ne by congruence. done.
  - intros k r. rewrite lookup_insert_Some. intros [[<- <-]|[_ Hk]]; [done|eauto].
  - assert (forall k r, coord_consents c !! k = Some r -> cs_stage_ref r = stage -> cs_uses r <> 0%Z) as Hno.
    { intros k r Hk Hs. destruct (H1 _ _ Hk) as (Hm & _). specialize (Hsp _ _ Hk Hs). lia. }
    intros i j r q. rewrite !lookup_insert_Some. intros [[<- <-]|[_ Hi]] [[<- <-]|[_ Hj]] Hs Hu Hu'; simpl in *; eauto.
    + exfalso. by apply (Hno _ _ Hj).
    + exfalso. by apply (Hno _ _ Hi).
Qed.

Lemma inv_dispatch c stage rid key dr now r evs :
  coord_inv c -> coord_consents c !! rid = Some r -> cs_stage_ref r = stage -> (cs_uses r < cs_max_uses r)%Z ->
  coord_dispatches c !! key = None ->
  (forall k x, coord_dispatches c !! k = Some x -> dp_receipt_id x <> rid) ->
  (forall i e, evs !! i = Some e -> ev_seq e = (Z.of_nat i + 1)%Z) ->
  coord_inv (mkCoordDb (alter (set_status "dispatched") stage (coord_staged c))
    (<[rid := spend r]> (coord_consents c)) evs
    (<[key := mkDispatchRow stage (cs_staged_digest r) rid dr now "pending" "" None]> (coord_dispatches c))).
Proof.
  intros [H1 H2 H3 H4 H5 H6 H7] Hr Hs Hlt Hk Hno Hev. destruct (H1 _ _ Hr) as (Hm & Hu & g & Hg & Hd).
  assert (cs_uses (spend r) = 1%Z) as Hu1 by (simpl; lia).
  constructor; simpl; try done.
  - intros k q. rewrite lookup_insert_Some. intros [[<- <-]|[_ Hq]].
    + split_and!; [done|by right|]. destruct (staged_digest_alter "dispatched" stage _ _ _ Hg) as (g' & Hg' & Hd' & _).
      exists g'. by rewrite Hd'.
    + destruct (H1 _ _ Hq) as (? & ? & g0 & Hg0 & Hd0). split_and!; [done..|].
      destruct (staged_digest_alter "dispatched" stage _ _ _ Hg0) as (g' & Hg' & Hd' & _). exists g'. by rewrite Hd'.
  - intros k x. rewrite lookup_insert_Some. intros [[<- <-]|[_ Hx]]; simpl.
    + exists (spend r). by rewrite lookup_insert_eq.
    + destruct (H2 _ _ Hx) as (q & Hq & ?). exists q. rewrite lookup_insert_ne; [done|].
      intros Heq. by apply (Hno _ _ Hx).
  - intros i j x y. rewrite !lookup_insert_Some. intros [[<- <-]|[_ Hi]] [[<- <-]|[_ Hj]] He; simpl in *; eauto.
    + exfalso. by apply (Hno _ _ Hj).
    + exfalso. by apply (Hno _ _ Hi).
  - intros k q. rewrite lookup_insert_Some. intros [[<- <-]|[_ Hq]] Huse.
    + eexists key, _. by rewrite lookup_insert_eq.
    + destruct (H4 _ _ Hq Huse) as (key' & x & Hx & ?). exists key', x. by rewrite lookup_insert_ne by congruence.
  - intros i j q1 q2. rewrite !lookup_insert_Some.
    intros [[<- <-]|[_ Hi]] [[<- <-]|[_ Hj]] ? Hu0 Hu0'; try lia; eauto.
  - intros k x. rewrite lookup_insert_Some. intros [[<- <-]|[_ Hx]]; [by left|eauto].
Qed.

Lemma inv_egress c key x st de now evs :
  coord_inv c -> coord_dispatches c !! key = Some x -> (st = "pending" \/ st = "sent" \/ st = "failed") ->
  (forall i e, evs !! i = Some e -> ev_seq e = (Z.of_nat i + 1)%Z) ->
  coord_inv (mkCoordDb (coord_staged c) (coord_consents c) evs
    (<[key := set_egress st de now x]> (coord_dispatches c))).
Proof.
  intros [H1 H2 H3 H4 H5 H6 H7] Hk Hst Hev. constructor; simpl; try done.
  - intros k y. rewrite lookup_insert_Some. intros [[<- <-]|[_ Hy]]; simpl; eauto.
  - intros i j y z. rewrite !lookup_insert_Some. intros [[<- <-]|[_ Hi]] [[<- <-]|[_ Hj]] He; simpl in *; eauto.
  - intros k r Hr Hu. destruct (H4 _ _ Hr Hu) as (key' & y & Hy & Hrec). destruct (decide (key' = key)) as [->|Hne].
    + exists key, (set_egress st de now x). rewrite lookup_insert_eq. split; [done|]. simpl. congruence.
    + exists key', y. by rewrite lookup_insert_ne by done.
  - intros k y. rewrite lookup_insert_Some. intros [[<- <-]|[_ Hy]]; [done|eauto].
Qed.

Lemma coord_step_inv s d d' : coord_step s d d' -> coord_inv (coord_db d) -> coord_inv (coord_db d').
Proof.
  intros Hst Hinv. pose proof (ci_feed _ Hinv) as Hfeed.
  destruct Hst as [? ? ? ? out ? ? H|? ? ? ? ? ? ? out ? ? H|? ? ? ? ? ? ? out ? ? H|? ? ? ? ? ? ? ? ? H|? ? ? ? ? ? ? ? H].
  - apply stage_effect in H. destruct out; [|by destruct H as [-> _]].
    destruct H as (Hn & _ & _ & ->). apply inv_stage; [done..|]. by apply feed_append.
  - apply mint_effect in H. destruct out; [|by subst].
    destruct H as (g & Hg & Hn & Hsp & _ & ->). apply inv_mint; [done..|]. by apply feed_append.
  - apply dispatch_effect in H. destruct out; try (by destruct H as [-> _]).
    destruct H as (c & Hc & Hs & Hlt & Hk & Hno & _ & ->). apply inv_dispatch; [done..| |by apply feed_append].
    intros k x Hx. by apply (Hno _ _ Hx).
  - apply egress_effect in H as [Hst [[-> _]|(x & Hx & _ & _ & ->)]]; [done|].
    apply inv_egress; [done..|]. by apply feed_append.
  - unfold append_coord_event in H. rewrite append_event_run in H. simplify_eq.
    destruct Hinv. constructor; simpl; try done. by apply feed_append.
Qed.

Lemma coord_steps_inv s d d' : rtc (coord_step s) d d' -> coord_inv (coord_db d) -> coord_inv (coord_db d').
Proof. induction 1; [done|]. intros. eauto using coord_step_inv. Qed.

Lemma empty_coord_inv : coord_inv empty_coord_db.
Proof. by constructor. Qed.

(** ** Theorems *)

(** What a dispatch row is committed to, whatever its carriage does. *)
Definition committed (x : DispatchRow) := (dp_stage_ref x, dp_staged_digest x, dp_receipt_id x,
  dp_dispatch_receipt x, dp_dispatched_at x).

Lemma dispatch_kept s d d' key x :
  coord_step s d d' -> tbl_dispatches d !! key = Some x ->
  exists x', tbl_dispatches d' !! key = Some x' /\ committed x' = committed x /\
    (dp_egress_state x = "sent" -> x' = x).
Proof.
  intros Hst Hx.
  destruct Hst as [? ? ? ? out ? ? H|? ? ? ? ? ? ? out ? ? H|? ? ? ? ? ? ? out ? ? H|? ? ? ? ? ? ? ? ? H|? ? ? ? ? ? ? ? H].
  - apply stage_effect in H. destruct out; [|destruct H as [-> _]; eauto].
    destruct H as (_ & _ & _ & Hd). unfold tbl_dispatches. rewrite Hd. eauto.
  - apply mint_effect in H. destruct out; [|subst; eauto].
    destruct H as (g & _ & _ & _ & _ & Hd). unfold tbl_dispatches. rewrite Hd. eauto.
  - apply dispatch_effect in H. destruct out; try (destruct H as [-> _]; by eauto).
    destruct H as (c & _ & _ & _ & Hk & _ & _ & Hd). unfold tbl_dispatches. rewrite Hd. simpl.
    rewrite lookup_insert_ne by congruence. eauto.
  - apply egress_effect in H as [_ [[-> _]|(y & Hy & Hns & _ & Hd)]]; [eauto|].
    unfold tbl_dispatches. rewrite Hd. simpl. destruct (decide (key0 = key)) as [->|Hne].
    + rewrite lookup_insert_eq. eexists. split; [done|]. simplify_eq. split; [done|]. congruence.
    + rewrite lookup_insert_ne by done. eauto.
  - unfold append_coord_event in H. rewrite append_event_run in H. simplify_eq. eauto.
Qed.

Lemma dispatch_kept_steps s d d' key x :
  rtc (coord_step s) d d' -> tbl_dispatches d !! key = Some x ->
  exists x', tbl_dispatches d' !! key = Some x' /\ committed x' = committed x /\
    (dp_egress_state x = "sent" -> x' = x).
Proof.
  intros Hst. revert x. induction Hst as [d|d d1 d2 H1 _ IH]; intros x Hx; [eauto|].
  destruct (dispatch_kept _ _ _ _ _ H1 Hx) as (x1 & Hx1 & Hc1 & Hs1).
  destruct (IH _ Hx1) as (x2 & Hx2 & Hc2 & Hs2). exists x2. split_and!; [done|congruence|].
  intros Hs. specialize (Hs1 Hs). subst x1. auto.
Qed.

(** The ledger is sound. In every reachable store a dispatch is backed by the
    operator's receipt for exactly its stage and digest, and that digest is the
    staged one; two dispatches never share a receipt; a receipt is spent exactly
    when a dispatch spent it; and a stage never has two live receipts. *)
Theorem ledger_sound s d :
  rtc (coord_step s) empty_db d ->
  (forall key x, tbl_dispatches d !! key = Some x ->
     exists r g, tbl_consents d !! dp_receipt_id x = Some r /\ cs_uses r = cs_max_uses r /\
       tbl_staged d !! dp_stage_ref x = Some g /\
       cs_stage_ref r = dp_stage_ref x /\ cs_staged_digest r = dp_staged_digest x /\
       sg_staged_digest g = dp_staged_digest x) /\
  (forall i j x y, tbl_dispatches d !! i = Some x -> tbl_dispatches d !! j = Some y ->
     dp_receipt_id x = dp_receipt_id y -> i = j) /\
  (forall k r, tbl_consents d !! k = Some r ->
     (cs_uses r = cs_max_uses r <-> exists key x, tbl_dispatches d !! key = Some x /\ dp_receipt_id x = k)) /\
  (forall i j r q, tbl_consents d !! i = Some r -> tbl_consents d !! j = Some q ->
     cs_stage_ref r = cs_stage_ref q -> (cs_uses r < cs_max_uses r)%Z -> (cs_uses q < cs_max_uses q)%Z -> i = j).
Proof.
  intros Hst. apply coord_steps_inv in Hst; [|apply empty_coord_inv].
  destruct Hst as [H1 H2 H3 H4 H5 H6 H7]. split_and!; [|done| |].
  - intros key x Hx. destruct (H2 _ _ Hx) as (r & Hr & Hu & Hs & Hd). destruct (H1 _ _ Hr) as (Hm & _ & g & Hg & Hgd).
    exists r, g. rewrite <- Hs. split_and!; [done|lia|done|done|done|congruence].
  - intros k r Hr. destruct (H1 _ _ Hr) as (Hm & _). rewrite Hm. split; [by apply H4|].
    intros (key & x & Hx & <-). destruct (H2 _ _ Hx) as (r' & Hr' & Hu & _).
    unfold tbl_consents in Hr. congruence.
  - intros i j r q Hr Hq Hs Hu Hu'. destruct (H1 _ _ Hr) as (Hm & ? & _), (H1 _ _ Hq) as (Hm' & ? & _).
    apply (H5 i j r q Hr Hq Hs); lia.
Qed.

(** A receipt discloses once. After a dispatch spent a receipt, then through any
    further history no call with that receipt gets authority again: the same
    execution key for the same stage is a retry that returns the committed facts,
    any other key is refused as spent (or as unknown for another stage, or as a
    conflict when the key is taken), and nothing is written. *)
Theorem consent_one_shot s n stage rid key dr ev now d b d1 d2 n' stage' key' dr' ev' now' :
  coord_inv (coord_db d) ->
  dispatch_staged s n stage rid key dr ev now d = Ok (Dispatched b, d1) ->
  rtc (coord_step s) d1 d2 ->
  exists out, dispatch_staged s n' stage' rid key' dr' ev' now' d2 = Ok (out, d2) /\
    (forall b', out <> Dispatched b') /\
    (key' = key -> stage' = stage -> exists r, out = AlreadyDispatched r /\
       x_receipt_id r = rid /\ x_staged_digest r = bn_staged_digest b /\ x_dispatch_receipt r = dr) /\
    (tbl_dispatches d2 !! key' = None -> stage' = stage -> out = ConsentSpent).
Proof.
  intros Hinv Hdis Hst.
  pose proof (coord_step_inv s _ _ (co_dispatch _ _ _ _ _ _ _ _ _ _ _ Hdis) Hinv) as Hinv1.
  pose proof (coord_steps_inv _ _ _ Hst Hinv1) as Hinv2.
  apply dispatch_effect in Hdis as (c & Hc & Hs & _ & _ & _ & -> & Hd).
  destruct (dispatch_kept_steps s d1 d2 key (mkDispatchRow stage (cs_staged_digest c) rid dr now "pending" "" None)
    Hst) as (x & Hx & Hcm & _); [unfold tbl_dispatches; rewrite Hd; apply lookup_insert_eq|].
  unfold committed in Hcm. simpl in Hcm. injection Hcm as Hxs Hxd Hxr Hxdr _.
  destruct (ci_dispatch _ Hinv2 _ _ Hx) as (r & Hr & Hu & Hrs & _). rewrite Hxr in Hr.
  destruct (ci_consent _ Hinv2 _ _ Hr) as (Hm & _).
  unfold dispatch_staged, dispatch_by_key. rewrite bind_gets.
  destruct (tbl_dispatches d2 !! key') as [y|] eqn:Ey; cbn [fmap option_fmap option_map].
  - eexists. split; [done|]. split_and!; [by case_decide| |done].
    intros -> ->. rewrite Hx in Ey. injection Ey as <-. exists (dispatch_from_row key x).
    rewrite decide_True by done. done.
  - assert (count_where (spendable rid stage') (tbl_consents d2) = 0) as Hz by (apply (spent_count r); [done|lia]).
    rewrite bind_gets, bind_modify, Hz, decide_True, (on_consents_none _ _ _ Hz) by done.
    rewrite bind_gets. unfold tbl_consents. rewrite Hr. eexists. split; [done|]. split_and!; [by case_bool_decide| |].
    + intros -> _. congruence.
    + intros _ ->. by rewrite bool_decide_eq_true_2 by congruence.
Qed.

(** Sent is final. Once the recipient's acknowledgement was recorded, no later
    report, retry or other operation changes the dispatch row in any column, and a
    late failure report is answered with the row as it stands. *)
Theorem sent_final s d d' key x n st de ev now :
  rtc (coord_step s) d d' -> tbl_dispatches d !! key = Some x -> dp_egress_state x = COORD_EGRESS_SENT ->
  st = COORD_EGRESS_PENDING \/ st = COORD_EGRESS_SENT \/ st = COORD_EGRESS_FAILED ->
  tbl_dispatches d' !! key = Some x /\
  record_egress s n key st de ev now d' = Ok (Some (dispatch_from_row key x), d') /\
  egress_may_be_attempted (dispatch_from_row key x) = false.
Proof.
  intros Hst Hx Hs Hok. destruct (dispatch_kept_steps _ _ _ _ _ Hst Hx) as (x' & Hx' & _ & He).
  specialize (He Hs). subst x'. split_and!; [done| |].
  - unfold record_egress. rewrite decide_False by (intros (? & ? & ?); naive_solver).
    rewrite bind_gets, Hx'. rewrite bool_decide_eq_false_2 by (intros Hn; by apply Hn).
    unfold_M. unfold dispatch_by_key, gets. by rewrite Hx'.
  - unfold egress_may_be_attempted. simpl. by rewrite bool_decide_eq_false_2 by (intros Hn; by apply Hn).
Qed.

(** ** The feed *)

Lemma feed_grows s d d' : coord_step s d d' -> tbl_events d `prefix_of` tbl_events d'.
Proof.
  intros Hst.
  destruct Hst as [? ? ? ? out ? ? H|? ? ? ? ? ? ? out ? ? H|? ? ? ? ? ? ? out ? ? H|? ? ? ? ? ? ? ? ? H|? ? ? ? ? ? ? ? H].
  - apply stage_effect in H. destruct out; [|by destruct H as [-> _]].
    destruct H as (_ & _ & _ & Hd). unfold tbl_events at 2. rewrite Hd. by eexists.
  - apply mint_effect in H. destruct out; [|by subst].
    destruct H as (g & _ & _ & _ & _ & Hd). unfold tbl_events at 2. rewrite Hd. by eexists.
  - apply dispatch_effect in H. destruct out; try (by destruct H as [-> _]).
    destruct H as (c & _ & _ & _ & _ & _ & _ & Hd). unfold tbl_events at 2. rewrite Hd. by eexists.
  - apply egress_effect in H as [_ [[-> _]|(y & _ & _ & _ & Hd)]]; [done|].
    unfold tbl_events at 2. rewrite Hd. by eexists.
  - unfold append_coord_event in H. rewrite append_event_run in H. simplify_eq. by eexists.
Qed.

Lemma feed_grows_steps s d d' : rtc (coord_step s) d d' -> tbl_events d `prefix_of` tbl_events d'.
Proof. induction 1; [done|]. etrans; [by eapply feed_grows|done]. Qed.

(** Selecting by sequence is dropping a prefix. *)
Lemma feed_after (l : list EventRow) c :
  (forall i e, l !! i = Some e -> ev_seq e = (Z.of_nat i + 1)%Z) ->
  List.filter (fun r => (Z.of_nat c <? ev_seq r)%Z) l = drop c l.
Proof.
  revert c. induction l as [|e l IH] using rev_ind; intros c Hl; [by rewrite drop_nil|].
  rewrite List.filter_app. rewrite IH.
  2: { intros i e' Hi. apply Hl. by apply lookup_app_l_Some. }
  assert (ev_seq e = Z.of_nat (length l) + 1)%Z as He.
  { apply Hl. by rewrite lookup_app_r, Nat.sub_diag by lia. }
  simpl. destruct (Z.of_nat c <? ev_seq e)%Z eqn:E.
  - by rewrite drop_app_le by lia.
  - rewrite app_nil_r, drop_ge by lia. rewrite drop_ge; [done|]. rewrite length_app. simpl. lia.
Qed.

Lemma feed_head (l : list EventRow) :
  (forall i e, l !! i = Some e -> ev_seq e = (Z.of_nat i + 1)%Z) ->
  foldr (fun r m => Z.max (ev_seq r) m) 0%Z l = Z.of_nat (length l).
Proof.
  assert (forall k (l : list EventRow), (forall i e, l !! i = Some e -> ev_seq e = (Z.of_nat (k + i) + 1)%Z) ->
    foldr (fun r m => Z.max (ev_seq r) m) 0%Z l = if decide (l = []) then 0%Z else Z.of_nat (k + length l)) as Hg.
  { clear. intros k l. revert k. induction l as [|e l IH]; intros k Hl; [done|]. rewrite decide_False by done.
    simpl. rewrite (IH (S k)). 2: { intros i e' Hi. rewrite (Hl (S i) e') by done. lia. }
    rewrite (Hl 0 e) by done. case_decide as Hc; [subst; simpl; lia|]. lia. }
  intros Hl. rewrite (Hg 0 l Hl). case_decide; [by subst|done].
Qed.

Lemma collect_app {E A B} (f : A -> result E B) l1 l2 p1 p2 :
  collect f l1 = Ok p1 -> collect f l2 = Ok p2 -> collect f (l1 ++ l2) = Ok (p1 ++ p2).
Proof.
  revert p1. induction l1 as [|a l1 IH]; intros p1 H1 H2; [by injection H1 as <-|].
  simpl in H1 |- *. destruct (f a) as [b|]; [|done]. destruct (collect f l1) as [bs|]; [|done].
  injection H1 as <-. simpl. by rewrite (IH bs).
Qed.

(** A page of a reachable feed is the next rows in order. *)
Lemma page_rows s d c k :
  rtc (coord_step s) empty_db d -> (Z.of_nat k <= i64_max)%Z ->
  read_coord_events s (Z.of_nat c) (Z.of_nat k) d =
    lift (collect (open_event s) (take k (drop c (tbl_events d)))) d.
Proof.
  intros Hst Hk. apply coord_steps_inv in Hst as Hinv; [|apply empty_coord_inv].
  unfold read_coord_events. rewrite bind_gets, feed_after by exact (ci_feed _ Hinv).
  unfold limit_rows. rewrite as_i64_small by (unfold in_i64, i64_min in *; lia).
  destruct (_ <? 0)%Z eqn:E; [lia|]. by rewrite Nat2Z.id.
Qed.

(** The feed is a log with a cursor. A later feed extends the earlier one; a page
    after a cursor is exactly the next events in order; paging again from the end
    of the first page continues where it ended, so a reader misses nothing and
    sees nothing twice; and the head is the number of events. *)
Theorem feed_paging s d d' c k k' :
  rtc (coord_step s) empty_db d -> rtc (coord_step s) d d' ->
  (Z.of_nat k + Z.of_nat k' <= i64_max)%Z ->
  tbl_events d `prefix_of` tbl_events d' /\
  read_coord_events s (Z.of_nat c) (Z.of_nat k) d =
    lift (collect (open_event s) (take k (drop c (tbl_events d)))) d /\
  (forall p p', read_coord_events s (Z.of_nat c) (Z.of_nat k) d = Ok (p, d) ->
     read_coord_events s (Z.of_nat (c + k)) (Z.of_nat k') d = Ok (p', d) ->
     read_coord_events s (Z.of_nat c) (Z.of_nat (k + k')) d = Ok (p ++ p', d)) /\
  coord_events_head d = Ok (Z.of_nat (length (tbl_events d)), d).
Proof.
  intros Hst Hst' Hk. split_and!; [by eapply feed_grows_steps|by apply page_rows; [|lia]| |].
  - intros p p'. rewrite !page_rows by (done || lia). unfold lift.
    destruct (collect _ (take k _)) as [q|] eqn:E1; [|done].
    destruct (collect _ (take k' _)) as [q'|] eqn:E2; [|done]. intros [= ->] [= ->].
    rewrite <- (take_take_drop (drop c _) k k'), drop_drop. by rewrite (collect_app _ _ _ _ _ E1 E2).
  - apply coord_steps_inv in Hst as Hinv; [|apply empty_coord_inv].
    unfold coord_events_head, gets. by rewrite feed_head by exact (ci_feed _ Hinv).
Qed.

(** Staging is inert and idempotent. A fresh stage stores the bytes, readable back
    exactly, and one event, and touches no receipt and no dispatch; staging the
    same reference again, with whatever bytes, returns the stored record and
    writes nothing. *)
Theorem staging_inert s n1 n2 new now r d d1 n1' n2' new' now' :
  length n1 = Envelope.NONCE_LEN -> (Z.of_nat (length (n_payload new)) <= aead_limit)%Z ->
  stage_contract s n1 n2 new now d = Ok (Staged r, d1) -> n_stage_ref new' = n_stage_ref new ->
  staged_payload s (n_stage_ref new) d1 = Ok (Some (n_payload new), d1) /\
  staged_contract (n_stage_ref new) d1 = Ok (Some r, d1) /\
  tbl_consents d1 = tbl_consents d /\ tbl_dispatches d1 = tbl_dispatches d /\
  length (tbl_events d1) = S (length (tbl_events d)) /\
  stage_contract s n1' n2' new' now' d1 = Ok (AlreadyStaged r, d1).
Proof.
  intros Hn Hl (_ & _ & -> & Hd)%stage_effect Href.
  assert (tbl_staged d1 !! n_stage_ref new = Some (fresh_row s n1 new now)) as Hrow.
  { unfold tbl_staged. rewrite Hd. apply lookup_insert_eq. }
  split_and!.
  - unfold staged_payload. rewrite bind_gets, Hrow. cbn [fmap option_fmap option_map fresh_row sg_payload].
    unfold lift. unfold_M. by rewrite open_col_seal.
  - unfold staged_contract, staged_row, gets. by rewrite Hrow.
  - unfold tbl_consents at 1. by rewrite Hd.
  - unfold tbl_dispatches at 1. by rewrite Hd.
  - unfold tbl_events at 1. rewrite Hd. simpl. rewrite length_app. simpl. lia.
  - unfold stage_contract, staged_row. rewrite Href, bind_gets, Hrow. done.
Qed.
End coord.

(** ** Witnesses *)

Section sample.
#[local] Existing Instances ToyHashes ToyAead.
#[local] Instance sample_json_codec : Codec Json := ToyCodec Json.

Definition sample_store : Store := mkStore (repeat "d"%char 32) (repeat "c"%char 32) Normal.

Definition nonce : bytes := repeat "n"%char 24.

Definition after {A} (m : M A) (d : Db) : Db := (exec m d).2.

Definition sample_new : NewStagedContract :=
  mkNewStaged "stage-1" "digest-1" "code.review" "bob" "sha" (as_bytes "payload") JNull.

Definition sample_record : StagedContract :=
  mkStaged "stage-1" "digest-1" "code.review" "bob" "sha" 7 COORD_STATUS_STAGED 5.

Definition sample_burn : ConsentBurn := mkBurn "r1" "stage-1" "digest-1" "x1" "dr1" 7.

Definition d_staged : Db := after (stage_contract sample_store nonce nonce sample_new 5) empty_db.
Definition d_minted : Db :=
  after (mint_consent_receipt sample_store nonce nonce "stage-1" "r1" (as_bytes "ok") JNull 6) d_staged.
Definition d_dispatched : Db :=
  after (dispatch_staged sample_store nonce "stage-1" "r1" "x1" "dr1" JNull 7) d_minted.
Definition d_sent : Db :=
  after (record_egress sample_store nonce "x1" COORD_EGRESS_SENT "" JNull 8) d_dispatched.
Definition d_reminted : Db :=
  after (mint_consent_receipt sample_store nonce nonce "stage-1" "r2" (as_bytes "ok") JNull 9) d_sent.
Definition d_twice : Db :=
  after (dispatch_staged sample_store nonce "stage-1" "r2" "x2" "dr2" JNull 10) d_reminted.

Lemma d_staged_eq : stage_contract sample_store nonce nonce sample_new 5 empty_db = Ok (Staged sample_record, d_staged).
Proof. vm_compute. reflexivity. Qed.

Lemma d_minted_eq :
  mint_consent_receipt sample_store nonce nonce "stage-1" "r1" (as_bytes "ok") JNull 6 d_staged =
    Ok (Some (mkReceipt "r1" "stage-1" "digest-1" 1 0 6), d_minted).
Proof. vm_compute. reflexivity. Qed.

Lemma d_dispatched_eq :
  dispatch_staged sample_store nonce "stage-1" "r1" "x1" "dr1" JNull 7 d_minted =
    Ok (Dispatched sample_burn, d_dispatched).
Proof. vm_compute. reflexivity. Qed.

Definition sample_sent : DispatchRow :=
  mkDispatchRow "stage-1" "digest-1" "r1" "dr1" 7 COORD_EGRESS_SENT "" (Some 8%Z).

Lemma d_sent_eq :
  record_egress sample_store nonce "x1" COORD_EGRESS_SENT "" JNull 8 d_dispatched =
    Ok (Some (dispatch_from_row "x1" sample_sent), d_sent).
Proof. vm_compute. reflexivity. Qed.

Lemma d_reminted_eq :
  mint_consent_receipt sample_store nonce nonce "stage-1" "r2" (as_bytes "ok") JNull 9 d_sent =
    Ok (Some (mkReceipt "r2" "stage-1" "digest-1" 1 0 9), d_reminted).
Proof. vm_compute. reflexivity. Qed.

Lemma d_twice_eq :
  dispatch_staged sample_store nonce "stage-1" "r2" "x2" "dr2" JNull 10 d_reminted =
    Ok (Dispatched (mkBurn "r2" "stage-1" "digest-1" "x2" "dr2" 10), d_twice).
Proof. vm_compute. reflexivity. Qed.

Lemma d_minted_reached : rtc (coord_step sample_store) empty_db d_minted.
Proof. eapply rtc_l; [eapply co_stage, d_staged_eq|]. eapply rtc_once, co_mint, d_minted_eq. Qed.

Lemma d_sent_reached : rtc (coord_step sample_store) d_dispatched d_sent.
Proof. eapply rtc_once, co_egress, d_sent_eq. Qed.

Lemma d_twice_reached : rtc (coord_step sample_store) d_sent d_twice.
Proof. eapply rtc_l; [eapply co_mint, d_reminted_eq|]. eapply rtc_once, co_dispatch, d_twice_eq. Qed.

Lemma d_sent_from_empty : rtc (coord_step sample_store) empty_db d_sent.
Proof.
  etrans; [apply d_minted_reached|]. eapply rtc_l; [eapply co_dispatch, d_dispatched_eq|]. apply d_sent_reached.
Qed.

Lemma d_twice_from_empty : rtc (coord_step sample_store) empty_db d_twice.
Proof. etrans; [apply d_sent_from_empty|apply d_twice_reached]. Qed.

Example ledger_sound_witness :
  exists r g, tbl_consents d_twice !! "r1" = Some r /\ tbl_staged d_twice !! "stage-1" = Some g /\
    cs_staged_digest r = sg_staged_digest g.
Proof.
  destruct (ledger_sound sample_store d_twice d_twice_from_empty) as [H _].
  destruct (H "x1" sample_sent) as (r & g & Hr & _ & Hg & _ & Hd & Hgd); [vm_compute; reflexivity|].
  exists r, g. split; [exact Hr|]. split; [exact Hg|]. by rewrite Hd, Hgd.
Defined.

Example consent_one_shot_witness :
  dispatch_staged sample_store nonce "stage-1" "r1" "x9" "dr9" JNull 11 d_twice = Ok (ConsentSpent, d_twice).
Proof.
  destruct (consent_one_shot sample_store nonce "stage-1" "r1" "x1" "dr1" JNull 7 d_minted sample_burn
    d_dispatched d_twice nonce "stage-1" "x9" "dr9" JNull 11) as (out & Hout & _ & _ & Hsp).
  - apply (coord_steps_inv _ _ _ d_minted_reached), empty_coord_inv.
  - apply d_dispatched_eq.
  - etrans; [apply d_sent_reached|apply d_twice_reached].
  - rewrite Hout. by rewrite Hsp.
Defined.

Example sent_final_witness :
  tbl_dispatches d_twice !! "x1" = Some sample_sent /\
  record_egress sample_store nonce "x1" COORD_EGRESS_FAILED "late" JNull 12 d_twice =
    Ok (Some (dispatch_from_row "x1" sample_sent), d_twice).
Proof.
  destruct (sent_final sample_store d_sent d_twice "x1" sample_sent nonce COORD_EGRESS_FAILED "late" JNull 12)
    as (H1 & H2 & _).
  - apply d_twice_reached.
  - vm_compute. reflexivity.
  - reflexivity.
  - by right; right.
  - split; [exact H1|exact H2].
Defined.

Example feed_paging_witness : coord_events_head d_twice = Ok (6%Z, d_twice).
Proof.
  destruct (feed_paging sample_store d_twice d_twice 0 2 2) as (_ & _ & _ & H).
  - apply d_twice_from_empty.
  - apply rtc_refl.
  - vm_compute. discriminate.
  - exact H.
Defined.

Example staging_inert_witness : staged_payload sample_store "stage-1" d_staged = Ok (Some (as_bytes "payload"), d_staged).
Proof.
  apply (staging_inert sample_store nonce nonce sample_new 5 sample_record empty_db d_staged nonce nonce sample_new 6).
  - reflexivity.
  - vm_compute. discriminate.
  - apply d_staged_eq.
  - reflexivity.
Defined.

(** One stage may be dispatched twice. After its first dispatch a second consent
    for the same stage can be minted, which takes the staged record's status from
    [dispatched] back to [consented], and spent under another execution key, so
    the ledger then holds two rows for one stage: [stage_ref] is no unique column
    of the table the lookup by stage reads. *)
Theorem stage_may_dispatch_twice :
  rtc (coord_step sample_store) empty_db d_reminted /\ rtc (coord_step sample_store) d_reminted d_twice /\
  sg_status <$> tbl_staged d_sent !! "stage-1" = Some COORD_STATUS_DISPATCHED /\
  sg_status <$> tbl_staged d_reminted !! "stage-1" = Some COORD_STATUS_CONSENTED /\
  (exists x y, tbl_dispatches d_twice !! "x1" = Some x /\ tbl_dispatches d_twice !! "x2" = Some y /\
     dp_stage_ref x = "stage-1" /\ dp_stage_ref y = "stage-1").
Proof.
  split; [etrans; [apply d_sent_from_empty|eapply rtc_once, co_mint, d_reminted_eq]|].
  split; [eapply rtc_once, co_dispatch, d_twice_eq|].
  split; [vm_compute; reflexivity|]. split; [vm_compute; reflexivity|].
  eexists _, _. split; [vm_compute; reflexivity|]. split; [vm_compute; reflexivity|]. by split.
Qed.
End sample.
End StoreCoord.
