(* ===== verification/Readers.v ===== *)
(** Store operations that only read: each leaves the database as it found it. The handlers
    pass over these calls when they are followed step by step. *)
From S2P Require Import Prelude Crypto Json Envelope Delivery Contract Broker WorkOrder Db Handler StorePeers StoreInbox StoreContracts.
From S2P Require Import StoreAttempts StoreRequester StoreCalls StoreCoord.

Module Readers.
Import Handler.

Section readers.
Context {HS : Hashes} {AE : Aead} {CJ : Codec Json.Json} {CP : Codec StorePeers.StoredPeer} {CI : Codec WorkOrder.IssuedWorkOrder}
  {CB : Codec Broker.ProcessorConfig} {CC : Codec Delivery.CoveredValues}.
Context (s : Store).

#[global] Instance contract_head_reads t : Reads (StoreContracts.contract_head t).
Proof. unfold StoreContracts.contract_head. solve_reads. Qed.
#[global] Instance get_contract_reads x : Reads (StoreContracts.get_contract s x).
Proof. unfold StoreContracts.get_contract. solve_reads. Qed.
#[global] Instance task_context_reads t : Reads (StoreContracts.task_context t).
Proof. unfold StoreContracts.task_context. solve_reads. Qed.
#[global] Instance origin_root_reads t : Reads (StoreContracts.origin_root t).
Proof. unfold StoreContracts.origin_root. solve_reads. Qed.
#[global] Instance get_processor_reads p : Reads (StoreCalls.get_processor s p).
Proof. unfold StoreCalls.get_processor. solve_reads. Qed.
#[global] Instance get_peer_by_root_reads r : Reads (StorePeers.get_peer_by_root s r).
Proof. unfold StorePeers.get_peer_by_root. solve_reads. Qed.
#[global] Instance peer_status_reads r : Reads (StorePeers.peer_status_by_root r).
Proof. unfold StorePeers.peer_status_by_root. solve_reads. Qed.
#[global] Instance auto_approve_reads r : Reads (StorePeers.auto_approve_for_root r).
Proof. unfold StorePeers.auto_approve_for_root. solve_reads. Qed.
#[global] Instance peer_by_root_reads r : Reads (StorePeers.peer_by_root r).
Proof. unfold StorePeers.peer_by_root. solve_reads. Qed.
#[global] Instance peer_import_reads r : Reads (StorePeers.peer_import r).
Proof. unfold StorePeers.peer_import. solve_reads. Qed.
#[global] Instance import_by_label_reads l : Reads (StorePeers.peer_import_by_label l).
Proof. unfold StorePeers.peer_import_by_label. solve_reads. Qed.
#[global] Instance peer_key_reads fp p : Reads (StorePeers.peer_key fp p).
Proof. unfold StorePeers.peer_key. solve_reads. Qed.
#[global] Instance attempt_for_task_reads t : Reads (StoreAttempts.attempt_for_task t).
Proof. unfold StoreAttempts.attempt_for_task. apply _. Qed.
#[global] Instance get_work_order_reads w : Reads (StoreAttempts.get_work_order s w).
Proof. unfold StoreAttempts.get_work_order. solve_reads. Qed.
#[global] Instance attempt_state_reads w : Reads (StoreAttempts.attempt_state w).
Proof. intros d o d'. by intros [-> _]%StoreAttempts.attempt_state_Ok. Qed.
#[global] Instance result_manifest_reads w : Reads (StoreAttempts.result_manifest s w).
Proof. unfold StoreAttempts.result_manifest. solve_reads. Qed.
#[global] Instance list_task_outputs_reads t : Reads (StoreRequester.list_task_outputs s t).
Proof. unfold StoreRequester.list_task_outputs. solve_reads. Qed.
#[global] Instance get_sent_request_reads x : Reads (StoreRequester.get_sent_request x).
Proof. unfold StoreRequester.get_sent_request. apply _. Qed.
#[global] Instance staged_contract_reads k : Reads (StoreCoord.staged_contract k).
Proof. unfold StoreCoord.staged_contract, StoreCoord.staged_row. apply _. Qed.
#[global] Instance unconsumed_reads k : Reads (StoreCoord.unconsumed_consent k).
Proof. unfold StoreCoord.unconsumed_consent, StoreCoord.unconsumed_row. apply _. Qed.
#[global] Instance coord_dispatch_reads k : Reads (StoreCoord.coord_dispatch k).
Proof. unfold StoreCoord.coord_dispatch, StoreCoord.dispatch_by. solve_reads. Qed.
#[global] Instance staged_payload_reads k : Reads (StoreCoord.staged_payload s k).
Proof. unfold StoreCoord.staged_payload. solve_reads. Qed.
#[global] Instance read_events_reads a l : Reads (StoreCoord.read_coord_events s a l).
Proof. unfold StoreCoord.read_coord_events. solve_reads. Qed.
#[global] Instance events_head_reads : Reads StoreCoord.coord_events_head.
Proof. unfold StoreCoord.coord_events_head. apply _. Qed.
#[global] Instance peek_reads c : Reads (StoreInbox.peek s c).
Proof. unfold StoreInbox.peek, StoreInbox.prior_response. solve_reads. Qed.
End readers.
End Readers.
