(* ===== verification/StoreReach.v ===== *)
(** The store as a whole: which tables each operation of akson-store/src/lib.rs
    writes, the step relation of the entire store, and the invariants that hold in
    every state the operations reach together, the audit chain included. *)
From S2P Require Import Prelude Crypto Json Envelope AuditLog Delivery Machine Contract Broker Lifecycle WorkOrder.
From S2P Require Import Db StoreMeta StorePeers StoreInbox StoreContracts StoreAttempts.
From S2P Require Import StoreRequester StoreCalls StoreCoord.

Module StoreReach.
Import StoreMeta StorePeers StoreInbox StoreContracts StoreAttempts StoreRequester StoreCalls StoreCoord.

(** ** What an operation may change *)

(** [moves R m]: a run of [m] that commits relates the two databases by [R]. *)
Definition moves (R : relation Db) {A} (m : M A) : Prop := forall d a d', m d = Ok (a, d') -> R d d'.

Create HintDb moves.

Section moves.
Context (R : relation Db) `{!PreOrder R}.

Lemma moves_ret {A} (a : A) : moves R (mret a).
Proof. by intros d b d' [= <- <-]. Qed.

Lemma moves_fail {A} e : moves R (@fail A e).
Proof. by intros d b d'. Qed.

Lemma moves_gets {A} (f : Db -> A) : moves R (gets f).
Proof. by intros d b d' [= <- <-]. Qed.

Lemma moves_lift {A} (r : result StoreError A) : moves R (lift r).
Proof. intros d b d'. unfold lift. destruct r; [|done]. by intros [= <- <-]. Qed.

Lemma moves_modify f : (forall d, R d (f d)) -> moves R (modify f).
Proof. intros Hf d b d' [= <- <-]. apply Hf. Qed.

Lemma moves_bind {A B} (m : M A) (f : A -> M B) :
  moves R m -> (forall a, moves R (f a)) -> moves R (m ≫= f).
Proof. intros Hm Hf d b d' (a & d1 & H1 & H2)%bind_Ok. etrans; [by eapply Hm|by eapply Hf]. Qed.
End moves.

(** The parts of the database. *)
Inductive part := PMeta | PPeers | PInbox | PContracts | PAttempts | PRequester | PCalls | PCoord.

#[global] Instance part_eq_dec : EqDecision part.
Proof. solve_decision. Defined.

Section only.
Context {HS : Hashes}.

(** The log after some appends. *)
Inductive extended (log : list Audit.AuditRow) : list Audit.AuditRow -> Prop :=
| ext_refl : extended log log
| ext_append log' ts ev de : extended log log' -> extended log (Audit.append log' ts ev de).2.

Lemma extended_trans a b c : extended a b -> extended b c -> extended a c.
Proof. induction 2; [done|by constructor]. Qed.

(** [only p d d']: besides the tables of [p] nothing changed, and the audit log
    grew through its appends alone. *)
Record only (p : part) (d d' : Db) : Prop := {
  only_log : extended (audit_log d) (audit_log d');
  only_meta : p <> PMeta -> meta d' = meta d;
  only_peers : p <> PPeers -> peers_db d' = peers_db d;
  only_inbox : p <> PInbox -> inbox_db d' = inbox_db d;
  only_contracts : p <> PContracts -> contracts_db d' = contracts_db d;
  only_attempts : p <> PAttempts -> attempts_db d' = attempts_db d;
  only_requester : p <> PRequester -> requester_db d' = requester_db d;
  only_calls : p <> PCalls -> calls_db d' = calls_db d;
  only_coord : p <> PCoord -> coord_db d' = coord_db d;
}.

#[global] Instance only_preorder p : PreOrder (only p).
Proof.
  split.
  - intros d. constructor; [constructor|done..].
  - intros d1 d2 d3 H1 H2.
    constructor; [eapply extended_trans; [apply H1|apply H2]|..]; intros Hp;
      (etrans; [apply H2, Hp|apply H1, Hp]).
Qed.

Lemma moves_audit p ts ev de : moves (only p) (audit ts ev de).
Proof.
  intros d a d' [= <- <-]. constructor; [|done..]. simpl. apply (ext_append _ _ ts ev de), ext_refl.
Qed.
End only.

#[export] Hint Resolve moves_ret moves_fail moves_gets moves_lift moves_audit : moves.

(** Walks an operation's code: each primitive by its lemma, each branch in turn. *)
Ltac moves_step :=
  match goal with
  | |- forall _, _ => intros ?
  | |- moves _ (_ ≫= _) => apply moves_bind; [exact _| |]
  | |- moves _ (modify _) => apply moves_modify; intros ?; constructor; [apply ext_refl|first [done|by intros []]..]
  | |- moves _ _ => solve [eauto with moves typeclass_instances]
  | |- moves _ (let '_ := _ in _) => case_match
  | |- moves _ (match _ with _ => _ end) => case_match
  end.

Ltac moves_tac := cbn zeta; repeat (moves_step; cbn zeta).

(** ** What an operation depends on *)

(** The same tables of a part, as far as its operations read.  A pinned peer is
    stamped with the state generation, so the peers' operations read that too. *)
Definition agree (p : part) (d e : Db) : Prop :=
  match p with
  | PMeta => meta d = meta e
  | PPeers => peers_db d = peers_db e /\ state_generation d = state_generation e
  | PInbox => inbox_db d = inbox_db e
  | PContracts => contracts_db d = contracts_db e
  | PAttempts => attempts_db d = attempts_db e
  | PRequester => requester_db d = requester_db e
  | PCalls => calls_db d = calls_db e
  | PCoord => coord_db d = coord_db e
  end.

#[global] Instance agree_equiv p : Equivalence (agree p).
Proof. split; destruct p; repeat intro; simpl in *; intuition congruence. Qed.

(** [respects p m]: from databases with the same tables of [p], [m] commits in
    both with the same result and the same tables of [p], or fails alike. *)
Definition respects (p : part) {A} (m : M A) : Prop := forall d e, agree p d e ->
  match m d, m e with
  | Ok (a, d'), Ok (b, e') => a = b /\ agree p d' e'
  | Err x, Err y => x = y
  | _, _ => False
  end.

Section respects.
Context (p : part).

Lemma respects_ret {A} (a : A) : respects p (mret a).
Proof. by intros d e. Qed.

Lemma respects_fail {A} x : respects p (@fail A x).
Proof. by intros d e. Qed.

Lemma respects_lift {A} (r : result StoreError A) : respects p (lift r).
Proof. intros d e. unfold lift. by destruct r. Qed.

Lemma respects_gets {A} (f : Db -> A) : (forall d e, agree p d e -> f d = f e) -> respects p (gets f).
Proof. intros Hf d e Hde. split; [by apply Hf|done]. Qed.

Lemma respects_modify f : (forall d e, agree p d e -> agree p (f d) (f e)) -> respects p (modify f).
Proof. intros Hf d e Hde. split; [done|by apply Hf]. Qed.

Lemma respects_bind {A B} (m : M A) (f : A -> M B) :
  respects p m -> (forall a, respects p (f a)) -> respects p (m ≫= f).
Proof.
  intros Hm Hf d e Hde. specialize (Hm d e Hde). unfold mbind, M_bind.
  destruct (m d) as [[a d1]|], (m e) as [[b e1]|]; try done. destruct Hm as [-> H1]. by apply Hf.
Qed.

(** The sequence number of an audit record is never looked at. *)
Lemma respects_audit {HS : Hashes} {B} ts ev de (m : M B) :
  respects p m -> respects p (audit ts ev de ≫= fun _ => m).
Proof.
  intros Hm d e Hde. unfold mbind, M_bind, audit. simpl. apply Hm. destruct p; exact Hde.
Qed.

Lemma respects_run {A} (m : M A) d a d' e :
  respects p m -> m d = Ok (a, d') -> agree p d e -> exists e', m e = Ok (a, e') /\ agree p d' e'.
Proof.
  intros Hm Hd Hde. specialize (Hm d e Hde). rewrite Hd in Hm.
  destruct (m e) as [[b e']|]; [|done]. destruct Hm as [-> H]. eauto.
Qed.

Lemma respects_exec {A} (m : M A) d e :
  respects p m -> agree p d e -> agree p (exec m d).2 (exec m e).2.
Proof.
  intros Hm Hde. specialize (Hm d e Hde). unfold exec.
  destruct (m d) as [[a d1]|], (m e) as [[b e1]|]; try done. by destruct Hm.
Qed.
End respects.

#[export] Hint Resolve respects_ret respects_fail respects_lift : moves.

(** Two databases with the same part: computes what is read from it. *)
Ltac same_part :=
  let d := fresh in let e := fresh in let H := fresh in let G := fresh in
  intros d e H; destruct d, e; cbn [agree] in H |- *;
  lazymatch type of H with
  | _ /\ _ => destruct H as [H G]; cbn in H; subst; first [reflexivity|exact G|split; [reflexivity|exact G]]
  | _ => cbn in H; subst; reflexivity
  end.

Ltac respects_step :=
  match goal with
  | |- forall _, _ => intros ?
  | |- respects _ (audit _ _ _ ≫= _) => apply respects_audit
  | |- respects _ (_ ≫= _) => apply respects_bind
  | |- respects _ (gets _) => apply respects_gets; same_part
  | |- respects _ (modify _) => apply respects_modify; same_part
  | |- respects _ _ => solve [eauto with moves]
  | |- respects _ (let '_ := _ in _) => case_match
  | |- respects _ (match _ with _ => _ end) => case_match
  end.

Ltac respects_tac := cbn zeta; repeat (respects_step; cbn zeta).

(** ** Local operations *)

(** An operation is local to a part when it reads and writes no other table, the
    audit log aside. *)
Definition local_to (p : part) {HS : Hashes} {A} (m : M A) : Prop := moves (only p) m /\ respects p m.

Lemma local_moves {HS : Hashes} p {A} (m : M A) : local_to p m -> moves (only p) m.
Proof. by intros []. Qed.

Lemma local_respects {HS : Hashes} p {A} (m : M A) : local_to p m -> respects p m.
Proof. by intros []. Qed.

#[export] Hint Resolve local_moves local_respects : moves.

Ltac local_tac := split; [moves_tac|respects_tac].

(** A step relation whose steps are runs of local operations. *)
Definition part_steps {HS : Hashes} (p : part) (R : relation Db) : Prop := forall d d', R d d' ->
  exists A (m : M A) a, m d = Ok (a, d') /\ local_to p m /\ (forall e b e', m e = Ok (b, e') -> R e e').

Section part_steps.
Context {HS : Hashes} (p : part) (R : relation Db) (HR : part_steps p R).

Lemma part_steps_only d d' : R d d' -> only p d d'.
Proof. intros (A & m & a & Hm & [Hl _] & _)%HR. by eapply Hl. Qed.

Lemma part_steps_sim d d' e : R d d' -> agree p d e -> exists e', R e e' /\ agree p d' e'.
Proof.
  intros (A & m & a & Hm & [_ Hl] & Hr)%HR Hde.
  destruct (respects_run p m d a d' e Hl Hm Hde) as (e' & He & Ha). eauto.
Qed.
End part_steps.

(** Leaves the locality of the operation a step runs. *)
Ltac by_operation := intros d d' Hst; destruct Hst; eexists _, _, _; (split; [eassumption|]);
  (split; [|intros; by econstructor; eauto]).

Section coord.
Context {HS : Hashes} {AE : Aead} {CJ : Codec Json.Json}.

Lemma append_event_local s n kind ref ev now : local_to PCoord (append_event_in s n kind ref ev now).
Proof. unfold append_event_in. local_tac. Qed.
#[local] Hint Resolve append_event_local : moves.

Lemma coord_local s : part_steps PCoord (coord_step s).
Proof.
  by_operation.
  - unfold stage_contract, staged_row. local_tac.
  - unfold mint_consent_receipt, staged_row, unconsumed_row. local_tac.
  - unfold dispatch_staged, dispatch_by_key. local_tac.
  - unfold record_egress, dispatch_by_key. local_tac.
  - unfold append_coord_event. local_tac.
Qed.
End coord.

Section calls.
Context {HS : Hashes} {AE : Aead} {CP : Codec Broker.ProcessorConfig} {CO : Codec Broker.Origin}.

Lemma resolve_calls_local keys now : local_to PCalls (StoreCalls.resolve_each keys now).
Proof. induction keys; simpl; local_tac. Qed.
#[local] Hint Resolve resolve_calls_local : moves.

Lemma calls_local s cap : part_steps PCalls (calls_step s cap).
Proof.
  by_operation.
  - unfold put_processor. local_tac.
  - unfold put_credential. local_tac.
  - unfold prepare_call, call_state. local_tac.
  - unfold advance_call, call_state. local_tac.
  - unfold resolve_crashed_calls. local_tac.
Qed.
End calls.

Section attempts.
Context {HS : Hashes} {AE : Aead} {HX : Hex} {CN : Canon WorkOrder.WorkOrder}
  {CI : Codec WorkOrder.IssuedWorkOrder}.

Lemma resolve_attempts_local ids now : local_to PAttempts (StoreAttempts.resolve_each ids now).
Proof. induction ids; simpl; local_tac. Qed.

Lemma attempt_state_local id : local_to PAttempts (attempt_state id).
Proof. unfold attempt_state. local_tac. Qed.
#[local] Hint Resolve resolve_attempts_local attempt_state_local : moves.

Lemma known_state_local id : local_to PAttempts (known_state id).
Proof. unfold known_state. local_tac. Qed.
#[local] Hint Resolve known_state_local : moves.

Lemma attempts_local s : part_steps PAttempts (attempts_step s).
Proof.
  by_operation.
  - unfold claim_attempt. local_tac.
  - unfold advance_attempt. local_tac.
  - unfold resolve_crashed_attempts. local_tac.
  - unfold put_work_order. local_tac.
  - unfold complete_attempt_with_result. local_tac.
Qed.
End attempts.

Section requester.
Context {HS : Hashes} {AE : Aead}.

Lemma insert_outputs_local s task outs : local_to PRequester (insert_outputs s task outs).
Proof. induction outs as [|[]]; simpl; local_tac. Qed.
#[local] Hint Resolve insert_outputs_local : moves.

Lemma requester_local s : part_steps PRequester (requester_step s).
Proof.
  by_operation.
  - unfold put_sent_request. local_tac.
  - unfold put_outcome. local_tac.
  - unfold put_task_input. local_tac.
  - unfold put_task_output. local_tac.
  - unfold record_outcome_with_outputs. local_tac.
Qed.
End requester.

Section contracts.
Context {HS : Hashes} {AE : Aead}.

(** One operation on contract heads, whether it commits or fails. *)
Inductive contracts_step (s : Store) : Db -> Db -> Prop :=
| ct_event e d : event_ok e -> contracts_step s d (run_event s d e).

(** The caller's view of an operation: its result, committed or rolled back. *)
Definition try_op {A} (m : M A) : M (result StoreError A) := fun d => Ok (exec m d).

Lemma try_op_run {A} (m : M A) d r d' : try_op m d = Ok (r, d') <-> r = (exec m d).1 /\ d' = (exec m d).2.
Proof. unfold try_op. destruct (exec m d) as [x y]. naive_solver. Qed.

Lemma try_op_local p {A} (m : M A) : local_to p m -> local_to p (try_op m).
Proof.
  intros [Hm Hr]. split.
  - intros d a d' [_ ->]%try_op_run. unfold exec. destruct (m d) as [[b d1]|] eqn:E; [by eapply Hm|done].
  - intros d e Hde. specialize (Hr d e Hde). unfold try_op, exec.
    destruct (m d) as [[a d1]|], (m e) as [[b e1]|]; try done; [by destruct Hr as [-> ?]|by subst].
Qed.

Lemma contracts_local s : part_steps PContracts (contracts_step s).
Proof.
  intros d d' [e d1 Hok].
  assert (exists A (m : M A), local_to PContracts m /\ forall d, run_event s d e = (exec m d).2) as (A & m & Hm & He).
  { destruct e; eexists _, _; (split; [|done]).
    - unfold submit_revision, contract_head. local_tac.
    - unfold accept_contract, contract_head. local_tac.
    - unfold set_task_context. local_tac.
    - unfold mark_task_reacted. local_tac.
    - unfold purge_expired_contracts. local_tac. }
  exists (result StoreError A), (try_op m), (exec m d1).1. rewrite He. split; [by apply try_op_run|].
  split; [by apply try_op_local|]. intros e0 b e' [_ ->]%try_op_run. rewrite <- He. by constructor.
Qed.
End contracts.

Section inbox.
Context {HS : Hashes} {AE : Aead} {CC : Codec Delivery.CoveredValues}.

Lemma inbox_local s : part_steps PInbox (inbox_step s).
Proof.
  by_operation.
  - unfold receive_request, prior_response. local_tac.
  - unfold demote_to_tombstone. local_tac.
Qed.
End inbox.

Section peers.
Context {HS : Hashes} {AE : Aead} {CP : Codec StoredPeer}.

Lemma pin_keys_local peer root now keys : local_to PPeers (pin_keys peer root now keys).
Proof. induction keys; simpl; unfold pin_key; local_tac. Qed.

Lemma check_pinned_local s root peer now : local_to PPeers (check_pinned s root peer now).
Proof. unfold check_pinned, get_peer_by_root, suspend_root, peer_status_by_root. local_tac. Qed.
#[local] Hint Resolve pin_keys_local check_pinned_local : moves.

Lemma peers_local s : part_steps PPeers (peers_step s).
Proof.
  by_operation.
  - unfold add_peer_import. local_tac.
  - unfold update_peer_import. local_tac.
  - unfold remove_relationship, tombstone_import. local_tac.
  - unfold commit_introduced_peer, put_peer_status. local_tac.
  - unfold record_knock. local_tac.
  - unfold put_auto_approve. local_tac.
  - unfold delete_auto_approve. local_tac.
Qed.
End peers.

(** ** The whole store *)

Section store.
Context {HS : Hashes} {AE : Aead} {CJ : Codec Json.Json} {CG : Codec Broker.ProcessorConfig}
  {CO : Codec Broker.Origin} {HX : Hex} {CN : Canon WorkOrder.WorkOrder}
  {CI : Codec WorkOrder.IssuedWorkOrder} {CC : Codec Delivery.CoveredValues} {CP : Codec StoredPeer}.
Context (s : Store) (cap : string -> Z).

Definition verify_audit : M Z := fun d =>
  match Audit.verify_chain (audit_log d) with
  | Ok n => Ok (n, d)
  | Err seq => Err (AuditBroken seq)
  end.

(** The operations of every part interleave on the one database; each is one
    transaction. *)
Inductive store_step : Db -> Db -> Prop :=
| ss_peers d d' : peers_step s d d' -> store_step d d'
| ss_inbox d d' : inbox_step s d d' -> store_step d d'
| ss_contracts d d' : contracts_step s d d' -> store_step d d'
| ss_attempts d d' : attempts_step s d d' -> store_step d d'
| ss_requester d d' : requester_step s d d' -> store_step d d'
| ss_calls d d' : calls_step s cap d d' -> store_step d d'
| ss_coord d d' : coord_step s d d' -> store_step d d'
| ss_clock now tol st d d' : observe_time now tol d = Ok (st, d') -> store_step d d'
| ss_audit ts ev de n d d' : audit ts ev de d = Ok (n, d') -> store_step d d'.

(** The part a step belongs to. *)
Inductive step_of (d d' : Db) : part -> Prop :=
| so_peers : peers_step s d d' -> step_of d d' PPeers
| so_inbox : inbox_step s d d' -> step_of d d' PInbox
| so_contracts : contracts_step s d d' -> step_of d d' PContracts
| so_attempts : attempts_step s d d' -> step_of d d' PAttempts
| so_requester : requester_step s d d' -> step_of d d' PRequester
| so_calls : calls_step s cap d d' -> step_of d d' PCalls
| so_coord : coord_step s d d' -> step_of d d' PCoord
| so_meta : state_generation d' = state_generation d -> step_of d d' PMeta.

Lemma observe_time_only now tol : moves (only PMeta) (observe_time now tol).
Proof. unfold observe_time. moves_tac. Qed.

Lemma observe_time_generation now tol st d d' :
  observe_time now tol d = Ok (st, d') -> state_generation d' = state_generation d.
Proof.
  unfold observe_time. rewrite bind_gets. destruct (_ <? as_i64 _)%Z; [by intros [= _ <-]|].
  destruct (_ <? now)%Z; unfold_M; intros [= _ <-]; [|done].
  unfold state_generation, meta_set_i64. by rewrite (proj2 (meta_set_other TRUSTED_TIME STATE_GENERATION _ _ ltac:(done))).
Qed.

Lemma store_step_part d d' : store_step d d' -> exists p, only p d d' /\ step_of d d' p.
Proof.
  destruct 1 as [? ? H|? ? H|? ? H|? ? H|? ? H|? ? H|? ? H|? ? ? ? ? H|? ? ? ? ? ? H].
  - exists PPeers. split; [exact (part_steps_only _ _ (peers_local s) _ _ H)|by constructor].
  - exists PInbox. split; [exact (part_steps_only _ _ (inbox_local s) _ _ H)|by constructor].
  - exists PContracts. split; [exact (part_steps_only _ _ (contracts_local s) _ _ H)|by constructor].
  - exists PAttempts. split; [exact (part_steps_only _ _ (attempts_local s) _ _ H)|by constructor].
  - exists PRequester. split; [exact (part_steps_only _ _ (requester_local s) _ _ H)|by constructor].
  - exists PCalls. split; [exact (part_steps_only _ _ (calls_local s cap) _ _ H)|by constructor].
  - exists PCoord. split; [exact (part_steps_only _ _ (coord_local s) _ _ H)|by constructor].
  - exists PMeta. split; [by eapply observe_time_only|constructor; by eapply observe_time_generation].
  - exists PMeta. split; [by eapply moves_audit|constructor]. by injection H as _ <-.
Qed.

(** A step of another part is invisible here. *)
Lemma only_agree p q d d' : only q d d' -> step_of d d' q -> p <> q -> agree p d d'.
Proof.
  intros Ho Hs Hne.
  assert (state_generation d' = state_generation d) as Hg.
  { destruct Hs; [..|done]; unfold state_generation, meta_get_u64, meta_get; by rewrite (only_meta _ _ _ Ho). }
  destruct p; simpl; [..|]; try split; try (symmetry; apply Ho; by intros ->); by symmetry.
Qed.

Lemma project p R d d' :
  part_steps p R -> (forall d d', step_of d d' p -> R d d') -> rtc store_step d d' ->
  exists e, rtc R d e /\ agree p d' e.
Proof.
  intros HR Hp. revert d'. refine (rtc_ind_r _ d _ _); [by exists d|].
  intros d1 d2 _ Hst (e & He & Ha). destruct (store_step_part _ _ Hst) as (q & Ho & Hq).
  destruct (decide (p = q)) as [->|Hne].
  - destruct (part_steps_sim q R HR d1 d2 e (Hp _ _ Hq) Ha) as (e' & Hs & Ha'). exists e'.
    split; [by eapply rtc_r|done].
  - exists e. split; [done|]. etrans; [symmetry; by eapply only_agree|done].
Qed.

(** C2. Parts compose. Every history of the whole store, with the operations of
    all parts interleaved in any order, looks to each part like a history of that
    part's own operations: the tables it leaves are the tables such a history
    leaves. So what is proved of a part alone holds beside the others. *)
Theorem store_projects d d' :
  rtc store_step d d' ->
  (exists e, rtc (peers_step s) d e /\ peers_db e = peers_db d') /\
  (exists e, rtc (inbox_step s) d e /\ inbox_db e = inbox_db d') /\
  (exists e, rtc (contracts_step s) d e /\ contracts_db e = contracts_db d') /\
  (exists e, rtc (attempts_step s) d e /\ attempts_db e = attempts_db d') /\
  (exists e, rtc (requester_step s) d e /\ requester_db e = requester_db d') /\
  (exists e, rtc (calls_step s cap) d e /\ calls_db e = calls_db d') /\
  (exists e, rtc (coord_step s) d e /\ coord_db e = coord_db d').
Proof.
  intros Hst.
  destruct (project _ _ d d' (peers_local s) ltac:(by inversion 1) Hst) as (e1 & H1 & [A1 _]).
  destruct (project _ _ d d' (inbox_local s) ltac:(by inversion 1) Hst) as (e2 & H2 & A2).
  destruct (project _ _ d d' (contracts_local s) ltac:(by inversion 1) Hst) as (e3 & H3 & A3).
  destruct (project _ _ d d' (attempts_local s) ltac:(by inversion 1) Hst) as (e4 & H4 & A4).
  destruct (project _ _ d d' (requester_local s) ltac:(by inversion 1) Hst) as (e5 & H5 & A5).
  destruct (project _ _ d d' (calls_local s cap) ltac:(by inversion 1) Hst) as (e6 & H6 & A6).
  destruct (project _ _ d d' (coord_local s) ltac:(by inversion 1) Hst) as (e7 & H7 & A7).
  split_and!; eauto.
Qed.

(** A file just opened for the first time: keys and checkpoint in [meta], every
    other table empty. *)
Definition new_store (d : Db) : Prop :=
  d = mkDb (meta d) [] empty_peers_db empty_inbox_db empty_contracts_db empty_attempts_db
        empty_requester_db empty_calls_db empty_coord_db.

Record store_inv (d : Db) : Prop := {
  si_peers : peers_inv (peers_db d);
  si_inbox : inbox_inv d;
  si_heads : heads_inv d;
  si_attempts : attempts_inv (attempts_db d);
  si_calls : calls_inv cap (tbl_calls d);
  si_coord : coord_inv (coord_db d);
  si_audit : exists h, Audit.linked Audit.GENESIS (audit_log d) h;
}.

Lemma extended_linked log log' h :
  extended log log' -> Audit.linked Audit.GENESIS log h -> exists h', Audit.linked Audit.GENESIS log' h'.
Proof.
  induction 1 as [|log' ts ev de _ IH]; intros Hl; [eauto|]. destruct (IH Hl) as [h' Hh].
  by eapply Audit.linked_append.
Qed.

Lemma contracts_steps_inv d d' : rtc (contracts_step s) d d' -> heads_inv d -> heads_inv d'.
Proof.
  induction 1 as [|d d1 d2 Hst _ IH]; [done|]. intros Hinv. apply IH. destruct Hst as [e d Hok].
  by apply event_refines.
Qed.

Lemma store_steps_log d d' : rtc store_step d d' -> extended (audit_log d) (audit_log d').
Proof.
  induction 1 as [|d d1 d2 Hst _ IH]; [constructor|]. eapply extended_trans; [|exact IH].
  destruct (store_step_part _ _ Hst) as (p & Ho & _). apply Ho.
Qed.

Lemma store_steps_inv d d' : rtc store_step d d' -> store_inv d -> store_inv d'.
Proof.
  intros Hst [].
  destruct (project _ _ d d' (peers_local s) ltac:(by inversion 1) Hst) as (e1 & H1 & [A1 _]).
  destruct (project _ _ d d' (inbox_local s) ltac:(by inversion 1) Hst) as (e2 & H2 & A2).
  destruct (project _ _ d d' (contracts_local s) ltac:(by inversion 1) Hst) as (e3 & H3 & A3).
  destruct (project _ _ d d' (attempts_local s) ltac:(by inversion 1) Hst) as (e4 & H4 & A4).
  destruct (project _ _ d d' (calls_local s cap) ltac:(by inversion 1) Hst) as (e6 & H6 & A6).
  destruct (project _ _ d d' (coord_local s) ltac:(by inversion 1) Hst) as (e7 & H7 & A7).
  simpl in A1, A2, A3, A4, A6, A7. constructor.
  - rewrite A1. by eapply peers_steps_inv.
  - pose proof (inbox_inv_steps _ _ _ H2 si_inbox0) as Hi. unfold inbox_inv, tbl_inbox, tbl_tombs in *. by rewrite A2.
  - eapply heads_inv_same; [exact A3|]. by eapply contracts_steps_inv.
  - rewrite A4. by eapply attempts_steps_inv.
  - unfold tbl_calls. rewrite A6. by eapply calls_steps_inv.
  - rewrite A7. by eapply coord_steps_inv.
  - destruct si_audit0 as [h Hh]. by eapply extended_linked; [apply store_steps_log|].
Qed.

Lemma new_store_inv d : new_store d -> store_inv d.
Proof.
  intros ->. constructor; simpl.
  - apply empty_peers_inv.
  - by intros k _.
  - by intros t r.
  - apply empty_attempts_inv.
  - apply empty_calls_inv.
  - apply empty_coord_inv.
  - eexists. constructor.
Qed.

(** C1. The store is sound. In every state the operations of all parts reach
    together from a new store, the invariants of every part hold at once and the
    audit chain verifies, counting every record appended. *)
Theorem store_sound d0 d :
  new_store d0 -> rtc store_step d0 d ->
  peers_inv (peers_db d) /\ inbox_inv d /\ heads_inv d /\ attempts_inv (attempts_db d) /\
  calls_inv cap (tbl_calls d) /\ coord_inv (coord_db d) /\
  verify_audit d = Ok (Z.of_nat (length (audit_log d)), d).
Proof.
  intros Hn Hst. destruct (store_steps_inv _ _ Hst (new_store_inv _ Hn)) as [? ? ? ? ? ? [h Hh]].
  split_and!; try done. unfold verify_audit, Audit.verify_chain. by rewrite (Audit.linked_verify _ 0 _ _ Hh).
Qed.
End store.

(** ** Witnesses *)

Section sample.
#[local] Existing Instances ToyHashes ToyAead ToyHex.
#[local] Instance sample_canon : Canon WorkOrder.WorkOrder := ToyCanon WorkOrder.WorkOrder.
#[local] Instance sample_issued_codec : Codec WorkOrder.IssuedWorkOrder := ToyCodec WorkOrder.IssuedWorkOrder.
#[local] Instance sample_covered_codec : Codec Delivery.CoveredValues := ToyCodec Delivery.CoveredValues.
#[local] Instance sample_peer_codec : Codec StoredPeer := ToyCodec StoredPeer.
#[local] Instance sample_json_codec : Codec Json.Json := ToyCodec Json.Json.
#[local] Instance sample_origin_codec : Codec Broker.Origin := ToyCodec Broker.Origin.
#[local] Instance sample_config_codec : Codec Broker.ProcessorConfig := ToyCodec Broker.ProcessorConfig.

Definition sample_store : Store := mkStore (repeat "d"%char 32) (repeat "c"%char 32) Normal.
Definition one_each (w : string) : Z := 1.

Definition after {A} (m : M A) (d : Db) : Db := (exec m d).2.

(** An import, a claim, a staging and a clock reading, interleaved. *)
Definition d_import : Db := after (add_peer_import "root-a" "alice" "" 5) sample_file.
Definition d_claim : Db := after (claim_attempt (WorkOrder.sample_order "w1" "n1") 6) d_import.
Definition d_stage : Db :=
  after (stage_contract sample_store (repeat "n"%char 24) (repeat "m"%char 24) sample_new 7) d_claim.
Definition d_clock : Db := after (observe_time 2000 300) d_stage.

Lemma sample_file_new : new_store sample_file.
Proof. vm_compute. reflexivity. Qed.

Lemma d_import_eq : add_peer_import "root-a" "alice" "" 5 sample_file = Ok (Added, d_import).
Proof. vm_compute. reflexivity. Qed.

Lemma d_claim_eq : claim_attempt (WorkOrder.sample_order "w1" "n1") 6 d_import = Ok (ClaimedNow, d_claim).
Proof. vm_compute. reflexivity. Qed.

Lemma d_stage_eq :
  stage_contract sample_store (repeat "n"%char 24) (repeat "m"%char 24) sample_new 7 d_claim =
    Ok (Staged (mkStaged "stage-1" "digest-1" "code.review" "bob" "sha" 7 COORD_STATUS_STAGED 7), d_stage).
Proof. vm_compute. reflexivity. Qed.

Lemma d_clock_eq : observe_time 2000 300 d_stage = Ok (TimeOk 2000, d_clock).
Proof. vm_compute. reflexivity. Qed.

Lemma d_clock_reached : rtc (store_step sample_store one_each) sample_file d_clock.
Proof.
  eapply rtc_l; [eapply ss_peers, ps_add, d_import_eq|].
  eapply rtc_l; [eapply ss_attempts, as_claim, d_claim_eq|].
  eapply rtc_l; [eapply ss_coord, co_stage, d_stage_eq|].
  eapply rtc_once, ss_clock, d_clock_eq.
Qed.

Example store_projects_witness :
  exists e, rtc (coord_step sample_store) sample_file e /\ coord_db e = coord_db d_clock.
Proof. apply (store_projects sample_store one_each sample_file d_clock), d_clock_reached. Defined.

Example store_sound_witness : verify_audit d_clock = Ok (2%Z, d_clock).
Proof.
  destruct (store_sound sample_store one_each sample_file d_clock sample_file_new d_clock_reached)
    as (_ & _ & _ & _ & _ & _ & H).
  exact H.
Defined.
End sample.
End StoreReach.
