(* ===== verification/CoordEgress.v ===== *)
(** The carrier of a consented coordination dispatch (aksond/src/coord_egress.rs): the route
    to the pinned recipient, the envelope and the message that go on the wire, what an
    answer means, and the recipient's verification. The digest derivation of coord.rs that
    both ends share is here too.

    The generated protobuf types, the URL parser and the network are not in the repository:
    their conversions are class fields, and the answer of the peer is an argument. *)
From S2P Require Import Prelude Text Crypto Sign Lifecycle Keys Json IJson Dsse Proposal Profile Introduction Inert Chars Toy.
From S2P Require Import Control Db Handler StorePeers StoreCoord.

Module CoordEgress.
Import Json.
Import Handler.
Import Control (Problem, problem, mkProblem).
Import Proposal (hex_digest, canonical_bytes, Part, mkMsgPart, ProtoValue, to_json, CRaw, CData, CText, CUrl).
Import Introduction (member, as_str).
Import StoreCoord (StagedContract, g_stage_ref, g_staged_digest, g_task_type, g_performer, g_payload_sha256).

Definition COORD_PROTOCOL : string := "akson_byom_exchange_v1".
Definition COORD_PROTOCOL_VERSION : Z := 1.

Definition coord_dispatch_media_type : string := Dsse.schema_media_type Dsse.CoordDispatchV1.
Definition COORD_PAYLOAD_MEDIA_TYPE : string := "application/octet-stream".
Definition ADMISSIBLE_TASK_TYPE : string := "https://example.invalid/task/v1".
Definition ADMISSIBLE_LABEL : string := "peer".

(** [a2a_client::parse_endpoint], over the URL parser: host, port and path. *)
Class Endpoints := { parse_endpoint : string -> option (string * Z * string) }.

(** The protobuf [Struct] of a Part: it is read from any JSON object and renders its texts
    as they came (its numbers are doubles). *)
Class ProtoStruct (V : Type) := {
  struct_value :: ProtoValue V;
  of_json : Json -> option V;
  struct_texts : forall l, exists v j, of_json (JObj l) = Some v /\ to_json v = Some j /\
    forall k t, member k (JObj l) = Some (JStr t) -> member k j = Some (JStr t);
}.

(** The generated JSON form of a [SendMessageRequest]. *)
Class SendText (V : Type) := {
  request_value : Profile.SendMessageRequest (V := V) -> option Json;
  read_request : bytes -> option (Profile.SendMessageRequest (V := V));
}.

(** ** The digest derivation (coord.rs) *)

Section digests.
Context {HS : Hashes} {HX : Hex} {CN : Canon Json}.

Definition staged_content (payload_sha256 performer task_type : string) : Json :=
  IJson.obj [("payload_sha256", JStr payload_sha256); ("performer", JStr performer); ("task_type", JStr task_type)].

(** [(stage_ref, staged_digest, payload_sha256)]. *)
Definition stage_reference (payload : bytes) (performer task_type : string) : result Problem (string * string * string) :=
  let payload_sha256 := hex_digest payload in
  canonical ← ok_or (canonical_bytes (staged_content payload_sha256 performer task_type)) internal;
  let staged_digest := hex_digest canonical in
  Ok ("stage-" +:+ String.substring 0 32 staged_digest, staged_digest, payload_sha256).
End digests.

(** ** What may be enveloped *)

Section admissible.
Context {SV : Dsse.Schemas}.

Definition envelope_value (task_type label recipient_root sender_root payload_sha256 staged_digest receipt : string) : Json :=
  IJson.obj [("schema_version", JInt 1); ("protocol", JStr COORD_PROTOCOL); ("task_type", JStr task_type);
    ("recipient_label", JStr label); ("recipient_root", JStr recipient_root); ("sender_root", JStr sender_root);
    ("payload_sha256", JStr payload_sha256); ("staged_digest", JStr staged_digest); ("consent_receipt", JStr receipt)].

Definition candidate_digest : string := "0000000000000000000000000000000000000000000000000000000000000000".

Definition candidate_envelope (task_type recipient_label : string) : Json :=
  envelope_value task_type recipient_label "candidate-root" "candidate-root" candidate_digest candidate_digest "consent-candidate".

Definition conforms (v : Json) : bool := is_ok (Dsse.validate Dsse.CoordDispatchV1 v).

Definition envelope_admits_task_type (task_type : string) : bool := conforms (candidate_envelope task_type ADMISSIBLE_LABEL).

Definition envelope_admits_recipient_label (label : string) : bool := conforms (candidate_envelope ADMISSIBLE_TASK_TYPE label).

(** ** The route and the envelope *)

Record CoordRoute := mkRoute { rt_label : string; rt_root : string; rt_endpoint : string; rt_tls_fingerprint : string }.

Definition unroutable (detail : string) : Problem :=
  mkProblem "urn:akson:error:unroutable-recipient" "the staged recipient cannot receive a disclosure" 409 (Some detail).

Definition resolve_route {HS : Hashes} {AE : Aead} {CP : Codec StorePeers.StoredPeer} {EP : Endpoints} (s : Store)
  (staged : StagedContract) : H CoordRoute :=
  if decide (g_performer staged = "")
  then raise (unroutable "this staging named no recipient, so there is nowhere to disclose it") else
  found ← call (StorePeers.peer_import_by_label (g_performer staged));
  import ← require found (unroutable "that recipient label no longer names an imported peer");
  let root := StorePeers.i_root_thumbprint import in
  stored ← call (StorePeers.get_peer_by_root s root);
  peer ← require stored (unroutable "that recipient has never been introduced, so no endpoint is pinned");
  status ← call (StorePeers.peer_status_by_root root);
  if decide (status <> Some Lifecycle.Active)
  then raise (unroutable "that recipient is not an active peer (suspended or removed)") else
  let identity := StorePeers.identity peer in
  match parse_endpoint (Lifecycle.endpoint_id identity) with
  | None => raise (unroutable "that recipient's pinned endpoint is not a usable https URL")
  | Some _ => mret (mkRoute (g_performer staged) root (Lifecycle.endpoint_id identity)
                      (Lifecycle.fp_value (Lifecycle.tls_cert identity)))
  end.

Definition envelope (staged : StagedContract) (route : CoordRoute) (sender_root consent_receipt : string) : result Problem Json :=
  let value := envelope_value (g_task_type staged) (rt_label route) (rt_root route) sender_root (g_payload_sha256 staged)
                 (g_staged_digest staged) consent_receipt in
  match Dsse.validate Dsse.CoordDispatchV1 value with
  | Ok _ => Ok value
  | Err _ => Err (problem 500 "bad-envelope" "the coordination envelope does not conform to its own schema")
  end.
End admissible.

(** ** The message *)

Section message.
Context {V : Type} {PS : ProtoStruct V} {ST : SendText V} {CN : Canon Json}.

Definition text_member (name : string) (v : Json) : option string := m ← member name v; as_str m.

(** The two Parts of the message. *)
Definition message_parts (data : V) (envelope : Json) (payload : bytes) : list (Part V) :=
  [mkMsgPart "" (Some (CData data)) coord_dispatch_media_type;
   mkMsgPart (default "" (text_member "payload_sha256" envelope)) (Some (CRaw payload)) COORD_PAYLOAD_MEDIA_TYPE].

Definition dispatch_message (data : V) (envelope : Json) (payload : bytes) (dispatch_receipt stage_ref : string) :
  Profile.SendMessageRequest (V := V) :=
  Profile.mkRequest (Some (Profile.mkMessage dispatch_receipt stage_ref "" [] 0 (message_parts data envelope payload) [])) None.

Definition message_body (envelope : Json) (payload : bytes) (dispatch_receipt stage_ref : string) : result Problem bytes :=
  data ← ok_or (of_json envelope) internal;
  request ← ok_or (request_value (dispatch_message data envelope payload dispatch_receipt stage_ref)) internal;
  ok_or (canonical_bytes request) internal.
End message.

(** ** Carriage *)

Inductive Carriage := Acknowledged (detail : string) | Failed (detail : string).

(** A bounded printable summary of the peer's bytes. *)
Definition summarize (body : bytes) (max : nat) : string :=
  Chars.text (take max (List.filter (fun c => negb (Chars.is_control c)) (Chars.lossy body))).

(** What the peer's answer to the one POST means; [answer] is what [post_a2a] returned. *)
Definition carry {CJ : Codec Json} (route : CoordRoute) (answer : result Problem (Z * bytes)) (staged_digest : string) : Carriage :=
  match answer with
  | Err p => Failed (Control.type_ p +:+ ": " +:+ default (Control.title p) (Control.detail p))
  | Ok (status, response) =>
      if decide (status <> 200%Z)
      then Failed ("the recipient answered " +:+ to_string (Z.to_N status) +:+ ": " +:+ summarize response 200) else
      let acknowledged := default false (v ← decode response; d ← text_member "staged_digest" v;
                                         Some (bool_decide (d = staged_digest))) in
      if (acknowledged : bool) then Acknowledged ("acknowledged by " +:+ rt_root route)
      else Failed "the recipient answered 200 without acknowledging this staged digest"
  end.

(** ** The receiving side *)

Record ReceivedDispatch := mkReceivedDispatch {
  rd_staged_digest : string; rd_payload_sha256 : string; rd_task_type : string; rd_recipient_label : string;
  rd_sender_root : string; rd_consent_receipt : string; rd_byte_length : Z }.

Inductive CoordReject := Malformed | SenderMismatch | NotTheRecipient | PayloadDigest | StagedDigest.

Definition reason (r : CoordReject) : string :=
  match r with
  | Malformed => "malformed-envelope"
  | SenderMismatch => "sender-mismatch"
  | NotTheRecipient => "not-the-recipient"
  | PayloadDigest => "payload-digest"
  | StagedDigest => "staged-digest"
  end.

Section receiving.
Context {V : Type} {PV : ProtoValue V}.

(** The envelope a Part holds, if it is the coordination Part. *)
Definition part_dispatch (p : Part V) : option Json :=
  if decide (Proposal.media_type p <> coord_dispatch_media_type) then None else
  match Proposal.content p with Some (CData data) => to_json data | _ => None end.

(** [find_map]: the first. *)
Definition coord_dispatch_envelope (parts : list (Part V)) : option Json := head (omap part_dispatch parts).

Definition part_payload (p : Part V) : option bytes :=
  match Proposal.content p with
  | Some (CRaw b) => if decide (Proposal.media_type p = COORD_PAYLOAD_MEDIA_TYPE) then Some b else None
  | _ => None
  end.

(** The one payload Part; none, or a second one, is no payload. *)
Definition coord_payload (parts : list (Part V)) : option bytes :=
  match omap part_payload parts with [only] => Some only | _ => None end.

Context {HS : Hashes} {HX : Hex} {CN : Canon Json} {SV : Dsse.Schemas}.

Definition field (name : string) (envelope : Json) : result CoordReject string := ok_or (text_member name envelope) Malformed.

Definition verify (envelope : Json) (parts : list (Part V)) (sender_root local_root : string) : result CoordReject ReceivedDispatch :=
  _ ← Proposal.lift_err (fun _ => Malformed) (Dsse.validate Dsse.CoordDispatchV1 envelope);
  claimed_sender ← field "sender_root" envelope;
  if decide (claimed_sender <> sender_root) then Err SenderMismatch else
  recipient ← field "recipient_root" envelope;
  if decide (recipient <> local_root) then Err NotTheRecipient else
  payload ← ok_or (coord_payload parts) PayloadDigest;
  payload_sha256 ← field "payload_sha256" envelope;
  recipient_label ← field "recipient_label" envelope;
  task_type ← field "task_type" envelope;
  staged_digest ← field "staged_digest" envelope;
  derived ← Proposal.lift_err (fun _ => Malformed) (stage_reference payload recipient_label task_type);
  if decide (derived.2 <> payload_sha256) then Err PayloadDigest else
  if decide (derived.1.2 <> staged_digest) then Err StagedDigest else
  receipt ← field "consent_receipt" envelope;
  Ok (mkReceivedDispatch staged_digest payload_sha256 task_type recipient_label claimed_sender receipt
        (Z.of_nat (length payload))).
End receiving.

Definition acknowledgement (received : ReceivedDispatch) (local_root : string) (at_ : Z) : Json :=
  IJson.obj [("coordination", JStr "acknowledged"); ("protocol", JStr COORD_PROTOCOL);
    ("staged_digest", JStr (rd_staged_digest received)); ("payload_sha256", JStr (rd_payload_sha256 received));
    ("recipient_root", JStr local_root); ("received_at", JInt at_)].

(** ** Members of the envelope *)

Section members.
Context (task_type label recipient_root sender_root payload_sha256 staged_digest receipt : string).

Let env := envelope_value task_type label recipient_root sender_root payload_sha256 staged_digest receipt.

Lemma envelope_members :
  member "task_type" env = Some (JStr task_type) /\ member "recipient_label" env = Some (JStr label) /\
  member "recipient_root" env = Some (JStr recipient_root) /\ member "sender_root" env = Some (JStr sender_root) /\
  member "payload_sha256" env = Some (JStr payload_sha256) /\ member "staged_digest" env = Some (JStr staged_digest) /\
  member "consent_receipt" env = Some (JStr receipt).
Proof. by repeat split. Qed.

Lemma envelope_object : exists l, env = JObj l.
Proof. by eexists. Qed.
End members.

Lemma text_member_Some name v t : text_member name v = Some t <-> member name v = Some (JStr t).
Proof.
  unfold text_member. destruct (member name v) as [m|]; [|done]. cbn [mbind option_bind]. split.
  - destruct m; cbn [as_str]; [done..| |done|done]. by intros [= ->].
  - by intros [= ->].
Qed.

Lemma acknowledgement_digest r root t : text_member "staged_digest" (acknowledgement r root t) = Some (rd_staged_digest r).
Proof. reflexivity. Qed.

(** An acknowledged carriage: a 200 whose body names the staged digest. *)
Lemma carry_acknowledged {CJ : Codec Json} route answer dg detail :
  carry route answer dg = Acknowledged detail <->
  detail = "acknowledged by " +:+ rt_root route /\
  exists response v, answer = Ok (200%Z, response) /\ decode response = Some v /\ text_member "staged_digest" v = Some dg.
Proof.
  unfold carry. destruct answer as [[status response]|p]; [|split; [done|by intros (_ & ? & ? & ? & _)]].
  destruct (decide _) as [Hs|Hs%dec_stable]; [split; [done|]; by intros (_ & ? & ? & [= -> _] & _)|]. subst status.
  split.
  - destruct (decode response) as [v|] eqn:Ed; cbn [mbind option_bind default from_option]; [|done].
    destruct (text_member "staged_digest" v) as [x|] eqn:E; cbn [mbind option_bind default from_option]; [|done].
    case_bool_decide as Hx; [|done]. intros [= <-]. subst. split; [done|]. by exists response, v.
  - intros (-> & r & v & [= ->] & Hv & Ht). rewrite Hv. cbn [mbind option_bind]. rewrite Ht. cbn [mbind option_bind default from_option].
    by rewrite bool_decide_true.
Qed.

(** What reaches the operator's terminal and the durable column from a peer's bytes is
    bounded and has no control character. *)
Lemma summarize_safe body max :
  length (Chars.chars (summarize body max)) <= max /\
  Forall (fun c => Chars.is_control c = false) (Chars.chars (summarize body max)).
Proof.
  unfold summarize. assert (Forall Chars.scalar (Chars.lossy body)) as Hs by by apply (Chars.lossy_scalar (length body)).
  set (cs := List.filter _ _). assert (Forall (fun c => Chars.is_control c = false /\ Chars.scalar c) cs) as Hc.
  { apply Forall_forall. intros c Hc. apply list_elem_of_In, filter_In in Hc as [Hc ?%negb_true_iff].
    split; [done|]. rewrite Forall_forall in Hs. apply Hs. by apply list_elem_of_In. }
  apply (Forall_take _ max) in Hc. apply Forall_and in Hc as [Hc Hs'].
  rewrite Chars.chars_text by done. split; [|done]. rewrite length_take. lia.
Qed.

(** ** Verification *)

Section verification.
Context {V : Type} {PV : ProtoValue V} {HS : Hashes} {HX : Hex} {CN : Canon Json} {SV : Dsse.Schemas}.

Lemma conforms_Ok v : conforms v = true <-> Dsse.validate Dsse.CoordDispatchV1 v = Ok ().
Proof. unfold conforms. destruct (Dsse.validate _ v) as [[]|]; cbn; split; congruence. Qed.

Lemma coord_payload_Some (parts : list (Part V)) b : coord_payload parts = Some b <-> omap part_payload parts = [b].
Proof. unfold coord_payload. destruct (omap part_payload parts) as [|x [|y l]]; naive_solver. Qed.

(** What a dispatch must be to be admitted: a conforming envelope from the authenticated
    sender to this endpoint, with one payload whose digest it names, under a staged digest
    derived from exactly that payload, label and task type. *)
Definition admissible (env : Json) (parts : list (Part V)) (sender_root local_root : string) (r : ReceivedDispatch) : Prop :=
  conforms env = true /\
  text_member "sender_root" env = Some sender_root /\ text_member "recipient_root" env = Some local_root /\
  text_member "payload_sha256" env = Some (rd_payload_sha256 r) /\
  text_member "recipient_label" env = Some (rd_recipient_label r) /\
  text_member "task_type" env = Some (rd_task_type r) /\ text_member "staged_digest" env = Some (rd_staged_digest r) /\
  text_member "consent_receipt" env = Some (rd_consent_receipt r) /\ rd_sender_root r = sender_root /\
  exists payload ref, omap part_payload parts = [payload] /\ rd_byte_length r = Z.of_nat (length payload) /\
    stage_reference payload (rd_recipient_label r) (rd_task_type r) = Ok (ref, rd_staged_digest r, rd_payload_sha256 r).

Lemma field_Ok name env t : field name env = Ok t <-> text_member name env = Some t.
Proof. unfold field. destruct (text_member name env); cbn; split; congruence. Qed.

(** [verify] admits exactly such a dispatch. *)
Theorem verify_exact env (parts : list (Part V)) sender_root local_root r :
  verify env parts sender_root local_root = Ok r <-> admissible env parts sender_root local_root r.
Proof.
  unfold verify, admissible. split.
  - intros ([] & Hc%Proposal.lift_err_Ok%conforms_Ok & H)%rbind_Ok.
    apply rbind_Ok in H as (sr & Hsr%field_Ok & H). destruct (decide _) as [|Hx%dec_stable] in H; [done|]. subst.
    apply rbind_Ok in H as (rr & Hrr%field_Ok & H). destruct (decide _) as [|Hx%dec_stable] in H; [done|]. subst.
    apply rbind_Ok in H as (payload & Hp & H). apply ok_or_Ok, coord_payload_Some in Hp.
    apply rbind_Ok in H as (sha & Hsha%field_Ok & H). apply rbind_Ok in H as (label & Hl%field_Ok & H).
    apply rbind_Ok in H as (tt & Htt%field_Ok & H). apply rbind_Ok in H as (sd & Hsd%field_Ok & H).
    apply rbind_Ok in H as ([[ref sd'] sha'] & Hd%Proposal.lift_err_Ok & H). cbn [fst snd] in H.
    destruct (decide _) as [|Hx%dec_stable] in H; [done|]. subst. destruct (decide _) as [|Hx%dec_stable] in H; [done|]. subst.
    apply rbind_Ok in H as (rc & Hrc%field_Ok & [= <-]). cbn. do 9 (split; [done|]). by exists payload, ref.
  - intros (Hc & H1 & H2 & H3 & H4 & H5 & H6 & H7 & Hs & payload & ref & Hp & Hl & Hd).
    apply conforms_Ok in Hc. rewrite Hc. cbn [Proposal.lift_err mbind result_bind]. unfold field. rewrite H1. cbn [ok_or mbind result_bind].
    rewrite decide_False by naive_solver. rewrite H2. cbn [ok_or mbind result_bind]. rewrite decide_False by naive_solver.
    rewrite (proj2 (coord_payload_Some parts payload) Hp). cbn [ok_or mbind result_bind]. rewrite H3, H4, H5, H6.
    cbn [ok_or mbind result_bind]. rewrite Hd. cbn [Proposal.lift_err mbind result_bind fst snd].
    rewrite !decide_False by naive_solver. rewrite H7. cbn [ok_or mbind result_bind]. rewrite <- Hl, <- Hs. by destruct r.
Qed.
End verification.

(** ** What the digest binds *)

Section binding.
Context {V : Type} {PV : ProtoValue V} {HS : Hashes} {HX : Hex} {CN : Canon Json} {SV : Dsse.Schemas}.

(** RFC 8785 renders objects of three texts apart. *)
Hypothesis canon_staged : forall a b c a' b' c' x,
  canonical_bytes (staged_content a b c) = Some x -> canonical_bytes (staged_content a' b' c') = Some x ->
  a = a' /\ b = b' /\ c = c'.

Lemma stage_reference_Ok payload label tt ref dg sha :
  stage_reference payload label tt = Ok (ref, dg, sha) <->
  sha = hex_digest payload /\ ref = "stage-" +:+ String.substring 0 32 dg /\
  exists x, canonical_bytes (staged_content sha label tt) = Some x /\ dg = hex_digest x.
Proof.
  unfold stage_reference. rewrite rbind_Ok. split.
  - intros (x & Hx%ok_or_Ok & [= <- <- <-]). split; [done|]. split; [done|]. by exists x.
  - intros (-> & -> & x & Hx & ->). exists x. by rewrite ok_or_Ok.
Qed.

(** C11. What the operator consented to is what the recipient verified: a dispatch admitted
    under the staged digest of some bytes, recipient label and task type carries exactly
    them, unless SHA-256 has a collision. *)
Theorem dispatch_binds_consent env (parts : list (Part V)) sender_root local_root r payload label tt ref sha :
  verify env parts sender_root local_root = Ok r ->
  stage_reference payload label tt = Ok (ref, rd_staged_digest r, sha) ->
  (omap part_payload parts = [payload] /\ rd_recipient_label r = label /\ rd_task_type r = tt /\ rd_payload_sha256 r = sha) \/
  sha256_collision.
Proof.
  intros (_ & _ & _ & _ & _ & _ & _ & _ & _ & payload' & ref' & Hp & _ & Hd)%verify_exact Hs.
  apply stage_reference_Ok in Hd as (Hsha' & _ & x' & Hx' & Hdg'). apply stage_reference_Ok in Hs as (Hsha & _ & x & Hx & Hdg).
  destruct (Proposal.hex_digest_inj x x') as [<-|]; [congruence| |by right].
  destruct (canon_staged _ _ _ _ _ _ _ Hx Hx') as (H1 & <- & <-).
  destruct (Proposal.hex_digest_inj payload payload') as [<-|]; [congruence| |by right]. left. naive_solver.
Qed.
End binding.

(** ** An honest dispatch is admitted *)

Section honest.
Context {V : Type} {PS : ProtoStruct V} {HS : Hashes} {HX : Hex} {CN : Canon Json} {SV : Dsse.Schemas}.

(** The envelope as the recipient reads it back from the message. *)
Definition carried (env env' : Json) (data : V) : Prop := of_json env = Some data /\ to_json data = Some env'.

(** A staging whose digests are those of its bytes. *)
Definition honest_staging (staged : StagedContract) (payload : bytes) : Prop :=
  stage_reference payload (g_performer staged) (g_task_type staged) =
    Ok (g_stage_ref staged, g_staged_digest staged, g_payload_sha256 staged).

Lemma sent_envelope data env env' payload :
  carried env env' data -> coord_dispatch_envelope (message_parts data env payload) = Some env'.
Proof.
  intros [_ Hj]. unfold coord_dispatch_envelope, message_parts. cbn [omap list_omap]. unfold part_dispatch at 1.
  cbn [Proposal.media_type Proposal.content]. rewrite decide_False by naive_solver. by rewrite Hj.
Qed.

Lemma sent_verifies staged route sender_root receipt env env' data payload :
  envelope staged route sender_root receipt = Ok env -> honest_staging staged payload -> rt_label route = g_performer staged ->
  carried env env' data -> conforms env' = true ->
  verify env' (message_parts data env payload) sender_root (rt_root route) =
    Ok (mkReceivedDispatch (g_staged_digest staged) (g_payload_sha256 staged) (g_task_type staged) (g_performer staged)
          sender_root receipt (Z.of_nat (length payload))).
Proof.
  intros He Hh Hl [Ho Hj] Hc. unfold envelope in He. destruct (Dsse.validate _ _); [|done]. injection He as He.
  destruct (envelope_members (g_task_type staged) (rt_label route) (rt_root route) sender_root (g_payload_sha256 staged)
    (g_staged_digest staged) receipt) as (M1 & M2 & M3 & M4 & M5 & M6 & M7). rewrite He in *.
  assert (forall k t, member k env = Some (JStr t) -> text_member k env' = Some t) as Hm.
  { destruct (envelope_object (g_task_type staged) (rt_label route) (rt_root route) sender_root (g_payload_sha256 staged)
      (g_staged_digest staged) receipt) as [l Hobj]. rewrite He in Hobj.
    destruct (struct_texts l) as (v & j & H1 & H2 & H3). rewrite <- Hobj in H1, H3. intros k t Hk.
    apply text_member_Some. assert (v = data) as -> by congruence. assert (j = env') as -> by congruence. by apply H3. }
  apply verify_exact. unfold admissible. cbn. rewrite Hl in M2.
  do 9 (split; [by first [done | apply Hm]|]). exists payload, (g_stage_ref staged). by rewrite Hl in *.
Qed.
End honest.

(** ** Executable instances and a witness *)

Definition ToyEndpoints : Endpoints := {| parse_endpoint := fun e => Some (e, 443%Z, "/a2a") |}.

#[global] Instance Content_wire : Wire (Proposal.Content Json).
Proof.
  refine (wire_inj (fun c => match c with CText x => (0, x, [], JNull) | CRaw b => (1, "", b, JNull) | CUrl x => (2, x, [], JNull)
                             | CData v => (3, "", [], v) end)%Z
            (fun '(k, x, b, v) => match k with 0 => CText x | 1 => CRaw b | 2 => CUrl x | _ => CData v end)%Z _).
  by intros [].
Defined.

#[global] Instance Part_wire : Wire (Part Json).
Proof.
  refine (wire_inj (fun p => (Proposal.filename p, Proposal.content p, Proposal.media_type p)) (fun '(f, c, m) => mkMsgPart f c m) _).
  by intros [].
Defined.

#[global] Instance Message_wire : Wire (Profile.Message (V := Json)).
Proof.
  refine (wire_inj (fun m => (Profile.message_id m, Profile.context_id m, Profile.task_id m, Profile.reference_task_ids m,
                              Profile.role m, Profile.parts m, Profile.extensions m))
            (fun '(a, b, c, r, x, p, e) => Profile.mkMessage a b c r x p e) _). by intros [].
Defined.

#[global] Instance Configuration_wire : Wire Profile.Configuration.
Proof.
  refine (wire_inj (fun c => (Profile.return_immediately c, Profile.has_push_config c)) (fun '(a, b) => Profile.mkConfiguration a b) _).
  by intros [].
Defined.

#[global] Instance Request_wire : Wire (Profile.SendMessageRequest (V := Json)).
Proof.
  refine (wire_inj (fun r => (Profile.r_message r, Profile.r_configuration r)) (fun '(m, c) => Profile.mkRequest m c) _). by intros [].
Defined.

Definition ToyStruct : ProtoStruct Json.
Proof.
  refine {| struct_value := {| to_json := Some |}; of_json := Some |}. intros l. exists (JObj l), (JObj l). done.
Defined.

(** The request as a text member; its bytes are read back. *)
Definition ToySend : SendText Json := {|
  request_value := fun r => Some (JStr (from_utf8 (put r)));
  read_request := fun b => match get b with
    | Some (JStr t, []) => match get (as_bytes t) with Some (r, []) => Some r | _ => None end
    | _ => None end |}.

#[local] Existing Instances ToyHashes ToyHex ToySchemas ToyStruct ToySend.
#[local] Instance toy_canon : Canon Json := ToyCanon Json.

Lemma toy_canon_staged a b c a' b' c' x :
  canonical_bytes (staged_content a b c) = Some x -> canonical_bytes (staged_content a' b' c') = Some x -> a = a' /\ b = b' /\ c = c'.
Proof.
  intros Hx Hy. assert (Some (put (staged_content a b c)) = Some (put (staged_content a' b' c'))) as H%(inj Some)
    by (etrans; [exact Hx|symmetry; exact Hy]).
  pose proof (get_put (staged_content a b c) []) as H1. rewrite H, get_put in H1. apply (inj Some) in H1.
  assert (staged_content a' b' c' = staged_content a b c) as H2 by congruence.
  assert (forall a b c, text_member "payload_sha256" (staged_content a b c) = Some a /\
            text_member "performer" (staged_content a b c) = Some b /\ text_member "task_type" (staged_content a b c) = Some c)
    as Hm by by repeat split.
  destruct (Hm a b c) as (Ha & Hb & Hc), (Hm a' b' c') as (Ha' & Hb' & Hc'). rewrite H2 in Ha', Hb', Hc'.
  split; [congruence|split; congruence].
Qed.

Definition sample_envelope : Json :=
  envelope_value "https://t/v1" "bob" "root-b" "root-a" (hex_digest (as_bytes "hello"))
    (match stage_reference (as_bytes "hello") "bob" "https://t/v1" with Ok (_, d, _) => d | Err _ => "" end) "consent-1".

Definition sample_parts : list (Part Json) := message_parts sample_envelope sample_envelope (as_bytes "hello").

Definition sample_dispatch : result CoordReject ReceivedDispatch := verify sample_envelope sample_parts "root-a" "root-b".

Lemma sample_verified : exists r ref sha, sample_dispatch = Ok r /\
  stage_reference (as_bytes "hello") "bob" "https://t/v1" = Ok (ref, rd_staged_digest r, sha).
Proof. eexists _, _, _. split; vm_compute; reflexivity. Qed.

Lemma dispatch_binds_consent_witness : exists r, sample_dispatch = Ok r /\
  ((omap part_payload sample_parts = [as_bytes "hello"] /\ rd_recipient_label r = "bob") \/ sha256_collision).
Proof.
  destruct sample_verified as (r & ref & sha & Hr & Hs). exists r. split; [exact Hr|]. unfold sample_dispatch in Hr.
  destruct (dispatch_binds_consent toy_canon_staged sample_envelope sample_parts "root-a" "root-b" r (as_bytes "hello") "bob"
    "https://t/v1" ref sha Hr Hs) as [(H1 & H2 & _)|Hc]; [left; exact (conj H1 H2)|right; exact Hc].
Defined.
End CoordEgress.
