(* ===== verification/Coord.v ===== *)
(** The coordination surface of the daemon (aksond/src/coord.rs): what a driver may stage,
    the operator's one-shot consent, the dispatch that spends it and carries the bytes, and
    the reads a driver has.

    A handler runs on the database; the wall clock, the random nonces and ids, and what the
    machine reports about its sandbox are arguments. [dispatch] also answers with the
    messages it put on the wire, and takes the peer's answer and what the other connections
    did to the database while the store lock was released for the network. *)
From S2P Require Import Prelude Text Crypto Sign Envelope AuditLog Lifecycle Keys Json IJson Dsse Contract Proposal Profile.
From S2P Require Import Introduction Evidence Inert Chars Toy Control Db Handler Readers StoreMeta StorePeers StoreInbox StoreContracts StoreCoord.
From S2P Require Import StoreReach CoordEgress.

Module Coord.
Import Json.
Import Handler.
Import Contract (Identity, issuer, agent, root, mkIdentity).
Import Control (Problem, problem, mkProblem).
Import Proposal (hex_digest, to_value, ToValue).
Import Introduction (member, as_str).
Import (hints) StoreReach.
Import StoreCoord.
Import CoordEgress (COORD_PROTOCOL, COORD_PROTOCOL_VERSION, stage_reference, CoordRoute, rt_root, resolve_route).

Definition IMPLEMENTED : list string :=
  ["coord_whoami"; "peer_show"; "stage"; "stage_show"; "dispatch"; "task_status"; "events_read"; "capability_evidence"].
Definition UNIMPLEMENTED : list string := [].
Definition PARTIAL : list Json := [].

Definition EGRESS_PENDING_DETAIL : string :=
  "the consent receipt is spent and the dispatch is committed, but this endpoint has no acknowledgement that the bytes left; retry under the same execution_key to resume carriage".

Definition MAX_ID_CHARS : nat := 128.
Definition MAX_STAGED_PAYLOAD_BYTES : Z := 512 * 1024.
Definition DEFAULT_EVENT_LIMIT : Z := 64.
Definition MAX_EVENT_LIMIT : Z := 256.
Definition CURSOR_DOMAIN : string := "akson-coord-events-v1:".

(** [valid_label] of bootstrap.rs. *)
Fixpoint contains_double (c : byte) (l : bytes) : bool :=
  match l with
  | a :: (b :: _) as l' => bool_decide (a = c /\ b = c) || contains_double c l'
  | _ => false
  end.

Definition label_byte (b : byte) : bool :=
  Profile.in_bytes 97 122 b || Profile.in_bytes 48 57 b || bool_decide (b = "-"%char).

Definition valid_label (label : string) : bool :=
  let l := as_bytes label in
  negb (bool_decide (label = "")) && bool_decide (String.length label <= 64) && forallb label_byte l &&
  negb (bool_decide (head l = Some "-"%char)) && negb (bool_decide (last l = Some "-"%char)) && negb (contains_double "-"%char l).

Definition valid_id (id : string) : bool :=
  negb (bool_decide (id = "")) && bool_decide (length (Chars.chars id) <= MAX_ID_CHARS) &&
  negb (existsb (fun c => Chars.is_control c || Chars.is_whitespace c) (Chars.chars id)).

Definition unknown_peer : Problem := problem 404 "unknown-peer" "no imported peer answers to that label".
Definition unknown_task : Problem := problem 404 "unknown-task" "no task dispatched from this surface has that reference".
Definition consent_required : Problem := problem 409 "consent-required" "no live consent receipt binds that staged digest".
Definition unknown_stage : Problem := problem 404 "unknown-stage" "no staged contract has that reference".

Definition already_consented : Problem :=
  problem 409 "already-consented" "an unconsumed consent receipt already exists for this staged digest".

Definition already_dispatched (r : DispatchRecord) : Problem :=
  mkProblem "urn:akson:error:already-dispatched" "this staging has already been dispatched" 409
    (Some ("consent for this staged digest was already spent under execution_key " +:+ x_execution_key r +:+ " (carriage " +:+
           x_egress_state r +:+ "); re-present that execution_key to resume carriage, which spends nothing")).

Definition time_uncertain : Problem :=
  problem 503 "time-uncertain" "the trusted clock moved backward; refusing until time is re-established".

Definition trusted_now (wall : Z) : H Z := fun d =>
  match exec (StoreMeta.trusted_now wall) d with
  | (Ok t, d') => (Ok t, d')
  | (Err _, d') => (Err time_uncertain, d')
  end.

(** What the handlers take from the daemon's state. *)
Record CoordConfig := mkCoordConfig {
  cc_local : Identity; cc_interface_url : string; cc_endpoint_fingerprint : string; cc_evidence_key : Keys.PurposeKey }.

(** The [Debug] rendering of a text, which consults Unicode tables. *)
Class DebugText := { debug_text : string -> string }.

(** One entry of [akson_sandbox::diagnose]. *)
Record Diagnostic := mkDiagnostic { feature : string; available : bool; required : bool }.

Definition all_required_available (report : list Diagnostic) : bool :=
  forallb (fun d => negb (required d) || available d) report.

Definition opt_str (o : option string) : Json := match o with Some x => JStr x | None => JNull end.
Definition opt_int (o : option Z) : Json := match o with Some x => JInt x | None => JNull end.

(** ** Answers *)

Definition coord_whoami (c : CoordConfig) : Json :=
  IJson.obj [("protocol", JStr COORD_PROTOCOL); ("protocol_version", JInt COORD_PROTOCOL_VERSION);
    ("issuer", JStr (issuer (cc_local c))); ("agent", JStr (agent (cc_local c))); ("root_thumbprint", JStr (root (cc_local c)));
    ("interface_url", JStr (cc_interface_url c)); ("endpoint_fingerprint", JStr ("sha256:" +:+ cc_endpoint_fingerprint c));
    ("features", JArr (JStr <$> IMPLEMENTED)); ("unimplemented", JArr (JStr <$> UNIMPLEMENTED)); ("partial", JArr PARTIAL)].

Definition staged_members (st : StagedContract) (consent : option Json) : list (string * Json) :=
  [("stage_ref", JStr (g_stage_ref st)); ("staged_digest", JStr (g_staged_digest st));
   ("payload_sha256", JStr (g_payload_sha256 st)); ("byte_length", JInt (g_byte_length st)); ("task_type", JStr (g_task_type st));
   ("performer", JStr (g_performer st)); ("status", JStr (g_status st)); ("staged_at", JInt (g_staged_at st));
   ("consent", default JNull consent)].

Definition staged_json (st : StagedContract) (consent : option Json) : Json := IJson.obj (staged_members st consent).

Definition egress_json (r : DispatchRecord) : Json :=
  IJson.obj [("state", JStr (x_egress_state r)); ("at", opt_int (x_egress_at r));
    ("detail", JStr (if decide (x_egress_detail r = "") then EGRESS_PENDING_DETAIL else x_egress_detail r));
    ("retryable", JBool (egress_may_be_attempted r))].

Definition dispatched_json (st : StagedContract) (r : DispatchRecord) (replayed : bool) : Json :=
  IJson.obj [("dispatch_receipt", JStr (x_dispatch_receipt r)); ("stage_ref", JStr (x_stage_ref r));
    ("staged_digest", JStr (x_staged_digest r)); ("payload_sha256", JStr (g_payload_sha256 st));
    ("byte_length", JInt (g_byte_length st)); ("task_type", JStr (g_task_type st)); ("performer", JStr (g_performer st));
    ("consent_receipt", JStr (x_receipt_id r)); ("execution_key", JStr (x_execution_key r)); ("consent_spent", JBool true);
    ("status", JStr COORD_STATUS_DISPATCHED); ("dispatched_at", JInt (x_dispatched_at r)); ("replayed", JBool replayed);
    ("egress", egress_json r)].

Definition verification_json (r : DispatchRecord) : Json :=
  let acknowledged := bool_decide (x_egress_state r = COORD_EGRESS_SENT) in
  IJson.obj [("state", JStr (if acknowledged then "acknowledged" else "unacknowledged"));
    ("result_manifest_digest", JNull); ("outcome_state", JNull);
    ("detail", JStr (
      if acknowledged then "the pinned recipient acknowledged this staged digest; a coordination dispatch carries no contract, so no result manifest or outcome is verifiable against it"
      else if decide (x_egress_state r = COORD_EGRESS_FAILED)
      then "carriage failed and no recipient acknowledged this staged digest: " +:+ x_egress_detail r
      else EGRESS_PENDING_DETAIL))].

Definition egress_line (dispatched : option DispatchRecord) : string :=
  match dispatched with
  | None => "staging was inert: nothing has left this machine yet"
  | Some r =>
      if decide (x_egress_state r = COORD_EGRESS_SENT)
      then "ALREADY DISCLOSED: dispatch " +:+ x_dispatch_receipt r +:+ " was acknowledged by the recipient — these bytes have left this machine"
      else if decide (x_egress_state r = COORD_EGRESS_FAILED)
      then "ALREADY DISPATCHED: consent was spent on dispatch " +:+ x_dispatch_receipt r +:+ " and its carriage failed; the bytes may or may not have left"
      else "ALREADY DISPATCHED: consent was spent on dispatch " +:+ x_dispatch_receipt r +:+ " and no acknowledgement is recorded; the bytes may or may not have left"
  end.

Definition dimension (name source state : string) (facts : Json) : Json :=
  IJson.obj [("dimension", JStr name); ("source", JStr source); ("state", JStr state); ("facts", facts)].

Definition LOCAL : string := "locally_observed".
Definition ASSERTED : string := "peer_asserted".
Definition PREDICATE_FEDERATION_CAPABILITY_V1 : string := "https://akson.invalid/attestation/federation-capability/v1".

(** ** The event cursor *)

Section cursor.
Context {BU : Keys.Base64Url}.

Definition encode_cursor (seq : Z) : string := Keys.url_encode (as_bytes (CURSOR_DOMAIN +:+ Chars.show_i64 seq)).

Definition bad_cursor : Problem := problem 400 "bad-cursor" "that cursor did not come from this feed".

Definition decode_cursor (cursor : string) : result Problem Z :=
  b ← ok_or (Keys.url_decode cursor) bad_cursor;
  if negb (Inert.valid_utf8 b) then Err bad_cursor else
  rest ← ok_or (Profile.strip_prefix (as_bytes CURSOR_DOMAIN) b) bad_cursor;
  seq ← ok_or (Chars.parse_i64 (from_utf8 rest)) bad_cursor;
  if (seq <? 0)%Z then Err bad_cursor else Ok seq.
End cursor.

(** ** Handlers *)

Section handlers.
Context {HS : Hashes} {HX : Hex} {AE : Aead} {ED : Ed25519} {B64 : Base64} {BU : Keys.Base64Url} {JT : Keys.JwkText}
  {CN : Canon Json} {SV : Dsse.Schemas} {CJ : Codec Json} {CP : Codec StorePeers.StoredPeer} {EP : CoordEgress.Endpoints}
  {DT : DebugText} {TS : ToValue Evidence.Statement} {TE : ToValue Dsse.Envelope} {V : Type} {PS : CoordEgress.ProtoStruct V}
  {ST : CoordEgress.SendText V}.
Context (s : Store) (config : CoordConfig).

Definition peer_show (label : string) : H Json :=
  if negb (valid_label label) then raise unknown_peer else
  found ← call (StorePeers.peer_import_by_label label);
  import ← require found unknown_peer;
  let root := StorePeers.i_root_thumbprint import in
  stored ← call (StorePeers.get_peer_by_root s root);
  match stored with
  | None => mret (IJson.obj [("label", JStr label); ("root_thumbprint", JStr root); ("verified", JBool false);
                             ("status", JStr "imported")])
  | Some peer =>
      row ← call (StorePeers.peer_by_root root);
      let status := match row with Some (_, status) => status | None => "imported" end in
      let id := StorePeers.identity peer in
      mret (IJson.obj [("label", JStr label); ("root_thumbprint", JStr root); ("verified", JBool true); ("status", JStr status);
        ("identity", IJson.obj [("issuer", opt_str (Lifecycle.p_issuer id)); ("agent_id", JStr (Lifecycle.agent_id id));
           ("endpoint_id", JStr (Lifecycle.endpoint_id id));
           ("tls_certificate_sha256", JStr (Lifecycle.fp_value (Lifecycle.tls_cert id)));
           ("agent_card_thumbprint", JStr (Lifecycle.fp_value (Lifecycle.agent_card_key id)))]);
        ("card_claims", IJson.obj [
           ("security_projection_digest", JStr (Lifecycle.fp_value (Lifecycle.security_projection_digest id)));
           ("full_card_digest", JStr (Lifecycle.fp_value (Lifecycle.full_card_digest id)));
           ("key_purposes", JArr ((fun b => JStr (Introduction.purpose_name (Lifecycle.kb_purpose b))) <$> Lifecycle.key_bindings id))]);
        ("endpoint_hint", JStr (StorePeers.i_endpoint_hint import))])
  end.

(** [nonce1] and [nonce2] seal the payload and the event. *)
Definition stage (nonce1 nonce2 : bytes) (wall : Z) (task_type performer payload_base64 : string) : H Json :=
  if negb (CoordEgress.envelope_admits_task_type task_type)
  then raise (problem 400 "bad-task-type" "task_type must be a bounded printable US-ASCII URI with no whitespace — exactly what the coordination envelope admits") else
  if negb (bool_decide (performer = "")) && negb (valid_label performer && CoordEgress.envelope_admits_recipient_label performer)
  then raise unknown_peer else
  payload ← require (b64_decode payload_base64)
              (problem 400 "bad-payload" "payload_base64 is not valid base64 (standard alphabet)");
  if decide (payload = []) then raise (problem 400 "bad-payload" "there are no bytes to stage") else
  if (MAX_STAGED_PAYLOAD_BYTES <? Z.of_nat (length payload))%Z
  then raise (problem 413 "payload-too-large" "the staged payload exceeds the coordination ceiling") else
  reference ← hlift (stage_reference payload performer task_type);
  let '(stage_ref, staged_digest, payload_sha256) := reference in
  imported ← (if decide (performer = "") then mret true
              else o ← call (StorePeers.peer_import_by_label performer); mret (bool_decide (is_Some o)));
  if negb imported then raise unknown_peer else
  now ← trusted_now wall;
  let event := IJson.obj [("stage_ref", JStr stage_ref); ("staged_digest", JStr staged_digest);
    ("payload_sha256", JStr payload_sha256); ("task_type", JStr task_type); ("performer", JStr performer);
    ("byte_length", JInt (Z.of_nat (length payload)))] in
  outcome ← call (stage_contract s nonce1 nonce2
                    (mkNewStaged stage_ref staged_digest task_type performer payload_sha256 payload event) now);
  mret (IJson.obj (staged_members (stage_record outcome) None ++ [("already_staged", JBool (already_staged outcome))])).

Definition stage_show (stage_ref : string) : H Json :=
  o ← call (staged_contract stage_ref);
  staged ← require o unknown_stage;
  live ← call (unconsumed_consent stage_ref);
  mret (staged_json staged ((fun c => IJson.obj [("consent_receipt", JStr (r_receipt_id c));
    ("staged_digest", JStr (r_staged_digest c)); ("max_uses", JInt (r_max_uses c)); ("uses", JInt (r_uses c));
    ("minted_at", JInt (r_minted_at c))]) <$> live)).

Definition event_json (e : CoordEvent) : Json :=
  IJson.obj [("cursor", JStr (encode_cursor (e_seq e))); ("kind", JStr (e_kind e)); ("stage_ref", opt_str (e_stage_ref e));
    ("at", JInt (e_at e)); ("detail", e_detail e)].

Definition clamp_limit (limit : option Z) : Z := Z.min (Z.max 1 (default DEFAULT_EVENT_LIMIT limit)) MAX_EVENT_LIMIT.

Definition events_read (cursor : option string) (limit : option Z) : H Json :=
  after ← hlift (match cursor with Some c => decode_cursor c | None => Ok 0%Z end);
  events ← call (read_coord_events s after (clamp_limit limit));
  feed_head ← call coord_events_head;
  let last := match last events with Some e => e_seq e | None => after end in
  mret (IJson.obj [("events", JArr (event_json <$> events)); ("next_cursor", JStr (encode_cursor last));
    ("has_more", JBool (last <? feed_head)%Z)]).

(** The facts about the recipient, one line each. *)
Definition recipient_lines (staged : StagedContract) : H (list string) :=
  if decide (g_performer staged = "") then mret ["recipient label: (none)"] else
  found ← call (StorePeers.peer_import_by_label (g_performer staged));
  match found with
  | None => mret ["recipient label: " +:+ g_performer staged; "this label no longer names an imported peer"]
  | Some import =>
      row ← call (StorePeers.peer_by_root (StorePeers.i_root_thumbprint import));
      let status := match row with
                    | Some (agent, status) => status +:+ " (claims the name " +:+ debug_text agent +:+ ")"
                    | None => "imported, not yet introduced"
                    end in
      mret (["recipient label: " +:+ g_performer staged; "root thumbprint: " +:+ StorePeers.i_root_thumbprint import;
             "relationship: " +:+ status] ++
            (if decide (StorePeers.i_endpoint_hint import = "") then []
             else ["endpoint hint: " +:+ StorePeers.i_endpoint_hint import]))
  end.

Definition section (heading : string) (lines : list string) : Json :=
  IJson.obj [("heading", JStr heading); ("lines", JArr (JStr <$> lines))].

Definition risk_card (staged : StagedContract) (dispatched : option DispatchRecord) : H (string * list Json) :=
  let recipient := if decide (g_performer staged = "") then "no named recipient"
                   else "your peer " +:+ debug_text (g_performer staged) in
  let sentence := "You are about to allow ONE outbound disclosure to " +:+ recipient +:+ ": " +:+
                  Chars.show_i64 (g_byte_length staged) +:+ " bytes of " +:+ g_task_type staged +:+ "." in
  who ← recipient_lines staged;
  mret (sentence,
    [section "What leaves this machine" ["task type:   " +:+ g_task_type staged;
       "bytes:       " +:+ Chars.show_i64 (g_byte_length staged); "payload:     sha256:" +:+ g_payload_sha256 staged;
       "staged as:   " +:+ g_staged_digest staged];
     section "Who receives it" who;
     section "What this consent allows" ["exactly one dispatch of the staged digest above, once (max_uses 1)";
       "nothing else: it grants no model call, no credential, and no inbound authority";
       "akson does not interpret these bytes — it discloses them as staged"];
     section "Who staged it" ["the coordination surface (" +:+ COORD_PROTOCOL +:+ "), at unix time " +:+
         Chars.show_i64 (g_staged_at staged); egress_line dispatched]]).

(** [random] is the fresh hexadecimal id; the nonces seal the receipt and the event. *)
Definition stage_consent (nonce1 nonce2 : bytes) (random : string) (wall : Z) (stage_ref : string) : H Json :=
  o ← call (staged_contract stage_ref);
  staged ← require o unknown_stage;
  live ← call (unconsumed_consent stage_ref);
  match live with
  | Some _ => raise already_consented
  | None =>
      dispatched ← call (coord_dispatch stage_ref);
      match dispatched with
      | Some record => raise (already_dispatched record)
      | None =>
          now ← trusted_now wall;
          card ← risk_card staged None;
          let receipt_id := "consent-" +:+ random in
          let body := IJson.obj [("receipt_id", JStr receipt_id); ("stage_ref", JStr (g_stage_ref staged));
            ("staged_digest", JStr (g_staged_digest staged)); ("payload_sha256", JStr (g_payload_sha256 staged));
            ("purpose", JStr "coord.dispatch"); ("max_uses", JInt 1); ("minted_at", JInt now)] in
          let event := IJson.obj [("stage_ref", JStr (g_stage_ref staged)); ("staged_digest", JStr (g_staged_digest staged));
            ("consent_receipt", JStr receipt_id); ("max_uses", JInt 1)] in
          minted ← call (mint_consent_receipt s nonce1 nonce2 (g_stage_ref staged) receipt_id (encode body) event now);
          receipt ← require minted already_consented;
          mret (IJson.obj [("consented", JBool true); ("consent_receipt", JStr (r_receipt_id receipt));
            ("stage_ref", JStr (r_stage_ref receipt)); ("staged_digest", JStr (r_staged_digest receipt));
            ("max_uses", JInt (r_max_uses receipt)); ("uses", JInt (r_uses receipt)); ("minted_at", JInt (r_minted_at receipt));
            ("sentence", JStr card.1); ("sections", JArr card.2)])
      end
  end.

(** *** Dispatch *)

(** What the commit hands to the carriage. *)
Record Committed := mkCommitted {
  cm_staged : StagedContract; cm_route : CoordRoute; cm_envelope : Json; cm_payload : bytes; cm_outcome : DispatchOutcome }.

(** Steps 1 and 2, under the store lock. *)
Definition dispatch_commit (nonce : bytes) (random : string) (wall : Z) (stage_ref consent_receipt execution_key : string) :
  H Committed :=
  o ← call (staged_contract stage_ref);
  staged ← require o unknown_stage;
  route ← resolve_route s staged;
  envelope ← hlift (CoordEgress.envelope staged route (root (cc_local config)) consent_receipt);
  p ← call (staged_payload s stage_ref);
  payload ← require p internal;
  now ← trusted_now wall;
  let dispatch_receipt := "dispatch-" +:+ random in
  let event := IJson.obj [("stage_ref", JStr (g_stage_ref staged)); ("staged_digest", JStr (g_staged_digest staged));
    ("payload_sha256", JStr (g_payload_sha256 staged)); ("task_type", JStr (g_task_type staged));
    ("performer", JStr (g_performer staged)); ("recipient_root", JStr (rt_root route)); ("byte_length", JInt (g_byte_length staged));
    ("consent_receipt", JStr consent_receipt); ("execution_key", JStr execution_key);
    ("dispatch_receipt", JStr dispatch_receipt)] in
  outcome ← call (dispatch_staged s nonce stage_ref consent_receipt execution_key dispatch_receipt event now);
  mret (mkCommitted staged route envelope payload outcome).

(** The bytes of the carriage. *)
Definition carriage_body (c : Committed) (record : DispatchRecord) : result Problem bytes :=
  CoordEgress.message_body (V := V) (cm_envelope c) (cm_payload c) (x_dispatch_receipt record) (x_stage_ref record).

(** Step 4. *)
Definition record_carriage (nonce : bytes) (wall : Z) (c : Committed) (record : DispatchRecord) (carriage : CoordEgress.Carriage) :
  H DispatchRecord :=
  let '(egress_state, detail) := match carriage with
                                 | CoordEgress.Acknowledged detail => (COORD_EGRESS_SENT, detail)
                                 | CoordEgress.Failed detail => (COORD_EGRESS_FAILED, detail)
                                 end in
  now ← trusted_now wall;
  let event := IJson.obj [("stage_ref", JStr (x_stage_ref record)); ("staged_digest", JStr (x_staged_digest record));
    ("execution_key", JStr (x_execution_key record)); ("dispatch_receipt", JStr (x_dispatch_receipt record));
    ("recipient_root", JStr (rt_root (cm_route c))); ("egress_state", JStr egress_state); ("detail", JStr detail)] in
  o ← call (record_egress s nonce (x_execution_key record) egress_state detail event now);
  require o internal.

(** The environment of one dispatch: what the peer answers to a body, what the other
    connections do while the lock is released, the clock then, and a nonce. *)
Record World := mkWorld {
  answer : CoordRoute -> bytes -> result Problem (Z * bytes);
  meanwhile : Db -> Db;
  later : Z;
  record_nonce : bytes;
}.

Definition Wire : Type := list (CoordRoute * bytes).

Definition carry_and_record (w : World) (c : Committed) (record : DispatchRecord) (d : Db) :
  result Problem DispatchRecord * Db * Wire :=
  match carriage_body c record with
  | Err p => (Err p, d, [])
  | Ok body =>
      let carriage := CoordEgress.carry (cm_route c) (answer w (cm_route c) body) (g_staged_digest (cm_staged c)) in
      (record_carriage (record_nonce w) (later w) c record carriage (meanwhile w d), [(cm_route c, body)])
  end.

Definition respond (c : Committed) (replayed : bool) (r : result Problem DispatchRecord) : result Problem Json :=
  record ← r; Ok (dispatched_json (cm_staged c) record replayed).

Definition dispatch (w : World) (nonce : bytes) (random : string) (wall : Z) (stage_ref consent_receipt execution_key : string)
  (d : Db) : result Problem Json * Db * Wire :=
  if negb (valid_id execution_key)
  then (Err (problem 400 "bad-execution-key" "execution_key must be a non-empty bounded printable id"), d, []) else
  if negb (valid_id stage_ref) then (Err unknown_stage, d, []) else
  if negb (valid_id consent_receipt) then (Err consent_required, d, []) else
  match dispatch_commit nonce random wall stage_ref consent_receipt execution_key d with
  | (Err p, d) => (Err p, d, [])
  | (Ok c, d) =>
      match cm_outcome c with
      | Dispatched burn =>
          let '(r, d, wire) := carry_and_record w c (into_record burn) d in (respond c false r, d, wire)
      | AlreadyDispatched record =>
          if egress_may_be_attempted record
          then let '(r, d, wire) := carry_and_record w c record d in (respond c true r, d, wire)
          else (Ok (dispatched_json (cm_staged c) record true), d, [])
      | ConsentSpent =>
          (Err (problem 409 "consent-spent" "that consent receipt has already been dispatched; consent is one-shot"), d, [])
      | ConsentUnknown => (Err consent_required, d, [])
      | ExecutionKeyConflict _ =>
          (Err (problem 409 "execution-key-conflict" "that execution_key already names a different dispatch"), d, [])
      end
  end.

Definition task_status (task_id : string) : H Json :=
  if negb (valid_id task_id) then raise unknown_task else
  found ← call (coord_dispatch task_id);
  record ← require found unknown_task;
  o ← call (staged_contract (x_stage_ref record));
  staged ← require o internal;
  mret (IJson.obj [("task_id", JStr task_id); ("stage_ref", JStr (x_stage_ref record)); ("staged_digest", JStr (x_staged_digest record));
    ("payload_sha256", JStr (g_payload_sha256 staged)); ("byte_length", JInt (g_byte_length staged));
    ("task_type", JStr (g_task_type staged)); ("performer", JStr (g_performer staged)); ("status", JStr (g_status staged));
    ("dispatch_receipt", JStr (x_dispatch_receipt record)); ("consent_receipt", JStr (x_receipt_id record));
    ("execution_key", JStr (x_execution_key record)); ("dispatched_at", JInt (x_dispatched_at record));
    ("egress", egress_json record); ("verification", verification_json record)]).

(** *** Capability evidence *)

Definition identity_dimension (root relationship : string) (epoch : Z) (peer : option StorePeers.StoredPeer) : Json :=
  match peer with
  | Some p =>
      let id := StorePeers.identity p in
      dimension "peer_identity" LOCAL "verified" (IJson.obj [("root_thumbprint", JStr root);
        ("issuer", opt_str (Lifecycle.p_issuer id)); ("agent_id", JStr (Lifecycle.agent_id id));
        ("endpoint_id", JStr (Lifecycle.endpoint_id id));
        ("tls_certificate_sha256", JStr (Lifecycle.fp_value (Lifecycle.tls_cert id)));
        ("agent_card_thumbprint", JStr (Lifecycle.fp_value (Lifecycle.agent_card_key id)));
        ("relationship", JStr relationship); ("epoch", JInt epoch)])
  | None => dimension "peer_identity" LOCAL "unverified" (IJson.obj [("root_thumbprint", JStr root);
      ("relationship", JStr relationship); ("epoch", JInt epoch);
      ("reason", JStr "no introduction has committed the §8.1 identity tuple")])
  end.

Definition card_dimension (peer : option StorePeers.StoredPeer) : Json :=
  match peer with
  | Some p =>
      let id := StorePeers.identity p in
      dimension "card_claims" ASSERTED "pinned" (IJson.obj [
        ("security_projection_digest", JStr (Lifecycle.fp_value (Lifecycle.security_projection_digest id)));
        ("full_card_digest", JStr (Lifecycle.fp_value (Lifecycle.full_card_digest id)));
        ("key_purposes", JArr ((fun b => JStr (Introduction.purpose_name (Lifecycle.kb_purpose b))) <$> Lifecycle.key_bindings id))])
  | None => dimension "card_claims" ASSERTED "absent"
      (IJson.obj [("reason", JStr "the peer has asserted no Agent Card to this endpoint yet")])
  end.

Definition rollback_dimension (generation floor : Z) : Json :=
  let '(state, detail) := match recovery s with
    | Normal => ("normal", "the checkpoint agrees with the database")
    | RollbackDetectionUnavailable => ("detection_unavailable", "no independent rollback counter exists (interim custody, §15.5)")
    | InRecovery _ => ("recovery", "the database disagrees with the checkpoint; automatic authority is disabled")
    end in
  dimension "rollback_detection" LOCAL state (IJson.obj [
    ("detectable", JBool (match recovery s with Normal => true | _ => false end));
    ("automatic_authority", JBool (StoreMeta.automatic_authority_enabled (recovery s)));
    ("state_generation", JInt generation); ("trusted_time_floor", JInt floor); ("detail", JStr detail)]).

Definition confinement_dimension (report : list Diagnostic) : Json :=
  let missing := List.filter (fun d => required d && negb (available d)) report in
  dimension "confinement" LOCAL (match missing with [] => "ready" | _ => "degraded" end) (IJson.obj [
    ("sandbox_ready", JBool (all_required_available report)); ("unavailable_required", JArr ((fun d => JStr (feature d)) <$> missing))]).

Definition budget_dimension (policy : option StorePeers.AutoApprovePolicy) : Json :=
  dimension "budget" LOCAL (match policy with Some _ => "standing_policy" | None => "always_ask" end) (IJson.obj [
    ("auto_approve_task_types", match policy with Some p => JArr (JStr <$> StorePeers.task_types p) | None => JNull end);
    ("auto_approve_max_response_bytes", opt_int (StorePeers.max_response_bytes <$> policy));
    ("max_staged_payload_bytes", JInt MAX_STAGED_PAYLOAD_BYTES)]).

Definition schemas_dimension : Json :=
  dimension "evidence_schemas" LOCAL "provisional_media_types" (IJson.obj [
    ("statement_type", JStr Evidence.STATEMENT_TYPE_V1); ("payload_type", JStr Evidence.INTOTO_PAYLOAD_TYPE);
    ("envelope_media_type", JStr Dsse.DSSE_ENVELOPE_MEDIA_TYPE);
    ("schemas", JArr ((fun i => JStr (Dsse.name i +:+ ".v" +:+ to_string (Dsse.version i))) <$> Dsse.ALL))]).

Definition key_expiry_dimension : Json :=
  dimension "key_expiry" ASSERTED "not_retained" (IJson.obj [("reason",
    JStr "akson pins key thumbprints at introduction and does not retain the card's not_before/not_after")]).

Definition capability_predicate (report : list Diagnostic) (label : string) (import : StorePeers.PeerImport) : H Json :=
  let root := StorePeers.i_root_thumbprint import in
  peer ← call (StorePeers.get_peer_by_root s root);
  row ← call (StorePeers.peer_by_root root);
  let relationship := match row with Some (_, status) => status | None => "imported" end in
  generation ← call (gets StoreMeta.state_generation);
  floor ← call (gets StoreMeta.trusted_time_floor);
  policy ← call (StorePeers.auto_approve_for_root root);
  mret (IJson.obj [("schema_version", JInt 1); ("protocol", JStr COORD_PROTOCOL); ("label", JStr label);
    ("root_thumbprint", JStr root);
    ("dimensions", JArr [identity_dimension root relationship (StorePeers.i_epoch import) peer; card_dimension peer;
       key_expiry_dimension; rollback_dimension generation floor; confinement_dimension report; budget_dimension policy;
       schemas_dimension])]).

Definition capability_evidence (report : list Diagnostic) (label : string) : H Json :=
  if negb (valid_label label) then raise unknown_peer else
  found ← call (StorePeers.peer_import_by_label label);
  import ← require found unknown_peer;
  let root := StorePeers.i_root_thumbprint import in
  predicate ← capability_predicate report label import;
  let statement := Evidence.statement_new [Evidence.mkSubject ("peer/" +:+ label) (hex_digest (as_bytes root))]
                     PREDICATE_FEDERATION_CAPABILITY_V1 predicate in
  canonical ← check (Evidence.statement_bytes statement) internal;
  let key := cc_evidence_key config in
  env ← check (Evidence.sign_statement statement key) internal;
  mret (IJson.obj [("label", JStr label); ("root_thumbprint", JStr root);
    ("predicate_type", JStr PREDICATE_FEDERATION_CAPABILITY_V1); ("statement_digest", JStr (hex_digest canonical));
    ("signer", IJson.obj [("purpose", JStr "evidence");
       ("thumbprint", JStr (Keys.thumbprint (Keys.v_verifying (Keys.verifying key))))]);
    ("statement", to_value statement); ("evidence", to_value env)]).

(** *** The dispatcher *)

(** The fresh values one request may draw. *)
Record Fresh := mkFresh { f_nonce1 : bytes; f_nonce2 : bytes; f_random : string; f_wall : Z; f_report : list Diagnostic }.

Definition quiet (h : H Json) (d : Db) : result Problem Json * Db * Wire := (h d, []).

Definition dispatch_coord {Spec Submission : Type} (w : World) (f : Fresh) (r : Control.ControlRequest Spec Submission) :
  Db -> result Problem Json * Db * Wire :=
  match r with
  | Control.RCoordWhoAmI => quiet (mret (coord_whoami config))
  | Control.RPeerShow label => quiet (peer_show label)
  | Control.RStage task_type performer payload => quiet (stage (f_nonce1 f) (f_nonce2 f) (f_wall f) task_type performer payload)
  | Control.RStageShow stage_ref => quiet (stage_show stage_ref)
  | Control.REventsRead cursor limit => quiet (events_read cursor limit)
  | Control.RStageConsent stage_ref => quiet (stage_consent (f_nonce1 f) (f_nonce2 f) (f_random f) (f_wall f) stage_ref)
  | Control.RDispatch stage_ref receipt key => dispatch w (f_nonce1 f) (f_random f) (f_wall f) stage_ref receipt key
  | Control.RTaskStatus task_id => quiet (task_status task_id)
  | Control.RCapabilityEvidence label => quiet (capability_evidence (f_report f) label)
  | _ => quiet (raise (problem 400 "unsupported-operation" "this operation is not a coordination request"))
  end.
End handlers.

(** ** One disclosure per staging *)

Section disclosure.
Context {HS : Hashes} {HX : Hex} {AE : Aead} {ED : Ed25519} {B64 : Base64} {BU : Keys.Base64Url} {JT : Keys.JwkText}
  {CN : Canon Json} {SV : Dsse.Schemas} {CJ : Codec Json} {CP : Codec StorePeers.StoredPeer} {EP : CoordEgress.Endpoints}
  {DT : DebugText}.
Context (s : Store) (config : CoordConfig).

(** What the daemon does to the coordination tables, and whatever else happens to the rest
    of the database. *)
Inductive coord_handled : Db -> Db -> Prop :=
| hd_stage n1 n2 wall tt performer payload d : coord_handled d (stage s n1 n2 wall tt performer payload d).2
| hd_consent n1 n2 random wall ref d : coord_handled d (stage_consent s n1 n2 random wall ref d).2
| hd_commit n random wall ref receipt key d : coord_handled d (dispatch_commit s config n random wall ref receipt key d).2
| hd_record n wall c record carriage d : coord_handled d (record_carriage s n wall c record carriage d).2
| hd_event n kind ref detail now d : coord_handled d (exec (append_coord_event s n kind ref detail now) d).2
| hd_other d d' : coord_db d' = coord_db d -> coord_handled d d'.

(** The ledger invariant, and no more than one receipt for a stage, spent or not. *)
Definition sole (c : CoordDb) : Prop :=
  coord_inv c /\ forall i j r q, coord_consents c !! i = Some r -> coord_consents c !! j = Some q ->
    cs_stage_ref r = cs_stage_ref q -> i = j.

Definition keeps_sole (d d' : Db) : Prop := sole (coord_db d) -> sole (coord_db d').

#[local] Instance keeps_sole_preorder : PreOrder keeps_sole.
Proof. split; [intros d H; exact H|]. intros d1 d2 d3 H1 H2 H. auto. Qed.

#[local] Hint Resolve StoreReach.append_event_local : moves.

Lemma trusted_now_local wall : StoreReach.local_to StoreReach.PMeta (StoreMeta.trusted_now wall).
Proof. unfold StoreMeta.trusted_now, StoreMeta.observe_time. split; [StoreReach.moves_tac|StoreReach.respects_tac]. Qed.

Lemma trusted_now_keeps (R : relation Db) wall :
  (forall d d', coord_db d' = coord_db d -> R d d') -> Keeps R (trusted_now wall).
Proof.
  intros HR d. unfold trusted_now, exec. destruct (StoreMeta.trusted_now wall d) as [[t d1]|] eqn:E; [|by apply HR].
  apply HR. destruct (trusted_now_local wall) as [Hm _]. by apply (StoreReach.only_coord _ _ _ (Hm _ _ _ E)).
Qed.

(** An operation that keeps the receipts keeps the invariant. *)
Lemma sole_step d d' :
  coord_step s d d' -> (forall k, is_Some (tbl_consents d' !! k) -> is_Some (tbl_consents d !! k)) ->
  (forall k r r', tbl_consents d !! k = Some r -> tbl_consents d' !! k = Some r' -> cs_stage_ref r' = cs_stage_ref r) ->
  keeps_sole d d'.
Proof.
  intros Hst Hk Hs [Hi Hu]. split; [by eapply coord_step_inv|]. intros i j r q Hr Hq He.
  destruct (Hk i) as [r' Hr']; [by exists r|]. destruct (Hk j) as [q' Hq']; [by exists q|].
  apply (Hu i j r' q' Hr' Hq'). rewrite <- (Hs _ _ _ Hr' Hr), <- (Hs _ _ _ Hq' Hq). done.
Qed.

Lemma stage_contract_sole n1 n2 new now d o d' : stage_contract s n1 n2 new now d = Ok (o, d') -> keeps_sole d d'.
Proof.
  intros H. apply sole_step; [by econstructor| |]; apply stage_effect in H; destruct o;
    (destruct H as (_ & _ & _ & Hd) || destruct H as [-> _]); unfold tbl_consents in *; try rewrite Hd; cbn; naive_solver.
Qed.

Lemma dispatch_staged_sole n stage rid key dr ev now d o d' :
  dispatch_staged s n stage rid key dr ev now d = Ok (o, d') -> keeps_sole d d'.
Proof.
  intros H. apply sole_step; [by eapply co_dispatch| |]; apply dispatch_effect in H; destruct o;
    try (destruct H as [-> _]; naive_solver); destruct H as (c & Hc & _ & _ & _ & _ & _ & Hd);
    unfold tbl_consents in *; rewrite Hd; cbn.
  - intros k. destruct (decide (k = rid)) as [->|Hn]; [by exists c|by rewrite lookup_insert_ne].
  - intros k r r' Hr. destruct (decide (k = rid)) as [->|Hn]; [rewrite lookup_insert_eq|rewrite lookup_insert_ne by done].
    + intros [= <-]. cbn. congruence.
    + congruence.
Qed.

Lemma record_egress_sole n key st de ev now d o d' : record_egress s n key st de ev now d = Ok (o, d') -> keeps_sole d d'.
Proof.
  intros H. apply sole_step; [by eapply co_egress| |]; apply egress_effect in H as [_ [[-> _]|(x & _ & _ & _ & Hd)]];
    unfold tbl_consents in *; try rewrite Hd; cbn; naive_solver.
Qed.

Lemma append_event_sole n kind ref detail now d o d' :
  append_coord_event s n kind ref detail now d = Ok (o, d') -> keeps_sole d d'.
Proof.
  intros H. apply sole_step; [by eapply co_event| |]; unfold append_coord_event in H; rewrite append_event_run in H;
    injection H as _ <-; unfold tbl_consents; cbn; [done|]. intros k r r' Hr Hr'. congruence.
Qed.

#[global] Instance resolve_route_reads staged : HReads (resolve_route s staged).
Proof. unfold resolve_route. solve_reads. Qed.
#[local] Instance recipient_lines_reads staged : HReads (recipient_lines staged).
Proof. unfold recipient_lines. solve_reads. Qed.
#[local] Instance risk_card_reads staged x : HReads (risk_card staged x).
Proof. unfold risk_card. solve_reads. Qed.

Lemma coord_same_sole d d' : coord_db d' = coord_db d -> keeps_sole d d'.
Proof. unfold keeps_sole. by intros ->. Qed.

Lemma stage_sole n1 n2 wall tt performer payload : Keeps keeps_sole (stage s n1 n2 wall tt performer payload).
Proof.
  unfold stage. solve_keeps.
  - apply trusted_now_keeps, coord_same_sole.
  - apply keeps_call; [apply _|]. intros d o d'. apply stage_contract_sole.
Qed.

Lemma dispatch_commit_sole n random wall ref receipt key : Keeps keeps_sole (dispatch_commit s config n random wall ref receipt key).
Proof.
  unfold dispatch_commit. solve_keeps.
  - apply trusted_now_keeps, coord_same_sole.
  - apply keeps_call; [apply _|]. intros d o d'. apply dispatch_staged_sole.
Qed.

Lemma record_carriage_sole n wall c r carriage : Keeps keeps_sole (record_carriage s n wall c r carriage).
Proof.
  unfold record_carriage. solve_keeps;
    first [apply trusted_now_keeps, coord_same_sole | apply keeps_call; [apply _|]; intros ? ? ?; apply record_egress_sole].
Qed.

(** No dispatch under its reference: no row for the stage. *)
Lemma coord_dispatch_None ref d :
  coord_dispatch ref d = Ok (None, d) -> forall k x, tbl_dispatches d !! k = Some x -> dp_stage_ref x <> ref.
Proof.
  unfold coord_dispatch, dispatch_by. rewrite bind_gets. destruct (first_row _ _) as [[k x]|] eqn:E1; cbn [fmap option_fmap option_map]; [done|].
  unfold gets. intros [= H] k x Hx He. destruct (first_row (fun _ r => bool_decide (dp_stage_ref r = ref)) (tbl_dispatches d)) as [kv|] eqn:E2; [done|].
  apply first_row_None with (k := k) (v := x) in E2; [|done]. by apply bool_decide_eq_false in E2.
Qed.

(** Consent is minted only for a stage without receipts. *)
Lemma stage_consent_sole n1 n2 random wall ref : Keeps keeps_sole (stage_consent s n1 n2 random wall ref).
Proof.
  intros d. unfold stage_consent.
  hread o Ho; [reflexivity|].
  hread staged Hs; [reflexivity|].
  hread live Hl; [reflexivity|].
  destruct live as [x|]; [reflexivity|]. apply call_Ok in Hl.
  hread di Hd; [reflexivity|].
  destruct di as [x|]; [reflexivity|]. apply call_Ok in Hd. pose proof (coord_dispatch_None _ _ Hd) as Hno.
  apply require_Ok in Hs as [-> _]. apply call_Ok in Ho. unfold staged_contract, staged_row, gets in Ho. injection Ho as Ho.
  assert (g_stage_ref staged = ref) as Href.
  { destruct (tbl_staged d !! ref); [|done]. by injection Ho as <-. }
  pose proof (unconsumed_None ref d d Hl) as Hun.
  assert (sole (coord_db d) -> forall k c, coord_consents (coord_db d) !! k = Some c -> cs_stage_ref c <> ref) as Hfree.
  { intros [Hi _] k c Hc He. destruct (ci_consent _ Hi _ _ Hc) as (Hm & Hu & _). specialize (Hun k c Hc He).
    destruct (ci_spent _ Hi _ _ Hc) as (key & y & Hy & Hyr); [lia|]. destruct (ci_dispatch _ Hi _ _ Hy) as (c' & Hc' & _ & Hst & _).
    apply (Hno key y Hy). rewrite Hyr in Hc'. congruence. }
  unfold mbind at 1, H_bind at 1. pose proof (trusted_now_keeps (fun d1 d2 => coord_db d2 = coord_db d1) wall ltac:(done) d) as Ht.
  destruct (trusted_now wall d) as [[now|p] d1]; cbn [snd] in Ht; [|by apply coord_same_sole].
  hread card Hcard; [by apply coord_same_sole|].
  set (body := encode _). set (ev := IJson.obj [("stage_ref", _); ("staged_digest", _); _; _]). unfold mbind at 1, H_bind at 1, call, exec.
  destruct (mint_consent_receipt _ _ _ _ _ _ _ _ d1) as [[o d2]|] eqn:Em; [|by apply coord_same_sole].
  assert (keeps_sole d d2) as Hk.
  { intros Hsole. pose proof (Hfree Hsole) as Hf. assert (sole (coord_db d1)) as Hs1 by by rewrite Ht.
    split; [eapply coord_step_inv; [by eapply co_mint|apply Hs1]|].
    apply mint_effect in Em. destruct o as [r|]; [|subst d2; apply Hs1].
    destruct Em as (g & _ & _ & _ & _ & ->). cbn [coord_consents]. unfold tbl_consents. rewrite Ht, Href.
    intros i j x y. destruct (decide (i = "consent-" +:+ random)) as [->|Hi], (decide (j = "consent-" +:+ random)) as [->|Hj];
      rewrite ?lookup_insert_eq, ?lookup_insert_ne by done; intros Hx Hy He; [done| | |by eapply (proj2 Hsole)].
    - injection Hx as <-. cbn in He. by apply Hf in Hy.
    - injection Hy as <-. cbn in He. by apply Hf in Hx. }
  destruct o as [r|]; exact Hk.
Qed.

Lemma handled_sole d d' : coord_handled d d' -> keeps_sole d d'.
Proof.
  destruct 1.
  - apply stage_sole.
  - apply stage_consent_sole.
  - apply dispatch_commit_sole.
  - apply record_carriage_sole.
  - unfold exec. destruct (append_coord_event _ _ _ _ _ _ _) as [[o d']|] eqn:E; [by eapply append_event_sole|reflexivity].
  - by apply coord_same_sole.
Qed.

(** C8. One disclosure per staging. Whatever sequence of staging, consent, dispatch and
    carriage the daemon goes through, and whatever else happens to the store, a staging
    gets at most one consent receipt and at most one dispatch, and the dispatch spent that
    receipt, for the staged digest. (The store alone does not promise this.) *)
Theorem one_disclosure d :
  rtc coord_handled empty_db d ->
  (forall i j r q, tbl_consents d !! i = Some r -> tbl_consents d !! j = Some q -> cs_stage_ref r = cs_stage_ref q -> i = j) /\
  (forall i j x y, tbl_dispatches d !! i = Some x -> tbl_dispatches d !! j = Some y -> dp_stage_ref x = dp_stage_ref y -> i = j) /\
  (forall key x, tbl_dispatches d !! key = Some x -> exists r g, tbl_consents d !! dp_receipt_id x = Some r /\
     cs_uses r = cs_max_uses r /\ cs_stage_ref r = dp_stage_ref x /\ tbl_staged d !! dp_stage_ref x = Some g /\
     sg_staged_digest g = dp_staged_digest x).
Proof.
  intros Hr. assert (sole (coord_db d)) as [Hi Hu].
  { assert (sole (coord_db empty_db)) as H0 by (split; [apply empty_coord_inv|done]). revert H0.
    induction Hr as [|d1 d2 d3 H1 _ IH]; [done|]. intros H. by apply IH, (handled_sole _ _ H1). }
  split; [exact Hu|]. split.
  - intros i j x y Hx Hy He. apply (ci_unique _ Hi i j x y Hx Hy). destruct (ci_dispatch _ Hi _ _ Hx) as (r & Hr1 & _ & Hs1 & _).
    destruct (ci_dispatch _ Hi _ _ Hy) as (q & Hq & _ & Hs2 & _). apply (Hu _ _ _ _ Hr1 Hq). congruence.
  - intros key x Hx. destruct (ci_dispatch _ Hi _ _ Hx) as (r & Hr1 & Hu1 & Hs1 & Hd1).
    destruct (ci_consent _ Hi _ _ Hr1) as (Hm & _ & g & Hg & Hgd). exists r, g. rewrite <- Hs1 in *.
    split; [done|]. split; [lia|]. split; [done|]. split; [exact Hg|congruence].
Qed.
End disclosure.

(** ** What goes on the wire *)

Section wire.
Context {HS : Hashes} {HX : Hex} {AE : Aead} {CN : Canon Json} {SV : Dsse.Schemas} {CJ : Codec Json}
  {CP : Codec StorePeers.StoredPeer} {EP : CoordEgress.Endpoints} {V : Type} {PS : CoordEgress.ProtoStruct V}
  {ST : CoordEgress.SendText V}.
Context (s : Store) (config : CoordConfig).

(** The route leads to the active peer pinned under the root the staged label imports. *)
Definition routed (d : Db) (staged : StagedContract) (route : CoordRoute) : Prop :=
  exists import peer, StorePeers.peer_import_by_label (g_performer staged) d = Ok (Some import, d) /\
    StorePeers.get_peer_by_root s (StorePeers.i_root_thumbprint import) d = Ok (Some peer, d) /\
    StorePeers.peer_status_by_root (StorePeers.i_root_thumbprint import) d = Ok (Some Lifecycle.Active, d) /\
    g_performer staged <> "" /\
    route = CoordEgress.mkRoute (g_performer staged) (StorePeers.i_root_thumbprint import)
      (Lifecycle.endpoint_id (StorePeers.identity peer)) (Lifecycle.fp_value (Lifecycle.tls_cert (StorePeers.identity peer))).

Lemma resolve_route_Ok staged d route d' : resolve_route s staged d = (Ok route, d') -> d' = d /\ routed d staged route.
Proof.
  unfold resolve_route. destruct (decide _) as [|Hp]; [done|]. intros (o & Ho%call_Ok & H)%hread_Ok; [|apply _].
  apply hread_Ok in H as (import & [-> _]%require_Ok & H); [|apply _]. apply hread_Ok in H as (stored & Hst%call_Ok & H); [|apply _].
  apply hread_Ok in H as (peer & [-> _]%require_Ok & H); [|apply _]. apply hread_Ok in H as (status & Hs%call_Ok & H); [|apply _].
  destruct (decide _) as [|Ha%dec_stable] in H; [done|]. destruct (CoordEgress.parse_endpoint _); [|done].
  apply mret_Ok in H as [-> ->]. split; [done|]. exists import, peer. subst status. done.
Qed.

(** What the commit established, and from which database. *)
Definition prepared (d : Db) (stage_ref receipt : string) (c : Committed) : Prop :=
  staged_contract stage_ref d = Ok (Some (cm_staged c), d) /\ g_stage_ref (cm_staged c) = stage_ref /\
  routed d (cm_staged c) (cm_route c) /\
  CoordEgress.envelope (cm_staged c) (cm_route c) (root (cc_local config)) receipt = Ok (cm_envelope c) /\
  staged_payload s stage_ref d = Ok (Some (cm_payload c), d).

Lemma dispatch_commit_Ok n random wall ref receipt key d c d' :
  dispatch_commit s config n random wall ref receipt key d = (Ok c, d') ->
  prepared d ref receipt c /\ exists ev now d1, coord_db d1 = coord_db d /\
    dispatch_staged s n ref receipt key ("dispatch-" +:+ random) ev now d1 = Ok (cm_outcome c, d').
Proof.
  unfold dispatch_commit. intros (o & Ho%call_Ok & H)%hread_Ok; [|apply _].
  apply hread_Ok in H as (staged & [-> _]%require_Ok & H); [|apply _].
  apply hbind_Ok in H as (route & d0 & [-> Hr]%resolve_route_Ok & H).
  apply hread_Ok in H as (env & [He _]%hlift_Ok & H); [|apply _]. apply hread_Ok in H as (o & Hp%call_Ok & H); [|apply _].
  apply hread_Ok in H as (payload & [-> _]%require_Ok & H); [|apply _]. apply hbind_Ok in H as (now & d1 & Ht & H).
  apply hbind_Ok in H as (out & d2 & Hd%call_Ok & [-> ->]%mret_Ok). split.
  - split; [exact Ho|]. split; [|split; [exact Hr|split; [exact He|exact Hp]]].
    unfold staged_contract, staged_row, gets in Ho. injection Ho as Ho. destruct (tbl_staged d !! ref); [|done]. by injection Ho as <-.
  - eexists _, _, d1. split; [|exact Hd]. pose proof (trusted_now_keeps (fun d d' => coord_db d' = coord_db d) wall ltac:(done) d) as Hk.
    by rewrite Ht in Hk.
Qed.

(** A commit that stops, or finds nothing to spend, leaves the coordination tables. *)
Lemma dispatch_commit_Err n random wall ref receipt key d p d' :
  dispatch_commit s config n random wall ref receipt key d = (Err p, d') -> coord_db d' = coord_db d.
Proof.
  unfold dispatch_commit. hread o Ho. hread staged Hs. hread route Hr. hread env He. hread o' Hp. hread payload Hpl.
  pose proof (trusted_now_keeps (fun d d' => coord_db d' = coord_db d) wall ltac:(done) d) as Hk.
  unfold mbind at 1, H_bind at 1. destruct (trusted_now wall d) as [[now|q] d1]; cbn [snd] in Hk; [|by intros [= _ <-]].
  unfold mbind, H_bind, call, exec. destruct (dispatch_staged _ _ _ _ _ _ _ _ d1) as [[out d2]|]; [done|]. by intros [= _ <-].
Qed.

(** The authority a carriage under [key] has: the receipt was live and this commit spent
    it, or the dispatch was committed before and its bytes are not known to have arrived. *)
Definition authority (d d1 : Db) (stage_ref receipt key : string) (record : DispatchRecord) : Prop :=
  (exists row x, tbl_consents d !! receipt = Some row /\ cs_stage_ref row = stage_ref /\ (cs_uses row < cs_max_uses row)%Z /\
     tbl_consents d1 !! receipt = Some (spend row) /\ tbl_dispatches d !! key = None /\ tbl_dispatches d1 !! key = Some x /\
     record = dispatch_from_row key x /\ dp_receipt_id x = receipt /\ dp_stage_ref x = stage_ref /\
     dp_staged_digest x = cs_staged_digest row) \/
  (coord_db d1 = coord_db d /\ exists x, tbl_dispatches d !! key = Some x /\ dp_stage_ref x = stage_ref /\
     dp_receipt_id x = receipt /\ dp_egress_state x <> COORD_EGRESS_SENT /\ record = dispatch_from_row key x).

Lemma committed_authority n random wall ref receipt key d c d1 record :
  dispatch_commit s config n random wall ref receipt key d = (Ok c, d1) ->
  (exists b, cm_outcome c = Dispatched b /\ record = into_record b) \/
  (cm_outcome c = AlreadyDispatched record /\ egress_may_be_attempted record = true) ->
  authority d d1 ref receipt key record.
Proof.
  intros (_ & ev & now & d0 & H0 & Hd)%dispatch_commit_Ok Ho. apply dispatch_effect in Hd.
  unfold tbl_consents, tbl_dispatches in Hd. rewrite H0 in Hd. destruct Ho as [(b & Hb & ->)|[Hb He]]; rewrite Hb in Hd.
  - left. destruct Hd as (row & Hr & Hst & Hlt & Hk & _ & -> & Hd1). eexists row, _. unfold tbl_consents, tbl_dispatches. rewrite Hd1.
    cbn [coord_consents coord_dispatches]. rewrite !lookup_insert_eq. done.
  - right. destruct Hd as (-> & x & Hx & -> & Hs & Hrid). split; [done|]. exists x. unfold egress_may_be_attempted in He.
    by apply bool_decide_eq_true in He.
Qed.

(** C9. Nothing leaves without authority. One dispatch request puts at most one message on the
    wire; the message goes to the active peer pinned under the root that the staged
    recipient label imports, carries the staged payload in the envelope of the staged
    digest, and was authorized: this request spent a live receipt of that staging, or it
    resumes the dispatch committed under the same key and receipt, not yet acknowledged.
    And no receipt is spent on a message that is not sent, when messages can be built. *)
Theorem disclosure_authorized w n random wall ref receipt key d r d' wire :
  dispatch (V := V) s config w n random wall ref receipt key d = (r, d', wire) ->
  (forall c record, prepared d ref receipt c -> is_ok (carriage_body (V := V) c record) = true) ->
  (wire = [] /\ coord_db d' = coord_db d) \/
  (exists c record body d1, wire = [(cm_route c, body)] /\ prepared d ref receipt c /\ authority d d1 ref receipt key record /\
     x_stage_ref record = ref /\ x_receipt_id record = receipt /\
     CoordEgress.message_body (V := V) (cm_envelope c) (cm_payload c) (x_dispatch_receipt record) ref = Ok body).
Proof.
  unfold dispatch. intros H Hbody. destruct (negb (valid_id key)); [simplify_eq; by left|].
  destruct (negb (valid_id ref)); [simplify_eq; by left|]. destruct (negb (valid_id receipt)); [simplify_eq; by left|].
  destruct (dispatch_commit _ _ _ _ _ _ _ _ d) as [[c|p] d1] eqn:Ec.
  2: { apply dispatch_commit_Err in Ec. simplify_eq. by left. }
  pose proof (dispatch_commit_Ok _ _ _ _ _ _ _ _ _ Ec) as (Hp & ev & now & d0 & H0 & Hd).
  assert (forall record b, carry_and_record (V := V) s w c record d1 = b -> exists body, carriage_body (V := V) c record = Ok body /\
            b.2 = [(cm_route c, body)]) as Hcarry.
  { intros record b <-. unfold carry_and_record. specialize (Hbody c record Hp). destruct (carriage_body c record) as [body|]; [|done].
    by exists body. }
  assert (forall record, authority d d1 ref receipt key record -> x_stage_ref record = ref /\ x_receipt_id record = receipt) as Hrec.
  { intros record [(row & x & Ha)|(_ & x & Ha)]; destruct_and?; subst; by destruct x. }
  assert (forall o, cm_outcome c = o -> (forall b, o <> Dispatched b) -> coord_db d1 = coord_db d) as Hsame.
  { intros o Ho Hn. apply dispatch_effect in Hd. rewrite Ho in Hd.
    destruct o; [by destruct (Hn b)|by destruct Hd as [-> _]..]. }
  destruct (cm_outcome c) as [b|record| | |record] eqn:Eo.
  - right. destruct (carry_and_record s w c (into_record b) d1) as [[r1 d2] wr] eqn:Ew. simplify_eq.
    apply Hcarry in Ew as (body & Hb & Hw). cbn in Hw. subst. assert (authority d d1 ref receipt key (into_record b)) as Ha
      by (eapply committed_authority; [done|left; eauto]). destruct (Hrec _ Ha) as [Hr1 Hr2].
    exists c, (into_record b), body, d1. unfold carriage_body in Hb. rewrite Hr1 in Hb. done.
  - destruct (egress_may_be_attempted record) eqn:Ee; [|simplify_eq; left; split; [done|by apply (Hsame _ eq_refl)]].
    right. destruct (carry_and_record s w c record d1) as [[r1 d2] wr] eqn:Ew. simplify_eq.
    apply Hcarry in Ew as (body & Hb & Hw). cbn in Hw. subst. assert (authority d d1 ref receipt key record) as Ha
      by (eapply committed_authority; [done|right; eauto]). destruct (Hrec _ Ha) as [Hr1 Hr2].
    exists c, record, body, d1. unfold carriage_body in Hb. rewrite Hr1 in Hb. done.
  - simplify_eq. left. split; [done|by apply (Hsame _ eq_refl)].
  - simplify_eq. left. split; [done|by apply (Hsame _ eq_refl)].
  - simplify_eq. left. split; [done|by apply (Hsame _ eq_refl)].
Qed.
End wire.

(** ** The surface shows and changes nothing of inbound work *)

Section confinement.
Context {HS : Hashes} {HX : Hex} {AE : Aead} {ED : Ed25519} {B64 : Base64} {BU : Keys.Base64Url} {JT : Keys.JwkText}
  {CN : Canon Json} {SV : Dsse.Schemas} {CJ : Codec Json} {CP : Codec StorePeers.StoredPeer} {EP : CoordEgress.Endpoints}
  {DT : DebugText} {TS : ToValue Evidence.Statement} {TE : ToValue Dsse.Envelope} {V : Type} {PS : CoordEgress.ProtoStruct V}
  {ST : CoordEgress.SendText V}.
Context (s : Store) (config : CoordConfig).

(** What the surface may look at: its own tables, the peers and the clock. *)
Definition sees (d e : Db) : Prop := coord_db d = coord_db e /\ peers_db d = peers_db e /\ meta d = meta e.

(** Everything that belongs to inbound work and to the operator, and what the meta table holds
    besides the trusted clock; not the audit log, which the surface writes. *)
Definition inward (d : Db) := (inbox_db d, contracts_db d, attempts_db d, requester_db d, calls_db d, peers_db d,
  delete StoreMeta.TRUSTED_TIME (meta d)).

(** That is kept, and the audit log was at most appended to. *)
Definition aside (d d' : Db) : Prop := inward d' = inward d /\ StoreReach.extended (audit_log d) (audit_log d').

Lemma aside_refl d : aside d d.
Proof. split; [done|constructor]. Qed.

Lemma aside_trans a b c : aside a b -> aside b c -> aside a c.
Proof. intros [H1 H2] [H3 H4]. split; [congruence|by eapply StoreReach.extended_trans]. Qed.

(** A handler whose answer and effect depend only on what the surface sees, and which
    leaves the rest alone. *)
Class Confined {E A} (h : HM E A) : Prop := {
  confined_blind : forall d e, sees d e -> (h d).1 = (h e).1 /\ sees (h d).2 (h e).2;
  confined_keeps : forall d, aside d (h d).2;
}.

Lemma confined_pure {E A} (r : result E A) : Confined (fun d => (r, d)).
Proof. split; [done|]. intros d. apply aside_refl. Qed.

Lemma confined_bind {E A B} (m : HM E A) (f : A -> HM E B) : Confined m -> (forall a, Confined (f a)) -> Confined (m ≫= f).
Proof.
  intros [Hm1 Hm2] Hf. split.
  - intros d e H. destruct (Hm1 d e H) as [Ha Hs]. unfold mbind, H_bind.
    destruct (m d) as [[a|p] d1], (m e) as [[b|q] e1]; cbn in Ha, Hs; simplify_eq/=; [by apply Hf|done].
  - intros d. specialize (Hm2 d). unfold mbind, H_bind. destruct (m d) as [[a|p] d1]; cbn in Hm2; [|done].
    eapply aside_trans; [exact Hm2|apply Hf].
Qed.

(** The parts an operation of this surface may belong to. *)
Definition visible (p : StoreReach.part) : Prop := p = StoreReach.PCoord \/ p = StoreReach.PMeta.

Lemma local_sees p {A} (m : M A) d e : visible p \/ (p = StoreReach.PPeers /\ Reads m) ->
  StoreReach.local_to p m -> sees d e ->
  match m d, m e with
  | Ok (a, d'), Ok (b, e') => a = b /\ sees d' e'
  | Err x, Err y => x = y
  | _, _ => False
  end.
Proof.
  intros Hp [Hm Hr] (Hc & Hpe & Hme). assert (StoreReach.agree p d e) as Ha.
  { destruct Hp as [[->| ->]|[-> _]]; [done|done|]. split; [done|]. unfold StoreMeta.state_generation, StoreMeta.meta_get_u64, StoreMeta.meta_get.
    by rewrite Hme. }
  specialize (Hr d e Ha). destruct (m d) as [[a d']|] eqn:Ed, (m e) as [[b e']|] eqn:Ee; [|done..].
  destruct Hr as [-> Hr]. split; [done|]. pose proof (Hm _ _ _ Ed) as Od. pose proof (Hm _ _ _ Ee) as Oe.
  destruct Hp as [[->| ->]|[-> HR]].
  - split; [exact Hr|]. rewrite (StoreReach.only_peers _ _ _ Od), (StoreReach.only_peers _ _ _ Oe), (StoreReach.only_meta _ _ _ Od),
      (StoreReach.only_meta _ _ _ Oe) by done. done.
  - rewrite <- (StoreReach.only_coord _ _ _ Od), <- (StoreReach.only_coord _ _ _ Oe) in Hc by done.
    rewrite <- (StoreReach.only_peers _ _ _ Od), <- (StoreReach.only_peers _ _ _ Oe) in Hpe by done. done.
  - apply HR in Ed, Ee. by subst.
Qed.

Lemma local_aside p {A} (m : M A) d a d' : p = StoreReach.PCoord \/ Reads m -> StoreReach.local_to p m -> m d = Ok (a, d') -> aside d d'.
Proof.
  intros [->|Hp] [Hm _] H; [|apply Hp in H as ->; apply aside_refl]. destruct (Hm _ _ _ H) as [Hlog H0 H1 H2 H3 H4 H5 H6 H7].
  split; [|exact Hlog]. unfold inward. by rewrite H0, H1, H2, H3, H4, H5, H6 by done.
Qed.

(** The clock writes its own entry of the meta table. *)
Lemma trusted_now_aside wall d t d' : StoreMeta.trusted_now wall d = Ok (t, d') -> aside d d'.
Proof.
  unfold StoreMeta.trusted_now. intros (st & d1 & H & Ht)%bind_Ok.
  assert (d' = d1) as -> by (destruct st; unfold mret, M_ret, fail in Ht; congruence). clear Ht.
  unfold StoreMeta.observe_time in H. apply bind_Ok in H as (floor & d2 & Hg & H). unfold gets in Hg. simplify_eq.
  destruct (wall <? _)%Z; [unfold mret, M_ret in H; simplify_eq; apply aside_refl|].
  apply bind_Ok in H as ([] & d3 & Hs & H). unfold mret, M_ret in H. simplify_eq.
  destruct (_ <? wall)%Z; unfold modify, mret, M_ret in Hs; simplify_eq; [|apply aside_refl].
  split; [|constructor]. unfold inward, StoreMeta.meta_set_i64, StoreMeta.meta_set. cbn. by rewrite delete_insert_eq.
Qed.

Lemma confined_call p {A} (m : M A) :
  p = StoreReach.PCoord \/ (visible p \/ p = StoreReach.PPeers) /\ Reads m -> StoreReach.local_to p m -> Confined (call m).
Proof.
  intros Hp Hl. split.
  - intros d e H. assert (visible p \/ p = StoreReach.PPeers /\ Reads m) as Hv by (unfold visible in *; tauto).
    pose proof (local_sees p m d e Hv Hl H) as Hs. unfold call, exec.
    destruct (m d) as [[a d']|], (m e) as [[b e']|]; try done. by destruct Hs as [-> ?].
  - intros d. unfold call, exec. destruct (m d) as [[a d']|] eqn:E; [|apply aside_refl]. cbn. eapply local_aside; [|done|done]. tauto.
Qed.

Lemma confined_time wall : Confined (trusted_now wall).
Proof.
  split.
  - intros d e H. pose proof (local_sees _ _ d e (or_introl (or_intror eq_refl)) (trusted_now_local wall) H) as Hs.
    unfold trusted_now, exec. destruct (StoreMeta.trusted_now wall d) as [[a d']|], (StoreMeta.trusted_now wall e) as [[b e']|]; try done.
    by destruct Hs as [-> ?].
  - intros d. unfold trusted_now, exec. destruct (StoreMeta.trusted_now wall d) as [[a d']|] eqn:E; [|apply aside_refl]. cbn.
    by eapply trusted_now_aside.
Qed.

#[local] Hint Resolve StoreReach.append_event_local : moves.

Ltac own := eapply (confined_call StoreReach.PCoord); [by left|].
Ltac peers := eapply (confined_call StoreReach.PPeers); [right; split; [by right|apply _]|].
Ltac clock := eapply (confined_call StoreReach.PMeta); [right; split; [left; by right|apply _]|].

#[local] Instance confined_mret {E A} (a : A) : Confined (E := E) (mret a) := confined_pure (Ok a).
#[local] Instance confined_raise {E A} (p : E) : Confined (A := A) (raise p) := confined_pure (Err p).
#[local] Instance confined_require {E A} (o : option A) (p : E) : Confined (require o p) := confined_pure _.
#[local] Instance confined_check {E F A} (r : result F A) (p : E) : Confined (check r p) := confined_pure _.
#[local] Instance confined_hlift {E A} (r : result E A) : Confined (hlift r) := confined_pure _.
#[local] Instance confined_now wall : Confined (trusted_now wall) := confined_time wall.

#[local] Instance confined_staged k : Confined (call (staged_contract k)).
Proof. own. unfold staged_contract, staged_row. StoreReach.local_tac. Qed.
#[local] Instance confined_unconsumed k : Confined (call (unconsumed_consent k)).
Proof. own. unfold unconsumed_consent, unconsumed_row. StoreReach.local_tac. Qed.
#[local] Instance confined_dispatched k : Confined (call (coord_dispatch k)).
Proof. own. unfold coord_dispatch, dispatch_by. StoreReach.local_tac. Qed.
#[local] Instance confined_payload k : Confined (call (staged_payload s k)).
Proof. own. unfold staged_payload. StoreReach.local_tac. Qed.
#[local] Instance confined_events a l : Confined (call (read_coord_events s a l)).
Proof. own. unfold read_coord_events. StoreReach.local_tac. Qed.
#[local] Instance confined_head : Confined (call coord_events_head).
Proof. own. unfold coord_events_head. StoreReach.local_tac. Qed.
#[local] Instance confined_stage_contract n1 n2 new now : Confined (call (stage_contract s n1 n2 new now)).
Proof. own. unfold stage_contract, staged_row. StoreReach.local_tac. Qed.
#[local] Instance confined_mint n1 n2 st rid body ev now : Confined (call (mint_consent_receipt s n1 n2 st rid body ev now)).
Proof. own. unfold mint_consent_receipt, staged_row, unconsumed_row. StoreReach.local_tac. Qed.
#[local] Instance confined_dispatch_staged n st rid key dr ev now : Confined (call (dispatch_staged s n st rid key dr ev now)).
Proof. own. unfold dispatch_staged, dispatch_by_key. StoreReach.local_tac. Qed.
#[local] Instance confined_egress n key st de ev now : Confined (call (record_egress s n key st de ev now)).
Proof. own. unfold record_egress, dispatch_by_key. StoreReach.local_tac. Qed.
#[local] Instance confined_import l : Confined (call (StorePeers.peer_import_by_label l)).
Proof. peers. unfold StorePeers.peer_import_by_label. StoreReach.local_tac. Qed.
#[local] Instance confined_peer r : Confined (call (StorePeers.get_peer_by_root s r)).
Proof. peers. unfold StorePeers.get_peer_by_root. StoreReach.local_tac. Qed.
#[local] Instance confined_status r : Confined (call (StorePeers.peer_status_by_root r)).
Proof. peers. unfold StorePeers.peer_status_by_root. StoreReach.local_tac. Qed.
#[local] Instance confined_row r : Confined (call (StorePeers.peer_by_root r)).
Proof. peers. unfold StorePeers.peer_by_root. StoreReach.local_tac. Qed.
#[local] Instance confined_policy r : Confined (call (StorePeers.auto_approve_for_root r)).
Proof. peers. unfold StorePeers.auto_approve_for_root. StoreReach.local_tac. Qed.
#[local] Instance confined_generation : Confined (call (gets StoreMeta.state_generation)).
Proof. clock. StoreReach.local_tac. Qed.
#[local] Instance confined_floor : Confined (call (gets StoreMeta.trusted_time_floor)).
Proof. clock. StoreReach.local_tac. Qed.

Ltac confine := repeat first [ progress intros | apply confined_bind | progress (apply _) | case_match ].

#[local] Instance confined_route staged : Confined (resolve_route s staged).
Proof. unfold resolve_route. confine. Qed.
#[local] Instance confined_lines staged : Confined (recipient_lines staged).
Proof. unfold recipient_lines. confine. Qed.
#[local] Instance confined_card staged x : Confined (risk_card staged x).
Proof. unfold risk_card. confine. Qed.
#[local] Instance confined_commit n random wall ref receipt key : Confined (dispatch_commit s config n random wall ref receipt key).
Proof. unfold dispatch_commit. confine. Qed.
#[local] Instance confined_record n wall c r carriage : Confined (record_carriage s n wall c r carriage).
Proof. unfold record_carriage. confine. Qed.

(** The result of a handler with its messages, alike from both databases. *)
Definition alike {A} (x y : result Problem A * Db * Wire) : Prop := x.1.1 = y.1.1 /\ x.2 = y.2 /\ sees x.1.2 y.1.2.

Lemma quiet_alike (h : H Json) d e : Confined h -> sees d e ->
  alike (quiet h d) (quiet h e) /\ aside d (quiet h d).1.2.
Proof. intros [H1 H2] H. destruct (H1 d e H) as [Ha Hs]. split; [|apply H2]. split; [exact Ha|]. split; [done|exact Hs]. Qed.

Section world.
Context (w : World) (Hblind : forall d e, sees d e -> sees (meanwhile w d) (meanwhile w e))
  (Hkeep : forall d, aside d (meanwhile w d)).

Lemma carry_alike c record d e : sees d e ->
  alike (carry_and_record (V := V) s w c record d) (carry_and_record (V := V) s w c record e) /\
  aside d (carry_and_record (V := V) s w c record d).1.2.
Proof.
  intros H. unfold carry_and_record. destruct (carriage_body c record) as [body|p]; [|split; [done|apply aside_refl]].
  set (h := record_carriage _ _ _ _ _ _). assert (Confined h) as [H1 H2] by apply _.
  destruct (H1 _ _ (Hblind _ _ H)) as [Ha Hs]. split; [|eapply aside_trans; [apply Hkeep|apply H2]]. split; [exact Ha|]. split; [done|exact Hs].
Qed.

Lemma dispatch_alike n random wall ref receipt key d e : sees d e ->
  alike (dispatch (V := V) s config w n random wall ref receipt key d) (dispatch (V := V) s config w n random wall ref receipt key e) /\
  aside d (dispatch (V := V) s config w n random wall ref receipt key d).1.2.
Proof.
  intros H. unfold dispatch. destruct (negb (valid_id key)); [split; [done|apply aside_refl]|].
  destruct (negb (valid_id ref)); [split; [done|apply aside_refl]|]. destruct (negb (valid_id receipt)); [split; [done|apply aside_refl]|].
  destruct (confined_commit n random wall ref receipt key) as [H1 H2]. specialize (H1 d e H). specialize (H2 d).
  destruct (dispatch_commit _ _ _ _ _ _ _ _ d) as [[c|p] d1], (dispatch_commit _ _ _ _ _ _ _ _ e) as [[c'|p'] e1];
    cbn in H1, H2; destruct H1 as [Hc Hs]; try discriminate Hc; injection Hc as ->; [|split; [split; [done|split; [done|exact Hs]]|exact H2]].
  assert (forall replayed record,
    alike (let '(r, d, wire) := carry_and_record (V := V) s w c' record d1 in (respond c' replayed r, d, wire))
          (let '(r, d, wire) := carry_and_record (V := V) s w c' record e1 in (respond c' replayed r, d, wire)) /\
    aside d (let '(r, d, wire) := carry_and_record (V := V) s w c' record d1 in (respond c' replayed r, d, wire)).1.2) as Hcarry.
  { intros replayed record. destruct (carry_alike c' record d1 e1 Hs) as [(Ha & Hb & Hd) Hi].
    destruct (carry_and_record s w c' record d1) as [[r1 d2] w1], (carry_and_record s w c' record e1) as [[r2 e2] w2].
    cbn in Ha, Hb, Hd, Hi. subst. split; [done|]. by eapply aside_trans. }
  destruct (cm_outcome c') as [b|record| | |record]; [apply Hcarry| |done..].
  destruct (egress_may_be_attempted record); [apply Hcarry|done].
Qed.
End world.

(** C10. The coordination surface is blind to inbound work: whatever a request asks, its answer,
    the messages it sends and its effect on the tables it may see are the same from any two
    databases that agree on these tables, the peers and the clock. It changes no table of the
    inbox, of contracts, attempts, results, processors or peers, and of the meta table only the
    trusted clock: besides the coordination tables and that clock it writes the audit log, and
    that only by appending. What runs beside it while a message is carried is part of the effect
    and assumed to keep to the same. *)
Theorem coord_confined {Spec Submission} w f (r : Control.ControlRequest Spec Submission) d e :
  sees d e -> (forall d e, sees d e -> sees (meanwhile w d) (meanwhile w e)) -> (forall d, aside d (meanwhile w d)) ->
  alike (dispatch_coord (V := V) s config w f r d) (dispatch_coord (V := V) s config w f r e) /\
  inward (dispatch_coord (V := V) s config w f r d).1.2 = inward d /\
  StoreReach.extended (audit_log d) (audit_log (dispatch_coord (V := V) s config w f r d).1.2).
Proof.
  intros H Hw Hi. destruct r; try (apply dispatch_alike; done); apply quiet_alike; try done; try (apply confined_pure).
  - unfold stage_consent. confine.
  - unfold peer_show. confine.
  - unfold stage. confine.
  - unfold stage_show. confine.
  - unfold task_status. confine.
  - unfold events_read. confine.
  - unfold capability_evidence, capability_predicate. confine.
Qed.
End confinement.

(** ** The event cursor round trip *)

Section cursor_codec.
Context {BU : Keys.Base64Url}.

Lemma strip_prefix_app p l : Profile.strip_prefix p (p ++ l) = Some l.
Proof. induction p as [|c p IH]; [done|]. cbn. by rewrite decide_True. Qed.

Lemma ascii_utf8 l : Forall (fun c => (byte_to_Z c < 0x80)%Z) l -> Inert.valid_utf8 l = true.
Proof.
  induction 1 as [|c l Hc _ IH]; [done|]. cbn [Inert.valid_utf8]. pose proof (Chars.byte_to_Z_range c).
  by replace (Profile.in_bytes 0 0x7f c) with true by (unfold Profile.in_bytes; lia).
Qed.

(** A cursor names its position: every position of the feed comes back from the cursor
    that was made for it. *)
Lemma cursor_roundtrip seq : (0 <= seq <= i64_max)%Z -> decode_cursor (encode_cursor seq) = Ok seq.
Proof.
  intros Hs. unfold decode_cursor, encode_cursor. rewrite Keys.url_decode_encode. cbn [ok_or mbind result_bind].
  assert (as_bytes (CURSOR_DOMAIN +:+ Chars.show_i64 seq) = as_bytes CURSOR_DOMAIN ++ as_bytes (Chars.show_i64 seq)) as ->
    by apply as_bytes_app.
  rewrite ascii_utf8.
  - cbn [negb]. rewrite strip_prefix_app. cbn [ok_or mbind result_bind].
    rewrite from_utf8_as_bytes, Chars.parse_show_i64 by (unfold in_i64, i64_min in *; lia). cbn [ok_or mbind result_bind].
    destruct (Z.ltb_spec seq 0); [lia|done].
  - apply Forall_app. split; [by apply Forall_forall; intros c Hc; revert c Hc; apply Forall_forall; repeat constructor|].
    unfold Chars.show_i64. destruct (Z.ltb_spec seq 0); [lia|]. eapply Forall_impl; [apply to_string_digits|].
    intros c Hc. unfold digit in Hc. cbn. lia.
Qed.
End cursor_codec.

(** ** Witnesses *)

(** Hexadecimal digits from a to p. *)
Definition LetterHex : Hex := {| hex_encode := toy_encode; hex_decode := toy_decode; hex_decode_encode := toy_decode_encode |}.
Definition ToyDebug : DebugText := {| debug_text := fun x => x |}.

#[local] Existing Instances ToyHashes LetterHex ToyAead ToyEd25519 ToyBase64 ToyBase64Url ToyJwkText ToySchemas ToyDebug
  CoordEgress.ToyEndpoints CoordEgress.ToyStruct CoordEgress.ToySend.
#[local] Instance sample_canon : Canon Json := ToyCanon Json.
#[local] Instance sample_codec : Codec Json := ToyCodec Json.
#[local] Instance sample_peers : Codec StorePeers.StoredPeer := ToyCodec StorePeers.StoredPeer.
#[local] Instance sample_envelopes : ToValue Dsse.Envelope := Proposal.ToyToValue Dsse.Envelope.
#[local] Instance sample_statements : ToValue Evidence.Statement := Proposal.ToyToValue Evidence.Statement.

Definition sample_config : CoordConfig :=
  mkCoordConfig (mkIdentity "iss" "me" "root-me") "https://me/a2a" "fp" (Keys.from_seed Lifecycle.Evidence (as_bytes "seed")).

Definition d_stage : Db :=
  (stage StorePeers.sample_store nonce nonce 20 "https://t/v1" "a" (b64_encode (as_bytes "hello")) StorePeers.d_active).2.

Definition sample_reference : string * string :=
  match stage_reference (as_bytes "hello") "a" "https://t/v1" with Ok (r, g, _) => (r, g) | Err _ => ("", "") end.

Definition d_consent : Db := (stage_consent StorePeers.sample_store nonce nonce "01" 21 sample_reference.1 d_stage).2.

(** A recipient that acknowledges. *)
Definition sample_world : World := mkWorld
  (fun _ _ => Ok (200%Z, encode (IJson.obj [("staged_digest", JStr sample_reference.2)]))) (fun d => d) 22 nonce.

Definition sample_dispatch : result Problem Json * Db * Wire :=
  dispatch (V := Json) StorePeers.sample_store sample_config sample_world nonce "02" 21 sample_reference.1 "consent-01" "key-1" d_consent.

Definition d_commit : Db :=
  (dispatch_commit StorePeers.sample_store sample_config nonce "02" 21 sample_reference.1 "consent-01" "key-1" d_consent).2.

Lemma sample_surface_run : rtc (coord_handled StorePeers.sample_store sample_config) empty_db d_commit.
Proof.
  eapply rtc_l; [exact (hd_other _ _ empty_db StorePeers.d_active ltac:(vm_compute; reflexivity))|].
  eapply rtc_l; [exact (hd_stage StorePeers.sample_store sample_config nonce nonce 20 "https://t/v1" "a" (b64_encode (as_bytes "hello")) StorePeers.d_active)|].
  eapply rtc_l; [exact (hd_consent StorePeers.sample_store sample_config nonce nonce "01" 21 sample_reference.1 d_stage)|].
  eapply rtc_l; [exact (hd_commit StorePeers.sample_store sample_config nonce "02" 21 sample_reference.1 "consent-01" "key-1" d_consent)|].
  apply rtc_refl.
Qed.

Lemma sample_dispatched : map_to_list (tbl_dispatches d_commit) <> [].
Proof. vm_compute. discriminate. Qed.

Lemma one_disclosure_witness : map_to_list (tbl_dispatches d_commit) <> [] /\
  forall i j x y, tbl_dispatches d_commit !! i = Some x -> tbl_dispatches d_commit !! j = Some y ->
    dp_stage_ref x = dp_stage_ref y -> i = j.
Proof.
  split; [exact sample_dispatched|].
  exact (proj1 (proj2 (one_disclosure StorePeers.sample_store sample_config d_commit sample_surface_run))).
Defined.

Lemma triple {A B C} (x : A * B * C) : exists a b c, x = (a, b, c).
Proof. destruct x as [[a b] c]. by exists a, b, c. Qed.

Lemma sample_sent : length sample_dispatch.2 = 1.
Proof. vm_compute. reflexivity. Qed.

Lemma sample_bodies c record : is_ok (carriage_body (V := Json) c record) = true.
Proof. reflexivity. Qed.

Lemma disclosure_authorized_witness : exists c record body d1, sample_dispatch.2 = [(cm_route c, body)] /\
  prepared StorePeers.sample_store sample_config d_consent sample_reference.1 "consent-01" c /\
  authority d_consent d1 sample_reference.1 "consent-01" "key-1" record.
Proof.
  destruct (triple sample_dispatch) as (r & d' & wire & E). pose proof sample_sent as Hl. rewrite E in Hl |- *. unfold sample_dispatch in E.
  destruct (disclosure_authorized StorePeers.sample_store sample_config sample_world nonce "02" 21 sample_reference.1 "consent-01" "key-1"
    d_consent r d' wire E (fun c record _ => sample_bodies c record)) as [[Hw _]|(c & record & body & d1 & Hw & Hp & Ha & _)].
  - rewrite Hw in Hl. discriminate Hl.
  - exists c, record, body, d1. exact (conj Hw (conj Hp Ha)).
Defined.

(** The same database with another inbox. *)
Definition d_other : Db := upd_inbox_db (fun _ => inbox_db StoreInbox.d_received) d_consent.

Definition sample_request : Control.ControlRequest () () := Control.RTaskStatus "task-1".
Definition sample_fresh : Fresh := mkFresh nonce nonce "03" 30 [].

Lemma coord_confined_witness : sees d_consent d_other /\
  alike (dispatch_coord (V := Json) StorePeers.sample_store sample_config sample_world sample_fresh sample_request d_consent)
    (dispatch_coord (V := Json) StorePeers.sample_store sample_config sample_world sample_fresh sample_request d_other).
Proof.
  assert (sees d_consent d_other) as Hs by (split; [reflexivity|split; reflexivity]). split; [exact Hs|].
  exact (proj1 (coord_confined StorePeers.sample_store sample_config sample_world sample_fresh sample_request d_consent d_other Hs
    (fun _ _ H => H) aside_refl)).
Defined.
End Coord.
