(* ===== verification/Daemon.v ===== *)
(** The daemon's decision path over the store: recording a decision
    (aksond/src/decision.rs), issuing the one-shot work order (issue.rs), the operator's
    approve and deny (approve.rs), the inbox and the risk card (control_dispatch.rs) and the
    reactor's standing approvals (reactor.rs).

    A handler runs on the database and returns a result or a problem; each store call is a
    transaction of its own, so a problem does not undo the calls before it. Random nonces
    are arguments. Digests are 64 hexadecimal characters, so taking a prefix of one never
    splits a character. *)
From S2P Require Import Prelude Text Crypto Sign Envelope AuditLog Lifecycle Keys Json IJson Dsse Contract Proposal RiskCard.
From S2P Require Import Toy Capability WorkOrder Broker Control Db Handler Readers StoreMeta StorePeers StoreContracts StoreAttempts StoreCalls.

Module Daemon.
Import Contract.
Import Json.
Import Control (Problem, problem).
Import Handler.
Import Proposal (FromValue, ToValue, Rfc3339, parse_rfc3339, parse_payload, hex_digest, Decision, mkDecision, DecisionKind,
  Accept, Reject, RevisionRequest).

Definition no_such_task : Problem := problem 404 "no-such-task" "no such task".
Definition already_decided : Problem := problem 409 "already-decided" "this task is already accepted".
Definition not_accepted : Problem := problem 409 "not-accepted" "this task has not been accepted".
Definition corrupt_contract : Problem := problem 500 "corrupt-contract" "the stored contract could not be parsed".
Definition corrupt_times : Problem := problem 500 "corrupt-contract" "the contract timestamps could not be parsed".

Section daemon.
Context {HS : Hashes} {HX : Hex} {AE : Aead} {ED : Ed25519} {B64 : Base64} {BU : Keys.Base64Url} {JT : Keys.JwkText}
  {CN : Canon Json} {SX : IJson.JsonSyntax} {SV : Dsse.Schemas} {FC : FromValue Contract} {TD : ToValue Decision}
  {TM : Rfc3339} {CP : Codec StorePeers.StoredPeer} {CW : Canon WorkOrder.WorkOrder} {CI : Codec WorkOrder.IssuedWorkOrder}
  {CB : Codec Broker.ProcessorConfig}.
Context (s : Store).

(** The stored contract under a head: [get_contract], then [parse_payload]. *)
Definition load_contract (digest : string) : H ParsedContract :=
  o ← call (StoreContracts.get_contract s digest);
  payload ← require o no_such_task;
  check (parse_payload payload) corrupt_contract.

Definition open_head (task_id : string) : H Head :=
  h ← call (StoreContracts.contract_head task_id);
  match h with
  | Open head => mret head
  | Locked _ => raise already_decided
  | Empty => raise no_such_task
  end.

Definition locked_head (task_id : string) : H Head :=
  h ← call (StoreContracts.contract_head task_id);
  match h with
  | Locked head => mret head
  | Open _ => raise not_accepted
  | Empty => raise no_such_task
  end.

(** ** Recording a decision (decision.rs) *)

Record DecisionRecord := mkRecord { r_task_id : string; r_kind : DecisionKind; r_decision : Dsse.Envelope; r_accepted : bool }.

(** [decide]. *)
Definition decide_task (task_id : string) (kind : DecisionKind) (reason_code note : option string) (decider : Identity)
  (decision_key : Keys.PurposeKey) (decided_at : string) (now : Z) : H DecisionRecord :=
  head ← open_head task_id;
  parsed ← load_contract (h_digest head);
  ctx ← call (StoreContracts.task_context task_id);
  let decision := mkDecision 1 kind (contract_id (contract parsed)) (h_revision head) (h_digest head) task_id
                    (default "" ctx) decider reason_code note decided_at in
  signed ← check (Proposal.sign_decision decision decision_key)
             (problem 500 "sign-failed" "the decision could not be signed");
  match kind with
  | Accept =>
      r ← call (StoreContracts.accept_contract task_id (h_digest head) now);
      match r with
      | Ok _ => mret (mkRecord task_id kind signed true)
      | Err _ => raise (problem 409 "accept-conflict" "the task could not be accepted")
      end
  | _ => mret (mkRecord task_id kind signed false)
  end.

(** ** Issuing the work order (issue.rs) *)

Definition MAX_ATTEMPT_SECS : Z := 3600.

Record IssueConfig := mkIssue {
  ic_issuer : Identity;
  ic_issuer_assurance : string;
  ic_daemon : string;
  ic_executor : string;
  ic_requester_tls_sha256 : string;
  ic_work_order_key : bytes;
  ic_nonce : string;
  ic_decision_id : string;
  ic_policy_version : Z;
  ic_max_operations : Z;
  ic_processor_grant : option string;
  ic_grant_artifacts : bool;
}.

Definition recipient_str (r : ResultRecipient) : string := match r with RequestOrigin => "request-origin" end.

(** [OffsetDateTime::from_unix_timestamp(..)] and [format(&Rfc3339)]. *)
Class TimeText := {
  format_rfc3339 : Z -> option string;
  parse_format : forall t x, format_rfc3339 t = Some x -> parse_rfc3339 x = Some t;
}.

Context {TT : TimeText}.

(** The caller checked that the contract is effective, so [now] is below a parsed date and
    [now + MAX_ATTEMPT_SECS] fits. *)
Definition clamp_deadline (c : Contract) (now : Z) : result Problem string :=
  match Proposal.expires_at_unix c, Proposal.deadline_unix c with
  | Ok expires, Ok task_deadline =>
      let clamped := Z.min (Z.min expires task_deadline) (now + MAX_ATTEMPT_SECS) in
      if (clamped <=? now)%Z
      then Err (problem 409 "deadline-passed" "the contract's task deadline has already passed; it cannot be issued")
      else ok_or (format_rfc3339 clamped) corrupt_times
  | _, _ => Err corrupt_times
  end.

(** The grants of one requested capability: the two that disclose nothing. *)
Definition base_grant (task_id digest deadline : string) (c : Contract) (cap : Contract.Capability) : list Capability.Grant :=
  match cap with
  | Contract.Respond =>
      [Capability.GRespond (Capability.mkRespondScope task_id (message_id c) (recipient_str (result_recipient c)) 1
         (l_max_response_bytes (limits c)) deadline)]
  | Contract.ReadSuppliedInputs =>
      [Capability.GReadSuppliedInputs (Capability.mkReadInputsScope (in_id <$> inputs c) digest)]
  | Contract.ProcessorUse | Contract.ArtifactExport => []
  end.

Definition requests (cap : Contract.Capability) (c : Contract) : bool :=
  existsb (fun x => match x, cap with
    | Contract.Respond, Contract.Respond | Contract.ReadSuppliedInputs, Contract.ReadSuppliedInputs
    | Contract.ProcessorUse, Contract.ProcessorUse | Contract.ArtifactExport, Contract.ArtifactExport => true
    | _, _ => false end) (requested_capabilities c).

(** The operator's explicit grant of processor use. *)
Definition processor_grants (c : Contract) (grant : option string) : H (list Capability.Grant) :=
  match grant with
  | None => mret []
  | Some processor_id =>
      if negb (requests Contract.ProcessorUse c)
      then raise (problem 422 "processor-not-requested" "this task did not request processor use; it cannot be granted") else
      p ← call (StoreCalls.get_processor s processor_id);
      match p with
      | None => raise (problem 404 "no-such-processor"
                  "no processor is configured with that id (add it with `akson processor add`)")
      | Some _ => mret [Capability.GProcessorUse (Capability.mkProcessorUseScope processor_id (in_id <$> inputs c)
                    (default 0%Z (l_max_cost_microusd (limits c))) (l_max_response_bytes (limits c)))]
      end
  end.

(** The operator's explicit grant of artifact export. *)
Definition artifact_grants (task_id : string) (c : Contract) (grant : bool) : H (list Capability.Grant) :=
  if grant then
    if negb (requests Contract.ArtifactExport c)
    then raise (problem 422 "artifacts-not-requested" "this task did not request artifact export; it cannot be granted") else
    mret [Capability.GArtifactExport (Capability.mkArtifactExportScope (recipient_str (result_recipient c)) task_id
            (d_media_type <$> deliverables c) (Z.max (Z.of_nat (length (deliverables c))) 1 mod 2 ^ 32)
            (l_max_response_bytes (limits c)))]
  else mret [].

Definition no_grantable : Problem := problem 422 "no-grantable-capabilities"
  "accept grants no capability for this task; processor use and artifact export need a separate confirmation".

(** [validity] as a problem. *)
Definition check_effective (c : Contract) (now : Z) : H () :=
  match Proposal.validity c now with
  | Ok Proposal.Valid => mret ()
  | Ok Proposal.Expired =>
      raise (problem 409 "contract-expired" "the contract's validity window has closed; it can no longer be issued")
  | Ok Proposal.NotYetValid => raise (problem 409 "contract-not-yet-valid" "the contract is not yet effective")
  | Err _ => raise corrupt_times
  end.

Definition order_of (task_id context_id deadline : string) (head : Head) (c : Contract) (caps : Capability.CapabilityVector)
  (config : IssueConfig) : WorkOrder.WorkOrder :=
  WorkOrder.mkWorkOrder 1 ("wo-" +:+ String.substring 0 32 (h_digest head)) (ic_issuer config) (ic_issuer_assurance config)
    (WorkOrder.mkAudience (ic_daemon config) (ic_executor config))
    (WorkOrder.mkOrigin (requester c) (ic_requester_tls_sha256 config))
    task_id context_id (message_id c) (h_revision head) (h_digest head) caps (in_id <$> inputs c) None None None None
    (WorkOrder.mkBudgets (default 0%Z (l_max_cost_microusd (limits c))) (l_max_response_bytes (limits c)) (ic_max_operations config))
    (slot_id <$> evidence_slots c) (ic_policy_version config) (ic_decision_id config) (created_at c) deadline (ic_nonce config) None.

(** [issue_for_accepted]; [seal_nonce] seals the retained order. *)
Definition issue_for_accepted (seal_nonce : bytes) (task_id : string) (config : IssueConfig) (now : Z) :
  H WorkOrder.IssuedWorkOrder :=
  head ← locked_head task_id;
  parsed ← load_contract (h_digest head);
  let c := contract parsed in
  _ ← check_effective c now;
  deadline ← hlift (clamp_deadline c now);
  ctx ← call (StoreContracts.task_context task_id);
  let context := default "" (match ctx with Some x => Some x | None => context_id c end) in
  let base := concat (base_grant task_id (h_digest head) deadline c <$> requested_capabilities c) in
  pg ← processor_grants c (ic_processor_grant config);
  ag ← artifact_grants task_id c (ic_grant_artifacts config);
  caps ← check (Capability.new (base ++ pg ++ ag)) no_grantable;
  let order := order_of task_id context deadline head c caps config in
  issued ← check (WorkOrder.issue order (ic_work_order_key config))
             (problem 500 "issue-failed" "the work order could not be issued");
  claim ← call (StoreAttempts.claim_attempt order now);
  match claim with
  | StoreAttempts.ClaimedNow | StoreAttempts.AlreadyClaimed _ =>
      _ ← call (StoreAttempts.put_work_order s seal_nonce issued now);
      mret issued
  | StoreAttempts.NonceReused => raise (problem 409 "nonce-reused" "the work-order nonce was already used")
  end.

(** ** Approve and deny (approve.rs) *)

Definition ISSUER_ASSURANCE : string := "local-human".
Definition EXECUTOR : string := "akson-worker".
Definition POLICY_VERSION : Z := 1.
Definition MAX_OPERATIONS : Z := 64.

(** [serde_json::to_vec] of an envelope; [unwrap_or_default]. *)
Context {EB : Codec Dsse.Envelope}.

(** [decision_id]. *)
Definition decision_id (decision : Dsse.Envelope) : string := "decision-" +:+ String.substring 0 32 (hex_digest (encode decision)).

Definition rfc3339 (now : Z) : H string := require (format_rfc3339 now) internal.

Definition component_names : list (Capability.CapabilityComponent * string) :=
  [(Capability.Respond, "respond"); (Capability.ReadSuppliedInputs, "read_supplied_inputs");
   (Capability.ProcessorUse, "processor_use"); (Capability.ArtifactExport, "artifact_export")].

(** The requester's pinned certificate, by the root the proposal came from. *)
Definition requester_tls (task_id : string) (c : Contract) : H string :=
  origin ← call (StoreContracts.origin_root task_id);
  peer ← match origin with
         | Some root => if decide (root = "") then mret None else attempt (StorePeers.get_peer_by_root s root)
         | None => mret None
         end;
  match peer with
  | Some p =>
      let i := StorePeers.identity p in
      if decide (Lifecycle.agent_id i = agent (requester c) /\ default "" (Lifecycle.p_issuer i) = issuer (requester c))
      then mret (Lifecycle.fp_value (Lifecycle.tls_cert i))
      else raise (problem 409 "requester-not-paired" "the requester is not a paired peer; cannot bind the work order origin")
  | None => raise (problem 409 "requester-not-paired" "the requester is not a paired peer; cannot bind the work order origin")
  end.

Definition approve_and_issue (seal_nonce : bytes) (nonce : string) (local : Identity) (decision_key : Keys.PurposeKey)
  (work_order_key : bytes) (task_id : string) (processor : option string) (grant_artifacts : bool) (now : Z) : H Json :=
  head ← open_head task_id;
  parsed ← load_contract (h_digest head);
  let c := contract parsed in
  tls ← requester_tls task_id c;
  if negb (requests Contract.Respond c || requests Contract.ReadSuppliedInputs c) then raise no_grantable else
  decided_at ← rfc3339 now;
  record ← decide_task task_id Accept None None local decision_key decided_at now;
  let id := decision_id (r_decision record) in
  let config := mkIssue local ISSUER_ASSURANCE (agent local) EXECUTOR tls work_order_key nonce id POLICY_VERSION MAX_OPERATIONS
                  processor grant_artifacts in
  issued ← issue_for_accepted seal_nonce task_id config now;
  let granted := omap (fun cn => if Capability.grants_component (WorkOrder.capabilities (WorkOrder.order issued)) cn.1
                                 then Some (JStr cn.2) else None) component_names in
  mret (IJson.obj [("approved", JBool true); ("task_id", JStr task_id);
              ("work_order_id", JStr (WorkOrder.work_order_id (WorkOrder.order issued)));
              ("work_order_digest", JStr (WorkOrder.i_digest issued)); ("decision_id", JStr id);
              ("granted_capabilities", JArr granted)]).

Definition deny (local : Identity) (decision_key : Keys.PurposeKey) (task_id reason : string) (now : Z) : H Json :=
  decided_at ← rfc3339 now;
  _ ← decide_task task_id Reject (Some "operator-declined") (Some reason) local decision_key decided_at now;
  _ ← call (StoreContracts.mark_task_reacted task_id now);
  mret (IJson.obj [("denied", JBool true); ("task_id", JStr task_id); ("reason", JStr reason)]).

(** ** The inbox and the risk card (control_dispatch.rs) *)

Definition task_inbox : H Json :=
  tasks ← call StoreContracts.list_submitted_tasks;
  mret (IJson.obj [("tasks", JArr ((fun t => IJson.obj [("task_id", JStr (StoreContracts.th_task_id t));
    ("contract_id", JStr (StoreContracts.th_contract_id t)); ("revision", JInt (StoreContracts.th_revision t));
    ("state", JStr "submitted")]) <$> tasks))]).

Definition task_show (task_id : string) : H Json :=
  h ← call (StoreContracts.contract_head task_id);
  head ← require (match h with Open head | Locked head => Some head | Empty => None end) no_such_task;
  parsed ← load_contract (h_digest head);
  let rendered := RiskCard.render (RiskCard.project_risk_card parsed) in
  import ← attempt (StorePeers.peer_import (root (requester (contract parsed))));
  let label := match import with Some i => JStr (StorePeers.i_label i) | None => JNull end in
  mret (IJson.obj [("task_id", JStr task_id); ("revision", JInt (h_revision head)); ("sentence", JStr (RiskCard.sentence rendered));
    ("requester_label", label);
    ("sections", JArr ((fun x => IJson.obj [("heading", JStr (RiskCard.heading x)); ("lines", JArr (JStr <$> RiskCard.lines x))])
                         <$> RiskCard.sections rendered))]).

(** ** The reactor (reactor.rs) *)

(** What the reactor takes from the daemon's state. *)
Record Local := mkLocal { local_performer : Identity; l_decision_key : Keys.PurposeKey; l_work_order_key : bytes }.

(** The early returns of [auto_approve_if_allowed]. *)
Definition ask : Problem := problem 0 "ask" "always ask".

Definition auto_steps (me : Local) (seal_nonce : bytes) (nonce : string) (task_id : string) (now : Z) : H Json :=
  h ← call (StoreContracts.contract_head task_id);
  head ← require (match h with Open head => Some head | _ => None end) ask;
  parsed ← load_contract (h_digest head);
  let c := contract parsed in
  origin ← call (StoreContracts.origin_root task_id);
  root ← require origin ask;
  if decide (root = "") then raise ask else
  peer ← call (StorePeers.get_peer_by_root s root);
  requester_peer ← require peer ask;
  if decide (Lifecycle.agent_id (StorePeers.identity requester_peer) <> agent (requester c)) then raise ask else
  status ← call (StorePeers.peer_status_by_root root);
  if decide (status <> Some Lifecycle.Active) then raise ask else
  policy ← call (StorePeers.auto_approve_for_root root);
  policy ← require policy ask;
  if negb (existsb (fun t => bool_decide (t = task_type c)) (StorePeers.task_types policy)) then raise ask else
  if (StorePeers.max_response_bytes policy <? l_max_response_bytes (limits c))%Z then raise ask else
  if requests Contract.ProcessorUse c || requests Contract.ArtifactExport c then raise ask else
  approve_and_issue seal_nonce nonce (local_performer me) (l_decision_key me) (l_work_order_key me) task_id None false now.

Definition auto_approve_if_allowed (me : Local) (seal_nonce : bytes) (nonce : string) (task_id : string) (now : Z) (d : Db) : bool * Db :=
  match auto_steps me seal_nonce nonce task_id now d with
  | (Ok _, d') => (true, d')
  | (Err _, d') => (false, d')
  end.

(** The loop of phase 1; [fresh] gives the nonces drawn for each task. *)
Fixpoint approve_pending (fresh : string -> bytes * string) (me : Local) (trusted : option Z) (tasks : list string) (d : Db) : list (string * bool) * Db :=
  match tasks with
  | [] => ([], d)
  | t :: tasks =>
      let '(auto, d) := match trusted with
                        | Some now => auto_approve_if_allowed me (fresh t).1 (fresh t).2 t now d
                        | None => (false, d)
                        end in
      let '(rest, d) := approve_pending fresh me trusted tasks d in ((t, auto) :: rest, d)
  end.

(** Phase 1 of [react_once], under the store lock. *)
Definition react_pending (fresh : string -> bytes * string) (me : Local) (wall : Z) (d : Db) : result Problem (list (string * bool)) * Db :=
  let '(trusted, d) := exec (StoreMeta.trusted_now wall) d in
  match exec StoreContracts.tasks_awaiting_reaction d with
  | (Err _, d) => (Err internal, d)
  | (Ok tasks, d) =>
      let '(pending, d) := approve_pending fresh me (match trusted with Ok t => Some t | Err _ => None end)
                             (StoreContracts.th_task_id <$> tasks) d in (Ok pending, d)
  end.

(** Phase 3, under the lock again. *)
Fixpoint mark_pending (wall : Z) (pending : list (string * bool)) : H () :=
  match pending with
  | [] => mret ()
  | (t, _) :: pending => _ ← call (StoreContracts.mark_task_reacted t wall); mark_pending wall pending
  end.

(** The hooks phase 2 starts. *)
Definition hooks (on_task : option string) (pending : list (string * bool)) : list (string * bool) :=
  match on_task with Some _ => pending | None => [] end.

(** One sweep; [between] is what others did to the store while the lock was released. *)
Definition react_once (fresh : string -> bytes * string) (me : Local) (wall : Z) (on_task : option string) (between : Db -> Db) (d : Db) :
  result Problem (list (string * bool)) * Db :=
  match react_pending fresh me wall d with
  | (Err p, d) => (Err p, d)
  | (Ok pending, d) =>
      match mark_pending wall pending (between d) with
      | (Err p, d) => (Err p, d)
      | (Ok _, d) => (Ok (hooks on_task pending), d)
      end
  end.

(** ** Readers *)


#[global] Instance load_contract_reads x : HReads (load_contract x).
Proof. unfold load_contract. solve_reads. Qed.
#[global] Instance open_head_reads t : HReads (open_head t).
Proof. unfold open_head. solve_reads. Qed.
#[global] Instance locked_head_reads t : HReads (locked_head t).
Proof. unfold locked_head. solve_reads. Qed.
#[global] Instance requester_tls_reads t c : HReads (requester_tls t c).
Proof. unfold requester_tls. solve_reads. Qed.
#[local] Instance check_effective_reads c now : HReads (check_effective c now).
Proof. unfold check_effective. solve_reads. Qed.
#[local] Instance processor_grants_reads c g : HReads (processor_grants c g).
Proof. unfold processor_grants. solve_reads. Qed.
#[local] Instance artifact_grants_reads t c g : HReads (artifact_grants t c g).
Proof. unfold artifact_grants. solve_reads. Qed.
#[local] Instance rfc3339_reads now : HReads (rfc3339 now).
Proof. unfold rfc3339. solve_reads. Qed.

(** ** Decisions *)

Lemma open_head_Ok t d h d' : open_head t d = (Ok h, d') <-> d' = d /\ StoreContracts.contract_head t d = Ok (Open h, d).
Proof.
  unfold open_head. rewrite hread_Ok by apply _. split.
  - intros (x & Hx%call_Ok & Hh). destruct x as [|h0|h0]; [done| |done]. apply mret_Ok in Hh as [-> ->]. done.
  - intros [-> Hx]. exists (Open h). by rewrite call_Ok.
Qed.

Lemma locked_head_Ok t d h d' : locked_head t d = (Ok h, d') <-> d' = d /\ StoreContracts.contract_head t d = Ok (Locked h, d).
Proof.
  unfold locked_head. rewrite hread_Ok by apply _. split.
  - intros (x & Hx%call_Ok & Hh). destruct x as [|h0|h0]; [done|done|]. apply mret_Ok in Hh as [-> ->]. done.
  - intros [-> Hx]. exists (Locked h). by rewrite call_Ok.
Qed.

(** The decision that is signed. *)
Definition decision_of (task_id : string) (kind : DecisionKind) (reason_code note : option string) (decider : Identity)
  (decided_at : string) (head : Head) (parsed : ParsedContract) (ctx : option string) : Decision :=
  mkDecision 1 kind (contract_id (contract parsed)) (h_revision head) (h_digest head) task_id (default "" ctx) decider
    reason_code note decided_at.

(** What a recorded decision read and wrote. *)
Definition decided (task_id : string) (kind : DecisionKind) (reason_code note : option string) (decider : Identity)
  (key : Keys.PurposeKey) (decided_at : string) (now : Z) (d : Db) (head : Head) (parsed : ParsedContract)
  (ctx : option string) (env : Dsse.Envelope) (d' : Db) : Prop :=
  open_head task_id d = (Ok head, d) /\ load_contract (h_digest head) d = (Ok parsed, d) /\
  StoreContracts.task_context task_id d = Ok (ctx, d) /\
  Proposal.sign_decision (decision_of task_id kind reason_code note decider decided_at head parsed ctx) key = Ok env /\
  match kind with
  | Accept => StoreContracts.accept_contract task_id (h_digest head) now d = Ok (Ok (), d')
  | _ => d' = d
  end.

Lemma decide_task_Ok t kind rc note decider key at_ now d r d' :
  decide_task t kind rc note decider key at_ now d = (Ok r, d') <->
  exists head parsed ctx env, decided t kind rc note decider key at_ now d head parsed ctx env d' /\
    r = mkRecord t kind env (match kind with Accept => true | _ => false end).
Proof.
  unfold decide_task, decided. rewrite hread_Ok by apply _. split.
  - intros (head & Hh & H). apply hread_Ok in H as (parsed & Hp & H); [|apply _].
    apply hread_Ok in H as (ctx & Hc%call_Ok & H); [|apply _]. apply hread_Ok in H as (env & [Hs _]%check_Ok & H); [|apply _].
    exists head, parsed, ctx, env. destruct kind.
    + apply hbind_Ok in H as (x & d1 & Hx%call_Ok & H). destruct x as [[]|e]; [|done]. apply mret_Ok in H as [-> ->]. done.
    + apply mret_Ok in H as [-> ->]. done.
    + apply mret_Ok in H as [-> ->]. done.
  - intros (head & parsed & ctx & env & (Hh & Hp & Hc & Hs & Hk) & ->). exists head. split; [done|].
    rewrite (hbind_run _ _ _ _ _ Hp), (hbind_run _ _ _ ctx d) by by apply call_Ok.
    rewrite (hbind_run _ _ _ env d) by by apply check_Ok.
    destruct kind; [|by subst..]. by rewrite (hbind_run _ _ _ (Ok ()) d') by by apply call_Ok.
Qed.

Lemma decide_task_Err t kind rc note decider key at_ now d p d' :
  StoreContracts.heads_inv d -> decide_task t kind rc note decider key at_ now d = (Err p, d') -> d' = d.
Proof.
  intros Hinv. unfold decide_task.
  hread head Hh. hread parsed Hp. hread ctx Hc. hread env He.
  destruct kind; [|done..]. unfold mbind, H_bind, call, exec.
  destruct (StoreContracts.accept_effect t (h_digest head) now d Hinv) as (d1 & -> & Hd1).
  destruct (accept_head _ _); [done|]. subst d1. by intros [= <- <-].
Qed.

(** A decision acts on exactly the revision it signs: a recorded acceptance
    signs the digest of the Task's open head and locks that head at that digest, leaving
    every other Task's head alone; a rejection or a revision request writes nothing, and
    neither does a decision that fails. *)
Theorem decision_locks_signed t kind rc note decider key at_ now d r d' :
  StoreContracts.heads_inv d -> decide_task t kind rc note decider key at_ now d = (r, d') ->
  match r with
  | Err _ => d' = d
  | Ok rec => exists head parsed ctx, StoreContracts.abs_head d t = Open head /\
      Proposal.sign_decision (decision_of t kind rc note decider at_ head parsed ctx) key = Ok (r_decision rec) /\
      parse_payload (payload parsed) = Ok parsed /\ r_kind rec = kind /\
      if r_accepted rec then kind = Accept /\ StoreContracts.abs_head d' t = Locked head /\
        (forall t', t' <> t -> StoreContracts.abs_head d' t' = StoreContracts.abs_head d t')
      else kind <> Accept /\ d' = d
  end.
Proof.
  intros Hinv. destruct r as [rec|p]; [|by apply decide_task_Err].
  intros (head & parsed & ctx & env & (Hh & Hp & Hc & Hs & Hk) & ->)%decide_task_Ok. cbn [r_decision r_kind r_accepted].
  apply open_head_Ok in Hh as [_ Hh]. rewrite StoreContracts.contract_head_run in Hh by done.
  assert (StoreContracts.abs_head d t = Open head) as Habs by congruence. exists head, parsed, ctx. split; [done|]. split; [done|].
  split; [|split; [done|]].
  - unfold load_contract in Hp. apply hread_Ok in Hp as (o & _ & Hp); [|apply _].
    apply hread_Ok in Hp as (b & _ & [Hp _]%check_Ok); [|apply _].
    apply Proposal.parse_payload_Ok in Hp as Hq. destruct Hq as (v & _ & _ & _ & _ & Hpl & _). by rewrite Hpl.
  - destruct kind; [|by subst..]. split; [done|].
    destruct (StoreContracts.accept_effect t (h_digest head) now d Hinv) as (d1 & Ha & He). rewrite Habs in Ha, He.
    cbn [accept_head] in Ha, He. rewrite decide_True in Ha, He by done. assert (d1 = d') as -> by congruence.
    destruct He as (row & Hrow & Hst & Hdg & Hdb).
    assert (forall k, StoreContracts.abs_head d' k =
      if decide (k = t) then StoreContracts.abs_row (StoreContracts.set_locked row) else StoreContracts.abs_head d k) as Hk'.
    { intros k. unfold StoreContracts.abs_head, StoreContracts.tbl_heads. rewrite Hdb. cbn.
      destruct (decide (k = t)) as [->|Hne]; [by rewrite lookup_insert_eq|by rewrite lookup_insert_ne]. }
    split; [|intros t' Hne; by rewrite Hk', decide_False].
    rewrite Hk', decide_True by done. unfold StoreContracts.abs_head, StoreContracts.abs_row in Habs |- *.
    rewrite Hrow in Habs. rewrite decide_True in Habs by done. injection Habs as <-. done.
Qed.

(** ** Work orders *)

Lemma clamp_deadline_Ok c now x : clamp_deadline c now = Ok x ->
  exists e t, Proposal.expires_at_unix c = Ok e /\ Proposal.deadline_unix c = Ok t /\
    parse_rfc3339 x = Some (Z.min (Z.min e t) (now + MAX_ATTEMPT_SECS))%Z /\
    (now < Z.min (Z.min e t) (now + MAX_ATTEMPT_SECS) <= now + MAX_ATTEMPT_SECS)%Z.
Proof.
  unfold clamp_deadline. destruct (Proposal.expires_at_unix c) as [e|]; [|done].
  destruct (Proposal.deadline_unix c) as [t|]; [|done]. destruct (Z.leb_spec (Z.min (Z.min e t) (now + MAX_ATTEMPT_SECS)) now); [done|].
  intros Hf%ok_or_Ok. exists e, t. split; [done|]. split; [done|]. split; [by apply parse_format|lia].
Qed.

(** What a grant may say: only what the contract asked for, in the contract's bounds, and
    the outward ones only where the operator granted them. *)
Definition authorized (t digest deadline : string) (c : Contract) (config : IssueConfig) (g : Capability.Grant) : Prop :=
  match g with
  | Capability.GRespond sc => requests Contract.Respond c = true /\
      sc = Capability.mkRespondScope t (message_id c) "request-origin" 1 (l_max_response_bytes (limits c)) deadline
  | Capability.GReadSuppliedInputs sc => requests Contract.ReadSuppliedInputs c = true /\
      sc = Capability.mkReadInputsScope (in_id <$> inputs c) digest
  | Capability.GProcessorUse sc => requests Contract.ProcessorUse c = true /\
      ic_processor_grant config = Some (Capability.pu_processor_id sc) /\
      Capability.pu_input_ids sc = (in_id <$> inputs c) /\
      Capability.pu_max_cost_microusd sc = default 0%Z (l_max_cost_microusd (limits c)) /\
      Capability.pu_max_bytes sc = l_max_response_bytes (limits c)
  | Capability.GArtifactExport sc => requests Contract.ArtifactExport c = true /\ ic_grant_artifacts config = true /\
      Capability.ae_recipient sc = "request-origin" /\ Capability.ae_task_id sc = t /\
      Capability.ae_media_types sc = (d_media_type <$> deliverables c) /\
      Capability.ae_max_bytes sc = l_max_response_bytes (limits c)
  end.

Lemma base_grants_authorized t digest deadline c config g :
  g ∈ concat (base_grant t digest deadline c <$> requested_capabilities c) -> authorized t digest deadline c config g.
Proof.
  intros Hg. apply list_elem_of_In, in_concat in Hg as (l & Hl & Hg). apply list_elem_of_In in Hl. apply list_elem_of_In in Hg.
  apply list_elem_of_fmap in Hl as (cap & -> & Hcap).
  assert (requests cap c = true) as Hr.
  { unfold requests. apply existsb_exists. exists cap. split; [by apply list_elem_of_In|]. by destruct cap. }
  destruct cap; cbn [base_grant] in Hg; [apply list_elem_of_singleton in Hg as ->..|by apply not_elem_of_nil in Hg|by apply not_elem_of_nil in Hg];
    split; [done| |done|done]. by destruct (result_recipient c).
Qed.

Lemma processor_grants_authorized t digest deadline c config d gs d' g :
  processor_grants c (ic_processor_grant config) d = (Ok gs, d') -> g ∈ gs -> authorized t digest deadline c config g.
Proof.
  unfold processor_grants. destruct (ic_processor_grant config) as [p|] eqn:Ep;
    [|intros [-> _]%mret_Ok Hg; by apply not_elem_of_nil in Hg].
  destruct (requests Contract.ProcessorUse c) eqn:Er; cbn [negb]; [|done].
  intros (o & _ & H)%hread_Ok; [|apply _]. destruct o; [|done]. apply mret_Ok in H as [-> _].
  intros ->%list_elem_of_singleton. cbn. by rewrite Ep.
Qed.

Lemma artifact_grants_authorized t digest deadline c config d gs d' g :
  artifact_grants t c (ic_grant_artifacts config) d = (Ok gs, d') -> g ∈ gs -> authorized t digest deadline c config g.
Proof.
  unfold artifact_grants. destruct (ic_grant_artifacts config) eqn:Ea;
    [|intros [-> _]%mret_Ok Hg; by apply not_elem_of_nil in Hg].
  destruct (requests Contract.ArtifactExport c) eqn:Er; cbn [negb]; [|done]. intros [-> _]%mret_Ok ->%list_elem_of_singleton.
  cbn. rewrite Ea. by destruct (result_recipient c).
Qed.

Lemma check_effective_Ok c now d d' : check_effective c now d = (Ok (), d') <-> d' = d /\ Proposal.validity c now = Ok Proposal.Valid.
Proof. unfold check_effective. destruct (Proposal.validity c now) as [[]|]; unfold mret, H_ret, raise; naive_solver. Qed.

(** What an issue read, up to the order it issues. *)
Definition issuable (t : string) (config : IssueConfig) (now : Z) (d : Db) (head : Head) (parsed : ParsedContract)
  (order : WorkOrder.WorkOrder) (issued : WorkOrder.IssuedWorkOrder) : Prop :=
  locked_head t d = (Ok head, d) /\ load_contract (h_digest head) d = (Ok parsed, d) /\
  exists deadline ctx pg ag caps, Proposal.validity (contract parsed) now = Ok Proposal.Valid /\
    clamp_deadline (contract parsed) now = Ok deadline /\ StoreContracts.task_context t d = Ok (ctx, d) /\
    processor_grants (contract parsed) (ic_processor_grant config) d = (Ok pg, d) /\
    artifact_grants t (contract parsed) (ic_grant_artifacts config) d = (Ok ag, d) /\
    Capability.new (concat (base_grant t (h_digest head) deadline (contract parsed) <$> requested_capabilities (contract parsed))
                    ++ pg ++ ag) = Ok caps /\
    order = order_of t (default "" (match ctx with Some x => Some x | None => context_id (contract parsed) end)) deadline head
              (contract parsed) caps config /\
    WorkOrder.issue order (ic_work_order_key config) = Ok issued.

Lemma issue_for_accepted_Ok seal t config now d issued d' :
  issue_for_accepted seal t config now d = (Ok issued, d') ->
  exists head parsed order, issuable t config now d head parsed order issued /\
    exists claim d1, StoreAttempts.claim_attempt order now d = Ok (claim, d1) /\ claim <> StoreAttempts.NonceReused /\
      StoreAttempts.put_work_order s seal issued now d1 = Ok ((), d').
Proof.
  unfold issue_for_accepted. intros (head & Hh & H)%hread_Ok; [|apply _].
  apply hread_Ok in H as (parsed & Hp & H); [|apply _]. apply hread_Ok in H as ([] & [_ Hv]%check_effective_Ok & H); [|apply _].
  apply hread_Ok in H as (dl & [Hdl _]%hlift_Ok & H); [|apply _]. apply hread_Ok in H as (ctx & Hc%call_Ok & H); [|apply _].
  apply hread_Ok in H as (pg & Hpg & H); [|apply _]. apply hread_Ok in H as (ag & Hag & H); [|apply _].
  apply hread_Ok in H as (caps & [Hcaps _]%check_Ok & H); [|apply _].
  apply hread_Ok in H as (i & [Hi _]%check_Ok & H); [|apply _].
  apply hbind_Ok in H as (claim & d1 & Hcl%call_Ok & H).
  assert (claim <> StoreAttempts.NonceReused) as Hn by by intros ->.
  assert ((call (StoreAttempts.put_work_order s seal i now) ≫= (fun _ => mret i)) d1 = (Ok issued, d')) as H' by by destruct claim.
  apply hbind_Ok in H' as ([] & d2 & Hput%call_Ok & [-> ->]%mret_Ok).
  exists head, parsed. eexists. split; [|by exists claim, d1]. split; [done|]. split; [done|].
  by exists dl, ctx, pg, ag, caps.
Qed.

Lemma new_grants gs v : Capability.new gs = Ok v -> Capability.grants v = gs.
Proof.
  unfold Capability.new. destruct gs as [|g gs]; [done|]. destruct (Capability.check_duplicates [] (g :: gs)) as [[]|]; [|done].
  cbn [mbind result_bind]. by intros [= <-].
Qed.

Lemma issuable_authorized t config now d head parsed order issued :
  issuable t config now d head parsed order issued ->
  WorkOrder.order issued = order /\
  (forall g, g ∈ Capability.grants (WorkOrder.capabilities order) ->
     authorized t (h_digest head) (WorkOrder.deadline order) (contract parsed) config g).
Proof.
  intros (_ & _ & dl & ctx & pg & ag & caps & _ & _ & _ & Hpg & Hag & Hcaps & -> & Hi). split.
  - unfold WorkOrder.issue in Hi. destruct (WorkOrder.canonical_bytes _); [|done]. cbn [mbind result_bind] in Hi. by injection Hi as <-.
  - cbn [order_of WorkOrder.capabilities WorkOrder.deadline]. rewrite (new_grants _ _ Hcaps). intros g [Hg|[Hg|Hg]%elem_of_app]%elem_of_app.
    + by apply base_grants_authorized.
    + by eapply processor_grants_authorized.
    + by eapply artifact_grants_authorized.
Qed.

(** C4. A work order carries no more authority than was approved: it is issued
    only for a locked head whose contract is effective, names that head's digest, carries a
    MAC that verifies, expires within the hour and no later than the contract or its task
    deadline, spends within the contract's limits, and each of its grants is one the contract
    requested with the contract's bounds, the outward ones only where the operator granted
    them explicitly; the attempt is claimed. *)
Theorem issue_authority seal t config now d issued d' :
  issue_for_accepted seal t config now d = (Ok issued, d') ->
  exists head parsed e td, let o := WorkOrder.order issued in let c := contract parsed in
    StoreContracts.contract_head t d = Ok (Locked head, d) /\ load_contract (h_digest head) d = (Ok parsed, d) /\
    Proposal.validity c now = Ok Proposal.Valid /\
    WorkOrder.contract_digest o = h_digest head /\ WorkOrder.task_id o = t /\ WorkOrder.nonce o = ic_nonce config /\
    WorkOrder.verify issued (ic_work_order_key config) = Ok () /\
    Proposal.expires_at_unix c = Ok e /\ Proposal.deadline_unix c = Ok td /\
    parse_rfc3339 (WorkOrder.deadline o) = Some (Z.min (Z.min e td) (now + MAX_ATTEMPT_SECS))%Z /\
    (now < Z.min (Z.min e td) (now + MAX_ATTEMPT_SECS) <= now + MAX_ATTEMPT_SECS)%Z /\
    WorkOrder.budgets o = WorkOrder.mkBudgets (default 0%Z (l_max_cost_microusd (limits c))) (l_max_response_bytes (limits c))
                            (ic_max_operations config) /\
    (forall g, g ∈ Capability.grants (WorkOrder.capabilities o) ->
       authorized t (h_digest head) (WorkOrder.deadline o) c config g) /\
    is_Some (StoreAttempts.tbl_attempts d' !! WorkOrder.work_order_id o).
Proof.
  intros (head & parsed & order & Hissue & claim & d1 & Hcl & Hn & Hput)%issue_for_accepted_Ok.
  destruct (issuable_authorized _ _ _ _ _ _ _ _ Hissue) as [Ho Hauth]. rewrite Ho.
  destruct Hissue as (Hh & Hp & dl & ctx & pg & ag & caps & Hv & Hdl & _ & _ & _ & _ & Heq & Hi).
  apply locked_head_Ok in Hh as [_ Hh]. apply clamp_deadline_Ok in Hdl as (e & td & He & Htd & Hparse & Hb).
  exists head, parsed, e, td. cbv zeta. split; [done|]. split; [done|]. split; [done|].
  split; [by rewrite Heq|]. split; [by rewrite Heq|]. split; [by rewrite Heq|]. split; [|split; [done|split; [done|]]].
  - unfold WorkOrder.issue in Hi. destruct (WorkOrder.canonical_bytes order) as [b|] eqn:Eb; [|done].
    cbn [mbind result_bind] in Hi. injection Hi as <-. apply WorkOrder.mac_verify_Ok. exists b.
    cbn [WorkOrder.order WorkOrder.i_digest WorkOrder.mac]. by rewrite !hex_decode_encode.
  - split; [by rewrite Heq|]. split; [done|]. split; [by rewrite Heq|]. split; [done|].
    assert (StoreAttempts.tbl_attempts d' = StoreAttempts.tbl_attempts d1) as ->.
    { revert Hput. unfold StoreAttempts.put_work_order. rewrite bind_gets, bind_modify. destruct (decide _).
      - run_audit. by intros [= <-].
      - by intros [= <-]. }
    apply StoreAttempts.claim_effect in Hcl. destruct claim as [|st|]; [| |done].
    + destruct Hcl as (_ & _ & dg & _ & Hdb). unfold StoreAttempts.tbl_attempts. rewrite Hdb. cbn. rewrite lookup_insert_eq. by eexists.
    + destruct Hcl as (-> & row & Hrow & _). by eexists.
Qed.

(** ** Approvals *)

(** What an approval read before it decides. *)
Definition approvable (t : string) (now : Z) (d : Db) (head : Head) (parsed : ParsedContract) (tls at_ : string) : Prop :=
  open_head t d = (Ok head, d) /\ load_contract (h_digest head) d = (Ok parsed, d) /\
  requester_tls t (contract parsed) d = (Ok tls, d) /\
  requests Contract.Respond (contract parsed) || requests Contract.ReadSuppliedInputs (contract parsed) = true /\
  rfc3339 now d = (Ok at_, d).

Definition approval_config (nonce tls : string) (me : Identity) (wk : bytes) (env : Dsse.Envelope) (processor : option string)
  (artifacts : bool) : IssueConfig :=
  mkIssue me ISSUER_ASSURANCE (agent me) EXECUTOR tls wk nonce (decision_id env) POLICY_VERSION MAX_OPERATIONS processor artifacts.

Lemma approve_Ok seal nonce me dk wk t processor artifacts now d v d' :
  approve_and_issue seal nonce me dk wk t processor artifacts now d = (Ok v, d') ->
  exists head parsed tls at_ ctx env d1 issued, approvable t now d head parsed tls at_ /\
    decided t Accept None None me dk at_ now d head parsed ctx env d1 /\
    issue_for_accepted seal t (approval_config nonce tls me wk env processor artifacts) now d1 = (Ok issued, d').
Proof.
  unfold approve_and_issue. intros (head & Hh & H)%hread_Ok; [|apply _]. apply hread_Ok in H as (parsed & Hp & H); [|apply _].
  apply hread_Ok in H as (tls & Ht & H); [|apply _].
  destruct (requests Contract.Respond _ || _) eqn:Er; cbn [negb] in H; [|done]. apply hread_Ok in H as (at_ & Ha & H); [|apply _].
  apply hbind_Ok in H as (rec & d1 & Hd & H). apply hbind_Ok in H as (issued & d2 & Hi & [_ ->]%mret_Ok).
  apply decide_task_Ok in Hd as (head' & parsed' & ctx & env & Hd & ->). pose proof Hd as (Hh' & Hp' & _).
  assert (head' = head) as -> by congruence. assert (parsed' = parsed) as -> by congruence.
  by exists head, parsed, tls, at_, ctx, env, d1, issued.
Qed.

(** An approval whose checks pass is a decision followed by an issue. *)
Lemma approve_run seal nonce me dk wk t processor artifacts now d head parsed tls at_ ctx env d1 :
  approvable t now d head parsed tls at_ -> decided t Accept None None me dk at_ now d head parsed ctx env d1 ->
  match issue_for_accepted seal t (approval_config nonce tls me wk env processor artifacts) now d1 with
  | (Ok _, d') => exists v, approve_and_issue seal nonce me dk wk t processor artifacts now d = (Ok v, d')
  | (Err p, d') => approve_and_issue seal nonce me dk wk t processor artifacts now d = (Err p, d')
  end.
Proof.
  intros (Hh & Hp & Ht & Hr & Ha) Hd. unfold approve_and_issue. rewrite (hbind_run _ _ _ _ _ Hh), (hbind_run _ _ _ _ _ Hp).
  cbv zeta. rewrite (hbind_run _ _ _ _ _ Ht), Hr. cbn [negb]. rewrite (hbind_run _ _ _ _ _ Ha).
  rewrite (hbind_run _ _ _ (mkRecord t Accept env true) d1) by (apply decide_task_Ok; by exists head, parsed, ctx, env).
  cbn [r_decision]. fold (approval_config nonce tls me wk env processor artifacts).
  destruct (issue_for_accepted _ _ _ _ _) as [[i|p] d'] eqn:E.
  - eexists. by rewrite (hbind_run _ _ _ _ _ E).
  - by rewrite (hbind_stop _ _ _ _ _ E).
Qed.

(** Once the head is locked, approving and denying change nothing. *)
Lemma locked_refuses seal nonce me dk wk t processor artifacts now d h :
  StoreContracts.heads_inv d -> StoreContracts.abs_head d t = Locked h ->
  approve_and_issue seal nonce me dk wk t processor artifacts now d = (Err already_decided, d).
Proof.
  intros Hinv Habs. unfold approve_and_issue. apply hbind_stop. unfold open_head.
  rewrite (hbind_run _ _ _ (Locked h) d); [done|]. apply call_Ok. by rewrite StoreContracts.contract_head_run, Habs.
Qed.

Lemma locked_denial me dk t reason now d h :
  StoreContracts.heads_inv d -> StoreContracts.abs_head d t = Locked h ->
  exists p, deny me dk t reason now d = (Err p, d).
Proof.
  intros Hinv Habs. unfold deny. hread at_ Ha; [by eexists|]. exists already_decided. apply hbind_stop.
  unfold decide_task. apply hbind_stop. unfold open_head.
  rewrite (hbind_run _ _ _ (Locked h) d); [done|]. apply call_Ok. by rewrite StoreContracts.contract_head_run, Habs.
Qed.

(** Loading a contract reads the contracts table only. *)
Lemma load_contract_same x d d1 p :
  StoreContracts.tbl_contracts d1 = StoreContracts.tbl_contracts d ->
  load_contract x d = (Ok p, d) -> load_contract x d1 = (Ok p, d1).
Proof.
  intros Ht. unfold load_contract, StoreContracts.get_contract, call, exec, require, check. unfold_M. unfold H_bind. rewrite Ht.
  destruct (StoreContracts.tbl_contracts d !! x) as [row|]; cbn; [|done].
  destruct (open_col _ _ _) as [b|]; cbn; [|done]. destruct (parse_payload b); naive_solver.
Qed.

Lemma audit_keeps ts ev de d n d' : audit ts ev de d = Ok (n, d') -> contracts_db d' = contracts_db d /\ attempts_db d' = attempts_db d.
Proof. destruct (audit_run ts ev de d) as (m & log & ->). by intros [= _ <-]. Qed.

Lemma accept_keeps_attempts t a now d r d' : StoreContracts.accept_contract t a now d = Ok (r, d') -> attempts_db d' = attempts_db d.
Proof.
  unfold StoreContracts.accept_contract. intros (h & d1 & Hh%reads & H)%bind_Ok. subst d1.
  destruct (accept_head h a); [|unfold mret, M_ret in H; congruence].
  rewrite bind_gets, bind_modify in H. destruct (decide _); [done|]. apply bind_Ok in H as (k & d1 & Ha & H).
  apply audit_keeps in Ha as [_ Ha]. unfold mret, M_ret in H. assert (d1 = d') as <- by congruence. by rewrite Ha.
Qed.

(** C40. An approval can strand a Task: where a plain approval would have succeeded
    and the contract did not request processor use, approving with a processor is refused,
    but only after the acceptance locked the head. No work order exists, and every later
    approval or denial of the Task is refused without effect. *)
Theorem approval_strands seal nonce me dk wk t processor now d v d_ok :
  StoreContracts.heads_inv d ->
  approve_and_issue seal nonce me dk wk t None false now d = (Ok v, d_ok) ->
  (forall head parsed, open_head t d = (Ok head, d) -> load_contract (h_digest head) d = (Ok parsed, d) ->
    requests Contract.ProcessorUse (contract parsed) = false) ->
  exists p d' head, approve_and_issue seal nonce me dk wk t (Some processor) false now d = (Err p, d') /\
    p = problem 422 "processor-not-requested" "this task did not request processor use; it cannot be granted" /\
    StoreContracts.abs_head d' t = Locked head /\ attempts_db d' = attempts_db d /\
    (forall seal nonce me dk wk processor artifacts now,
      approve_and_issue seal nonce me dk wk t processor artifacts now d' = (Err already_decided, d')) /\
    (forall me dk reason now, exists q, deny me dk t reason now d' = (Err q, d')).
Proof.
  intros Hinv (head & parsed & tls & at_ & ctx & env & d1 & issued & Hap & Hdec & Hiss)%approve_Ok Hreq.
  specialize (Hreq head parsed (proj1 Hap) (proj1 (proj2 Hap))).
  pose proof (approve_run seal nonce me dk wk t (Some processor) false now d head parsed tls at_ ctx env d1 Hap Hdec) as Hrun.
  pose proof Hdec as (_ & _ & _ & _ & Hacc). destruct (StoreContracts.accept_Ok_abs _ _ _ _ _ Hinv Hacc) as [Hinv1 [rev Habs]].
  assert (load_contract (h_digest head) d1 = (Ok parsed, d1)) as Hp1.
  { apply (load_contract_same _ d); [|apply Hap]. destruct (StoreContracts.accept_effect t (h_digest head) now d Hinv) as (d2 & Ha & He).
    rewrite Ha in Hacc. destruct (accept_head _ _); [|congruence]. destruct He as (row & _ & _ & _ & Hdb).
    assert (d2 = d1) as -> by congruence. unfold StoreContracts.tbl_contracts. by rewrite Hdb. }
  destruct (issue_for_accepted_Ok _ _ _ _ _ _ _ Hiss) as (head' & parsed' & order & (Hh & Hp & Hrest) & _).
  pose proof Hh as [_ Hh']%locked_head_Ok. rewrite StoreContracts.contract_head_run, Habs in Hh' by done.
  assert (h_digest head' = h_digest head) as Hdg by (assert (head' = mkHead rev (h_digest head)) as -> by congruence; done).
  rewrite Hdg in Hp. assert (parsed' = parsed) as -> by congruence.
  destruct Hrest as (dl & ctx' & pg & ag & caps & Hv & Hdl & Hctx & _).
  assert (issue_for_accepted seal t (approval_config nonce tls me wk env (Some processor) false) now d1
    = (Err (problem 422 "processor-not-requested" "this task did not request processor use; it cannot be granted"), d1)) as Hstop.
  { unfold issue_for_accepted. rewrite (hbind_run _ _ _ _ _ Hh). rewrite Hdg, (hbind_run _ _ _ _ _ Hp1). cbv zeta.
    rewrite (hbind_run _ _ _ () d1) by by apply check_effective_Ok. rewrite (hbind_run _ _ _ dl d1) by by apply hlift_Ok.
    rewrite (hbind_run _ _ _ ctx' d1) by by apply call_Ok. apply hbind_stop. unfold processor_grants, approval_config.
    cbn [ic_processor_grant]. by rewrite Hreq. }
  rewrite Hstop in Hrun. eexists _, d1, _. split; [exact Hrun|]. split; [done|]. split; [exact Habs|].
  split; [by eapply accept_keeps_attempts|]. split; [intros; by eapply locked_refuses|intros; by eapply locked_denial].
Qed.

(** ** Standing approvals *)

(** The operator's standing policy covers a submitted Task: it is set for exactly the root
    the Task came from, an active peer with the contract's requester name, it lists the task
    type, its ceiling holds, and the contract asks for no outward capability. *)
Definition covered (t : string) (d : Db) (parsed : ParsedContract) : Prop := exists head root peer policy,
  StoreContracts.contract_head t d = Ok (Open head, d) /\ load_contract (h_digest head) d = (Ok parsed, d) /\
  StoreContracts.origin_root t d = Ok (Some root, d) /\ root <> "" /\
  StorePeers.get_peer_by_root s root d = Ok (Some peer, d) /\
  Lifecycle.agent_id (StorePeers.identity peer) = agent (requester (contract parsed)) /\
  StorePeers.peer_status_by_root root d = Ok (Some Lifecycle.Active, d) /\
  StorePeers.auto_approve_for_root root d = Ok (Some policy, d) /\
  task_type (contract parsed) ∈ StorePeers.task_types policy /\
  (l_max_response_bytes (limits (contract parsed)) <= StorePeers.max_response_bytes policy)%Z /\
  requests Contract.ProcessorUse (contract parsed) = false /\ requests Contract.ArtifactExport (contract parsed) = false.

(** A call that read. *)
Lemma call_read {A} (m : M A) d a : Reads m -> call m d = (Ok a, d) -> m d = Ok (a, d).
Proof. intros _ Hc. by apply call_Ok in Hc. Qed.

Lemma auto_steps_cases me sn n t now d :
  (exists p, auto_steps me sn n t now d = (Err p, d)) \/
  exists parsed, covered t d parsed /\
    auto_steps me sn n t now d
    = approve_and_issue sn n (local_performer me) (l_decision_key me) (l_work_order_key me) t None false now d.
Proof.
  unfold auto_steps. hread h Hh; [left; by eexists|]. hread head Hhd; [left; by eexists|].
  hread parsed Hp; [left; by eexists|]. cbv zeta. hread origin Ho; [left; by eexists|]. hread rt Hr; [left; by eexists|].
  destruct (decide (rt = "")) as [|Hne]; [left; by eexists|]. hread peer Hpe; [left; by eexists|]. hread rp Hrp; [left; by eexists|].
  destruct (decide _) as [|Ha%dec_stable]; [left; by eexists|]. hread st Hst; [left; by eexists|].
  destruct (decide _) as [|Hact%dec_stable]; [left; by eexists|]. hread po Hpo; [left; by eexists|].
  hread policy Hpol; [left; by eexists|].
  destruct (existsb _ _) eqn:Et; cbn [negb]; [|left; by eexists].
  destruct (Z.ltb_spec (StorePeers.max_response_bytes policy) (l_max_response_bytes (limits (contract parsed)))); [left; by eexists|].
  destruct (requests Contract.ProcessorUse _) eqn:E1; [left; by eexists|].
  destruct (requests Contract.ArtifactExport _) eqn:E2; [left; by eexists|]. cbn [orb]. right. exists parsed. split; [|done].
  apply require_Ok in Hhd as [Hhd _], Hr as [-> _], Hrp as [-> _], Hpol as [-> _].
  destruct h as [|hh|]; [done| |done]. injection Hhd as ->. subst st.
  apply existsb_exists in Et as (x & Hx & ->%bool_decide_eq_true). apply list_elem_of_In in Hx.
  exists head, rt, rp, policy. split_and!; try done; by apply call_read; [apply _|].
Qed.

(** C5. The reactor approves only what the operator pre-authorised: whenever it
    reports an approval, or so much as changes the store for a Task, a standing policy covers
    that Task, and the order it issued grants at most replying and reading the supplied
    inputs. *)
Theorem auto_approval_bounded me sn n t now d r d' :
  auto_approve_if_allowed me sn n t now d = (r, d') -> r = true \/ d' <> d ->
  exists parsed, covered t d parsed /\
    (r = true -> exists config issued d1, issue_for_accepted sn t config now d1 = (Ok issued, d') /\
      forall g, g ∈ Capability.grants (WorkOrder.capabilities (WorkOrder.order issued)) ->
        match g with Capability.GRespond _ | Capability.GReadSuppliedInputs _ => True | _ => False end).
Proof.
  unfold auto_approve_if_allowed. destruct (auto_steps_cases me sn n t now d) as [[p ->]|(parsed & Hc & ->)].
  { intros [= <- <-]. naive_solver. }
  intros Hr _. exists parsed. split; [done|]. intros ->.
  destruct (approve_and_issue _ _ _ _ _ _ _ _ _ d) as [[v|p] d2] eqn:E; [|done]. injection Hr as ->.
  apply approve_Ok in E as (head & parsed' & tls & at_ & ctx & env & d1 & issued & _ & _ & Hi).
  eexists _, issued, d1. split; [exact Hi|]. apply issue_for_accepted_Ok in Hi as (h2 & p2 & order & Hi & _).
  destruct (issuable_authorized _ _ _ _ _ _ _ _ Hi) as [-> Hg]. intros g Hin. specialize (Hg g Hin).
  destruct g; cbn in Hg; [done|done|destruct Hg as (_ & ? & _)|destruct Hg as (_ & ? & _)]; done.
Qed.
End daemon.

(** ** Witnesses *)

(** Times in the wire format of numbers. *)
Definition time_text (t : Z) : string := from_utf8 (put t).
Definition ToyTimes : Rfc3339 := {| parse_rfc3339 := fun x => match get (as_bytes x) with Some (t, []) => Some t | _ => None end |}.

Definition ToyTimeText : @TimeText ToyTimes.
Proof.
  refine {| format_rfc3339 := fun t => Some (time_text t) |}. intros t x [= <-].
  cbn [parse_rfc3339 ToyTimes]. unfold time_text. rewrite as_bytes_from_utf8.
  pose proof (get_put t []) as E. rewrite app_nil_r in E. by rewrite E.
Defined.

Definition sample_contract : Contract :=
  mkContract 1 "c1" 0 None "review" "m1" None None (mkIdentity "iss" "alice" "root-a") (mkIdentity "iss" "bob" "root-b") "o" []
    [mkDeliverable "report" "text/plain"] [] [Contract.Respond; Contract.ReadSuppliedInputs] (mkConstraints DiscloseNone)
    (mkLimits (time_text 9000) 1024 None) RequestOrigin None (time_text 0) (time_text 8000).

Definition ToyContracts : FromValue Contract := {| Proposal.from_value := fun _ => Some sample_contract |}.

#[local] Existing Instances ToyHashes ToyHex ToyAead ToyEd25519 ToyBase64 ToyBase64Url ToyJwkText ToySchemas ToySyntax ToyTimes
  ToyTimeText ToyContracts.
#[local] Instance sample_canon : Canon Json := ToyCanon Json.
#[local] Instance sample_decisions : ToValue Decision := Proposal.ToyToValue Decision.
#[local] Instance sample_peers : Codec StorePeers.StoredPeer := ToyCodec StorePeers.StoredPeer.
#[local] Instance sample_orders : Canon WorkOrder.WorkOrder := ToyCanon WorkOrder.WorkOrder.
#[local] Instance sample_issued : Codec WorkOrder.IssuedWorkOrder := ToyCodec WorkOrder.IssuedWorkOrder.
#[local] Instance sample_configs : Codec Broker.ProcessorConfig := ToyCodec Broker.ProcessorConfig.
#[local] Instance sample_envelopes : Codec Dsse.Envelope := ToyCodec Dsse.Envelope.

Definition sample_payload : bytes := put (JStr "contract").
Definition sample_parsed : ParsedContract := mkParsed sample_contract (hex_digest sample_payload) sample_payload.
Definition sample_bob : Identity := mkIdentity "iss" "bob" "root-b".
Definition sample_decision_key : Keys.PurposeKey := Keys.from_seed Lifecycle.ContractDecision (as_bytes "dec").

(** Alice is paired and her proposal is submitted; a standing policy covers it. *)
Definition d_submitted : Db :=
  (exec (StoreContracts.submit_revision StorePeers.sample_store StorePeers.sample_nonce "t1" sample_parsed "root-a" 8000 20)
     StorePeers.d_active).2.
Definition d_policy : Db :=
  (exec (StorePeers.put_auto_approve "alice" "root-a" (StorePeers.mkAutoApprove ["review"] 4096) 21) d_submitted).2.

Definition approve_sample (processor : option string) (d : Db) : result Problem Json * Db :=
  approve_and_issue StorePeers.sample_store StorePeers.sample_nonce "nonce-1" sample_bob sample_decision_key (as_bytes "wk") "t1"
    processor false 30 d.

Lemma d_submitted_heads : StoreContracts.heads_inv d_submitted.
Proof.
  assert (StoreContracts.heads_inv StorePeers.d_active) as Hinv.
  { apply (StoreContracts.heads_inv_same empty_db); [vm_compute; reflexivity|apply StoreContracts.empty_heads_inv]. }
  apply (StoreContracts.event_refines StorePeers.sample_store StorePeers.d_active
    (StoreContracts.EvSubmit StorePeers.sample_nonce "t1" sample_parsed "root-a" 8000 20) Hinv). by vm_compute.
Qed.

(** A run that answered, as the pair of its answer and the store it left. *)
Lemma answered {A} (x : result Problem A * Db) : is_ok x.1 = true -> exists a d, x = (Ok a, d).
Proof. destruct x as [[a|p] d]; [by exists a, d|done]. Qed.

Lemma sample_approved : exists v d', approve_sample None d_submitted = (Ok v, d').
Proof. apply answered. vm_compute. reflexivity. Qed.

Lemma sample_requests head parsed :
  open_head "t1" d_submitted = (Ok head, d_submitted) ->
  load_contract StorePeers.sample_store (h_digest head) d_submitted = (Ok parsed, d_submitted) ->
  requests Contract.ProcessorUse (contract parsed) = false.
Proof.
  intros _ Hl. apply hread_Ok in Hl as (o & _ & Hl); [|apply call_reads; unfold StoreContracts.get_contract; solve_reads].
  apply hread_Ok in Hl as (b & _ & [Hp _]%check_Ok); [|apply _].
  apply Proposal.parse_payload_Ok in Hp as (v & _ & _ & _ & Hf & _). injection Hf as <-. reflexivity.
Qed.

Lemma approval_strands_witness : exists p d' head, approve_sample (Some "p1") d_submitted = (Err p, d') /\
  StoreContracts.abs_head d' "t1" = Locked head /\ approve_sample None d' = (Err already_decided, d').
Proof.
  destruct sample_approved as (v & d1 & E). unfold approve_sample in E |- *.
  destruct (approval_strands StorePeers.sample_store StorePeers.sample_nonce "nonce-1" sample_bob sample_decision_key (as_bytes "wk")
    "t1" "p1" 30 d_submitted v d1 d_submitted_heads E sample_requests) as (p & d' & head & H1 & _ & H2 & _ & H3 & _).
  exists p, d', head. split; [exact H1|]. split; [exact H2|].
  exact (H3 StorePeers.sample_nonce "nonce-1" sample_bob sample_decision_key (as_bytes "wk") None false 30%Z).
Defined.

Definition accept_sample : result Problem DecisionRecord * Db :=
  decide_task StorePeers.sample_store "t1" Accept None None sample_bob sample_decision_key "now" 30 d_submitted.

Lemma accept_sample_ok : exists rec d', accept_sample = (Ok rec, d').
Proof. apply answered. vm_compute. reflexivity. Qed.

Lemma decision_locks_signed_witness : exists rec d' head, accept_sample = (Ok rec, d') /\
  StoreContracts.abs_head d_submitted "t1" = Open head /\
  (r_accepted rec = true -> StoreContracts.abs_head d' "t1" = Locked head).
Proof.
  destruct accept_sample_ok as (rec & d' & E). unfold accept_sample in E |- *.
  destruct (decision_locks_signed StorePeers.sample_store "t1" Accept None None sample_bob sample_decision_key "now" 30 d_submitted
    (Ok rec) d' d_submitted_heads E) as (head & parsed & ctx & H1 & _ & _ & _ & H2).
  exists rec, d', head. split; [exact E|]. split; [exact H1|]. intros Hr. rewrite Hr in H2. exact (proj1 (proj2 H2)).
Defined.

Definition sample_config : IssueConfig :=
  mkIssue sample_bob ISSUER_ASSURANCE "bob" EXECUTOR "cert-a" (as_bytes "wk") "nonce-1" "decision-1" POLICY_VERSION MAX_OPERATIONS
    None false.

Definition issue_sample : result Problem WorkOrder.IssuedWorkOrder * Db :=
  issue_for_accepted StorePeers.sample_store StorePeers.sample_nonce "t1" sample_config 30 accept_sample.2.

Lemma issue_sample_ok : exists issued d', issue_sample = (Ok issued, d').
Proof. apply answered. vm_compute. reflexivity. Qed.

Lemma issue_authority_witness : exists issued d', issue_sample = (Ok issued, d') /\
  WorkOrder.verify issued (as_bytes "wk") = Ok () /\
  is_Some (StoreAttempts.tbl_attempts d' !! WorkOrder.work_order_id (WorkOrder.order issued)).
Proof.
  destruct issue_sample_ok as (issued & d' & E). unfold issue_sample in E |- *. exists issued, d'. split; [exact E|].
  destruct (issue_authority StorePeers.sample_store StorePeers.sample_nonce "t1" sample_config 30 accept_sample.2 issued d' E)
    as (head & parsed & e & td & _ & _ & _ & _ & _ & _ & H1 & _ & _ & _ & _ & _ & _ & H2). split; [exact H1|exact H2].
Defined.

Definition auto_sample : bool * Db :=
  auto_approve_if_allowed StorePeers.sample_store (mkLocal sample_bob sample_decision_key (as_bytes "wk")) StorePeers.sample_nonce
    "nonce-1" "t1" 30 d_policy.

Lemma auto_sample_ok : exists d', auto_sample = (true, d').
Proof.
  assert (auto_sample.1 = true) as Hok by (vm_compute; reflexivity). exists auto_sample.2. rewrite <- Hok. apply surjective_pairing.
Qed.

Lemma auto_approval_bounded_witness : exists parsed, covered StorePeers.sample_store "t1" d_policy parsed.
Proof.
  destruct auto_sample_ok as (d' & E). unfold auto_sample in E.
  destruct (auto_approval_bounded StorePeers.sample_store (mkLocal sample_bob sample_decision_key (as_bytes "wk"))
    StorePeers.sample_nonce "nonce-1" "t1" 30 d_policy true d' E (or_introl eq_refl)) as (parsed & Hc & _). exact (ex_intro _ parsed Hc).
Defined.
End Daemon.
