(* ===== verification/Results.v ===== *)
(** The result path of the daemon: completing an accepted Task with the worker's outputs
    (aksond/src/result.rs), preparing its delivery to the requester (delivery.rs) and the
    requester's signed disposition of a delivered result (outcome.rs).

    The performer and the requester are two stores; the theorems at the end run both. The
    texts of error details are a parameter: they are [Display] renderings that nothing
    reads back. *)
From S2P Require Import Prelude Text Crypto Sign Envelope AuditLog Lifecycle Keys Json IJson Dsse Contract Proposal Evidence.
From S2P Require Import Toy Capability Gate WorkOrder Attempt Broker Control Db Handler Readers StorePeers StoreContracts StoreAttempts.
From S2P Require Import StoreRequester StoreCalls StoreReach Daemon.

Module Results.
Import Contract.
Import Json.
Import Handler.
Import Control (Problem, problem, mkProblem).
Import Proposal (FromValue, ToValue, Rfc3339, parse_payload, hex_digest).
Import Evidence (ResultManifest, ManifestError, SlotError, OutputEntry, EvidenceEntry, SlotRecord, FromSlice, Outcome).

(** ** A worker's submission *)

Inductive OutputKind := KResponse | KArtifact.

(** [OutputKind::channel]. *)
Definition kind_channel (k : OutputKind) : Gate.OutputChannel :=
  match k with KResponse => Gate.Response | KArtifact => Gate.Artifact end.

Record ResultOutput := mkResultOutput {
  ro_role : string; ro_artifact_id : string; ro_kind : OutputKind; ro_recipient : string; ro_media_type : string;
  ro_content : bytes }.

Definition byte_length (o : ResultOutput) : Z := Z.of_nat (length (ro_content o)).

Record ResultSubmission := mkSubmission {
  su_task_id : string; su_outputs : list ResultOutput; su_evidence : list EvidenceEntry; su_slots : list SlotRecord }.

(** [to_string] of the errors that end up in a problem's detail. *)
Class ErrorText := {
  gate_text : Gate.GateError -> string;
  slot_text : SlotError -> string;
  manifest_text : ManifestError -> string;
}.

(** [problem_detail], and the problems written out with a detail. *)
Definition problem_detail (status : Z) (kind title detail : string) : Problem :=
  mkProblem ("urn:akson:error:" +:+ kind) title status (Some detail).

Definition no_work_order : Problem := problem 409 "no-work-order" "this task has no issued work order".

(** A failed step with the text of its error. *)
Definition check_text {E A} (r : result E A) (f : E -> Problem) : H A := fun d =>
  (match r with Ok a => Ok a | Err e => Err (f e) end, d).

(** The [BTreeSet] loops over artifact ids: whether an id comes twice. *)
Fixpoint repeats (seen : gset string) (ids : list string) : bool :=
  match ids with
  | [] => false
  | id :: ids => if decide (id ∈ seen) then true else repeats ({[ id ]} ∪ seen) ids
  end.

Definition proposed (o : ResultOutput) : Gate.ProposedOutput :=
  Gate.mkProposed (kind_channel (ro_kind o)) (ro_recipient o) (ro_media_type o) (byte_length o).

Definition required_slot (e : Contract.EvidenceSlot) : Evidence.RequiredSlot :=
  Evidence.mkRequired (slot_id e) Evidence.Passed false.

Section results.
Context {HS : Hashes} {HX : Hex} {AE : Aead} {ED : Ed25519} {B64 : Base64} {BU : Keys.Base64Url} {BV : Dsse.Base64Variants}
  {JT : Keys.JwkText} {CN : Canon Json} {SX : IJson.JsonSyntax} {SV : Dsse.Schemas} {FS : FromSlice} {FC : FromValue Contract}
  {TR : ToValue ResultManifest} {TO : ToValue Outcome} {CP : Codec StorePeers.StoredPeer} {CW : Canon WorkOrder.WorkOrder}
  {CI : Codec WorkOrder.IssuedWorkOrder} {CE : Codec Dsse.Envelope} {ET : ErrorText}.

Section store.
Context (s : Store).

(** The manifest entry of an output. *)
Definition entry_of (i : nat) (o : ResultOutput) : OutputEntry :=
  Evidence.mkOutput (ro_role o) (ro_artifact_id o) (Z.of_nat i mod 2 ^ 32) (ro_media_type o) (byte_length o)
    (hex_digest (ro_content o)).

Definition header_of (task_id context_id : string) (head : Head) (c : Contract) (issued : WorkOrder.IssuedWorkOrder) :
  Evidence.ManifestHeader :=
  Evidence.mkHeader task_id context_id (contract_id c) (h_revision head) (h_digest head)
    (hex_digest (as_bytes (WorkOrder.nonce (WorkOrder.order issued)))) (WorkOrder.i_digest issued).

Definition manifest_of (sub : ResultSubmission) (context_id : string) (head : Head) (c : Contract)
  (issued : WorkOrder.IssuedWorkOrder) : ResultManifest :=
  Evidence.assemble (header_of (su_task_id sub) context_id head c issued) (imap entry_of (su_outputs sub)) (su_evidence sub)
    (su_slots sub) [].

(** The stored row of an output. *)
Definition staged_output (i : nat) (o : ResultOutput) : StoreRequester.TaskOutput :=
  StoreRequester.mkTaskOutput (ro_artifact_id o) (as_i64 (Z.of_nat i)) (ro_role o) (ro_media_type o) (as_i64 (byte_length o))
    (hex_digest (ro_content o)) (ro_content o).

(** The staging loop, from ordinal [i]; [seal] gives the nonce of each seal. *)
Fixpoint stage_outputs (seal : nat -> bytes) (task_id : string) (i : nat) (outs : list ResultOutput) (now : Z) : H () :=
  match outs with
  | [] => mret ()
  | o :: outs =>
      _ ← call (StoreRequester.put_task_output s (seal i) task_id (staged_output i o) now);
      stage_outputs seal task_id (S i) outs now
  end.

Definition submit_result (seal : nat -> bytes) (manifest_nonce : bytes) (task_result_key : Keys.PurposeKey)
  (submission : ResultSubmission) (now : Z) : H Json :=
  let task_id := su_task_id submission in
  head ← Daemon.locked_head task_id;
  parsed ← Daemon.load_contract s (h_digest head);
  let c := contract parsed in
  ctx ← call (StoreContracts.task_context task_id);
  let context_id := default "" (match ctx with Some x => Some x | None => context_id c end) in
  wo ← call (StoreAttempts.attempt_for_task task_id);
  work_order_id ← require wo no_work_order;
  io ← call (StoreAttempts.get_work_order s work_order_id);
  issued ← require io (problem 500 "missing-work-order" "the work order is missing");
  state ← call (StoreAttempts.attempt_state work_order_id);
  let already_completed := bool_decide (state = Some Attempt.Succeeded) in
  _ ← check_text (Gate.gate_outputs (WorkOrder.capabilities (WorkOrder.order issued)) (proposed <$> su_outputs submission))
        (fun e => problem_detail 403 "output-refused" "a worker output exceeds its granted scope" (gate_text e));
  _ ← check_text (Evidence.check_slots (required_slot <$> evidence_slots c) (su_slots submission))
        (fun e => problem_detail 422 "evidence-incomplete" "the required evidence slots are not satisfied" (slot_text e));
  if repeats ∅ (ro_artifact_id <$> su_outputs submission)
  then raise (problem 422 "duplicate-artifact" "two outputs share an artifact id") else
  let manifest := manifest_of submission context_id head c issued in
  bundle_digest ← check_text (Evidence.bundle_digest manifest)
        (fun e => problem_detail 422 "manifest-invalid" "the result manifest is invalid" (manifest_text e));
  envelope ← check (Evidence.sign_manifest manifest task_result_key)
        (problem 500 "sign-failed" "the result manifest could not be signed");
  _ ← (if already_completed then mret () else stage_outputs seal task_id 0 (su_outputs submission) now);
  outcome ← call (StoreAttempts.complete_attempt_with_result s manifest_nonce work_order_id task_id bundle_digest
                    (encode envelope) now);
  match outcome with
  | StoreAttempts.NotRunnable _ => raise (problem 409 "not-runnable" "the attempt cannot complete from its current state")
  | _ => mret (IJson.obj [("completed", JBool true); ("task_id", JStr task_id); ("work_order_id", JStr work_order_id);
      ("bundle_digest", JStr bundle_digest); ("outputs", JInt (Z.of_nat (length (su_outputs submission))))])
  end.

(** ** Delivery *)

Record DeliveryJob := mkJob {
  j_task_id : string; j_context_id : string; j_message_id : string; manifest_envelope : bytes;
  j_outputs : list StoreRequester.TaskOutput; recipient_endpoint : string; recipient_fingerprint : string }.

Definition requester_unknown (title : string) : Problem := problem 409 "requester-unknown" title.

Definition prepare_delivery (task_id : string) : H DeliveryJob :=
  head ← Daemon.locked_head task_id;
  parsed ← Daemon.load_contract s (h_digest head);
  let c := contract parsed in
  wo ← call (StoreAttempts.attempt_for_task task_id);
  work_order_id ← require wo no_work_order;
  result ← call (StoreAttempts.result_manifest s work_order_id);
  m ← require result (problem 409 "not-completed" "this task has no completed result");
  origin ← call (StoreContracts.origin_root task_id);
  root ← require (r ← origin; if decide (r = "") then None else Some r)
           (requester_unknown "this task records no authenticated origin");
  found ← call (StorePeers.get_peer_by_root s root);
  peer ← require (p ← found; if decide (Lifecycle.agent_id (StorePeers.identity p) = agent (requester c)) then Some p else None)
           (requester_unknown "the requester is not a known peer");
  status ← call (StorePeers.peer_status_by_root root);
  if decide (status <> Some Lifecycle.Active)
  then raise (problem 409 "requester-not-active" "the requester is suspended or removed; delivery withheld") else
  ctx ← call (StoreContracts.task_context task_id);
  outputs ← call (StoreRequester.list_task_outputs s task_id);
  mret (mkJob task_id (default "" (match ctx with Some x => Some x | None => context_id c end))
    ("result-" +:+ String.substring 0 16 m.1) m.2 outputs (Lifecycle.endpoint_id (StorePeers.identity peer))
    (Lifecycle.fp_value (Lifecycle.tls_cert (StorePeers.identity peer)))).

(** ** The requester's disposition *)

Record DeliveredOutput := mkDelivered { do_artifact_id : string; do_bytes : bytes }.

Definition wrong_performer : Problem := problem 403 "wrong-performer" "the result was not delivered by the assigned performer".

(** Each manifest entry with the delivered bytes it names, at its ordinal. *)
Fixpoint match_delivered (delivered : list DeliveredOutput) (i : nat) (entries : list OutputEntry) :
  result Problem (list (nat * OutputEntry * bytes)) :=
  match entries with
  | [] => Ok []
  | entry :: entries =>
      part ← ok_or (List.find (fun p => bool_decide (do_artifact_id p = Evidence.artifact_id entry)) delivered)
               (problem 422 "output-missing" "the result did not carry every output its manifest names");
      if decide (Z.of_nat (length (do_bytes part)) <> Evidence.o_byte_length entry \/
                 hex_digest (do_bytes part) <> Evidence.o_sha256 entry)
      then Err (problem 422 "output-digest-mismatch" "a delivered output does not match the digest in the signed manifest")
      else rest ← match_delivered delivered (S i) entries; Ok ((i, entry, do_bytes part) :: rest)
  end.

(** [NewTaskOutput] of a matched entry. *)
Definition new_output (x : nat * OutputEntry * bytes) : StoreRequester.TaskOutput :=
  let '(i, e, b) := x in
  StoreRequester.mkTaskOutput (Evidence.artifact_id e) (as_i64 (Z.of_nat i)) (Evidence.o_role e) (Evidence.o_media_type e)
    (as_i64 (Evidence.o_byte_length e)) (Evidence.o_sha256 e) b.

Definition finalize_result (seal : nat -> bytes) (outcome_nonce : bytes) (requester sender : Identity) (sender_root : string)
  (outcome_key : Keys.PurposeKey) (performer_task_result_key : Keys.PurposeVerifyingKey) (envelope : Dsse.Envelope)
  (delivered : list DeliveredOutput) (signed_at : string) (now : Z) : H Json :=
  verified ← check (Evidence.verify_manifest envelope performer_task_result_key)
        (problem 422 "manifest-invalid" "the result manifest did not verify");
  let manifest := verified.1 in
  let bundle_digest := verified.2 in
  let h := Evidence.header manifest in
  found ← call (StoreRequester.get_sent_request (Evidence.h_contract_digest h));
  sent ← require found (problem 409 "unsolicited-result" "no outstanding request matches this result");
  if decide (StoreRequester.sr_task_id sent <> Evidence.h_task_id h)
  then raise (problem 409 "result-mismatch" "the result's task does not match the outstanding request") else
  if decide (StoreRequester.sr_performer_agent sent <> agent sender \/ StoreRequester.sr_performer_issuer sent <> issuer sender)
  then raise wrong_performer else
  if decide (StoreRequester.sr_performer_root sent = "" \/ StoreRequester.sr_performer_root sent <> sender_root \/
             root sender <> sender_root)
  then raise wrong_performer else
  if decide (StoreRequester.sr_contract_id sent <> Evidence.h_contract_id h \/
             StoreRequester.sr_context_id sent <> Evidence.h_context_id h)
  then raise (problem 409 "result-mismatch"
                "the result's contract or context metadata does not match the outstanding request") else
  if repeats ∅ (Evidence.artifact_id <$> Evidence.outputs manifest)
  then raise (problem 422 "output-duplicate" "the manifest names the same artifact more than once") else
  staged ← hlift (match_delivered delivered 0 (Evidence.outputs manifest));
  if decide (length delivered <> length (Evidence.outputs manifest))
  then raise (problem 422 "output-unbound" "the result carried an output its manifest does not name") else
  outcome ← check (Evidence.for_manifest manifest Evidence.Accepted requester signed_at)
        (problem 500 "outcome" "the outcome could not be built");
  _ ← check (Evidence.outcome_binds_to outcome manifest)
        (problem 500 "outcome-binding" "the outcome does not bind the result");
  signed ← check (Evidence.sign_outcome outcome outcome_key) (problem 500 "sign-failed" "the outcome could not be signed");
  outcome_digest ← check (Evidence.outcome_digest outcome) (problem 500 "outcome" "the outcome could not be digested");
  write ← call (StoreRequester.record_outcome_with_outputs s outcome_nonce (Evidence.h_contract_digest h) (Evidence.h_task_id h)
                  bundle_digest outcome_digest "accepted" (encode signed)
                  (imap (fun i x => (seal i, new_output x)) staged) signed_at now);
  mret (match write with
        | StoreRequester.Recorded =>
            IJson.obj [("finalized", JBool true); ("task_id", JStr (Evidence.h_task_id h)); ("state", JStr "accepted");
                  ("bundle_digest", JStr bundle_digest); ("outcome_digest", JStr outcome_digest)]
        | StoreRequester.AlreadyRecorded outcome_digest =>
            IJson.obj [("finalized", JBool true); ("redelivery", JBool true); ("task_id", JStr (Evidence.h_task_id h));
                  ("state", JStr "accepted"); ("outcome_digest", JStr outcome_digest)]
        end).

(** ** Readers *)

#[global] Instance check_text_reads {E A} (r : result E A) f : HReads (check_text r f).
Proof. done. Qed.

Lemma check_text_Ok {E A} (r : result E A) f d a d' : check_text r f d = (Ok a, d') <-> r = Ok a /\ d' = d.
Proof. unfold check_text. destruct r; naive_solver. Qed.

(** ** Artifact ids and delivered parts *)

Lemma repeats_spec ids : forall seen, repeats seen ids = false <-> NoDup ids /\ forall x, x ∈ ids -> x ∉ seen.
Proof.
  induction ids as [|id ids IH]; intros seen; cbn [repeats].
  - split; [intros _; split; [apply NoDup_nil_2|intros x Hx; by apply not_elem_of_nil in Hx]|done].
  - rewrite NoDup_cons. case_decide as Hin.
    + split; [done|]. intros [_ H]. exfalso. by apply (H id); [left|].
    + rewrite IH. split.
      * intros [Hn H]. split; [split; [|done]|].
        -- intros Hi. apply (H id Hi). set_solver.
        -- intros x [->|Hx]%elem_of_cons; [done|]. specialize (H x Hx). set_solver.
      * intros [[Hni Hn] H]. split; [done|]. intros x Hx. specialize (H x (list_elem_of_further x id ids Hx)). set_solver.
Qed.

Lemma repeats_NoDup ids : repeats ∅ ids = false <-> NoDup ids.
Proof. rewrite repeats_spec. set_solver. Qed.

(** A part is what an entry says: its id, its length and its digest. *)
Definition matches (e : OutputEntry) (p : DeliveredOutput) : Prop :=
  do_artifact_id p = Evidence.artifact_id e /\ Z.of_nat (length (do_bytes p)) = Evidence.o_byte_length e /\
  hex_digest (do_bytes p) = Evidence.o_sha256 e.

(** The delivered parts are exactly the outputs of the manifest, each named once. *)
Definition delivers (m : ResultManifest) (delivered : list DeliveredOutput) : Prop :=
  NoDup (Evidence.artifact_id <$> Evidence.outputs m) /\
  exists parts, Forall2 matches (Evidence.outputs m) parts /\ parts ≡ₚ delivered.

(** The first part with an id. *)
Definition part_named (delivered : list DeliveredOutput) (id : string) : option DeliveredOutput :=
  List.find (fun p => bool_decide (do_artifact_id p = id)) delivered.

Definition matched (i : nat) (entries : list OutputEntry) (parts : list DeliveredOutput) : list (nat * OutputEntry * bytes) :=
  imap (fun k ep => (i + k, ep.1, do_bytes ep.2)) (zip entries parts).

Lemma matched_cons i e p entries parts :
  matched i (e :: entries) (p :: parts) = (i, e, do_bytes p) :: matched (S i) entries parts.
Proof.
  unfold matched. cbn [zip zip_with]. rewrite imap_cons. f_equal; [by rewrite Nat.add_0_r|].
  apply imap_ext. intros k x _. unfold compose. f_equal. f_equal. lia.
Qed.

Lemma match_delivered_Ok delivered entries : forall i st,
  match_delivered delivered i entries = Ok st <->
  exists parts, Forall2 (fun e p => part_named delivered (Evidence.artifact_id e) = Some p /\ matches e p) entries parts /\
    st = matched i entries parts.
Proof.
  induction entries as [|e entries IH]; intros i st; cbn [match_delivered].
  - split; [intros [= <-]; by exists []|]. intros (parts & Hf & ->). inversion Hf; subst. done.
  - fold (part_named delivered (Evidence.artifact_id e)). split.
    + intros H. destruct (part_named _ _) as [p|] eqn:Ep; [|done]. cbn [ok_or mbind result_bind] in H.
      destruct (decide _) as [|Hd]; [done|]. destruct (match_delivered delivered (S i) entries) as [rest|] eqn:Er; [|done].
      apply IH in Er as (parts & Hf & ->). injection H as <-. exists (p :: parts). rewrite matched_cons. split; [|done].
      constructor; [|done]. split; [done|]. apply find_some in Ep as [_ Ep%bool_decide_eq_true].
      split; [done|]. apply not_or_and in Hd as [H1%dec_stable H2%dec_stable]. done.
    + intros (parts & Hf & ->). inversion Hf as [|? p ? parts' [Hp (_ & H1 & H2)] Hf']; subst. rewrite Hp. cbn [ok_or mbind result_bind].
      rewrite decide_False by naive_solver. rewrite matched_cons. assert (match_delivered delivered (S i) entries
        = Ok (matched (S i) entries parts')) as -> by (apply IH; by exists parts'). done.
Qed.

Lemma part_named_Some delivered id p :
  NoDup (do_artifact_id <$> delivered) -> part_named delivered id = Some p <-> p ∈ delivered /\ do_artifact_id p = id.
Proof.
  unfold part_named. induction delivered as [|q delivered IH]; cbn [List.find fmap list_fmap].
  - intros _. split; [done|]. intros [H _]. by apply not_elem_of_nil in H.
  - rewrite NoDup_cons. intros [Hq Hn]. specialize (IH Hn). case_bool_decide as Hid.
    + split; [intros [= <-]; split; [by left|done]|]. intros [[->|Hp]%elem_of_cons He]; [done|].
      exfalso. apply Hq. apply list_elem_of_fmap. exists p. by rewrite He, Hid.
    + rewrite IH. split; [intros [? ?]; split; [by right|done]|]. intros [[->|?]%elem_of_cons ?]; done.
Qed.

Lemma matches_ids entries parts : Forall2 matches entries parts -> do_artifact_id <$> parts = Evidence.artifact_id <$> entries.
Proof. induction 1 as [|e p entries parts [Hid _] _ IH]; [done|]. cbn. by rewrite Hid, IH. Qed.

(** The three checks of the delivered bytes hold exactly when the parts are the manifest's
    outputs. *)
Lemma delivered_exact m delivered st :
  (repeats ∅ (Evidence.artifact_id <$> Evidence.outputs m) = false /\
   match_delivered delivered 0 (Evidence.outputs m) = Ok st /\ length delivered = length (Evidence.outputs m)) <->
  (NoDup (Evidence.artifact_id <$> Evidence.outputs m) /\
   exists parts, Forall2 matches (Evidence.outputs m) parts /\ parts ≡ₚ delivered /\ st = matched 0 (Evidence.outputs m) parts).
Proof.
  rewrite repeats_NoDup, match_delivered_Ok. split.
  - intros (Hn & (parts & Hf & ->) & Hl). split; [done|]. exists parts.
    assert (Forall2 matches (Evidence.outputs m) parts) as Hm by (eapply Forall2_impl; [exact Hf|naive_solver]).
    split; [done|]. split; [|done]. apply submseteq_length_Permutation; [|rewrite Hl, (Forall2_length _ _ _ Hm); lia].
    apply NoDup_submseteq; [apply (NoDup_fmap_1 do_artifact_id); by rewrite (matches_ids _ _ Hm)|].
    intros p [i Hi]%list_elem_of_lookup_1. destruct (Forall2_lookup_r _ _ _ _ _ Hf Hi) as (e & _ & He & _).
    apply find_some in He as [He _]. by apply list_elem_of_In.
  - intros (Hn & parts & Hm & Hp & ->). split; [done|]. split; [|by rewrite <- Hp, (Forall2_length _ _ _ Hm)].
    exists parts. split; [|done]. assert (NoDup (do_artifact_id <$> delivered)) as Hnd
      by (rewrite <- Hp, (matches_ids _ _ Hm); done).
    apply Forall2_same_length_lookup. split; [by eapply Forall2_length|]. intros i e p He Hpi.
    pose proof (Forall2_lookup_lr _ _ _ _ _ _ Hm He Hpi) as Hmp. split; [|done].
    apply part_named_Some; [done|]. split; [rewrite <- Hp; by eapply list_elem_of_lookup_2|apply Hmp].
Qed.

(** ** The disposition *)

(** The request this daemon sent that a manifest answers: same Task, contract and context,
    delivered by the performer and the root it was sent to. *)
Definition answers (sent : StoreRequester.SentRequest) (m : ResultManifest) (sender : Identity) (sender_root : string) : Prop :=
  StoreRequester.sr_task_id sent = Evidence.h_task_id (Evidence.header m) /\
  StoreRequester.sr_performer_agent sent = agent sender /\ StoreRequester.sr_performer_issuer sent = issuer sender /\
  StoreRequester.sr_performer_root sent = sender_root /\ root sender = sender_root /\ sender_root <> "" /\
  StoreRequester.sr_contract_id sent = Evidence.h_contract_id (Evidence.header m) /\
  StoreRequester.sr_context_id sent = Evidence.h_context_id (Evidence.header m).

(** The disposition a valid result gets, and its signature. *)
Definition disposition (m : ResultManifest) (requester : Identity) (signed_at : string) (okey : Keys.PurposeKey) (o : Outcome)
  (signed : Dsse.Envelope) (od : string) : Prop :=
  Evidence.for_manifest m Evidence.Accepted requester signed_at = Ok o /\ Evidence.outcome_binds_to o m = Ok () /\
  Evidence.sign_outcome o okey = Ok signed /\ Evidence.outcome_digest o = Ok od.

(** What [finalize_result] has checked when it comes to write. *)
Definition acceptable (requester sender : Identity) (sender_root : string) (okey : Keys.PurposeKey) (vk : Keys.PurposeVerifyingKey)
  (env : Dsse.Envelope) (delivered : list DeliveredOutput) (signed_at : string) (d : Db) (m : ResultManifest) (bd : string)
  (parts : list DeliveredOutput) (o : Outcome) (signed : Dsse.Envelope) (od : string) : Prop :=
  Evidence.verify_manifest env vk = Ok (m, bd) /\
  (exists sent, StoreRequester.get_sent_request (Evidence.h_contract_digest (Evidence.header m)) d = Ok (Some sent, d) /\
     answers sent m sender sender_root) /\
  NoDup (Evidence.artifact_id <$> Evidence.outputs m) /\ Forall2 matches (Evidence.outputs m) parts /\ parts ≡ₚ delivered /\
  disposition m requester signed_at okey o signed od.

(** The write at the end. *)
Definition record_accepted (seal : nat -> bytes) (n : bytes) (m : ResultManifest) (bd : string) (parts : list DeliveredOutput)
  (signed : Dsse.Envelope) (od signed_at : string) (now : Z) : M StoreRequester.OutcomeWrite :=
  StoreRequester.record_outcome_with_outputs s n (Evidence.h_contract_digest (Evidence.header m))
    (Evidence.h_task_id (Evidence.header m)) bd od "accepted" (encode signed)
    (imap (fun i x => (seal i, new_output x)) (matched 0 (Evidence.outputs m) parts)) signed_at now.

Lemma finalize_Ok seal n requester sender sroot okey vk env delivered signed_at now d v d' :
  finalize_result seal n requester sender sroot okey vk env delivered signed_at now d = (Ok v, d') ->
  exists m bd parts o signed od w, acceptable requester sender sroot okey vk env delivered signed_at d m bd parts o signed od /\
    record_accepted seal n m bd parts signed od signed_at now d = Ok (w, d').
Proof.
  unfold finalize_result. intros ([m bd] & [Hv _]%check_Ok & H)%hread_Ok; [|apply _]. cbn [fst snd] in H.
  apply hread_Ok in H as (found & Hs%call_Ok & H); [|apply _]. apply hread_Ok in H as (sent & [-> _]%require_Ok & H); [|apply _].
  destruct (decide _) as [|H1%dec_stable] in H; [done|]. destruct (decide _) as [|[H2%dec_stable H3%dec_stable]%not_or_and] in H; [done|].
  destruct (decide _) as [|Hroot] in H; [done|]. destruct (decide _) as [|[H4%dec_stable H5%dec_stable]%not_or_and] in H; [done|].
  destruct (repeats _ _) eqn:Hrep in H; [done|]. apply hread_Ok in H as (st & [Hm _]%hlift_Ok & H); [|apply _].
  destruct (decide _) as [|Hl%dec_stable] in H; [done|]. apply hread_Ok in H as (o & [Ho _]%check_Ok & H); [|apply _].
  apply hread_Ok in H as ([] & [Hb _]%check_Ok & H); [|apply _]. apply hread_Ok in H as (signed & [Hsig _]%check_Ok & H); [|apply _].
  apply hread_Ok in H as (od & [Hod _]%check_Ok & H); [|apply _]. apply hbind_Ok in H as (w & d1 & Hw%call_Ok & [_ ->]%mret_Ok).
  apply not_or_and in Hroot as [Hne [Hr1%dec_stable Hr2%dec_stable]%not_or_and].
  destruct (proj1 (delivered_exact m delivered st) (conj Hrep (conj Hm Hl))) as (Hn & parts & Hf & Hp & ->).
  exists m, bd, parts, o, signed, od, w. split; [|exact Hw]. split; [done|]. split.
  - exists sent. split; [done|]. subst sroot. by repeat split.
  - by repeat split.
Qed.

Lemma finalize_run seal n requester sender sroot okey vk env delivered signed_at now d m bd parts o signed od w d' :
  acceptable requester sender sroot okey vk env delivered signed_at d m bd parts o signed od ->
  record_accepted seal n m bd parts signed od signed_at now d = Ok (w, d') ->
  exists v, finalize_result seal n requester sender sroot okey vk env delivered signed_at now d = (Ok v, d').
Proof.
  intros (Hv & (sent & Hs & H1 & H2 & H3 & H4 & H5 & H6 & H7 & H8) & Hn & Hf & Hp & Ho & Hb & Hsig & Hod) Hw.
  destruct (proj2 (delivered_exact m delivered (matched 0 (Evidence.outputs m) parts))) as (Hrep & Hm & Hl).
  { split; [done|]. by exists parts. }
  unfold finalize_result. rewrite (hbind_run _ _ _ (m, bd) d) by by apply check_Ok. cbn [fst snd].
  rewrite (hbind_run _ _ _ (Some sent) d) by by apply call_Ok. rewrite (hbind_run _ _ _ sent d) by by apply require_Ok.
  rewrite decide_False by naive_solver. rewrite decide_False by naive_solver.
  rewrite decide_False by (rewrite H4; naive_solver). rewrite decide_False by naive_solver. rewrite Hrep.
  rewrite (hbind_run _ _ _ (matched 0 (Evidence.outputs m) parts) d) by by apply hlift_Ok. rewrite decide_False by naive_solver.
  rewrite (hbind_run _ _ _ o d) by by apply check_Ok. rewrite (hbind_run _ _ _ () d) by by apply check_Ok.
  rewrite (hbind_run _ _ _ signed d) by by apply check_Ok. rewrite (hbind_run _ _ _ od d) by by apply check_Ok.
  rewrite (hbind_run _ _ _ w d') by by apply call_Ok. by eexists.
Qed.

Lemma finalize_Err seal n requester sender sroot okey vk env delivered signed_at now d p d' :
  finalize_result seal n requester sender sroot okey vk env delivered signed_at now d = (Err p, d') -> d' = d.
Proof.
  unfold finalize_result. hread verified Hv. hread found Hs. hread sent Hsent.
  do 4 (destruct (decide _); [by intros [= <- <-]|]). destruct (repeats _ _); [by intros [= <- <-]|]. hread st Hst.
  destruct (decide _); [by intros [= <- <-]|]. hread o Ho. hread u Hu. hread signed Hsig. hread od Hod.
  unfold mbind, H_bind, call, exec. destruct (StoreRequester.record_outcome_with_outputs _ _ _ _ _ _ _ _ _ _ _ d) as [[w d1]|];
    [done|]. by intros [= <- <-].
Qed.

(** C14. An accepted result is solicited, complete and authentic: the requester
    signs an outcome only for a manifest that verifies under the performer's pinned
    task-result key, that answers a request it sent to exactly this performer, root, contract
    and context, and whose delivered parts are exactly its outputs byte for byte; the outcome
    binds that manifest and is stored together with those bytes, or an earlier disposition
    stands and nothing is written. Any refusal writes nothing. *)
Theorem result_disposition seal n requester sender sroot okey vk env delivered signed_at now d r d' :
  finalize_result seal n requester sender sroot okey vk env delivered signed_at now d = (r, d') ->
  match r with
  | Err _ => d' = d
  | Ok _ => exists m bd sent, let h := Evidence.header m in
      Evidence.verify_manifest env vk = Ok (m, bd) /\
      StoreRequester.get_sent_request (Evidence.h_contract_digest h) d = Ok (Some sent, d) /\ answers sent m sender sroot /\
      delivers m delivered /\
      match StoreRequester.tbl_outcomes d !! Evidence.h_contract_digest h with
      | Some _ => d' = d
      | None => exists o signed od, disposition m requester signed_at okey o signed od /\
          StoreRequester.tbl_outcomes d' !! Evidence.h_contract_digest h
            = Some (StoreRequester.outcome_row s n (Evidence.h_task_id h) bd od "accepted" (encode signed) signed_at now) /\
          forall e p, e ∈ Evidence.outputs m -> p ∈ delivered -> matches e p ->
            exists i, StoreRequester.tbl_outputs d' !! (Evidence.h_task_id h, Evidence.artifact_id e)
              = Some (StoreRequester.output_row s (seal i) (new_output (i, e, do_bytes p)))
      end
  end.
Proof.
  destruct r as [v|p]; [|apply finalize_Err].
  intros (m & bd & parts & o & signed & od & w & (Hv & (sent & Hs & Ha) & Hn & Hf & Hp & Hd) & Hw)%finalize_Ok.
  exists m, bd, sent. cbv zeta. split; [done|]. split; [done|]. split; [done|]. split; [split; [done|by exists parts]|].
  unfold record_accepted in Hw. revert Hw.
  set (outs := imap _ _). pose proof (StoreRequester.record_run s n (Evidence.h_contract_digest (Evidence.header m))
    (Evidence.h_task_id (Evidence.header m)) bd od "accepted" (encode signed) outs signed_at now d) as Hrun.
  destruct (StoreRequester.tbl_outcomes d !! _) as [row|] eqn:Eo; [rewrite Hrun; congruence|].
  destruct (decide _) as [Hfit|]; [|rewrite Hrun; done]. destruct Hrun as (d1 & tbl & Hrec & Hreq & Hins & _).
  rewrite Hrec. intros [= _ <-]. exists o, signed, od. split; [done|].
  split; [unfold StoreRequester.tbl_outcomes; rewrite Hreq; apply lookup_insert_eq|].
  intros e q He Hq Hmq. unfold StoreRequester.tbl_outputs. rewrite Hreq. cbn [task_outputs].
  assert (q ∈ parts) as [j Hj]%list_elem_of_lookup_1 by by rewrite Hp.
  destruct (Forall2_lookup_r _ _ _ _ _ Hf Hj) as (e' & He' & Hme). exists j.
  assert (e' = e) as ->.
  { apply list_elem_of_lookup_1 in He as [k Hk]. assert (j = k) as <-; [|congruence].
    eapply (NoDup_lookup (Evidence.artifact_id <$> Evidence.outputs m)); [done|by rewrite list_lookup_fmap, He'|].
    rewrite list_lookup_fmap, Hk. cbn. f_equal. destruct Hmq as [<- _], Hme as [<- _]. done. }
  change (Evidence.artifact_id e) with (StoreRequester.artifact_id (new_output (j, e, do_bytes q))). apply Hins.
  apply list_elem_of_lookup_2 with j. subst outs. rewrite list_lookup_imap. unfold matched. rewrite list_lookup_imap.
  by rewrite (proj2 (lookup_zip_Some _ _ _ _ _) (conj He' Hj)).
Qed.

(** ** Submissions *)

(** What a submission is checked against before anything is written. *)
Definition submittable (sub : ResultSubmission) (key : Keys.PurposeKey) (d : Db) (head : Head) (parsed : ParsedContract)
  (wo : string) (issued : WorkOrder.IssuedWorkOrder) (st : option Attempt.AttemptState) (m : ResultManifest) (bd : string)
  (env : Dsse.Envelope) : Prop :=
  Daemon.locked_head (su_task_id sub) d = (Ok head, d) /\ Daemon.load_contract s (h_digest head) d = (Ok parsed, d) /\
  StoreAttempts.attempt_for_task (su_task_id sub) d = Ok (Some wo, d) /\
  StoreAttempts.get_work_order s wo d = Ok (Some issued, d) /\ StoreAttempts.attempt_state wo d = Ok (st, d) /\
  Gate.gate_outputs (WorkOrder.capabilities (WorkOrder.order issued)) (proposed <$> su_outputs sub) = Ok () /\
  Evidence.check_slots (required_slot <$> evidence_slots (contract parsed)) (su_slots sub) = Ok () /\
  NoDup (ro_artifact_id <$> su_outputs sub) /\ (exists ctx, m = manifest_of sub ctx head (contract parsed) issued) /\
  Evidence.bundle_digest m = Ok bd /\ Evidence.sign_manifest m key = Ok env.

Lemma submit_cases seal n key sub now d :
  (exists p, submit_result seal n key sub now d = (Err p, d)) \/
  exists head parsed wo issued st m bd env, submittable sub key d head parsed wo issued st m bd env /\
    submit_result seal n key sub now d =
      (_ ← (if bool_decide (st = Some Attempt.Succeeded) then mret () else stage_outputs seal (su_task_id sub) 0 (su_outputs sub) now);
       outcome ← call (StoreAttempts.complete_attempt_with_result s n wo (su_task_id sub) bd (encode env) now);
       match outcome with
       | StoreAttempts.NotRunnable _ => raise (problem 409 "not-runnable" "the attempt cannot complete from its current state")
       | _ => mret (IJson.obj [("completed", JBool true); ("task_id", JStr (su_task_id sub)); ("work_order_id", JStr wo);
           ("bundle_digest", JStr bd); ("outputs", JInt (Z.of_nat (length (su_outputs sub))))])
       end) d.
Proof.
  unfold submit_result. hread head Hh; [left; by eexists|]. hread parsed Hp; [left; by eexists|]. cbv zeta.
  hread ctx Hc; [left; by eexists|]. hread wo0 Hw; [left; by eexists|]. hread wo Hwo; [left; by eexists|].
  hread io Hio; [left; by eexists|]. hread issued Hi; [left; by eexists|]. hread st Hst; [left; by eexists|].
  hread u Hg; [left; by eexists|]. hread u' Hsl; [left; by eexists|]. destruct (repeats _ _) eqn:Hr; [left; by eexists|].
  hread bd Hbd; [left; by eexists|]. hread env He; [left; by eexists|]. right.
  apply require_Ok in Hwo as [-> _], Hi as [-> _]. apply check_text_Ok in Hg as [Hg _], Hsl as [Hsl _], Hbd as [Hbd _].
  apply check_Ok in He as [He _]. apply call_Ok in Hw, Hio, Hst. destruct u, u'.
  exists head, parsed, wo, issued, st. eexists. exists bd, env. split; [|reflexivity].
  do 7 (split; [done|]). split; [by apply repeats_NoDup|]. split; [by eexists|]. done.
Qed.

(** The table of outputs after the staging loop: a row that is there stays. *)
Fixpoint staged_table (seal : nat -> bytes) (t : string) (i : nat) (outs : list ResultOutput)
  (m : gmap (string * string) TaskOutputRow) : gmap (string * string) TaskOutputRow :=
  match outs with
  | [] => m
  | o :: outs => staged_table seal t (S i) outs
      (insert_or_ignore (t, ro_artifact_id o) (StoreRequester.output_row s (seal i) (staged_output i o)) m).1
  end.

Lemma stage_run seal t now outs : forall i d, exists d', stage_outputs seal t i outs now d = (Ok (), d') /\
  StoreReach.only StoreReach.PRequester d d' /\
  StoreRequester.tbl_outputs d' = staged_table seal t i outs (StoreRequester.tbl_outputs d).
Proof.
  induction outs as [|o outs IH]; intros i d; cbn [stage_outputs staged_table]; [by exists d|].
  assert (exists d1, StoreRequester.put_task_output s (seal i) t (staged_output i o) now d = Ok ((), d1) /\
    StoreRequester.tbl_outputs d1 = (insert_or_ignore (t, ro_artifact_id o)
      (StoreRequester.output_row s (seal i) (staged_output i o)) (StoreRequester.tbl_outputs d)).1) as (d1 & Hput & Ht).
  { unfold StoreRequester.put_task_output. rewrite bind_modify. run_audit. by eexists. }
  assert (StoreReach.only StoreReach.PRequester d d1) as Ho.
  { apply (StoreReach.part_steps_only _ _ (StoreReach.requester_local s)). by eapply StoreRequester.rs_output. }
  destruct (IH (S i) d1) as (d' & Hs & Ho' & Ht'). exists d'. rewrite Ht' , Ht. split; [|by split; [etrans|]].
  by rewrite (hbind_run _ _ _ () d1) by by apply call_Ok.
Qed.

Lemma staged_keeps seal t outs : forall i m k row, m !! k = Some row -> staged_table seal t i outs m !! k = Some row.
Proof.
  induction outs as [|o outs IH]; intros i m k row Hk; cbn [staged_table]; [done|]. apply IH. unfold insert_or_ignore.
  destruct (m !! (t, ro_artifact_id o)) eqn:E; cbn [fst]; [done|]. rewrite lookup_insert_ne; [done|]. intros <-. congruence.
Qed.

Lemma staged_present seal t outs : forall i m o, o ∈ outs -> is_Some (staged_table seal t i outs m !! (t, ro_artifact_id o)).
Proof.
  induction outs as [|o' outs IH]; intros i m o Ho; [by apply not_elem_of_nil in Ho|].
  apply elem_of_cons in Ho as [->|Ho]; cbn [staged_table]; [|by apply IH]. unfold insert_or_ignore.
  destruct (m !! _) eqn:E; cbn [fst]; eexists; apply staged_keeps; [exact E|apply lookup_insert_eq].
Qed.

Lemma staged_other seal t outs : forall i m k, (k.1 <> t \/ k.2 ∉ (ro_artifact_id <$> outs)) -> staged_table seal t i outs m !! k = m !! k.
Proof.
  induction outs as [|o outs IH]; intros i m k Hk; cbn [staged_table]; [done|]. rewrite fmap_cons, not_elem_of_cons in Hk.
  rewrite IH by tauto. unfold insert_or_ignore. destruct (m !! (t, ro_artifact_id o)); cbn [fst]; [done|]. rewrite lookup_insert_ne; [done|].
  intros <-. cbn in Hk. tauto.
Qed.

(** Without rows of the Task before, each output gets its row. *)
Lemma staged_lookup seal t outs : forall i m k o, NoDup (ro_artifact_id <$> outs) ->
  (forall o, o ∈ outs -> m !! (t, ro_artifact_id o) = None) -> outs !! k = Some o ->
  staged_table seal t i outs m !! (t, ro_artifact_id o)
  = Some (StoreRequester.output_row s (seal (i + k)) (staged_output (i + k) o)).
Proof.
  induction outs as [|o' outs IH]; intros i m k o Hn Hf Hk; [done|]. cbn [staged_table]. rewrite fmap_cons, NoDup_cons in Hn.
  destruct Hn as [Hni Hn]. unfold insert_or_ignore. rewrite (Hf o') by by left. cbn [fst]. destruct k as [|k]; cbn in Hk.
  - injection Hk as ->. rewrite Nat.add_0_r. apply staged_keeps, lookup_insert_eq.
  - rewrite (IH (S i) _ k o); [|done| |done]; [by rewrite <- Nat.add_succ_comm|]. intros o1 Ho1. rewrite lookup_insert_ne.
    + apply Hf. by right.
    + intros [= Heq]. apply Hni. apply list_elem_of_fmap. by exists o1.
Qed.

Lemma complete_only n wo t bd env now d w d' :
  StoreAttempts.complete_attempt_with_result s n wo t bd env now d = Ok (w, d') -> StoreReach.only StoreReach.PAttempts d d'.
Proof. intros H. apply (StoreReach.part_steps_only _ _ (StoreReach.attempts_local s)). by eapply StoreAttempts.as_complete. Qed.

(** The database between staging and completion. *)
Definition staged_db (seal : nat -> bytes) (sub : ResultSubmission) (st : option Attempt.AttemptState) (now : Z) (d : Db) : Db :=
  if bool_decide (st = Some Attempt.Succeeded) then d else (stage_outputs seal (su_task_id sub) 0 (su_outputs sub) now d).2.

Lemma staged_db_only seal sub st now d : StoreReach.only StoreReach.PRequester d (staged_db seal sub st now d).
Proof.
  unfold staged_db. case_bool_decide; [done|]. by destruct (stage_run seal (su_task_id sub) now (su_outputs sub) 0 d) as (d' & -> & Ho & _).
Qed.

Lemma submit_Ok seal n key sub now d v d' :
  submit_result seal n key sub now d = (Ok v, d') ->
  exists head parsed wo issued st m bd env w, submittable sub key d head parsed wo issued st m bd env /\
    StoreAttempts.complete_attempt_with_result s n wo (su_task_id sub) bd (encode env) now (staged_db seal sub st now d) = Ok (w, d') /\
    (w = StoreAttempts.Completed \/ w = StoreAttempts.AlreadyCompleted).
Proof.
  destruct (submit_cases seal n key sub now d) as [[p ->]|(head & parsed & wo & issued & st & m & bd & env & Hs & ->)]; [done|].
  intros H. exists head, parsed, wo, issued, st, m, bd, env.
  assert ((outcome ← call (StoreAttempts.complete_attempt_with_result s n wo (su_task_id sub) bd (encode env) now);
       match outcome with
       | StoreAttempts.NotRunnable _ => raise (problem 409 "not-runnable" "the attempt cannot complete from its current state")
       | _ => mret (IJson.obj [("completed", JBool true); ("task_id", JStr (su_task_id sub)); ("work_order_id", JStr wo);
           ("bundle_digest", JStr bd); ("outputs", JInt (Z.of_nat (length (su_outputs sub))))])
       end) (staged_db seal sub st now d) = (Ok v, d')) as (w & d1 & Hw%call_Ok & H')%hbind_Ok.
  { unfold staged_db. destruct (bool_decide _); [exact H|].
    destruct (stage_run seal (su_task_id sub) now (su_outputs sub) 0 d) as (d1 & E & _). rewrite E. cbn [snd].
    by rewrite (hbind_run _ _ _ _ _ E) in H. }
  exists w. split; [done|]. destruct w; [| |done]; apply mret_Ok in H' as [_ ->]; (split; [done|]); by (left + right).
Qed.

(** What completion leaves, by what the attempt was. *)
Lemma submit_completed nonces n key sub now d v d' :
  submit_result nonces n key sub now d = (Ok v, d') ->
  exists head parsed wo issued st m bd env, submittable sub key d head parsed wo issued st m bd env /\
    if decide (st = Some Attempt.Succeeded) then d' = d
    else exists row, StoreAttempts.tbl_attempts d !! wo = Some row /\
      attempts_db d' = upd_results (insert wo (mkResultRow (su_task_id sub) bd (seal s StoreAttempts.RESULT_MANIFEST_CONTEXT n (encode env)) now))
          (upd_attempts (insert wo (StoreAttempts.set_state "succeeded" row)) (attempts_db d)) /\
      StoreRequester.tbl_outputs d' = staged_table nonces (su_task_id sub) 0 (su_outputs sub) (StoreRequester.tbl_outputs d) /\
      contracts_db d' = contracts_db d /\ peers_db d' = peers_db d.
Proof.
  intros (head & parsed & wo & issued & st & m & bd & env & w & Hs & Hw & Hok)%submit_Ok.
  exists head, parsed, wo, issued, st, m, bd, env. split; [done|].
  destruct Hs as (_ & _ & _ & _ & Hst & _). apply StoreAttempts.attempt_state_Ok in Hst as [_ Hst].
  pose proof (complete_only _ _ _ _ _ _ _ _ _ Hw) as Ho. pose proof (staged_db_only nonces sub st now d) as Ho1.
  apply StoreAttempts.complete_effect in Hw as (r & st' & Hr & Hst' & Heff).
  unfold StoreAttempts.tbl_attempts in Hr. rewrite (StoreReach.only_attempts _ _ _ Ho1) in Hr by done.
  fold (StoreAttempts.tbl_attempts d) in Hr.
  assert (st = Some st') as ->.
  { destruct st as [x|]; [|congruence]. destruct Hst as (r' & Hr' & Hx). assert (r' = r) as -> by congruence. f_equal.
    apply StoreAttempts.as_str_eq. congruence. }
  destruct (decide _) as [[= ->]|Hne]; destruct Hok as [-> | ->].
  - by destruct Heff as ([|] & _).
  - destruct Heff as [_ ->]. unfold staged_db. by rewrite bool_decide_eq_true_2.
  - exists r. split; [done|]. destruct Heff as (_ & _ & Hdb). rewrite (StoreReach.only_attempts _ _ _ Ho1) in Hdb by done. split; [done|].
    unfold StoreRequester.tbl_outputs. rewrite (StoreReach.only_requester _ _ _ Ho) by done.
    split; [|by rewrite (StoreReach.only_contracts _ _ _ Ho), (StoreReach.only_contracts _ _ _ Ho1),
      (StoreReach.only_peers _ _ _ Ho), (StoreReach.only_peers _ _ _ Ho1) by done].
    unfold staged_db. rewrite bool_decide_eq_false_2 by done.
    by destruct (stage_run nonces (su_task_id sub) now (su_outputs sub) 0 d) as (d1 & -> & _ & Ht).
  - destruct Heff as [-> _]. done.
Qed.

(** A refused submission completes nothing. *)
Lemma submit_refused nonces n key sub now d p d' :
  submit_result nonces n key sub now d = (Err p, d') -> attempts_db d' = attempts_db d.
Proof.
  destruct (submit_cases nonces n key sub now d) as [[q ->]|(head & parsed & wo & issued & st & m & bd & env & Hs & ->)];
    [by intros [= _ <-]|].
  pose proof (staged_db_only nonces sub st now d) as Ho. unfold staged_db in Ho. intros H.
  assert (exists d1, attempts_db d1 = attempts_db d /\ (outcome ← call (StoreAttempts.complete_attempt_with_result s n wo
      (su_task_id sub) bd (encode env) now); match outcome with
     | StoreAttempts.NotRunnable _ => raise (problem 409 "not-runnable" "the attempt cannot complete from its current state")
     | _ => mret (IJson.obj [("completed", JBool true); ("task_id", JStr (su_task_id sub)); ("work_order_id", JStr wo);
         ("bundle_digest", JStr bd); ("outputs", JInt (Z.of_nat (length (su_outputs sub))))])
     end) d1 = (Err p, d')) as (d1 & Hd1 & H1).
  { destruct (bool_decide _); [by exists d|]. destruct (stage_run nonces (su_task_id sub) now (su_outputs sub) 0 d) as (d1 & E & _).
    rewrite E in Ho. exists d1. rewrite (hbind_run _ _ _ _ _ E) in H. split; [by apply Ho|done]. }
  rewrite <- Hd1. clear H Ho. unfold mbind, H_bind, call, exec in H1.
  destruct (StoreAttempts.complete_attempt_with_result _ _ _ _ _ _ _ d1) as [[[| |x] d2]|] eqn:Ec; try done; [|by injection H1 as _ <-].
  apply StoreAttempts.complete_effect in Ec as (r & st' & _ & _ & (_ & _ & _ & _ & ->)). by injection H1 as _ <-.
Qed.

(** C15. A worker's result is taken only inside its grant: a submission that is
    accepted passed the output gate of the Task's issued work order and the contract's slots,
    and its outputs have distinct ids. Then the attempt is succeeded, with the signed
    manifest over exactly those outputs stored beside its bundle digest, and every output has
    a row; if the attempt had completed before, the store is untouched. A refused submission
    completes nothing. *)
Theorem submission_gated nonces n key sub now d r d' :
  submit_result nonces n key sub now d = (r, d') ->
  match r with
  | Err _ => attempts_db d' = attempts_db d
  | Ok _ => exists head parsed wo issued st m bd env, submittable sub key d head parsed wo issued st m bd env /\
      if decide (st = Some Attempt.Succeeded) then d' = d
      else StoreAttempts.attempt_state wo d' = Ok (Some Attempt.Succeeded, d') /\
        StoreAttempts.tbl_results d' !! wo
          = Some (mkResultRow (su_task_id sub) bd (seal s StoreAttempts.RESULT_MANIFEST_CONTEXT n (encode env)) now) /\
        forall o, o ∈ su_outputs sub -> is_Some (StoreRequester.tbl_outputs d' !! (su_task_id sub, ro_artifact_id o))
  end.
Proof.
  destruct r as [v|p].
  - intros (head & parsed & wo & issued & st & m & bd & env & Hs & H)%submit_completed.
    exists head, parsed, wo, issued, st, m, bd, env. split; [done|]. destruct (decide _); [done|].
    destruct H as (row & Hrow & Hdb & Ht & _). split_and!.
    + eapply StoreAttempts.attempt_state_run; [unfold StoreAttempts.tbl_attempts; rewrite Hdb; apply lookup_insert_eq|done].
    + unfold StoreAttempts.tbl_results. rewrite Hdb. apply lookup_insert_eq.
    + intros o Ho. rewrite Ht. by apply staged_present.
  - apply submit_refused.
Qed.

(** ** From the performer's submission to the requester's acceptance *)

(** The parts a delivery carries besides the manifest. *)
Definition delivered_of (job : DeliveryJob) : list DeliveredOutput :=
  (fun o => mkDelivered (StoreRequester.artifact_id o) (StoreRequester.o_payload o)) <$> j_outputs job.

(** What a prepared delivery read. *)
Lemma prepare_Ok t d job d' :
  prepare_delivery t d = (Ok job, d') ->
  exists head parsed wo bd root peer, d' = d /\ Daemon.locked_head t d = (Ok head, d) /\
    Daemon.load_contract s (h_digest head) d = (Ok parsed, d) /\ StoreAttempts.attempt_for_task t d = Ok (Some wo, d) /\
    StoreAttempts.result_manifest s wo d = Ok (Some (bd, manifest_envelope job), d) /\
    StoreContracts.origin_root t d = Ok (Some root, d) /\ root <> "" /\ StorePeers.get_peer_by_root s root d = Ok (Some peer, d) /\
    Lifecycle.agent_id (StorePeers.identity peer) = agent (requester (contract parsed)) /\
    StorePeers.peer_status_by_root root d = Ok (Some Lifecycle.Active, d) /\
    StoreRequester.list_task_outputs s t d = Ok (j_outputs job, d) /\
    recipient_endpoint job = Lifecycle.endpoint_id (StorePeers.identity peer) /\
    recipient_fingerprint job = Lifecycle.fp_value (Lifecycle.tls_cert (StorePeers.identity peer)).
Proof.
  unfold prepare_delivery. intros (head & Hh & H)%hread_Ok; [|apply _]. apply hread_Ok in H as (parsed & Hp & H); [|apply _].
  cbv zeta in H. apply hread_Ok in H as (wo0 & Hw%call_Ok & H); [|apply _]. apply hread_Ok in H as (wo & [-> _]%require_Ok & H); [|apply _].
  apply hread_Ok in H as (r0 & Hr%call_Ok & H); [|apply _]. apply hread_Ok in H as ([bd e] & [-> _]%require_Ok & H); [|apply _].
  apply hread_Ok in H as (origin & Ho%call_Ok & H); [|apply _]. apply hread_Ok in H as (rt & [Hrt _]%require_Ok & H); [|apply _].
  apply hread_Ok in H as (found & Hf%call_Ok & H); [|apply _]. apply hread_Ok in H as (peer & [Hpe _]%require_Ok & H); [|apply _].
  apply hread_Ok in H as (status & Hs%call_Ok & H); [|apply _]. destruct (decide _) as [|Hact%dec_stable] in H; [done|].
  apply hread_Ok in H as (ctx & _ & H); [|apply _]. apply hread_Ok in H as (outs & Hl%call_Ok & [-> ->]%mret_Ok); [|apply _].
  destruct origin as [r|]; [|done]. cbn in Hrt. destruct (decide (r = "")) as [|Hne]; [done|]. injection Hrt as ->.
  destruct found as [q|]; [|done]. cbn in Hpe. destruct (decide _) as [Hag|] in Hpe; [|done]. injection Hpe as ->. subst status.
  exists head, parsed, wo, bd, rt, peer. by split_and!.
Qed.

(** A result leaves only for the requester's own pinned endpoint: delivery is
    prepared for a completed Task only, its recipient is the endpoint and the certificate
    pinned for the root the proposal came from, that root is an active peer under the
    contract's requester name, and what leaves is the stored manifest and the Task's stored
    outputs. *)
Theorem delivery_to_origin t d job d' :
  prepare_delivery t d = (Ok job, d') ->
  exists wo bd root peer, d' = d /\ StoreAttempts.attempt_for_task t d = Ok (Some wo, d) /\
    StoreAttempts.result_manifest s wo d = Ok (Some (bd, manifest_envelope job), d) /\
    StoreContracts.origin_root t d = Ok (Some root, d) /\ root <> "" /\
    StorePeers.get_peer_by_root s root d = Ok (Some peer, d) /\
    StorePeers.peer_status_by_root root d = Ok (Some Lifecycle.Active, d) /\
    recipient_endpoint job = Lifecycle.endpoint_id (StorePeers.identity peer) /\
    recipient_fingerprint job = Lifecycle.fp_value (Lifecycle.tls_cert (StorePeers.identity peer)) /\
    StoreRequester.list_task_outputs s t d = Ok (j_outputs job, d).
Proof.
  intros (head & parsed & wo & bd & rt & peer & -> & _ & _ & Hw & Hr & Ho & Hne & Hp & _ & Hs & Hl & He & Hf)%prepare_Ok.
  by exists wo, bd, rt, peer.
Qed.

Lemma rows_where_NoDup `{Countable K} {V} (p : K -> V -> bool) (m : gmap K V) : NoDup (rows_where p m).
Proof. unfold rows_where. apply NoDup_ListNoDup, List.NoDup_filter, NoDup_ListNoDup, NoDup_map_to_list. Qed.

(** The outputs a Task's listing gives. *)
Lemma list_outputs_spec t d l :
  StoreRequester.list_task_outputs s t d = Ok (l, d) ->
  NoDup (StoreRequester.artifact_id <$> l) /\
  forall o, o ∈ l <-> exists row, StoreRequester.tbl_outputs d !! (t, StoreRequester.artifact_id o) = Some row /\
    StoreRequester.open_output s (t, StoreRequester.artifact_id o, row) = Ok o.
Proof.
  unfold StoreRequester.list_task_outputs. rewrite bind_gets. unfold lift.
  set (rows := StoreRequester.order_by _ _). destruct (StoreContracts.collect _ rows) as [l'|] eqn:Hc; [|done]. intros [= <-].
  assert (Forall2 (fun kv o => StoreRequester.open_output s kv = Ok o) rows l') as Hf.
  { clearbody rows. revert l' Hc. induction rows as [|kv rows IH]; intros l' Hc; cbn in Hc.
    - injection Hc as <-. constructor.
    - destruct (StoreRequester.open_output s kv) eqn:E1; [|done]. cbn in Hc. destruct (StoreContracts.collect _ rows) eqn:E2; [|done].
      injection Hc as <-. constructor; [done|]. by apply IH. }
  assert (forall kv, kv ∈ rows <-> StoreRequester.tbl_outputs d !! kv.1 = Some kv.2 /\ kv.1.1 = t) as Hrows.
  { intros [k r]. subst rows. rewrite StoreRequester.order_by_perm, elem_of_rows_where. cbn. by rewrite bool_decide_eq_true. }
  assert (forall kv o, StoreRequester.open_output s kv = Ok o -> StoreRequester.artifact_id o = kv.1.2) as Hid.
  { intros kv o. unfold StoreRequester.open_output. cbn. destruct (open_col _ _ _); cbn; [by intros [= <-]|done]. }
  assert (NoDup rows) as Hnd by (subst rows; rewrite StoreRequester.order_by_perm; apply rows_where_NoDup).
  split.
  - assert (StoreRequester.artifact_id <$> l' = (fun kv => kv.1.2) <$> rows) as ->.
    { clear -Hf Hid. induction Hf as [|kv o rows l' Ho _ IH]; [done|]. cbn. by rewrite (Hid _ _ Ho), IH. }
    apply NoDup_fmap_2_strong; [|done]. intros [[k1 k2] r] [[k1' k2'] r'] [H1 H2]%Hrows [H1' H2']%Hrows Heq.
    cbn in *. subst. congruence.
  - intros o. split.
    + intros [i Hi]%list_elem_of_lookup_1. destruct (Forall2_lookup_r _ _ _ _ _ Hf Hi) as ([[k1 k2] r] & Hr & Ho).
      apply list_elem_of_lookup_2, Hrows in Hr as [Hr Ht]. cbn in *. subst k1. exists r. by rewrite (Hid _ _ Ho).
    + intros (row & Hrow & Ho). assert ((t, StoreRequester.artifact_id o, row) ∈ rows) as [i Hi]%list_elem_of_lookup_1 by by apply Hrows.
      destruct (Forall2_lookup_l _ _ _ _ _ Hf Hi) as (o' & Ho' & Heq). assert (o' = o) as -> by congruence.
      by eapply list_elem_of_lookup_2.
Qed.

(** Each entry of a manifest with the part that answers it, whatever the order of both. *)
Lemma delivers_imap (outs : list ResultOutput) (m : ResultManifest) (delivered : list DeliveredOutput) :
  Evidence.outputs m ≡ₚ imap entry_of outs -> NoDup (ro_artifact_id <$> outs) ->
  delivered ≡ₚ ((fun o => mkDelivered (ro_artifact_id o) (ro_content o)) <$> outs) -> delivers m delivered.
Proof.
  intros Hm Hn Hd. set (pairs := imap (fun i o => (entry_of i o, mkDelivered (ro_artifact_id o) (ro_content o))) outs).
  assert (imap entry_of outs = pairs.*1) as E1 by (subst pairs; rewrite fmap_imap; by apply imap_ext).
  assert ((fun o => mkDelivered (ro_artifact_id o) (ro_content o)) <$> outs = pairs.*2) as E2.
  { subst pairs. rewrite fmap_imap, <- imap_const. by apply imap_ext. }
  assert (Evidence.artifact_id <$> imap entry_of outs = ro_artifact_id <$> outs) as Eid.
  { rewrite fmap_imap, <- imap_const. by apply imap_ext. }
  split; [by rewrite Hm, Eid|]. rewrite E1 in Hm. rewrite E2 in Hd.
  destruct (Permutation_map_inv _ _ Hm) as (pairs' & -> & Hp). exists pairs'.*2. split; [|by rewrite Hd; apply fmap_Permutation].
  apply Forall2_fmap, Forall_Forall2_diag, Forall_forall. intros [e p] Hin. rewrite <- Hp in Hin.
  apply list_elem_of_lookup_1 in Hin as [i Hi]. subst pairs. rewrite list_lookup_imap in Hi.
  destruct (outs !! i); [|done]. injection Hi as <- <-. done.
Qed.

(** Sealing stays in the cipher's domain: nonces of its length, plaintexts within its limit. *)
Definition sealable (nonces : nat -> bytes) (n : bytes) (env : bytes) (outs : list ResultOutput) : Prop :=
  (forall i, length (nonces i) = Envelope.NONCE_LEN) /\ length n = Envelope.NONCE_LEN /\ (Z.of_nat (length env) <= aead_limit)%Z /\
  forall o, o ∈ outs -> (byte_length o <= aead_limit)%Z.

(** The parts of a delivery prepared after a first submission are the submitted outputs. *)
Lemma delivered_staged nonces sub d1 job tbl :
  StoreRequester.list_task_outputs s (su_task_id sub) d1 = Ok (j_outputs job, d1) ->
  StoreRequester.tbl_outputs d1 = staged_table nonces (su_task_id sub) 0 (su_outputs sub) tbl ->
  (forall id, tbl !! (su_task_id sub, id) = None) -> NoDup (ro_artifact_id <$> su_outputs sub) ->
  (forall i, length (nonces i) = Envelope.NONCE_LEN) -> (forall o, o ∈ su_outputs sub -> (byte_length o <= aead_limit)%Z) ->
  delivered_of job ≡ₚ ((fun o => mkDelivered (ro_artifact_id o) (ro_content o)) <$> su_outputs sub).
Proof.
  intros [Hnd Hl]%list_outputs_spec Ht Hnone Hn Hnon Hlim. unfold delivered_of.
  assert (forall i o, su_outputs sub !! i = Some o ->
    StoreRequester.tbl_outputs d1 !! (su_task_id sub, ro_artifact_id o) = Some (StoreRequester.output_row s (nonces i) (staged_output i o)) /\
    StoreRequester.open_output s (su_task_id sub, ro_artifact_id o, StoreRequester.output_row s (nonces i) (staged_output i o))
      = Ok (staged_output i o)) as Hrow.
  { intros i o Hi. split.
    - rewrite Ht. apply (staged_lookup nonces _ _ 0); [done| |done]. by intros.
    - unfold StoreRequester.open_output. cbn [StoreRequester.output_row to_payload fst snd]. rewrite open_col_seal; [done|done|].
      apply Hlim. by eapply list_elem_of_lookup_2. }
  apply NoDup_Permutation.
  - apply (NoDup_fmap_1 do_artifact_id). rewrite <- list_fmap_compose. exact Hnd.
  - apply (NoDup_fmap_1 do_artifact_id). rewrite <- list_fmap_compose. exact Hn.
  - intros p. rewrite !list_elem_of_fmap. split.
    + intros (o & -> & Ho). apply Hl in Ho as (row & Hr & Hop).
      destruct (decide (StoreRequester.artifact_id o ∈ (ro_artifact_id <$> su_outputs sub))) as [Hin|Hout].
      * apply list_elem_of_fmap in Hin as (o' & Hid & [i Hi]%list_elem_of_lookup_1). destruct (Hrow i o' Hi) as [Hr' Hop'].
        rewrite Hid in Hr, Hop. rewrite Hr' in Hr. injection Hr as <-. rewrite Hop' in Hop. injection Hop as <-.
        exists o'. split; [done|]. by eapply list_elem_of_lookup_2.
      * rewrite Ht, staged_other in Hr by by right. by rewrite Hnone in Hr.
    + intros (o & -> & [i Hi]%list_elem_of_lookup_1). destruct (Hrow i o Hi) as [Hr Hop]. exists (staged_output i o). split; [done|].
      apply Hl. by eexists.
Qed.

(** The result a completed Task delivers is the one it signed. *)
Lemma delivered_result nonces n key sub now d v d1 job :
  submit_result nonces n key sub now d = (Ok v, d1) ->
  (forall wo, StoreAttempts.attempt_for_task (su_task_id sub) d = Ok (Some wo, d) ->
     StoreAttempts.attempt_state wo d <> Ok (Some Attempt.Succeeded, d) /\
     forall id row, StoreAttempts.tbl_attempts d !! id = Some row -> at_task_id row = su_task_id sub -> id = wo) ->
  prepare_delivery (su_task_id sub) d1 = (Ok job, d1) -> length n = Envelope.NONCE_LEN ->
  exists head parsed wo issued st m bd env, submittable sub key d head parsed wo issued st m bd env /\
    StoreRequester.tbl_outputs d1 = staged_table nonces (su_task_id sub) 0 (su_outputs sub) (StoreRequester.tbl_outputs d) /\
    ((Z.of_nat (length (encode env)) <= aead_limit)%Z -> manifest_envelope job = encode env).
Proof.
  intros (head & parsed & wo & issued & st & m & bd & env & Hs & H)%submit_completed Hfresh Hprep Hn.
  exists head, parsed, wo, issued, st, m, bd, env. split; [done|].
  pose proof Hs as (_ & _ & Hwo & _ & Hst & _). destruct (Hfresh wo Hwo) as [Hns Hone].
  rewrite decide_False in H by (intros ->; by apply Hns). destruct H as (row & Hrow & Hdb & Ht & _). split; [done|]. intros Hlim.
  apply prepare_Ok in Hprep as (_ & _ & wo' & bd' & _ & _ & _ & _ & _ & Hwo' & Hman & _).
  assert (wo' = wo) as ->.
  { unfold StoreAttempts.attempt_for_task, gets in Hwo'. injection Hwo' as Hf.
    destruct (first_row _ _) as [[k r]|] eqn:Ef; [|done]. injection Hf as ->.
    apply first_row_Some in Ef as [Hk Htask%bool_decide_eq_true]. unfold StoreAttempts.tbl_attempts in Hk. rewrite Hdb in Hk.
    cbn [attempts upd_attempts upd_results] in Hk. apply lookup_insert_Some in Hk as [[-> _]|[_ Hk]]; [done|].
    by eapply Hone. }
  revert Hman. unfold StoreAttempts.result_manifest. rewrite bind_gets. unfold StoreAttempts.tbl_results. rewrite Hdb.
  cbn [results upd_results upd_attempts]. rewrite lookup_insert_eq. cbn [fmap option_fmap option_map re_bundle_digest re_manifest].
  rewrite open_col_seal, bind_lift by done. by intros [= _ <-].
Qed.

(** The outcome of a valid manifest binds it, and has a digest once it signs. *)
Lemma outcome_settled m bd requester signed_at okey o signed :
  Evidence.bundle_digest m = Ok bd -> Evidence.for_manifest m Evidence.Accepted requester signed_at = Ok o ->
  Evidence.sign_outcome o okey = Ok signed -> exists od, disposition m requester signed_at okey o signed od.
Proof.
  intros Hbd Ho Hs. assert (exists od, Evidence.outcome_digest o = Ok od) as (od & Hod).
  { unfold Evidence.sign_outcome in Hs. unfold Evidence.outcome_digest. destruct (Evidence.outcome_bytes o); [by eexists|done]. }
  exists od. split; [done|]. split; [|done]. unfold Evidence.for_manifest in Ho. rewrite Hbd in Ho. cbn in Ho. injection Ho as <-.
  unfold Evidence.outcome_binds_to. rewrite Hbd. cbn. rewrite decide_False by (intros Hx; by apply Hx).
  rewrite decide_False; [done|]. cbn. naive_solver.
Qed.

(** The write of a first disposition, with room for its outputs. *)
Lemma record_accepted_run nonces n m bd parts signed od signed_at now d :
  NoDup (Evidence.artifact_id <$> Evidence.outputs m) -> Forall2 matches (Evidence.outputs m) parts ->
  (forall id, StoreRequester.tbl_outputs d !! (Evidence.h_task_id (Evidence.header m), id) = None) ->
  StoreRequester.tbl_outcomes d !! Evidence.h_contract_digest (Evidence.header m) = None ->
  exists d' row, record_accepted nonces n m bd parts signed od signed_at now d = Ok (StoreRequester.Recorded, d') /\
    StoreRequester.tbl_outcomes d' !! Evidence.h_contract_digest (Evidence.header m) = Some row /\
    ou_bundle_digest row = bd /\ ou_state row = "accepted".
Proof.
  intros Hn Hf Hnone Hout. unfold record_accepted. set (outs := imap _ _).
  pose proof (StoreRequester.record_run s n (Evidence.h_contract_digest (Evidence.header m))
    (Evidence.h_task_id (Evidence.header m)) bd od "accepted" (encode signed) outs signed_at now d) as Hrun.
  rewrite Hout in Hrun. rewrite decide_True in Hrun.
  - destruct Hrun as (d' & tbl & Hrec & Hreq & _). eexists d', _. split; [done|]. unfold StoreRequester.tbl_outcomes. rewrite Hreq.
    split; [apply lookup_insert_eq|done].
  - split; [|by intros id _]. unfold StoreRequester.output_ids. subst outs.
    assert ((fun no => StoreRequester.artifact_id no.2) <$> imap (fun i x => (nonces i, new_output x)) (matched 0 (Evidence.outputs m) parts)
      = Evidence.artifact_id <$> Evidence.outputs m) as ->; [|done].
    apply list_eq. intros i. rewrite !list_lookup_fmap, list_lookup_imap. unfold matched. rewrite list_lookup_imap.
    destruct (Evidence.outputs m !! i) as [e|] eqn:Ee.
    + destruct (Forall2_lookup_l _ _ _ _ _ Hf Ee) as (p & Hp & _).
      by rewrite (proj2 (lookup_zip_Some _ _ _ _ _) (conj Ee Hp)).
    + assert (zip (Evidence.outputs m) parts !! i = None) as ->; [|done].
      apply lookup_ge_None. rewrite length_zip. apply lookup_ge_None in Ee. lia.
Qed.
End store.

(** C16. Work that was done and signed is accepted: when a performer's store [s1]
    takes a first submission for a Task without staged outputs and prepares its delivery,
    the parts are exactly the outputs of the manifest it signed, and a requester, on a store
    [s2] of its own, that sent this performer the request and has no disposition for it yet
    accepts the delivery and records the manifest's bundle digest. *)
Theorem honest_delivery s1 s2 nonces n key sub now d v d1 job :
  submit_result s1 nonces n key sub now d = (Ok v, d1) ->
  (forall wo, StoreAttempts.attempt_for_task (su_task_id sub) d = Ok (Some wo, d) ->
     StoreAttempts.attempt_state wo d <> Ok (Some Attempt.Succeeded, d) /\
     forall id row, StoreAttempts.tbl_attempts d !! id = Some row -> at_task_id row = su_task_id sub -> id = wo) ->
  (forall id, StoreRequester.tbl_outputs d !! (su_task_id sub, id) = None) ->
  prepare_delivery s1 (su_task_id sub) d1 = (Ok job, d1) ->
  (forall i, length (nonces i) = Envelope.NONCE_LEN) -> length n = Envelope.NONCE_LEN ->
  (forall o, o ∈ su_outputs sub -> (byte_length o <= aead_limit)%Z) ->
  exists m bd env, Evidence.sign_manifest m key = Ok env /\ delivers m (delivered_of job) /\
    ((Z.of_nat (length (encode env)) <= aead_limit)%Z -> decode (manifest_envelope job) = Some env) /\
    ((forall x, Proposal.canonical_bytes (Proposal.to_value m) = Some x -> Evidence.from_slice x = Some (Proposal.to_value m)) ->
     forall nonces' n' requester sender sroot okey signed_at now' d2 sent o signed,
       StoreRequester.get_sent_request (Evidence.h_contract_digest (Evidence.header m)) d2 = Ok (Some sent, d2) ->
       answers sent m sender sroot ->
       StoreRequester.tbl_outcomes d2 !! Evidence.h_contract_digest (Evidence.header m) = None ->
       (forall id, StoreRequester.tbl_outputs d2 !! (su_task_id sub, id) = None) ->
       Evidence.for_manifest m Evidence.Accepted requester signed_at = Ok o -> Evidence.sign_outcome o okey = Ok signed ->
       exists v2 d2' row, finalize_result s2 nonces' n' requester sender sroot okey (Keys.verifying key) env (delivered_of job)
           signed_at now' d2 = (Ok v2, d2') /\
         StoreRequester.tbl_outcomes d2' !! Evidence.h_contract_digest (Evidence.header m) = Some row /\
         ou_bundle_digest row = bd /\ ou_state row = "accepted").
Proof.
  intros Hsub Hfresh Hnone Hprep Hnon Hn Hlim.
  destruct (delivered_result _ _ _ _ _ _ _ _ _ _ Hsub Hfresh Hprep Hn) as (head & parsed & wo & issued & st & m & bd & env & Hs & Ht & Henv).
  destruct Hs as (_ & _ & _ & _ & _ & _ & _ & Hnd & (ctx & Hm) & Hbd & Hsig). exists m, bd, env. split; [done|].
  assert (delivers m (delivered_of job)) as Hdel.
  { apply (delivers_imap (su_outputs sub)); [subst m; apply Evidence.sort_by_perm|done|].
    apply prepare_Ok in Hprep as (_ & _ & _ & _ & _ & _ & _ & _ & _ & _ & _ & _ & _ & _ & _ & _ & Hl & _).
    by eapply (delivered_staged s1). }
  split; [done|]. split; [intros Hel; rewrite (Henv Hel); apply decode_encode|].
  intros Hread nonces' n' requester sender sroot okey signed_at now' d2 sent o signed Hsent Hans Hout Houts Ho Hsgn.
  destruct Hdel as (Hids & parts & Hf & Hp).
  destruct (outcome_settled m bd requester signed_at okey o signed Hbd Ho Hsgn) as (od & Hdisp).
  assert (acceptable requester sender sroot okey (Keys.verifying key) env (delivered_of job) signed_at d2 m bd parts o signed od) as Hacc.
  { split; [by apply Evidence.signed_manifest_verifies|]. split; [by exists sent|]. by split_and!. }
  assert (Evidence.h_task_id (Evidence.header m) = su_task_id sub) as Htask by by subst m.
  destruct (record_accepted_run s2 nonces' n' m bd parts signed od signed_at now' d2) as (d2' & row & Hrec & Hrow & Hb & Hst);
    [done|done|by rewrite Htask|done|].
  destruct (finalize_run s2 nonces' n' requester sender sroot okey _ _ _ _ now' d2 m bd parts o signed od _ d2' Hacc Hrec) as (v2 & Hfin).
  by exists v2, d2', row.
Qed.
End results.

(** ** Witnesses: Bob's worker answers Alice's Task, and Alice accepts *)

Definition ToyTexts : ErrorText := {| gate_text := fun _ => ""; slot_text := fun _ => ""; manifest_text := fun _ => "" |}.

#[local] Existing Instances ToyHashes ToyHex ToyAead ToyEd25519 ToyBase64 ToyBase64Url ToyVariants ToyJwkText ToySchemas ToySyntax
  Evidence.ToySlice Daemon.ToyContracts ToyTexts.
#[local] Instance sample_canon : Canon Json := ToyCanon Json.
#[local] Instance sample_manifests : ToValue ResultManifest := Proposal.ToyToValue ResultManifest.
#[local] Instance sample_outcomes : ToValue Outcome := Proposal.ToyToValue Outcome.
#[local] Instance sample_peers : Codec StorePeers.StoredPeer := ToyCodec StorePeers.StoredPeer.
#[local] Instance sample_orders : Canon WorkOrder.WorkOrder := ToyCanon WorkOrder.WorkOrder.
#[local] Instance sample_issued : Codec WorkOrder.IssuedWorkOrder := ToyCodec WorkOrder.IssuedWorkOrder.
#[local] Instance sample_envelopes : Codec Dsse.Envelope := ToyCodec Dsse.Envelope.

Definition performer_db : Db := Daemon.issue_sample.2.

Definition sample_submission : ResultSubmission :=
  mkSubmission "t1" [mkResultOutput "response" "r1" KResponse "request-origin" "text/plain" (as_bytes "hello")] [] [].

Definition submit_sample : result Problem Json * Db :=
  submit_result StorePeers.sample_store (fun _ => StorePeers.sample_nonce) StorePeers.sample_nonce Evidence.sample_result_key
    sample_submission 40 performer_db.

Definition deliver_sample : result Problem DeliveryJob * Db := prepare_delivery StorePeers.sample_store "t1" submit_sample.2.

Definition no_job : DeliveryJob := mkJob "" "" "" [] [] "" "".

Definition sample_job : DeliveryJob := match deliver_sample.1 with Ok j => j | Err _ => no_job end.

Definition sample_envelope : Dsse.Envelope := default (Dsse.mkEnvelope "" "" []) (decode (manifest_envelope sample_job)).

Definition requester_db_sample : Db :=
  (exec (StoreRequester.put_sent_request (StoreRequester.mkSentRequest (hex_digest Daemon.sample_payload) "t1" "" "root-b" "c1" "bob"
    "iss" "m1") 15) empty_db).2.

Definition finalize_sample : result Problem Json * Db :=
  finalize_result StorePeers.sample_store (fun _ => StorePeers.sample_nonce) StorePeers.sample_nonce
    (mkIdentity "iss" "alice" "root-a") Daemon.sample_bob "root-b" (Keys.from_seed Lifecycle.RequesterOutcome (as_bytes "alice"))
    (Keys.verifying Evidence.sample_result_key) sample_envelope (delivered_of sample_job) "now" 50 requester_db_sample.

Lemma submit_sample_ok : exists v d', submit_sample = (Ok v, d').
Proof. apply Daemon.answered. vm_compute. reflexivity. Qed.

Lemma job_of s t d :
  is_ok (prepare_delivery s t d).1 = true ->
  prepare_delivery s t d = (Ok (match (prepare_delivery s t d).1 with Ok j => j | Err _ => no_job end), d).
Proof.
  destruct (prepare_delivery s t d) as [[j|p] d'] eqn:E; [|done]. intros _.
  by apply prepare_Ok in E as (_ & _ & _ & _ & _ & _ & -> & _).
Qed.

Lemma deliver_sample_ok : deliver_sample = (Ok sample_job, submit_sample.2).
Proof. exact (job_of StorePeers.sample_store "t1" submit_sample.2 ltac:(vm_compute; reflexivity)). Qed.

Lemma finalize_sample_ok : exists v d', finalize_sample = (Ok v, d').
Proof. apply Daemon.answered. vm_compute. reflexivity. Qed.

Lemma result_disposition_witness : exists v d' m bd, finalize_sample = (Ok v, d') /\
  Evidence.verify_manifest sample_envelope (Keys.verifying Evidence.sample_result_key) = Ok (m, bd) /\
  delivers m (delivered_of sample_job).
Proof.
  destruct finalize_sample_ok as (v & d' & E). unfold finalize_sample in E |- *.
  destruct (result_disposition StorePeers.sample_store (fun _ => StorePeers.sample_nonce) StorePeers.sample_nonce
    (mkIdentity "iss" "alice" "root-a") Daemon.sample_bob "root-b" (Keys.from_seed Lifecycle.RequesterOutcome (as_bytes "alice"))
    (Keys.verifying Evidence.sample_result_key) sample_envelope (delivered_of sample_job) "now" 50 requester_db_sample (Ok v) d' E)
    as (m & bd & sent & Hv & _ & _ & Hd & _).
  exists v, d', m, bd. exact (conj E (conj Hv Hd)).
Defined.

Lemma submission_gated_witness : exists v d' head parsed wo issued st m bd env, submit_sample = (Ok v, d') /\
  submittable StorePeers.sample_store sample_submission Evidence.sample_result_key performer_db head parsed wo issued st m bd env.
Proof.
  destruct submit_sample_ok as (v & d' & E). unfold submit_sample in E |- *.
  destruct (submission_gated StorePeers.sample_store (fun _ => StorePeers.sample_nonce) StorePeers.sample_nonce
    Evidence.sample_result_key sample_submission 40 performer_db (Ok v) d' E) as (head & parsed & wo & issued & st & m & bd & env & Hs & _).
  exists v, d', head, parsed, wo, issued, st, m, bd, env. exact (conj E Hs).
Defined.

Lemma delivery_to_origin_witness : exists root peer, StoreContracts.origin_root "t1" submit_sample.2 = Ok (Some root, submit_sample.2) /\
  recipient_endpoint sample_job = Lifecycle.endpoint_id (StorePeers.identity peer).
Proof.
  destruct (delivery_to_origin StorePeers.sample_store "t1" submit_sample.2 sample_job submit_sample.2 deliver_sample_ok)
    as (wo & bd & root & peer & _ & _ & _ & Ho & _ & _ & _ & He & _). exists root, peer. exact (conj Ho He).
Defined.

Lemma performer_attempts : exists wo row, StoreAttempts.tbl_attempts performer_db = {[ wo := row ]} /\ at_state row = "claimed".
Proof.
  assert (exists wo row, map_to_list (StoreAttempts.tbl_attempts performer_db) = [(wo, row)] /\ at_state row = "claimed") as (wo & row & Hl & Hs).
  { eexists _, _. split; vm_compute; reflexivity. }
  exists wo, row. split; [|done]. rewrite <- (list_to_map_to_list (StoreAttempts.tbl_attempts performer_db)), Hl. apply insert_empty.
Qed.

Lemma one_attempt t d w row :
  StoreAttempts.tbl_attempts d = {[ w := row ]} -> at_state row = "claimed" -> forall wo,
  StoreAttempts.attempt_for_task t d = Ok (Some wo, d) ->
  StoreAttempts.attempt_state wo d <> Ok (Some Attempt.Succeeded, d) /\
  forall id r, StoreAttempts.tbl_attempts d !! id = Some r -> at_task_id r = t -> id = wo.
Proof.
  intros Ht Hst wo Hwo.
  assert (wo = w) as ->.
  { unfold StoreAttempts.attempt_for_task, gets in Hwo. injection Hwo as Hf. rewrite Ht in Hf.
    destruct (first_row _ _) as [[k r]|] eqn:Ef; [|done]. injection Hf as <-. apply first_row_Some in Ef as [Hk _].
    by apply lookup_singleton_Some in Hk as [-> _]. }
  split.
  - intros [_ (r & Hr & Hs)]%StoreAttempts.attempt_state_Ok. rewrite Ht in Hr. apply lookup_singleton_Some in Hr as [_ <-].
    by rewrite Hst in Hs.
  - intros id r Hr _. rewrite Ht in Hr. by apply lookup_singleton_Some in Hr as [-> _].
Qed.

Lemma no_outputs (d : Db) t :
  map_to_list (StoreRequester.tbl_outputs d) = [] -> forall id, StoreRequester.tbl_outputs d !! (t, id) = None.
Proof. intros Hl%map_to_list_empty_iff id. rewrite Hl. apply lookup_empty. Qed.

Lemma performer_no_outputs : map_to_list (StoreRequester.tbl_outputs performer_db) = [].
Proof. vm_compute. reflexivity. Qed.

Lemma honest_delivery_witness : exists m env, Evidence.sign_manifest m Evidence.sample_result_key = Ok env /\
  delivers m (delivered_of sample_job).
Proof.
  destruct performer_attempts as (w & row & Ht & Hst). destruct submit_sample_ok as (v & d1 & E).
  pose proof deliver_sample_ok as Ed. unfold deliver_sample in Ed. rewrite E in Ed. cbn [snd] in Ed. unfold submit_sample in E.
  destruct (honest_delivery StorePeers.sample_store StorePeers.sample_store (fun _ => StorePeers.sample_nonce) StorePeers.sample_nonce
    Evidence.sample_result_key sample_submission 40 performer_db v d1 sample_job E (one_attempt "t1" performer_db w row Ht Hst)
    (no_outputs performer_db "t1" performer_no_outputs) Ed (fun i => eq_refl) eq_refl) as (m & bd & env & Hs & Hd & _).
  - intros o Ho. apply list_elem_of_singleton in Ho as ->. vm_compute. discriminate.
  - exists m, env. exact (conj Hs Hd).
Defined.
End Results.
