(* ===== verification/Receive.v ===== *)
(** The receive path of the daemon: the ingress gates (akson-transport/src/ingress.rs), the
    dispatch of a proposal (aksond/src/receive.rs) and the HTTP handler that tells proposals,
    results and coordination dispatches apart (aksond/src/receive_http.rs).

    The handlers run on the database and fail with the store's error. The generated protobuf
    types and their JSON forms are parameters, and so are the texts of the errors a refusal
    quotes. The caller holds the store's lock, so nothing comes between the calls of one
    request. *)
From S2P Require Import Prelude Text Crypto Sign Envelope AuditLog Lifecycle Keys Json IJson Dsse Contract Proposal Profile.
From S2P Require Import Introduction Evidence Inert Chars Toy Delivery Broker WorkOrder Control Db Handler Readers StoreMeta StorePeers.
From S2P Require Import Introduce StoreInbox StoreContracts StoreAttempts StoreRequester StoreCalls StoreCoord StoreReach.
From S2P Require Import CoordEgress Coord Daemon Results.

Module Receive.
Import Json.
Import Handler.
Import (hints) StoreReach.
Import Contract.
Import Control (Problem, mkProblem).
Import Proposal (Part, Rfc3339, FromValue, ToValue, ReceivedProposal, r_proposal, r_inputs, ProtoValue, to_json, CData, CRaw).
Import Delivery (CoveredValues, mkCovered, DeliveryError).
Import CoordEgress (ReceivedDispatch, rd_staged_digest, rd_payload_sha256, rd_task_type, rd_sender_root, rd_consent_receipt,
  rd_byte_length).

(** ** Ingress (ingress.rs) *)

Definition A2A_MEDIA_TYPE : string := "application/a2a+json".
Definition PROBLEM_MEDIA_TYPE : string := "application/problem+json".

Record Ingress := mkIngress {
  ig_peer : string; ig_method : string; ig_content_type : string; ig_a2a_version : option string;
  ig_content_digest : option string; ig_activated : list string; ig_interface_url : string; ig_tenant : option string;
  ig_message_id : string; ig_body : bytes }.

Inductive Reject :=
| UnsupportedMediaType | BadA2aVersion (v : string) | ContentDigest (e : DeliveryError)
| MissingRequiredExtensions (l : list string).

Inductive Admit :=
| AAccept (covered : CoveredValues)
| ADuplicate (task_id : option string) (response : bytes) (response_class : string)
| AConflict
| ARejected (r : Reject).

(** [eq_ignore_ascii_case]. *)
Definition eq_ignore_case (a b : bytes) : bool := bool_decide (Inert.to_ascii_lowercase a = Inert.to_ascii_lowercase b).

Definition media_type_matches (header expected : string) : bool :=
  eq_ignore_case (Inert.trim (Inert.before ";"%char (as_bytes header))) (as_bytes expected).

Section ingress.
Context {HS : Hashes} {B64 : Base64} {AE : Aead} {CC : Codec CoveredValues}.

Definition covered_of (req : Ingress) : CoveredValues :=
  Delivery.normalized (mkCovered (ig_peer req) (ig_message_id req) (Delivery.body_digest (ig_body req)) (ig_interface_url req)
    (ig_tenant req) (default Profile.A2A_VERSION (ig_a2a_version req)) (ig_activated req) (ig_content_type req) (ig_method req)).

(** The gates before the store is read. *)
Definition gates (required_extensions : list string) (req : Ingress) : result Reject () :=
  if negb (media_type_matches (ig_content_type req) A2A_MEDIA_TYPE) then Err UnsupportedMediaType else
  if negb (match ig_a2a_version req with Some v => is_ok (Profile.validate_a2a_version v) | None => false end)
  then Err (BadA2aVersion (default "" (ig_a2a_version req))) else
  _ ← Proposal.lift_err ContentDigest (Delivery.verify_content_digest (default "" (ig_content_digest req)) (ig_body req));
  match List.filter (fun r => negb (bool_decide (r ∈ ig_activated req))) required_extensions with
  | [] => Ok ()
  | missing => Err (MissingRequiredExtensions missing)
  end.

Definition admit_request (s : Store) (required_extensions : list string) (req : Ingress) : HM StoreError Admit :=
  match gates required_extensions req with
  | Err r => mret (ARejected r)
  | Ok _ =>
      let covered := covered_of req in
      receipt ← run (StoreInbox.peek s covered);
      mret (match receipt with
            | StoreInbox.Fresh => AAccept covered
            | StoreInbox.Duplicate task response class => ADuplicate task response class
            | StoreInbox.Conflict => AConflict
            end)
  end.
End ingress.

(** ** The dispatch of a proposal (receive.rs) *)

Inductive DispatchOutcome :=
| Submitted (task_id : string) | Duplicate (task_id : option string) | Conflict | Rejected (reason : string).

Record Dispatched := mkDispatched { outcome : DispatchOutcome; response : bytes }.

(** The JSON form of the generated [Task] in [TASK_STATE_SUBMITTED], with an id and a
    context, and [to_string] of the errors of a rejection. *)
Class ReceiveText := {
  submitted_task_json : string -> string -> bytes;
  receive_error_text : Proposal.ReceiveError -> string;
  timestamp_error_text : Proposal.TimestampError -> string;
}.

(** The fresh nonces of one request's seals. *)
Record Seals := mkSeals {
  sl_contract : bytes; sl_input : nat -> bytes; sl_body : bytes; sl_response : bytes; sl_event : bytes;
  sl_output : nat -> bytes; sl_outcome : bytes }.

Record HttpResponse := mkHttp { status : Z; content_type : string; body : bytes }.

Record ReceiveConfig := mkReceiveConfig {
  local_performer : Identity; requester_origin : Identity; proposal_key : Keys.PurposeVerifyingKey;
  required_extensions : list string; interface_url : string; outcome_key : option Keys.PurposeKey;
  performer_task_result_key : option Keys.PurposeVerifyingKey }.

Record HttpRequest := mkHttpRequest {
  method : string; req_content_type : string; a2a_version : option string; content_digest : option string;
  activated_extensions : list string; tenant : option string; peer : string; req_body : bytes }.

(** A store call whose result is dropped: [let _ = ..]. *)
Definition ignore {E A} (m : M A) : HM E () := fun d => (Ok (), (exec m d).2).

Definition COORD_EVENT_RECEIVED : string := "dispatch_received".
Definition COORD_EVENT_REFUSED : string := "dispatch_refused".
Definition COORD_REFUSED_CLASS : string := "coordination-refused".

Section receive.
Context {HS : Hashes} {HX : Hex} {AE : Aead} {ED : Ed25519} {B64 : Base64} {BU : Keys.Base64Url} {BV : Dsse.Base64Variants}
  {JT : Keys.JwkText} {CN : Canon Json} {SX : IJson.JsonSyntax} {SV : Dsse.Schemas} {FC : FromValue Contract}
  {FE : FromValue Dsse.Envelope} {TM : Rfc3339} {TT : Daemon.TimeText} {FS : Evidence.FromSlice}
  {TR : ToValue Evidence.ResultManifest} {TO : ToValue Evidence.Outcome} {CE : Codec Dsse.Envelope}
  {CC : Codec CoveredValues} {CJ : Codec Json} {CB : Codec Problem} {RT : ReceiveText}
  {V : Type} {PV : ProtoValue V} {ST : CoordEgress.SendText V}.
Context (s : Store).

Definition reject_json (reason : string) : bytes := encode (IJson.obj [("state", JStr "rejected"); ("reason", JStr reason)]).
Definition conflict_json : bytes := encode (IJson.obj [("state", JStr "conflict")]).

(** The Part of a manifest entry. *)
Definition entry_part (received : ReceivedProposal) (e : InputEntry) : option Proposal.InputPart :=
  List.find (fun p => bool_decide (Proposal.part_coords p = Proposal.entry_coords e)) (r_inputs received).

(** The loop over the manifest, from ordinal [i]. *)
Fixpoint persist_inputs (seal : nat -> bytes) (task_id : string) (received : ReceivedProposal) (now : Z) (i : nat)
  (entries : list InputEntry) : HM StoreError () :=
  match entries with
  | [] => mret ()
  | e :: entries =>
      _ ← match (if in_worker_visible e then p ← entry_part received e; Proposal.part_bytes (Proposal.ip_body p) else None) with
          | Some b => run (StoreRequester.put_task_input s (seal i) task_id
                             (StoreRequester.mkTaskInput (in_id e) (as_i64 (Z.of_nat i)) (in_media_type e)
                                (as_i64 (in_byte_length e)) (in_sha256 e) b) now)
          | None => mret ()
          end;
      persist_inputs seal task_id received now (S i) entries
  end.

Definition persist_worker_inputs (seal : nat -> bytes) (task_id : string) (received : ReceivedProposal) (now : Z) : HM StoreError () :=
  persist_inputs seal task_id received now 0 (inputs (contract (r_proposal received))).

Definition reject (n : Seals) (covered : CoveredValues) (body : bytes) (now : Z) (reason : string) : HM StoreError Dispatched :=
  let response := reject_json reason in
  _ ← run (StoreInbox.receive_request s (sl_body n) (sl_response n) covered body response None "rejected" now);
  mret (mkDispatched (Rejected reason) response).

(** The digest is hexadecimal and longer than the slice. *)
Definition task_id_of (p : ParsedContract) : string := "task-" +:+ String.substring 0 32 (digest p).

Definition dispatch_proposal (n : Seals) (covered : CoveredValues) (parts : list (Part V)) (context_id : string)
  (proposal_key : Keys.PurposeVerifyingKey) (requester_origin local_performer : Identity) (body : bytes)
  (trusted_now_unix : Z) : HM StoreError Dispatched :=
  receipt ← run (StoreInbox.peek s covered);
  match receipt with
  | StoreInbox.Duplicate task_id response _ => mret (mkDispatched (Duplicate task_id) response)
  | StoreInbox.Conflict => mret (mkDispatched Conflict conflict_json)
  | StoreInbox.Fresh =>
      match Proposal.receive_proposal (Delivery.message_id covered) parts proposal_key requester_origin local_performer
              trusted_now_unix with
      | Err e => reject n covered body trusted_now_unix (receive_error_text e)
      | Ok received =>
          let task_id := task_id_of (r_proposal received) in
          match Proposal.expires_at_unix (contract (r_proposal received)) with
          | Err e => reject n covered body trusted_now_unix (timestamp_error_text e)
          | Ok expires =>
              _ ← run (StoreContracts.submit_revision s (sl_contract n) task_id (r_proposal received) (Delivery.peer covered)
                         expires trusted_now_unix);
              _ ← run (StoreContracts.set_task_context task_id context_id);
              _ ← persist_worker_inputs (sl_input n) task_id received trusted_now_unix;
              let response := submitted_task_json task_id context_id in
              _ ← run (StoreInbox.receive_request s (sl_body n) (sl_response n) covered body response (Some task_id) "task"
                         trusted_now_unix);
              mret (mkDispatched (Submitted task_id) response)
          end
      end
  end.

(** ** The HTTP handler (receive_http.rs) *)

Definition problem (status : Z) (kind title : string) : HttpResponse :=
  mkHttp status PROBLEM_MEDIA_TYPE (encode (Control.problem status kind title)).

Definition content_type_for (status : Z) : string := if (status <? 400)%Z then A2A_MEDIA_TYPE else PROBLEM_MEDIA_TYPE.

Definition a2a_ok (body : bytes) : HttpResponse := mkHttp 200 A2A_MEDIA_TYPE body.

Definition replay (response : bytes) (response_class : string) : HttpResponse :=
  if decide (response_class = COORD_REFUSED_CLASS) then mkHttp 422 PROBLEM_MEDIA_TYPE response else a2a_ok response.

Definition reject_to_http (r : Reject) : HttpResponse :=
  match r with
  | UnsupportedMediaType => problem 415 "ingress-rejected" "unsupported media type"
  | BadA2aVersion _ => problem 400 "ingress-rejected" "unsupported or missing A2A-Version"
  | ContentDigest _ => problem 400 "ingress-rejected" "content-digest missing or does not match the body"
  | MissingRequiredExtensions _ => problem 400 "ingress-rejected" "a required extension was not activated"
  end.

Definition part_envelope (p : Part V) : option Dsse.Envelope :=
  if decide (Proposal.media_type p <> Dsse.DSSE_ENVELOPE_MEDIA_TYPE) then None else
  match Proposal.content p with
  | Some (CData data) => value ← to_json data; Proposal.from_value value
  | _ => None
  end.

Definition result_manifest_envelope (parts : list (Part V)) : option Dsse.Envelope :=
  List.find (fun env => bool_decide (Dsse.payload_type env = Dsse.schema_media_type Dsse.ResultManifestV1)) (omap part_envelope parts).

Definition delivered_outputs (parts : list (Part V)) : list Results.DeliveredOutput :=
  omap (fun p => match Proposal.content p with
                 | Some (CRaw b) => Some (Results.mkDelivered (Proposal.filename p) b)
                 | _ => None
                 end) parts.

Definition coord_received_detail (r : ReceivedDispatch) : Json :=
  IJson.obj [("staged_digest", JStr (rd_staged_digest r)); ("payload_sha256", JStr (rd_payload_sha256 r));
    ("task_type", JStr (rd_task_type r)); ("sender_root", JStr (rd_sender_root r));
    ("consent_receipt", JStr (rd_consent_receipt r)); ("byte_length", JInt (rd_byte_length r))].

Definition coord_refusal : HttpResponse := problem 422 "coordination-refused" "the coordination envelope was not admitted".

Definition handle_coord_dispatch (n : Seals) (config : ReceiveConfig) (req : HttpRequest) (covered : CoveredValues)
  (envelope : Json) (parts : list (Part V)) (now : Z) : HM StoreError HttpResponse :=
  match CoordEgress.verify envelope parts (peer req) (root (local_performer config)) with
  | Err reject =>
      first_sight ← run (StoreInbox.receive_request s (sl_body n) (sl_response n) covered (req_body req) (body coord_refusal) None
                           COORD_REFUSED_CLASS now);
      match first_sight with
      | StoreInbox.Fresh =>
          _ ← ignore (StoreCoord.append_coord_event s (sl_event n) COORD_EVENT_REFUSED None
                 (IJson.obj [("sender_root", JStr (peer req)); ("reason", JStr (CoordEgress.reason reject))]) now);
          mret coord_refusal
      | _ => mret coord_refusal
      end
  | Ok received =>
      let response := encode (CoordEgress.acknowledgement received (root (local_performer config)) now) in
      _ ← run (StoreCoord.append_coord_event s (sl_event n) COORD_EVENT_RECEIVED None (coord_received_detail received) now);
      _ ← run (StoreInbox.receive_request s (sl_body n) (sl_response n) covered (req_body req) response None "coordination" now);
      mret (a2a_ok response)
  end.

Definition handle_result (n : Seals) (config : ReceiveConfig) (sender_root : string) (envelope : Dsse.Envelope)
  (delivered : list Results.DeliveredOutput) (now : Z) : HM StoreError HttpResponse := fun d =>
  match outcome_key config, performer_task_result_key config with
  | Some outcome_key, Some task_result_key =>
      match Daemon.format_rfc3339 now with
      | None => (Ok (problem 500 "internal" "the request could not be processed"), d)
      | Some signed_at =>
          match Results.finalize_result s (sl_output n) (sl_outcome n) (local_performer config) (requester_origin config)
                  sender_root outcome_key task_result_key envelope delivered signed_at now d with
          | (Ok value, d') => (Ok (a2a_ok (encode value)), d')
          | (Err p, d') => (Ok (mkHttp (Control.status p) PROBLEM_MEDIA_TYPE (encode p)), d')
          end
      end
  | _, _ => (Ok (problem 415 "results-not-accepted" "this endpoint does not accept delivered results"), d)
  end.

(** The message of a body. *)
Definition message_of (b : bytes) : option (Profile.Message (V := V)) := r ← CoordEgress.read_request b; Profile.r_message r.

Definition ingress_of (config : ReceiveConfig) (req : HttpRequest) (m : Profile.Message (V := V)) : Ingress :=
  mkIngress (peer req) (method req) (req_content_type req) (a2a_version req) (content_digest req) (activated_extensions req)
    (interface_url config) (tenant req) (Profile.message_id m) (req_body req).

(** The header gates of a result. *)
Definition result_gate (req : HttpRequest) : bool :=
  bool_decide (req_content_type req = A2A_MEDIA_TYPE) && bool_decide (a2a_version req = Some "1.0") &&
  is_ok (Delivery.verify_content_digest (default "" (content_digest req)) (req_body req)).

(** An admitted message: a coordination dispatch or a proposal. *)
Definition handle_accepted (n : Seals) (config : ReceiveConfig) (req : HttpRequest) (m : Profile.Message (V := V))
  (covered : CoveredValues) (now : Z) : HM StoreError HttpResponse :=
  match CoordEgress.coord_dispatch_envelope (Profile.parts m) with
  | Some envelope => handle_coord_dispatch n config req covered envelope (Profile.parts m) now
  | None =>
      dispatched ← dispatch_proposal n covered (Profile.parts m) (Profile.context_id m) (proposal_key config)
        (requester_origin config) (local_performer config) (req_body req) now;
      let status := match outcome dispatched with
                    | Submitted _ | Duplicate _ => 200%Z
                    | Rejected _ => 422%Z
                    | Conflict => 409%Z
                    end in
      mret (mkHttp status (content_type_for status) (response dispatched))
  end.

Definition handle_receive (n : Seals) (config : ReceiveConfig) (req : HttpRequest) (now : Z) : HM StoreError HttpResponse :=
  if negb (eq_ignore_case (as_bytes (method req)) (as_bytes "POST"))
  then mret (problem 405 "method-not-allowed" "only POST is supported") else
  match message_of (req_body req) with
  | None => mret (problem 400 "malformed-request" "body is not a SendMessage with a message")
  | Some m =>
      match result_manifest_envelope (Profile.parts m) with
      | Some envelope =>
          if negb (result_gate req)
          then mret (problem 422 "bad-result-envelope" "the result delivery fails the A2A header gates")
          else handle_result n config (peer req) envelope (delivered_outputs (Profile.parts m)) now
      | None =>
          verdict ← admit_request s (required_extensions config) (ingress_of config req m);
          match verdict with
          | ARejected r => mret (reject_to_http r)
          | ADuplicate _ response class => mret (replay response class)
          | AConflict => mret (problem 409 "conflict" "a covered value changed for this Message id")
          | AAccept covered => handle_accepted n config req m covered now
          end
      end
  end.

(** ** What each request leaves *)

(** The inbox is as it was. *)
Definition same_inbox (d d' : Db) : Prop := inbox_db d' = inbox_db d.

#[local] Instance same_inbox_preorder : PreOrder same_inbox.
Proof. split; repeat intro; unfold same_inbox in *; congruence. Qed.

Lemma keeps_run_local p {A} (m : M A) : p <> StoreReach.PInbox -> StoreReach.local_to p m -> Keeps same_inbox (run m).
Proof. intros Hp [Hm _]. apply keeps_run; [apply _|]. intros d a d' Hd. eapply StoreReach.only_inbox; [by eapply Hm|done]. Qed.

Lemma submit_local n t p origin e now :
  StoreReach.local_to StoreReach.PContracts (StoreContracts.submit_revision s n t p origin e now).
Proof. unfold StoreContracts.submit_revision, StoreContracts.contract_head. StoreReach.local_tac. Qed.

Lemma context_local t c : StoreReach.local_to StoreReach.PContracts (StoreContracts.set_task_context t c).
Proof. unfold StoreContracts.set_task_context. StoreReach.local_tac. Qed.

Lemma input_local n t i now : StoreReach.local_to StoreReach.PRequester (StoreRequester.put_task_input s n t i now).
Proof. unfold StoreRequester.put_task_input. StoreReach.local_tac. Qed.

Lemma persist_keeps seal t r now i entries : Keeps same_inbox (persist_inputs seal t r now i entries).
Proof.
  revert i. induction entries as [|e entries IH]; intros i; cbn [persist_inputs]; [by apply keeps_reads; apply _|].
  apply keeps_bind; [apply _| |done]. destruct (if in_worker_visible e then _ else _).
  - eapply keeps_run_local; [|apply input_local]. done.
  - apply keeps_reads; apply _.
Qed.

(** What was seen of a message survives whatever the store does later. *)
Lemma sighting_kept {CG : Codec Broker.ProcessorConfig} {CO : Codec Broker.Origin} {CW : Canon WorkOrder.WorkOrder}
  {CI : Codec WorkOrder.IssuedWorkOrder} {CP : Codec StorePeers.StoredPeer} cap d d' k x :
  rtc (StoreReach.store_step s cap) d d' -> StoreInbox.sighting d k = Some x -> StoreInbox.sighting d' k = Some x.
Proof.
  intros Hst Hk. destruct (StoreReach.project s cap _ _ d d' (StoreReach.inbox_local s) ltac:(by inversion 1) Hst) as (e & He & Ha).
  cbn in Ha. apply (StoreInbox.sighting_steps _ _ _ _ _ He) in Hk. revert Hk.
  unfold StoreInbox.sighting, StoreInbox.tbl_inbox, StoreInbox.tbl_tombs. by rewrite Ha.
Qed.

(** ** Replays *)

Definition message_key (c : CoveredValues) : string * string := (Delivery.peer c, Delivery.message_id c).

(** The record a first sighting leaves. *)
Definition recorded (n : Seals) (c : CoveredValues) (b r : bytes) (task : option string) (class : string) (now : Z) (d : Db) : Prop :=
  StoreInbox.sighting d (message_key c) =
    Some (StoreInbox.inbox_sighting (StoreInbox.stored_row s (sl_body n) (sl_response n) c b r task class now)).

Lemma commit_run n c b r task class now d : StoreInbox.sighting d (message_key c) = None ->
  run (StoreInbox.receive_request s (sl_body n) (sl_response n) c b r task class now) d =
    (Ok StoreInbox.Fresh, StoreInbox.on_inbox (insert (message_key c)
       (StoreInbox.stored_row s (sl_body n) (sl_response n) c b r task class now)) d).
Proof. intros Hn. apply run_Ok. rewrite StoreInbox.receive_run. unfold message_key in Hn. by rewrite Hn. Qed.

Lemma commit_recorded n c b r task class now d out d1 : StoreInbox.sighting d (message_key c) = None ->
  run (StoreInbox.receive_request s (sl_body n) (sl_response n) c b r task class now) d = (Ok out, d1) ->
  out = StoreInbox.Fresh /\ recorded n c b r task class now d1.
Proof.
  intros Hn. rewrite commit_run by done. intros [= <- <-]. split; [done|]. unfold recorded.
  rewrite StoreInbox.sighting_receive. by rewrite decide_True.
Qed.

Lemma same_sighting d d' k : same_inbox d d' -> StoreInbox.sighting d' k = StoreInbox.sighting d k.
Proof. unfold same_inbox, StoreInbox.sighting, StoreInbox.tbl_inbox, StoreInbox.tbl_tombs. by intros ->. Qed.

Lemma keeps_sighting {E A} (h : HM E A) d a d' k : Keeps same_inbox h -> h d = (Ok a, d') ->
  StoreInbox.sighting d' k = StoreInbox.sighting d k.
Proof. intros Hk H. apply same_sighting. specialize (Hk d). by rewrite H in Hk. Qed.

Lemma reject_recorded n c b now reason d x d1 : StoreInbox.sighting d (message_key c) = None ->
  reject n c b now reason d = (Ok x, d1) ->
  outcome x = Rejected reason /\ recorded n c b (response x) None "rejected" now d1.
Proof.
  intros Hn (out & d' & H & [-> ->]%mret_Ok)%hbind_Ok. by apply commit_recorded in H as [_ H].
Qed.

Lemma submit_recorded n c parts ctx key origin me b now d x d1 : StoreInbox.sighting d (message_key c) = None ->
  dispatch_proposal n c parts ctx key origin me b now d = (Ok x, d1) ->
  (exists reason, outcome x = Rejected reason /\ recorded n c b (response x) None "rejected" now d1) \/
  (exists task, outcome x = Submitted task /\ recorded n c b (response x) (Some task) "task" now d1).
Proof.
  intros Hn. unfold dispatch_proposal. rewrite (hbind_run _ _ _ StoreInbox.Fresh d).
  2: { apply run_Ok. rewrite StoreInbox.peek_run. unfold message_key in Hn. by rewrite Hn. }
  destruct (Proposal.receive_proposal _ _ _ _ _ _) as [received|e].
  2: { intros H%reject_recorded; [|done]. left. eauto. }
  destruct (Proposal.expires_at_unix _) as [expires|e].
  2: { intros H%reject_recorded; [|done]. left. eauto. }
  set (t := task_id_of _). intros (u1 & d2 & H1 & H)%hbind_Ok. apply hbind_Ok in H as (u2 & d3 & H2 & H).
  apply hbind_Ok in H as (u3 & d4 & H3 & H). apply hbind_Ok in H as (out & d5 & H4 & [-> ->]%mret_Ok). right. exists t. split; [done|].
  apply (keeps_sighting _ _ _ _ (message_key c)) in H1; [|eapply keeps_run_local; [|apply submit_local]; done].
  apply (keeps_sighting _ _ _ _ (message_key c)) in H2; [|eapply keeps_run_local; [|apply context_local]; done].
  apply (keeps_sighting _ _ _ _ (message_key c)) in H3; [|apply persist_keeps].
  apply commit_recorded in H4 as [_ H4]; [exact H4|congruence].
Qed.

(** The first answer turned a proposal down. *)
Definition turned_down (m : Profile.Message (V := V)) (resp : HttpResponse) : bool :=
  match CoordEgress.coord_dispatch_envelope (Profile.parts m) with
  | Some _ => false
  | None => (status resp =? 422)%Z
  end.

(** What a replay of an answer says. *)
Definition replayed (m : Profile.Message (V := V)) (resp : HttpResponse) : HttpResponse :=
  if turned_down m resp then a2a_ok (body resp) else resp.

Lemma append_keeps n kind detail now :
  StoreReach.local_to StoreReach.PCoord (StoreCoord.append_coord_event s n kind None detail now).
Proof. apply StoreReach.append_event_local. Qed.

Lemma append_inbox n kind detail now d : same_inbox d (exec (StoreCoord.append_coord_event s n kind None detail now) d).2.
Proof.
  unfold exec. destruct (StoreCoord.append_coord_event _ _ _ _ _ _ d) as [[a d4]|] eqn:E; [|reflexivity].
  by apply (StoreReach.only_inbox StoreReach.PCoord d d4 (proj1 (append_keeps n kind detail now) _ _ _ E)).
Qed.

Lemma coord_recorded n config req c env parts now d resp d1 : StoreInbox.sighting d (message_key c) = None ->
  handle_coord_dispatch n config req c env parts now d = (Ok resp, d1) ->
  exists class, recorded n c (req_body req) (body resp) None class now d1 /\ replay (body resp) class = resp.
Proof.
  intros Hn. unfold handle_coord_dispatch. destruct (CoordEgress.verify _ _ _ _) as [received|r].
  - intros (u & d2 & H1 & H)%hbind_Ok. apply hbind_Ok in H as (out & d3 & H2 & [-> ->]%mret_Ok).
    apply (keeps_sighting _ _ _ _ (message_key c)) in H1; [|eapply keeps_run_local; [|apply append_keeps]; done].
    apply commit_recorded in H2 as [_ H2]; [|congruence]. exists "coordination". split; [exact H2|reflexivity].
  - intros (out & d2 & H1 & H)%hbind_Ok. apply commit_recorded in H1 as [-> H1]; [|done].
    apply hbind_Ok in H as (u & d3 & H2 & [-> ->]%mret_Ok). exists COORD_REFUSED_CLASS. split; [|reflexivity].
    unfold recorded in *. rewrite <- H1. apply same_sighting. injection H2 as _ <-.
    by eapply append_inbox.
Qed.

Lemma accepted_recorded n config req m c now d resp d1 : StoreInbox.sighting d (message_key c) = None ->
  handle_accepted n config req m c now d = (Ok resp, d1) ->
  exists task class, recorded n c (req_body req) (body resp) task class now d1 /\ replay (body resp) class = replayed m resp.
Proof.
  intros Hn. unfold handle_accepted, replayed, turned_down. destruct (CoordEgress.coord_dispatch_envelope _) as [env|].
  - intros (class & H1 & H2)%coord_recorded; [|done]. eauto.
  - intros (x & d2 & H & [-> ->]%mret_Ok)%hbind_Ok. apply submit_recorded in H as [(r & Ho & H)|(t & Ho & H)]; [| |done];
      rewrite Ho; [exists None, "rejected"|exists (Some t), "task"]; done.
Qed.

Lemma admit_run ext ig d : gates ext ig = Ok () ->
  admit_request s ext ig d =
    (Ok (match StoreInbox.sighting d (message_key (covered_of ig)) with
         | None => AAccept (covered_of ig)
         | Some p => match StoreInbox.decide_prior s (Delivery.commitment (covered_of ig) (commitment_key s)) p with
                     | StoreInbox.Duplicate task response class => ADuplicate task response class
                     | _ => AConflict
                     end
         end), d).
Proof.
  intros Hg. unfold admit_request. rewrite Hg. rewrite (hbind_run _ _ _ _ d (proj2 (run_Ok _ _ _ _) (StoreInbox.peek_run s _ d))).
  unfold message_key. destruct (StoreInbox.sighting d _) as [p|]; [|done]. unfold StoreInbox.decide_prior. repeat case_match; done.
Qed.

(** The second answer to a message the inbox knows. *)
Lemma replay_answer n c b r task class now n' config req m now' d :
  length (sl_response n) = Envelope.NONCE_LEN -> (Z.of_nat (length r) <= aead_limit)%Z ->
  recorded n c b r task class now d ->
  eq_ignore_case (as_bytes (method req)) (as_bytes "POST") = true -> message_of (req_body req) = Some m ->
  result_manifest_envelope (Profile.parts m) = None -> gates (required_extensions config) (ingress_of config req m) = Ok () ->
  covered_of (ingress_of config req m) = c ->
  handle_receive n' config req now' d = (Ok (replay r class), d).
Proof.
  intros Hn Hl Hr Hp Hm Hne Hg Hc. unfold handle_receive. rewrite Hp. cbn [negb]. rewrite Hm, Hne.
  rewrite (hbind_run _ _ _ _ _ (admit_run _ _ d Hg)), Hc. unfold recorded in Hr. rewrite Hr, StoreInbox.decide_stored by done.
  by rewrite decide_False by naive_solver.
Qed.

(** A message this endpoint has not seen, through every gate. *)
Definition first_contact (config : ReceiveConfig) (req : HttpRequest) (m : Profile.Message (V := V)) (d : Db) : Prop :=
  eq_ignore_case (as_bytes (method req)) (as_bytes "POST") = true /\ message_of (req_body req) = Some m /\
  result_manifest_envelope (Profile.parts m) = None /\ gates (required_extensions config) (ingress_of config req m) = Ok () /\
  StoreInbox.sighting d (peer req, Profile.message_id m) = None.

Lemma first_contact_run n config req m now d : first_contact config req m d ->
  handle_receive n config req now d = handle_accepted n config req m (covered_of (ingress_of config req m)) now d.
Proof.
  intros (Hp & Hm & Hne & Hg & Hs). unfold handle_receive. rewrite Hp. cbn [negb]. rewrite Hm, Hne.
  rewrite (hbind_run _ _ _ _ _ (admit_run _ _ d Hg)). unfold message_key. cbn. by rewrite Hs.
Qed.

(** C12. Replays are exact and have no effect. Once a message was answered on first contact,
    then after any later operations of the store, by whoever, the same request again leaves
    the database as it is and is answered with the very bytes of the first answer, under the
    same status and media type, with one exception: a proposal that was turned down with 422
    is answered 200. *)
Theorem replay_exact {CG : Codec Broker.ProcessorConfig} {CO : Codec Broker.Origin} {CW : Canon WorkOrder.WorkOrder}
  {CI : Codec WorkOrder.IssuedWorkOrder} {CP : Codec StorePeers.StoredPeer} cap n config req m now d resp d1 d2 n' now' :
  length (sl_response n) = Envelope.NONCE_LEN -> (Z.of_nat (length (body resp)) <= aead_limit)%Z ->
  first_contact config req m d -> handle_receive n config req now d = (Ok resp, d1) ->
  rtc (StoreReach.store_step s cap) d1 d2 ->
  handle_receive n' config req now' d2 = (Ok (replayed m resp), d2).
Proof.
  intros Hn Hl Hf H Hst. rewrite (first_contact_run _ _ _ _ _ _ Hf) in H. destruct Hf as (Hp & Hm & Hne & Hg & Hs).
  set (c := covered_of _) in H. destruct (accepted_recorded _ _ _ _ c _ _ _ _ Hs H) as (task & class & Hr & Hrep).
  rewrite <- Hrep. eapply (replay_answer n c); [done|done| |done..]. unfold recorded. by eapply sighting_kept.
Qed.

(** ** Arrival is not execution *)

(** Everything but the inbox and the event feed. *)
Definition standing (d : Db) :=
  (meta d, audit_log d, (peers_db d, contracts_db d, attempts_db d), (requester_db d, calls_db d),
   (StoreCoord.tbl_staged d, StoreCoord.tbl_consents d, StoreCoord.tbl_dispatches d)).

(** The event an arrival leaves, by the recipient's verdict on it. *)
Definition arrival_event (n : Seals) (config : ReceiveConfig) (req : HttpRequest) (env : Json) (parts : list (Part V)) (now : Z)
  (d : Db) : EventRow :=
  let '(kind, detail) := match CoordEgress.verify env parts (peer req) (root (local_performer config)) with
                         | Ok received => (COORD_EVENT_RECEIVED, coord_received_detail received)
                         | Err r => (COORD_EVENT_REFUSED,
                                     IJson.obj [("sender_root", JStr (peer req)); ("reason", JStr (CoordEgress.reason r))])
                         end in
  StoreCoord.new_event s (sl_event n) kind None detail now (StoreCoord.tbl_events d).

(** What the sender of a dispatch is told. *)
Definition arrival_answer (config : ReceiveConfig) (req : HttpRequest) (env : Json) (parts : list (Part V)) (now : Z) : HttpResponse :=
  match CoordEgress.verify env parts (peer req) (root (local_performer config)) with
  | Ok received => a2a_ok (encode (CoordEgress.acknowledgement received (root (local_performer config)) now))
  | Err _ => coord_refusal
  end.

Lemma coord_effect n config req c env parts now d : StoreInbox.sighting d (message_key c) = None ->
  exists d', handle_coord_dispatch n config req c env parts now d = (Ok (arrival_answer config req env parts now), d') /\
    standing d' = standing d /\ StoreCoord.tbl_events d' = StoreCoord.tbl_events d ++ [arrival_event n config req env parts now d].
Proof.
  intros Hn. unfold handle_coord_dispatch, arrival_answer, arrival_event.
  destruct (CoordEgress.verify _ _ _ _) as [received|r].
  - set (ev := StoreCoord.new_event _ _ _ _ _ _ _).
    rewrite (hbind_run _ _ _ (StoreCoord.next_seq (StoreCoord.tbl_events d)) (StoreCoord.on_events (fun l => l ++ [ev]) d)) by done.
    rewrite (hbind_run _ _ _ _ _ (commit_run _ c _ _ _ _ _ (StoreCoord.on_events (fun l => l ++ [ev]) d) Hn)). eexists. split; [reflexivity|]. done.
  - rewrite (hbind_run _ _ _ _ _ (commit_run _ _ _ _ _ _ _ _ Hn)). eexists. split; [reflexivity|]. done.
Qed.

(** Arrival is not execution. A message with a coordination envelope, whatever it holds,
    changes nothing but the inbox and the event feed: no Task, contract head, work order,
    call, peer, staging, consent or audit record. The feed grows by one event at most, on
    first contact only, which says whether the recipient's checks passed. *)
Theorem arrival_inert n config req now d r d' m env :
  message_of (req_body req) = Some m -> result_manifest_envelope (Profile.parts m) = None ->
  CoordEgress.coord_dispatch_envelope (Profile.parts m) = Some env -> handle_receive n config req now d = (r, d') ->
  standing d' = standing d /\
  (d' = d \/
   first_contact config req m d /\ r = Ok (arrival_answer config req env (Profile.parts m) now) /\
   StoreCoord.tbl_events d' = StoreCoord.tbl_events d ++ [arrival_event n config req env (Profile.parts m) now d]).
Proof.
  intros Hm Hne Henv. unfold handle_receive. destruct (eq_ignore_case _ _) eqn:Hp; cbn [negb]; [|intros [= <- <-]; auto].
  rewrite Hm, Hne. destruct (gates (required_extensions config) (ingress_of config req m)) as [[]|rj] eqn:Hg.
  2: { rewrite (hbind_run _ _ _ (ARejected rj) d) by (unfold admit_request; by rewrite Hg). intros [= <- <-]; auto. }
  rewrite (hbind_run _ _ _ _ _ (admit_run _ _ d Hg)).
  destruct (StoreInbox.sighting d _) as [x|] eqn:Hs; [destruct (StoreInbox.decide_prior _ _ _); intros [= <- <-]; by auto|].
  unfold handle_accepted. rewrite Henv. set (c := covered_of _) in *.
  destruct (coord_effect n config req c env (Profile.parts m) now d Hs) as (d1 & E & Hst & Hev). rewrite E.
  intros [= <- <-]. split; [done|]. by right.
Qed.

(** ** Attribution *)

(** What one peer's requests may change: inbox records under its own root and new heads with
    its root as origin, besides the task payloads, the outcomes and the event feed. *)
Record attributed (root : string) (d d' : Db) : Prop := {
  at_meta : meta d' = meta d;
  at_peers : peers_db d' = peers_db d;
  at_attempts : attempts_db d' = attempts_db d;
  at_calls : calls_db d' = calls_db d;
  at_coord : StoreCoord.tbl_staged d' = StoreCoord.tbl_staged d /\ StoreCoord.tbl_consents d' = StoreCoord.tbl_consents d /\
             StoreCoord.tbl_dispatches d' = StoreCoord.tbl_dispatches d;
  at_inbox : forall k, k.1 <> root -> StoreInbox.sighting d' k = StoreInbox.sighting d k;
  at_heads : forall t r, StoreContracts.tbl_heads d !! t = Some r ->
    exists r', StoreContracts.tbl_heads d' !! t = Some r' /\ hd_origin_root r' = hd_origin_root r;
  at_new : forall t r, StoreContracts.tbl_heads d !! t = None -> StoreContracts.tbl_heads d' !! t = Some r -> hd_origin_root r = root;
}.

#[global] Instance attributed_preorder root : PreOrder (attributed root).
Proof.
  split.
  - intros d. split; [done..|naive_solver|intros; congruence].
  - intros d1 d2 d3 [] []. split; [congruence..|intuition congruence|intros k Hk; by rewrite at_inbox1, at_inbox0| |].
    + intros t r (r2 & H2 & E2)%at_heads0. destruct (at_heads1 _ _ H2) as (r3 & H3 & E3). exists r3. split; [done|congruence].
    + intros t r Hn Hr. destruct (StoreContracts.tbl_heads d2 !! t) as [r2|] eqn:E; [|eauto].
      destruct (at_heads1 _ _ E) as (r3 & H3 & E3). assert (r3 = r) as -> by congruence. rewrite E3. eauto.
Qed.

Section attribution.
Context (me : string).

Lemma only_attributed p d d' : p = StoreReach.PRequester -> StoreReach.only p d d' -> attributed me d d'.
Proof.
  intros -> []. specialize (only_contracts ltac:(done)). specialize (only_inbox ltac:(done)). specialize (only_coord ltac:(done)).
  split; [by auto..| | | |]; unfold StoreCoord.tbl_staged, StoreCoord.tbl_consents, StoreCoord.tbl_dispatches, StoreContracts.tbl_heads,
    StoreInbox.sighting, StoreInbox.tbl_inbox, StoreInbox.tbl_tombs; rewrite ?only_contracts, ?only_inbox, ?only_coord;
    [done|done|naive_solver|intros; congruence].
Qed.

Lemma heads_attributed d d' : StoreReach.only StoreReach.PContracts d d' ->
  (forall t r, StoreContracts.tbl_heads d !! t = Some r ->
     exists r', StoreContracts.tbl_heads d' !! t = Some r' /\ hd_origin_root r' = hd_origin_root r) ->
  (forall t r, StoreContracts.tbl_heads d !! t = None -> StoreContracts.tbl_heads d' !! t = Some r -> hd_origin_root r = me) ->
  attributed me d d'.
Proof.
  intros [] H1 H2. specialize (only_inbox ltac:(done)). specialize (only_coord ltac:(done)).
  split; [by auto..| | |done|done]; unfold StoreCoord.tbl_staged, StoreCoord.tbl_consents, StoreCoord.tbl_dispatches,
    StoreInbox.sighting, StoreInbox.tbl_inbox, StoreInbox.tbl_tombs; by rewrite ?only_inbox, ?only_coord.
Qed.

Lemma submit_heads n t p e now d v d' : StoreContracts.submit_revision s n t p me e now d = Ok (v, d') ->
  StoreContracts.tbl_heads d' = StoreContracts.tbl_heads d \/
  exists h, StoreContracts.tbl_heads d' =
    <[t := StoreContracts.advanced_row p h me (StoreContracts.tbl_heads d !! t)]> (StoreContracts.tbl_heads d).
Proof.
  unfold StoreContracts.submit_revision. intros (h & d1 & H1 & H)%bind_Ok.
  apply (reads (m := StoreContracts.contract_head t)) in H1 as ->. destruct (apply_revision h p) as [h'|].
  - right. exists h'. rewrite !bind_modify in H. apply bind_Ok in H as (? & d2 & [= _ <-] & [= _ <-]). reflexivity.
  - left. by injection H as _ <-.
Qed.

Lemma submit_attributed n t p e now d v d' :
  StoreContracts.submit_revision s n t p me e now d = Ok (v, d') -> attributed me d d'.
Proof.
  intros H. apply heads_attributed; [by eapply (proj1 (submit_local n t p me e now))|..]; apply submit_heads in H as [->|(h & ->)].
  - eauto.
  - intros t' r Hr. destruct (decide (t = t')) as [<-|Hne]; [|rewrite lookup_insert_ne by done; eauto].
    rewrite lookup_insert_eq, Hr. by eexists.
  - intros; congruence.
  - intros t' r Hr. destruct (decide (t = t')) as [<-|Hne]; [|rewrite lookup_insert_ne by done; congruence].
    rewrite lookup_insert_eq, Hr. by intros [= <-].
Qed.

Lemma context_attributed t c d u d' : StoreContracts.set_task_context t c d = Ok (u, d') -> attributed me d d'.
Proof.
  intros H. apply heads_attributed; [by eapply (proj1 (context_local t c))|..]; injection H as _ <-;
    change (StoreContracts.tbl_heads (StoreContracts.on_heads ?f d)) with (f (StoreContracts.tbl_heads d)); intros t' r Hr.
  - rewrite lookup_alter. case_decide; subst; rewrite Hr; by eexists.
  - rewrite lookup_alter. case_decide; subst; by rewrite Hr.
Qed.

Lemma commit_attributed n1 n2 c b r task class now d out d' : Delivery.peer c = me ->
  StoreInbox.receive_request s n1 n2 c b r task class now d = Ok (out, d') -> attributed me d d'.
Proof.
  intros Hc. rewrite StoreInbox.receive_run. destruct (StoreInbox.sighting d _); intros [= _ <-]; [reflexivity|].
  split; [done..| |by eauto|intros t0 r0 Hn Hr; change (StoreContracts.tbl_heads d !! t0 = Some r0) in Hr; congruence]. intros k Hk. rewrite StoreInbox.sighting_receive.
  rewrite decide_False; [done|]. intros ->. by apply Hk.
Qed.

Lemma append_attributed n kind detail now d u d' :
  StoreCoord.append_coord_event s n kind None detail now d = Ok (u, d') -> attributed me d d'.
Proof. intros [= _ <-]. split; [done..|by eauto|intros t0 r0 Hn Hr; change (StoreContracts.tbl_heads d !! t0 = Some r0) in Hr; congruence]. Qed.

Lemma ignore_keeps {E A} (R : relation Db) (m : M A) : Reflexive R -> (forall d a d', m d = Ok (a, d') -> R d d') ->
  Keeps R (ignore (E := E) m).
Proof. intros ? Hm d. unfold ignore, exec. destruct (m d) as [[a d']|] eqn:E0; cbn; [by eapply Hm|done]. Qed.

Lemma persist_attributed seal t r now i entries : Keeps (attributed me) (persist_inputs seal t r now i entries).
Proof.
  revert i. induction entries as [|e entries IH]; intros i; cbn [persist_inputs]; [by apply keeps_reads; apply _|].
  apply keeps_bind; [apply _| |done]. destruct (if in_worker_visible e then _ else _); [|by apply keeps_reads; apply _].
  apply keeps_run; [apply _|]. intros d a d' H. eapply only_attributed; [done|]. by eapply (proj1 (input_local _ _ _ _)).
Qed.

#[local] Instance run_keeps {A} (m : M A) : (forall d a d', m d = Ok (a, d') -> attributed me d d') -> Keeps (attributed me) (run m).
Proof. intros. by apply keeps_run; [apply _|]. Qed.

Lemma dispatch_attributed n c parts ctx key origin mine b now : Delivery.peer c = me ->
  Keeps (attributed me) (dispatch_proposal n c parts ctx key origin mine b now).
Proof.
  intros Hc. assert (forall b reason, Keeps (attributed me) (reject n c b now reason)) as Hrej.
  { intros b' reason. apply keeps_bind; [apply _| |intros; by apply keeps_reads; apply _].
    apply run_keeps. intros *. by apply commit_attributed. }
  unfold dispatch_proposal. apply keeps_bind; [apply _|by apply keeps_reads; apply _|]. intros [| |]; [|by apply keeps_reads; apply _..].
  destruct (Proposal.receive_proposal _ _ _ _ _ _); [|done]. destruct (Proposal.expires_at_unix _); [|done]. rewrite Hc.
  apply keeps_bind; [apply _|apply run_keeps; intros *; apply submit_attributed|intros _].
  apply keeps_bind; [apply _|apply run_keeps; intros *; apply context_attributed|intros _].
  apply keeps_bind; [apply _|apply persist_attributed|intros _].
  apply keeps_bind; [apply _|apply run_keeps; intros *; by apply commit_attributed|intros _]. by apply keeps_reads; apply _.
Qed.

Lemma coord_attributed n config req c env parts now : Delivery.peer c = me ->
  Keeps (attributed me) (handle_coord_dispatch n config req c env parts now).
Proof.
  intros Hc. unfold handle_coord_dispatch. destruct (CoordEgress.verify _ _ _ _).
  - apply keeps_bind; [apply _|apply run_keeps; intros *; apply append_attributed|intros _].
    apply keeps_bind; [apply _|apply run_keeps; intros *; by apply commit_attributed|intros _]. by apply keeps_reads; apply _.
  - apply keeps_bind; [apply _|apply run_keeps; intros *; by apply commit_attributed|]. intros [| |]; [|by apply keeps_reads; apply _..].
    apply keeps_bind; [apply _| |intros; by apply keeps_reads; apply _]. apply ignore_keeps; [apply _|]. intros *. apply append_attributed.
Qed.

Lemma result_attributed n config sroot env delivered now : Keeps (attributed me) (handle_result n config sroot env delivered now).
Proof.
  intros d. unfold handle_result. destruct (outcome_key config) as [k|], (performer_task_result_key config) as [vk|]; try reflexivity.
  destruct (Daemon.format_rfc3339 now) as [x|]; [|reflexivity].
  destruct (Results.finalize_result _ _ _ _ _ _ _ _ _ _ _ _ d) as [[v|p] d'] eqn:E; cbn [snd].
  - apply Results.finalize_Ok in E as (m & bd & parts & o & signed & od & w & _ & H). eapply only_attributed; [done|].
    eapply (StoreReach.part_steps_only _ _ (StoreReach.requester_local s)). unfold Results.record_accepted in H.
    by eapply StoreRequester.rs_record.
  - apply Results.finalize_Err in E as ->. reflexivity.
Qed.

Lemma receive_attributed n config req now : peer req = me -> Keeps (attributed me) (handle_receive n config req now).
Proof.
  intros Hp. unfold handle_receive. destruct (negb _); [by apply keeps_reads; apply _|].
  destruct (message_of _) as [m|]; [|by apply keeps_reads; apply _]. destruct (result_manifest_envelope _).
  { destruct (negb _); [by apply keeps_reads; apply _|apply result_attributed]. }
  intros d. destruct (gates (required_extensions config) (ingress_of config req m)) as [[]|rj] eqn:Hg.
  2: { rewrite (hbind_run _ _ _ (ARejected rj) d) by (unfold admit_request; by rewrite Hg). reflexivity. }
  rewrite (hbind_run _ _ _ _ _ (admit_run _ _ d Hg)).
  destruct (StoreInbox.sighting d _) as [x|]; [destruct (StoreInbox.decide_prior _ _ _); reflexivity|].
  unfold handle_accepted. destruct (CoordEgress.coord_dispatch_envelope _); [by apply coord_attributed|].
  apply (keeps_bind (attributed me)); [by apply dispatch_attributed|intros; by apply keeps_reads; apply _].
Qed.
End attribution.
End receive.

(** ** Witnesses *)

#[global] Instance Problem_wire : Wire Problem.
Proof.
  refine (wire_inj (fun p => (Control.type_ p, Control.title p, Control.status p, Control.detail p)) (fun '(a, b, c, d) => mkProblem a b c d) _).
  by intros [].
Defined.

Definition ToyReceiveText : ReceiveText := {|
  submitted_task_json := fun t c => put (t, c); receive_error_text := fun _ => "refused"; timestamp_error_text := fun _ => "time" |}.

Definition ToyEnvelopes : FromValue Dsse.Envelope :=
  {| Proposal.from_value := fun j => match j with JStr t => match get (as_bytes t) with Some (e, []) => Some e | _ => None end | _ => None end |}.

#[local] Existing Instances ToyHashes ToyHex ToyAead ToyEd25519 ToyBase64 ToyBase64Url ToyVariants ToyJwkText ToySchemas ToySyntax
  Evidence.ToySlice Daemon.ToyTimes Daemon.ToyTimeText Daemon.ToyContracts CoordEgress.ToyStruct CoordEgress.ToySend
  CoordEgress.struct_value ToyReceiveText ToyEnvelopes.
#[local] Instance sample_canon : Canon Json := ToyCanon Json.
#[local] Instance sample_json : Codec Json := ToyCodec Json.
#[local] Instance sample_problems : Codec Problem := ToyCodec Problem.
#[local] Instance sample_covered : Codec CoveredValues := ToyCodec CoveredValues.
#[local] Instance sample_manifests : ToValue Evidence.ResultManifest := Proposal.ToyToValue Evidence.ResultManifest.
#[local] Instance sample_outcomes : ToValue Evidence.Outcome := Proposal.ToyToValue Evidence.Outcome.
#[local] Instance sample_envelopes : Codec Dsse.Envelope := ToyCodec Dsse.Envelope.
#[local] Instance sample_peers : Codec StorePeers.StoredPeer := ToyCodec StorePeers.StoredPeer.
#[local] Instance sample_orders : Canon WorkOrder.WorkOrder := ToyCanon WorkOrder.WorkOrder.
#[local] Instance sample_issued : Codec WorkOrder.IssuedWorkOrder := ToyCodec WorkOrder.IssuedWorkOrder.
#[local] Instance sample_origins : Codec Broker.Origin := ToyCodec Broker.Origin.
#[local] Instance sample_configs : Codec Broker.ProcessorConfig := ToyCodec Broker.ProcessorConfig.

Definition sample_seals : Seals :=
  let n := StorePeers.sample_nonce in mkSeals n (fun _ => n) n n n (fun _ => n) n.

Definition sample_config : ReceiveConfig :=
  mkReceiveConfig (mkIdentity "iss" "bob" "root-b") (mkIdentity "iss" "alice" "root-a")
    (Keys.verifying (Keys.from_seed Lifecycle.ContractProposal (as_bytes "seed"))) Dsse.required_extension_uris "https://b/a2a" None None.

(** The bytes of a message with some Parts, and the request that carries them. *)
Definition sample_body (parts : list (Part Json)) : bytes :=
  put (JStr (from_utf8 (put (Profile.mkRequest (Some (Profile.mkMessage "m1" "c1" "" [] 0 parts [])) None)))).

Definition sample_request (parts : list (Part Json)) : HttpRequest :=
  mkHttpRequest "POST" "application/a2a+json" (Some "1.0") (Some (Delivery.content_digest (sample_body parts)))
    Dsse.required_extension_uris None "root-a" (sample_body parts).

Definition sample_message (parts : list (Part Json)) : Profile.Message (V := Json) := Profile.mkMessage "m1" "c1" "" [] 0 parts [].

(** A proposal without a contract, and a coordination dispatch. *)
Definition bad_proposal : result StoreError HttpResponse * Db :=
  handle_receive StorePeers.sample_store sample_seals sample_config (sample_request []) 50 empty_db.

Definition good_dispatch : result StoreError HttpResponse * Db :=
  handle_receive StorePeers.sample_store sample_seals sample_config (sample_request CoordEgress.sample_parts) 50 empty_db.

Lemma replied (x : result StoreError HttpResponse * Db) code :
  match x.1 with Ok r => (status r =? code)%Z && (Z.of_nat (length (body r)) <=? 2 ^ 38)%Z | Err _ => false end = true ->
  exists r d, x = (Ok r, d) /\ status r = code /\ (Z.of_nat (length (body r)) <= 2 ^ 38)%Z.
Proof. destruct x as [[r|] d]; [|done]. intros [H1 H2]%andb_true_iff. exists r, d. split; [done|]. cbn [fst] in *. lia. Qed.

Lemma bad_proposal_replied : exists r d, bad_proposal = (Ok r, d) /\ status r = 422%Z /\ (Z.of_nat (length (body r)) <= 2 ^ 38)%Z.
Proof. apply replied. vm_compute. reflexivity. Qed.

Lemma sample_first parts : parts = [] \/ parts = CoordEgress.sample_parts ->
  first_contact sample_config (sample_request parts) (sample_message parts) empty_db.
Proof. intros [->| ->]; (split; [|split; [|split; [|split]]]); vm_compute; reflexivity. Qed.

Definition one_each (w : string) : Z := 1.

Lemma replay_exact_witness : exists r d, bad_proposal = (Ok r, d) /\ status r = 422%Z /\
  handle_receive StorePeers.sample_store sample_seals sample_config (sample_request []) 60 d = (Ok (a2a_ok (body r)), d).
Proof.
  destruct bad_proposal_replied as (r & d & E & Hc & Hl). exists r, d. split; [exact E|]. split; [exact Hc|]. unfold bad_proposal in E.
  pose proof (replay_exact StorePeers.sample_store one_each sample_seals sample_config (sample_request []) (sample_message []) 50 empty_db
    r d d sample_seals 60 eq_refl Hl (sample_first [] (or_introl eq_refl)) E (rtc_refl _ d)) as H.
  unfold replayed, turned_down in H. rewrite Hc in H. exact H.
Defined.

Lemma sample_enveloped :
  CoordEgress.coord_dispatch_envelope (Profile.parts (sample_message CoordEgress.sample_parts)) = Some CoordEgress.sample_envelope.
Proof. vm_compute. reflexivity. Qed.

Lemma arrival_inert_witness : exists r d', good_dispatch = (Ok r, d') /\ standing d' = standing empty_db /\ status r = 200%Z.
Proof.
  assert (exists r d', good_dispatch = (Ok r, d') /\ status r = 200%Z /\ (Z.of_nat (length (body r)) <= 2 ^ 38)%Z) as (r & d' & E & Hs & _)
    by (apply replied; vm_compute; reflexivity).
  exists r, d'. split; [exact E|]. split; [|exact Hs]. unfold good_dispatch in E.
  destruct (sample_first CoordEgress.sample_parts (or_intror eq_refl)) as (_ & Hm & Hne & _).
  exact (proj1 (arrival_inert StorePeers.sample_store sample_seals sample_config (sample_request CoordEgress.sample_parts) 50 empty_db (Ok r) d'
    (sample_message CoordEgress.sample_parts) CoordEgress.sample_envelope Hm Hne sample_enveloped E)).
Defined.
End Receive.
