(* ===== verification/Server.v ===== *)
(** The receive server (aksond/src/receive_server.rs): the resolution of a pinned peer from
    its certificate, the limiter of the introduction routes, the gates before a body is
    read, and the routing of a request; with the outbound client's request and the reading
    of its answer (aksond/src/a2a_client.rs).

    Sockets, TLS and the HTTP library are not modelled: a request comes with the facts of its
    session, its headers as texts and what arrived of its body. While a body is read the lock
    is free, so the database may change then in any way. A poisoned lock (a panic elsewhere)
    is not modelled. *)
From S2P Require Import Prelude Text Crypto Sign Envelope AuditLog Lifecycle Keys Json IJson Dsse Contract Proposal Profile.
From S2P Require Import Introduction Evidence Inert Chars Toy Delivery Broker WorkOrder Control Db Handler Readers StoreMeta StorePeers.
From S2P Require Import Introduce StoreInbox StoreContracts StoreAttempts StoreRequester StoreCalls StoreCoord StoreReach.
From S2P Require Import CoordEgress Coord Daemon Results Receive.

Module Server.
Import Json.
Import Handler.
Import Contract.
Import Broker (IpAddr, IpV4, IpV6, Ipv4Addr, Ipv6Addr, V4, V6).
Import Control (Problem).
Import Proposal (Rfc3339, FromValue, ToValue, ProtoValue).
Import Delivery (CoveredValues).
Import Receive (HttpResponse, mkHttp, status, body, Seals, ReceiveText).

Definition MAX_RECEIVE_BODY : Z := 1024 * 1024.
Definition MAX_INTRODUCTION_BODY : Z := 64 * 1024.
Definition WELL_KNOWN_CARD_PATH : string := "/.well-known/agent-card.json".
Definition PROPOSAL_KEY_PURPOSE : string := "contract-proposal".
Definition TASK_RESULT_KEY_PURPOSE : string := "task-result".

(** ** Addresses (std) *)

#[global] Instance IpAddr_eq_dec : EqDecision IpAddr.
Proof. intros [[]|[]] [[]|[]]; unfold Decision; decide equality; repeat decide equality. Defined.

Definition addr_code (a : IpAddr) : list Z :=
  match a with
  | IpV4 (V4 a b c d) => [a; b; c; d]
  | IpV6 (V6 a b c d e f g h) => [a; b; c; d; e; f; g; h]
  end.

Definition addr_of (l : list Z) : option IpAddr :=
  match l with
  | [a; b; c; d] => Some (IpV4 (V4 a b c d))
  | [a; b; c; d; e; f; g; h] => Some (IpV6 (V6 a b c d e f g h))
  | _ => None
  end.

#[global] Instance IpAddr_countable : Countable IpAddr.
Proof. refine (inj_countable addr_code addr_of _). by intros [[]|[]]. Defined.

Definition v4_text (a : Ipv4Addr) : string :=
  to_string (Z.to_N (Broker.o0 a)) +:+ "." +:+ to_string (Z.to_N (Broker.o1 a)) +:+ "." +:+
  to_string (Z.to_N (Broker.o2 a)) +:+ "." +:+ to_string (Z.to_N (Broker.o3 a)).

(** A 16-bit segment in lower-case hexadecimal, without leading zeros. *)
Definition hex_digit (z : Z) : byte := byte_of_Z (if (z <? 10)%Z then 48 + z else 87 + z)%Z.

Definition segment_text (z : Z) : bytes :=
  let ds := [z / 4096 mod 16; z / 256 mod 16; z / 16 mod 16; z mod 16]%Z in
  match Inert.skip (fun c => bool_decide (c = "0"%char)) (hex_digit <$> ds) with [] => as_bytes "0" | l => l end.

Fixpoint colons (l : list Z) : bytes :=
  match l with [] => [] | [z] => segment_text z | z :: l => segment_text z ++ as_bytes ":" ++ colons l end.

(** The first longest run of zero segments: start and length; [cur] is the run that ends
    before segment [i]. *)
Fixpoint zero_run (i : nat) (cur best : nat * nat) (l : list Z) : nat * nat :=
  match l with
  | [] => best
  | z :: l =>
      if decide (z = 0%Z) then
        let cur := if decide (cur.2 = 0) then (i, 1) else (cur.1, S cur.2) in
        zero_run (S i) cur (if decide (best.2 < cur.2) then cur else best) l
      else zero_run (S i) (0, 0) best l
  end.

Definition v6_text (a : Ipv6Addr) : string :=
  let '(V6 a b c d e f g h) := a in
  let segs := [a; b; c; d; e; f; g; h] in
  if decide (take 6 segs = [0; 0; 0; 0; 0; 0xffff]%Z)
  then "::ffff:" +:+ v4_text (V4 (g / 256) (g mod 256) (h / 256) (h mod 256))
  else
    let '(start, len) := zero_run 0 (0, 0) (0, 0) segs in
    from_utf8 (if decide (1 < len) then colons (take start segs) ++ as_bytes "::" ++ colons (drop (start + len) segs)
               else colons segs).

Definition ip_text (a : IpAddr) : string := match a with IpV4 a => v4_text a | IpV6 a => v6_text a end.

(** ** The limiter *)

Definition WINDOW_SECS : Z := 60.
Definition MAX_PER_WINDOW : Z := 10.
Definition MAX_TRACKED : nat := 1024.

Definition rate_bucket (source : IpAddr) : IpAddr :=
  match source with
  | IpV4 _ => source
  | IpV6 a => IpV6 (V6 (Broker.s0 a) (Broker.s1 a) (Broker.s2 a) (Broker.s3 a) 0 0 0 0)
  end.

(** [HashMap<IpAddr, (u32, i64)>]: the count and the start of a bucket's window. *)
Notation Rates := (gmap IpAddr (Z * Z)).

(** The window a start opens is still running; the [i64] subtraction wraps as in a release
    build. *)
Definition running (now start : Z) : bool := (as_i64 (now - start) <? WINDOW_SECS)%Z.

Definition prune (now : Z) (m : Rates) : Rates := filter (fun kv => running now kv.2.2 = true) m.

(** The map when the bucket is looked up. *)
Definition pruned (m : Rates) (now : Z) : Rates := if bool_decide (MAX_TRACKED <= size m) then prune now m else m.

Definition intro_rate_admit (m : Rates) (source : IpAddr) (now : Z) : bool * Rates :=
  let bucket := rate_bucket source in
  let full := bool_decide (MAX_TRACKED <= size m) in
  let m := pruned m now in
  if full && bool_decide (MAX_TRACKED <= size m) && negb (bool_decide (is_Some (m !! bucket))) then (false, m) else
  let entry := default (0%Z, now) (m !! bucket) in
  let entry := if running now entry.2 then entry else (0%Z, now) in
  let count := ((entry.1 + 1) mod 2 ^ 32)%Z in
  ((count <=? MAX_PER_WINDOW)%Z, <[bucket := (count, entry.2)]> m).

(** ** The peer of a connection *)

Record PeerContext := mkPeerContext {
  pc_origin : Identity; pc_proposal_key : Keys.PurposeVerifyingKey; pc_peer_id : string }.

(** [PeerResolver]: the peer of a certificate fingerprint, under the store lock. *)
Class PeerResolver := { resolve : Db -> string -> option PeerContext }.

(** [.ok().flatten()] of a store call. *)
Definition ask {A} (m : M (option A)) (d : Db) : option A := match exec m d with (Ok o, _) => o | _ => None end.

Definition StorePeerResolver {ED : Ed25519} : PeerResolver := {|
  resolve := fun d tls_fingerprint =>
    pk ← ask (StorePeers.peer_key tls_fingerprint PROPOSAL_KEY_PURPOSE) d;
    if decide (StorePeers.k_root_thumbprint pk = "") then None else
    if decide (ask (StorePeers.peer_status_by_root (StorePeers.k_root_thumbprint pk)) d <> Some Lifecycle.Active) then None else
    match Keys.from_public_bytes Lifecycle.ContractProposal (StorePeers.k_public_key pk) with
    | Err _ => None
    | Ok key =>
        Some (mkPeerContext
          (mkIdentity (StorePeers.k_issuer pk) (StorePeers.k_agent_id pk) (StorePeers.k_root_thumbprint pk)) key
          (StorePeers.k_root_thumbprint pk))
    end |}.

(** ** Requests and replies *)

(** The headers that are read, as texts. *)
Record Headers := mkHeaders {
  hd_content_type : option string; hd_a2a_version : option string; hd_content_digest : option string;
  hd_a2a_extensions : option string }.

(** What came of a body: its bytes, a broken stream, or nothing within the time. *)
Inductive Incoming := Arrived (b : bytes) | Broken | Slow.

(** The request and the facts of its session. *)
Record Request := mkServerRequest {
  rq_method : string; rq_path : string; rq_headers : Headers; rq_body : Incoming;
  rq_peer_fp : option string; rq_source : IpAddr; rq_exporter : option bytes }.

Record Reply := mkReply { rp_status : Z; rp_content_type : option string; rp_body : bytes; rp_close : bool }.

Definition MAX_ACTIVATED_EXTENSIONS : nat := 32.

(** [str::split] at a character. *)
Fixpoint split (c : byte) (l : bytes) : list bytes :=
  match l with
  | [] => [[]]
  | x :: l =>
      if decide (x = c) then [] :: split c l
      else match split c l with h :: t => (x :: h) :: t | [] => [[x]] end
  end.

Definition activated_of (header : option string) : list string :=
  match header with
  | None => []
  | Some h => take MAX_ACTIVATED_EXTENSIONS
      (List.filter (fun x => negb (bool_decide (x = ""))) ((fun b => from_utf8 (Inert.trim b)) <$> split ","%char (as_bytes h)))
  end.

(** The state of the server besides the store and the limiter. *)
Record ReceiveState := mkReceiveState {
  rs_local_performer : Identity; rs_required_extensions : list string; rs_interface_url : string;
  rs_outcome_key : option Keys.PurposeKey; rs_intro : option Introduce.IntroIdentity }.

(** The serialization of an introduction body and of the signed card. *)
Class IntroText := { intro_bytes : Introduce.Body -> bytes; card_bytes : Profile.AgentCard -> option bytes }.

Section server.
Context {HS : Hashes} {HX : Hex} {AE : Aead} {ED : Ed25519} {B64 : Base64} {BU : Keys.Base64Url} {BV : Dsse.Base64Variants}
  {JT : Keys.JwkText} {CN : Canon Json} {SX : IJson.JsonSyntax} {SV : Dsse.Schemas} {FC : FromValue Contract}
  {FE : FromValue Dsse.Envelope} {TM : Rfc3339} {TT : Daemon.TimeText} {FS : Evidence.FromSlice}
  {TR : ToValue Evidence.ResultManifest} {TO : ToValue Evidence.Outcome} {CE : Codec Dsse.Envelope}
  {CC : Codec CoveredValues} {CJ : Codec Json} {CB : Codec Problem} {RT : ReceiveText}
  {V : Type} {PV : ProtoValue V} {ST : CoordEgress.SendText V}
  {CH : Codec Keys.ProtectedHeader} {TI : Introduction.Instants} {CK : Profile.CardJson}
  {TK : ToValue Introduction.KeyBindingSet} {CP : Codec StorePeers.StoredPeer} {CHe : Codec Introduction.Hello}
  {CM : Codec Introduction.IntroMaterial} {IT : IntroText} {PR : PeerResolver}.
Context (s : Store) (st : ReceiveState).

Definition problem_403 : HttpResponse := Receive.problem 403 "unauthorized-peer" "the client certificate is not a paired peer".
Definition problem_500 : HttpResponse := Receive.problem 500 "internal" "the request could not be processed".
Definition problem_503_time : HttpResponse :=
  Receive.problem 503 "time-uncertain" "the trusted clock moved backward; refusing until time is re-established".
Definition intro_refused : HttpResponse := Receive.problem 403 "introduction-refused" "the introduction was refused".

Definition public_card : HttpResponse :=
  match rs_intro st with
  | Some intro => match card_bytes (Introduce.signed_card intro) with
                  | Some b => mkHttp 200 "application/json" b
                  | None => problem_500
                  end
  | None => Receive.problem 404 "no-card" "this endpoint serves no public card"
  end.

Definition peer_known (d : Db) (fp : string) : bool := bool_decide (is_Some (resolve d fp)).

(** The sending peer's task-result key, of the root admitted on this connection. *)
Definition task_result_key (d : Db) (fp : string) (peer : PeerContext) : option Keys.PurposeVerifyingKey :=
  _ ← rs_outcome_key st;
  pk ← ask (StorePeers.peer_key fp TASK_RESULT_KEY_PURPOSE) d;
  if decide (StorePeers.k_root_thumbprint pk <> pc_peer_id peer) then None else
  match Keys.from_public_bytes Lifecycle.TaskResult (StorePeers.k_public_key pk) with Ok k => Some k | Err _ => None end.

Definition config_of (d : Db) (fp : string) (peer : PeerContext) : Receive.ReceiveConfig :=
  Receive.mkReceiveConfig (rs_local_performer st) (pc_origin peer) (pc_proposal_key peer) (rs_required_extensions st)
    (rs_interface_url st) (rs_outcome_key st) (task_result_key d fp peer).

Definition respond (n : Seals) (peer_fp : option string) (method content_type : string) (a2a_version content_digest : option string)
  (activated : list string) (body : bytes) (wall_now_unix : Z) (d : Db) : HttpResponse * Db :=
  match peer_fp with
  | None => (problem_403, d)
  | Some fp =>
      match resolve d fp with
      | None => (problem_403, d)
      | Some peer =>
          match exec (StoreMeta.trusted_now wall_now_unix) d with
          | (Err _, d) => (problem_503_time, d)
          | (Ok now, d) =>
              match Receive.handle_receive s n (config_of d fp peer)
                      (Receive.mkHttpRequest method content_type a2a_version content_digest activated None (pc_peer_id peer) body)
                      now d with
              | (Ok r, d) => (r, d)
              | (Err _, d) => (problem_500, d)
              end
          end
      end
  end.

Definition respond_intro (nonce : bytes) (rq : Request) (content_type : string) (body : bytes) (now : Z)
  (slot : Introduce.IntroConnState) (d : Db) : HttpResponse * bool * Introduce.IntroConnState * Db :=
  match rs_intro st with
  | None => (intro_refused, true, slot, d)
  | Some intro =>
      let '(r, close, slot, d) :=
        Introduce.respond_introduction intro s nonce
          (Introduce.mkReq (rq_path rq) (rq_method rq) content_type (ip_text (rq_source rq)) (rq_peer_fp rq) (rq_exporter rq) body now)
          slot d in
      (mkHttp (Introduce.status r) (Introduce.content_type r) (intro_bytes (Introduce.body r)), close, slot, d)
  end.

(** [close_response], and the end of [handle]. *)
Definition reply (r : HttpResponse) (close : bool) : Reply := mkReply (status r) (Some (Receive.content_type r)) (body r) close.
Definition status_reply (code : Z) : Reply := mkReply code None [] false.

Definition is_intro (path : string) : bool :=
  bool_decide (path = Introduction.HELLO_PATH) || bool_decide (path = Introduction.COMPLETE_PATH).

(** The gates before the body: an immediate reply, or the limiter's new state. *)
Definition before_body (rq : Request) (now : Z) (rates : Rates) (d : Db) : option Reply * Rates :=
  if bool_decide (rq_method rq = "GET") && bool_decide (rq_path rq = WELL_KNOWN_CARD_PATH) then
    let '(ok, rates) := intro_rate_admit rates (rq_source rq) now in
    (Some (reply (if (ok : bool) then public_card else intro_refused) true), rates)
  else if is_intro (rq_path rq) then
    let '(ok, rates) := intro_rate_admit rates (rq_source rq) now in
    (if (ok : bool) then None else Some (reply intro_refused true), rates)
  else
    let known := match rq_peer_fp rq with Some fp => peer_known d fp | None => false end in
    (if (known : bool) then None else Some (reply problem_403 true), rates).

Definition body_cap (rq : Request) : Z := if is_intro (rq_path rq) then MAX_INTRODUCTION_BODY else MAX_RECEIVE_BODY.

(** The reply once the body is there. *)
Definition after_body (n : Seals) (rq : Request) (now : Z) (b : bytes) (slot : Introduce.IntroConnState) (d : Db) :
  Reply * Introduce.IntroConnState * Db :=
  let h := rq_headers rq in
  let content_type := default "" (hd_content_type h) in
  if is_intro (rq_path rq) then
    let '(r, close, slot, d) := respond_intro (Receive.sl_contract n) rq content_type b now slot d in (reply r close, slot, d)
  else
    let '(r, d) := respond n (rq_peer_fp rq) (rq_method rq) content_type (hd_a2a_version h) (hd_content_digest h)
                     (activated_of (hd_a2a_extensions h)) b now d in
    (reply r (bool_decide (status r = 403%Z)), slot, d).

(** One request of a connection; [meanwhile] is what happens to the database while the body
    arrives. *)
Definition handle (n : Seals) (rq : Request) (now : Z) (meanwhile : Db -> Db) (rates : Rates) (slot : Introduce.IntroConnState)
  (d : Db) : Reply * Rates * Introduce.IntroConnState * Db :=
  match before_body rq now rates d with
  | (Some r, rates) => (r, rates, slot, d)
  | (None, rates) =>
      let d := meanwhile d in
      match rq_body rq with
      | Slow => (status_reply 408, rates, slot, d)
      | Broken => (status_reply 413, rates, slot, d)
      | Arrived b =>
          if (body_cap rq <? Z.of_nat (length b))%Z then (status_reply 413, rates, slot, d) else
          let '(r, slot, d) := after_body n rq now b slot d in (r, rates, slot, d)
      end
  end.
End server.

(** ** The limiter bounds what it admits *)

(** A run of calls, with what each was told. *)
Fixpoint rate_run (m : Rates) (calls : list (IpAddr * Z)) : list (IpAddr * Z * bool) * Rates :=
  match calls with
  | [] => ([], m)
  | (source, now) :: calls =>
      let '(ok, m) := intro_rate_admit m source now in
      let '(log, m) := rate_run m calls in ((source, now, ok) :: log, m)
  end.

(** The times at which a bucket was admitted. *)
Definition admissions (b : IpAddr) (log : list (IpAddr * Z * bool)) : list Z :=
  omap (fun '(source, now, ok) => if decide (rate_bucket source = b /\ ok = true) then Some now else None) log.

(** How many of them fall in [lo, hi). *)
Definition within (lo hi : Z) (l : list Z) : nat := length (List.filter (fun t => (lo <=? t)%Z && (t <? hi)%Z) l).

(** What a bucket has used of its running window. *)
Definition spent (m : Rates) (b : IpAddr) (now : Z) : Z :=
  match m !! b with Some (n, start) => if running now start then n else 0 | None => 0 end.

Lemma within_app lo hi l l' : within lo hi (l ++ l') = within lo hi l + within lo hi l'.
Proof. unfold within. by rewrite List.filter_app, length_app. Qed.

Lemma within_split lo mid hi l : (lo <= mid)%Z -> (mid <= hi)%Z -> within lo hi l = within lo mid l + within mid hi l.
Proof.
  intros H1 H2. induction l as [|x l IH]; [done|]. unfold within in *. cbn [List.filter].
  destruct (lo <=? x)%Z eqn:E1, (x <? hi)%Z eqn:E2, (x <? mid)%Z eqn:E3, (mid <=? x)%Z eqn:E4; cbn [andb length]; lia.
Qed.

Lemma within_mono lo hi lo' hi' l : (lo' <= lo)%Z -> (hi <= hi')%Z -> within lo hi l <= within lo' hi' l.
Proof.
  intros H1 H2. induction l as [|x l IH]; [done|]. unfold within in *. cbn [List.filter].
  destruct (lo <=? x)%Z eqn:E1, (x <? hi)%Z eqn:E2, (lo' <=? x)%Z eqn:E3, (x <? hi')%Z eqn:E4; cbn [andb length]; lia.
Qed.

Lemma within_one lo hi t : within lo hi [t] = if (lo <=? t)%Z && (t <? hi)%Z then 1 else 0.
Proof. unfold within. cbn [List.filter]. by destruct (_ && _). Qed.

Lemma within_none lo hi l : (forall t, t ∈ l -> t < lo)%Z -> within lo hi l = 0.
Proof.
  intros H. induction l as [|x l IH]; [done|]. unfold within in *. cbn [List.filter].
  pose proof (H x ltac:(set_solver)). replace (lo <=? x)%Z with false by lia. cbn [andb]. apply IH. set_solver.
Qed.

(** A window that opened at [start] with [n] calls, after admissions [l] up to time [now]. *)
Definition windowed (l : list Z) (start n now : Z) : Prop :=
  (0 <= n)%Z /\ (forall t, t ∈ l -> t <= now /\ t < start + WINDOW_SECS)%Z /\
  (Z.of_nat (within start (now + 1) l) <= Z.min n MAX_PER_WINDOW)%Z /\
  (forall t, (start - WINDOW_SECS < t)%Z -> within t start l <= 10) /\
  (forall t, within t (t + WINDOW_SECS) l <= 20).

Lemma windowed_later l start n now now' : windowed l start n now -> (now <= now')%Z -> windowed l start n now'.
Proof.
  intros (H1 & H2 & H3 & H4 & H5) Hle. split_and!; [done|intros t Ht; specialize (H2 t Ht); lia| |done|done].
  destruct (Z.le_gt_cases start (now + 1)).
  - rewrite (within_split start (now + 1) (now' + 1)) by lia. rewrite (within_none (now + 1)); [lia|].
    intros t Ht%H2. lia.
  - rewrite within_none; [unfold MAX_PER_WINDOW; lia|]. intros t Ht%H2. lia.
Qed.

(** The window runs out and another opens. *)
Lemma windowed_open l start n now : windowed l start n now -> (start + WINDOW_SECS <= now)%Z ->
  windowed l now 0 now.
Proof.
  intros (H1 & H2 & H3 & H4 & H5) Hw. unfold windowed, MAX_PER_WINDOW, WINDOW_SECS in *.
  split_and!; [lia|intros t Ht%H2; lia| | |done].
  - rewrite within_none; [lia|]. intros t Ht%H2. lia.
  - intros t Ht. pose proof (within_mono t now start (now + 1) l ltac:(lia) ltac:(lia)). lia.
Qed.

Lemma windowed_call l start n now (ok : bool) : windowed l start n now -> (start <= now)%Z -> (now - start < WINDOW_SECS)%Z ->
  ok = (n + 1 <=? MAX_PER_WINDOW)%Z -> windowed (if ok then l ++ [now] else l) start (n + 1) now.
Proof.
  intros (H1 & H2 & H3 & H4 & H5) Hs Hw ->. unfold windowed, MAX_PER_WINDOW, WINDOW_SECS in *.
  destruct (n + 1 <=? 10)%Z eqn:E; [|split_and!; [lia|done|lia|done|done]].
  split_and!; [lia|intros t [Ht%H2| ->%list_elem_of_singleton]%elem_of_app; lia| | |].
  - rewrite within_app, within_one. replace ((start <=? now) && (now <? now + 1))%Z with true by lia. lia.
  - intros t Ht. rewrite within_app, within_one. replace (now <? start)%Z with false by lia. rewrite andb_false_r.
    specialize (H4 t Ht). lia.
  - intros t. rewrite within_app, within_one. destruct ((t <=? now) && (now <? t + 60))%Z eqn:Et; [|specialize (H5 t); lia].
    destruct (Z.le_gt_cases start t).
    + pose proof (within_mono t (t + 60) start (t + 60) l ltac:(lia) ltac:(lia)) as Hm.
      rewrite (within_split start (now + 1) (t + 60)) in Hm by lia. rewrite (within_none (now + 1)) in Hm; [lia|].
      intros u Hu%H2. lia.
    + rewrite (within_split t start (t + 60)) by lia. pose proof (H4 t ltac:(lia)).
      rewrite (within_split start (now + 1) (t + 60)) by lia. rewrite (within_none (now + 1)); [lia|]. intros u Hu%H2. lia.
Qed.

(** The clock of a run: after [now] only later times come, and none near the end of the
    range. *)
Definition MAX_TIME : Z := 2 ^ 62.

Lemma running_spec now start : (0 <= start <= now)%Z -> (now <= MAX_TIME)%Z -> running now start = (now - start <? WINDOW_SECS)%Z.
Proof. intros Hs Hn. unfold running, MAX_TIME in *. rewrite as_i64_small; [done|]. unfold in_i64, i64_min, i64_max. lia. Qed.

(** The map of a limiter after [k] calls up to time [now]. *)
Definition rates_ok (m : Rates) (now : Z) (k : nat) : Prop :=
  size m <= MAX_TRACKED /\ forall b n start, m !! b = Some (n, start) -> (0 <= start <= now /\ 0 <= n <= Z.of_nat k)%Z.

Lemma pruned_Some m now b x : pruned m now !! b = Some x -> m !! b = Some x.
Proof. unfold pruned, prune. case_bool_decide; [|done]. by intros [? _]%map_lookup_filter_Some. Qed.

Lemma pruned_None m now b : pruned m now !! b = None ->
  m !! b = None \/ exists n start, m !! b = Some (n, start) /\ running now start = false.
Proof.
  unfold pruned, prune. case_bool_decide; [|auto]. intros [?|Hn]%map_lookup_filter_None; [auto|].
  destruct (m !! b) as [[n start]|] eqn:E; [|auto]. right. exists n, start. split; [done|].
  specialize (Hn _ eq_refl). cbn in Hn. by destruct (running now start).
Qed.

Lemma pruned_size m now : size (pruned m now) <= size m.
Proof. unfold pruned, prune. case_bool_decide; [|done]. apply map_size_filter. Qed.

(** Only a bucket that is not tracked is refused for want of room. *)
Definition no_room (m : Rates) (b : IpAddr) (now : Z) : Prop :=
  MAX_TRACKED <= size m /\ MAX_TRACKED <= size (pruned m now) /\ pruned m now !! b = None.

(** Where the window of a bucket starts for a call at [now]. *)
Definition opening (m : Rates) (b : IpAddr) (now : Z) : Z :=
  match m !! b with Some (_, start) => if running now start then start else now | None => now end.

Lemma rate_admit_run m source now : let b := rate_bucket source in
  (no_room m b now /\ intro_rate_admit m source now = (false, pruned m now)) \/
  (~ no_room m b now /\
   let count := ((spent m b now + 1) mod 2 ^ 32)%Z in
   intro_rate_admit m source now = ((count <=? MAX_PER_WINDOW)%Z, <[b := (count, opening m b now)]> (pruned m now))).
Proof.
  intros b. assert (running now now = true) as Hnow by (unfold running; by rewrite Z.sub_diag).
  unfold intro_rate_admit. fold b.
  destruct (bool_decide (MAX_TRACKED <= size m) && _ && _) eqn:E; [left|right].
  - apply andb_true_iff in E as [[H1%bool_decide_eq_true H2%bool_decide_eq_true]%andb_true_iff H3%negb_true_iff].
    apply bool_decide_eq_false in H3. split; [|done]. split_and!; [done..|by apply eq_None_not_Some].
  - split.
    + intros (H1 & H2 & H3). rewrite !bool_decide_true in E by done. rewrite H3 in E. by rewrite bool_decide_false in E by by intros [].
    + unfold spent, opening. destruct (pruned m now !! b) as [[n start]|] eqn:Eb.
      * rewrite (pruned_Some _ _ _ _ Eb). cbn [default from_option id fst snd]. by destruct (running now start).
      * cbn [default from_option id fst snd]. rewrite Hnow.
        destruct (pruned_None _ _ _ Eb) as [->|(n & start & -> & ->)]; done.
Qed.

Lemma spent_bounds m b now now' k : rates_ok m now k -> (0 <= spent m b now' <= Z.of_nat k)%Z.
Proof.
  intros [_ H]. unfold spent. destruct (m !! b) as [[n start]|] eqn:E; [|lia]. apply H in E as [_ ?]. destruct (running _ _); lia.
Qed.

Lemma opening_bounds m b now now' k : rates_ok m now k -> (0 <= now <= now')%Z -> (0 <= opening m b now' <= now')%Z.
Proof.
  intros [_ H] Hn. unfold opening. destruct (m !! b) as [[n start]|] eqn:E; [|lia]. apply H in E as [? _]. destruct (running _ _); lia.
Qed.

Lemma pruned_ok m now now' k : rates_ok m now k -> (now <= now')%Z -> rates_ok (pruned m now') now' (S k).
Proof.
  intros [Hs H] Hn. split; [etrans; [apply pruned_size|done]|]. intros b n start Hb%pruned_Some%H. lia.
Qed.

Lemma rate_step_ok m source now now' k : rates_ok m now k -> (0 <= now <= now')%Z -> (Z.of_nat (S k) < 2 ^ 32)%Z ->
  rates_ok (intro_rate_admit m source now').2 now' (S k).
Proof.
  intros Hok Hn Hk. pose proof (spent_bounds m (rate_bucket source) now now' k Hok) as Hsp.
  pose proof (opening_bounds m (rate_bucket source) now now' k Hok Hn) as Hop.
  pose proof (pruned_ok m now now' k Hok ltac:(lia)) as Hp.
  destruct (rate_admit_run m source now') as [[_ ->]|[Hroom ->]]; cbn [snd]; [done|].
  rewrite Z.mod_small by lia. split.
  - destruct (pruned m now' !! rate_bucket source) as [x|] eqn:Eb.
    + rewrite map_size_insert_Some by eauto. apply Hp.
    + rewrite map_size_insert_None by done. destruct (decide (MAX_TRACKED <= size (pruned m now'))) as [Hf|]; [|lia].
      exfalso. apply Hroom. split_and!; [|done..]. pose proof (pruned_size m now'). lia.
  - intros b n start. rewrite lookup_insert_Some. intros [[<- [= <- <-]]|[_ Hb]]; [lia|by eapply Hp].
Qed.

(** What is known of a bucket's admissions [l] when the limiter is in state [m] at [now]. *)
Definition followed (m : Rates) (b : IpAddr) (l : list Z) (now : Z) : Prop := exists start n,
  windowed l start n now /\ (m !! b = Some (n, start) \/ (m !! b = None /\ start + WINDOW_SECS <= now)%Z).

Lemma followed_step m source now now' k b l : followed m b l now -> rates_ok m now k -> (0 <= now <= now')%Z -> (now' <= MAX_TIME)%Z ->
  (Z.of_nat (S k) < 2 ^ 32)%Z ->
  followed (intro_rate_admit m source now').2 b
    (if decide (rate_bucket source = b /\ (intro_rate_admit m source now').1 = true) then l ++ [now'] else l) now'.
Proof.
  intros (start & n & Hw & Hm) Hok Hn Ht Hk. pose proof (windowed_later _ _ _ _ now' Hw ltac:(lia)) as Hw'.
  assert (pruned m now' !! b = None -> start + WINDOW_SECS <= now')%Z as Hnone.
  { intros Hp. destruct Hm as [Hm|[_ Hm]]; [|lia]. destruct (pruned_None _ _ _ Hp) as [|(n' & st' & Hb & Hr)]; [congruence|].
    assert (st' = start) as -> by congruence. apply Hok in Hb as Hb. rewrite running_spec in Hr by lia. lia. }
  assert (pruned m now' !! b = Some (n, start) \/ (pruned m now' !! b = None /\ start + WINDOW_SECS <= now')%Z) as Hkeep.
  { destruct (pruned m now' !! b) as [x|] eqn:E; [|right; auto]. left. apply pruned_Some in E. destruct Hm as [|[? _]]; congruence. }
  destruct (rate_admit_run m source now') as [[Hno ->]|[_ ->]]; cbn [fst snd].
  { rewrite decide_False by naive_solver. by exists start, n. }
  destruct (decide (rate_bucket source = b)) as [<-|Hb].
  2: { rewrite decide_False by naive_solver. exists start, n. split; [done|]. by rewrite lookup_insert_ne. }
  pose proof (spent_bounds m (rate_bucket source) now now' k Hok) as Hsp. rewrite Z.mod_small by lia.
  set (b := rate_bucket source) in *.
  assert (windowed l (opening m b now') (spent m b now') now' /\ opening m b now' <= now' /\
          now' - opening m b now' < WINDOW_SECS)%Z as (Hwin & Hle & Hlt).
  { unfold opening, spent. destruct Hm as [Hm|[Hm Hx]]; rewrite Hm.
    - apply Hok in Hm as Hb. rewrite running_spec by lia. destruct (_ <? WINDOW_SECS)%Z eqn:E; [split; [done|lia]|].
      split; [apply (windowed_open _ start n); [done|lia]|unfold WINDOW_SECS; lia].
    - split; [apply (windowed_open _ start n); [done|lia]|unfold WINDOW_SECS; lia]. }
  exists (opening m b now'), (spent m b now' + 1)%Z. split; [|left; apply lookup_insert_eq].
  pose proof (windowed_call _ _ _ _ (spent m b now' + 1 <=? MAX_PER_WINDOW)%Z Hwin Hle Hlt eq_refl) as Hc.
  destruct (spent m b now' + 1 <=? MAX_PER_WINDOW)%Z; [rewrite decide_True by done|rewrite decide_False by naive_solver]; done.
Qed.

(** Calls whose times do not go back. *)
Fixpoint timely (now : Z) (calls : list (IpAddr * Z)) : Prop :=
  match calls with [] => True | (_, t) :: calls => (now <= t <= MAX_TIME)%Z /\ timely t calls end.

(** The time of the last call. *)
Definition clock (now : Z) (calls : list (IpAddr * Z)) : Z := foldl (fun _ c => c.2) now calls.

Lemma rate_run_followed b calls : forall m now k l log m', rates_ok m now k -> followed m b l now -> (0 <= now)%Z -> timely now calls ->
  (Z.of_nat (k + length calls) < 2 ^ 32)%Z -> rate_run m calls = (log, m') ->
  rates_ok m' (clock now calls) (k + length calls) /\ followed m' b (l ++ admissions b log) (clock now calls) /\
  (0 <= clock now calls)%Z.
Proof.
  induction calls as [|[source t] calls IH]; intros m now k l log m' Hok Hf Hn Ht Hk.
  { intros [= <- <-]. cbn. rewrite Nat.add_0_r, app_nil_r. auto. }
  destruct Ht as [Ht Hts]. cbn [length] in Hk. cbn [rate_run].
  pose proof (rate_step_ok m source now t k Hok ltac:(lia) ltac:(lia)) as Hok'.
  pose proof (followed_step m source now t k b l Hf Hok ltac:(lia) ltac:(lia) ltac:(lia)) as Hf'.
  destruct (intro_rate_admit m source t) as [ok m1]. cbn [fst snd] in Hok', Hf'.
  destruct (rate_run m1 calls) as [log1 m2] eqn:E. intros [= <- <-].
  destruct (IH m1 t (S k) _ log1 m2 Hok' Hf' ltac:(lia) Hts ltac:(lia) E) as (H1 & H2 & H3).
  change (clock now ((source, t) :: calls)) with (clock t calls). cbn [length]. rewrite Nat.add_succ_r. split; [done|].
  split; [|done]. revert H2. unfold admissions. cbn [omap list_omap]. destruct (decide _); [|done]. by rewrite <- (assoc_L (++)).
Qed.

(** C17. The limiter of the anonymous routes. Whatever sources call it, as long as the clock does
    not go back and there are fewer than 2^32 calls: it tracks at most 1024 buckets; no
    bucket, a whole /64 for IPv6, is admitted more than 20 times within any 60 seconds (10
    in each of two windows); and a bucket it tracks is never starved by other sources: it is
    admitted while it has used less than 10 of its running window. *)
Theorem rate_limited calls log m :
  timely 0 calls -> (Z.of_nat (length calls) < 2 ^ 32)%Z -> rate_run ∅ calls = (log, m) ->
  size m <= MAX_TRACKED /\
  (forall b t, within t (t + WINDOW_SECS) (admissions b log) <= 20) /\
  (forall source now, (clock 0 calls <= now <= MAX_TIME)%Z -> is_Some (m !! rate_bucket source) ->
     (spent m (rate_bucket source) now < MAX_PER_WINDOW)%Z -> (intro_rate_admit m source now).1 = true).
Proof.
  intros Ht Hk Hr.
  assert (forall b, rates_ok m (clock 0 calls) (length calls) /\ followed m b (admissions b log) (clock 0 calls) /\
            0 <= clock 0 calls)%Z as Hrun.
  { intros b. apply (rate_run_followed b calls ∅ 0 0 [] log m); [|exists (- WINDOW_SECS)%Z, 0%Z|done..].
    - split; [rewrite map_size_empty; lia|by intros b' ? ?; rewrite lookup_empty].
    - split; [|right; by rewrite lookup_empty]. split_and!; [done|by intros t ?%not_elem_of_nil|done|intros; unfold within; cbn; lia..]. }
  split; [apply (Hrun (IpV4 (V4 0 0 0 0)))|]. split.
  - intros b t. destruct (Hrun b) as (_ & (start & n & (_ & _ & _ & _ & H) & _) & _). apply H.
  - intros source now Hn [[n start] Hb] Hsp. destruct (Hrun (rate_bucket source)) as (Hok & _ & Hc).
    pose proof (spent_bounds m (rate_bucket source) _ now _ Hok) as Hb0.
    destruct (rate_admit_run m source now) as [[(H1 & H2 & H3) _]|[_ ->]].
    2: { cbn [fst]. unfold MAX_PER_WINDOW in *. rewrite Z.mod_small by lia. lia. }
    exfalso. assert (size (pruned m now) < size m); [|destruct Hok; unfold MAX_TRACKED in *; lia].
    apply map_subset_size. split; [apply map_subseteq_spec; intros b x; apply pruned_Some|].
    intros Hsub. rewrite map_subseteq_spec in Hsub. apply Hsub in Hb. congruence.
Qed.

(** ** Who a request acts for *)

Lemma ask_Some {A} (m : M (option A)) d x : Reads m -> ask m d = Some x <-> m d = Ok (Some x, d).
Proof.
  intros Hr. unfold ask, exec. destruct (m d) as [[o d']|] eqn:E; [|naive_solver]. apply Hr in E as ->. naive_solver.
Qed.

Section attribution.
Context {HS : Hashes} {HX : Hex} {AE : Aead} {ED : Ed25519} {B64 : Base64} {BU : Keys.Base64Url} {BV : Dsse.Base64Variants}
  {JT : Keys.JwkText} {CN : Canon Json} {SX : IJson.JsonSyntax} {SV : Dsse.Schemas} {FC : FromValue Contract}
  {FE : FromValue Dsse.Envelope} {TM : Rfc3339} {TT : Daemon.TimeText} {FS : Evidence.FromSlice}
  {TR : ToValue Evidence.ResultManifest} {TO : ToValue Evidence.Outcome} {CE : Codec Dsse.Envelope}
  {CC : Codec CoveredValues} {CJ : Codec Json} {CB : Codec Problem} {RT : ReceiveText}
  {V : Type} {PV : ProtoValue V} {ST : CoordEgress.SendText V}.
Context (s : Store) (st : ReceiveState).
#[local] Existing Instance StorePeerResolver.

(** The database once the trusted clock was read. *)
Definition clocked (wall : Z) (d : Db) : Db := (exec (StoreMeta.trusted_now wall) d).2.

Lemma resolve_Some d fp ctx : resolve d fp = Some ctx -> exists pk,
  StorePeers.peer_key fp PROPOSAL_KEY_PURPOSE d = Ok (Some pk, d) /\ StorePeers.k_root_thumbprint pk <> "" /\
  StorePeers.peer_status_by_root (StorePeers.k_root_thumbprint pk) d = Ok (Some Lifecycle.Active, d) /\
  pc_peer_id ctx = StorePeers.k_root_thumbprint pk /\
  pc_origin ctx = mkIdentity (StorePeers.k_issuer pk) (StorePeers.k_agent_id pk) (StorePeers.k_root_thumbprint pk).
Proof.
  cbn [resolve StorePeerResolver]. destruct (ask (StorePeers.peer_key _ _) d) as [pk|] eqn:Hk; cbn [mbind option_bind]; [|done].
  destruct (decide _) as [|Hne]; [done|]. destruct (decide _) as [|Hs]; [done|]. apply dec_stable in Hs.
  destruct (Keys.from_public_bytes _ _); [|done]. intros [= <-]. exists pk.
  apply ask_Some in Hk; [|apply _]. apply ask_Some in Hs; [|apply _]. done.
Qed.

(** C13. Every effect is attributed to an active peer. A request over a certificate that is not
    the pinned one of an active peer gets the one 403 and changes nothing. Any other request
    acts for the root the certificate is pinned to: beyond the clock it changes inbox records
    of that root alone, the heads it creates carry that root as their origin and the origin
    of every head is kept, and peers, attempts, calls, stagings, consents and dispatches are
    as they were. *)
Theorem peer_attributed n peer_fp method content_type v digest activated body wall d resp d' :
  respond s st n peer_fp method content_type v digest activated body wall d = (resp, d') ->
  (resp = problem_403 /\ d' = d) \/
  exists fp pk, peer_fp = Some fp /\ StorePeers.peer_key fp PROPOSAL_KEY_PURPOSE d = Ok (Some pk, d) /\
    StorePeers.k_root_thumbprint pk <> "" /\
    StorePeers.peer_status_by_root (StorePeers.k_root_thumbprint pk) d = Ok (Some Lifecycle.Active, d) /\
    Receive.attributed (StorePeers.k_root_thumbprint pk) (clocked wall d) d'.
Proof.
  unfold respond. destruct peer_fp as [fp|]; [|intros [= <- <-]; by left].
  destruct (resolve d fp) as [ctx|] eqn:Hr; [|intros [= <- <-]; by left].
  apply resolve_Some in Hr as (pk & Hk & Hne & Hs & Hid & _). intros H. right. exists fp, pk. do 4 (split; [done|]). revert H.
  unfold clocked. destruct (exec (StoreMeta.trusted_now wall) d) as [[now|e] d1]; cbn [snd]; [|by intros [= _ <-]].
  set (req := Receive.mkHttpRequest _ _ _ _ _ _ _ _). set (config := config_of _ _ _ _).
  pose proof (Receive.receive_attributed s (StorePeers.k_root_thumbprint pk) n config req now Hid d1) as Ha.
  destruct (Receive.handle_receive s n config req now d1) as [[r|] d2]; cbn [snd] in Ha; by intros [= _ <-].
Qed.
End attribution.

(** ** A dispatch, end to end *)

(** [join]. *)
Fixpoint join (sep : string) (l : list string) : string :=
  match l with [] => "" | [x] => x | x :: l => x +:+ sep +:+ join sep l end.

Section client.
Context {HS : Hashes} {B64 : Base64}.

(** The headers [post_a2a] sends with a body. *)
Definition post_headers (body : bytes) : Headers :=
  mkHeaders (Some "application/a2a+json") (Some "1.0") (Some (Delivery.content_digest body))
    (Some (join ", " Dsse.required_extension_uris)).

(** The request as the server sees it. *)
Definition posted (path : string) (body : bytes) (fp : string) (source : IpAddr) (exporter : option bytes) : Request :=
  mkServerRequest "POST" path (post_headers body) (Arrived body) (Some fp) source exporter.
End client.

Lemma posted_extensions : activated_of (Some (join ", " Dsse.required_extension_uris)) = Dsse.required_extension_uris.
Proof. vm_compute. reflexivity. Qed.

Section exchange.
#[local] Existing Instance CoordEgress.struct_value.
Context {HS : Hashes} {HX : Hex} {AE : Aead} {ED : Ed25519} {B64 : Base64} {BU : Keys.Base64Url} {BV : Dsse.Base64Variants}
  {JT : Keys.JwkText} {CN : Canon Json} {SX : IJson.JsonSyntax} {SV : Dsse.Schemas} {FC : FromValue Contract}
  {FE : FromValue Dsse.Envelope} {TM : Rfc3339} {TT : Daemon.TimeText} {FS : Evidence.FromSlice}
  {TR : ToValue Evidence.ResultManifest} {TO : ToValue Evidence.Outcome} {CE : Codec Dsse.Envelope}
  {CC : Codec CoveredValues} {CJ : Codec Json} {CB : Codec Problem} {RT : ReceiveText}
  {V : Type} {PS : CoordEgress.ProtoStruct V} {ST : CoordEgress.SendText V}
  {CH : Codec Keys.ProtectedHeader} {TI : Introduction.Instants} {CK : Profile.CardJson}
  {TK : ToValue Introduction.KeyBindingSet} {CP : Codec StorePeers.StoredPeer} {CHe : Codec Introduction.Hello}
  {CM : Codec Introduction.IntroMaterial} {IT : IntroText} {PR : PeerResolver}.
Context {CG : Codec Broker.ProcessorConfig} {CO : Codec Broker.Origin} {CW : Canon WorkOrder.WorkOrder}
  {CI : Codec WorkOrder.IssuedWorkOrder}.

(** The sender: what it commits and the bytes it posts. *)
Context (staged : StoreCoord.StagedContract) (route : CoordEgress.CoordRoute) (sender_root receipt dispatch_receipt : string)
  (env : Json) (payload b : bytes).
Hypothesis sent_envelope : CoordEgress.envelope staged route sender_root receipt = Ok env.
Hypothesis sent_honest : CoordEgress.honest_staging staged payload.
Hypothesis sent_label : CoordEgress.rt_label route = StoreCoord.g_performer staged.
Hypothesis sent_body : CoordEgress.message_body (V := V) env payload dispatch_receipt (StoreCoord.g_stage_ref staged) = Ok b.
Hypothesis sent_fits : (Z.of_nat (length b) <= MAX_RECEIVE_BODY)%Z.

(** The wire: the generated types read back what they wrote, and the envelope still conforms
    when it comes back from the protobuf value. *)
Context (data : V) (env' : Json).
Hypothesis wire_value : CoordEgress.carried env env' data.
Hypothesis wire_request : CoordEgress.read_request b =
  Some (CoordEgress.dispatch_message data env payload dispatch_receipt (StoreCoord.g_stage_ref staged)).
Hypothesis wire_conforms : CoordEgress.conforms env' = true.

(** The recipient: the endpoint the route names, which has the sender as a pinned peer. *)
Context (s : Store) (st : ReceiveState) (path fp : string) (source : IpAddr) (exporter : option bytes).
Hypothesis here : root (rs_local_performer st) = CoordEgress.rt_root route.
Hypothesis path_a2a : is_intro path = false.
Hypothesis ext_profile : forall x, x ∈ rs_required_extensions st -> x ∈ Dsse.required_extension_uris.

(** The sender is known and the clock runs. *)
Definition ready (wall now : Z) (d d1 : Db) : Prop :=
  (exists peer, resolve d fp = Some peer /\ pc_peer_id peer = sender_root) /\ StoreMeta.trusted_now wall d = Ok (now, d1).

Let rq := posted path b fp source exporter.
Let received := CoordEgress.mkReceivedDispatch (StoreCoord.g_staged_digest staged) (StoreCoord.g_payload_sha256 staged)
  (StoreCoord.g_task_type staged) (StoreCoord.g_performer staged) sender_root receipt (Z.of_nat (length payload)).
Let m : Profile.Message (V := V) := Profile.mkMessage dispatch_receipt (StoreCoord.g_stage_ref staged) "" [] 0
  (CoordEgress.message_parts data env payload) [].

Lemma posted_message : Receive.message_of b = Some m.
Proof. unfold Receive.message_of. by rewrite wire_request. Qed.

Lemma posted_no_result : Receive.result_manifest_envelope (Profile.parts m) = None.
Proof. reflexivity. Qed.

Lemma posted_envelope : CoordEgress.coord_dispatch_envelope (Profile.parts m) = Some env'.
Proof. by apply CoordEgress.sent_envelope. Qed.

(** The handler's view of the posted request. *)
Definition posted_request : Receive.HttpRequest :=
  Receive.mkHttpRequest "POST" "application/a2a+json" (Some "1.0") (Some (Delivery.content_digest b)) Dsse.required_extension_uris None
    sender_root b.

Lemma posted_gates config (msg : Profile.Message (V := V)) : Receive.required_extensions config = rs_required_extensions st ->
  Receive.gates (Receive.required_extensions config) (Receive.ingress_of config posted_request msg) = Ok ().
Proof using ext_profile.
  intros ->. unfold Receive.gates. cbn [Receive.ig_content_type Receive.ig_a2a_version Receive.ig_content_digest Receive.ig_activated
    Receive.ig_body Receive.ingress_of posted_request Receive.req_content_type Receive.a2a_version Receive.content_digest
    Receive.activated_extensions Receive.req_body default from_option id].
  replace (Receive.media_type_matches _ _) with true by (symmetry; vm_compute; reflexivity). cbn [negb].
  rewrite (proj1 (Delivery.content_digest_round_trip b b)). cbn [Proposal.lift_err mbind result_bind].
  destruct (List.filter _ _) as [|x l] eqn:E; [done|].
  assert (x ∈ List.filter (fun r => negb (bool_decide (r ∈ Dsse.required_extension_uris))) (rs_required_extensions st)) as Hx
    by (rewrite E; left).
  apply list_elem_of_In, filter_In in Hx as [Hx%list_elem_of_In%ext_profile Hn]. by rewrite bool_decide_true in Hn.
Qed.

Lemma posted_first config d : Receive.required_extensions config = rs_required_extensions st ->
  StoreInbox.sighting d (sender_root, dispatch_receipt) = None -> Receive.first_contact config posted_request m d.
Proof.
  intros He Hn. split; [vm_compute; reflexivity|]. split; [apply posted_message|]. split; [done|]. split; [by apply posted_gates|done].
Qed.

(** A request that passes the gates before the body is the handler's. *)
Lemma handle_posted n wall meanwhile rates slot d now d1 : ready wall now (meanwhile d) d1 -> peer_known d fp = true ->
  exists peer, resolve (meanwhile d) fp = Some peer /\ pc_peer_id peer = sender_root /\
    handle s st n rq wall meanwhile rates slot d =
      match Receive.handle_receive s n (config_of st d1 fp peer) posted_request now d1 with
      | (Ok r, d') => (reply r (bool_decide (status r = 403%Z)), rates, slot, d')
      | (Err _, d') => (reply problem_500 false, rates, slot, d')
      end.
Proof.
  intros [(peer & Hp & Hid) Ht] Hk. exists peer. do 2 (split; [done|]).
  unfold handle, before_body. cbn [rq_method rq_path rq_peer_fp rq_body rq rq_headers]. unfold rq, posted.
  cbn [rq_method rq_path rq_peer_fp rq_body rq_headers]. change (bool_decide ("POST" = "GET")) with false. cbn [andb].
  rewrite path_a2a, Hk. unfold body_cap. cbn [rq_path]. rewrite path_a2a. replace (_ <? _)%Z with false by lia.
  unfold after_body. cbn [rq_path rq_headers post_headers hd_content_type default from_option id]. rewrite path_a2a.
  unfold respond. cbn [rq_peer_fp]. rewrite Hp. unfold exec at 1. rewrite Ht. cbn [hd_a2a_version hd_content_digest hd_a2a_extensions rq_method].
  unfold post_headers at 3. cbn [hd_a2a_extensions]. rewrite posted_extensions, Hid.
  unfold post_headers. cbn [hd_a2a_version hd_content_digest]. fold posted_request. destruct (Receive.handle_receive _ _ _ _ _ _) as [[r|] d']; done.
Qed.

(** C6. A consented dispatch is acknowledged, once and for all. The bytes an honest sender posts
    to the endpoint its route pins are admitted on first contact: the answer is one the
    sender takes for an acknowledgement of this staged digest, and the recipient's feed grows
    by the one event of the verified arrival. A sender that did not get the answer posts the
    same bytes again, after whatever the recipient's store did in between: it is acknowledged
    with the same answer, and beyond the clock nothing changes. *)
Theorem dispatch_acknowledged n wall now meanwhile rates slot d d1 r rates' slot' d2 :
  length (Receive.sl_response n) = Envelope.NONCE_LEN ->
  (Z.of_nat (length (encode (CoordEgress.acknowledgement received (CoordEgress.rt_root route) now))) <= aead_limit)%Z ->
  ready wall now (meanwhile d) d1 -> peer_known d fp = true ->
  StoreInbox.sighting d1 (sender_root, dispatch_receipt) = None ->
  handle s st n rq wall meanwhile rates slot d = (r, rates', slot', d2) ->
  (CoordEgress.carry route (Ok (rp_status r, rp_body r)) (StoreCoord.g_staged_digest staged) =
     CoordEgress.Acknowledged ("acknowledged by " +:+ CoordEgress.rt_root route) /\
   Receive.standing d2 = Receive.standing d1 /\
   StoreCoord.tbl_events d2 = StoreCoord.tbl_events d1 ++
     [StoreCoord.new_event s (Receive.sl_event n) Receive.COORD_EVENT_RECEIVED None (Receive.coord_received_detail received) now
        (StoreCoord.tbl_events d1)]) /\
  (forall cap n' wall' now' meanwhile' rates1 slot1 d3 d4,
     rtc (StoreReach.store_step s cap) d2 d4 -> ready wall' now' (meanwhile' d3) d4 -> peer_known d3 fp = true ->
     handle s st n' rq wall' meanwhile' rates1 slot1 d3 = (r, rates1, slot1, d4)).
Proof using All.
  intros Hn Hl Hr Hk Hs. destruct (handle_posted n wall meanwhile rates slot d now d1 Hr Hk) as (peer & _ & _ & ->).
  set (config := config_of st d1 fp peer). assert (Receive.required_extensions config = rs_required_extensions st) as He by done.
  assert (Receive.local_performer config = rs_local_performer st) as Hme by done.
  assert (Receive.interface_url config = rs_interface_url st) as Hu by done. clearbody config.
  pose proof (posted_first config d1 He Hs) as Hf. pose proof (Receive.first_contact_run s n config posted_request m now d1 Hf) as Hrun.
  unfold Receive.handle_accepted in Hrun. rewrite posted_envelope in Hrun.
  set (c := Receive.covered_of _) in Hrun.
  destruct (Receive.coord_effect s n config posted_request c env' (Profile.parts m) now d1 Hs) as (d' & E & Hst & Hev).
  assert (CoordEgress.verify env' (Profile.parts m) (Receive.peer posted_request) (root (Receive.local_performer config)) = Ok received)
    as Hv by (rewrite Hme, here; by apply CoordEgress.sent_verifies).
  unfold Receive.arrival_answer in E. unfold Receive.arrival_event in Hev. rewrite Hv in E, Hev. rewrite Hme, here in E.
  rewrite E in Hrun. rewrite Hrun. intros [= <- <- <- <-]. cbn [rp_status rp_body reply status body Receive.a2a_ok]. split.
  { split; [|done]. apply CoordEgress.carry_acknowledged. split; [done|]. eexists _, _. split; [done|].
    rewrite decode_encode. split; [done|]. apply CoordEgress.acknowledgement_digest. }
  intros cap n' wall' now' meanwhile' rates1 slot1 d3 d4 Hsteps Hr' Hk'.
  destruct (handle_posted n' wall' meanwhile' rates1 slot1 d3 now' d4 Hr' Hk') as (peer' & _ & _ & ->).
  set (config' := config_of st d4 fp peer'). assert (Receive.interface_url config' = rs_interface_url st) as Hu' by done.
  assert (Receive.required_extensions config' = rs_required_extensions st) as He' by done. clearbody config'.
  destruct (Receive.coord_recorded s n config posted_request c env' (Profile.parts m) now d1 _ d' Hs E) as (class & Hrec & Hrep).
  rewrite (Receive.replay_answer s n c b _ None class now n' config' posted_request m now' d4 Hn Hl); [cbn [Receive.a2a_ok body] in Hrep; by rewrite Hrep|..].
  - unfold Receive.recorded. eapply Receive.sighting_kept; [exact Hsteps|exact Hrec].
  - apply Hf.
  - apply posted_message.
  - done.
  - by apply posted_gates.
  - unfold c, Receive.covered_of. cbn. by rewrite Hu, Hu'.
Qed.
End exchange.

(** ** Witnesses *)

(** Twelve calls of one source within a second. *)
Definition sample_source : IpAddr := IpV6 (V6 0x2001 0xdb8 0 1 2 3 4 5).
Definition sample_calls : list (IpAddr * Z) := replicate 12 (sample_source, 1000%Z).

Lemma rate_limited_witness : exists log m, rate_run ∅ sample_calls = (log, m) /\
  admissions (rate_bucket sample_source) log = replicate 10 1000%Z /\ size m <= MAX_TRACKED.
Proof.
  destruct (rate_run ∅ sample_calls) as [log m] eqn:E. exists log, m. split; [reflexivity|].
  destruct (rate_limited sample_calls log m ltac:(vm_compute; repeat split; discriminate) ltac:(reflexivity) E) as [H _].
  split; [|exact H]. assert (log = (rate_run ∅ sample_calls).1) as -> by (rewrite E; reflexivity). vm_compute. reflexivity.
Defined.

Definition ToyIntro : IntroText := {| intro_bytes := fun _ => []; card_bytes := fun _ => None |}.

#[local] Existing Instances ToyHashes ToyHex ToyAead ToyEd25519 ToyBase64 ToyBase64Url ToyVariants ToyJwkText ToySchemas ToySyntax
  Evidence.ToySlice Daemon.ToyTimes Daemon.ToyTimeText Daemon.ToyContracts CoordEgress.ToyStruct CoordEgress.ToySend
  CoordEgress.struct_value Receive.ToyReceiveText Receive.ToyEnvelopes ToyIntro StorePeerResolver
  Introduction.sample_card_json Introduction.sample_header Introduce.sample_hello_codec Introduce.sample_material_codec
  Introduce.sample_instants Introduce.sample_sets.
#[local] Instance sample_canon : Canon Json := ToyCanon Json.
#[local] Instance sample_json : Codec Json := ToyCodec Json.
#[local] Instance sample_problems : Codec Problem := ToyCodec Problem.
#[local] Instance sample_covered : Codec CoveredValues := ToyCodec CoveredValues.
#[local] Instance sample_manifests : ToValue Evidence.ResultManifest := Proposal.ToyToValue Evidence.ResultManifest.
#[local] Instance sample_outcomes : ToValue Evidence.Outcome := Proposal.ToyToValue Evidence.Outcome.
#[local] Instance sample_envelopes : Codec Dsse.Envelope := ToyCodec Dsse.Envelope.
#[local] Instance sample_peers : Codec StorePeers.StoredPeer := ToyCodec StorePeers.StoredPeer.

(** Alice is a peer of Bob's. *)
Definition alice_key : Keys.PurposeVerifyingKey := Keys.verifying (Keys.from_seed Lifecycle.ContractProposal (as_bytes "seed")).

Definition d_known : Db :=
  StorePeers.after (StorePeers.commit_introduced_peer StorePeers.sample_store StorePeers.sample_nonce "root-a" 1 StorePeers.alice
    [("contract-proposal", Keys.v_verifying alice_key)] 11) StorePeers.d_imported.

Definition sample_state : ReceiveState :=
  mkReceiveState (mkIdentity "iss" "bob" "root-b") Dsse.required_extension_uris "https://b/a2a" None None.

Definition bad_response : HttpResponse * Db :=
  let b := Receive.sample_body [] in
  respond StorePeers.sample_store sample_state Receive.sample_seals (Some "cert-a") "POST" "application/a2a+json" (Some "1.0")
    (Some (Delivery.content_digest b)) Dsse.required_extension_uris b 50 d_known.

Lemma bad_response_status : status bad_response.1 = 422%Z.
Proof. vm_compute. reflexivity. Qed.

Lemma peer_attributed_witness : exists resp d', bad_response = (resp, d') /\ status resp = 422%Z /\
  exists root, Receive.attributed root (clocked 50 d_known) d'.
Proof.
  destruct bad_response as [resp d'] eqn:E. exists resp, d'. split; [reflexivity|]. pose proof bad_response_status as Hs. rewrite E in Hs.
  split; [exact Hs|]. unfold bad_response in E.
  destruct (peer_attributed StorePeers.sample_store sample_state Receive.sample_seals (Some "cert-a") "POST" "application/a2a+json" (Some "1.0")
    (Some (Delivery.content_digest (Receive.sample_body []))) Dsse.required_extension_uris (Receive.sample_body []) 50 d_known resp d' E)
    as [[H _]|(fp & pk & _ & _ & _ & _ & H)]; [exfalso; rewrite H in Hs; discriminate Hs|].
  exists (StorePeers.k_root_thumbprint pk). exact H.
Defined.

(** Alice's consented staging, as she posts it to Bob. *)
Definition sample_ref : string * string * string :=
  match CoordEgress.stage_reference (as_bytes "hello") "bob" "https://t/v1" with Ok x => x | Err _ => ("", "", "") end.

Definition sample_staged : StoreCoord.StagedContract :=
  StoreCoord.mkStaged sample_ref.1.1 sample_ref.1.2 "https://t/v1" "bob" sample_ref.2 5 "consented" 20.

Definition sample_route : CoordEgress.CoordRoute := CoordEgress.mkRoute "bob" "root-b" "https://b/a2a" "cert-b".

Definition sample_env : Json :=
  CoordEgress.envelope_value "https://t/v1" "bob" "root-b" "root-a" sample_ref.2 sample_ref.1.2 "consent-1".

Definition sample_bytes : bytes :=
  match CoordEgress.message_body (V := Json) sample_env (as_bytes "hello") "dispatch-1" sample_ref.1.1 with Ok b => b | Err _ => [] end.

Definition d_clock : Db := clocked 50 d_known.

Definition sample_exchange : Reply * Rates * Introduce.IntroConnState * Db :=
  handle StorePeers.sample_store sample_state Receive.sample_seals (posted "/a2a" sample_bytes "cert-a" sample_source None) 50 (fun d => d)
    ∅ Introduce.Fresh d_known.

Definition sample_arrival : CoordEgress.ReceivedDispatch :=
  CoordEgress.mkReceivedDispatch sample_ref.1.2 sample_ref.2 "https://t/v1" "bob" "root-a" "consent-1" 5.

Lemma ex_envelope : CoordEgress.envelope sample_staged sample_route "root-a" "consent-1" = Ok sample_env.
Proof. vm_compute; reflexivity. Qed.

Lemma ex_honest : CoordEgress.honest_staging sample_staged (as_bytes "hello").
Proof. vm_compute; reflexivity. Qed.

Lemma ex_label : CoordEgress.rt_label sample_route = StoreCoord.g_performer sample_staged.
Proof. vm_compute; reflexivity. Qed.

Lemma ex_body : CoordEgress.message_body (V := Json) sample_env (as_bytes "hello") "dispatch-1" (StoreCoord.g_stage_ref sample_staged) = Ok sample_bytes.
Proof. vm_compute; reflexivity. Qed.

Lemma ex_fits : (Z.of_nat (length sample_bytes) <=? MAX_RECEIVE_BODY)%Z = true.
Proof. vm_compute; reflexivity. Qed.

Lemma ex_carried : CoordEgress.carried (V := Json) sample_env sample_env sample_env.
Proof. split; reflexivity. Qed.

Lemma ex_request : CoordEgress.read_request sample_bytes =
  Some (CoordEgress.dispatch_message sample_env sample_env (as_bytes "hello") "dispatch-1" (StoreCoord.g_stage_ref sample_staged)).
Proof. vm_compute; reflexivity. Qed.

Lemma ex_conforms : CoordEgress.conforms sample_env = true.
Proof. vm_compute; reflexivity. Qed.

Lemma ex_known : peer_known d_known "cert-a" = true.
Proof. vm_compute; reflexivity. Qed.

Lemma ex_peer : pc_peer_id <$> resolve d_known "cert-a" = Some "root-a".
Proof. vm_compute; reflexivity. Qed.

Lemma ex_time : StoreMeta.trusted_now 50 d_known = Ok (50%Z, d_clock).
Proof. vm_compute; reflexivity. Qed.

Lemma ex_fresh : StoreInbox.sighting d_clock ("root-a", "dispatch-1") = None.
Proof. vm_compute; reflexivity. Qed.

Lemma ex_answer : (Z.of_nat (length (encode (CoordEgress.acknowledgement sample_arrival (CoordEgress.rt_root sample_route) 50))) <=? aead_limit)%Z = true.
Proof. vm_compute; reflexivity. Qed.

Lemma ex_ready : ready "root-a" "cert-a" 50 50 d_known d_clock.
Proof.
  split; [|exact ex_time]. pose proof ex_peer as H. destruct (resolve d_known "cert-a") as [peer|]; [|discriminate].
  exists peer. split; [reflexivity|]. by injection H.
Qed.

#[local] Instance sample_orders : Canon WorkOrder.WorkOrder := ToyCanon WorkOrder.WorkOrder.
#[local] Instance sample_issued : Codec WorkOrder.IssuedWorkOrder := ToyCodec WorkOrder.IssuedWorkOrder.
#[local] Instance sample_origins : Codec Broker.Origin := ToyCodec Broker.Origin.
#[local] Instance sample_configs : Codec Broker.ProcessorConfig := ToyCodec Broker.ProcessorConfig.

Lemma dispatch_acknowledged_witness : exists r rates slot d2, sample_exchange = (r, rates, slot, d2) /\
  CoordEgress.carry sample_route (Ok (rp_status r, rp_body r)) sample_ref.1.2 = CoordEgress.Acknowledged "acknowledged by root-b" /\
  length (StoreCoord.tbl_events d2) = S (length (StoreCoord.tbl_events d_clock)).
Proof.
  destruct sample_exchange as [[[r rates] slot] d2] eqn:E. exists r, rates, slot, d2. split; [reflexivity|]. unfold sample_exchange in E.
  destruct (dispatch_acknowledged sample_staged sample_route "root-a" "consent-1" "dispatch-1" sample_env (as_bytes "hello") sample_bytes
    ex_envelope ex_honest ex_label ex_body (proj1 (Z.leb_le _ _) ex_fits) sample_env sample_env ex_carried ex_request ex_conforms
    StorePeers.sample_store sample_state "/a2a" "cert-a" sample_source None eq_refl eq_refl (fun x Hx => Hx)
    Receive.sample_seals 50 50 (fun d => d) ∅ Introduce.Fresh d_known d_clock r rates slot d2 eq_refl
    (proj1 (Z.leb_le _ _) ex_answer) ex_ready ex_known ex_fresh E) as [(H1 & _ & H2) _].
  split; [exact H1|]. rewrite H2, length_app. cbn. lia.
Defined.
End Server.
