(* ===== verification/Identity.v ===== *)
(** The daemon's own identity: the keys derived from one master seed (aksond/src/keys.rs), and
    what it shows of itself in an introduction (aksond/src/introduce.rs): the advertised
    statement keys, the signed Agent Card and the profile it asks of the other side's card.

    The generated card type is read from JSON by a parameter. *)
From S2P Require Import Prelude Text Crypto Sign Lifecycle Keys Json IJson Dsse Profile Control Contract Introduction Introduce.

Module Identity.
Import Keys Json.
Import Lifecycle (KeyPurpose, KeyPurpose_eq_dec, PAIRED).
Import Control (Problem, problem).

(** ** Keys *)

Record IdentityKeys := mkIdentityKeys { master : bytes }.

Definition purpose_label (p : KeyPurpose) : string :=
  match p with
  | Lifecycle.TlsEndpoint => "tls-endpoint"
  | Lifecycle.AgentCard => "agent-card"
  | Lifecycle.ContractProposal => "contract-proposal"
  | Lifecycle.ContractDecision => "contract-decision"
  | Lifecycle.TaskResult => "task-result"
  | Lifecycle.Evidence => "evidence"
  | Lifecycle.RequesterOutcome => "requester-outcome"
  | Lifecycle.LocalAuthority => "local-authority"
  end.

(** The bytes hashed for a label. *)
Definition derivation (k : IdentityKeys) (label : string) : bytes :=
  as_bytes "akson/identity-key/v1/" ++ as_bytes label ++ [byte_of_Z 0] ++ master k.

(** ** The card *)

Definition card_json (local : Contract.Identity) (interface_url : string) : Json :=
  IJson.obj [("name", JStr (Contract.agent local)); ("description", JStr "akson endpoint"); ("version", JStr "1.0.0");
    ("supportedInterfaces", JArr [IJson.obj [("url", JStr interface_url); ("protocolBinding", JStr "HTTP+JSON");
      ("protocolVersion", JStr "1.0")]]);
    ("capabilities", IJson.obj [("streaming", JBool false); ("pushNotifications", JBool false); ("extendedAgentCard", JBool true);
      ("extensions", JArr ((fun uri => IJson.obj [("uri", JStr uri); ("required", JBool true)]) <$> Dsse.required_extension_uris))]);
    ("securitySchemes", IJson.obj [("mtls", IJson.obj [("mtlsSecurityScheme", IJson.obj [("description", JStr "pinned mutual TLS")])])]);
    ("securityRequirements", JArr [IJson.obj [("schemes", IJson.obj [("mtls", IJson.obj [("list", JArr [])])])]])].

(** [serde_json::from_value] of a card. *)
Class CardReader := read_card : Json -> option Profile.AgentCard.

Definition push_signature (card : Profile.AgentCard) (s : Profile.AgentCardSignature) : Profile.AgentCard :=
  Profile.mkAgentCard (Profile.supported_interfaces card) (Profile.capabilities card) (Profile.security_schemes card)
    (Profile.security_requirements card) (Profile.signatures card ++ [s]) (Profile.rest card).

(** A [BTreeSet] collected from texts. *)
Definition collect_set (l : list string) : list string := sort_text (remove_dups l).

Definition intro_profile : Profile.ProfileConfig :=
  match Profile.profile_new (collect_set Dsse.required_extension_uris) with
  | Ok config => config
  | Err _ => Profile.mkProfile []
  end.

Section identity.
Context {HS : Hashes} {HX : Hex} {ED : Ed25519} {BU : Base64Url} {JT : JwkText} {CH : Codec ProtectedHeader} {CN : Canon Json}
  {CJ : Profile.CardJson} {CR : CardReader}.

Definition derive (k : IdentityKeys) (label : string) : bytes := sha256 (derivation k label).

Definition purpose_key (k : IdentityKeys) (p : KeyPurpose) : PurposeKey := from_seed p (derive k (purpose_label p)).

(** The bytes of the [WorkOrderKey]. *)
Definition work_order_key (k : IdentityKeys) : bytes := derive k "work-order-mac".

Definition own_root (k : IdentityKeys) : string := thumbprint (to_public_bytes (verifying (purpose_key k Lifecycle.AgentCard))).

(** A [BTreeMap] by purpose, whose order is the order of [PAIRED]. *)
Definition statement_keys (k : IdentityKeys) : list (KeyPurpose * PurposeKey) :=
  omap (fun p => if decide (p = Lifecycle.TlsEndpoint) then None else Some (p, purpose_key k p)) PAIRED.

Definition signed_endpoint_card (k : IdentityKeys) (local : Contract.Identity) (interface_url : string) : result Problem Profile.AgentCard :=
  card ← ok_or (read_card (card_json local interface_url)) (problem 500 "internal" "the agent card could not be built");
  sig ← match Profile.sign_card card (purpose_key k Lifecycle.AgentCard) with
        | Ok s => Ok s
        | Err _ => Err (problem 500 "card-sign" "the agent card could not be signed")
        end;
  Ok (push_signature card sig).

(** [IntroIdentity::from_state]. *)
Definition from_state (k : IdentityKeys) (local : Contract.Identity) (interface_url cert : string) : result Problem Introduce.IntroIdentity :=
  card ← signed_endpoint_card k local interface_url;
  Ok (Introduce.mkIntroIdentity (statement_keys k) card cert (own_root k) (Contract.issuer local) (Contract.agent local) intro_profile).

(** ** One key, one role *)

Lemma derivation_inj k k' l l' : length (master k) = length (master k') -> derivation k l = derivation k' l' -> k = k' /\ l = l'.
Proof.
  unfold derivation. intros Hm H. apply app_inv_head in H. rewrite !app_assoc in H. apply app_inj_2 in H as [H Hmm]; [|done].
  apply app_inj_tail in H as [H _]. apply (inj as_bytes) in H as ->. split; [|done]. destruct k, k'. cbn in Hmm. congruence.
Qed.

Lemma purpose_label_inj p q : purpose_label p = purpose_label q -> p = q.
Proof. by destruct p, q. Qed.

(** A derived secret names its role: unless SHA-256 has a collision, two signing keys with the
    same secret are the same key of the same endpoint, and none of them shares its secret with
    a work-order key. *)
Theorem keys_separated k k' p q : length (master k) = length (master k') ->
  (signing (purpose_key k p) = signing (purpose_key k' q) -> (k = k' /\ p = q) \/ sha256_collision) /\
  (signing (purpose_key k p) = work_order_key k' -> sha256_collision).
Proof.
  intros Hm. assert (forall l l', derive k l = derive k' l' -> (k = k' /\ l = l') \/ sha256_collision) as H.
  { intros l l' Hd. destruct (decide (derivation k l = derivation k' l')) as [He|Hne];
      [left; by apply derivation_inj|right; by exists (derivation k l), (derivation k' l')]. }
  split; intros [[? Hl]|]%H; [left; by apply purpose_label_inj in Hl|by right|by destruct p|done].
Qed.

(** ** The card an endpoint shows passes the bar it sets *)

(** The card read from the JSON has the fields that were written. *)
Record card_read (interface_url : string) (card : Profile.AgentCard) : Prop := {
  cr_interfaces : Profile.supported_interfaces card = [Profile.mkInterface interface_url "HTTP+JSON" "1.0"];
  cr_capabilities : Profile.capabilities card = Some (Profile.mkCapabilities (Some false) (Some false) (Some true)
    ((fun uri => Profile.mkExtension uri true) <$> Dsse.required_extension_uris));
  cr_schemes : Profile.security_schemes card = {[ "mtls" := Profile.MtlsSecurityScheme ]};
  cr_requirements : Profile.security_requirements card = [["mtls"]];
  cr_payload : forall s, Profile.canonical_payload (push_signature card s) = Profile.canonical_payload card;
}.

Lemma required_in_profile u : u ∈ Profile.required_extensions intro_profile <-> u ∈ Dsse.required_extension_uris.
Proof.
  assert (Profile.required_extensions intro_profile = collect_set Dsse.required_extension_uris) as -> by (vm_compute; reflexivity).
  unfold collect_set. rewrite sort_text_perm. apply elem_of_remove_dups.
Qed.

Lemma read_conforms interface_url card s : card_read interface_url card ->
  Profile.conforming (push_signature card s) intro_profile <-> Profile.is_bounded_https_uri interface_url = true.
Proof.
  intros [Hi Hc Hs Hr _]. unfold Profile.conforming, push_signature.
  cbn [Profile.supported_interfaces Profile.capabilities Profile.security_schemes Profile.security_requirements].
  rewrite Hi, Hc, Hs, Hr. split.
  - intros ((i & ->%list_elem_of_singleton & Hv) & _). by apply andb_true_iff in Hv as [_ Hv].
  - intros Hu. split; [eexists; split; [by apply list_elem_of_singleton|by unfold Profile.v1_interface; cbn]|]. split.
    + eexists. split_and!; [reflexivity..|]. intros u Hin%required_in_profile. exists (Profile.mkExtension u true).
      split; [|done]. apply list_elem_of_fmap. by exists u.
    + split; [done|]. intros req ->%list_elem_of_singleton. exists "mtls". split; [by apply list_elem_of_singleton|].
      by rewrite lookup_singleton_eq.
Qed.

Lemma signed_card_Ok k local url card : signed_endpoint_card k local url = Ok card ->
  exists card0 s, read_card (card_json local url) = Some card0 /\ Profile.sign_card card0 (purpose_key k Lifecycle.AgentCard) = Ok s /\
    card = push_signature card0 s.
Proof.
  unfold signed_endpoint_card. destruct (read_card _) as [card0|]; [|done]. cbn [ok_or mbind result_bind].
  destruct (Profile.sign_card card0 _) as [s|] eqn:E; [|done]. cbn [mbind result_bind]. intros [= <-]. by exists card0, s.
Qed.

Lemma signed_card_passes k local url card :
  signed_endpoint_card k local url = Ok card -> (forall card0, read_card (card_json local url) = Some card0 -> card_read url card0) ->
  Profile.verify_card card (verifying (purpose_key k Lifecycle.AgentCard)) = Ok () /\
  (Profile.conforming card intro_profile <-> Profile.is_bounded_https_uri url = true).
Proof.
  intros (card0 & s & Hr & Hs & ->)%signed_card_Ok Hread. specialize (Hread _ Hr). split.
  - eapply Profile.sign_card_verifies; [exact Hs|by apply (cr_payload url)|]. cbn. apply elem_of_app. right. by apply list_elem_of_singleton.
  - by apply read_conforms.
Qed.

(** What an endpoint presents of itself is what it asks of others: its card verifies under its
    own root key, and meets the profile exactly if the configured interface address is an https
    URI within the bound. *)
Theorem own_card_passes k local url card :
  signed_endpoint_card k local url = Ok card -> (forall card0, read_card (card_json local url) = Some card0 -> card_read url card0) ->
  Profile.verify_card card (verifying (purpose_key k Lifecycle.AgentCard)) = Ok () /\
  (Profile.validate_agent_card card intro_profile = Ok () <-> Profile.is_bounded_https_uri url = true).
Proof. intros Hs Hr. rewrite Profile.validate_agent_card_Ok. by apply (signed_card_passes k local). Qed.
End identity.
End Identity.
