(* ===== verification/Dial.v ===== *)
(** The dialer's half of first contact (aksond/src/introduce.rs [dial_introduction], [post]): the
    connection to an imported peer's endpoint, the hello, the check of the responder's proof
    before anything is disclosed, the own proof, and the commit.

    A connection is what each stage does; a stage may also never finish, which the caller's time
    limit ends. The peer behind it is any function of what it was sent. The store is used only
    by the commit, so the database is the one the commit meets. The last part puts a dialer
    against the responder of [Introduce]. *)
From S2P Require Import Prelude Text Crypto Sign Envelope AuditLog Lifecycle Keys Json Dsse Proposal Profile Chars Http.
From S2P Require Import Introduction Db StoreMeta StorePeers Toy Introduce Server.

Module Dial.
Import StorePeers Keys Json.
Import Introduction (Hello, IntroMaterial, IntroTranscript, Role, Dialer, Responder, HELLO_PATH, COMPLETE_PATH, PROTOCOL_VERSION,
  TOKEN_VERSION, INTRODUCTION_MEDIA_TYPE).
Import Introduce (IntroIdentity, own_root, cert, keys, signed_card, issuer, agent, profile, transcript, binding_keys, NOT_BEFORE, NOT_AFTER).

(** The causes of errors are their texts; [Store] is one of its kinds of failure. *)
Inductive IntroduceError :=
| NoEndpoint | BadEndpoint | Tls (e : string) | Io (e : string) | HttpError (e : string) | Refused | Status (code : Z)
| Verify (e : string) | StoreFailed (e : StoreError) | NotCommitted (o : IntroCommitOutcome).

(** What a stage comes to: it may fail, or never finish. *)
Inductive Stage (A : Type) := Reaches (a : A) | Fails (e : string) | Hangs.
Arguments Reaches {A} a.
Arguments Fails {A} e.
Arguments Hangs {A}.

(** The answer to a POST: its status and, if it fits and arrives, its body. *)
Record Answer := mkAnswer { a_status : Z; a_body : option bytes }.

(** What was sent on the connection: path, media type and body, oldest first. *)
Record Sent := mkSent { st_path : string; st_media_type : string; st_body : bytes }.

(** The stages, the facts of the TLS session, and the peer: its answer to the last of the
    requests sent so far. *)
Record Connection := mkConnection {
  cn_config : Stage ();
  cn_resolve : string -> Z -> Stage (list string);
  cn_connect : string -> Stage ();
  cn_name : string -> bool;
  cn_handshake : Stage ();
  cn_certificate : option string;
  cn_exporter : option bytes;
  cn_http : Stage ();
  cn_peer : list Sent -> Stage Answer;
}.

(** A step of the dialer, given what was sent before: its outcome, [None] if it never
    finishes, and all that was sent. *)
Definition D (A : Type) : Type := list Sent -> option (result IntroduceError A) * list Sent.

#[global] Instance D_ret : MRet D := fun A a l => (Some (Ok a), l).

#[global] Instance D_bind : MBind D := fun A B f m l =>
  match m l with
  | (Some (Ok a), l') => f a l'
  | (Some (Err e), l') => (Some (Err e), l')
  | (None, l') => (None, l')
  end.

Definition stop {A} (e : IntroduceError) : D A := fun l => (Some (Err e), l).
Definition need {A} (o : option A) (e : IntroduceError) : D A := match o with Some a => mret a | None => stop e end.
Definition stage {A} (err : string -> IntroduceError) (s : Stage A) : D A :=
  match s with Reaches a => mret a | Fails e => stop (err e) | Hangs => fun l => (None, l) end.

(** [rsplit_once(':')] and the port's [parse::<u16>]. *)
Fixpoint last_colon (l : bytes) : option nat :=
  match l with
  | [] => None
  | c :: l => match last_colon l with Some i => Some (S i) | None => if decide (c = ":"%char) then Some 0 else None end
  end.

Definition rsplit_colon (s : string) : option (string * string) :=
  i ← last_colon (as_bytes s); Some (from_utf8 (take i (as_bytes s)), from_utf8 (drop (S i) (as_bytes s))).

Definition host_port (hint : string) : option (string * Z) :=
  '(h, p) ← rsplit_colon hint; port ← Http.parse_unsigned 10 (2 ^ 16) (as_bytes p); Some (h, port).

(** One POST on the connection. *)
Definition post (c : Connection) (path : string) (body : bytes) : D bytes := fun l =>
  let l := l ++ [mkSent path INTRODUCTION_MEDIA_TYPE body] in
  match cn_peer c l with
  | Hangs => (None, l)
  | Fails e => (Some (Err (HttpError e)), l)
  | Reaches a =>
      (Some (if decide (a_status a = 403%Z) then Err Refused
             else if decide (a_status a <> 200%Z) then Err (Status (a_status a))
             else ok_or (a_body a) (HttpError "response too large")), l)
  end.

(** [serde] of an [IntroAck], and the texts of the errors that are shown. *)
Class AckReader := read_ack : bytes -> option bool.

Class DialText := {
  intro_error_text : Introduction.IntroError -> string;
  peer_error_text : Introduction.PeerError -> string;
}.

Section dialer.
Context {HS : Hashes} {HX : Hex} {AE : Aead} {ED : Ed25519} {BU : Base64Url} {JT : JwkText} {CH : Codec ProtectedHeader}
  {SV : Dsse.Schemas} {TM : Introduction.Instants} {CN : Canon Json} {CJ : Profile.CardJson}
  {TV : Proposal.ToValue Introduction.KeyBindingSet} {CP : Codec StoredPeer} {CHello : Codec Hello} {CMat : Codec IntroMaterial}
  {AR : AckReader} {DT : DialText}.
Context (me : IntroIdentity) (s : Store).

(** Up to the TLS session: the server's certificate and the channel binding. *)
Definition open_session (c : Connection) (import : PeerImport) : D (string * bytes) :=
  if decide (i_endpoint_hint import = "") then stop NoEndpoint else
  hp ← need (host_port (i_endpoint_hint import)) BadEndpoint;
  _ ← stage Tls (cn_config c);
  addrs ← stage Io (cn_resolve c hp.1 hp.2);
  addr ← need (head addrs) BadEndpoint;
  _ ← stage Io (cn_connect c addr);
  _ ← need (if cn_name c hp.1 then Some () else None) BadEndpoint;
  _ ← stage Io (cn_handshake c);
  responder_tls ← need (cn_certificate c) (HttpError "no server certificate");
  exporter ← need (cn_exporter c) (HttpError "no channel binding");
  mret (responder_tls, exporter).

Definition hello_for (import : PeerImport) (nonce : string) : Hello :=
  Introduction.mkHello PROTOCOL_VERSION TOKEN_VERSION (i_root_thumbprint import) (own_root me) nonce.

(** The two flights: what was verified of the responder, and its card. [nonce_bytes] is what
    [OsRng] fills in; [now] is the clock in nanoseconds. *)
Definition introduce (c : Connection) (import : PeerImport) (nonce_bytes : bytes) (now : Z) :
  D (Introduction.VerifiedIntroduction * IntroMaterial) :=
  session ← open_session c import;
  let '(responder_tls, exporter) := session in
  let nonce := url_encode nonce_bytes in
  _ ← stage HttpError (cn_http c);
  body ← post c HELLO_PATH (encode (hello_for import nonce));
  their_material ← need (decode body) (Verify "malformed");
  let t role := transcript role (own_root me) (i_root_thumbprint import) (cert me) responder_tls exporter nonce in
  verified ← match Introduction.verify_introduction (i_root_thumbprint import) (t Responder) responder_tls their_material (profile me) now with
             | Ok v => mret v
             | Err e => stop (Verify (intro_error_text e))
             end;
  my_material ← match Introduction.build_intro_material (t Dialer) (issuer me) (agent me) (signed_card me) (keys me) NOT_BEFORE NOT_AFTER 0 with
                | Ok m => mret m
                | Err e => stop (HttpError (intro_error_text e))
                end;
  ack_body ← post c COMPLETE_PATH (encode my_material);
  ack ← need (read_ack ack_body) (Verify "bad ack");
  _ ← need (if (ack : bool) then Some () else None) (Verify "the peer declined the introduction");
  mret (verified, their_material).

(** [now_unix] is [now] in seconds; [seal] seals the committed record. *)
Definition dial_introduction (c : Connection) (import : PeerImport) (nonce_bytes : bytes) (now now_unix : Z) (seal : bytes) (d : Db) :
  option (result IntroduceError (Lifecycle.PeerIdentity * IntroCommitOutcome)) * list Sent * Db :=
  match introduce c import nonce_bytes now [] with
  | (None, l) => (None, l, d)
  | (Some (Err e), l) => (Some (Err e), l, d)
  | (Some (Ok (verified, their_material)), l) =>
      match Introduction.peer_identity_from (Introduction.bindings verified) (Introduction.extended_card their_material) with
      | Err e => (Some (Err (Verify (peer_error_text e))), l, d)
      | Ok identity =>
          let '(outcome, d) := exec (commit_introduced_peer s seal (i_root_thumbprint import) (i_epoch import) (mkStoredPeer identity "")
                                       (binding_keys (Introduction.bindings verified)) now_unix) d in
          (Some (match outcome with
                 | Err e => Err (StoreFailed e)
                 | Ok Committed => Ok (identity, Committed)
                 | Ok AlreadyActive => Ok (identity, AlreadyActive)
                 | Ok other => Err (NotCommitted other)
                 end), l, d)
      end
  end.

(** ** What a dial discloses *)

Lemma need_sends {A} (o : option A) e l : (need o e l).2 = l.
Proof. by destruct o. Qed.

Lemma stage_sends {A} err (st : Stage A) l : (stage err st l).2 = l.
Proof. by destruct st. Qed.

Lemma bind_sends {A B} (m : D A) (f : A -> D B) l : (m l).2 = l -> (forall a, (f a l).2 = l) -> ((m ≫= f) l).2 = l.
Proof. intros Hm Hf. unfold mbind, D_bind. destruct (m l) as [[[a|e]|] l'] eqn:E; cbn in Hm; subst; [apply Hf|done|done]. Qed.

Lemma open_session_sends c import l : (open_session c import l).2 = l.
Proof.
  unfold open_session. case_decide; [done|].
  repeat (apply bind_sends; [first [apply need_sends|apply stage_sends]|intros ?]). done.
Qed.

Definition hello_sent (import : PeerImport) (nonce_bytes : bytes) : Sent :=
  mkSent HELLO_PATH INTRODUCTION_MEDIA_TYPE (encode (hello_for import (url_encode nonce_bytes))).

(** The transcript of this session, for one of its roles. *)
Definition session_transcript (import : PeerImport) (nonce_bytes : bytes) (tls : string) (exporter : bytes) (role : Role) : IntroTranscript :=
  transcript role (own_root me) (i_root_thumbprint import) (cert me) tls exporter (url_encode nonce_bytes).

(** The peer answered the hello with a proof of the imported root over this session. *)
Record proved_root (c : Connection) (import : PeerImport) (nonce_bytes : bytes) (now : Z) (m : IntroMaterial)
  (v : Introduction.VerifiedIntroduction) (mine : IntroMaterial) : Prop := {
  pv_answer : exists b, cn_peer c [hello_sent import nonce_bytes] = Reaches (mkAnswer 200 (Some b)) /\ decode b = Some m;
  pv_session : exists tls exp, cn_certificate c = Some tls /\ cn_exporter c = Some exp /\
    Introduction.verify_introduction (i_root_thumbprint import) (session_transcript import nonce_bytes tls exp Responder) tls m (profile me) now = Ok v /\
    Introduction.build_intro_material (session_transcript import nonce_bytes tls exp Dialer) (issuer me) (agent me) (signed_card me) (keys me)
      NOT_BEFORE NOT_AFTER 0 = Ok mine;
}.

Definition material_sent (mine : IntroMaterial) : Sent := mkSent COMPLETE_PATH INTRODUCTION_MEDIA_TYPE (encode mine).

Lemma open_session_Ok c import l tls exp l' : open_session c import l = (Some (Ok (tls, exp)), l') ->
  l' = l /\ cn_certificate c = Some tls /\ cn_exporter c = Some exp.
Proof.
  intros H. split; [pose proof (open_session_sends c import l) as Hl; by rewrite H in Hl|]. revert H. unfold open_session.
  case_decide; [done|]. unfold need, stage, mbind, D_bind, stop, mret, D_ret. repeat (case_match; try done); intros; by simplify_eq.
Qed.

Lemma bind_at {A B} (m : D A) (f : A -> D B) l : (m ≫= f) l =
  match m l with (Some (Ok a), l') => f a l' | (Some (Err e), l') => (Some (Err e), l') | (None, l') => (None, l') end.
Proof. done. Qed.

Lemma post_sends c path body l : exists o, post c path body l = (o, l ++ [mkSent path INTRODUCTION_MEDIA_TYPE body]) /\
  forall b, o = Some (Ok b) -> cn_peer c (l ++ [mkSent path INTRODUCTION_MEDIA_TYPE body]) = Reaches (mkAnswer 200 (Some b)).
Proof.
  unfold post. cbn zeta. destruct (cn_peer c _) as [[st body']|e|]; eexists; (split; [reflexivity|]); [|done|done].
  cbn [a_status a_body]. intros b. destruct (decide (st = 403%Z)); [done|]. destruct (decide (st <> 200%Z)) as [|Hst%dec_stable]; [done|].
  destruct body' as [b'|]; [|done]. intros [= <-]. by subst.
Qed.

Lemma introduce_trace c import nonce_bytes now o l : introduce c import nonce_bytes now [] = (o, l) ->
  (l = [] /\ (forall x, o <> Some (Ok x))) \/ (l = [hello_sent import nonce_bytes] /\ (forall x, o <> Some (Ok x))) \/
  exists m v mine, proved_root c import nonce_bytes now m v mine /\ l = [hello_sent import nonce_bytes; material_sent mine] /\
    (forall x, o = Some (Ok x) -> x = (v, m)).
Proof.
  unfold introduce. rewrite bind_at. pose proof (open_session_sends c import []) as Hs.
  destruct (open_session c import []) as [[[[tls exp]|e]|] l0] eqn:Eo; cbn [snd] in Hs; subst l0; [|by intros [= <- <-]; left..].
  apply open_session_Ok in Eo as (_ & Htls & Hexp). rewrite bind_at.
  destruct (cn_http c) as [[]|e|]; cbn [stage]; [|by intros [= <- <-]; left..]. unfold mret at 1, D_ret at 1. rewrite bind_at.
  destruct (post_sends c HELLO_PATH (encode (hello_for import (url_encode nonce_bytes))) []) as (o1 & -> & Ho1). cbn [app].
  destruct o1 as [[b|e]|]; [|by intros [= <- <-]; right; left..]. specialize (Ho1 b eq_refl). rewrite bind_at.
  destruct (decode b) as [m|] eqn:Ed; cbn [need]; [|by intros [= <- <-]; right; left]. unfold mret at 1, D_ret at 1. cbn zeta. rewrite bind_at.
  destruct (Introduction.verify_introduction _ _ _ _ _ _) as [v|e] eqn:Ev; [|by intros [= <- <-]; right; left].
  unfold mret at 1, D_ret at 1. rewrite bind_at.
  destruct (Introduction.build_intro_material _ _ _ _ _ _ _ _) as [mine|e] eqn:Em; [|by intros [= <- <-]; right; left].
  unfold mret at 1, D_ret at 1. rewrite bind_at. intros H. right. right. exists m, v, mine.
  split; [split; [by exists b|by exists tls, exp]|].
  destruct (post_sends c COMPLETE_PATH (encode mine) [hello_sent import nonce_bytes]) as (o2 & E2 & _). unfold hello_sent in E2 at 1. rewrite E2 in H.
  cbn [app] in H. destruct o2 as [[b2|e]|]; [|by simplify_eq..]. rewrite bind_at in H.
  destruct (read_ack b2) as [[]|]; unfold need, stop, mbind, D_bind, mret, D_ret in H; injection H as <- <-; (split; [done|]);
    by intros x [= <-].
Qed.

Lemma proved_identity c import nonce_bytes now m v mine identity : proved_root c import nonce_bytes now m v mine ->
  Introduction.peer_identity_from (Introduction.bindings v) (Introduction.extended_card m) = Ok identity ->
  Lifecycle.fp_value (Lifecycle.agent_card_key identity) = i_root_thumbprint import.
Proof. intros [_ (tls & exp & _ & _ & Hv & _)] Hi. by eapply Introduce.verified_root. Qed.

(** What pinning an identity leaves: the root's row, and only it, is now the sealed record of that
    identity, active; keys are added only for that root; imports, knocks and standing policies stay. *)
Record pins_only (seal : bytes) (root : string) (identity : Lifecycle.PeerIdentity) (d d' : Db) : Prop := {
  po_peers : tbl_peers d' =
    <[root := set_status "active" (introduced_row s seal (StoreMeta.state_generation d) (mkStoredPeer identity "") (tbl_peers d !! root))]> (tbl_peers d);
  po_record : length seal = Envelope.NONCE_LEN -> (Z.of_nat (length (encode (mkStoredPeer identity ""))) <= aead_limit)%Z ->
    pinned_as s root (mkStoredPeer identity "") d';
  po_keys : forall k r, tbl_keys d' !! k = Some r -> tbl_keys d !! k = Some r \/ pk_root_thumbprint r = root;
  po_imports : tbl_imports d' = tbl_imports d;
  po_knocks : tbl_knocks d' = tbl_knocks d;
  po_auto : tbl_auto d' = tbl_auto d;
}.

Lemma commit_pins_only seal root e identity keys now d o d' : Lifecycle.fp_value (Lifecycle.agent_card_key identity) = root ->
  commit_introduced_peer s seal root e (mkStoredPeer identity "") keys now d = Ok (o, d') -> o = Committed \/ o = AlreadyActive ->
  pins_only seal root identity d d' /\ exists e', live_epoch root (tbl_imports d) = Some e' /\ Z.max e' 0 = e.
Proof.
  intros Hroot Hc Ho.
  assert (length seal = Envelope.NONCE_LEN -> (Z.of_nat (length (encode (mkStoredPeer identity ""))) <= aead_limit)%Z ->
    pinned_as s root (mkStoredPeer identity "") d') as Hp
    by (intros; by destruct (commit_pins s seal root e (mkStoredPeer identity "") keys now d o d')).
  apply commit_effect in Hc. cbn [StorePeers.identity] in Hc. rewrite Hroot in Hc.
  destruct Ho as [-> | ->]; destruct Hc as (_ & _ & He & _ & ks & Hd & Hk); (split; [|exact He]); split; try exact Hp.
  all: unfold tbl_peers, tbl_keys, tbl_imports, tbl_knocks, tbl_auto in *; rewrite Hd; cbn; try done.
  all: apply map_eq; intros i; destruct (decide (i = root)) as [->|];
    [by rewrite lookup_alter_eq, !lookup_insert_eq|by rewrite lookup_alter_ne, !lookup_insert_ne].
Qed.

(** C27. Dialing discloses in the right order and commits only the imported root. What is sent is at
    most a hello, which holds thumbprints and a nonce, and, only once the peer answered it with
    a proof of the imported root over this connection's certificate, exporter and nonce, the own
    material for that session. A dial that succeeds has pinned the identity proved there, active,
    under exactly the imported root and the epoch of the import it was given: that root's row is
    the sealed record of that identity, no other peer changed, and keys were added only for that
    root. Any other dial leaves the peers as they were or suspends that one root. *)
Theorem dial_discloses c import nonce_bytes now now_unix seal d r l d' :
  dial_introduction c import nonce_bytes now now_unix seal d = (r, l, d') ->
  (l = [] \/ l = [hello_sent import nonce_bytes] \/
   exists m v mine, proved_root c import nonce_bytes now m v mine /\ l = [hello_sent import nonce_bytes; material_sent mine]) /\
  match r with
  | Some (Ok (identity, o)) =>
      (o = Committed \/ o = AlreadyActive) /\ Lifecycle.fp_value (Lifecycle.agent_card_key identity) = i_root_thumbprint import /\
      (exists m v mine, proved_root c import nonce_bytes now m v mine /\ l = [hello_sent import nonce_bytes; material_sent mine] /\
         Introduction.peer_identity_from (Introduction.bindings v) (Introduction.extended_card m) = Ok identity) /\
      (exists e, live_epoch (i_root_thumbprint import) (tbl_imports d) = Some e /\ Z.max e 0 = i_epoch import) /\
      pins_only seal (i_root_thumbprint import) identity d d'
  | _ => peers_db d' = peers_db d \/
      exists why, peers_db d' = upd_peers (alter (set_status (Lifecycle.as_column (Lifecycle.Suspended why))) (i_root_thumbprint import)) (peers_db d)
  end.
Proof.
  unfold dial_introduction. destruct (introduce c import nonce_bytes now []) as [o l0] eqn:E. apply introduce_trace in E.
  destruct o as [[[v m]|e]|]; [|intros [= <- <- <-]; naive_solver..].
  destruct E as [[_ H]|[[_ H]|(m' & v' & mine & Hp & -> & H)]]; [by destruct (H (v, m))..|]. specialize (H _ eq_refl) as [= <- <-].
  destruct (Introduction.peer_identity_from _ _) as [identity|e] eqn:Ei; [|intros [= <- <- <-]; split; [right; right; by exists m, v, mine|by left]].
  pose proof (proved_identity _ _ _ _ _ _ _ _ Hp Ei) as Hroot. unfold exec.
  destruct (commit_introduced_peer _ _ _ _ _ _ _ d) as [[o d1]|e] eqn:Ec; [|intros [= <- <- <-]; split; [right; right; by exists m, v, mine|by left]].
  pose proof (commit_pins_only _ _ _ _ _ _ _ _ _ Hroot Ec) as Hpins. apply commit_effect in Ec.
  intros [= <- <- <-]. split; [right; right; by exists m, v, mine|].
  destruct o; [| |destruct Ec as [-> _]; by left..|by destruct Ec as [_ Ec]].
  all: destruct Hpins as [Hpins He]; [by auto|]; split_and!; [by auto|done|by exists m, v, mine|exact He|exact Hpins].
Qed.
End dialer.
End Dial.
