(* ===== verification/Mutual.v ===== *)
(** First contact between two daemons: a dialer ([Dial]) whose connection ends in the receive
    server of another daemon ([Server]), both made from their master seeds ([Identity]) and
    configured as the code configures them, each with an import of the other's root. *)
From S2P Require Import Prelude Text Crypto Sign Envelope AuditLog Lifecycle Keys Json IJson Dsse Contract Proposal Profile Chars Http.
From S2P Require Import Introduction Evidence Inert Toy Delivery Broker Control Db Handler StoreMeta StorePeers Introduce StoreCalls.
From S2P Require Import CoordEgress Daemon Results Receive Server Identity Dial.

Module Mutual.
Import StorePeers Keys Json Dial.
Import Introduction (Hello, IntroMaterial, IntroTranscript, Role, Dialer, Responder, HELLO_PATH, COMPLETE_PATH, INTRODUCTION_MEDIA_TYPE).
Import Introduce (IntroIdentity, own_root, cert, keys, signed_card, issuer, agent, profile, transcript, NOT_BEFORE, NOT_AFTER, IntroConnState, Fresh).
Import Broker (IpAddr).
Import Proposal (FromValue, ToValue, Rfc3339, ProtoValue).

Section mutual.
Context {HS : Hashes} {HX : Hex} {AE : Aead} {ED : Ed25519} {B64 : Base64} {BU : Keys.Base64Url} {BV : Dsse.Base64Variants}
  {JT : Keys.JwkText} {CN : Canon Json} {SX : IJson.JsonSyntax} {SV : Dsse.Schemas} {FC : FromValue Contract.Contract}
  {FE : FromValue Dsse.Envelope} {TM : Rfc3339} {TT : Daemon.TimeText} {FS : Evidence.FromSlice}
  {TR : ToValue Evidence.ResultManifest} {TO : ToValue Evidence.Outcome} {CE : Codec Dsse.Envelope}
  {CC : Codec Delivery.CoveredValues} {CJ : Codec Json} {CB : Codec Control.Problem} {RT : Receive.ReceiveText}
  {V : Type} {PV : ProtoValue V} {ST : CoordEgress.SendText V}
  {CH : Codec Keys.ProtectedHeader} {TI : Introduction.Instants} {CK : Profile.CardJson}
  {TK : ToValue Introduction.KeyBindingSet} {CP : Codec StorePeers.StoredPeer} {CHe : Codec Introduction.Hello}
  {CM : Codec Introduction.IntroMaterial} {IT : Server.IntroText} {PR : Server.PeerResolver}
  {AR : AckReader} {DT : DialText} {CR : Identity.CardReader}.

(** ** Honest endpoints *)

Record honest (me : IntroIdentity) (rk : PurposeKey) : Prop := {
  hn_purposes : Forall (fun pk => purpose pk.2 = pk.1) (keys me);
  hn_each : NoDup (keys me).*1;
  hn_distinct : NoDup ((fun pk => thumbprint (public_key (signing pk.2))) <$> keys me);
  hn_root : (Lifecycle.AgentCard, rk) ∈ keys me;
  hn_own : own_root me = thumbprint (public_key (signing rk));
  hn_card : Profile.verify_card (signed_card me) (verifying rk) = Ok ();
  hn_conforms : Profile.conforming (signed_card me) Identity.intro_profile;
  hn_profile : profile me = Identity.intro_profile;
}.

(** The identity a daemon makes from its seed and configuration is one, if its interface is an
    https address and its keys differ. *)
Lemma from_state_honest k local url c me :
  Identity.from_state k local url c = Ok me ->
  (forall card, Identity.read_card (Identity.card_json local url) = Some card -> Identity.card_read url card) ->
  Profile.is_bounded_https_uri url = true ->
  NoDup ((fun pk => thumbprint (public_key (signing pk.2))) <$> Identity.statement_keys k) ->
  honest me (Identity.purpose_key k Lifecycle.AgentCard) /\ cert me = c /\ issuer me = Contract.issuer local /\ agent me = Contract.agent local /\
  own_root me = Identity.own_root k.
Proof.
  unfold Identity.from_state. intros H Hread Hu Hd. destruct (Identity.signed_endpoint_card k local url) as [card|] eqn:Ec; [|done].
  injection H as <-. pose proof (Identity.signed_card_passes k local url card Ec Hread) as [Hv Hc]. split; [|done].
  split; cbn; [repeat constructor|repeat constructor; set_solver|done|set_solver|done|done|by apply Hc|done].
Qed.

(** ** The connection *)

(** A request of the dialer as the server sees it. *)
Definition to_request (dialer_cert : string) (source : IpAddr) (exporter : bytes) (x : Sent) : Server.Request :=
  Server.mkServerRequest "POST" (st_path x) (Server.mkHeaders (Some (st_media_type x)) None None None) (Server.Arrived (st_body x))
    (Some dialer_cert) source (Some exporter).

(** A reply as the dialer sees it: the body within its limit. *)
Definition answer_of (r : Server.Reply) : Answer :=
  mkAnswer (Server.rp_status r) (if (Server.MAX_INTRODUCTION_BODY <? Z.of_nat (length (Server.rp_body r)))%Z then None else Some (Server.rp_body r)).

Section conversation.
Context (s : Store) (st : Server.ReceiveState) (n : Receive.Seals) (dialer_cert : string) (source : IpAddr) (exporter : bytes).

(** The server over the requests of the connection; each meets a time and what happened to
    the database before it. *)
Fixpoint serve (l : list Sent) (env : list (Z * (Db -> Db))) (rates : Server.Rates) (slot : IntroConnState) (d : Db) :
  list Server.Reply * Db :=
  match l, env with
  | x :: l, (now, meanwhile) :: env =>
      let '(r, rates, slot, d) := Server.handle s st n (to_request dialer_cert source exporter x) now meanwhile rates slot d in
      let '(rs, d) := serve l env rates slot d in (r :: rs, d)
  | _, _ => ([], d)
  end.

Definition peer_of (env : list (Z * (Db -> Db))) (rates : Server.Rates) (d : Db) (l : list Sent) : Stage Answer :=
  match last (serve l env rates Fresh d).1 with Some r => Reaches (answer_of r) | None => Hangs end.
End conversation.

(** A connection whose stages pass, to a peer with this certificate. *)
Definition connection (addr certificate : string) (exporter : bytes) (peer : list Sent -> Stage Answer) : Connection :=
  mkConnection (Reaches ()) (fun _ _ => Reaches [addr]) (fun _ => Reaches ()) (fun _ => true) (Reaches ()) (Some certificate)
    (Some exporter) (Reaches ()) peer.

(** ** Both sides of one session *)

(** serde's rendering of a response reads back; its ack is one. *)
Hypothesis material_reads : forall m, decode (Server.intro_bytes (Introduce.BMaterial m)) = Some m.
Hypothesis ack_reads : read_ack (Server.intro_bytes Introduce.BAck) = Some true.

Section session.
Context (alice bob : IntroIdentity) (rka rkb : PurposeKey) (Halice : honest alice rka) (Hbob : honest bob rkb).
Context (exporter nonce_bytes : bytes) (source : IpAddr).

Definition session (role : Role) : IntroTranscript :=
  transcript role (own_root alice) (own_root bob) (cert alice) (cert bob) exporter (url_encode nonce_bytes).

(** What serde and the schema make of the record an endpoint presents in a role. *)
Definition record_reads (me : IntroIdentity) (role : Role) : Prop :=
  let json := Introduction.key_binding_json (session role) (issuer me) (agent me) (keys me) NOT_BEFORE NOT_AFTER 0 in
  Proposal.from_value json = Some (Introduction.honest_set (session role) (issuer me) (agent me) (keys me) NOT_BEFORE NOT_AFTER 0) /\
  Dsse.schema_errors Dsse.KeyBindingV1 json = [].

Definition valid_at (now : Z) : Prop := exists nb na, Introduction.parse_instant NOT_BEFORE = Some nb /\
  Introduction.parse_instant NOT_AFTER = Some na /\ (nb <= now < na)%Z.

(** What the other side verified of an endpoint. *)
Definition verified_of (me : IntroIdentity) (role : Role) : Introduction.VerifiedIntroduction :=
  Introduction.mkVerified (Introduction.honest_set (session role) (issuer me) (agent me) (keys me) NOT_BEFORE NOT_AFTER 0)
    (Introduction.jwk_fp (own_root me)).

(** The record pinned of an endpoint is within what the cipher seals. *)
Definition fits (me : IntroIdentity) (role : Role) : Prop := forall identity,
  Introduction.peer_identity_from (Introduction.bindings (verified_of me role)) (signed_card me) = Ok identity ->
  (Z.of_nat (length (encode (mkStoredPeer identity ""))) <= aead_limit)%Z.

Lemma material_of me rk role now : honest me rk -> record_reads me role -> valid_at now ->
  exists m, Introduction.build_intro_material (session role) (issuer me) (agent me) (signed_card me) (keys me) NOT_BEFORE NOT_AFTER 0 = Ok m /\
    Introduction.extended_card m = signed_card me /\
    Introduction.verify_introduction (own_root me) (session role) (Introduction.transcript_tls_of_signer (session role)) m Identity.intro_profile now
      = Ok (verified_of me role).
Proof.
  intros [Hp He Hd Hr Ho Hc Hf _] [Hv Hs] (nb & na & Hnb & Hna & Hnow).
  destruct (Introduction.honest_material (session role) (issuer me) (agent me) (signed_card me) (keys me) NOT_BEFORE NOT_AFTER 0
    Identity.intro_profile now rk nb na) as (m & Hb & Hver); [done..|].
  exists m. split; [done|]. split; [by eapply Introduction.built_card|]. unfold verified_of. by rewrite Ho.
Qed.

Lemma identity_of me rk role : honest me rk ->
  exists identity, Introduction.peer_identity_from (Introduction.bindings (verified_of me role)) (signed_card me) = Ok identity /\
    Lifecycle.p_issuer identity = Some (issuer me) /\ Lifecycle.agent_id identity = agent me /\
    Lifecycle.fp_value (Lifecycle.tls_cert identity) = Introduction.transcript_tls_of_signer (session role) /\
    Lifecycle.fp_value (Lifecycle.agent_card_key identity) = own_root me.
Proof.
  intros [Hp He _ Hr Ho Hc _ _]. apply Profile.verify_card_Ok in Hc as (_ & payload & _ & Hc & _).
  rewrite Ho. by eapply Introduction.honest_identity.
Qed.

(** *** The responder's side *)

Section responder.
Context (sb : Store) (st : Server.ReceiveState) (n : Receive.Seals) (Hintro : Server.rs_intro st = Some bob).

Lemma handle_intro x now meanwhile rates rates' slot d : Server.is_intro (st_path x) = true ->
  Server.intro_rate_admit rates source now = (true, rates') -> (Z.of_nat (length (st_body x)) <= Server.MAX_INTRODUCTION_BODY)%Z ->
  Server.handle sb st n (to_request (cert alice) source exporter x) now meanwhile rates slot d =
  let '(r, close, slot, d) := Introduce.respond_introduction bob sb (Receive.sl_contract n)
    (Introduce.mkReq (st_path x) "POST" (st_media_type x) (Server.ip_text source) (Some (cert alice)) (Some exporter) (st_body x) now)
    slot (meanwhile d) in
  (Server.mkReply (Introduce.status r) (Some (Introduce.content_type r)) (Server.intro_bytes (Introduce.body r)) close, rates', slot, d).
Proof using Hintro.
  intros Hp Hr Hl. unfold Server.handle, Server.before_body, to_request. cbn [Server.rq_method Server.rq_path Server.rq_source Server.rq_body].
  rewrite bool_decide_eq_false_2 by done. cbn [andb]. rewrite Hp, Hr.
  assert ((Server.body_cap (to_request (cert alice) source exporter x) <? Z.of_nat (length (st_body x)))%Z = false) as Hc.
  { unfold Server.body_cap, to_request. cbn [Server.rq_path]. rewrite Hp. lia. }
  unfold to_request in Hc. rewrite Hc. unfold Server.after_body. cbn [Server.rq_headers Server.hd_content_type Server.rq_path default]. rewrite Hp.
  unfold Server.respond_intro. rewrite Hintro. cbn [Server.rq_path Server.rq_method Server.rq_source Server.rq_peer_fp Server.rq_exporter].
  destruct (Introduce.respond_introduction _ _ _ _ _ _) as [[[r close] slot'] d']. done.
Qed.

Definition the_hello : Hello := Introduction.mkHello Introduction.PROTOCOL_VERSION Introduction.TOKEN_VERSION (own_root bob) (own_root alice) (url_encode nonce_bytes).

(** Flight 1: the hello of an imported root is answered with the responder's material. *)
Lemma hello_answered src now d import m :
  Introduce.sane_claim (own_root alice) = (own_root alice, true) -> peer_import (own_root alice) d = Ok (Some import, d) ->
  Introduction.build_intro_material (session Responder) (issuer bob) (agent bob) (signed_card bob) (keys bob) NOT_BEFORE NOT_AFTER 0 = Ok m ->
  Introduce.respond_introduction bob sb (Receive.sl_contract n)
    (Introduce.mkReq HELLO_PATH "POST" INTRODUCTION_MEDIA_TYPE src (Some (cert alice)) (Some exporter) (encode the_hello) now) Fresh d =
  (Introduce.mkResponse 200 INTRODUCTION_MEDIA_TYPE (Introduce.BMaterial m), false, Introduce.Pending the_hello (i_epoch import), d).
Proof.
  intros Hsane Hi Hm. unfold Introduce.respond_introduction. cbn [Introduce.method Introduce.req_content_type Introduce.dialer_tls Introduce.exporter Introduce.path].
  rewrite decide_True by done. replace (_ || _) with false by (vm_compute; reflexivity). unfold Introduce.respond_hello.
  cbn [Introduce.payload Introduce.source Introduce.now_unix]. rewrite decode_encode. unfold the_hello at 1. cbn [Introduction.claimed_root]. rewrite Hsane.
  unfold the_hello at 1 2. cbn [Introduction.h_protocol_version Introduction.h_token_version]. rewrite decide_False by (intros [H|H]; by apply H).
  unfold the_hello at 1. cbn [Introduction.target_root]. rewrite bool_decide_eq_false_2 by (intros H; by apply H). cbn [orb negb].
  unfold exec. unfold the_hello at 1. cbn [Introduction.claimed_root]. rewrite Hi.
  unfold the_hello at 1 2. cbn [Introduction.claimed_root Introduction.h_nonce]. unfold session in Hm. by rewrite Hm.
Qed.

(** Flight 3: the dialer's proof is committed and acknowledged. *)
Lemma complete_acknowledged src now e identity m d :
  Introduction.extended_card m = signed_card alice ->
  Introduction.verify_introduction (own_root alice) (session Dialer) (cert alice) m Identity.intro_profile (Introduce.instant now)
    = Ok (verified_of alice Dialer) ->
  Introduction.peer_identity_from (Introduction.bindings (verified_of alice Dialer)) (signed_card alice) = Ok identity ->
  Lifecycle.fp_value (Lifecycle.agent_card_key identity) = own_root alice -> own_root alice <> "" ->
  live_epoch (own_root alice) (tbl_imports d) = Some e -> tbl_peers d !! own_root alice = None ->
  exists d', commit_introduced_peer sb (Receive.sl_contract n) (own_root alice) (Z.max e 0) (mkStoredPeer identity "")
      (Introduce.binding_keys (Introduction.bindings (verified_of alice Dialer))) now d = Ok (Committed, d') /\
  Introduce.respond_introduction bob sb (Receive.sl_contract n)
    (Introduce.mkReq COMPLETE_PATH "POST" INTRODUCTION_MEDIA_TYPE src (Some (cert alice)) (Some exporter) (encode m) now)
    (Introduce.Pending the_hello (Z.max e 0)) d =
  (Introduce.mkResponse 200 INTRODUCTION_MEDIA_TYPE Introduce.BAck, true, Introduce.Done, d').
Proof using Hbob.
  intros Hcard Hv Hi Hroot Hne He Hp.
  destruct (commit_fresh sb (Receive.sl_contract n) (own_root alice) e (mkStoredPeer identity "")
    (Introduce.binding_keys (Introduction.bindings (verified_of alice Dialer))) now d He Hp Hroot Hne) as [d' Hc].
  exists d'. split; [done|]. unfold Introduce.respond_introduction.
  cbn [Introduce.method Introduce.req_content_type Introduce.dialer_tls Introduce.exporter Introduce.path].
  rewrite decide_False by done. rewrite decide_True by done. replace (_ || _) with false by (vm_compute; reflexivity).
  unfold Introduce.respond_complete. cbn [Introduce.payload Introduce.source Introduce.now_unix]. rewrite decode_encode.
  unfold the_hello. cbn [Introduction.claimed_root Introduction.h_nonce]. rewrite (hn_profile _ _ Hbob).
  unfold session in Hv. rewrite Hv, Hcard, Hi. unfold exec. by rewrite Hc.
Qed.
End responder.

(** *** The dialer's side *)

Context (sa sb : Store) (st : Server.ReceiveState) (n : Receive.Seals) (Hintro : Server.rs_intro st = Some bob).
Context (addr : string) (import : PeerImport) (da db : Db) (now1 now3 : Z) (mw1 mw3 : Db -> Db) (rates : Server.Rates).

Definition env : list (Z * (Db -> Db)) := [(now1, mw1); (now3, mw3)].
Definition link : Connection := connection addr (cert bob) exporter (peer_of sb st n (cert alice) source exporter env rates db).

(** The dialer holds a live import of the responder with a usable address, and no peer yet. *)
Record can_dial (e : Z) : Prop := {
  cd_root : i_root_thumbprint import = own_root bob;
  cd_named : own_root bob <> "";
  cd_endpoint : is_Some (host_port (i_endpoint_hint import));
  cd_epoch : i_epoch import = Z.max e 0;
  cd_live : live_epoch (own_root bob) (tbl_imports da) = Some e;
  cd_new : tbl_peers da !! own_root bob = None;
}.

(** The responder has imported the dialer, has no such peer yet, and lets both flights in. *)
Record can_answer (e : Z) (m_alice m_bob : IntroMaterial) : Prop := {
  ca_claim : Introduce.sane_claim (own_root alice) = (own_root alice, true);
  ca_import : exists imported, peer_import (own_root alice) (mw1 db) = Ok (Some imported, mw1 db) /\ i_epoch imported = Z.max e 0;
  ca_live : live_epoch (own_root alice) (tbl_imports (mw3 (mw1 db))) = Some e;
  ca_new : tbl_peers (mw3 (mw1 db)) !! own_root alice = None;
  ca_rates : exists r1 r2, Server.intro_rate_admit rates source now1 = (true, r1) /\ Server.intro_rate_admit r1 source now3 = (true, r2);
  ca_hello : (Z.of_nat (length (encode the_hello)) <= Server.MAX_INTRODUCTION_BODY)%Z;
  ca_material : (Z.of_nat (length (encode m_alice)) <= Server.MAX_INTRODUCTION_BODY)%Z;
  ca_answer : (Z.of_nat (length (Server.intro_bytes (Introduce.BMaterial m_bob))) <= Server.MAX_INTRODUCTION_BODY)%Z;
  ca_ack : (Z.of_nat (length (Server.intro_bytes Introduce.BAck)) <= Server.MAX_INTRODUCTION_BODY)%Z;
}.

Lemma session_opened e l : can_dial e -> open_session link import l = (Some (Ok (cert bob, exporter)), l).
Proof.
  intros [_ _ [[h p] Hh] _ _ _]. unfold open_session. rewrite decide_False by (intros E; rewrite E in Hh; done).
  unfold need, stage, mbind, D_bind, mret, D_ret. rewrite Hh. done.
Qed.

Lemma answer_whole r : (Z.of_nat (length (Server.rp_body r)) <= Server.MAX_INTRODUCTION_BODY)%Z ->
  answer_of r = mkAnswer (Server.rp_status r) (Some (Server.rp_body r)).
Proof. intros H. unfold answer_of. by destruct (Z.ltb_spec Server.MAX_INTRODUCTION_BODY (Z.of_nat (length (Server.rp_body r)))); [lia|]. Qed.

Definition hello_out : Sent := mkSent HELLO_PATH INTRODUCTION_MEDIA_TYPE (encode the_hello).

(** The server's answers to the two flights, and its database after them. *)
Lemma served e m_alice m_bob identity : can_answer e m_alice m_bob ->
  Introduction.build_intro_material (session Responder) (issuer bob) (agent bob) (signed_card bob) (keys bob) NOT_BEFORE NOT_AFTER 0 = Ok m_bob ->
  Introduction.extended_card m_alice = signed_card alice ->
  Introduction.verify_introduction (own_root alice) (session Dialer) (cert alice) m_alice Identity.intro_profile (Introduce.instant now3)
    = Ok (verified_of alice Dialer) ->
  Introduction.peer_identity_from (Introduction.bindings (verified_of alice Dialer)) (signed_card alice) = Ok identity ->
  Lifecycle.fp_value (Lifecycle.agent_card_key identity) = own_root alice ->
  cn_peer link [hello_out] = Reaches (mkAnswer 200 (Some (Server.intro_bytes (Introduce.BMaterial m_bob)))) /\
  cn_peer link [hello_out; material_sent m_alice] = Reaches (mkAnswer 200 (Some (Server.intro_bytes Introduce.BAck))) /\
  exists d', commit_introduced_peer sb (Receive.sl_contract n) (own_root alice) (Z.max e 0) (mkStoredPeer identity "")
      (Introduce.binding_keys (Introduction.bindings (verified_of alice Dialer))) now3 (mw3 (mw1 db)) = Ok (Committed, d') /\
    (serve sb st n (cert alice) source exporter [hello_out; material_sent m_alice] env rates Fresh db).2 = d'.
Proof using Hbob Hintro.
  intros [Hclaim (imp & Himp & Hep) Hlive Hnew (r1 & r2 & Hr1 & Hr2) Hh Hm Ha Hk] Hb Hcard Hv Hi Hroot.
  assert (own_root alice <> "") as Hne by (intros E; rewrite E in Hclaim; done).
  pose proof (handle_intro sb st n Hintro hello_out now1 mw1 rates r1 Fresh db eq_refl Hr1 Hh) as E1.
  cbn [st_path st_media_type st_body hello_out] in E1. rewrite (hello_answered sb n _ now1 (mw1 db) imp m_bob Hclaim Himp Hb), Hep in E1.
  destruct (complete_acknowledged sb n (Server.ip_text source) now3 e identity m_alice (mw3 (mw1 db)) Hcard Hv Hi Hroot Hne Hlive Hnew) as (d' & Hc & E3).
  pose proof (handle_intro sb st n Hintro (material_sent m_alice) now3 mw3 r1 r2 (Introduce.Pending the_hello (Z.max e 0)) (mw1 db) eq_refl Hr2 Hm) as E2.
  cbn [st_path st_media_type st_body material_sent] in E2. rewrite E3 in E2. cbn [cn_peer link connection]. unfold peer_of.
  split_and!.
  - cbn [serve env]. rewrite E1. cbn [fst snd last]. by rewrite answer_whole.
  - cbn [serve env]. rewrite E1, E2. cbn [fst snd last]. by rewrite answer_whole.
  - exists d'. split; [done|]. cbn [serve env]. by rewrite E1, E2.
Qed.

(** The dialer's run over that connection. *)
Lemma dialed e_a e_b m_alice m_bob id_alice id_bob now now_unix seal : can_dial e_a -> can_answer e_b m_alice m_bob ->
  Introduction.build_intro_material (session Responder) (issuer bob) (agent bob) (signed_card bob) (keys bob) NOT_BEFORE NOT_AFTER 0 = Ok m_bob ->
  Introduction.build_intro_material (session Dialer) (issuer alice) (agent alice) (signed_card alice) (keys alice) NOT_BEFORE NOT_AFTER 0 = Ok m_alice ->
  Introduction.extended_card m_alice = signed_card alice -> Introduction.extended_card m_bob = signed_card bob ->
  Introduction.verify_introduction (own_root alice) (session Dialer) (cert alice) m_alice Identity.intro_profile (Introduce.instant now3)
    = Ok (verified_of alice Dialer) ->
  Introduction.verify_introduction (own_root bob) (session Responder) (cert bob) m_bob Identity.intro_profile now = Ok (verified_of bob Responder) ->
  Introduction.peer_identity_from (Introduction.bindings (verified_of alice Dialer)) (signed_card alice) = Ok id_alice ->
  Introduction.peer_identity_from (Introduction.bindings (verified_of bob Responder)) (signed_card bob) = Ok id_bob ->
  Lifecycle.fp_value (Lifecycle.agent_card_key id_alice) = own_root alice -> Lifecycle.fp_value (Lifecycle.agent_card_key id_bob) = own_root bob ->
  exists d', commit_introduced_peer sa seal (own_root bob) (Z.max e_a 0) (mkStoredPeer id_bob "")
      (Introduce.binding_keys (Introduction.bindings (verified_of bob Responder))) now_unix da = Ok (Committed, d') /\
    dial_introduction alice sa link import nonce_bytes now now_unix seal da =
      (Some (Ok (id_bob, Committed)), [hello_out; material_sent m_alice], d').
Proof using Halice Hbob Hintro ack_reads material_reads.
  intros Hd Ha Hb Hal Hca Hcb Hva Hvb Hia Hib Hra Hrb.
  destruct (served e_b m_alice m_bob id_alice Ha Hb Hca Hva Hia Hra) as (A1 & A2 & _).
  pose proof (session_opened e_a [] Hd) as Hopen. destruct Hd as [Hroot Hne _ Hep Hlive Hnew].
  destruct (commit_fresh sa seal (own_root bob) e_a (mkStoredPeer id_bob "")
    (Introduce.binding_keys (Introduction.bindings (verified_of bob Responder))) now_unix da Hlive Hnew Hrb Hne) as [d' Hc].
  exists d'. split; [done|].
  assert (introduce alice link import nonce_bytes now [] = (Some (Ok (verified_of bob Responder, m_bob)), [hello_out; material_sent m_alice])) as Hin.
  { unfold introduce. rewrite bind_at, Hopen, bind_at. cbn [cn_http link connection stage]. unfold mret at 1, D_ret at 1. rewrite bind_at.
    unfold post at 1. cbn [app]. unfold hello_for. rewrite Hroot. fold the_hello. fold hello_out. rewrite A1. cbn [a_status a_body]. rewrite decide_False by done.
    rewrite decide_False by (intros H; by apply H). cbn [ok_or]. rewrite bind_at, material_reads. cbn [need]. unfold mret at 1, D_ret at 1. cbn zeta. rewrite bind_at.
    rewrite (hn_profile _ _ Halice). fold (session Responder). rewrite Hvb. unfold mret at 1, D_ret at 1. rewrite bind_at. fold (session Dialer). rewrite Hal.
    unfold mret at 1, D_ret at 1. rewrite bind_at. unfold post. cbn [app]. fold (material_sent m_alice). rewrite A2. cbn [a_status a_body].
    rewrite decide_False by done. rewrite decide_False by (intros H; by apply H). cbn [ok_or]. rewrite bind_at, ack_reads. done. }
  unfold dial_introduction. rewrite Hin, Hcb, Hib, Hroot, Hep. unfold exec. by rewrite Hc.
Qed.
End session.

(** C33. Two daemons that imported each other's roots become peers of each other. Both are what the
    code makes of their seeds and configurations; the dialer's connection ends in the other's
    receive server, which lets both flights in, and other work goes on at both in between. Then
    the dial succeeds after exactly the hello and the material, and each side has pinned the
    other, active, under the imported root, with the subject it calls itself and the certificate
    it showed on that connection, which later requests are matched with. *)
Theorem mutual_introduction k_a local_a url_a c_a alice k_b local_b url_b c_b bob exporter nonce_bytes source
    sa sb st n addr import da db now1 now3 mw1 mw3 rates e_a e_b now now_unix seal m_alice m_bob :
  Identity.from_state k_a local_a url_a c_a = Ok alice -> Identity.from_state k_b local_b url_b c_b = Ok bob ->
  (forall local url card, Identity.read_card (Identity.card_json local url) = Some card -> Identity.card_read url card) ->
  Profile.is_bounded_https_uri url_a = true -> Profile.is_bounded_https_uri url_b = true ->
  NoDup ((fun pk => thumbprint (public_key (signing pk.2))) <$> Identity.statement_keys k_a) ->
  NoDup ((fun pk => thumbprint (public_key (signing pk.2))) <$> Identity.statement_keys k_b) ->
  Server.rs_intro st = Some bob ->
  record_reads alice bob exporter nonce_bytes alice Dialer -> record_reads alice bob exporter nonce_bytes bob Responder ->
  valid_at now -> valid_at (Introduce.instant now3) ->
  Introduction.build_intro_material (session alice bob exporter nonce_bytes Dialer) (issuer alice) (agent alice) (signed_card alice) (keys alice)
    NOT_BEFORE NOT_AFTER 0 = Ok m_alice ->
  Introduction.build_intro_material (session alice bob exporter nonce_bytes Responder) (issuer bob) (agent bob) (signed_card bob) (keys bob)
    NOT_BEFORE NOT_AFTER 0 = Ok m_bob ->
  can_dial bob import da e_a -> can_answer alice bob nonce_bytes source db now1 now3 mw1 mw3 rates e_b m_alice m_bob ->
  length seal = Envelope.NONCE_LEN -> length (Receive.sl_contract n) = Envelope.NONCE_LEN ->
  fits alice bob exporter nonce_bytes alice Dialer -> fits alice bob exporter nonce_bytes bob Responder ->
  exists id_alice id_bob da' db',
    dial_introduction alice sa (link alice bob exporter source sb st n addr db now1 now3 mw1 mw3 rates) import nonce_bytes now now_unix seal da =
      (Some (Ok (id_bob, Committed)), [hello_out alice bob nonce_bytes; material_sent m_alice], da') /\
    (serve sb st n c_a source exporter [hello_out alice bob nonce_bytes; material_sent m_alice] (env now1 now3 mw1 mw3) rates Fresh db).2 = db' /\
    pinned_as sa (Identity.own_root k_b) (mkStoredPeer id_bob "") da' /\ Lifecycle.agent_id id_bob = Contract.agent local_b /\
    Lifecycle.p_issuer id_bob = Some (Contract.issuer local_b) /\ Lifecycle.fp_value (Lifecycle.tls_cert id_bob) = c_b /\
    pinned_as sb (Identity.own_root k_a) (mkStoredPeer id_alice "") db' /\ Lifecycle.agent_id id_alice = Contract.agent local_a /\
    Lifecycle.p_issuer id_alice = Some (Contract.issuer local_a) /\ Lifecycle.fp_value (Lifecycle.tls_cert id_alice) = c_a.
Proof using ack_reads material_reads.
  intros Ea Eb Hread Hua Hub Hda Hdb Hintro Hra Hrb Hva Hvb Hma Hmb Hcd Hca Hs Hn Hfa Hfb.
  destruct (from_state_honest _ _ _ _ _ Ea (Hread _ _) Hua Hda) as (Halice & <- & Hia & Haa & Hoa).
  destruct (from_state_honest _ _ _ _ _ Eb (Hread _ _) Hub Hdb) as (Hbob & <- & Hib & Hab & Hob).
  destruct (material_of alice bob exporter nonce_bytes alice _ Dialer _ Halice Hra Hvb) as (m & Hm & Hcard_a & Hver_a). rewrite Hma in Hm. injection Hm as <-.
  destruct (material_of alice bob exporter nonce_bytes bob _ Responder _ Hbob Hrb Hva) as (m & Hm & Hcard_b & Hver_b). rewrite Hmb in Hm. injection Hm as <-.
  destruct (identity_of alice bob exporter nonce_bytes alice _ Dialer Halice) as (id_alice & Hid_a & Hiss_a & Hag_a & Htls_a & Hroot_a).
  destruct (identity_of alice bob exporter nonce_bytes bob _ Responder Hbob) as (id_bob & Hid_b & Hiss_b & Hag_b & Htls_b & Hroot_b).
  destruct (dialed alice bob _ _ Halice Hbob exporter nonce_bytes source sa sb st n Hintro addr import da db now1 now3 mw1 mw3 rates e_a e_b m_alice m_bob
    id_alice id_bob now now_unix seal) as (da' & Hc_a & Hdial); [done..|].
  destruct (served alice bob _ Hbob exporter nonce_bytes source sb st n Hintro addr db now1 now3 mw1 mw3 rates e_b m_alice m_bob id_alice)
    as (_ & _ & db' & Hc_b & Hserve); [done..|].
  exists id_alice, id_bob, da', db'. rewrite <- Hoa, <- Hob, <- Hia, <- Hib, <- Haa, <- Hab.
  split; [done|]. split; [done|].
  destruct (commit_pins _ _ _ _ (mkStoredPeer id_bob "") _ _ _ _ _ Hroot_b Hs (Hfb _ Hid_b) Hc_a (or_introl eq_refl)) as [? _].
  destruct (commit_pins _ _ _ _ (mkStoredPeer id_alice "") _ _ _ _ _ Hroot_a Hn (Hfa _ Hid_a) Hc_b (or_introl eq_refl)) as [? _]. done.
Qed.
End mutual.

(** ** Witnesses: Alice dials Bob *)

Section sample.
#[local] Existing Instances ToyHashes ToyHex ToyAead ToyEd25519 ToyBase64 ToyBase64Url ToyVariants ToyJwkText ToySchemas ToySyntax
  Evidence.ToySlice Daemon.ToyTimes Daemon.ToyTimeText Daemon.ToyContracts CoordEgress.ToyStruct CoordEgress.ToySend
  CoordEgress.struct_value Receive.ToyReceiveText Receive.ToyEnvelopes Server.StorePeerResolver
  Introduction.sample_card_json Introduction.sample_header Introduce.sample_hello_codec Introduce.sample_material_codec
  Introduce.sample_instants Introduce.Set_wire.
#[local] Instance pair_canon : Canon Json := ToyCanon Json.
#[local] Instance pair_json : Codec Json := ToyCodec Json.
#[local] Instance pair_problems : Codec Control.Problem := ToyCodec Control.Problem.
#[local] Instance pair_covered : Codec Delivery.CoveredValues := ToyCodec Delivery.CoveredValues.
#[local] Instance pair_manifests : ToValue Evidence.ResultManifest := Proposal.ToyToValue Evidence.ResultManifest.
#[local] Instance pair_outcomes : ToValue Evidence.Outcome := Proposal.ToyToValue Evidence.Outcome.
#[local] Instance pair_envelopes : Codec Dsse.Envelope := ToyCodec Dsse.Envelope.
#[local] Instance pair_peers : Codec StorePeers.StoredPeer := ToyCodec StorePeers.StoredPeer.
#[local] Instance pair_texts : DialText := {| intro_error_text := fun _ => "error"; peer_error_text := fun _ => "error" |}.
#[local] Instance pair_acks : AckReader := fun b => if decide (b = as_bytes "ack") then Some true else None.
#[local] Instance pair_intro : Server.IntroText := {|
  Server.intro_bytes := fun b => match b with Introduce.BMaterial m => encode m | Introduce.BAck => as_bytes "ack" | Introduce.BProblem _ => [] end;
  Server.card_bytes := fun _ => None |}.

(** The interface's address is read back; the rest is what the code writes. *)
#[local] Instance pair_cards : Identity.CardReader := fun v =>
  l ← Introduction.member "supportedInterfaces" v; a ← Introduction.as_array l; i ← head a; u ← Introduction.member "url" i;
  url ← Introduction.as_str u;
  Some (Profile.mkAgentCard [Profile.mkInterface url "HTTP+JSON" "1.0"]
    (Some (Profile.mkCapabilities (Some false) (Some false) (Some true) ((fun uri => Profile.mkExtension uri true) <$> Dsse.required_extension_uris)))
    {[ "mtls" := Profile.MtlsSecurityScheme ]} [["mtls"]] [] JNull).

Lemma pair_cards_read local url card : Identity.read_card (Identity.card_json local url) = Some card -> Identity.card_read url card.
Proof. intros H. cbv -[Dsse.required_extension_uris] in H. injection H as <-. by split. Qed.

Definition keys_a : Identity.IdentityKeys := Identity.mkIdentityKeys (as_bytes "alice's master seed").
Definition keys_b : Identity.IdentityKeys := Identity.mkIdentityKeys (as_bytes "bob's master seed").
Definition local_a : Contract.Identity := Contract.mkIdentity "iss" "alice" (Identity.own_root keys_a).
Definition local_b : Contract.Identity := Contract.mkIdentity "iss" "bob" (Identity.own_root keys_b).

Definition endpoint (k : Identity.IdentityKeys) (local : Contract.Identity) (url c : string) : IntroIdentity :=
  match Identity.from_state k local url c with Ok me => me | Err _ => Introduce.mkIntroIdentity [] Introduction.sample_card "" "" "" "" Identity.intro_profile end.

Definition alice_me : IntroIdentity := endpoint keys_a local_a "https://alice.example:8443/a2a" "cert-alice".
Definition bob_me : IntroIdentity := endpoint keys_b local_b "https://bob.example:8443/a2a" "cert-bob".

Definition pair_exporter : bytes := as_bytes "exporter".
Definition pair_nonce : bytes := as_bytes "nonce".

Definition pair_record (me : IntroIdentity) (role : Role) : Json :=
  Introduction.key_binding_json (session alice_me bob_me pair_exporter pair_nonce role) (issuer me) (agent me) (keys me) NOT_BEFORE NOT_AFTER 0.
Definition pair_set (me : IntroIdentity) (role : Role) : Introduction.KeyBindingSet :=
  Introduction.honest_set (session alice_me bob_me pair_exporter pair_nonce role) (issuer me) (agent me) (keys me) NOT_BEFORE NOT_AFTER 0.

(** A set as a text; the two records of this session as what they say. *)
#[local] Instance pair_sets : ToValue Introduction.KeyBindingSet.
Proof.
  refine {| Proposal.to_value := fun s => JStr (from_utf8 (put s));
            Proposal.of_value := {| Proposal.from_value := fun v =>
              match v with
              | JStr s => fst <$> get (as_bytes s)
              | _ => Some (if decide (put v = put (pair_record bob_me Responder)) then pair_set bob_me Responder else pair_set alice_me Dialer)
              end |} |}.
  intros s. cbn [Proposal.from_value]. rewrite as_bytes_from_utf8, <- (app_nil_r (put s)), get_put. done.
Defined.

Definition pair_hello : Sent := hello_out alice_me bob_me pair_nonce.
Definition made (me : IntroIdentity) (role : Role) : IntroMaterial :=
  match Introduction.build_intro_material (session alice_me bob_me pair_exporter pair_nonce role) (issuer me) (agent me) (signed_card me) (keys me)
    NOT_BEFORE NOT_AFTER 0 with Ok m => m | Err _ => Introduction.mkMaterial JNull Introduction.sample_card ∅ end.

Definition db_a : Db := after (add_peer_import (own_root bob_me) "bob" "bob.example:8443" 10) empty_db.
Definition db_b : Db := after (add_peer_import (own_root alice_me) "alice" "alice.example:8443" 10) empty_db.
Definition import_bob : PeerImport := mkPeerImport (own_root bob_me) "bob" "bob.example:8443" 1 10.

Definition state_b : Server.ReceiveState :=
  Server.mkReceiveState local_b Dsse.required_extension_uris "https://bob.example:8443/a2a" None (Some bob_me).

Definition pair_link : Connection :=
  link alice_me bob_me pair_exporter Server.sample_source sample_store state_b Receive.sample_seals "192.0.2.2:8443" db_b 1700000000 1700000001
    (fun d => d) (fun d => d) ∅.

Definition rates_once : Server.Rates := (Server.intro_rate_admit ∅ Server.sample_source 1700000000).2.

Lemma pair_answers : can_answer alice_me bob_me pair_nonce Server.sample_source db_b 1700000000 1700000001 (fun d => d) (fun d => d) ∅ 1
  (made alice_me Dialer) (made bob_me Responder).
Proof.
  split.
  - vm_compute. reflexivity.
  - exists (mkPeerImport (own_root alice_me) "alice" "alice.example:8443" 1 10). split; vm_compute; reflexivity.
  - vm_compute. reflexivity.
  - vm_compute. reflexivity.
  - exists rates_once, (Server.intro_rate_admit rates_once Server.sample_source 1700000001).2. split; vm_compute; reflexivity.
  - vm_compute. discriminate.
  - vm_compute. discriminate.
  - vm_compute. discriminate.
  - vm_compute. discriminate.
Qed.

Lemma pair_dials : can_dial bob_me import_bob db_a 1.
Proof. split; try (vm_compute; reflexivity); [vm_compute; discriminate|]. eexists. vm_compute. reflexivity. Qed.

Lemma pair_material_reads m : decode (Server.intro_bytes (Introduce.BMaterial m)) = Some m.
Proof. exact (decode_encode m). Qed.

Lemma pair_ack_reads : read_ack (Server.intro_bytes Introduce.BAck) = Some true.
Proof. reflexivity. Qed.

Lemma alice_made : Identity.from_state keys_a local_a "https://alice.example:8443/a2a" "cert-alice" = Ok alice_me.
Proof. reflexivity. Qed.

Lemma bob_made : Identity.from_state keys_b local_b "https://bob.example:8443/a2a" "cert-bob" = Ok bob_me.
Proof. reflexivity. Qed.

Lemma distinct_keys k : bool_decide (NoDup ((fun pk => thumbprint (public_key (signing pk.2))) <$> Identity.statement_keys k)) = true ->
  NoDup ((fun pk => thumbprint (public_key (signing pk.2))) <$> Identity.statement_keys k).
Proof. apply bool_decide_eq_true_1. Qed.

Lemma pair_fits me role : (match Introduction.peer_identity_from (Introduction.bindings (verified_of alice_me bob_me pair_exporter pair_nonce me role))
    (signed_card me) with
  | Ok identity => Z.of_nat (length (encode (mkStoredPeer identity ""))) <=? aead_limit
  | Err _ => true
  end)%Z = true -> fits alice_me bob_me pair_exporter pair_nonce me role.
Proof. intros H identity Hi. rewrite Hi in H. lia. Qed.

Lemma pair_valid : valid_at 1700000000000000000 /\ valid_at (Introduce.instant 1700000001).
Proof. split; eexists _, _; (split; [vm_compute; reflexivity|]); (split; [vm_compute; reflexivity|]); vm_compute; split; (reflexivity || discriminate). Qed.

Lemma mutual_introduction_witness : exists id_alice id_bob da' db',
  dial_introduction alice_me sample_store pair_link import_bob pair_nonce 1700000000000000000 1700000000 sample_nonce db_a =
    (Some (Ok (id_bob, Committed)), [pair_hello; material_sent (made alice_me Dialer)], da') /\
  pinned_as sample_store (Identity.own_root keys_b) (mkStoredPeer id_bob "") da' /\ Lifecycle.fp_value (Lifecycle.tls_cert id_bob) = "cert-bob" /\
  pinned_as sample_store (Identity.own_root keys_a) (mkStoredPeer id_alice "") db' /\ Lifecycle.fp_value (Lifecycle.tls_cert id_alice) = "cert-alice".
Proof.
  destruct (mutual_introduction pair_material_reads pair_ack_reads keys_a local_a "https://alice.example:8443/a2a" "cert-alice" alice_me
    keys_b local_b "https://bob.example:8443/a2a" "cert-bob" bob_me pair_exporter pair_nonce Server.sample_source sample_store sample_store
    state_b Receive.sample_seals "192.0.2.2:8443" import_bob db_a db_b 1700000000 1700000001 (fun d => d) (fun d => d) ∅ 1 1
    1700000000000000000 1700000000 sample_nonce (made alice_me Dialer) (made bob_me Responder)) as (ia & ib & da' & db' & H1 & _ & H2 & _ & _ & H3 & H4 & _ & _ & H5).
  - exact alice_made.
  - exact bob_made.
  - exact pair_cards_read.
  - vm_compute. reflexivity.
  - vm_compute. reflexivity.
  - apply distinct_keys. vm_compute. reflexivity.
  - apply distinct_keys. vm_compute. reflexivity.
  - reflexivity.
  - split; vm_compute; reflexivity.
  - split; vm_compute; reflexivity.
  - exact (proj1 pair_valid).
  - exact (proj2 pair_valid).
  - vm_compute. reflexivity.
  - vm_compute. reflexivity.
  - exact pair_dials.
  - exact pair_answers.
  - reflexivity.
  - reflexivity.
  - apply pair_fits. vm_compute. reflexivity.
  - apply pair_fits. vm_compute. reflexivity.
  - exists ia, ib, da', db'. exact (conj H1 (conj H2 (conj H3 (conj H4 H5)))).
Defined.

(** The same dial: the material left after the responder's proof, and only that root was pinned. *)
Lemma pair_dialed : match dial_introduction alice_me sample_store pair_link import_bob pair_nonce 1700000000000000000 1700000000
    sample_nonce db_a with (Some (Ok (_, Committed)), _, _) => true | _ => false end = true.
Proof. vm_compute. reflexivity. Qed.

Lemma dial_discloses_witness : exists identity l d', dial_introduction alice_me sample_store pair_link import_bob pair_nonce 1700000000000000000 1700000000
    sample_nonce db_a = (Some (Ok (identity, Committed)), l, d') /\
  (exists m v mine, proved_root alice_me pair_link import_bob pair_nonce 1700000000000000000 m v mine /\
     l = [hello_sent alice_me import_bob pair_nonce; material_sent mine]) /\
  pins_only sample_store sample_nonce (i_root_thumbprint import_bob) identity db_a d'.
Proof.
  destruct (dial_introduction alice_me sample_store pair_link import_bob pair_nonce 1700000000000000000 1700000000 sample_nonce db_a) as [[r l] d'] eqn:E.
  pose proof pair_dialed as Hok. rewrite E in Hok. destruct r as [[[identity []]|]|]; try discriminate Hok.
  exists identity, l, d'. split; [reflexivity|].
  destruct (proj2 (dial_discloses _ _ _ _ _ _ _ _ _ _ _ _ E)) as (_ & _ & (m & v & mine & Hp & Hl & _) & _ & Hpins).
  split; [exists m, v, mine; exact (conj Hp Hl)|exact Hpins].
Defined.
End sample.
End Mutual.
