(* ===== verification/BrokerCall.v ===== *)
(** The processor call of a worker (aksond/src/broker.rs): the gates of
    [run_processor_call], and [dispatch_processor_call] in its three phases, of which the
    first and the last hold the store's lock and the middle one talks to the network.

    The lock is free between the phases, so other threads run there: as a function the call
    takes what they did to the database as an argument, and as a system of many calls the
    phases are the steps. *)
From S2P Require Import Prelude Crypto Envelope AuditLog Machine RowMachine SubAttempt Attempt Json IJson Broker Contract Capability WorkOrder.
From S2P Require Import Toy Control Db Handler StoreContracts StoreAttempts StoreCalls StoreReach Readers Http.

Module BrokerCall.
Import Json.
Import Handler.
Import SubAttempt (SubAttemptState, SubAttemptEvent, Prepared, Dispatching, Completed, Failed, Ambiguous, Cancelled,
  Dispatch, Complete, Fail, MarkAmbiguous).
Import Broker.
Import StoreCalls.
Import Capability (CapabilityVector, ProcessorUse, GProcessorUse, pu_processor_id).
Import Control (Problem, problem, mkProblem).
Import Http (CallResponse, TransportError, Clean, Uncertain, Sending).

(** [EgressError]'s [Display]. *)
Class EgressText := egress_text : EgressError -> string.

Definition problem_detail (status : Z) (kind title detail : string) : Problem :=
  mkProblem ("urn:akson:error:" +:+ kind) title status (Some detail).

Definition is_terminal (state : SubAttemptState) : bool :=
  match state with Completed | Failed | Ambiguous | Cancelled => true | _ => false end.

Definition outcome_json (call : ProcessorCall) (state : SubAttemptState) (resp : option CallResponse) : Json :=
  IJson.obj ([("idempotency_key", JStr (idempotency_key call)); ("state", JStr (SubAttempt.as_str state))] ++
    match resp with
    | Some r => [("status", JInt (Http.rs_status r)); ("response", JStr (Http.lossy_text (Http.rs_body r)))]
    | None => []
    end).

(** What the first phase hands over: the call, and its configuration as it was read then. *)
Record InFlight := mkInFlight {
  f_call : ProcessorCall; f_credential : option bytes; f_cert : option string; f_path : string; f_auth : AuthScheme;
  f_headers : list (string * string);
}.

Section broker.
Context {HS : Hashes} {HX : Hex} {AE : Aead} {CN : Canon Json} {CP : Codec ProcessorConfig} {CO : Codec Origin}
  {CI : Codec WorkOrder.IssuedWorkOrder} {ET : EgressText}.
Context (s : Store).

(** [advance], and [mark] once the lock is taken. *)
Definition advance (key : string) (event : SubAttemptEvent) (now : Z) : H SubAttemptState :=
  r ← call (advance_call key event now); check r internal.

Definition no_processor : Problem := problem 404 "no-such-processor" "no such processor".

Definition check_allowed (r : result EgressError ()) (title : string) : result Problem () :=
  match r with Ok _ => Ok () | Err e => Err (problem_detail 403 "egress-refused" title (egress_text e)) end.

(** Phase 1: the move to [dispatching] and the credential. *)
Definition launch (processor_id : string) (config : ProcessorConfig) (c : ProcessorCall) (now : Z) : H (Json + InFlight) :=
  _ ← advance (idempotency_key c) Dispatch now;
  cred ← call (get_credential s processor_id);
  mret (inr (mkInFlight c cred (tls_certificate_sha256 config) (path config) (auth config) (headers config))).

Definition begin_call (processor_id : string) (request : bytes) (binding : CallBinding) (budget : CallBudget)
  (policy : EgressPolicy) (now : Z) : H (Json + InFlight) :=
  o ← call (get_processor s processor_id);
  config ← require o no_processor;
  _ ← hlift (check_allowed (check_origin (origin config) policy) "the processor origin is not permitted");
  c ← check (prepare config request binding budget) internal;
  out ← call (prepare_call c (u_max_operations budget) now);
  match out with
  | PreparedNow => launch processor_id config c now
  | AlreadyPrepared state => if is_terminal state then mret (inl (outcome_json c state None)) else launch processor_id config c now
  | BudgetExhausted _ => raise (problem 429 "budget-exhausted" "the work order's operation budget is exhausted")
  end.

(** Phase 2: where the call goes, given what the name resolved to. *)
Definition route (f : InFlight) (request : bytes) (policy : EgressPolicy) (resolved : option IpAddr) : result Problem Sending :=
  addr ← ok_or resolved (problem 502 "unresolved" "the processor origin did not resolve");
  _ ← check_allowed (check_resolved_address addr policy) "the resolved address is not permitted";
  Ok (Http.mkSending (host (c_origin (f_call f))) (port (c_origin (f_call f))) addr (f_path f) (f_cert f) (f_auth f)
        (f_credential f) (f_headers f) request (c_max_response_bytes (f_call f))).

Definition abandon (f : InFlight) (p : Problem) (now : Z) : H Json :=
  _ ← advance (idempotency_key (f_call f)) Fail now; raise p.

Definition event_of (r : result TransportError CallResponse) : SubAttemptEvent :=
  match r with Ok _ => Complete | Err (Clean _) => Fail | Err (Uncertain _) => MarkAmbiguous end.

(** Phase 3. *)
Definition finish (f : InFlight) (r : result TransportError CallResponse) (now : Z) : H Json :=
  state ← advance (idempotency_key (f_call f)) (event_of r) now;
  match r with
  | Ok resp => mret (outcome_json (f_call f) state (Some resp))
  | Err (Clean d) => raise (problem_detail 502 "dispatch-failed" "the processor call failed" d)
  | Err (Uncertain d) => raise (problem_detail 502 "dispatch-ambiguous" "the processor call outcome is uncertain" d)
  end.

(** The world outside the store: the resolver and the transport. *)
Record World := mkWorld { w_resolve : string -> Z -> option IpAddr; w_send : Sending -> result TransportError CallResponse }.

(** The whole call, with what was handed to the transport; [gap] is what other threads do
    while the lock is free. *)
Definition dispatch_processor_call (w : World) (processor_id : string) (request : bytes) (binding : CallBinding)
  (budget : CallBudget) (policy : EgressPolicy) (now : Z) (gap : Db -> Db) (d : Db) :
  result Problem Json * list Sending * Db :=
  match begin_call processor_id request binding budget policy now d with
  | (Err p, d1) => (Err p, [], d1)
  | (Ok (inl j), d1) => (Ok j, [], d1)
  | (Ok (inr f), d1) =>
      let o := c_origin (f_call f) in
      match route f request policy (w_resolve w (host o) (port o)) with
      | Err p => let '(r, d2) := abandon f p now (gap d1) in (r, [], d2)
      | Ok snd => let '(r, d2) := finish f (w_send w snd) now (gap d1) in (r, [snd], d2)
      end
  end.

(** ** The worker's entry *)

Definition processor_grant (v : CapabilityVector) (processor_id : string) : result Problem () :=
  match Capability.grant v ProcessorUse with
  | Some (GProcessorUse scope) =>
      if decide (pu_processor_id scope = processor_id) then Ok ()
      else Err (problem 403 "processor-mismatch" "the work order does not authorise this processor")
  | _ => Err (problem 403 "processor-use-not-granted" "the work order does not authorise processor use")
  end.

Definition active (state : option Attempt.AttemptState) : bool :=
  match state with Some Attempt.Claimed | Some Attempt.Running => true | _ => false end.

(** Everything the call is bound to, read under one lock. *)
Definition authorize_call (processor_id work_order_id : string) : H (CallBinding * CallBudget * EgressPolicy) :=
  o ← call (StoreAttempts.get_work_order s work_order_id);
  issued ← require o (problem 404 "no-work-order" "no such work order");
  let order := WorkOrder.order issued in
  _ ← hlift (processor_grant (WorkOrder.capabilities order) processor_id);
  state ← call (StoreAttempts.attempt_state work_order_id);
  if negb (active state) then raise (problem 409 "attempt-not-active" "the attempt is not active") else
  oc ← call (get_processor s processor_id);
  config ← require oc no_processor;
  let binding := mkBinding work_order_id (WorkOrder.i_digest issued) (WorkOrder.task_id order) in
  let b := WorkOrder.budgets order in
  let budget := mkBudget (WorkOrder.max_cost_microusd b) (WorkOrder.deadline order) (WorkOrder.max_bytes b)
                  (WorkOrder.max_operations b) in
  let policy := allowing [origin config] in
  mret (binding, budget, if is_local config then allow_local policy else policy).

(** [run_processor_call]: the lock is also free between the gates and the dispatch. *)
Definition run_processor_call (w : World) (processor_id work_order_id : string) (request : bytes) (now : Z)
  (gap1 gap2 : Db -> Db) (d : Db) : result Problem Json * list Sending * Db :=
  match authorize_call processor_id work_order_id d with
  | (Err p, d1) => (Err p, [], d1)
  | (Ok (binding, budget, policy), d1) =>
      dispatch_processor_call w processor_id request binding budget policy now gap2 (gap1 d1)
  end.

(** ** What the phases do to the calls *)

Lemma call_cases {A} (m : M A) d :
  (exists a d', m d = Ok (a, d') /\ call m d = (Ok a, d')) \/ call m d = (Err internal, d).
Proof. unfold call, exec. destruct (m d) as [[a d']|e]; eauto. Qed.

Lemma advance_cases key e now d r d' : advance key e now d = (r, d') ->
  ((exists p, r = Err p) /\ tbl_calls d' = tbl_calls d) \/
  exists row st st', tbl_calls d !! key = Some row /\ ca_state row = SubAttempt.as_str st /\ SubAttempt.next st e = Ok st' /\
    r = Ok st' /\ tbl_calls d' = <[key := StoreCalls.set_state (SubAttempt.as_str st') row]> (tbl_calls d).
Proof.
  unfold advance, mbind, H_bind. destruct (call_cases (advance_call key e now) d) as [(out & d1 & H & ->)| ->].
  - apply call_advance_effect in H as (row & st & Hr & Hs & Hn & Hd). unfold check. destruct out as [st'|err]; intros [= <- <-].
    + right. exists row, st, st'. split_and!; try done. unfold tbl_calls at 1. by rewrite Hd.
    + left. subst. eauto.
  - intros [= <- <-]. left. eauto.
Qed.

Lemma advance_runs key e now d row st st' : tbl_calls d !! key = Some row -> ca_state row = SubAttempt.as_str st ->
  SubAttempt.next st e = Ok st' -> exists d', advance key e now d = (Ok st', d') /\
    tbl_calls d' = <[key := StoreCalls.set_state (SubAttempt.as_str st') row]> (tbl_calls d).
Proof.
  intros Hr Hs Hn. destruct (advance key e now d) as [r d'] eqn:E. exists d'.
  destruct (advance_cases _ _ _ _ _ _ E) as [[[p ->] _]|(row' & st0 & st1 & Hr' & Hs' & Hn' & -> & Ht)].
  - exfalso. unfold advance, mbind, H_bind, call, exec in E. unfold advance_call in E.
    rewrite (bind_run _ _ _ _ _ (call_state_run _ _ _ _ Hr Hs)), Hn in E.
    rewrite bind_gets, bind_modify, (call_cas_hit _ _ _ _ _ Hr Hs), decide_False in E by (by intros []).
    revert E. unfold audit at 1. unfold mbind at 1, M_bind at 1. destruct (Audit.append _ _ _ _) as [n lg]. cbn. done.
  - assert (st0 = st) as ->.
    { rewrite Hr in Hr'. injection Hr' as <-. rewrite Hs in Hs'. apply (f_equal SubAttempt.from_str) in Hs'.
      rewrite !SubAttempt.call_from_as_str in Hs'. congruence. }
    rewrite Hn in Hn'. injection Hn' as <-. rewrite Hr in Hr'. injection Hr' as <-. done.
Qed.

Definition at_state (d : Db) (key : string) (st : SubAttemptState) : Prop :=
  exists row, tbl_calls d !! key = Some row /\ ca_state row = SubAttempt.as_str st.

Lemma at_state_fun d key st st' : at_state d key st -> at_state d key st' -> st = st'.
Proof.
  intros (r & H1 & H2) (r' & H3 & H4). rewrite H1 in H3. injection H3 as <-. rewrite H2 in H4.
  apply (f_equal SubAttempt.from_str) in H4. rewrite !SubAttempt.call_from_as_str in H4. congruence.
Qed.

(** One row of the table was written, and is now in state [st]. *)
Definition wrote (d d' : Db) (key : string) (st : SubAttemptState) : Prop :=
  exists row, ca_state row = SubAttempt.as_str st /\ tbl_calls d' = <[key := row]> (tbl_calls d).

Lemma wrote_at d d' key st : wrote d d' key st -> at_state d' key st.
Proof. intros (row & Hs & Ht). exists row. by rewrite Ht, lookup_insert_eq. Qed.

Lemma wrote_other d d' key st k st' : wrote d d' key st -> k <> key -> at_state d' k st' <-> at_state d k st'.
Proof. intros (row & _ & Ht) Hne. unfold at_state. by rewrite Ht, lookup_insert_ne. Qed.

Lemma wrote_trans d d1 d2 key st st' : wrote d d1 key st -> wrote d1 d2 key st' -> wrote d d2 key st'.
Proof. intros (r & _ & H1) (r' & Hs & H2). exists r'. split; [done|]. by rewrite H2, H1, insert_insert_eq. Qed.

Definition fresh_or_prepared (d : Db) (key : string) : Prop := tbl_calls d !! key = None \/ at_state d key Prepared.

Lemma advance_outcome key e now d r d' : advance key e now d = (r, d') ->
  ((exists p, r = Err p) /\ tbl_calls d' = tbl_calls d) \/
  exists st st', at_state d key st /\ SubAttempt.next st e = Ok st' /\ r = Ok st' /\ wrote d d' key st'.
Proof.
  intros [?|(row & st & st' & Hr & Hs & Hn & -> & Ht)]%advance_cases; [by left|right]. exists st, st'. split_and!; [by exists row|done|done|].
  eexists. split; [|exact Ht]. done.
Qed.

#[local] Instance get_credential_reads pid : Reads (get_credential s pid).
Proof. unfold get_credential. solve_reads. Qed.

(** A credential is what its own table holds, and no phase of a call writes that table. *)
Lemma credential_same pid d d' cred : tbl_credentials d' = tbl_credentials d ->
  get_credential s pid d' = Ok (cred, d') -> get_credential s pid d = Ok (cred, d).
Proof.
  intros Ht. unfold get_credential. rewrite !bind_gets, Ht. destruct (cr_credential <$> _) as [sealed|];
    unfold mbind, M_bind, lift, mret, M_ret; [destruct (open_col _ _ _); [|done]|]; by intros [= <-].
Qed.

Lemma advance_credentials key e now d r d' : advance key e now d = (r, d') -> tbl_credentials d' = tbl_credentials d.
Proof.
  unfold advance, mbind, H_bind. destruct (call_cases (advance_call key e now) d) as [(out & d1 & H & ->)| ->]; [|by intros [= <- <-]].
  apply call_advance_effect in H as (row & st & _ & _ & _ & Hd). unfold check. intros H.
  assert (d' = d1) as -> by (destruct out; by injection H as <- <-). destruct out; [|by subst]. unfold tbl_credentials. by rewrite Hd.
Qed.

Lemma prepare_credentials c mx now d out d' : prepare_call c mx now d = Ok (out, d') -> tbl_credentials d' = tbl_credentials d.
Proof.
  intros H%prepare_effect. destruct out; [|by destruct H as [-> _]..]. destruct H as (_ & _ & Hd). unfold tbl_credentials. by rewrite Hd.
Qed.

Lemma launch_outcome pid config c now d r d' : launch pid config c now d = (r, d') ->
  (tbl_calls d' = tbl_calls d /\ exists p, r = Err p) \/
  (at_state d (idempotency_key c) Prepared /\ wrote d d' (idempotency_key c) Dispatching /\
   ((exists p, r = Err p) \/ exists cred, get_credential s pid d = Ok (cred, d) /\ r = Ok (inr
      (mkInFlight c cred (tls_certificate_sha256 config) (path config) (auth config) (headers config))))).
Proof.
  unfold launch. destruct (advance (idempotency_key c) Dispatch now d) as [r1 d1] eqn:Ea.
  destruct (advance_outcome _ _ _ _ _ _ Ea) as [[[p ->] Ht]|(st & st' & Hst & Hn & -> & Hw)].
  - rewrite (hbind_stop _ _ _ _ _ Ea). intros [= <- <-]. eauto.
  - rewrite (hbind_run _ _ _ _ _ Ea). intros H. right.
    assert (st = Prepared /\ st' = Dispatching) as [-> ->] by (destruct st; vm_compute in Hn; try congruence; split; congruence).
    split; [done|]. revert H. unfold mbind, H_bind, mret, H_ret. destruct (call_cases (get_credential s pid) d1) as [(cr & d2 & Hc & ->)| ->].
    + pose proof (get_credential_reads _ _ _ _ Hc) as ->. intros [= <- <-].
      apply (credential_same _ d d1) in Hc; [eauto|by eapply advance_credentials].
    + intros [= <- <-]. eauto.
Qed.

Lemma prepare_outcome c mx now d out d' : prepare_call c mx now d = Ok (out, d') ->
  match out with
  | PreparedNow => tbl_calls d !! idempotency_key c = None /\ wrote d d' (idempotency_key c) Prepared /\
      (Z.of_nat (count_where (of_order (c_work_order_id c)) (tbl_calls d)) < mx)%Z
  | AlreadyPrepared st => d' = d /\ at_state d (idempotency_key c) st
  | BudgetExhausted _ => d' = d
  end.
Proof.
  intros H%prepare_effect. destruct out.
  - destruct H as (Hn & Hlt & Hd). split_and!; [done| |done]. exists (prepared_row c now). split; [done|]. unfold tbl_calls at 1. by rewrite Hd.
  - destruct H as [-> (r & Hr & Hs)]. split; [done|]. by exists r.
  - by destruct H.
Qed.

(** The first phase, whole. *)
Lemma begin_outcome pid request b u policy now d r d' : begin_call pid request b u policy now d = (r, d') ->
  (tbl_calls d' = tbl_calls d /\ forall f, r <> Ok (inr f)) \/
  exists config c, get_processor s pid d = Ok (Some config, d) /\ check_origin (origin config) policy = Ok () /\
    prepare config request b u = Ok c /\
    ((tbl_calls d !! idempotency_key c = None /\ wrote d d' (idempotency_key c) Prepared /\ forall f, r <> Ok (inr f)) \/
     (wrote d d' (idempotency_key c) Dispatching /\
      (at_state d (idempotency_key c) Prepared \/ tbl_calls d !! idempotency_key c = None /\
        (Z.of_nat (count_where (of_order (c_work_order_id c)) (tbl_calls d)) < u_max_operations u)%Z) /\
      ((exists p, r = Err p) \/ exists cred, get_credential s pid d = Ok (cred, d) /\ r = Ok (inr
         (mkInFlight c cred (tls_certificate_sha256 config) (path config) (auth config) (headers config)))))).
Proof.
  unfold begin_call. intros H. match type of H with (?m ≫= ?f) ?d = _ => destruct (hread_cases m f d _) as [(q & E & _)|(o & Ho & E)] end;
    rewrite E in H; clear E; [left; by injection H as <- <-|]. apply call_Ok in Ho.
  destruct o as [config|]; [|left; cbn in H; by injection H as <- <-].
  rewrite (hbind_run _ _ d config d) in H by done. destruct (check_origin (origin config) policy) as [[]|e] eqn:Eo;
    [|left; cbn in H; by injection H as <- <-]. rewrite (hbind_run _ _ d tt d) in H by done.
  destruct (prepare config request b u) as [c|e] eqn:Ep; [|left; cbn in H; by injection H as <- <-].
  rewrite (hbind_run _ _ d c d) in H by done.
  destruct (call_cases (prepare_call c (u_max_operations u) now) d) as [(out & d1 & Hp & Hc)|Hc];
    [rewrite (hbind_run _ _ _ _ _ Hc) in H|rewrite (hbind_stop _ _ _ _ _ Hc) in H; left; by injection H as <- <-].
  pose proof (prepare_credentials _ _ _ _ _ _ Hp) as Hcr. apply prepare_outcome in Hp. destruct out as [|st|mx].
  - destruct Hp as (Hn & Hw & Hlt). right. exists config, c. split_and!; [done..|].
    apply launch_outcome in H as [[Ht [p ->]]|(_ & Hw' & Hr)].
    + left. split_and!; [done| |done]. destruct Hw as (row & Hs & Hw). exists row. by rewrite Ht.
    + right. split_and!; [by eapply wrote_trans|auto|]. destruct Hr as [?|(cred & Hc' & ->)]; [by left|right]. exists cred.
      split; [|done]. by apply (credential_same _ d d1).
  - destruct Hp as [-> Hst]. destruct (is_terminal st) eqn:Et; [left; by injection H as <- <-|].
    apply launch_outcome in H as [[Ht [p ->]]|(Hpr & Hw' & Hr)]; [by left|]. right. exists config, c. split_and!; [done..|].
    right. auto.
  - subst. left. by injection H as <- <-.
Qed.

Lemma route_Ok f request policy resolved x : route f request policy resolved = Ok x ->
  resolved = Some (Http.s_addr x) /\ check_resolved_address (Http.s_addr x) policy = Ok () /\
  x = Http.mkSending (host (c_origin (f_call f))) (port (c_origin (f_call f))) (Http.s_addr x) (f_path f) (f_cert f) (f_auth f)
        (f_credential f) (f_headers f) request (c_max_response_bytes (f_call f)).
Proof.
  unfold route. destruct resolved as [addr|]; [|done]. cbn. destruct (check_resolved_address addr policy) as [[]|] eqn:E; [|done].
  cbn. intros [= <-]. done.
Qed.

(** The state a call ends in. *)
Definition ends_in (r : result TransportError CallResponse) : SubAttemptState :=
  match r with Ok _ => Completed | Err (Clean _) => Failed | Err (Uncertain _) => Ambiguous end.

Lemma event_ends r : SubAttempt.next Dispatching (event_of r) = Ok (ends_in r).
Proof. by destruct r as [|[]]. Qed.

Lemma finish_outcome f r now d : at_state d (idempotency_key (f_call f)) Dispatching ->
  exists j d', finish f r now d = (j, d') /\ wrote d d' (idempotency_key (f_call f)) (ends_in r) /\
    match r with
    | Ok resp => j = Ok (outcome_json (f_call f) Completed (Some resp))
    | Err (Clean e) => j = Err (problem_detail 502 "dispatch-failed" "the processor call failed" e)
    | Err (Uncertain e) => j = Err (problem_detail 502 "dispatch-ambiguous" "the processor call outcome is uncertain" e)
    end.
Proof.
  intros (row & Hr & Hs). destruct (advance_runs _ (event_of r) now _ _ _ _ Hr Hs (event_ends r)) as (d' & Ha & Ht).
  unfold finish. rewrite (hbind_run _ _ _ _ _ Ha).
  assert (wrote d d' (idempotency_key (f_call f)) (ends_in r)) by (eexists; split; [|exact Ht]; done).
  destruct r as [resp|[e|e]]; eauto.
Qed.

Lemma authorize_Ok pid wo d b u policy d1 : authorize_call pid wo d = (Ok (b, u, policy), d1) -> d1 = d /\
  exists issued scope st config, StoreAttempts.get_work_order s wo d = Ok (Some issued, d) /\
    Capability.grant (WorkOrder.capabilities (WorkOrder.order issued)) ProcessorUse = Some (GProcessorUse scope) /\
    pu_processor_id scope = pid /\
    StoreAttempts.attempt_state wo d = Ok (Some st, d) /\ (st = Attempt.Claimed \/ st = Attempt.Running) /\
    get_processor s pid d = Ok (Some config, d) /\
    b = mkBinding wo (WorkOrder.i_digest issued) (WorkOrder.task_id (WorkOrder.order issued)) /\
    u = mkBudget (WorkOrder.max_cost_microusd (WorkOrder.budgets (WorkOrder.order issued))) (WorkOrder.deadline (WorkOrder.order issued))
          (WorkOrder.max_bytes (WorkOrder.budgets (WorkOrder.order issued)))
          (WorkOrder.max_operations (WorkOrder.budgets (WorkOrder.order issued))) /\
    policy = if is_local config then allow_local (allowing [origin config]) else allowing [origin config].
Proof.
  unfold authorize_call. intros (o & Ho%call_Ok & H)%hread_Ok; [|apply _].
  apply hbind_Ok in H as (issued & ? & [-> ->]%require_Ok & H). apply hbind_Ok in H as ([] & ? & [Hg ->]%hlift_Ok & H).
  apply hread_Ok in H as (st & Hst%call_Ok & H); [|apply _]. destruct (active st) eqn:Ea; [|done]. cbn [negb] in H.
  apply hread_Ok in H as (oc & Hoc%call_Ok & H); [|apply _]. apply hbind_Ok in H as (config & ? & [-> ->]%require_Ok & H).
  apply mret_Ok in H as [[= -> -> ->] ->]. split; [done|]. unfold processor_grant in Hg.
  destruct (Capability.grant _ _) as [[| |scope|]|] eqn:Eg; try done. case_decide as Hp; [|done].
  destruct st as [st|]; [|done]. exists issued, scope, st, config. split_and!; try done. destruct st; auto; done.
Qed.

Lemma check_origin_one o o' (local : bool) :
  check_origin o (if local then allow_local (allowing [o']) else allowing [o']) = Ok () -> o = o' /\ scheme o = "https".
Proof.
  unfold check_origin. case_decide as Hs; [done|].
  replace (origin_allowlist (if local then _ else _)) with [o'] by (by destruct local). cbn [existsb].
  case_bool_decide; cbn; [|done]. intros _. split; congruence.
Qed.

Lemma check_address_local a o (local : bool) :
  check_resolved_address a (if local then allow_local (allowing [o]) else allowing [o]) = Ok () ->
  non_global_class a = None \/ local = true.
Proof. unfold check_resolved_address. destruct (non_global_class a); [|auto]. destruct local; [auto|done]. Qed.

(** The call a work order authorises goes out as [x]: its gates ran in state [d], its first phase
    from [d0] to [d1]. *)
Record authorised (w : World) (pid wo : string) (request : bytes) (now : Z) (d d0 d1 : Db) (c : ProcessorCall) (x : Sending) : Prop := {
  au_begun : exists b u policy f, authorize_call pid wo d = (Ok (b, u, policy), d) /\
    begin_call pid request b u policy now d0 = (Ok (inr f), d1) /\ f_call f = c;
  au_order : exists issued scope st config0,
    StoreAttempts.get_work_order s wo d = Ok (Some issued, d) /\
    Capability.grant (WorkOrder.capabilities (WorkOrder.order issued)) ProcessorUse = Some (GProcessorUse scope) /\
    pu_processor_id scope = pid /\
    StoreAttempts.attempt_state wo d = Ok (Some st, d) /\ (st = Attempt.Claimed \/ st = Attempt.Running) /\
    get_processor s pid d = Ok (Some config0, d) /\ origin config0 = c_origin c /\
    (non_global_class (Http.s_addr x) = None \/ is_local config0 = true) /\
    Http.s_max_response_bytes x = WorkOrder.max_bytes (WorkOrder.budgets (WorkOrder.order issued)) /\
    (at_state d0 (idempotency_key c) Prepared \/
     (Z.of_nat (count_where (of_order wo) (tbl_calls d0)) < WorkOrder.max_operations (WorkOrder.budgets (WorkOrder.order issued)))%Z);
  au_config : exists config b u, get_processor s pid d0 = Ok (Some config, d0) /\ prepare config request b u = Ok c /\
    b_work_order_id b = wo /\ Http.s_path x = path config /\ Http.s_auth x = auth config /\ Http.s_headers x = headers config /\
    Http.s_cert x = tls_certificate_sha256 config;
  au_target : scheme (c_origin c) = "https" /\ Http.s_host x = host (c_origin c) /\ Http.s_port x = port (c_origin c) /\
    w_resolve w (host (c_origin c)) (port (c_origin c)) = Some (Http.s_addr x);
  au_content : Http.s_request x = request /\ get_credential s pid d0 = Ok (Http.s_credential x, d0);
  au_recorded : wrote d0 d1 (idempotency_key c) Dispatching;
}.

(** What a call sends, and how it goes on from there. *)
Lemma call_sends w pid wo request now gap1 gap2 d r sent d' x :
  run_processor_call w pid wo request now gap1 gap2 d = (r, sent, d') -> x ∈ sent ->
  sent = [x] /\ exists d1 f, authorised w pid wo request now d (gap1 d) d1 (f_call f) x /\
    finish f (w_send w x) now (gap2 d1) = (r, d').
Proof.
  unfold run_processor_call. destruct (authorize_call pid wo d) as [[[[b u] policy]|p] d0] eqn:Ea; intros H Hx;
    [|injection H as <- <- <-; by apply not_elem_of_nil in Hx].
  pose proof Ea as Ha. apply authorize_Ok in Ea as (-> & issued & scope & st & config0 & Hwo & Hg & Hpid & Hst & Hact & Hc0 & -> & -> & ->).
  unfold dispatch_processor_call in H. destruct (begin_call _ _ _ _ _ _ _) as [[[j|f]|p] d1] eqn:Eb;
    [injection H as <- <- <-; by apply not_elem_of_nil in Hx| |injection H as <- <- <-; by apply not_elem_of_nil in Hx].
  pose proof Eb as Hb. apply begin_outcome in Eb as [[_ Hf]|(config & c & Hc & Hco & Hpre & [(_ & _ & Hf)|(Hw & Hkey & Hr)])];
    [by destruct (Hf f)|by destruct (Hf f)|].
  destruct Hr as [[p [=]]|(cred & Hcr & [= ->])]. apply check_origin_one in Hco as [Ho Hs].
  assert (c_origin c = origin config /\ c_work_order_id c = wo /\ c_max_response_bytes c =
    WorkOrder.max_bytes (WorkOrder.budgets (WorkOrder.order issued))) as (Hco & Hcw & Hcm).
  { unfold prepare in Hpre. revert Hpre. unfold_result. destruct (config_digest config); [|done].
    destruct (derive_idempotency_key _ _ _); [|done]. by intros [= <-]. }
  cbn zeta in H. destruct (route _ _ _ _) as [y|p] eqn:Er; [|destruct (abandon _ _ _ _); injection H as <- <- <-; by apply not_elem_of_nil in Hx].
  destruct (finish _ _ _ _) as [j d2] eqn:Ef. injection H as <- <- <-. apply list_elem_of_singleton in Hx as ->. split; [done|].
  apply route_Ok in Er as (Hres & Hadr & Hy). cbn [f_call f_path f_cert f_auth f_credential f_headers] in *.
  eexists d1, _. split; [|exact Ef]. cbn [f_call]. split.
  - eexists _, _, _, _. split_and!; [exact Ha|exact Hb|done].
  - exists issued, scope, st, config0. split_and!; try done; [by rewrite Hco|by eapply check_address_local|by rewrite Hy|].
    rewrite <- Hcw. destruct Hkey as [?|[_ ?]]; auto.
  - eexists config, _, _. split_and!; [done|exact Hpre|done|by rewrite Hy..].
  - split_and!; [by rewrite Hco|by rewrite Hy|by rewrite Hy|done].
  - split; rewrite Hy; done.
  - done.
Qed.

(** A worker's call is confined. Whatever other threads do while the lock is free, a call hands
    at most one request to the transport, and only if the work order grants exactly this
    processor and its attempt was active; it goes to the https origin that was configured at the
    gates, at the address the name resolved to just then, which is global unless the processor is
    declared local; with the configured pin, path and headers, that processor's own credential, the request
    and the order's response limit; the record says dispatching before it goes, within the order's
    operation budget, and if no one touched it meanwhile it ends as the transport answered, which
    is what the worker is told. *)
Theorem call_confined w pid wo request now gap1 gap2 d r sent d' x :
  run_processor_call w pid wo request now gap1 gap2 d = (r, sent, d') -> x ∈ sent ->
  sent = [x] /\ exists d1 c, authorised w pid wo request now d (gap1 d) d1 c x /\
    (at_state (gap2 d1) (idempotency_key c) Dispatching ->
     at_state d' (idempotency_key c) (ends_in (w_send w x)) /\
     match w_send w x with
     | Ok resp => r = Ok (outcome_json c Completed (Some resp))
     | Err (Clean e) => r = Err (problem_detail 502 "dispatch-failed" "the processor call failed" e)
     | Err (Uncertain e) => r = Err (problem_detail 502 "dispatch-ambiguous" "the processor call outcome is uncertain" e)
     end).
Proof.
  intros Hrun Hx. destruct (call_sends _ _ _ _ _ _ _ _ _ _ _ _ Hrun Hx) as (-> & d1 & f & Hau & Hf). split; [done|].
  exists d1, (f_call f). split; [done|]. intros Hdis.
  destruct (finish_outcome f (w_send w x) now _ Hdis) as (j & d2 & Hf' & Hwr & Hj). rewrite Hf in Hf'. injection Hf' as -> ->.
  split; [by eapply wrote_at|exact Hj].
Qed.

(** ** Many calls at once *)

(** A call between two phases: about to resolve its name, or waiting for the transport. *)
Inductive Thread :=
| Resolving (f : InFlight) (request : bytes) (policy : EgressPolicy) (now : Z)
| Awaiting (f : InFlight) (now : Z).

Definition key_of (t : Thread) : string :=
  match t with Resolving f _ _ _ | Awaiting f _ => idempotency_key (f_call f) end.

(** What the world has seen of the daemon. *)
Inductive Event :=
| Sent (key : string) (x : Sending)
| Answered (key : string) (r : result TransportError CallResponse)
| Crashed.

Record System := mkSystem { sys_db : Db; threads : list Thread; events : list Event }.

Definition sent_key (e : Event) : option string := match e with Sent k _ => Some k | _ => None end.
Definition sent_keys (l : list Event) : list string := omap sent_key l.

(** The daemon's threads and its restarts. No other code writes the calls of the store; to the
    rest of it anything may happen. *)
Inductive sys_step : System -> System -> Prop :=
| y_begin pid request b u policy now f d d' ts l :
    begin_call pid request b u policy now d = (Ok (inr f), d') ->
    sys_step (mkSystem d ts l) (mkSystem d' (ts ++ [Resolving f request policy now]) l)
| y_refuse pid request b u policy now r d d' ts l :
    begin_call pid request b u policy now d = (r, d') -> (forall f, r <> Ok (inr f)) ->
    sys_step (mkSystem d ts l) (mkSystem d' ts l)
| y_blocked f request policy now resolved p r d d' ts ts' l :
    route f request policy resolved = Err p -> abandon f p now d = (r, d') ->
    sys_step (mkSystem d (ts ++ Resolving f request policy now :: ts') l) (mkSystem d' (ts ++ ts') l)
| y_send f request policy now resolved x d ts ts' l :
    route f request policy resolved = Ok x ->
    sys_step (mkSystem d (ts ++ Resolving f request policy now :: ts') l)
      (mkSystem d (ts ++ Awaiting f now :: ts') (l ++ [Sent (idempotency_key (f_call f)) x]))
| y_answer f now r j d d' ts ts' l :
    finish f r now d = (j, d') ->
    sys_step (mkSystem d (ts ++ Awaiting f now :: ts') l)
      (mkSystem d' (ts ++ ts') (l ++ [Answered (idempotency_key (f_call f)) r]))
| y_other d d' ts l :
    tbl_calls d' = tbl_calls d -> sys_step (mkSystem d ts l) (mkSystem d' ts l)
| y_restart now n d d' ts l :
    resolve_crashed_calls now d = Ok (n, d') -> sys_step (mkSystem d ts l) (mkSystem d' [] (l ++ [Crashed])).

(** What a record says of its call is what the world saw. *)
Definition honest (l : list Event) (k : string) (st : SubAttemptState) : Prop :=
  match st with
  | Prepared | Cancelled => k ∉ sent_keys l
  | Dispatching => forall r, Answered k r ∉ l
  | Completed => exists resp, Answered k (Ok resp) ∈ l
  | Failed => k ∉ sent_keys l \/ exists e, Answered k (Err (Clean e)) ∈ l
  | Ambiguous => Crashed ∈ l \/ exists e, Answered k (Err (Uncertain e)) ∈ l
  end.

Definition thread_ok (l : list Event) (t : Thread) : Prop :=
  match t with
  | Resolving f _ _ _ => idempotency_key (f_call f) ∉ sent_keys l
  | Awaiting f _ => idempotency_key (f_call f) ∈ sent_keys l /\ forall r, Answered (idempotency_key (f_call f)) r ∉ l
  end.

Record sys_inv (y : System) : Prop := {
  yi_keys : NoDup (key_of <$> threads y);
  yi_rows : forall t, t ∈ threads y -> at_state (sys_db y) (key_of t) Dispatching /\ thread_ok (events y) t;
  yi_once : NoDup (sent_keys (events y));
  yi_known : forall k, k ∈ sent_keys (events y) -> is_Some (tbl_calls (sys_db y) !! k);
  yi_answers : forall k r, Answered k r ∈ events y -> k ∈ sent_keys (events y);
  yi_honest : forall k row, tbl_calls (sys_db y) !! k = Some row -> exists st, ca_state row = SubAttempt.as_str st /\ honest (events y) k st;
}.

Definition ledger (l : list Event) (m : gmap string CallRow) : Prop :=
  forall k row, m !! k = Some row -> exists st, ca_state row = SubAttempt.as_str st /\ honest l k st.

Lemma ledger_at l d k st : ledger l (tbl_calls d) -> at_state d k st -> honest l k st.
Proof.
  intros Hl Hat. destruct Hat as (row & Hr & Hs) eqn:E. destruct (Hl _ _ Hr) as (st' & Hs' & Hh).
  by rewrite (at_state_fun d k st st') by (by exists row).
Qed.

Lemma ledger_wrote l d d' key st : ledger l (tbl_calls d) -> wrote d d' key st -> honest l key st -> ledger l (tbl_calls d').
Proof.
  intros Hl (row & Hs & ->) Hh k row'. destruct (decide (k = key)) as [->|Hne].
  - rewrite lookup_insert_eq. intros [= <-]. eauto.
  - rewrite lookup_insert_ne by done. apply Hl.
Qed.

Lemma wrote_known d d' key st k : wrote d d' key st -> is_Some (tbl_calls d !! k) -> is_Some (tbl_calls d' !! k).
Proof. intros (row & _ & ->) Hk. destruct (decide (k = key)) as [->|Hne]; [by rewrite lookup_insert_eq|by rewrite lookup_insert_ne]. Qed.

Lemma sent_keys_app l e : sent_keys (l ++ [e]) = sent_keys l ++ match sent_key e with Some k => [k] | None => [] end.
Proof. unfold sent_keys. rewrite omap_app. cbn. by destruct (sent_key e). Qed.

Lemma honest_app l e k st : honest l k st -> sent_key e <> Some k -> (forall r, e <> Answered k r) -> honest (l ++ [e]) k st.
Proof.
  intros Hh Hs Ha. assert (k ∈ sent_keys (l ++ [e]) -> k ∈ sent_keys l) as Hk.
  { rewrite sent_keys_app, elem_of_app. intros [?|Hin]; [done|]. destruct (sent_key e) as [k'|]; [|by apply not_elem_of_nil in Hin].
    apply list_elem_of_singleton in Hin as ->. done. }
  assert (forall x, x ∈ l -> x ∈ l ++ [e]) as Hm by (intros x ?; apply elem_of_app; by left).
  destruct st; cbn in *.
  - tauto.
  - intros r [?|Heq%list_elem_of_singleton]%elem_of_app; [by eapply Hh|by eapply Ha].
  - destruct Hh as [resp ?]. eauto.
  - destruct Hh as [?|[er ?]]; [left; tauto|eauto].
  - destruct Hh as [?|[er ?]]; eauto.
  - tauto.
Qed.

Lemma thread_ok_app l e t : thread_ok l t -> sent_key e <> Some (key_of t) -> (forall r, e <> Answered (key_of t) r) -> thread_ok (l ++ [e]) t.
Proof.
  destruct t as [f ? ? ?|f ?]; cbn; intros Ht Hs Ha; rewrite sent_keys_app, ?elem_of_app.
  - intros [?|Hin]; [done|]. destruct (sent_key e); [|by apply not_elem_of_nil in Hin]. apply list_elem_of_singleton in Hin. congruence.
  - destruct Ht as [? Ht]. split; [by left|]. intros r [?|Heq%list_elem_of_singleton]%elem_of_app; [by eapply Ht|by eapply Ha].
Qed.

(** A row that no thread holds is written. *)
Lemma inv_row d d' ts l key st : sys_inv (mkSystem d ts l) -> wrote d d' key st -> honest l key st -> key ∉ key_of <$> ts ->
  sys_inv (mkSystem d' ts l).
Proof.
  intros [H1 H2 H3 H4 H5 H6] Hw Hh Hk. split; cbn in *; [done| |done|eauto using wrote_known|done|by eapply ledger_wrote].
  intros t Ht. destruct (H2 t Ht) as [Hat Hok]. split; [|done]. eapply wrote_other; [exact Hw| |exact Hat].
  intros E. apply Hk. rewrite <- E. by apply list_elem_of_fmap_2.
Qed.

(** A thread is over. *)
Lemma inv_drop d ts t ts' l : sys_inv (mkSystem d (ts ++ t :: ts') l) ->
  sys_inv (mkSystem d (ts ++ ts') l) /\ key_of t ∉ key_of <$> ts ++ ts' /\ at_state d (key_of t) Dispatching /\ thread_ok l t.
Proof.
  intros [H1 H2 H3 H4 H5 H6]. cbn in *. rewrite fmap_app, fmap_cons in H1.
  rewrite (Permutation_app_comm _ (key_of t :: _)) in H1. cbn in H1. apply NoDup_cons in H1 as [Hn H1].
  rewrite (Permutation_app_comm _ (key_of <$> ts)), <- fmap_app in H1, Hn. split_and!; [|done|apply H2; set_solver|apply H2; set_solver].
  split; cbn; [done| |done..]. intros t' Ht'. apply H2. set_solver.
Qed.

Lemma inv_spawn d ts l f request policy now : sys_inv (mkSystem d ts l) -> at_state d (idempotency_key (f_call f)) Dispatching ->
  idempotency_key (f_call f) ∉ sent_keys l -> idempotency_key (f_call f) ∉ key_of <$> ts ->
  sys_inv (mkSystem d (ts ++ [Resolving f request policy now]) l).
Proof.
  intros [H1 H2 H3 H4 H5 H6] Hat Hs Hk. split; cbn in *; [| |done..].
  - rewrite fmap_app. apply NoDup_app. split_and!; [done| |apply NoDup_singleton]. intros k Hin ->%list_elem_of_singleton. done.
  - intros t [Ht| ->%list_elem_of_singleton]%elem_of_app; [by apply H2|]. done.
Qed.

(** A key without a dispatch has no thread and was never sent. *)
Lemma undispatched d ts l key : sys_inv (mkSystem d ts l) -> tbl_calls d !! key = None \/ at_state d key Prepared ->
  key ∉ sent_keys l /\ key ∉ key_of <$> ts.
Proof.
  intros [H1 H2 H3 H4 H5 H6] Hk. cbn in *. split.
  - destruct Hk as [Hn|Hp]; [intros Hin; apply H4 in Hin; rewrite Hn in Hin; by destruct Hin|]. exact (ledger_at _ _ _ _ H6 Hp).
  - intros (t & -> & Ht)%list_elem_of_fmap. destruct (H2 _ Ht) as [Hat _].
    destruct Hk as [Hn|Hp]; [destruct Hat as (? & Hr & _); by rewrite Hn in Hr|]. by pose proof (at_state_fun _ _ _ _ Hat Hp).
Qed.

Lemma unanswered d ts l key : sys_inv (mkSystem d ts l) -> key ∉ sent_keys l -> honest l key Dispatching.
Proof. intros H Hn r Hr. apply Hn. by eapply (yi_answers _ H). Qed.

Lemma begin_inv pid request b u policy now d r d' ts l : sys_inv (mkSystem d ts l) ->
  begin_call pid request b u policy now d = (r, d') ->
  sys_inv (mkSystem d' ts l) /\
  forall f, r = Ok (inr f) -> at_state d' (idempotency_key (f_call f)) Dispatching /\
    idempotency_key (f_call f) ∉ sent_keys l /\ idempotency_key (f_call f) ∉ key_of <$> ts.
Proof.
  intros Hinv [[Ht Hf]|(config & c & _ & _ & _ & [(Hn & Hw & Hf)|(Hw & Hk & Hr)])]%begin_outcome.
  - split; [|intros f ->; by destruct (Hf f)]. destruct Hinv as [H1 H2 H3 H4 H5 H6]. unfold at_state in H2.
    split; cbn in *; unfold at_state; rewrite ?Ht; done.
  - split; [|intros f ->; by destruct (Hf f)]. destruct (undispatched _ _ _ _ Hinv (or_introl Hn)) as [Hs Hts].
    by eapply inv_row.
  - assert (tbl_calls d !! idempotency_key c = None \/ at_state d (idempotency_key c) Prepared) as Hk' by tauto.
    destruct (undispatched _ _ _ _ Hinv Hk') as [Hs Hts]. split; [by eapply inv_row; [..|eapply unanswered|]|].
    intros f ->. destruct Hr as [[p [=]]|(cred & _ & [= ->])]. cbn [f_call]. split; [by eapply wrote_at|done].
Qed.

Lemma blocked_inv f request policy now p r d d' ts ts' l : sys_inv (mkSystem d (ts ++ Resolving f request policy now :: ts') l) ->
  abandon f p now d = (r, d') -> sys_inv (mkSystem d' (ts ++ ts') l).
Proof.
  intros (Hinv & Hn & (row & Hr & Hs) & Hok)%inv_drop Hg. cbn [key_of thread_ok] in *.
  destruct (advance_runs _ Fail now _ _ _ Failed Hr Hs eq_refl) as (d1 & Ha & Ht).
  unfold abandon in Hg. rewrite (hbind_run _ _ _ _ _ Ha) in Hg. injection Hg as <- <-.
  eapply inv_row; [exact Hinv| | |exact Hn]; [by eexists; split; [|exact Ht]|by left].
Qed.

Lemma send_inv f request policy now x d ts ts' l : sys_inv (mkSystem d (ts ++ Resolving f request policy now :: ts') l) ->
  sys_inv (mkSystem d (ts ++ Awaiting f now :: ts') (l ++ [Sent (idempotency_key (f_call f)) x])).
Proof.
  intros Hinv. destruct (inv_drop _ _ _ _ _ Hinv) as ([_ H2 H3 H4 H5 H6] & Hn & Hat & Hok). cbn [key_of thread_ok] in *.
  destruct Hinv as [H1 _ _ _ _ _]. set (key := idempotency_key (f_call f)) in *. cbn in *.
  assert (sent_keys (l ++ [Sent key x]) = sent_keys l ++ [key]) as E by (by rewrite sent_keys_app).
  assert (forall k r, Answered k r ∈ l ++ [Sent key x] -> Answered k r ∈ l) as Hans
    by (intros k r [?|[=]%list_elem_of_singleton]%elem_of_app; done).
  split; cbn [threads sys_db events].
  - rewrite fmap_app, fmap_cons in *. exact H1.
  - intros t [Ht|[-> |Ht]%elem_of_cons]%elem_of_app.
    2: { split; [done|]. cbn [thread_ok]. fold key. rewrite E. split; [set_solver|]. intros r Hr. apply Hans, H5 in Hr. done. }
    all: assert (t ∈ ts ++ ts') as Ht' by (apply elem_of_app; tauto); destruct (H2 t Ht') as [? Htok];
      split; [done|]; apply thread_ok_app; [done| |done]; cbn; intros [= Ek]; apply Hn; rewrite Ek;
      by apply list_elem_of_fmap_2.
  - rewrite E. apply NoDup_app. split_and!; [done| |apply NoDup_singleton]. intros k Hk ->%list_elem_of_singleton. done.
  - rewrite E. intros k [?| ->%list_elem_of_singleton]%elem_of_app; [by apply H4|]. destruct Hat as (row & -> & _). done.
  - rewrite E. intros k r Hr. apply elem_of_app. left. by eapply H5, Hans.
  - intros k row Hrow. destruct (H6 _ _ Hrow) as (st & Hs & Hh). exists st. split; [done|].
    destruct (decide (k = key)) as [->|Hne].
    + assert (st = Dispatching) as -> by (apply (at_state_fun d key); [by exists row|done]). cbn. intros r Hr. by apply Hans, Hh in Hr.
    + apply honest_app; [done| |done]. cbn. congruence.
Qed.

Lemma honest_end l key r : key ∈ sent_keys l -> honest (l ++ [Answered key r]) key (ends_in r).
Proof.
  intros Hk. assert (Answered key r ∈ l ++ [Answered key r]) as Hin by set_solver. destruct r as [resp|[e|e]]; cbn; eauto.
Qed.

Lemma answer_inv f now r j d d' ts ts' l : sys_inv (mkSystem d (ts ++ Awaiting f now :: ts') l) ->
  finish f r now d = (j, d') -> sys_inv (mkSystem d' (ts ++ ts') (l ++ [Answered (idempotency_key (f_call f)) r])).
Proof.
  intros ([H1 H2 H3 H4 H5 H6] & Hn & Hat & [Hsent Hans])%inv_drop Hf. cbn [key_of thread_ok] in *.
  destruct (finish_outcome f r now d Hat) as (j' & d1 & Hf' & Hw & _). rewrite Hf in Hf'. injection Hf' as -> ->.
  set (key := idempotency_key (f_call f)) in *. cbn in *.
  assert (sent_keys (l ++ [Answered key r]) = sent_keys l) as E by (rewrite sent_keys_app; apply app_nil_r).
  split; cbn [threads sys_db events]; rewrite ?E; [done| |done|eauto using wrote_known| |].
  - intros t Ht. destruct (H2 t Ht) as [Ha Hok]. assert (key_of t <> key) as Hne
      by (intros <-; apply Hn; by apply list_elem_of_fmap_2).
    split; [by eapply wrote_other|]. apply thread_ok_app; [done|done|]. intros r' [= Ek _]. done.
  - intros k r' [?|[= -> ->]%list_elem_of_singleton]%elem_of_app; [by eapply H5|done].
  - intros k row Hrow. destruct (decide (k = key)) as [->|Hne].
    + destruct Hw as (row' & Hs' & Ht). rewrite Ht, lookup_insert_eq in Hrow. injection Hrow as <-. exists (ends_in r).
      split; [done|]. by apply honest_end.
    + destruct Hw as (row' & Hs' & Ht). rewrite Ht, lookup_insert_ne in Hrow by done. destruct (H6 _ _ Hrow) as (st & Hs & Hh).
      exists st. split; [done|]. apply honest_app; [done|done|]. intros r' [= Ek _]. done.
Qed.

Lemma restart_inv now n d d' ts l : sys_inv (mkSystem d ts l) -> resolve_crashed_calls now d = Ok (n, d') ->
  sys_inv (mkSystem d' [] (l ++ [Crashed])).
Proof.
  intros [_ _ H3 H4 H5 H6] Hres. destruct (call_resolve_run now d) as (d1 & Hd & Ht & _). rewrite Hres in Hd. injection Hd as -> ->.
  cbn in *. assert (sent_keys (l ++ [Crashed]) = sent_keys l) as E by (rewrite sent_keys_app; apply app_nil_r).
  assert (forall k r, Answered k r ∈ l ++ [Crashed] -> Answered k r ∈ l) as Hans
    by (intros k r [?|[=]%list_elem_of_singleton]%elem_of_app; done).
  split; cbn [threads sys_db events]; rewrite ?E; [apply NoDup_nil_2|by intros t Hin%not_elem_of_nil|done| |by intros k r ?%Hans; eapply H5|].
  - intros k Hk. rewrite Ht, lookup_update_where. destruct (H4 k Hk) as [row ->]. by eexists.
  - intros k row. rewrite Ht, lookup_update_where. destruct (tbl_calls d !! k) as [row0|] eqn:Ek; [|done]. cbn [fmap option_fmap option_map].
    intros [= <-]. destruct (H6 _ _ Ek) as (st & Hs & Hh). unfold dispatching. case_bool_decide as Hd.
    + exists Ambiguous. split; [done|]. left. set_solver.
    + exists st. split; [done|]. by apply honest_app.
Qed.

Lemma sys_step_inv y y' : sys_step y y' -> sys_inv y -> sys_inv y'.
Proof.
  destruct 1 as [? ? ? ? ? ? f ? ? ? ? Hb|? ? ? ? ? ? ? ? ? ? ? Hb _|? ? ? ? ? ? ? ? ? ? ? ? _ Hg|? ? ? ? ? ? ? ? ? ? _|
    ? ? ? ? ? ? ? ? ? Hf|? ? ? ? Ht|? ? ? ? ? ? Hr]; intros Hinv.
  - destruct (begin_inv _ _ _ _ _ _ _ _ _ _ _ Hinv Hb) as [Hi Hf]. destruct (Hf f eq_refl) as (? & ? & ?). by apply inv_spawn.
  - by destruct (begin_inv _ _ _ _ _ _ _ _ _ _ _ Hinv Hb).
  - by eapply blocked_inv.
  - by apply (send_inv _ request policy).
  - by eapply answer_inv.
  - destruct Hinv as [H1 H2 H3 H4 H5 H6]. unfold at_state in H2. split; cbn in *; unfold at_state; rewrite ?Ht; done.
  - by eapply restart_inv.
Qed.

(** C18. A call is sent once, and its record is honest. Whatever calls workers make, retries
    included, however their phases interleave, whatever the rest of the daemon does to the rest
    of the store and whenever it is restarted: no idempotency key is handed to the transport
    twice; a completed record was answered, a failed one was never sent or failed before a byte
    left, an ambiguous one was answered uncertainly or a restart cut it off, and a prepared one
    was never sent; and the call of every thread waiting for an answer is on record as
    dispatching. *)
Theorem sent_once d0 y :
  tbl_calls d0 = ∅ -> rtc sys_step (mkSystem d0 [] []) y ->
  NoDup (sent_keys (events y)) /\
  (forall k, k ∈ sent_keys (events y) -> is_Some (tbl_calls (sys_db y) !! k)) /\
  (forall k row, tbl_calls (sys_db y) !! k = Some row -> exists st, ca_state row = SubAttempt.as_str st /\ honest (events y) k st) /\
  (forall t, t ∈ threads y -> at_state (sys_db y) (key_of t) Dispatching /\ thread_ok (events y) t).
Proof.
  intros H0 Hst. assert (sys_inv y) as [H1 H2 H3 H4 H5 H6]; [|done].
  refine (rtc_ind_l (fun y' => sys_inv y' -> sys_inv y) y (fun H => H) _ _ Hst _).
  - intros y1 y2 Hs _ IH Hi. by eapply IH, sys_step_inv.
  - split; cbn; [apply NoDup_nil_2|by intros t Ht%not_elem_of_nil|apply NoDup_nil_2|by intros k Hk%not_elem_of_nil|by intros k r Hk%not_elem_of_nil|].
    intros k row. by rewrite H0.
Qed.
End broker.

(** ** Witnesses *)

Section sample.
#[local] Existing Instances ToyHashes ToyHex ToyAead.
#[local] Instance sample_origin_codec : Codec Origin := ToyCodec Origin.
#[local] Instance sample_config_codec : Codec ProcessorConfig := ToyCodec ProcessorConfig.
#[local] Instance sample_issued_codec : Codec WorkOrder.IssuedWorkOrder := ToyCodec WorkOrder.IssuedWorkOrder.
#[local] Instance sample_order_canon : Canon WorkOrder.WorkOrder := ToyCanon WorkOrder.WorkOrder.
#[local] Instance sample_json_canon : Canon Json := {| to_canon := toy_key_canon |}.
#[local] Instance sample_egress_text : EgressText := fun _ => "refused".

Definition sample_grants : CapabilityVector :=
  Capability.mkVector [Capability.sample_respond; GProcessorUse (Capability.mkProcessorUseScope "reviewer" [] 5 100)].

Definition sample_order : WorkOrder.WorkOrder :=
  let o := WorkOrder.sample_order "w1" "n1" in
  WorkOrder.mkWorkOrder (WorkOrder.version o) "w1" (WorkOrder.w_issuer o) (WorkOrder.issuer_assurance o) (WorkOrder.audience o)
    (WorkOrder.request_origin o) (WorkOrder.task_id o) (WorkOrder.w_context_id o) (WorkOrder.w_message_id o)
    (WorkOrder.contract_revision o) (WorkOrder.contract_digest o) sample_grants (WorkOrder.input_manifest o)
    (WorkOrder.processor_digest o) (WorkOrder.runner_digest o) (WorkOrder.sandbox_digest o) (WorkOrder.profile_digest o)
    (WorkOrder.mkBudgets 10 4096 2) (WorkOrder.w_evidence_slots o) (WorkOrder.policy_version o) (WorkOrder.decision_id o)
    (WorkOrder.not_before o) (WorkOrder.deadline o) (WorkOrder.nonce o) (WorkOrder.remote_cancel o).

Definition then_ {A} (m : M A) (d : Db) : Db := (exec m d).2.

Definition d_ready : Db :=
  then_ (StoreAttempts.claim_attempt sample_order 5)
    (then_ (StoreAttempts.put_work_order sample_store (repeat "n"%char 24) (WorkOrder.mkIssued sample_order "dg" "mac") 5)
      (then_ (put_credential sample_store (repeat "m"%char 24) "reviewer" (as_bytes "key") 5)
        (then_ (put_processor sample_store (repeat "n"%char 24) sample_config 5) empty_db))).

Definition sample_addr : IpAddr := IpV4 (V4 93 184 216 34).

Definition sample_world : World := mkWorld (fun _ _ => Some sample_addr) (fun _ => Ok (Http.mkResponse 200 (as_bytes "{}"))).

Definition sample_run : result Problem Json * list Sending * Db :=
  run_processor_call sample_store sample_world "reviewer" "w1" (as_bytes "{}") 9 (fun d => d) (fun d => d) d_ready.

Lemma sample_run_sent : exists r x d', sample_run = (r, [x], d').
Proof. vm_compute. eexists _, _, _. reflexivity. Qed.

Example call_confined_witness : exists r x d' d1 c, sample_run = (r, [x], d') /\
  authorised sample_store sample_world "reviewer" "w1" (as_bytes "{}") 9 d_ready d_ready d1 c x.
Proof.
  destruct sample_run_sent as (r & x & d' & E0). pose proof E0 as E. unfold sample_run in E.
  destruct (call_confined sample_store sample_world "reviewer" "w1" (as_bytes "{}") 9 (fun d => d) (fun d => d) d_ready r [x] d' x E)
    as (_ & d1 & c & Hau & _); [constructor|].
  exists r, x, d', d1, c. split; [exact E0|exact Hau].
Defined.

Definition sample_binding : CallBinding := mkBinding "w1" "dg" "task-1".
Definition sample_budget : CallBudget := mkBudget 10 "d" 4096 2.
Definition sample_policy : EgressPolicy := allowing [origin sample_config].

(** Whether a call gets to its transport. *)
Definition goes_out (s : Store) (pid : string) (request : bytes) (b : CallBinding) (u : CallBudget) (policy : EgressPolicy)
  (now : Z) (resolved : option IpAddr) (d : Db) : bool :=
  match begin_call s pid request b u policy now d with
  | (Ok (inr f), _) => match route f request policy resolved with Ok _ => true | Err _ => false end
  | _ => false
  end.

Lemma goes_out_phases s pid request b u policy now resolved d r now' : goes_out s pid request b u policy now resolved d = true ->
  exists f d1 x j d2, begin_call s pid request b u policy now d = (Ok (inr f), d1) /\ route f request policy resolved = Ok x /\
    finish f r now' d1 = (j, d2).
Proof.
  unfold goes_out. destruct (begin_call _ _ _ _ _ _ _ _) as [[[j|f]|p] d1]; try done. destruct (route _ _ _ _) as [x|] eqn:E; [|done].
  intros _. destruct (finish f r now' d1) as [j d2] eqn:Ef. by exists f, d1, x, j, d2.
Qed.

Lemma sample_phases : exists f d1 x j d2,
  begin_call sample_store "reviewer" (as_bytes "{}") sample_binding sample_budget sample_policy 9 d_ready = (Ok (inr f), d1) /\
  route f (as_bytes "{}") sample_policy (Some sample_addr) = Ok x /\
  finish f (Ok (Http.mkResponse 200 [])) 9 d1 = (j, d2).
Proof. apply goes_out_phases. vm_compute. reflexivity. Qed.

Lemma d_ready_calls : tbl_calls d_ready = ∅.
Proof. vm_compute. reflexivity. Qed.

Example sent_once_witness : exists key x j y, rtc (sys_step sample_store) (mkSystem d_ready [] []) y /\
  events y = [Sent key x; Answered key (Ok (Http.mkResponse 200 []))] /\ NoDup (sent_keys (events y)) /\ j = threads y.
Proof.
  destruct sample_phases as (f & d1 & x & j & d2 & H1 & H2 & H3).
  assert (rtc (sys_step sample_store) (mkSystem d_ready [] []) (mkSystem d2 []
    [Sent (idempotency_key (f_call f)) x; Answered (idempotency_key (f_call f)) (Ok (Http.mkResponse 200 []))])) as Hst.
  { eapply rtc_l; [exact (y_begin _ _ _ _ _ _ _ _ _ _ [] [] H1)|].
    eapply rtc_l; [exact (y_send _ _ _ _ 9 _ _ d1 [] [] [] H2)|].
    apply rtc_once. exact (y_answer _ _ _ _ _ _ _ [] [] [Sent (idempotency_key (f_call f)) x] H3). }
  exists (idempotency_key (f_call f)), x, [], (mkSystem d2 []
    [Sent (idempotency_key (f_call f)) x; Answered (idempotency_key (f_call f)) (Ok (Http.mkResponse 200 []))]).
  split; [exact Hst|]. split; [reflexivity|]. split; [|reflexivity].
  apply (sent_once sample_store d_ready _ d_ready_calls Hst).
Defined.
End sample.
End BrokerCall.
