(* ===== verification/Channel.v ===== *)
(** The daemon's end of a confined worker's broker channel (aksond/src/broker_channel.rs):
    newline-delimited requests, each read under a cap, answered one line each.

    The socket is what its reads give, one byte at a time as the code asks for them; the
    dispatcher is a parameter with a state of its own; deserializing a request is the
    parameter [read_request]. *)
From S2P Require Import Prelude Crypto Json IJson Http.

Module Channel.
Import Json.

Definition MAX_REQUEST_BYTES : nat := Z.to_nat (1024 * 1024).
Definition MAX_REQUESTS : nat := 1024.

Record BrokerRequest := mkBrokerRequest { br_processor_id : string; br_request : string }.

(** [serde_json::from_slice::<BrokerRequest>]. *)
Class RequestSyntax := read_request : bytes -> option BrokerRequest.

(** One [read] into a buffer of one byte; the end of the list is the end of the stream. *)
Inductive ReadByte := Byte (b : byte) | Interrupted | Broken.

Inductive LineRead := Line (b : bytes) | Eof | TooLarge | ReadErr.

(** [read_capped_line]: the line read, and what is left to read; [buf] is the line so far. *)
Fixpoint read_capped_line (cap : nat) (buf : bytes) (input : list ReadByte) : LineRead * list ReadByte :=
  match input with
  | [] => (Eof, [])
  | Byte b :: input =>
      if decide (b = Http.LF) then (Line buf, input)
      else if decide (cap <= length buf) then (TooLarge, input)
      else read_capped_line cap (buf ++ [b]) input
  | Interrupted :: input => read_capped_line cap buf input
  | Broken :: input => (ReadErr, input)
  end.

Definition too_large : Json := IJson.obj [("error", JStr "request too large")].
Definition malformed : Json := IJson.obj [("error", JStr "malformed broker request")].

Section channel.
Context {RS : RequestSyntax} {CJ : Codec Json} {D : Type}.
Context (dispatch : string -> bytes -> D -> Json * D).

Definition line_bytes (j : Json) : bytes := encode j ++ [Http.LF].

Definition respond (raw : bytes) (st : D) : Json * D :=
  match read_request raw with
  | Some req => dispatch (br_processor_id req) (as_bytes (br_request req)) st
  | None => (malformed, st)
  end.

(** The loop of [serve_broker_channel], [turns] more requests; [room] is how many lines the
    worker still takes before a write fails. Returns the lines written. *)
Fixpoint serve (cap turns room : nat) (input : list ReadByte) (st : D) : list bytes * D :=
  match turns with
  | O => ([], st)
  | S turns =>
      match read_capped_line cap [] input with
      | (Line raw, rest) =>
          match raw with
          | [] => serve cap turns room rest st
          | _ =>
              let '(response, st) := respond raw st in
              match room with
              | O => ([], st)
              | S room => let '(out, st) := serve cap turns room rest st in (line_bytes response :: out, st)
              end
          end
      | (TooLarge, _) => (match room with O => [] | S _ => [line_bytes too_large] end, st)
      | (Eof, _) | (ReadErr, _) => ([], st)
      end
  end.

(** [cloned]: whether [try_clone] gave a handle to write with. *)
Definition serve_broker_channel (cloned : bool) (room : nat) (input : list ReadByte) (st : D) : list bytes * D :=
  if cloned then serve MAX_REQUEST_BYTES MAX_REQUESTS room input st else ([], st).

(** ** Lines *)

Definition feed (l : bytes) : list ReadByte := Byte <$> l.

Fixpoint feed_lines (ls : list bytes) : list ReadByte :=
  match ls with [] => [] | l :: ls => feed l ++ Byte Http.LF :: feed_lines ls end.

(** Interrupted reads are retried: the stream without them. *)
Definition uninterrupted (input : list ReadByte) : list ReadByte :=
  List.filter (fun r => match r with Interrupted => false | _ => true end) input.

Lemma read_retries cap input : forall buf,
  read_capped_line cap buf (uninterrupted input) = let '(r, rest) := read_capped_line cap buf input in (r, uninterrupted rest).
Proof.
  induction input as [|[b| |] input IH]; intros buf; [done| |apply IH|done]. cbn. repeat case_decide; [done..|]. apply IH.
Qed.

Lemma read_line_short cap l rest : forall buf, Http.LF ∉ l -> length buf + length l <= cap ->
  read_capped_line cap buf (feed l ++ Byte Http.LF :: rest) = (Line (buf ++ l), rest).
Proof.
  induction l as [|b l IH]; intros buf Hl Hc.
  - cbn. rewrite decide_True by done. by rewrite app_nil_r.
  - apply not_elem_of_cons in Hl as [Hb Hl]. cbn in *. rewrite decide_False, decide_False by (done || lia).
    rewrite IH by (done || rewrite length_app; cbn; lia). by rewrite <- app_assoc.
Qed.

Lemma read_line_long cap l rest : forall buf, Http.LF ∉ l -> length buf <= cap < length buf + length l ->
  exists rest', read_capped_line cap buf (feed l ++ rest) = (TooLarge, rest').
Proof.
  induction l as [|b l IH]; intros buf Hl Hc; [cbn in Hc; lia|]. apply not_elem_of_cons in Hl as [Hb Hl]. cbn in *.
  rewrite decide_False by done. case_decide; [by eexists|]. apply IH; [done|]. rewrite length_app. cbn. lia.
Qed.

Lemma read_line_open cap l : forall buf, Http.LF ∉ l -> length buf + length l <= cap ->
  read_capped_line cap buf (feed l) = (Eof, []).
Proof.
  induction l as [|b l IH]; intros buf Hl Hc; [done|]. apply not_elem_of_cons in Hl as [Hb Hl]. cbn in *.
  rewrite decide_False, decide_False by (done || lia). apply IH; [done|]. rewrite length_app. cbn. lia.
Qed.

(** Never more than [cap] bytes are kept. *)
Lemma read_line_bounded cap input : forall buf r rest, length buf <= cap -> read_capped_line cap buf input = (Line r, rest) ->
  length r <= cap /\ length rest < length input.
Proof.
  induction input as [|[b| |] input IH]; intros buf r rest Hb; cbn; [done| | |done].
  - repeat case_decide; try done.
    + intros [= <- <-]. split; [done|lia].
    + intros Hr. apply IH in Hr; [lia|]. rewrite length_app. cbn. lia.
  - intros Hr. apply IH in Hr; lia.
Qed.

(** What the requests of the lines are answered with, and the state they leave. *)
Fixpoint answers (ls : list bytes) (st : D) : list bytes * D :=
  match ls with
  | [] => ([], st)
  | [] :: ls => answers ls st
  | l :: ls => let '(response, st) := respond l st in let '(out, st) := answers ls st in (line_bytes response :: out, st)
  end.

Definition line_in (cap : nat) (l : bytes) : Prop := Http.LF ∉ l /\ length l <= cap.

Lemma serve_lines cap ls : Forall (line_in cap) ls -> forall turns room rest st, length ls <= turns -> length ls <= room ->
  serve cap turns room (feed_lines ls ++ rest) st =
  let '(out, st') := answers ls st in
  let '(out', st'') := serve cap (turns - length ls) (room - length out) rest st' in (out ++ out', st'').
Proof.
  induction 1 as [|l ls [Hl Hc] _ IH]; intros turns room rest st Ht Hr.
  - cbn. rewrite !Nat.sub_0_r. by destruct (serve _ _ _ _ _).
  - destruct turns as [|turns]; [cbn in Ht; lia|]. destruct room as [|room]; [cbn in Hr; lia|]. cbn [length] in *.
    cbn [serve feed_lines]. rewrite <- app_assoc. cbn [app]. rewrite read_line_short by (done || cbn; lia). cbn [app].
    destruct l as [|b l].
    + cbn [answers]. rewrite IH by lia. done.
    + cbn [answers]. destruct (respond (b :: l) st) as [response st1]. rewrite IH by lia.
      destruct (answers ls st1) as [out st2]. cbn [length Nat.sub]. by destruct (serve _ _ _ _ _).
Qed.

(** How many requests reach the dispatcher. *)
Lemma serve_bound cap turns : forall room input st, length (serve cap turns room input st).1 <= turns.
Proof.
  induction turns as [|turns IH]; intros room input st; cbn [serve]; [done|].
  destruct (read_capped_line cap [] input) as [[raw| | |] rest]; [|cbn; lia|destruct room; cbn; lia|cbn; lia].
  destruct raw as [|b raw]; [specialize (IH room rest st); lia|]. destruct (respond (b :: raw) st) as [response st1].
  destruct room as [|room]; [cbn; lia|]. specialize (IH room rest st1). destruct (serve _ _ _ _ _). cbn in *. lia.
Qed.

Lemma serve_retries cap turns : forall room input st, serve cap turns room (uninterrupted input) st = serve cap turns room input st.
Proof.
  induction turns as [|turns IH]; intros room input st; cbn [serve]; [done|]. rewrite read_retries.
  destruct (read_capped_line cap [] input) as [[raw| | |] rest]; [|done..]. destruct raw as [|b raw]; [apply IH|].
  destruct (respond (b :: raw) st) as [response st1]. destruct room as [|room]; [done|]. by rewrite IH.
Qed.

Lemma answers_length ls : forall st, length (answers ls st).1 <= length ls.
Proof.
  induction ls as [|l ls IH]; intros st; [done|]. destruct l as [|b l]; cbn [answers length]; [specialize (IH st); lia|].
  destruct (respond (b :: l) st) as [j st1]. specialize (IH st1). destruct (answers ls st1). cbn in *. lia.
Qed.

(** A worker's conversation. However the reads are interrupted, the lines of a worker that
    stays within the cap are answered in order, one line for each that is not empty, by the
    dispatcher's answer or by an error that acts on nothing; an unfinished last line is dropped,
    and a line over the cap is answered by an error and ends the conversation with the rest
    unread. Nobody gets more than [MAX_REQUESTS] answers. *)
Theorem channel_served room input ls tail st :
  uninterrupted input = feed_lines ls ++ feed tail -> Forall (line_in MAX_REQUEST_BYTES) ls -> Http.LF ∉ tail ->
  length ls < MAX_REQUESTS -> length ls < room ->
  serve_broker_channel true room input st =
    (let '(out, st') := answers ls st in
     (if decide (length tail <= MAX_REQUEST_BYTES) then out else out ++ [line_bytes too_large], st')) /\
  forall input', length (serve_broker_channel true room input' st).1 <= MAX_REQUESTS.
Proof.
  intros Hin Hls Htail Hn Hroom. split; [|intros input'; apply serve_bound]. unfold serve_broker_channel.
  rewrite <- serve_retries, Hin, serve_lines by (done || lia). pose proof (answers_length ls st) as Hlen.
  destruct (answers ls st) as [out st']. cbn [fst] in Hlen.
  destruct (MAX_REQUESTS - length ls) as [|turns] eqn:Et; [lia|]. destruct (room - length out) as [|room'] eqn:Er; [lia|].
  cbn [serve]. case_decide as Hc.
  - rewrite read_line_open by (done || cbn [length]; lia). by rewrite app_nil_r.
  - destruct (read_line_long MAX_REQUEST_BYTES tail [] []) as [rest' E]; [done|cbn [length]; lia|].
    rewrite app_nil_r in E. by rewrite E.
Qed.
End channel.

(** ** Witness *)

Section sample.
#[local] Instance sample_syntax : RequestSyntax := fun b => if decide (b = as_bytes "ask") then Some (mkBrokerRequest "p" "r") else None.
#[local] Instance sample_codec : Codec Json := ToyCodec Json.

(** A dispatcher that counts. *)
Definition sample_dispatch (_ : string) (_ : bytes) (n : nat) : Json * nat := (JNull, S n).

Definition sample_input : list ReadByte :=
  feed (as_bytes "as") ++ [Interrupted] ++ feed (as_bytes "k") ++ [Byte Http.LF; Byte Http.LF] ++ feed (as_bytes "junk") ++ [Byte Http.LF] ++
  feed (as_bytes "ask").

Example channel_served_witness :
  serve_broker_channel sample_dispatch true 4 sample_input 0 = ([line_bytes JNull; line_bytes malformed], 1).
Proof.
  destruct (channel_served sample_dispatch 4 sample_input [as_bytes "ask"; []; as_bytes "junk"] (as_bytes "ask") 0) as [E _].
  - reflexivity.
  - repeat (apply Forall_cons; split); [..|apply Forall_nil_2]; (split; [apply (bool_decide_unpack (Http.LF ∉ _)); vm_compute; exact I|]);
      apply Nat2Z.inj_le; unfold MAX_REQUEST_BYTES; rewrite Z2Nat.id by lia; cbn; lia.
  - apply (bool_decide_unpack (Http.LF ∉ _)). vm_compute. exact I.
  - unfold MAX_REQUESTS. cbn. lia.
  - cbn. lia.
  - rewrite E. replace (answers sample_dispatch _ 0) with ([line_bytes JNull; line_bytes malformed], 1) by (vm_compute; reflexivity).
    rewrite decide_True; [reflexivity|].
    apply Nat2Z.inj_le. unfold MAX_REQUEST_BYTES. rewrite Z2Nat.id by lia. cbn. lia.
Defined.
End sample.
End Channel.
