(* ===== verification/Sandbox.v ===== *)
(** The sandbox of a worker (akson-sandbox) and how a work order's grants become it
    (aksond/src/confinement.rs): the isolation policy as data, the bubblewrap command line
    that enforces it, the seccomp profiles and the probe that refuses to run without
    isolation.

    Namespaces, bubblewrap, the kernel's filter and the files under /proc and /sys are not in
    the repository: a system call is its libc name, a command line is read back by the
    documented rules of bubblewrap's options, and the probed files are a parameter. *)
From S2P Require Import Prelude Text Contract Capability Inert Chars Http.

Module Sandbox.
Import Capability (CapabilityVector, Grant, GRespond, GReadSuppliedInputs, GProcessorUse, GArtifactExport).

(** ** The policy *)

Record SandboxSpec := mkSpec {
  ro_binds : list (string * string);
  rw_binds : list (string * string);
  tmpfs_mounts : list string;
  chdir : string;
  env : list (string * string);
  allow_network : bool;
}.

Definition clean_worker (workdir : string) : SandboxSpec := mkSpec [] [] [] workdir [] false.

Definition ro_bind (s : SandboxSpec) (host sandbox : string) : SandboxSpec :=
  mkSpec (ro_binds s ++ [(host, sandbox)]) (rw_binds s) (tmpfs_mounts s) (chdir s) (env s) (allow_network s).

Definition rw_bind (s : SandboxSpec) (host sandbox : string) : SandboxSpec :=
  mkSpec (ro_binds s) (rw_binds s ++ [(host, sandbox)]) (tmpfs_mounts s) (chdir s) (env s) (allow_network s).

Definition tmpfs (s : SandboxSpec) (path : string) : SandboxSpec :=
  mkSpec (ro_binds s) (rw_binds s) (tmpfs_mounts s ++ [path]) (chdir s) (env s) (allow_network s).

Definition setenv (s : SandboxSpec) (key value : string) : SandboxSpec :=
  mkSpec (ro_binds s) (rw_binds s) (tmpfs_mounts s) (chdir s) (env s ++ [(key, value)]) (allow_network s).

Record LandlockPolicy := mkLandlock { read_only : list string; read_write : list string }.

Definition landlock_profile (s : SandboxSpec) : LandlockPolicy :=
  mkLandlock (snd <$> ro_binds s) (tmpfs_mounts s ++ (snd <$> rw_binds s)).

Inductive Namespace := NsUser | NsMount | NsPid | NsNet | NsIpc | NsUts | NsCgroup.

#[global] Instance Namespace_eq_dec : EqDecision Namespace.
Proof. solve_decision. Defined.

Inductive MountOp :=
| MProc | MDev | MRoBind (host sandbox : string) | MRwBind (host sandbox : string) | MTmpfs (path : string).

#[global] Instance MountOp_eq_dec : EqDecision MountOp.
Proof. solve_decision. Defined.

Record SandboxPlan := mkPlan {
  unshare : list Namespace;
  mounts : list MountOp;
  p_chdir : string;
  clear_env : bool;
  p_env : list (string * string);
  drop_all_caps : bool;
  no_new_privs : bool;
}.

Definition unshares (p : SandboxPlan) (ns : Namespace) : bool := existsb (fun n => bool_decide (n = ns)) (unshare p).

Definition spec_mounts (s : SandboxSpec) : list MountOp :=
  [MProc; MDev] ++ ((fun b => MRoBind b.1 b.2) <$> ro_binds s) ++ ((fun b => MRwBind b.1 b.2) <$> rw_binds s) ++
  (MTmpfs <$> tmpfs_mounts s).

(** [NativeLauncher::build_plan]. *)
Definition build_plan (s : SandboxSpec) : SandboxPlan :=
  mkPlan ([NsUser; NsMount; NsPid; NsIpc; NsUts; NsCgroup] ++ if negb (allow_network s) then [NsNet] else [])
    (spec_mounts s) (chdir s) true (env s) true true.

(** [BubblewrapLauncher::build_argv]; the seccomp descriptor is its decimal text. *)
Definition build_argv (s : SandboxSpec) (program : string) (args : list string) (seccomp_fd : option string) : list string :=
  ["bwrap"; "--unshare-all"] ++ (if allow_network s then ["--share-net"] else []) ++
  ["--die-with-parent"; "--new-session"; "--cap-drop"; "ALL"; "--clearenv"] ++
  concat ((fun kv => ["--setenv"; kv.1; kv.2]) <$> env s) ++
  ["--proc"; "/proc"; "--dev"; "/dev"] ++
  concat ((fun b => ["--ro-bind"; b.1; b.2]) <$> ro_binds s) ++
  concat ((fun b => ["--bind"; b.1; b.2]) <$> rw_binds s) ++
  concat ((fun p => ["--tmpfs"; p]) <$> tmpfs_mounts s) ++
  match seccomp_fd with Some fd => ["--seccomp"; fd] | None => [] end ++
  ["--chdir"; chdir s; "--"; program] ++ args.

(** ** Seccomp *)

Inductive DenyAction := KillProcess | Errno (e : Z).

Inductive SeccompAction := Allow | Denied (a : DenyAction).

Record SeccompPolicy := mkSeccomp { allow : list string; deny : DenyAction }.

Definition deny_all_except (allow : list string) (deny : DenyAction) : SeccompPolicy := mkSeccomp allow deny.

Definition common_worker_syscalls : list string :=
  ["read"; "write"; "readv"; "writev"; "wait4"; "pipe"; "pipe2"; "splice"; "sendto"; "recvfrom"; "sendmsg";
   "recvmsg"; "pread64"; "pwrite64"; "preadv"; "pwritev"; "lseek"; "close"; "close_range"; "openat"; "open"; "mkdir";
   "mkdirat"; "fstat"; "newfstatat"; "statfs"; "fstatfs"; "statx"; "lstat"; "stat"; "access"; "faccessat";
   "faccessat2"; "readlink"; "readlinkat"; "getdents64"; "getcwd"; "mmap"; "munmap"; "mprotect"; "mremap"; "madvise";
   "brk"; "rt_sigaction"; "rt_sigprocmask"; "rt_sigreturn"; "sigaltstack"; "ioctl"; "fcntl"; "dup"; "dup2"; "dup3";
   "poll"; "ppoll"; "execve"; "exit"; "exit_group"; "futex"; "getpid"; "getppid"; "gettid"; "getuid"; "getgid";
   "geteuid"; "getegid"; "arch_prctl"; "prctl"; "set_tid_address"; "set_robust_list"; "rseq"; "prlimit64";
   "getrandom"; "clock_gettime"; "clock_nanosleep"; "nanosleep"; "sched_getaffinity"; "sched_yield"; "uname";
   "sysinfo"; "tgkill"; "epoll_create1"; "epoll_ctl"; "epoll_pwait"].

Definition clean_worker_baseline (deny : DenyAction) : SeccompPolicy :=
  deny_all_except (common_worker_syscalls ++ ["vfork"; "clone"; "clone3"]) deny.

Definition adapter_worker_baseline (deny : DenyAction) : SeccompPolicy := deny_all_except common_worker_syscalls deny.

Definition agent_worker_baseline (deny : DenyAction) : SeccompPolicy :=
  deny_all_except (common_worker_syscalls ++
  ["vfork"; "clone"; "clone3"; "socket"; "connect"; "bind"; "listen"; "accept"; "accept4"; "getsockname";
   "getpeername"; "setsockopt"; "getsockopt"; "shutdown"; "socketpair"; "epoll_wait"; "eventfd2"; "timerfd_create";
   "timerfd_settime"; "timerfd_gettime"; "signalfd4"]) deny.

(** What the compiled filter does with a call: [compile] gives the listed ones an empty rule
    set, which matches, and the rest the mismatch action. *)
Definition verdict (p : SeccompPolicy) (syscall : string) : SeccompAction :=
  if bool_decide (syscall ∈ allow p) then Allow else Denied (deny p).

(** ** The probe *)

Inductive Feature := UserNamespaces | Cgroup2 | MemoryController | PidsController | Seccomp | NoNewPrivs | Landlock.

Record IsolationFeatures := mkFeatures {
  user_namespaces : bool; cgroup2 : bool; memory_controller : bool; pids_controller : bool; seccomp : bool;
  f_no_new_privs : bool; landlock : bool;
}.

Definition has (r : IsolationFeatures) (f : Feature) : bool :=
  match f with
  | UserNamespaces => user_namespaces r
  | Cgroup2 => cgroup2 r
  | MemoryController => memory_controller r
  | PidsController => pids_controller r
  | Seccomp => seccomp r
  | NoNewPrivs => f_no_new_privs r
  | Landlock => landlock r
  end.

Definition required : list Feature := [UserNamespaces; Cgroup2; MemoryController; PidsController; Seccomp; NoNewPrivs].

(** [MissingFeatures]. *)
Definition ensure (r : IsolationFeatures) (required : list Feature) : result (list Feature) () :=
  match List.filter (fun f => negb (has r f)) required with [] => Ok () | missing => Err missing end.

(** The files of the host: what [read_to_string] gives ([None] on an error), and whether
    [metadata] succeeds. *)
Record HostFiles := mkHost { read_to_string : string -> option string; present : string -> bool }.

Definition read_trimmed (h : HostFiles) (path : string) : option bytes := (fun s => Inert.trim (as_bytes s)) <$> read_to_string h path.

Definition reads_as (h : HostFiles) (path value : string) : bool := bool_decide (read_trimmed h path = Some (as_bytes value)).

Definition detect_user_namespaces (h : HostFiles) : bool :=
  if reads_as h "/proc/sys/kernel/unprivileged_userns_clone" "0" then false
  else if reads_as h "/proc/sys/kernel/apparmor_restrict_unprivileged_userns" "1" then false
  else if reads_as h "/proc/sys/user/max_user_namespaces" "0" then false
  else true.

Definition cgroup2_has_controller (h : HostFiles) (name : string) : bool :=
  match read_trimmed h "/sys/fs/cgroup/cgroup.controllers" with
  | Some s => existsb (fun w => bool_decide (w = as_bytes name)) (Http.split_whitespace s)
  | None => false
  end.

Definition proc_status_has_field (h : HostFiles) (field : string) : bool :=
  match read_to_string h "/proc/self/status" with
  | Some s => existsb (fun l => Inert.starts (as_bytes (field +:+ ":")) l) (Http.lines (as_bytes s))
  | None => false
  end.

(** [split(',')]. *)
Fixpoint commas (l : bytes) : list bytes :=
  match l with
  | [] => [[]]
  | c :: l => if decide (c = ","%char) then [] :: commas l
              else match commas l with w :: ws => (c :: w) :: ws | [] => [[c]] end
  end.

Definition lsm_lists (h : HostFiles) (name : string) : bool :=
  match read_trimmed h "/sys/kernel/security/lsm" with
  | Some s => existsb (fun w => bool_decide (w = as_bytes name)) (commas s)
  | None => false
  end.

Definition detect (h : HostFiles) : IsolationFeatures :=
  mkFeatures (detect_user_namespaces h) (present h "/sys/fs/cgroup/cgroup.controllers") (cgroup2_has_controller h "memory")
    (cgroup2_has_controller h "pids") (proc_status_has_field h "Seccomp") (proc_status_has_field h "NoNewPrivs")
    (lsm_lists h "landlock").

(** ** Launching *)

Inductive SandboxError := IsolationUnavailable (missing : list Feature) | Apply (detail : string).

(** How a command ends: it could not be started, or it exited with a status. *)
Inductive Exit := NotStarted (e : string) | Success | Exited (status : string).

(** What the host does with the launch: the descriptor of the compiled filter, whether the
    cgroup's process list opens, and how the command ends. *)
Record Machine := mkMachine {
  host_files : HostFiles;
  filter_fd : SeccompPolicy -> result string string;
  open_procs : result string ();
  spawn : list string -> Exit;
}.

(** [launch_confined], with the command that was started, if any. *)
Definition launch (m : Machine) (s : SandboxSpec) (program : string) (args : list string) (p : SeccompPolicy) :
  result SandboxError () * option (list string) :=
  match ensure (detect (host_files m)) required with
  | Err missing => (Err (IsolationUnavailable missing), None)
  | Ok _ =>
      match filter_fd m p with
      | Err e => (Err (Apply e), None)
      | Ok fd =>
          let argv := build_argv s program args (Some fd) in
          match open_procs m with
          | Err e => (Err (Apply ("open cgroup.procs: " +:+ e)), None)
          | Ok _ =>
              (match spawn m argv with
               | NotStarted e => Err (Apply ("spawning bwrap: " +:+ e))
               | Success => Ok ()
               | Exited status => Err (Apply ("worker exited: " +:+ status))
               end, Some argv)
          end
      end
  end.

(** ** Grants *)

Record Confinement := mkConfinement {
  reads_inputs : bool; input_ids : list string; writes_output : bool; processor : option string }.

Definition add_grant (c : Confinement) (g : Grant) : Confinement :=
  match g with
  | GReadSuppliedInputs scope => mkConfinement true (Capability.ri_input_ids scope) (writes_output c) (processor c)
  | GRespond _ | GArtifactExport _ => mkConfinement (reads_inputs c) (input_ids c) true (processor c)
  | GProcessorUse scope => mkConfinement (reads_inputs c) (input_ids c) (writes_output c) (Some (Capability.pu_processor_id scope))
  end.

Definition from_capabilities (v : CapabilityVector) : Confinement :=
  foldl add_grant (mkConfinement false [] false None) (Capability.grants v).

Definition to_spec (c : Confinement) (staging_dir output_dir : string) (runtime_binds : list (string * string)) : SandboxSpec :=
  let spec := foldl (fun s b => ro_bind s b.1 b.2) (clean_worker "/") runtime_binds in
  let spec := if reads_inputs c then ro_bind spec staging_dir "/inputs" else spec in
  if writes_output c then rw_bind spec output_dir "/output" else spec.

(** ** Bubblewrap's reading of a command line *)

Record Bwrap := mkBwrap {
  unshare_all : bool; share_net : bool; dies_with_parent : bool; new_session : bool; caps_dropped : list string;
  cleared : bool; variables : list (string * string); mounted : list MountOp; seccomp_fd : option string;
  workdir : option string; command : list string;
}.

Definition bare : Bwrap := mkBwrap false false false false [] false [] [] None None [].

Definition mount (b : Bwrap) (m : MountOp) : Bwrap :=
  mkBwrap (unshare_all b) (share_net b) (dies_with_parent b) (new_session b) (caps_dropped b) (cleared b) (variables b)
    (mounted b ++ [m]) (seccomp_fd b) (workdir b) (command b).

(** Options take a fixed number of arguments, whatever these say; [--] ends them, and so does
    anything that is not an option. *)
Fixpoint bwrap_read (b : Bwrap) (argv : list string) : option Bwrap :=
  let '(mkBwrap ua sn dp ns cd cl vs ms fd wd cmd) := b in
  match argv with
  | [] => None
  | o :: rest =>
      if decide (o = "--") then Some (mkBwrap ua sn dp ns cd cl vs ms fd wd rest)
      else if decide (o = "--unshare-all") then bwrap_read (mkBwrap true sn dp ns cd cl vs ms fd wd cmd) rest
      else if decide (o = "--share-net") then bwrap_read (mkBwrap ua true dp ns cd cl vs ms fd wd cmd) rest
      else if decide (o = "--die-with-parent") then bwrap_read (mkBwrap ua sn true ns cd cl vs ms fd wd cmd) rest
      else if decide (o = "--new-session") then bwrap_read (mkBwrap ua sn dp true cd cl vs ms fd wd cmd) rest
      else if decide (o = "--clearenv") then bwrap_read (mkBwrap ua sn dp ns cd true [] ms fd wd cmd) rest
      else match rest with
      | [] => None
      | a :: rest =>
          if decide (o = "--cap-drop") then bwrap_read (mkBwrap ua sn dp ns (cd ++ [a]) cl vs ms fd wd cmd) rest
          else if decide (o = "--proc") then
            if decide (a = "/proc") then bwrap_read (mount b MProc) rest else None
          else if decide (o = "--dev") then
            if decide (a = "/dev") then bwrap_read (mount b MDev) rest else None
          else if decide (o = "--tmpfs") then bwrap_read (mount b (MTmpfs a)) rest
          else if decide (o = "--seccomp") then bwrap_read (mkBwrap ua sn dp ns cd cl vs ms (Some a) wd cmd) rest
          else if decide (o = "--chdir") then bwrap_read (mkBwrap ua sn dp ns cd cl vs ms fd (Some a) cmd) rest
          else match rest with
          | [] => None
          | c :: rest =>
              if decide (o = "--setenv") then bwrap_read (mkBwrap ua sn dp ns cd cl (vs ++ [(a, c)]) ms fd wd cmd) rest
              else if decide (o = "--ro-bind") then bwrap_read (mount b (MRoBind a c)) rest
              else if decide (o = "--bind") then bwrap_read (mount b (MRwBind a c)) rest
              else None
          end
      end
  end.

(** What a spec asks for. *)
Definition enforced (s : SandboxSpec) (fd : option string) (cmd : list string) : Bwrap :=
  mkBwrap true (allow_network s) true true ["ALL"] true (env s) (spec_mounts s) fd (Some (chdir s)) cmd.

Lemma read_setenvs l : forall ua sn dp ns cd cl vs ms fd wd cmd rest,
  bwrap_read (mkBwrap ua sn dp ns cd cl vs ms fd wd cmd) (concat ((fun kv => ["--setenv"; kv.1; kv.2]) <$> l) ++ rest) =
  bwrap_read (mkBwrap ua sn dp ns cd cl (vs ++ l) ms fd wd cmd) rest.
Proof.
  induction l as [|[k v] l IH]; intros; [by rewrite app_nil_r|]. cbn [fmap list_fmap concat app fst snd].
  etrans; [|etrans; [apply (IH ua sn dp ns cd cl (vs ++ [(k, v)]))|by rewrite <- app_assoc]]. reflexivity.
Qed.

(** A group of mount options: [f] gives an entry's option and its arguments, [g] its mount. *)
Lemma read_mounts {A} (f : A -> list string) (g : A -> MountOp) l :
  (forall b x rest, bwrap_read b (f x ++ rest) = bwrap_read (mount b (g x)) rest) ->
  forall ua sn dp ns cd cl vs ms fd wd cmd rest,
  bwrap_read (mkBwrap ua sn dp ns cd cl vs ms fd wd cmd) (concat (f <$> l) ++ rest) =
  bwrap_read (mkBwrap ua sn dp ns cd cl vs (ms ++ (g <$> l)) fd wd cmd) rest.
Proof.
  intros Hf. induction l as [|x l IH]; intros; [by rewrite app_nil_r|]. cbn [fmap list_fmap concat]. rewrite <- app_assoc, Hf.
  etrans; [apply (IH ua sn dp ns cd cl vs (ms ++ [g x]))|]. by rewrite <- app_assoc.
Qed.

(** The command line is read back as the spec that made it, whatever texts the spec holds. *)
Lemma argv_read s program args fd : bwrap_read bare (drop 1 (build_argv s program args fd)) = Some (enforced s fd (program :: args)).
Proof.
  unfold build_argv. destruct s as [ros rws tms cd en net]. cbn [ro_binds rw_binds tmpfs_mounts chdir env allow_network].
  assert (forall rest, bwrap_read bare (drop 1 (["bwrap"; "--unshare-all"] ++ (if net then ["--share-net"] else []) ++
    ["--die-with-parent"; "--new-session"; "--cap-drop"; "ALL"; "--clearenv"] ++ rest)) =
    bwrap_read (mkBwrap true net true true ["ALL"] true [] [] None None []) rest) as H0 by (intros; by destruct net).
  rewrite H0, read_setenvs. cbn [app].
  assert (forall rest, bwrap_read (mkBwrap true net true true ["ALL"] true en [] None None []) ("--proc" :: "/proc" :: "--dev" :: "/dev" :: rest) =
    bwrap_read (mkBwrap true net true true ["ALL"] true en [MProc; MDev] None None []) rest) as H1 by done.
  rewrite H1, (read_mounts _ (fun b => MRoBind b.1 b.2)), (read_mounts _ (fun b => MRwBind b.1 b.2)), (read_mounts _ MTmpfs)
    by (by intros []).
  assert (forall ms, bwrap_read (mkBwrap true net true true ["ALL"] true en ms None None [])
    ((match fd with Some fd => ["--seccomp"; fd] | None => [] end) ++ ["--chdir"; cd; "--"; program] ++ args) =
    Some (mkBwrap true net true true ["ALL"] true en ms fd (Some cd) (program :: args))) as H2 by (intros; destruct fd; reflexivity).
  rewrite <- !app_assoc. exact (H2 _).
Qed.

(** ** Grants and the boundary *)

Definition granted_inputs (v : CapabilityVector) : list string :=
  match Capability.grant v Capability.ReadSuppliedInputs with Some (GReadSuppliedInputs scope) => Capability.ri_input_ids scope | _ => [] end.

Definition granted_processor (v : CapabilityVector) : option string :=
  match Capability.grant v Capability.ProcessorUse with Some (GProcessorUse scope) => Some (Capability.pu_processor_id scope) | _ => None end.

Definition granted_output (v : CapabilityVector) : bool :=
  Capability.grants_component v Capability.Respond || Capability.grants_component v Capability.ArtifactExport.

Lemma not_found c gs : c ∉ Capability.component <$> gs -> Capability.grant (Capability.mkVector gs) c = None.
Proof.
  intros Hc. unfold Capability.grant. cbn. destruct (List.find _ gs) as [g|] eqn:E; [|done].
  apply List.find_some in E as [Hin <-%bool_decide_eq_true]. destruct Hc. by apply list_elem_of_fmap_2, list_elem_of_In.
Qed.

Lemma grants_fold gs : NoDup (Capability.component <$> gs) -> forall c,
  let v := Capability.mkVector gs in
  foldl add_grant c gs = mkConfinement (reads_inputs c || Capability.grants_component v Capability.ReadSuppliedInputs)
    (if Capability.grants_component v Capability.ReadSuppliedInputs then granted_inputs v else input_ids c)
    (writes_output c || granted_output v)
    (if Capability.grants_component v Capability.ProcessorUse then granted_processor v else processor c).
Proof.
  induction gs as [|g gs IH]; intros Hnd c; [by destruct c as [[] ? [] ?]|].
  rewrite fmap_cons in Hnd. apply NoDup_cons in Hnd as [Hg Hnd]. cbn [foldl]. rewrite IH by done. clear IH.
  apply not_found in Hg. revert Hg. unfold granted_output, granted_inputs, granted_processor, Capability.grants_component, Capability.grant.
  destruct c as [ri ids wo pr]. cbn [Capability.grants].
  destruct g as [sc|sc|sc|sc]; cbn [Capability.component List.find add_grant reads_inputs input_ids writes_output processor];
    repeat (rewrite bool_decide_eq_true_2 by done || rewrite bool_decide_eq_false_2 by done); intros ->;
    rewrite ?orb_true_r, ?orb_true_l; reflexivity.
Qed.

Lemma confinement_grants gs v : Capability.new gs = Ok v ->
  from_capabilities v = mkConfinement (Capability.grants_component v Capability.ReadSuppliedInputs) (granted_inputs v) (granted_output v)
    (granted_processor v).
Proof.
  intros (-> & _ & Hnd)%Capability.vector_sound. unfold from_capabilities. cbn [Capability.grants]. rewrite grants_fold by done.
  cbn [reads_inputs input_ids writes_output processor orb]. f_equal.
  - unfold granted_inputs, Capability.grants_component. by destruct (Capability.grant _ _).
  - unfold granted_processor, Capability.grants_component. by destruct (Capability.grant _ _).
Qed.

Lemma fold_binds l : forall s, foldl (fun s b => ro_bind s b.1 b.2) s l =
  mkSpec (ro_binds s ++ l) (rw_binds s) (tmpfs_mounts s) (chdir s) (env s) (allow_network s).
Proof.
  induction l as [|[a b] l IH]; intros s; cbn [foldl]; [by rewrite app_nil_r; destruct s|]. rewrite IH. unfold ro_bind.
  cbn [ro_binds rw_binds tmpfs_mounts chdir env allow_network fst snd]. by rewrite <- app_assoc.
Qed.

Lemma to_spec_mounts c staging output runtime : to_spec c staging output runtime =
  mkSpec (runtime ++ if reads_inputs c then [(staging, "/inputs")] else []) (if writes_output c then [(output, "/output")] else [])
    [] "/" [] false.
Proof.
  unfold to_spec. rewrite fold_binds. unfold clean_worker, ro_bind, rw_bind.
  destruct (reads_inputs c), (writes_output c); cbn; by rewrite ?app_nil_r.
Qed.

Lemma ensure_Ok r fs : ensure r fs = Ok () <-> Forall (fun f => has r f = true) fs.
Proof.
  unfold ensure. induction fs as [|f fs IH]; [split; [constructor|done]|]. cbn [List.filter]. rewrite Forall_cons, <- IH.
  destruct (has r f); cbn [negb]; [naive_solver|]. split; [by destruct (List.filter _ fs)|naive_solver].
Qed.

(** The system calls on sockets; of these the ones that only move data over a descriptor the
    worker was given; the ones that reach another process or go around a filter; and the ones that
    make a process. *)
Definition socket_calls : list string :=
  ["socket"; "socketpair"; "connect"; "bind"; "listen"; "accept"; "accept4"; "shutdown"; "getsockname"; "getpeername";
   "setsockopt"; "getsockopt"; "sendto"; "sendmsg"; "sendmmsg"; "recvfrom"; "recvmsg"; "recvmmsg"].
Definition data_calls : list string := ["sendto"; "recvfrom"; "sendmsg"; "recvmsg"].
Definition reach_calls : list string :=
  ["ptrace"; "process_vm_readv"; "process_vm_writev"; "io_uring_setup"; "unshare"; "setns"; "mount"; "bpf"; "kill"].
Definition process_calls : list string := ["fork"; "vfork"; "clone"; "clone3"].

(** The texts a run passes to the launch: the broker channel's variable comes after the spec. *)
Definition worker_spec (v : CapabilityVector) (staging output : string) (runtime : list (string * string)) (vars : list (string * string)) :
  SandboxSpec := foldl (fun s kv => setenv s kv.1 kv.2) (to_spec (from_capabilities v) staging output runtime) vars.

Lemma fold_env l : forall s, foldl (fun s kv => setenv s kv.1 kv.2) s l =
  mkSpec (ro_binds s) (rw_binds s) (tmpfs_mounts s) (chdir s) (env s ++ l) (allow_network s).
Proof.
  induction l as [|[a b] l IH]; intros s; cbn [foldl]; [by rewrite app_nil_r; destruct s|]. rewrite IH. unfold setenv.
  cbn [ro_binds rw_binds tmpfs_mounts chdir env allow_network fst snd]. by rewrite <- app_assoc.
Qed.

(** What a filter does with the calls of a list, decided on the list. *)
Lemma verdicts p (pass : string -> bool) l c : forallb (fun c => eqb (bool_decide (c ∈ allow p)) (pass c)) l = true -> c ∈ l ->
  verdict p c = if pass c then Allow else Denied (deny p).
Proof. rewrite forallb_forall. intros H Hc%list_elem_of_In. apply H, eqb_prop in Hc. unfold verdict. by rewrite Hc. Qed.

Lemma clean_sockets deny : forallb (fun c => eqb (bool_decide (c ∈ allow (clean_worker_baseline deny))) (bool_decide (c ∈ data_calls))) socket_calls = true.
Proof. vm_compute. reflexivity. Qed.

Lemma clean_reach deny : forallb (fun c => eqb (bool_decide (c ∈ allow (clean_worker_baseline deny))) (false)) reach_calls = true.
Proof. vm_compute. reflexivity. Qed.

Lemma adapter_sockets deny : forallb (fun c => eqb (bool_decide (c ∈ allow (adapter_worker_baseline deny))) (bool_decide (c ∈ data_calls))) socket_calls = true.
Proof. vm_compute. reflexivity. Qed.

Lemma adapter_reach deny : forallb (fun c => eqb (bool_decide (c ∈ allow (adapter_worker_baseline deny))) (false)) reach_calls = true.
Proof. vm_compute. reflexivity. Qed.

Lemma adapter_processes deny : forallb (fun c => eqb (bool_decide (c ∈ allow (adapter_worker_baseline deny))) (false)) process_calls = true.
Proof. vm_compute. reflexivity. Qed.

(** C21. The worker's boundary is its grants. If a command is started for a worker, every
    required isolation feature was found and the filter compiled; bubblewrap reads the command
    line as: every namespace unshared and no network, no capability, an emptied environment with
    just the given variables, the compiled filter, /proc, /dev, the runtime read-only, the staged
    inputs read-only at /inputs exactly if inputs are granted, and one writable place, /output,
    exactly if a response or an artifact is granted, then the program with its arguments, whatever
    texts these are; the inputs and the processor are those of the grants. Under the shell's and the
    adapter's profile the only socket calls that pass the filter are the four that send and receive
    on a descriptor the worker already has: none that creates, binds, connects or accepts a socket
    does; no call that reaches another process passes, nor under the adapter's any process
    creation. *)
Theorem worker_boundary m gs v staging output runtime vars program args policy r argv :
  Capability.new gs = Ok v ->
  launch m (worker_spec v staging output runtime vars) program args policy = (r, Some argv) ->
  Forall (fun f => has (detect (host_files m)) f = true) required /\
  (exists fd, filter_fd m policy = Ok fd /\ bwrap_read bare (drop 1 argv) = Some (mkBwrap true false true true ["ALL"] true vars
     ([MProc; MDev] ++ ((fun b => MRoBind b.1 b.2) <$> runtime) ++
      (if Capability.grants_component v Capability.ReadSuppliedInputs then [MRoBind staging "/inputs"] else []) ++
      (if granted_output v then [MRwBind output "/output"] else [])) (Some fd) (Some "/") (program :: args))) /\
  input_ids (from_capabilities v) = granted_inputs v /\ processor (from_capabilities v) = granted_processor v /\
  (forall deny p, p = clean_worker_baseline deny \/ p = adapter_worker_baseline deny ->
     (forall c, c ∈ socket_calls -> verdict p c = if bool_decide (c ∈ data_calls) then Allow else Denied deny) /\
     (forall c, c ∈ reach_calls -> verdict p c = Denied deny)) /\
  (forall deny c, c ∈ process_calls -> verdict (adapter_worker_baseline deny) c = Denied deny).
Proof.
  intros Hv Hl. pose proof (confinement_grants _ _ Hv) as Hc. split_and!.
  - unfold launch in Hl. destruct (ensure _ _) as [[]|] eqn:E; [|done]. by apply ensure_Ok.
  - unfold launch in Hl. destruct (ensure _ _); [|done]. destruct (filter_fd m policy) as [fd|]; [|done]. destruct (open_procs m); [|done].
    injection Hl as _ <-. exists fd. split; [done|]. rewrite argv_read. unfold enforced, worker_spec. rewrite fold_env, to_spec_mounts, Hc.
    unfold spec_mounts. cbn [ro_binds rw_binds tmpfs_mounts chdir env allow_network reads_inputs writes_output].
    rewrite !fmap_app, <- !app_assoc, app_nil_l. do 2 f_equal. cbn [app]. do 3 f_equal.
    destruct (Capability.grants_component _ _), (granted_output v); by rewrite ?app_nil_r.
  - by rewrite Hc.
  - by rewrite Hc.
  - intros deny p [-> | ->]; split; intros c Hin.
    + apply (verdicts _ _ _ _ (clean_sockets _) Hin).
    + apply (verdicts _ (fun _ => false) _ _ (clean_reach _) Hin).
    + apply (verdicts _ _ _ _ (adapter_sockets _) Hin).
    + apply (verdicts _ (fun _ => false) _ _ (adapter_reach _) Hin).
  - intros deny c Hin. apply (verdicts _ (fun _ => false) _ _ (adapter_processes _) Hin).
Qed.

(** ** Witness *)

Definition sample_files (path : string) : option string :=
  if decide (path = "/sys/fs/cgroup/cgroup.controllers") then Some "cpu memory pids"
  else if decide (path = "/proc/self/status") then Some ("NoNewPrivs: 0" +:+ from_utf8 [Http.LF] +:+ "Seccomp: 0" +:+ from_utf8 [Http.LF])
  else None.

Definition sample_machine : Machine := mkMachine (mkHost sample_files (fun _ => true)) (fun _ => Ok "7") (Ok ()) (fun _ => Success).

Definition sample_vector : CapabilityVector :=
  Capability.mkVector [Capability.sample_respond; GReadSuppliedInputs (Capability.mkReadInputsScope ["diff"] "cd")].

(** A variable and an argument that look like options. *)
Definition sample_launch : result SandboxError () * option (list string) :=
  launch sample_machine (worker_spec sample_vector "/run/in" "/run/out" [("/usr", "/usr")] [("X", "--share-net")])
    "/bin/sh" ["--bind"; "/"] (clean_worker_baseline KillProcess).

Example worker_boundary_witness : exists argv, sample_launch.2 = Some argv /\
  share_net <$> bwrap_read bare (drop 1 argv) = Some false.
Proof.
  destruct sample_launch as [r [argv|]] eqn:E; [|vm_compute in E; discriminate]. unfold sample_launch in E. exists argv. split; [reflexivity|].
  destruct (worker_boundary sample_machine (Capability.grants sample_vector) sample_vector "/run/in" "/run/out" [("/usr", "/usr")]
    [("X", "--share-net")] "/bin/sh" ["--bind"; "/"] (clean_worker_baseline KillProcess) r argv) as (_ & (fd & _ & Hr) & _).
  - reflexivity.
  - exact E.
  - rewrite Hr. reflexivity.
Defined.
End Sandbox.
