(* ===== verification/WorkerRun.v ===== *)
(** Completing an approved Task (aksond/src/worker_run.rs): [run_worker], which stages the
    granted inputs, launches a confined worker and gates what it wrote, and [run_fulfill], by
    which the operator hands over a result.

    The host's file system and processes are what they do at each step; the lock is free
    while the worker runs, so what others do then is an argument. *)
From S2P Require Import Prelude Text Crypto Sign Envelope AuditLog Lifecycle Keys Json IJson Dsse Contract Proposal Evidence.
From S2P Require Import Toy Capability Gate Inert WorkOrder Machine RowMachine Attempt Broker Control Db Handler Readers StorePeers StoreContracts.
From S2P Require Import StoreAttempts StoreRequester StoreCalls StoreReach Daemon Results Http Sandbox.

Module WorkerRun.
Import Contract (Contract).
Import Json.
Import Handler.
Import Control (Problem, problem, FulfillOutput).
Import Capability (CapabilityVector).
Import Proposal (FromValue, ToValue, Rfc3339, parse_rfc3339).
Import Evidence (ResultManifest, FromSlice, Outcome).
Import Results (ErrorText, problem_detail, ResultOutput, mkResultOutput, KResponse, KArtifact, submit_result, mkSubmission).
Import StoreRequester (TaskInput, input_id, i_media_type, i_payload).
Import Sandbox (SandboxSpec, SandboxError, SeccompPolicy).

Definition REQUEST_ORIGIN : string := "request-origin".
Definition MAX_WORKER_FILE_BYTES : Z := 64 * 1024 * 1024.
Definition WORKER_WALL_CLOCK_MAX : Z := 600.

(** ** How the worker is invoked *)

Inductive Invocation := Shell (cmd : string) | Adapter (argv : list string).

Record DaemonConfig := mkConfig { data_dir : string; worker_exec : option (list string); worker_command : option string }.

Definition from_config (c : DaemonConfig) : option Invocation :=
  match worker_exec c with
  | Some (a :: argv) => Some (Adapter (a :: argv))
  | _ => Shell <$> worker_command c
  end.

(** [argv[0]]: an adapter's [argv] is not empty. *)
Definition first (argv : list string) : string := default "" (head argv).

Definition program (i : Invocation) : string := match i with Shell _ => "/bin/sh" | Adapter argv => first argv end.
Definition args (i : Invocation) : list string := match i with Shell cmd => ["-c"; cmd] | Adapter argv => drop 1 argv end.

Definition bind_token (i : Invocation) : option string :=
  match i with
  | Shell cmd => from_utf8 <$> head (Http.split_whitespace (as_bytes cmd))
  | Adapter argv => Some (first argv)
  end.

Definition seccomp (i : Invocation) : SeccompPolicy :=
  match i with
  | Shell _ => Sandbox.clean_worker_baseline Sandbox.KillProcess
  | Adapter _ => Sandbox.adapter_worker_baseline Sandbox.KillProcess
  end.

(** ** The host *)

(** A file the worker left: its length by [metadata] and its bytes, if reading them works. *)
Record WorkerFile := mkFile { f_len : Z; f_bytes : option bytes }.

(** How the launch ended: the launcher returned, the wall clock ran out first, or its thread
    panicked. *)
Inductive Launched := Finished (r : result SandboxError ()) | Overran | Panicked.

(** One launch request. *)
Record Launch := mkLaunch { l_spec : SandboxSpec; l_program : string; l_args : list string; l_seccomp : SeccompPolicy; l_budget : Z }.

(** The host: creating the run directory, what the staging directory holds then, which paths
    exist or are files, whether the paths are UTF-8, the broker's socket pair (the worker's
    descriptor), the cgroup, and a run with the files it leaves under the output directory. *)
Record Host := mkHost {
  h_setup : result string ();
  h_staging : gmap string bytes;
  h_exists : string -> bool;
  h_is_file : string -> bool;
  h_utf8 : string -> bool;
  h_socketpair : result string string;
  h_cgroup : result string ();
  h_run : Launch -> Launched;
  h_files : string -> option WorkerFile;
}.

Class RunText := {
  inert_text : Inert.NotInert -> string;
  stage_text : Gate.StageError -> string;
  sandbox_text : SandboxError -> string;
}.

(** [serde_json::from_slice::<Vec<ArtifactEntry>>]: role and media type, or the error's text. *)
Class ArtifactSyntax := read_entries : bytes -> result string (list (string * string)).

(** [Path::join] of a relative path, or of an absolute one, which replaces. *)
Definition path_join (a b : string) : string :=
  if Inert.starts (as_bytes "/") (as_bytes b) then b else a +:+ "/" +:+ b.

Definition read_worker_file (h : Host) (path : string) : result Problem (option bytes) :=
  match h_files h path with
  | None => Ok None
  | Some f => if (MAX_WORKER_FILE_BYTES <? f_len f)%Z
              then Err (problem 413 "output-too-large" "a worker output file exceeds the maximum readable size")
              else Ok (f_bytes f)
  end.

Definition is_slug_role (s : string) : bool :=
  match as_bytes s with
  | [] => false
  | c :: r => Gate.slug_byte c && forallb (fun b => Gate.slug_byte b || bool_decide (b = "-"%char)) (c :: r)
  end.

Definition artifact (task_id role media_type : string) (content : bytes) : ResultOutput :=
  mkResultOutput role ("art-" +:+ task_id +:+ "-" +:+ role) KArtifact REQUEST_ORIGIN media_type content.

Definition response (task_id media_type : string) (content : bytes) : ResultOutput :=
  mkResultOutput "response" ("resp-" +:+ task_id) KResponse REQUEST_ORIGIN media_type content.

Definition worker_wall_clock {TM : Rfc3339} (deadline : string) (now : Z) : result Problem Z :=
  t ← ok_or (parse_rfc3339 deadline) (problem 422 "bad-deadline" "the work order deadline is not valid");
  let remaining := (t - now)%Z in
  if (remaining <=? 0)%Z then Err (problem 504 "deadline-passed" "the work order deadline has already passed")
  else Ok (Z.min remaining WORKER_WALL_CLOCK_MAX).

(** ** What the worker left *)

Section collect.
Context {RT : RunText} {AS : ArtifactSyntax}.

Fixpoint collect_entries (h : Host) (output task_id : string) (entries : list (string * string)) : result Problem (list ResultOutput) :=
  match entries with
  | [] => Ok []
  | (role, media_type) :: entries =>
      if negb (is_slug_role role) then Err (problem 422 "bad-artifact-role" "an artifact role is not a safe name") else
      o ← read_worker_file h (path_join (path_join output "artifacts") role);
      b ← ok_or o (problem 422 "missing-artifact" "a declared artifact was not written");
      match Inert.check_inert media_type b with
      | Err e => Err (problem_detail 403 "artifact-not-inert" "an artifact carries active content and was refused" (inert_text e))
      | Ok _ => rest ← collect_entries h output task_id entries; Ok (artifact task_id role media_type b :: rest)
      end
  end.

Definition collect_artifacts (h : Host) (output task_id : string) : result Problem (list ResultOutput) :=
  o ← read_worker_file h (path_join output "artifacts.json");
  match o with
  | None => Ok []
  | Some raw =>
      match read_entries raw with
      | Err e => Err (problem_detail 422 "bad-artifacts" "the artifact manifest is invalid" e)
      | Ok entries => collect_entries h output task_id entries
      end
  end.

Definition index_text (e : Gate.GateError) : string := "offending output index " +:+ to_string (N.of_nat (Gate.index e)).

(** Everything the worker left, gated; and the sizes the answer reports. *)
Definition collect_outputs (h : Host) (output task_id : string) (v : CapabilityVector) : result Problem (list ResultOutput * nat * nat) :=
  o ← read_worker_file h (path_join output "response");
  let resp := match o with Some body => [response task_id "text/plain" body] | None => [] end in
  arts ← collect_artifacts h output task_id;
  let outs := resp ++ arts in
  match outs with
  | [] => Err (problem 422 "no-output" "the worker produced no /output/response or artifacts")
  | _ =>
      match Gate.gate_outputs v (Results.proposed <$> outs) with
      | Err e => Err (problem_detail 403 "output-denied" "the worker output is outside the granted scope" (index_text e))
      | Ok _ => Ok (outs, match o with Some body => length body | None => 0 end, length arts)
      end
  end.
End collect.

(** ** The run *)

Section run.
Context {HS : Hashes} {HX : Hex} {AE : Aead} {ED : Ed25519} {B64 : Base64} {BU : Keys.Base64Url} {BV : Dsse.Base64Variants}
  {JT : Keys.JwkText} {CN : Canon Json} {SX : IJson.JsonSyntax} {SV : Dsse.Schemas} {FS : FromSlice} {FC : FromValue Contract}
  {TR : ToValue ResultManifest} {CI : Codec WorkOrder.IssuedWorkOrder} {CE : Codec Dsse.Envelope} {ET : ErrorText} {TM : Rfc3339}
  {MT : Gate.ManifestText} {RT : RunText} {AS : ArtifactSyntax} {CW : Canon WorkOrder.WorkOrder}.
Context (s : Store) (config : DaemonConfig).

Definition no_worker : Problem := problem 409 "no-worker" "no worker is configured (set AKSON_WORKER_CMD or AKSON_WORKER_EXEC)".

(** Phase 1. *)
Definition gather (task_id : string) : H (string * WorkOrder.WorkOrder * list TaskInput * Invocation) :=
  wo ← call (StoreAttempts.attempt_for_task task_id);
  work_order_id ← require wo Results.no_work_order;
  o ← call (StoreAttempts.get_work_order s work_order_id);
  issued ← require o (problem 404 "no-work-order" "the work order is missing");
  inputs ← call (StoreRequester.list_task_inputs s task_id);
  invocation ← require (from_config config) no_worker;
  mret (work_order_id, WorkOrder.order issued, inputs, invocation).

Definition RUNTIME_DIRS : list string := ["/usr"; "/bin"; "/sbin"; "/lib"; "/lib64"; "/etc/alternatives"].

(** The runtime's directories that exist, and the worker's own file. *)
Definition bind_dirs (h : Host) (i : Invocation) : list string :=
  let dirs := List.filter (h_exists h) RUNTIME_DIRS in
  match bind_token i with
  | Some t => if bool_decide ("/"%char ∈ as_bytes t) && h_is_file h t && negb (bool_decide (t ∈ dirs)) then dirs ++ [t] else dirs
  | None => dirs
  end.

Definition staged_items (v : CapabilityVector) (inputs : list TaskInput) : list Gate.StageItem :=
  (fun i => Gate.mkItem (input_id i) (i_media_type i) (i_payload i)) <$>
  List.filter (fun i => bool_decide (input_id i ∈ Sandbox.input_ids (Sandbox.from_capabilities v))) inputs.

Definition check_path (h : Host) (p : string) : result Problem () :=
  if h_utf8 h p then Ok () else Err (problem 500 "run-setup" "the run directory path is not valid UTF-8").

Definition run_dir (task_id : string) : string := path_join (path_join (data_dir config) "run") task_id.
Definition staging (task_id : string) : string := path_join (run_dir task_id) "inputs".
Definition output (task_id : string) : string := path_join (run_dir task_id) "output".

(** Phase 2 up to the launch: the launch to make. *)
Definition prepare_run (h : Host) (task_id : string) (v : CapabilityVector) (inputs : list TaskInput) (i : Invocation) (budget : Z) :
  result Problem Launch :=
  let conf := Sandbox.from_capabilities v in
  _ ← match h_setup h with Ok _ => Ok () | Err e => Err (problem_detail 500 "run-setup" "could not prepare the run directory" e) end;
  _ ← (if Sandbox.reads_inputs conf then
         match (Gate.stage_inputs (staged_items v inputs) "/inputs" (h_staging h)).1 with
         | Ok _ => Ok ()
         | Err e => Err (problem_detail 500 "stage-failed" "could not stage the inputs" (stage_text e))
         end
       else Ok ());
  _ ← check_path h (staging task_id);
  _ ← check_path h (output task_id);
  let spec := Sandbox.to_spec conf (staging task_id) (output task_id) ((fun d => (d, d)) <$> bind_dirs h i) in
  spec ← match Sandbox.processor conf with
         | Some _ => match h_socketpair h with
                     | Ok fd => Ok (Sandbox.setenv spec "AKSON_BROKER_FD" fd)
                     | Err e => Err (problem_detail 500 "run-setup" "broker channel" e)
                     end
         | None => Ok spec
         end;
  _ ← match h_cgroup h with
      | Ok _ => Ok ()
      | Err e => Err (problem_detail 503 "no-confinement"
                   "cannot confine the worker (no delegated cgroup); refusing to run un-isolated" e)
      end;
  Ok (mkLaunch spec (program i) (args i) (seccomp i) budget).

Definition already_running : Problem := problem 409 "already-running" "this task's worker is already running or has finished".

(** The durable mark before the effect. *)
Definition start_attempt (work_order_id : string) (now : Z) : H () :=
  r ← call (StoreAttempts.advance_attempt work_order_id Attempt.Start now);
  match r with Ok _ => mret () | Err _ => raise already_running end.

Definition launch_result (r : Launched) : result Problem () :=
  match r with
  | Finished (Ok _) => Ok ()
  | Finished (Err e) => Err (problem_detail 500 "worker-failed" "the worker did not run to completion" (sandbox_text e))
  | Overran => Err (problem 504 "worker-timeout" "the worker exceeded its wall-clock limit")
  | Panicked => Err internal
  end.

Definition ran_json (task_id : string) (response_bytes artifacts : nat) (manifest : Json) : Json :=
  IJson.obj [("ran", JBool true); ("task_id", JStr task_id); ("response_bytes", JInt (Z.of_nat response_bytes));
    ("artifacts", JInt (Z.of_nat artifacts)); ("result", manifest)].

(** The seals of a submission, and the clock at the four places it is read. *)
Record Draws := mkDraws { dr_seal : nat -> bytes; dr_manifest : bytes; dr_key : Keys.PurposeKey }.
Record Clock := mkClock { t_check : Z; t_start : Z; t_submit : Z; t_fail : Z }.

(** [record]: the launch has ended. *)
Definition record (n : Draws) (h : Host) (task_id : string) (v : CapabilityVector) (launched : Launched) (now : Z) : H Json :=
  _ ← hlift (launch_result launched);
  x ← hlift (collect_outputs h (output task_id) task_id v);
  let '(outs, response_bytes, artifacts) := x in
  manifest ← submit_result s (dr_seal n) (dr_manifest n) (dr_key n) (mkSubmission task_id outs [] []) now;
  mret (ran_json task_id response_bytes artifacts manifest).

(** [run_worker]: the answer and the launch made, if one was; [gap1] is what others do between
    the first lock and the mark, [gap2] while the worker runs, its calls through the broker
    included. *)
Definition run_worker (n : Draws) (h : Host) (task_id : string) (c : Clock) (gap1 gap2 : Db -> Db) (d : Db) :
  result Problem Json * option Launch * Db :=
  match gather task_id d with
  | (Err p, d1) => (Err p, None, d1)
  | (Ok (wo, order, inputs, i), d1) =>
      let v := WorkOrder.capabilities order in
      match (budget ← worker_wall_clock (WorkOrder.deadline order) (t_check c); prepare_run h task_id v inputs i budget) with
      | Err p => (Err p, None, gap1 d1)
      | Ok l =>
          match start_attempt wo (t_start c) (gap1 d1) with
          | (Err p, d2) => (Err p, None, d2)
          | (Ok _, d2) =>
              match record n h task_id v (h_run h l) (t_submit c) (gap2 d2) with
              | (Ok j, d3) => (Ok j, Some l, d3)
              | (Err p, d3) => (Err p, Some l, (exec (StoreAttempts.advance_attempt wo Attempt.Fail (t_fail c)) d3).2)
              end
          end
      end
  end.

(** ** Fulfilment by the operator *)

Definition fulfil_output (task_id : string) (o : FulfillOutput) : result Problem ResultOutput :=
  if (MAX_WORKER_FILE_BYTES / 3 * 4 + 4 <? Z.of_nat (String.length (Control.content_base64 o)))%Z
  then Err (problem 413 "output-too-large" "a fulfilment output exceeds the maximum size") else
  content ← ok_or (b64_decode (Control.content_base64 o)) (problem 422 "bad-content" "an output's content is not valid base64");
  match Inert.check_inert (Control.f_media_type o) content with
  | Err e => Err (problem_detail 403 "artifact-not-inert" "an output carries active content and was refused" (inert_text e))
  | Ok _ => Ok (if decide (Control.f_role o = "response") then response task_id (Control.f_media_type o) content
                else artifact task_id (Control.f_role o) (Control.f_media_type o) content)
  end.

Fixpoint fulfil_outputs (task_id : string) (l : list FulfillOutput) : result Problem (list ResultOutput) :=
  match l with
  | [] => Ok []
  | o :: l => x ← fulfil_output task_id o; rest ← fulfil_outputs task_id l; Ok (x :: rest)
  end.

Definition run_fulfill (n : Draws) (task_id : string) (provided : list FulfillOutput) (now : Z) (gap : Db -> Db) (d : Db) :
  result Problem Json * Db :=
  match provided with
  | [] => (Err (problem 422 "no-output" "a fulfilment must carry at least one output"), d)
  | _ =>
      match (wo ← call (StoreAttempts.attempt_for_task task_id);
             work_order_id ← require wo Results.no_work_order;
             o ← call (StoreAttempts.get_work_order s work_order_id);
             issued ← require o (problem 404 "no-work-order" "the work order is missing");
             mret (WorkOrder.capabilities (WorkOrder.order issued))) d with
      | (Err p, d1) => (Err p, d1)
      | (Ok v, d1) =>
          (outs ← hlift (fulfil_outputs task_id provided);
           _ ← hlift (match Gate.gate_outputs v (Results.proposed <$> outs) with
                      | Err e => Err (problem_detail 403 "output-denied" "the provided result is outside the granted scope" (index_text e))
                      | Ok _ => Ok ()
                      end);
           manifest ← submit_result s (dr_seal n) (dr_manifest n) (dr_key n) (mkSubmission task_id outs [] []) now;
           mret (IJson.obj [("fulfilled", JBool true); ("task_id", JStr task_id); ("outputs", JInt (Z.of_nat (length provided)));
             ("result", manifest)])) (gap d1)
      end
  end.

(** ** What a run does *)

Definition in_state (d : Db) (wo : string) (st : Attempt.AttemptState) : Prop :=
  exists row, StoreAttempts.tbl_attempts d !! wo = Some row /\ at_state row = Attempt.as_str st.

Lemma gather_Ok t d wo order inputs i d1 : gather t d = (Ok (wo, order, inputs, i), d1) -> d1 = d /\ exists issued,
  StoreAttempts.attempt_for_task t d = Ok (Some wo, d) /\ StoreAttempts.get_work_order s wo d = Ok (Some issued, d) /\
  StoreRequester.list_task_inputs s t d = Ok (inputs, d) /\ order = WorkOrder.order issued /\ from_config config = Some i.
Proof.
  unfold gather. assert (Reads (StoreRequester.list_task_inputs s t)) as Hrd by (unfold StoreRequester.list_task_inputs; solve_reads).
  intros (a & Ha%call_Ok & H)%hread_Ok; [|apply _]. apply hbind_Ok in H as (w & ? & [-> ->]%require_Ok & H).
  apply hread_Ok in H as (o & Ho%call_Ok & H); [|apply _]. apply hbind_Ok in H as (issued & ? & [-> ->]%require_Ok & H).
  apply hread_Ok in H as (ins & Hi%call_Ok & H); [|apply _]. apply hbind_Ok in H as (inv & ? & [Hc ->]%require_Ok & H).
  apply mret_Ok in H as [[= -> -> -> ->] ->]. split; [done|]. by exists issued.
Qed.

Lemma gather_stops t d p d1 : gather t d = (Err p, d1) -> d1 = d.
Proof.
  intros H. assert (HReads (gather t)) as Hr; [|specialize (Hr d); by rewrite H in Hr].
  unfold gather. assert (Reads (StoreRequester.list_task_inputs s t)) as Hrd by (unfold StoreRequester.list_task_inputs; solve_reads).
  solve_reads.
Qed.

Lemma start_outcome wo now d r d' : start_attempt wo now d = (r, d') ->
  match r with
  | Ok _ => in_state d wo Attempt.Claimed /\ exists row, at_state row = "running" /\
      attempts_db d' = upd_attempts (insert wo row) (attempts_db d) /\
      StoreAttempts.advance_attempt wo Attempt.Start now d = Ok (Ok Attempt.Running, d')
  | Err _ => d' = d
  end.
Proof.
  unfold start_attempt, mbind, H_bind, call, exec. destruct (StoreAttempts.advance_attempt wo Attempt.Start now d) as [[out d1]|e] eqn:E;
    [|by intros [= <- <-]]. destruct (StoreAttempts.advance_effect _ _ _ _ _ _ E) as (row & st & Hr & Hs & Hn & Hd). destruct out as [st'|err].
  - intros [= <- <-]. assert (st = Attempt.Claimed /\ st' = Attempt.Running) as [-> ->]
      by (destruct st; vm_compute in Hn; try congruence; split; congruence).
    split; [by exists row|]. eexists. split; [|split; [exact Hd|done]]. done.
  - intros [= <- <-]. done.
Qed.

(** The mark is given once. *)
Lemma start_once wo now d d1 d2 now' : StoreAttempts.attempts_inv (attempts_db d) -> start_attempt wo now d = (Ok (), d1) ->
  rtc (StoreAttempts.attempts_step s) d1 d2 -> exists p, start_attempt wo now' d2 = (Err p, d2).
Proof.
  intros Hinv Hst Hsteps. destruct (start_outcome _ _ _ _ _ Hst) as (_ & row & Hrow & Hd & Hadv).
  assert (StoreAttempts.attempts_inv (attempts_db d1)) as Hinv1.
  { eapply (StoreAttempts.attempts_step_inv s); [by eapply StoreAttempts.as_advance|done]. }
  destruct (StoreAttempts.attempts_steps_driven _ _ _ Hsteps Hinv1) as [Hdr _].
  destruct (Hdr wo row Attempt.Running) as (row' & evs & st' & Hk & _ & Hrun & Hs').
  { unfold StoreAttempts.tbl_attempts. rewrite Hd. apply lookup_insert_eq. }
  { done. }
  destruct (start_attempt wo now' d2) as [[[]|p] d3] eqn:E; pose proof (start_outcome _ _ _ _ _ E) as Ho.
  - destruct Ho as [(row2 & Hr2 & Hs2) _]. rewrite Hk in Hr2. injection Hr2 as <-. change (at_state row' = Attempt.as_str st') in Hs'.
    rewrite Hs' in Hs2. apply StoreAttempts.as_str_eq in Hs2 as ->. apply run_climbs in Hrun. cbn in Hrun. lia.
  - cbn in Ho. subst d3. by exists p.
Qed.

(** *** The files a result is made of *)

Definition file_of (h : Host) (path : string) (content : bytes) : Prop :=
  exists f, h_files h path = Some f /\ f_bytes f = Some content /\ (f_len f <= MAX_WORKER_FILE_BYTES)%Z.

Lemma read_file_Some h path b : read_worker_file h path = Ok (Some b) -> file_of h path b.
Proof.
  unfold read_worker_file. destruct (h_files h path) as [f|] eqn:E; [|done]. destruct (Z.ltb_spec MAX_WORKER_FILE_BYTES (f_len f)); [done|].
  intros [= Hb]. by exists f.
Qed.

(** The host path of an artifact: a name of letters, digits and dashes below the output's
    [artifacts]. *)
Definition plain_name (role : string) : Prop := role <> "" /\ "/"%char ∉ as_bytes role /\ "."%char ∉ as_bytes role.

Lemma slug_plain role : is_slug_role role = true -> plain_name role.
Proof.
  unfold is_slug_role, plain_name. destruct (as_bytes role) as [|c r] eqn:E; [done|]. intros [_ H]%andb_prop.
  split; [by intros ->|]. rewrite forallb_forall in H.
  split; intros Hin%list_elem_of_In; apply H in Hin; vm_compute in Hin; done.
Qed.

Lemma slug_joined out role : is_slug_role role = true ->
  path_join (path_join out "artifacts") role = out +:+ "/artifacts/" +:+ role.
Proof.
  intros Hs. destruct (slug_plain _ Hs) as (_ & Hn & _). unfold path_join at 1.
  assert (Inert.starts (as_bytes "/") (as_bytes role) = false) as ->.
  { unfold is_slug_role in Hs. destruct (as_bytes role) as [|c r]; [done|]. apply not_elem_of_cons in Hn as [Hc _].
    unfold Inert.starts. cbn. by rewrite decide_False. }
  change (path_join out "artifacts") with (out +:+ "/" +:+ "artifacts"). apply (inj as_bytes). rewrite !as_bytes_app, <- !app_assoc. done.
Qed.

(** An artifact is an inert file of that directory, declared by a plain name. *)
Definition artifact_from (h : Host) (out task_id : string) (o : ResultOutput) : Prop := exists role media_type content,
  o = artifact task_id role media_type content /\ plain_name role /\ file_of h (out +:+ "/artifacts/" +:+ role) content /\
  Inert.check_inert media_type content = Ok ().

Lemma collect_entries_Ok h out t es outs : collect_entries h out t es = Ok outs -> Forall (artifact_from h out t) outs.
Proof.
  revert outs. induction es as [|[role media] es IH]; intros outs H; cbn [collect_entries] in H; [by injection H as <-|].
  destruct (is_slug_role role) eqn:Es; [|done]. cbn [negb] in H.
  destruct (read_worker_file h _) as [o|] eqn:Er; [|done]. cbn [mbind result_bind] in H. destruct o as [b|]; [|done].
  cbn [ok_or mbind result_bind] in H. destruct (Inert.check_inert media b) as [[]|] eqn:Ei; [|done].
  destruct (collect_entries h out t es) as [rest|] eqn:Ec; [|done]. injection H as <-. constructor; [|by apply IH].
  exists role, media, b. split_and!; [done|by apply slug_plain| |done]. rewrite <- slug_joined by done. by apply read_file_Some.
Qed.

(** What the worker's run is taken to have produced. *)
Definition produced (h : Host) (out task_id : string) (outs : list ResultOutput) : Prop := exists resp arts,
  outs = resp ++ arts /\ Forall (artifact_from h out task_id) arts /\
  (resp = [] \/ exists b, resp = [response task_id "text/plain" b] /\ file_of h (out +:+ "/response") b).

Lemma collect_outputs_Ok h out t v outs rb na : collect_outputs h out t v = Ok (outs, rb, na) ->
  produced h out t outs /\ outs <> [] /\ Gate.gate_outputs v (Results.proposed <$> outs) = Ok ().
Proof.
  unfold collect_outputs. destruct (read_worker_file h (path_join out "response")) as [o|] eqn:Er; [|done]. cbn [mbind result_bind].
  destruct (collect_artifacts h out t) as [arts|] eqn:Ea; [|done]. cbn [mbind result_bind].
  set (resp := match o with Some body => [response t "text/plain" body] | None => [] end).
  destruct (resp ++ arts) as [|x l] eqn:El; [done|]. destruct (Gate.gate_outputs v _) as [[]|] eqn:Eg; [|done]. intros [= <- _ _].
  split_and!; [|done|done]. exists resp, arts. split_and!; [done| |].
  - unfold collect_artifacts in Ea. destruct (read_worker_file h (path_join out "artifacts.json")) as [[raw|]|]; try done; cbn [mbind result_bind] in Ea;
      [|by injection Ea as <-]. destruct (read_entries raw); [|done]. by eapply collect_entries_Ok.
  - unfold resp. destruct o as [b|]; [right|by left]. exists b. split; [done|]. by apply read_file_Some.
Qed.

(** *** The launch a run makes *)

Definition broker_var (h : Host) (v : CapabilityVector) : list (string * string) :=
  match Sandbox.processor (Sandbox.from_capabilities v), h_socketpair h with
  | Some _, Ok fd => [("AKSON_BROKER_FD", fd)]
  | _, _ => []
  end.

Lemma prepare_run_Ok h t v inputs i budget l : prepare_run h t v inputs i budget = Ok l ->
  l = mkLaunch (Sandbox.worker_spec v (staging t) (output t) ((fun d => (d, d)) <$> bind_dirs h i) (broker_var h v))
        (program i) (args i) (seccomp i) budget /\
  (Sandbox.reads_inputs (Sandbox.from_capabilities v) = true ->
     exists m, (Gate.stage_inputs (staged_items v inputs) "/inputs" (h_staging h)).1 = Ok m) /\
  h_cgroup h = Ok ().
Proof.
  unfold prepare_run, broker_var. destruct (h_setup h); [|done]. cbn [mbind result_bind].
  destruct (Sandbox.reads_inputs _) eqn:Er; cbn [mbind result_bind].
  - destruct (Gate.stage_inputs _ _ _).1 as [m|]; [|done]. cbn [mbind result_bind].
    destruct (check_path h (staging t)); [|done]. cbn [mbind result_bind]. destruct (check_path h (output t)); [|done]. cbn [mbind result_bind].
    destruct (Sandbox.processor _); [destruct (h_socketpair h) as [fd|]; [|done]|]; cbn [mbind result_bind];
      destruct (h_cgroup h) as [[]|]; try done; cbn [mbind result_bind]; intros [= <-]; eauto.
  - destruct (check_path h (staging t)); [|done]. cbn [mbind result_bind]. destruct (check_path h (output t)); [|done]. cbn [mbind result_bind].
    destruct (Sandbox.processor _); [destruct (h_socketpair h) as [fd|]; [|done]|]; cbn [mbind result_bind];
      destruct (h_cgroup h) as [[]|]; try done; cbn [mbind result_bind]; intros [= <-]; split_and!; done.
Qed.

Lemma bind_dirs_bounded h i x : x ∈ bind_dirs h i ->
  x ∈ RUNTIME_DIRS \/ (bind_token i = Some x /\ h_is_file h x = true).
Proof.
  unfold bind_dirs. assert (forall y, y ∈ List.filter (h_exists h) RUNTIME_DIRS -> y ∈ RUNTIME_DIRS) as Hd
    by (intros y Hy; apply list_elem_of_In, filter_In in Hy as [? _]; by apply list_elem_of_In).
  destruct (bind_token i) as [tk|]; [|auto]. destruct (bool_decide _ && h_is_file h tk && _) eqn:E; [|auto].
  apply andb_prop in E as [[_ Hf]%andb_prop _]. intros [?|Hx%list_elem_of_singleton]%elem_of_app; [auto|subst; auto].
Qed.

Lemma wall_clock_Ok deadline now b : worker_wall_clock deadline now = Ok b ->
  exists t, parse_rfc3339 deadline = Some t /\ (now < t)%Z /\ (0 < b <= WORKER_WALL_CLOCK_MAX)%Z /\ (now + b <= t)%Z.
Proof.
  unfold worker_wall_clock. destruct (parse_rfc3339 deadline) as [t|]; [|done]. cbn [ok_or mbind result_bind].
  destruct (Z.leb_spec (t - now) 0); [done|]. intros [= <-]. exists t. unfold WORKER_WALL_CLOCK_MAX. split_and!; [done|lia..].
Qed.

Lemma record_cases n h t v launched now d r d' : record n h t v launched now d = (r, d') ->
  match r with
  | Err _ => attempts_db d' = attempts_db d
  | Ok _ => launched = Finished (Ok ()) /\ exists outs key_res, produced h (output t) t outs /\ outs <> [] /\
      Gate.gate_outputs v (Results.proposed <$> outs) = Ok () /\
      submit_result s (dr_seal n) (dr_manifest n) (dr_key n) (mkSubmission t outs [] []) now d = (Ok key_res, d')
  end.
Proof.
  unfold record. destruct (launch_result launched) as [[]|p] eqn:El; [|cbn; by intros [= <- <-]].
  rewrite (hbind_run _ _ d tt d) by done. destruct (collect_outputs h (output t) t v) as [[[outs rb] na]|p] eqn:Ec; [|cbn; by intros [= <- <-]].
  rewrite (hbind_run _ _ d (outs, rb, na) d) by done. cbn beta iota.
  destruct (submit_result s (dr_seal n) (dr_manifest n) (dr_key n) (mkSubmission t outs [] []) now d) as [[m|p] d1] eqn:Es.
  - rewrite (hbind_run _ _ _ _ _ Es). intros [= <- <-]. split; [by destruct launched as [[[]|]| |]|].
    apply collect_outputs_Ok in Ec as (? & ? & ?). by exists outs, m.
  - rewrite (hbind_stop _ _ _ _ _ Es). intros [= <- <-]. by eapply Results.submit_refused.
Qed.

Lemma fail_runs wo now d row : StoreAttempts.tbl_attempts d !! wo = Some row -> at_state row = "running" ->
  in_state (exec (StoreAttempts.advance_attempt wo Attempt.Fail now) d).2 wo Attempt.Failed.
Proof.
  intros Hr Hs. unfold exec. destruct (StoreAttempts.advance_attempt wo Attempt.Fail now d) as [[out d1]|e] eqn:E.
  - destruct (StoreAttempts.advance_effect _ _ _ _ _ _ E) as (row' & st & Hr' & Hs' & Hn & Hd). rewrite Hr in Hr'. injection Hr' as <-.
    assert (st = Attempt.Running) as -> by (apply StoreAttempts.as_str_eq; by rewrite <- Hs').
    vm_compute in Hn. subst out. cbn [snd]. eexists. split; [unfold StoreAttempts.tbl_attempts; rewrite Hd; apply lookup_insert_eq|done].
  - exfalso. revert E. unfold StoreAttempts.advance_attempt.
    rewrite (bind_run _ _ _ _ _ (StoreAttempts.known_state_run wo d row Attempt.Running Hr Hs)).
    cbn [Attempt.next Attempt.is_terminal]. rewrite bind_gets, bind_modify, (StoreAttempts.cas_hit _ _ _ Attempt.Running _ Hr Hs).
    rewrite decide_False by (by intros []). unfold audit at 1. unfold mbind at 1, M_bind at 1. by destruct (Audit.append _ _ _ _).
Qed.

(** What a launch is for: the Task's work order, its mark and what is launched. *)
Record launched_for (h : Host) (task_id : string) (c : Clock) (d d1 d2 : Db) (wo : string) (l : Launch) : Prop := {
  lf_order : exists issued i inputs tm, StoreAttempts.attempt_for_task task_id d = Ok (Some wo, d) /\
    StoreAttempts.get_work_order s wo d = Ok (Some issued, d) /\ StoreRequester.list_task_inputs s task_id d = Ok (inputs, d) /\
    from_config config = Some i /\
    parse_rfc3339 (WorkOrder.deadline (WorkOrder.order issued)) = Some tm /\ (t_check c + l_budget l <= tm)%Z /\
    (0 < l_budget l <= WORKER_WALL_CLOCK_MAX)%Z /\
    let v := WorkOrder.capabilities (WorkOrder.order issued) in
    l_spec l = Sandbox.worker_spec v (staging task_id) (output task_id) ((fun x => (x, x)) <$> bind_dirs h i) (broker_var h v) /\
    l_program l = program i /\ l_args l = args i /\ l_seccomp l = seccomp i /\
    (forall x, x ∈ bind_dirs h i -> x ∈ RUNTIME_DIRS \/ (bind_token i = Some x /\ h_is_file h x = true)) /\
    (Sandbox.reads_inputs (Sandbox.from_capabilities v) = true ->
       exists m, (Gate.stage_inputs (staged_items v inputs) "/inputs" (h_staging h)).1 = Ok m);
  lf_mark : in_state d1 wo Attempt.Claimed /\ start_attempt wo (t_start c) d1 = (Ok (), d2);
  lf_cgroup : h_cgroup h = Ok ();
}.

Lemma run_worker_cases n h t c gap1 gap2 d r l d' : run_worker n h t c gap1 gap2 d = (r, l, d') ->
  match l with
  | None => (exists p, r = Err p) /\ (d' = d \/ d' = gap1 d)
  | Some l => exists wo d2 v, launched_for h t c d (gap1 d) d2 wo l /\
      (exists issued, StoreAttempts.get_work_order s wo d = Ok (Some issued, d) /\ v = WorkOrder.capabilities (WorkOrder.order issued)) /\
      exists d3, record n h t v (h_run h l) (t_submit c) (gap2 d2) = (r, d3) /\
        d' = match r with Ok _ => d3 | Err _ => (exec (StoreAttempts.advance_attempt wo Attempt.Fail (t_fail c)) d3).2 end
  end.
Proof.
  unfold run_worker. destruct (gather t d) as [[[[[wo order] inputs] i]|p] d0] eqn:Eg.
  2: { intros [= <- <- <-]. apply gather_stops in Eg as ->. eauto. }
  apply gather_Ok in Eg as (-> & issued & Ht & Ho & Hi & -> & Hc).
  destruct (worker_wall_clock _ _) as [b|p] eqn:Ew; cbn [mbind result_bind]; [|intros [= <- <- <-]; eauto].
  destruct (prepare_run _ _ _ _ _ _) as [l0|p] eqn:Ep; [|intros [= <- <- <-]; eauto].
  destruct (start_attempt wo (t_start c) (gap1 d)) as [[[]|p] d2] eqn:Es; pose proof (start_outcome _ _ _ _ _ Es) as Hs.
  2: { cbn in Hs. subst. intros [= <- <- <-]. eauto. }
  apply prepare_run_Ok in Ep as (El & Hst & Hcg). apply wall_clock_Ok in Ew as (tm & Htm & _ & Hb & Hd).
  intros H. assert (l = Some l0 /\ exists d3, record n h t (WorkOrder.capabilities (WorkOrder.order issued)) (h_run h l0) (t_submit c) (gap2 d2) = (r, d3) /\
    d' = match r with Ok _ => d3 | Err _ => (exec (StoreAttempts.advance_attempt wo Attempt.Fail (t_fail c)) d3).2 end) as [-> Hrec].
  { destruct (record _ _ _ _ _ _ _) as [[j|p] d3]; injection H as <- <- <-; eauto. }
  exists wo, d2, (WorkOrder.capabilities (WorkOrder.order issued)). split; [|split; [by exists issued|exact Hrec]].
  split; [|by destruct Hs|done]. exists issued, i, inputs, tm. subst l0. cbn [l_spec l_program l_args l_seccomp l_budget].
  split_and!; try done; [lia|lia|]. apply bind_dirs_bounded.
Qed.

Lemma submit_succeeds seal nm key t outs now d m d' :
  submit_result s seal nm key (mkSubmission t outs [] []) now d = (Ok m, d') ->
  exists wo, StoreAttempts.attempt_for_task t d = Ok (Some wo, d) /\ in_state d' wo Attempt.Succeeded.
Proof.
  intros (head & parsed & wo & iss & st & mf & bd & env & Hs & Hend)%Results.submit_completed. exists wo. split; [by destruct Hs as (_ & _ & ? & _)|].
  destruct (decide (st = Some Attempt.Succeeded)) as [->|Hns].
  - destruct Hs as (_ & _ & _ & _ & Hst & _). subst. by apply StoreAttempts.attempt_state_Ok in Hst as [_ ?].
  - destruct Hend as (row & _ & Hdb & _). eexists. split; [unfold StoreAttempts.tbl_attempts; rewrite Hdb; apply lookup_insert_eq|done].
Qed.

(** C20. A worker runs once, confined, and only what its grant allows comes out. If nothing is
    launched the store is as others left it. A launch is for the Task's issued work order, whose
    attempt this run moved from claimed to running before, and within its deadline and the hard
    ceiling; what is launched is the sandbox of the order's grants, with nothing of the host but the
    runtime's directories and the worker's own file. If the run succeeds, the worker ended well, its
    outputs are files it left under its output directory, declared by plain names, inert and within
    the grant, and the attempt has succeeded; if it fails, the attempt is failed. And no later run,
    whatever happened to the attempts since, launches anything for that work order. *)
Theorem worker_runs_once n h t c gap1 gap2 d r l d' :
  run_worker n h t c gap1 gap2 d = (r, l, d') -> StoreAttempts.attempts_inv (attempts_db (gap1 d)) ->
  match l with
  | None => (exists p, r = Err p) /\ (d' = d \/ d' = gap1 d)
  | Some l => exists wo d2, launched_for h t c d (gap1 d) d2 wo l /\ in_state d2 wo Attempt.Running /\
      match r with
      | Ok _ => h_run h l = Finished (Ok ()) /\ exists outs issued wo',
          produced h (output t) t outs /\ outs <> [] /\ StoreAttempts.get_work_order s wo d = Ok (Some issued, d) /\
          Gate.gate_outputs (WorkOrder.capabilities (WorkOrder.order issued)) (Results.proposed <$> outs) = Ok () /\
          StoreAttempts.attempt_for_task t (gap2 d2) = Ok (Some wo', gap2 d2) /\ in_state d' wo' Attempt.Succeeded
      | Err _ => in_state (gap2 d2) wo Attempt.Running -> in_state d' wo Attempt.Failed
      end /\
      forall n' h' t' c' gap1' gap2' e r' l' e', run_worker n' h' t' c' gap1' gap2' e = (r', Some l', e') ->
        rtc (StoreAttempts.attempts_step s) d2 (gap1' e) -> StoreAttempts.attempt_for_task t' e <> Ok (Some wo, e)
  end.
Proof.
  intros Hrun Hinv. apply run_worker_cases in Hrun. destruct l as [l|]; [|done].
  destruct Hrun as (wo & d2 & v & Hlf & (issued & Ho & ->) & d3 & Hrec & ->). exists wo, d2. split; [done|].
  destruct (lf_mark _ _ _ _ _ _ _ _ Hlf) as [_ Hst]. pose proof (start_outcome _ _ _ _ _ Hst) as (_ & row & Hrow & Hd2 & _). split_and!.
  - exists row. split; [unfold StoreAttempts.tbl_attempts; rewrite Hd2; apply lookup_insert_eq|done].
  - apply record_cases in Hrec. destruct r as [j|p].
    + destruct Hrec as (Hl & outs & res & Hp & Hne & Hg & Hsub). split; [done|].
      apply submit_succeeds in Hsub as (wo' & ? & ?). by exists outs, issued, wo'.
    + intros (row' & Hr & Hs). eapply fail_runs; [|exact Hs]. unfold StoreAttempts.tbl_attempts. by rewrite Hrec.
  - intros n' h' t' c' gap1' gap2' e r' l' e' Hrun' Hsteps Hsame. apply run_worker_cases in Hrun' as (wo' & d2' & v' & Hlf' & _).
    destruct (lf_mark _ _ _ _ _ _ _ _ Hlf') as [_ Hst']. destruct (lf_order _ _ _ _ _ _ _ _ Hlf') as (? & ? & ? & ? & Hwo & _).
    rewrite Hsame in Hwo. injection Hwo as <-. destruct (start_once _ _ _ _ _ (t_start c') Hinv Hst Hsteps) as [p Hp].
    rewrite Hst' in Hp. done.
Qed.

(** *** Fulfilment *)

Definition provided_as (task_id : string) (o : FulfillOutput) (x : ResultOutput) : Prop := exists content,
  b64_decode (Control.content_base64 o) = Some content /\ Inert.check_inert (Control.f_media_type o) content = Ok () /\
  x = if decide (Control.f_role o = "response") then response task_id (Control.f_media_type o) content
      else artifact task_id (Control.f_role o) (Control.f_media_type o) content.

Lemma fulfil_outputs_Ok t l : forall outs, fulfil_outputs t l = Ok outs -> Forall2 (provided_as t) l outs.
Proof.
  induction l as [|o l IH]; intros outs H; cbn [fulfil_outputs] in H; [by injection H as <-|].
  destruct (fulfil_output t o) as [x|] eqn:Ex; [|done]. cbn [mbind result_bind] in H.
  destruct (fulfil_outputs t l) as [rest|] eqn:Er; [|done]. injection H as <-. constructor; [|by apply IH].
  unfold fulfil_output in Ex. destruct (_ <? _)%Z; [done|]. destruct (b64_decode _) as [content|] eqn:Eb; [|done]. cbn [ok_or mbind result_bind] in Ex.
  destruct (Inert.check_inert _ content) as [[]|] eqn:Ei; [|done]. injection Ex as <-. by exists content.
Qed.

(** A fulfilment is gated like a run. If it is taken, every output was decoded, is inert and
    within the grant of the Task's work order, and the attempt has succeeded; if it is refused, no
    attempt has changed, so a corrected one can follow. *)
Theorem fulfilment_gated n t provided now gap d r d' :
  run_fulfill n t provided now gap d = (r, d') ->
  match r with
  | Err _ => d' = d \/ attempts_db d' = attempts_db (gap d)
  | Ok _ => exists wo issued wo' outs, StoreAttempts.attempt_for_task t d = Ok (Some wo, d) /\
      StoreAttempts.get_work_order s wo d = Ok (Some issued, d) /\ Forall2 (provided_as t) provided outs /\
      Gate.gate_outputs (WorkOrder.capabilities (WorkOrder.order issued)) (Results.proposed <$> outs) = Ok () /\
      StoreAttempts.attempt_for_task t (gap d) = Ok (Some wo', gap d) /\ in_state d' wo' Attempt.Succeeded
  end.
Proof.
  unfold run_fulfill. destruct provided as [|o0 l0]; [intros [= <- <-]; by left|]. set (provided := o0 :: l0).
  match goal with |- context [match ?m ?dd with _ => _ end] => assert (HReads m) as Hrd by solve_reads; destruct (m dd) as [[v|p] d1] eqn:Eg end;
    specialize (Hrd d); rewrite Eg in Hrd; cbn in Hrd; subst d1; [|intros [= <- <-]; by left].
  apply hread_Ok in Eg as (a & Ha%call_Ok & Eg); [|apply _]. apply hbind_Ok in Eg as (wo & ? & [-> ->]%require_Ok & Eg).
  apply hread_Ok in Eg as (o & Ho%call_Ok & Eg); [|apply _]. apply hbind_Ok in Eg as (issued & ? & [-> ->]%require_Ok & Eg).
  apply mret_Ok in Eg as [-> _].
  destruct (fulfil_outputs t provided) as [outs|p] eqn:Ef; [|cbn; intros [= <- <-]; by right].
  rewrite (hbind_run _ _ (gap d) outs (gap d)) by done. destruct (Gate.gate_outputs _ _) as [[]|e] eqn:Egt; [|cbn; intros [= <- <-]; by right].
  rewrite (hbind_run _ _ (gap d) tt (gap d)) by done.
  destruct (submit_result s (dr_seal n) (dr_manifest n) (dr_key n) (mkSubmission t outs [] []) now (gap d)) as [[m|p] d1] eqn:Es.
  - rewrite (hbind_run _ _ _ _ _ Es). intros [= <- <-].
    apply submit_succeeds in Es as (wo' & ? & ?). exists wo, issued, wo', outs. split_and!; try done. by apply fulfil_outputs_Ok.
  - rewrite (hbind_stop _ _ _ _ _ Es). intros [= <- <-]. right. by eapply Results.submit_refused.
Qed.
End run.

(** ** Witnesses: the worker of the Task that the results' examples complete *)

Section sample.
#[local] Existing Instances ToyHashes ToyHex ToyAead ToyEd25519 ToyBase64 ToyBase64Url ToyVariants ToyJwkText ToySchemas ToySyntax
  Evidence.ToySlice Daemon.ToyContracts Results.ToyTexts.
#[local] Instance run_canon : Canon Json := ToyCanon Json.
#[local] Instance run_manifests : ToValue ResultManifest := Proposal.ToyToValue ResultManifest.
#[local] Instance run_orders : Canon WorkOrder.WorkOrder := ToyCanon WorkOrder.WorkOrder.
#[local] Instance run_issued : Codec WorkOrder.IssuedWorkOrder := ToyCodec WorkOrder.IssuedWorkOrder.
#[local] Instance run_envelopes : Codec Dsse.Envelope := ToyCodec Dsse.Envelope.
#[local] Instance run_time : Rfc3339 := {| parse_rfc3339 := fun _ => Some 10000%Z |}.
#[local] Instance run_listing : Gate.ManifestText := {| Gate.manifest_text := fun _ => Some [] |}.
#[local] Instance run_texts : RunText := {| inert_text := fun _ => ""; stage_text := fun _ => ""; sandbox_text := fun _ => "" |}.
#[local] Instance run_entries : ArtifactSyntax := fun _ => Err "none".

Definition sample_daemon : DaemonConfig := mkConfig "/var/akson" None (Some "/opt/worker --go").

Definition sample_host : Host :=
  mkHost (Ok ()) ∅ (fun _ => true) (fun _ => true) (fun _ => true) (Ok "9") (Ok ()) (fun _ => Finished (Ok ()))
    (fun path => if decide (path = "/var/akson/run/t1/output/response") then Some (mkFile 5 (Some (as_bytes "hello"))) else None).

Definition sample_draws : Draws := mkDraws (fun _ => StorePeers.sample_nonce) StorePeers.sample_nonce Evidence.sample_result_key.

Definition sample_run : result Problem Json * option Launch * Db :=
  run_worker StorePeers.sample_store sample_daemon sample_draws sample_host "t1" (mkClock 30 31 40 41) (fun d => d) (fun d => d)
    Results.performer_db.

Lemma ran {A L D} (x : result Problem A * option L * D) :
  match x with (Ok _, Some _, _) => true | _ => false end = true -> exists v l d, x = (Ok v, Some l, d).
Proof. destruct x as [[[v|p] [l|]] d]; try done. eauto. Qed.

Lemma sample_run_ok : exists v l d', sample_run = (Ok v, Some l, d').
Proof. apply ran. vm_compute. reflexivity. Qed.

(** The attempts of that store come from issuing the order. *)
Definition sample_order : WorkOrder.IssuedWorkOrder :=
  match Daemon.issue_sample.1 with Ok i => i | Err _ => WorkOrder.mkIssued (WorkOrder.sample_order "" "") "" "" end.

Definition d_claimed : Db := (exec (StoreAttempts.claim_attempt (WorkOrder.order sample_order) 30) empty_db).2.
Definition d_issued : Db := (exec (StoreAttempts.put_work_order StorePeers.sample_store StorePeers.sample_nonce sample_order 30) d_claimed).2.

Lemma exec_steps {A} (st : Store) (m : M A) d :
  (forall a d', m d = Ok (a, d') -> StoreAttempts.attempts_step st d d') -> rtc (StoreAttempts.attempts_step st) d (exec m d).2.
Proof. intros Hm. unfold exec. destruct (m d) as [[a d']|]; [|apply rtc_refl]. cbn. eapply rtc_once, Hm. done. Qed.

Lemma performer_attempts_inv : StoreAttempts.attempts_inv (attempts_db Results.performer_db).
Proof.
  replace (attempts_db Results.performer_db) with (attempts_db d_issued) by (vm_compute; reflexivity).
  apply (StoreAttempts.attempts_steps_inv StorePeers.sample_store empty_db); [|apply StoreAttempts.empty_attempts_inv].
  transitivity d_claimed; unfold d_issued; [unfold d_claimed|]; apply exec_steps; intros.
  - by eapply StoreAttempts.as_claim.
  - by eapply StoreAttempts.as_order.
Qed.

Example worker_runs_once_witness : exists v l d' wo d2, sample_run = (Ok v, Some l, d') /\
  launched_for StorePeers.sample_store sample_daemon sample_host "t1" (mkClock 30 31 40 41) Results.performer_db Results.performer_db d2 wo l.
Proof.
  destruct sample_run_ok as (v & l & d' & E0). pose proof E0 as E. unfold sample_run in E.
  destruct (worker_runs_once StorePeers.sample_store sample_daemon sample_draws sample_host "t1" (mkClock 30 31 40 41) (fun d => d) (fun d => d)
    Results.performer_db (Ok v) (Some l) d' E performer_attempts_inv) as (wo & d2 & Hl & _).
  exists v, l, d', wo, d2. exact (conj E0 Hl).
Defined.

Definition sample_fulfilment : result Problem Json * Db :=
  run_fulfill StorePeers.sample_store sample_draws "t1" [Control.mkFulfill "response" "text/plain" (b64_encode (as_bytes "hello"))] 40
    (fun d => d) Results.performer_db.

Lemma sample_fulfilment_ok : exists v d', sample_fulfilment = (Ok v, d').
Proof. apply Daemon.answered. vm_compute. reflexivity. Qed.

Example fulfilment_gated_witness : exists v d' wo', sample_fulfilment = (Ok v, d') /\ in_state d' wo' Attempt.Succeeded.
Proof.
  destruct sample_fulfilment_ok as (v & d' & E0). pose proof E0 as E. unfold sample_fulfilment in E.
  destruct (fulfilment_gated StorePeers.sample_store sample_draws "t1" [Control.mkFulfill "response" "text/plain" (b64_encode (as_bytes "hello"))] 40
    (fun d => d) Results.performer_db (Ok v) d' E) as (wo & issued & wo' & outs & _ & _ & _ & _ & _ & H).
  exists v, d', wo'. exact (conj E0 H).
Defined.
End sample.
End WorkerRun.
