(* ===== verification/WorkerChannel.v ===== *)
(** A confined worker's whole conversation with the broker: the channel of
    aksond/src/broker_channel.rs with the dispatcher that aksond/src/worker_run.rs gives it,
    which is [run_processor_call] for the run's own work order. *)
From S2P Require Import Prelude Crypto Envelope Json IJson Broker Contract Capability WorkOrder Toy Control Db StoreAttempts StoreCalls Http BrokerCall Channel.

Module WorkerChannel.
Import Json.
Import Http (Sending).

(** What surrounds the [k]-th call of a conversation: the network, the clock, and what other
    threads did to the store since the last call ([m_before]) and do while the lock is free. *)
Record Moment := mkMoment { m_world : BrokerCall.World; m_now : Z; m_before : Db -> Db; m_gap1 : Db -> Db; m_gap2 : Db -> Db }.

(** Calls made, the store, and what was handed to the transport. *)
Definition Talk : Type := nat * Db * list Sending.

Section talk.
Context {HS : Hashes} {HX : Hex} {AE : Aead} {CN : Canon Json} {CP : Codec Broker.ProcessorConfig} {CO : Codec Broker.Origin}
  {CI : Codec WorkOrder.IssuedWorkOrder} {ET : BrokerCall.EgressText} {RS : Channel.RequestSyntax} {CJ : Codec Json}.
Context (s : Store) (work_order_id : string) (moment : nat -> Moment).

(** The closure of [run_worker]. *)
Definition dispatch (processor_id : string) (request : bytes) (st : Talk) : Json * Talk :=
  let '(k, d, sent) := st in
  let m := moment k in
  let '(r, x, d') := BrokerCall.run_processor_call s (m_world m) processor_id work_order_id request (m_now m) (m_gap1 m) (m_gap2 m) (m_before m d) in
  (match r with
   | Ok value => value
   | Err p => IJson.obj [("error", IJson.obj [("status", JInt (Control.status p)); ("title", JStr (Control.title p))])]
   end, (S k, d', sent ++ x)).

(** The state after some calls, in order. *)
Definition run (st : Talk) (calls : list (string * bytes)) : Talk := foldl (fun st c => (dispatch c.1 c.2 st).2) st calls.

(** The call a line asks for. *)
Definition request_of (raw : bytes) : option (string * bytes) :=
  match raw with
  | [] => None
  | _ => (fun req => (Channel.br_processor_id req, as_bytes (Channel.br_request req))) <$> Channel.read_request raw
  end.

(** The first lines of what the worker wrote. *)
Inductive lines_of (cap : nat) : list Channel.ReadByte -> list bytes -> Prop :=
| li_nil input : lines_of cap input []
| li_cons input raw rest ls : Channel.read_capped_line cap [] input = (Channel.Line raw, rest) -> lines_of cap rest ls ->
    lines_of cap input (raw :: ls).

(** The [i]-th request that left in the conversation of [calls] from [start]: it was sent by one of the
    calls, the [n]-th; the calls before it had led to the database [d] and to [i] requests sent; and in
    [d], as it was when the call was made, the run's work order authorised the call. *)
Definition accounted (start : Talk) (calls : list (string * bytes)) (i : nat) (x : Sending) : Prop :=
  exists n processor_id request d sent d' d1 c,
    calls !! n = Some (processor_id, request) /\
    run start (take n calls) = (n, d, sent) /\ length sent = i /\
    run start (take (S n) calls) = (S n, d', sent ++ [x]) /\
    let m := moment n in let d0 := m_before m d in
    BrokerCall.authorised s (m_world m) processor_id work_order_id request (m_now m) d0 (m_gap1 m d0) d1 c x.

Lemma conversation_app st a b : run st (a ++ b) = run (run st a) b.
Proof. apply foldl_app. Qed.

(** A call takes the count one further, and sends at most one request, which was authorised. *)
Lemma dispatch_sends pid request k d sent : exists (d' : Db) (x : list Sending), (dispatch pid request (k, d, sent)).2 = (S k, d', sent ++ x) /\
  (x = [] \/ exists y d1 c, x = [y] /\ let m := moment k in let d0 := m_before m d in
     BrokerCall.authorised s (m_world m) pid work_order_id request (m_now m) d0 (m_gap1 m d0) d1 c y).
Proof.
  unfold dispatch. destruct (BrokerCall.run_processor_call _ _ _ _ _ _ _ _ _) as [[r x] d'] eqn:E. exists d', x. split; [done|].
  destruct x as [|y x]; [by left|right]. destruct (BrokerCall.call_sends _ _ _ _ _ _ _ _ _ _ _ _ y E) as (Hx & d1 & f & Hau & _); [by left|].
  by exists y, d1, (BrokerCall.f_call f).
Qed.

Lemma accounted_app start calls c i x : accounted start calls i x -> accounted start (calls ++ [c]) i x.
Proof.
  intros (n & pid & request & d & sent & d' & d1 & c' & Hn & H1 & H2 & H3 & H4). pose proof Hn as Hlt%lookup_lt_Some.
  exists n, pid, request, d, sent, d', d1, c'. rewrite !take_app_le by lia. split_and!; try done. by apply lookup_app_l_Some.
Qed.

Lemma run_accounted d calls : exists d' sent, run (0, d, []) calls = (length calls, d', sent) /\ length sent <= length calls /\
  forall i x, sent !! i = Some x -> accounted (0, d, []) calls i x.
Proof.
  induction calls as [|[pid request] calls (d1 & sent & E & Hlen & Hall)] using rev_ind; [by exists d, []|].
  destruct (dispatch_sends pid request (length calls) d1 sent) as (d' & y & Ed & Hy). exists d', (sent ++ y).
  assert (run (0, d, []) (calls ++ [(pid, request)]) = (S (length calls), d', sent ++ y)) as Er by (rewrite conversation_app, E; exact Ed).
  rewrite !length_app. cbn [length]. split; [rewrite Er; f_equal; f_equal; lia|].
  split; [destruct Hy as [->|(? & ? & ? & -> & _)]; cbn; lia|].
  intros i x [Hi|[Hi Hx]]%lookup_app_Some; [by apply accounted_app, Hall|].
  destruct Hy as [->|(z & d2 & c & -> & Hau)]; [done|]. apply list_lookup_singleton_Some in Hx as [Hx <-].
  exists (length calls), pid, request, d1, sent, d', d2, c. rewrite take_app_length, E, (take_ge (calls ++ _)) by (rewrite length_app; cbn; lia).
  split_and!; [by apply list_lookup_middle|done|lia|done|exact Hau].
Qed.

(** Serving the channel makes the calls of the lines it reads, in order. *)
Lemma serve_calls cap turns : forall room input st out st', Channel.serve dispatch cap turns room input st = (out, st') ->
  exists ls, lines_of cap input ls /\ length ls <= turns /\ st' = run st (omap request_of ls).
Proof.
  induction turns as [|turns IH]; intros room input st out st'; cbn [Channel.serve];
    [intros [= <- <-]; exists []; by split_and!; [constructor|..]|].
  destruct (Channel.read_capped_line cap [] input) as [[raw| | |] rest] eqn:E;
    [|intros [= <- <-]; exists []; split_and!; [constructor|cbn; lia|done]..].
  assert ((exists ls, lines_of cap rest ls /\ length ls <= turns /\ st' = run st (omap request_of (raw :: ls))) ->
    exists ls, lines_of cap input ls /\ length ls <= S turns /\ st' = run st (omap request_of ls)) as Hcons.
  { intros (ls & Hl & Hn & Hst). exists (raw :: ls). split_and!; [by econstructor|cbn; lia|done]. }
  destruct raw as [|b raw]; [intros H%IH; by apply Hcons|].
  assert (forall ls, run st (omap request_of ((b :: raw) :: ls)) = run (Channel.respond dispatch (b :: raw) st).2 (omap request_of ls)) as Hrun.
  { intros ls. cbn [omap list_omap request_of]. unfold Channel.respond. by destruct (Channel.read_request (b :: raw)). }
  destruct (Channel.respond dispatch (b :: raw) st) as [response st1]. cbn [snd] in Hrun. destruct room as [|room].
  - intros [= <- <-]. apply Hcons. exists []. rewrite Hrun. split_and!; [constructor|cbn; lia|done].
  - destruct (Channel.serve dispatch cap turns room rest st1) as [out1 st2] eqn:Es. intros [= <- <-].
    apply IH in Es as (ls & Hl & Hn & ->). apply Hcons. exists ls. by rewrite Hrun.
Qed.

Lemma requests_length ls : length (omap request_of ls) <= length ls.
Proof. induction ls as [|l ls IH]; [done|]. cbn [omap list_omap length]. destruct (request_of l); cbn [length]; lia. Qed.

(** C19. A worker's conversation stays within its work order. Whatever a worker writes on its
    channel, and whatever other threads do to the store between and during its calls: the daemon
    makes the calls of the first lines the worker wrote, at most [MAX_REQUESTS], in their order, and
    nothing else leaves than what these send. Each request that left was sent by one of them, and in
    the database the calls before it had led to, as it was then, the run's own work order authorised
    it: this processor granted, the attempt active, and, when the call's first phase ran, the
    configured origin, pin, path and headers and that processor's own credential, within the order's
    limits, and recorded as dispatching before it went. *)
Theorem conversation_confined cloned room input d out k d' sent :
  Channel.serve_broker_channel dispatch cloned room input (0, d, []) = (out, (k, d', sent)) ->
  exists ls, lines_of Channel.MAX_REQUEST_BYTES input ls /\ length ls <= Channel.MAX_REQUESTS /\
    let calls := omap request_of ls in
    run (0, d, []) calls = (k, d', sent) /\ k = length calls /\ length sent <= k <= Channel.MAX_REQUESTS /\
    forall i x, sent !! i = Some x -> accounted (0, d, []) calls i x.
Proof.
  intros H. assert (exists ls, lines_of Channel.MAX_REQUEST_BYTES input ls /\ length ls <= Channel.MAX_REQUESTS /\
    (k, d', sent) = run (0, d, []) (omap request_of ls)) as (ls & Hl & Hn & Hr).
  { unfold Channel.serve_broker_channel in H. destruct cloned; [by eapply serve_calls|].
    injection H as <- <- <- <-. exists []. split_and!; [constructor|cbn; lia|done]. }
  exists ls. split; [done|]. split; [done|]. cbn zeta. pose proof (requests_length ls).
  destruct (run_accounted d (omap request_of ls)) as (d1 & sent1 & E & Hlen & Hall). rewrite E in Hr. injection Hr as -> -> ->.
  split_and!; [done|done|done|lia|exact Hall].
Qed.
End talk.

(** ** Witness *)

Section sample.
#[local] Existing Instances ToyHashes ToyHex ToyAead.
#[local] Instance talk_origin : Codec Broker.Origin := ToyCodec Broker.Origin.
#[local] Instance talk_config : Codec Broker.ProcessorConfig := ToyCodec Broker.ProcessorConfig.
#[local] Instance talk_issued : Codec WorkOrder.IssuedWorkOrder := ToyCodec WorkOrder.IssuedWorkOrder.
#[local] Instance talk_canon : Canon Json := {| to_canon := Broker.toy_key_canon |}.
#[local] Instance talk_text : BrokerCall.EgressText := fun _ => "refused".
#[local] Instance talk_json : Codec Json := ToyCodec Json.
#[local] Instance talk_syntax : Channel.RequestSyntax := fun b => Some (Channel.mkBrokerRequest "reviewer" (from_utf8 b)).

Definition sample_moment (_ : nat) : Moment := mkMoment BrokerCall.sample_world 9 (fun d => d) (fun d => d) (fun d => d).

(** The worker asks twice for the same and once for something else. *)
#[local] Notation sample_talk :=
  (Channel.serve_broker_channel (dispatch StoreCalls.sample_store "w1" sample_moment) true 9
    (Channel.feed_lines [as_bytes "a"; as_bytes "a"; as_bytes "b"]) (0, BrokerCall.d_ready, [])).

Lemma talked (x : list bytes * Talk) n : length x.2.2 = n -> exists out k d' sent, x = (out, (k, d', sent)) /\ length sent = n.
Proof. destruct x as [out [[k d'] sent]]. intros H. by exists out, k, d', sent. Qed.

Lemma sample_talk_sent : exists out k d' sent, sample_talk = (out, (k, d', sent)) /\ length sent = 2.
Proof. apply talked. vm_compute. reflexivity. Qed.

Example conversation_confined_witness : exists out k d' sent calls x, sample_talk = (out, (k, d', sent)) /\
  length sent = 2 /\ sent !! 1 = Some x /\
  accounted StoreCalls.sample_store "w1" sample_moment (0, BrokerCall.d_ready, []) calls 1 x.
Proof.
  destruct sample_talk_sent as (out & k & d' & sent & E & Hs). destruct sent as [|y [|x [|z sent]]]; try discriminate Hs.
  destruct (conversation_confined StoreCalls.sample_store "w1" sample_moment true 9
    (Channel.feed_lines [as_bytes "a"; as_bytes "a"; as_bytes "b"]) BrokerCall.d_ready out k d' [y; x] E) as (ls & _ & _ & _ & _ & _ & Hall).
  exists out, k, d', [y; x], (omap request_of ls), x. split; [exact E|]. split; [exact Hs|]. split; [reflexivity|].
  exact (Hall 1 x eq_refl).
Defined.
End sample.
End WorkerChannel.
