(* ===== verification/A2aClient.v ===== *)
(** The POST of one daemon to another (aksond/src/a2a_client.rs): the endpoint, the stages of
    the connection with their time limits, the bytes of the request and the reading of the
    answer.

    The URL parser is a parameter. A network is what each stage does and how long it takes; a
    step of the client gives its result, the bytes it wrote and the seconds it took. *)
From S2P Require Import Prelude Text Crypto Json IJson Inert Chars Http Dsse Delivery Toy Control CoordEgress Server.

Module A2aClient.
Import Control (Problem, problem, mkProblem).
Import Http (Stage, Passed, Broke, TimedOut, Read, Data, Closed, one_line, join_lines, SEP).

Definition MAX_RESPONSE_BODY : Z := 64 * 1024.
Definition RESOLVE_TIMEOUT : Z := 5.
Definition CONNECT_TIMEOUT : Z := 10.
Definition HANDSHAKE_TIMEOUT : Z := 10.
Definition EXCHANGE_TIMEOUT : Z := 30.
Definition MAX_POST_A2A_DURATION : Z := RESOLVE_TIMEOUT + CONNECT_TIMEOUT + HANDSHAKE_TIMEOUT + EXCHANGE_TIMEOUT.

(** ** Endpoints *)

(** [url::Url]: what is read of it. A parsed path is percent-encoded and holds no line end. *)
Record Url := mkUrl { u_scheme : string; u_host : option string; u_port_or_default : option Z; u_path : string }.

Class UrlParser := {
  url_parse : string -> option Url;
  url_path_line : forall s u, url_parse s = Some u -> one_line (u_path u);
}.

Definition parse_endpoint {UP : UrlParser} (endpoint : string) : option (string * Z * string) :=
  url ← url_parse endpoint;
  if decide (u_scheme url <> "https") then None else
  host ← u_host url;
  Some (host, default 443%Z (u_port_or_default url), if decide (u_path url = "") then "/" else u_path url).

(** The endpoints of the coordination surface are these. *)
#[global] Instance Endpoints_of {UP : UrlParser} : CoordEgress.Endpoints := {| CoordEgress.parse_endpoint := parse_endpoint |}.

(** ** Timed steps *)

Definition T (A : Type) : Type := result Problem A * bytes * Z.

#[global] Instance T_ret : MRet T := fun A a => (Ok a, [], 0%Z).

#[global] Instance T_bind : MBind T := fun A B f m =>
  match m with
  | (Ok a, w, t) => let '(r, w', t') := f a in (r, w ++ w', (t + t')%Z)
  | (Err p, w, t) => (Err p, w, t)
  end.

Definition lift {A} (r : result Problem A) : T A := (r, [], 0%Z).
Definition guard (ok : bool) (p : Problem) : T () := lift (if ok then Ok () else Err p).

(** What a future comes to, and after how many seconds. *)
Inductive Work (A : Type) := Takes (secs : Z) (a : A) | Stalls.
Arguments Takes {A} secs a.
Arguments Stalls {A}.

Definition timeout (stage : string) (limit : Z) : Problem :=
  mkProblem "urn:akson:error:peer-timeout" "the peer did not answer within the bound" 504
    (Some (stage +:+ " exceeded " +:+ to_string (Z.to_N limit) +:+ "s")).

(** [bounded]; what was written is written also when the time runs out. *)
Definition bounded {A} (stage : string) (limit : Z) (w : bytes) (work : Work A) : T A :=
  match work with
  | Takes t a => if (t <=? limit)%Z then (Ok a, w, t) else (Err (timeout stage limit), w, limit)
  | Stalls => (Err (timeout stage limit), w, limit)
  end.

(** ** The network *)

(** The TLS configuration for a pin, name resolution (an error, or addresses), the connection to
    an address, whether the host is a server name, the handshake, how much of the request the
    stream takes ([None]: all), the reads and the time of the exchange. *)
Record Network := mkNetwork {
  pe_config : string -> bool;
  pe_resolve : string -> Z -> Work (option (list string));
  pe_connect : string -> Work bool;
  pe_name : string -> bool;
  pe_handshake : Work bool;
  pe_write : option (nat * Stage);
  pe_reads : list Read;
  pe_time : Z;
}.

Section client.
Context {HS : Hashes} {B64 : Base64} {UP : UrlParser}.

(** The head of the request. *)
Definition request_head (path : string) (body : bytes) : string :=
  "POST " +:+ path +:+ " HTTP/1.1" +:+ Http.crlf +:+ "Host: akson" +:+ Http.crlf +:+
  "Content-Type: application/a2a+json" +:+ Http.crlf +:+ "a2a-version: 1.0" +:+ Http.crlf +:+
  "content-digest: " +:+ Delivery.content_digest body +:+ Http.crlf +:+
  "a2a-extensions: " +:+ Server.join ", " Dsse.required_extension_uris +:+ Http.crlf +:+
  "Content-Length: " +:+ to_string (N.of_nat (length body)) +:+ Http.crlf +:+ "Connection: close" +:+ Http.crlf +:+ Http.crlf.

Definition request (path : string) (body : bytes) : bytes := as_bytes (request_head path body) ++ body.

Definition problem_detail (status : Z) (kind title detail : string) : Problem :=
  mkProblem ("urn:akson:error:" +:+ kind) title status (Some detail).

(** Writing the request and reading the answer. *)
Definition exchange (n : Network) (all : bytes) : T bytes :=
  let '(outcome, written) :=
    match pe_write n with
    | Some (k, Broke e) => (Some (Err e), take k all)
    | Some (k, _) => (None, take k all)
    | None => (Http.read_until MAX_RESPONSE_BODY [] (pe_reads n), all)
    end in
  r ← bounded "the request/response exchange" EXCHANGE_TIMEOUT written
        (match outcome with Some r => Takes (pe_time n) r | None => Stalls end);
  lift (match r with Ok raw => Ok raw | Err e => Err (problem_detail 502 "peer-io" "the request to the peer failed" e) end).

Definition unreachable (title : string) : Problem := problem 502 "unreachable" title.

(** Up to the handshake. *)
Definition connect (n : Network) (host : string) (port : Z) (pinned : string) : T () :=
  _ ← guard (pe_config n pinned) (problem 500 "tls" "the client TLS config could not be built");
  found ← bounded "name resolution" RESOLVE_TIMEOUT [] (pe_resolve n host port);
  addrs ← lift (ok_or found (unreachable "the peer endpoint could not be resolved"));
  addr ← lift (ok_or (head addrs) (unreachable "the peer endpoint did not resolve"));
  connected ← bounded "the TCP connect" CONNECT_TIMEOUT [] (pe_connect n addr);
  _ ← guard connected (unreachable "the peer endpoint refused the connection");
  _ ← guard (pe_name n host) (problem 500 "bad-endpoint" "bad host name");
  shaken ← bounded "the TLS handshake" HANDSHAKE_TIMEOUT [] (pe_handshake n);
  guard shaken (problem 502 "tls-handshake" "the peer TLS handshake failed").

Definition post_a2a (n : Network) (endpoint pinned : string) (body : bytes) : T (Z * bytes) :=
  e ← lift (ok_or (parse_endpoint endpoint) (problem 500 "bad-endpoint" "the peer endpoint is not a usable https URL"));
  let '(host, port, path) := e in
  _ ← connect n host port pinned;
  raw ← exchange n (request path body);
  lift (ok_or (Http.split_response_plain raw) (problem 502 "peer-io" "the peer sent no HTTP response")).

(** ** What a POST sends, takes in, and how long it takes *)

Definition work_ok {A} (w : Work A) : Prop := match w with Takes t _ => (0 <= t)%Z | Stalls => True end.

(** Time does not run backwards, and a read fills at most its buffer. *)
Record sane (n : Network) : Prop := {
  sn_resolve : forall h p, work_ok (pe_resolve n h p);
  sn_connect : forall a, work_ok (pe_connect n a);
  sn_handshake : work_ok (pe_handshake n);
  sn_time : (0 <= pe_time n)%Z;
  sn_reads : Forall Http.well_read (pe_reads n);
}.

(** A step that takes at most [k] seconds and writes nothing. *)
Definition quiet {A} (k : Z) (m : T A) : Prop := m.1.2 = [] /\ (0 <= m.2 <= k)%Z.

Lemma quiet_lift {A} (r : result Problem A) : quiet 0 (lift r).
Proof. split; cbn; [done|lia]. Qed.

Lemma quiet_bounded {A} stage limit (w : Work A) : (0 <= limit)%Z -> work_ok w -> quiet limit (bounded stage limit [] w).
Proof. intros H0 Hw. unfold bounded. destruct w as [t a|]; [destruct (Z.leb_spec t limit)|]; split; cbn in *; (done || lia). Qed.

Lemma quiet_bind {A B} j k (m : T A) (f : A -> T B) : (0 <= k)%Z -> quiet j m -> (forall a, quiet k (f a)) -> quiet (j + k) (m ≫= f).
Proof.
  intros Hk [Hw Ht] Hf. destruct m as [[[a|p] w] t]; cbn in Hw, Ht; subst; [|split; cbn; [done|lia]].
  destruct (Hf a) as [Hw' Ht']. unfold mbind, T_bind. destruct (f a) as [[r w'] t']. cbn in *. subst. split; cbn; [done|lia].
Qed.

Lemma connect_quiet n host port pinned : sane n ->
  quiet (RESOLVE_TIMEOUT + CONNECT_TIMEOUT + HANDSHAKE_TIMEOUT) (connect n host port pinned).
Proof.
  intros [Hr Hc Hh _ _]. unfold connect, guard.
  apply (quiet_bind 0 25); [lia|apply quiet_lift|intros _].
  apply (quiet_bind 5 20); [lia|by apply quiet_bounded|intros found].
  apply (quiet_bind 0 20); [lia|apply quiet_lift|intros addrs].
  apply (quiet_bind 0 20); [lia|apply quiet_lift|intros addr].
  apply (quiet_bind 10 10); [lia|by apply quiet_bounded|intros connected].
  apply (quiet_bind 0 10); [lia|apply quiet_lift|intros _].
  apply (quiet_bind 0 10); [lia|apply quiet_lift|intros _].
  apply (quiet_bind 10 0); [lia|by apply quiet_bounded|intros shaken]. apply quiet_lift.
Qed.

Lemma exchange_outcome n all r w t : sane n -> exchange n all = (r, w, t) ->
  (0 <= t <= EXCHANGE_TIMEOUT)%Z /\ w `prefix_of` all /\
  match r with
  | Ok raw => w = all /\ (Z.of_nat (length raw) < MAX_RESPONSE_BODY + Z.of_nat Http.CHUNK)%Z
  | Err p => Control.status p = 502%Z \/ Control.status p = 504%Z
  end.
Proof.
  intros Hn. pose proof (sn_time n Hn) as Ht. pose proof (sn_reads n Hn) as Hr. unfold exchange.
  assert (forall raw, Http.read_until MAX_RESPONSE_BODY [] (pe_reads n) = Some (Ok raw) ->
    (Z.of_nat (length raw) < MAX_RESPONSE_BODY + Z.of_nat Http.CHUNK)%Z) as Hraw.
  { intros raw H. by eapply Http.read_until_bound in H. }
  destruct (pe_write n) as [[k [|e|]]|]; unfold bounded, mbind, T_bind.
  1-3: try destruct (Z.leb_spec (pe_time n) EXCHANGE_TIMEOUT); cbn; intros [= <- <- <-]; rewrite ?app_nil_r;
    (split; [unfold EXCHANGE_TIMEOUT in *; lia|]); (split; [apply prefix_take|]); cbn; auto.
  destruct (Http.read_until _ _ _) as [x|] eqn:E; [|cbn; intros [= <- <- <-]; split; [unfold EXCHANGE_TIMEOUT; lia|]; cbn; auto].
  destruct (Z.leb_spec (pe_time n) EXCHANGE_TIMEOUT); cbn; [|intros [= <- <- <-]; split; [unfold EXCHANGE_TIMEOUT; lia|]; cbn; auto].
  rewrite app_nil_r. intros [= <- <- <-]. split; [unfold EXCHANGE_TIMEOUT in *; lia|]. split; [done|].
  destruct x as [raw|e]; [|cbn; auto]. split; [done|by apply Hraw].
Qed.

(** A step that fails only with a status of the client: a fault of its own, of the peer, or of
    time. *)
Definition client_status (p : Problem) : Prop := Control.status p ∈ [500%Z; 502%Z; 504%Z].
Definition fails_well {A} (m : T A) : Prop := match m.1.1 with Err p => client_status p | Ok _ => True end.

Lemma fails_lift {A} (r : result Problem A) : match r with Err p => client_status p | Ok _ => True end -> fails_well (lift r).
Proof. done. Qed.

Lemma fails_guard ok p : client_status p -> fails_well (guard ok p).
Proof. by destruct ok. Qed.

Lemma fails_option {A} (o : option A) p : client_status p -> fails_well (lift (ok_or o p)).
Proof. by destruct o. Qed.

Lemma fails_bounded {A} stage limit w (k : Work A) : fails_well (bounded stage limit w k).
Proof. assert (client_status (timeout stage limit)) by (cbv; set_solver). unfold bounded. by destruct k; [case_match|]. Qed.

Lemma fails_bind {A B} (m : T A) (f : A -> T B) : fails_well m -> (forall a, fails_well (f a)) -> fails_well (m ≫= f).
Proof.
  intros Hm Hf. destruct m as [[[a|p] w] t]; [|done]. specialize (Hf a). unfold mbind, T_bind. by destruct (f a) as [[[b|q] w'] t'].
Qed.

Lemma connect_errors n host port pinned : fails_well (connect n host port pinned).
Proof.
  assert (forall kind title, client_status (problem 500 kind title)) as H500 by (intros; cbv; set_solver).
  assert (forall kind title, client_status (problem 502 kind title)) as H502 by (intros; cbv; set_solver).
  unfold connect, unreachable. repeat (apply fails_bind; [|intros ?]); auto using fails_bounded, fails_guard, fails_option.
Qed.

Definition request_lines (path : string) (body : bytes) : list bytes :=
  as_bytes <$> ["POST " +:+ path +:+ " HTTP/1.1"; "Host: akson"; "Content-Type: application/a2a+json"; "a2a-version: 1.0";
    "content-digest: " +:+ Delivery.content_digest body; "a2a-extensions: " +:+ Server.join ", " Dsse.required_extension_uris;
    "Content-Length: " +:+ to_string (N.of_nat (length body)); "Connection: close"].

Lemma request_lines_bytes path body : request path body = join_lines (request_lines path body) ++ SEP ++ body.
Proof.
  assert (as_bytes (request_head path body) = Http.ended (request_lines path body) ++ Http.CRLF) as E.
  { unfold request_head, request_lines. cbn [fmap list_fmap Http.ended]. rewrite !as_bytes_app. unfold Http.crlf. rewrite !as_bytes_from_utf8.
    rewrite !app_nil_r, <- !app_assoc. reflexivity. }
  unfold request. rewrite E, Http.ended_joined by done. unfold SEP. by rewrite <- !app_assoc.
Qed.

Lemma request_lines_good path body : one_line path -> one_line (Delivery.content_digest body) -> Forall Http.line_ok (request_lines path body).
Proof.
  intros Hp Hd. pose proof Http.one_line_literal as Hlit. unfold request_lines. cbn [fmap list_fmap].
  repeat apply Forall_cons_2; try apply Forall_nil_2; apply Http.one_line_ok; try (by intros H); rewrite ?Http.one_line_app; split_and?;
    try done; try apply Http.one_line_digits; apply Hlit; vm_compute; reflexivity.
Qed.

Lemma endpoint_path endpoint host port path : parse_endpoint endpoint = Some (host, port, path) -> one_line path.
Proof.
  unfold parse_endpoint. destruct (url_parse endpoint) as [u|] eqn:E; [|done]. cbn [mbind option_bind]. case_decide; [done|].
  destruct (u_host u); [|done]. cbn [mbind option_bind]. intros [= _ _ <-]. apply url_path_line in E. case_decide; [|done].
  apply Http.one_line_literal. reflexivity.
Qed.
(** A peer that is reached and answers in time: the addresses found, the seconds of the stages,
    and the pieces of the answer. *)
Record answers (n : Network) (host : string) (port : Z) (pinned : string) (secs : Z) (reply : bytes) : Prop := {
  an_config : pe_config n pinned = true;
  an_stages : exists tr addr more tc th, pe_resolve n host port = Takes tr (Some (addr :: more)) /\
    pe_connect n addr = Takes tc true /\ pe_handshake n = Takes th true /\
    (tr <= RESOLVE_TIMEOUT)%Z /\ (tc <= CONNECT_TIMEOUT)%Z /\ (th <= HANDSHAKE_TIMEOUT)%Z /\ secs = (tr + tc + th)%Z;
  an_name : pe_name n host = true;
  an_time : (pe_time n <= EXCHANGE_TIMEOUT)%Z;
  an_write : pe_write n = None;
  an_reads : exists ds, pe_reads n = (Data <$> ds) ++ [Closed] /\ concat ds = reply;
}.

Lemma bounded_in_time {A} stage limit w t (a : A) : (t <= limit)%Z -> bounded stage limit w (Takes t a) = (Ok a, w, t).
Proof. intros H. unfold bounded. by destruct (Z.leb_spec t limit); [|lia]. Qed.

Lemma connect_reached n host port pinned secs reply : answers n host port pinned secs reply -> connect n host port pinned = (Ok (), [], secs).
Proof.
  intros [Hc (tr & addr & more & tc & th & Er & Ec & Eh & H1 & H2 & H3 & ->) Hn _ _ _]. unfold connect.
  rewrite Hc, Hn, Er, (bounded_in_time _ _ _ tr) by done. unfold guard, lift, mbind, T_bind. cbn [ok_or head].
  rewrite Ec, (bounded_in_time _ _ _ tc), Eh, (bounded_in_time _ _ _ th) by done. cbn -[Z.add]. f_equal. lia.
Qed.

Lemma exchange_answered n host port pinned secs reply all : answers n host port pinned secs reply ->
  (Z.of_nat (length reply) < MAX_RESPONSE_BODY)%Z -> exchange n all = (Ok reply, all, pe_time n).
Proof.
  intros [_ _ _ Ht Hw (ds & Hr & <-)] Hlen. unfold exchange. rewrite Hw, Hr, Http.read_until_all by exact Hlen.
  rewrite bounded_in_time by done. cbn. by rewrite app_nil_r, Z.add_0_r.
Qed.

Lemma split_plain_length raw status body : Http.split_response_plain raw = Some (status, body) -> length body <= length raw.
Proof.
  unfold Http.split_response_plain. destruct (Http.position SEP raw) as [sep|]; [|done]. cbn [mbind option_bind].
  destruct (Inert.valid_utf8 _); [|done]. cbn [negb]. destruct (Http.status_of _); [|done]. cbn [mbind option_bind].
  intros [= _ <-]. rewrite length_drop. lia.
Qed.

Lemma T_bind_run {A B} r w t (f : A -> T B) : mbind f (r, w, t) =
  match r with Ok a => let '(r', w', t') := f a in (r', w ++ w', (t + t')%Z) | Err p => (Err p, w, t) end.
Proof. by destruct r. Qed.

Lemma T_bind_lift {A B} a (f : A -> T B) : mbind f (lift (Ok a)) = f a.
Proof. unfold lift. rewrite T_bind_run. by destruct (f a) as [[r w] t]. Qed.

Lemma post_steps n endpoint host port path pinned body r w t : parse_endpoint endpoint = Some (host, port, path) ->
  post_a2a n endpoint pinned body = (r, w, t) -> sane n ->
  (exists p, connect n host port pinned = (Err p, [], t) /\ w = [] /\ r = Err p) \/
  exists t1 t2 x, connect n host port pinned = (Ok (), [], t1) /\ exchange n (request path body) = (x, w, t2) /\ t = (t1 + t2)%Z /\
    r = match x with
        | Ok raw => ok_or (Http.split_response_plain raw) (problem 502 "peer-io" "the peer sent no HTTP response")
        | Err p => Err p
        end.
Proof.
  intros E H Hn. unfold post_a2a in H. rewrite E in H. cbn [ok_or] in H. rewrite T_bind_lift in H.
  pose proof (connect_quiet n host port pinned Hn) as [Hw _].
  destruct (connect n host port pinned) as [[[[]|p] w1] t1]; cbn [fst snd] in Hw; subst w1; rewrite T_bind_run in H;
    [|injection H as <- <- <-; left; by exists p].
  right. destruct (exchange n (request path body)) as [[[raw|p] w2] t2]; rewrite T_bind_run in H; unfold lift in H;
    cbn [app] in H; rewrite ?app_nil_r in H; injection H as <- <- <-.
  - exists t1, t2, (Ok raw). split_and!; [done|done|lia|done].
  - exists t1, t2, (Err p). by split_and!.
Qed.

Lemma post_limits n endpoint host port path pinned body r w t : parse_endpoint endpoint = Some (host, port, path) ->
  post_a2a n endpoint pinned body = (r, w, t) -> sane n ->
  (0 <= t <= MAX_POST_A2A_DURATION)%Z /\ w `prefix_of` request path body /\
  match r with
  | Ok (_, answer) => w = request path body /\ (Z.of_nat (length answer) < MAX_RESPONSE_BODY + Z.of_nat Http.CHUNK)%Z
  | Err p => client_status p
  end.
Proof.
  intros E H Hn. pose proof (connect_quiet n host port pinned Hn) as [_ Hq]. pose proof (connect_errors n host port pinned) as Hf.
  assert (MAX_POST_A2A_DURATION = RESOLVE_TIMEOUT + CONNECT_TIMEOUT + HANDSHAKE_TIMEOUT + EXCHANGE_TIMEOUT)%Z as EM by done.
  destruct (post_steps n endpoint host port path pinned body r w t E H Hn) as [(p & Ec & -> & ->)|(t1 & t2 & x & Ec & Ex & -> & ->)];
    rewrite Ec in Hq, Hf; cbn [snd fst] in Hq.
  - split; [unfold EXCHANGE_TIMEOUT in EM; lia|]. split; [apply prefix_nil|exact Hf].
  - apply exchange_outcome in Ex as (Ht & Hp & Hx); [|done]. split; [lia|]. split; [done|]. destruct x as [raw|p].
    + destruct Hx as [Hw Hl]. destruct (Http.split_response_plain raw) as [[status answer]|] eqn:Es; cbn [ok_or]; [|cbv; set_solver].
      apply split_plain_length in Es. split; [done|lia].
    + unfold client_status. destruct Hx as [-> | ->]; set_solver.
Qed.

Lemma post_answered n endpoint host port path pinned body r w t secs status reason headers answer :
  parse_endpoint endpoint = Some (host, port, path) -> post_a2a n endpoint pinned body = (r, w, t) -> sane n ->
  answers n host port pinned secs (Http.reply_text status reason headers answer) ->
  (Z.of_nat (length (Http.reply_text status reason headers answer)) < MAX_RESPONSE_BODY)%Z ->
  Http.field reason -> Forall Http.header_ok headers -> (Z.of_N status < 2 ^ 16)%Z ->
  r = Ok (Z.of_N status, answer) /\ t = (secs + pe_time n)%Z.
Proof.
  intros E H Hn Ha Hlen Hr Hh Hs. pose proof (connect_reached _ _ _ _ _ _ Ha) as Ec'.
  destruct (post_steps n endpoint host port path pinned body r w t E H Hn) as [(p & Ec & _)|(t1 & t2 & x & Ec & Ex & -> & ->)];
    rewrite Ec' in Ec; [done|]. injection Ec as <-. rewrite (exchange_answered _ _ _ _ _ _ _ Ha Hlen) in Ex. injection Ex as <- <- <-.
  destruct (Http.split_reply status reason headers answer Hr Hh Hs) as [_ ->]. done.
Qed.

(** C23. A POST to a peer ends, within the sum of the limits of its stages, whatever the peer does.
    What was written is a prefix of the one request for the endpoint, nothing at all if it is no
    usable endpoint: a head whose first blank line is its end, then exactly the content. An
    answer is taken only after all of it was written, and what is kept of the answer is bounded;
    a failure is an error of the client's own, of the peer, or of time. And a peer that is
    reached, takes the request and answers within the limits has its status and body returned. *)
Theorem post_ends n endpoint pinned body r w t :
  post_a2a n endpoint pinned body = (r, w, t) -> sane n -> one_line (Delivery.content_digest body) ->
  (0 <= t <= MAX_POST_A2A_DURATION)%Z /\
  match parse_endpoint endpoint with
  | None => w = [] /\ exists p, r = Err p /\ client_status p
  | Some (host, port, path) =>
      w `prefix_of` request path body /\
      Http.position SEP (request path body) = Some (length (join_lines (request_lines path body))) /\
      drop (length (join_lines (request_lines path body)) + 4) (request path body) = body /\
      match r with
      | Ok (_, answer) => w = request path body /\ (Z.of_nat (length answer) < MAX_RESPONSE_BODY + Z.of_nat Http.CHUNK)%Z
      | Err p => client_status p
      end /\
      forall secs status reason headers answer,
        answers n host port pinned secs (Http.reply_text status reason headers answer) ->
        (Z.of_nat (length (Http.reply_text status reason headers answer)) < MAX_RESPONSE_BODY)%Z ->
        Http.field reason -> Forall Http.header_ok headers -> (Z.of_N status < 2 ^ 16)%Z ->
        r = Ok (Z.of_N status, answer) /\ t = (secs + pe_time n)%Z
  end.
Proof.
  intros H Hn Hd. destruct (parse_endpoint endpoint) as [[[host port] path]|] eqn:E.
  2: { unfold post_a2a in H. rewrite E in H. cbn in H. injection H as <- <- <-. split; [cbv; split; discriminate|].
    split; [done|]. eexists. split; [done|]. cbv. set_solver. }
  pose proof (request_lines_good path body (endpoint_path _ _ _ _ E) Hd) as Hls.
  pose proof (request_lines_bytes path body) as Eb.
  destruct (post_limits _ _ _ _ _ _ _ _ _ _ E H Hn) as (Ht & Hp & Hr). split_and!; [lia|lia|done| | |done|].
  - rewrite Eb. by apply Http.position_sep.
  - rewrite Eb. by rewrite drop_app_add, drop_app_length'.
  - intros secs status reason headers answer. by apply (post_answered n endpoint host port path pinned body r w t).
Qed.
End client.

(** ** Witnesses *)
#[local] Existing Instances ToyHashes ToyBase64.

(** One address. *)
Definition sample_urls (s : string) : option Url :=
  if decide (s = "https://peer.example/a2a") then Some (mkUrl "https" (Some "peer.example") None "/a2a") else None.

Lemma sample_urls_line s u : sample_urls s = Some u -> one_line (u_path u).
Proof. unfold sample_urls. case_decide; [|done]. intros [= <-]. apply Http.one_line_literal. vm_compute. reflexivity. Qed.

#[local] Instance SampleUrls : UrlParser := {| url_parse := sample_urls; url_path_line := sample_urls_line |}.

Definition sample_answer : bytes := Http.reply_text 200 (as_bytes "OK") [] (as_bytes "{}").

Definition sample_peer : Network :=
  mkNetwork (fun _ => true) (fun _ _ => Takes 1 (Some ["192.0.2.1:443"])) (fun _ => Takes 2 true) (fun _ => true) (Takes 3 true) None
    [Data (take 9 sample_answer); Data (drop 9 sample_answer); Closed] 30.

Lemma sample_peer_sane : sane sample_peer.
Proof. split; cbn; try lia. repeat constructor; vm_compute; lia. Qed.

Lemma sample_peer_answers : answers sample_peer "peer.example" 443 "pin" 6 sample_answer.
Proof.
  split; try done; [|by exists [take 9 sample_answer; drop 9 sample_answer]].
  exists 1%Z, "192.0.2.1:443", [], 2%Z, 3%Z. by split_and!.
Qed.

Example post_ends_witness : exists r w t, post_a2a sample_peer "https://peer.example/a2a" "pin" (as_bytes "{}") = (r, w, t) /\
  r = Ok (200%Z, as_bytes "{}") /\ t = 36%Z.
Proof.
  destruct (post_a2a sample_peer "https://peer.example/a2a" "pin" (as_bytes "{}")) as [[r w] t] eqn:E. exists r, w, t. split; [done|].
  apply (post_ends sample_peer "https://peer.example/a2a" "pin" (as_bytes "{}") r w t E) with
    (secs := 6%Z) (status := 200%N) (reason := as_bytes "OK") (headers := []) (answer := as_bytes "{}").
  - exact sample_peer_sane.
  - apply Http.one_line_literal. vm_compute. reflexivity.
  - exact sample_peer_answers.
  - vm_compute. reflexivity.
  - repeat constructor; vm_compute; discriminate.
  - constructor.
  - reflexivity.
Defined.

(** A peer that takes the connection and says nothing more is given up after the handshake's
    limit, with nothing written. *)
Lemma silent_peer : post_a2a (mkNetwork (fun _ => true) (fun _ _ => Takes 1 (Some ["192.0.2.1:443"])) (fun _ => Takes 2 true)
    (fun _ => true) Stalls None [] 0) "https://peer.example/a2a" "pin" (as_bytes "{}") =
  (Err (timeout "the TLS handshake" HANDSHAKE_TIMEOUT), [], 13%Z).
Proof. vm_compute. reflexivity. Qed.
End A2aClient.
