(* ===== verification/Send.v ===== *)
(** Sending a Task as requester (aksond/src/send.rs): [prepare_send] drafts and signs the
    contract under the store's lock, [send_prepared] posts it and reads the performer's Task,
    and [run_send] records the outstanding request.

    The lock is free while the message is out, so what others do then is an argument, and so
    is what the performer answers. Random bytes and the clock are arguments; the generated
    protobuf types and serde's derived readers are parameters. The last part runs a requester
    against a performer's receive path. *)
From S2P Require Import Prelude Text Crypto Sign Envelope AuditLog Lifecycle Keys Json IJson Dsse Contract Proposal Profile.
From S2P Require Import Introduction Evidence Inert Chars Toy Delivery Broker WorkOrder Control Db Handler Readers StoreMeta StorePeers.
From S2P Require Import Introduce StoreInbox StoreContracts StoreAttempts StoreRequester StoreCalls StoreCoord StoreReach.
From S2P Require Import CoordEgress Coord Daemon Results Receive Server Http.

Module Send.
Import Json.
Import Handler.
Import Contract.
Import Control (Problem, problem).
Import Results (problem_detail).
Import Broker (IpAddr).
Import Proposal (FromValue, ToValue, from_value, to_value, Part, mkMsgPart, CText, CData, Rfc3339, ContractError, parse_payload, hex_digest).

(** ** The Task specification *)

Record TaskInput := mkInput { i_id : string; i_media_type : string; i_text : string }.

Record TaskSpec := mkSpec {
  t_performer : string;
  t_task_type : string;
  t_objective : string;
  t_inputs : list TaskInput;
  t_deliverables : list Deliverable;
  t_capabilities : list string;
  t_deadline : string;
  t_max_response_bytes : Z;
}.

Record SendPrepared := mkSendPrepared {
  performer_endpoint : string;
  performer_fingerprint : string;
  performer_agent : string;
  performer_issuer : string;
  performer_root : string;
  message_body : bytes;
  contract_digest : string;
  contract_id : string;
  context_id : string;
  message_id : string;
}.

(** The bytes [OsRng] fills in: sixteen for the contract id, eight for each other id. *)
Record Randoms := mkRandoms { rnd_contract : bytes; rnd_message : bytes; rnd_context : bytes }.

(** [Display] of a contract error. *)
Class ContractText := contract_text : ContractError -> string.

(** [serde_json::to_vec] of a [SendMessageRequest], which reads back. *)
Class RequestBytes (V : Type) {ST : CoordEgress.SendText V} := {
  request_vec : Profile.SendMessageRequest (V := V) -> option bytes;
  request_reads : forall r b, request_vec r = Some b -> CoordEgress.read_request b = Some r;
}.

(** One byte of a fixed array, changed. *)
Definition set_byte (i : nat) (f : Z -> Z) (b : bytes) : bytes := alter (fun c => byte_of_Z (f (byte_to_Z c))) i b.

Section send.
Context {HS : Hashes} {HX : Hex} {AE : Aead} {ED : Ed25519} {B64 : Base64} {BU : Keys.Base64Url} {BV : Dsse.Base64Variants}
  {JT : Keys.JwkText} {CN : Canon Json} {SX : IJson.JsonSyntax} {SV : Dsse.Schemas} {FC : FromValue Contract}
  {TE : ToValue Dsse.Envelope} {CP : Codec StorePeers.StoredPeer} {CJ : Codec Json} {CT : ContractText}
  {V : Type} {PS : CoordEgress.ProtoStruct V} {ST : CoordEgress.SendText V} {RB : RequestBytes V}.

(** The version and variant bits, then the groups of a UUID. *)
Definition uuid_v4 (b : bytes) : string :=
  let b := set_byte 6 (fun z => Z.lor (Z.land z 0x0f) 0x40) b in
  let b := set_byte 8 (fun z => Z.lor (Z.land z 0x3f) 0x80) b in
  let group i n := hex_encode (take n (drop i b)) in
  group 0 4 +:+ "-" +:+ group 4 2 +:+ "-" +:+ group 6 2 +:+ "-" +:+ group 8 2 +:+ "-" +:+ group 10 6.

Definition random_id (prefix : string) (b : bytes) : string := prefix +:+ "-" +:+ hex_encode b.

(** ** The contract *)

(** What the contract is drafted from. *)
Record Draft := mkDraft {
  df_spec : TaskSpec; df_requester : Identity; df_performer : Identity; df_contract_id : string; df_message_id : string;
  df_created_at : string;
}.

(** [(i as u32) + 1]. *)
Definition part_index (i : nat) : Z := (Z.of_nat i mod 2 ^ 32 + 1) mod 2 ^ 32.

Definition input_value (message_id : string) (i : nat) (input : TaskInput) : Json :=
  IJson.obj [("id", JStr (i_id input)); ("message_id", JStr message_id); ("part_index", JInt (part_index i));
    ("kind", JStr "text"); ("media_type", JStr (i_media_type input)); ("charset", JStr "utf-8");
    ("canonical_rule", JStr "utf8-exact"); ("byte_length", JInt (Z.of_nat (length (as_bytes (i_text input)))));
    ("sha256", JStr (hex_digest (as_bytes (i_text input)))); ("worker_visible", JBool true); ("processor_visible", JBool false)].

Definition identity_value (i : Identity) : Json :=
  IJson.obj [("issuer", JStr (issuer i)); ("agent", JStr (agent i)); ("root", JStr (root i))].

Definition contract_value (x : Draft) : Json :=
  let spec := df_spec x in
  IJson.obj [("schema_version", JInt 1); ("contract_id", JStr (df_contract_id x)); ("revision", JInt 0);
    ("task_type", JStr (t_task_type spec)); ("message_id", JStr (df_message_id x));
    ("requester", identity_value (df_requester x)); ("performer", identity_value (df_performer x));
    ("objective", JStr (t_objective spec)); ("inputs", JArr (imap (input_value (df_message_id x)) (t_inputs spec)));
    ("deliverables", JArr ((fun d => IJson.obj [("role", JStr (d_role d)); ("media_type", JStr (d_media_type d))]) <$> t_deliverables spec));
    ("evidence_slots", JArr []); ("requested_capabilities", JArr (JStr <$> t_capabilities spec));
    ("processor_constraints", IJson.obj [("disclosure", JStr "none")]);
    ("limits", IJson.obj [("deadline", JStr (t_deadline spec)); ("max_response_bytes", JInt (t_max_response_bytes spec))]);
    ("result_recipient", JStr "request-origin"); ("created_at", JStr (df_created_at x)); ("expires_at", JStr (t_deadline spec))].

(** The message: the proposal's envelope, then each input as a text Part. *)
Definition message_parts (data : V) (inputs : list TaskInput) : list (Part V) :=
  mkMsgPart "" (Some (CData data)) Dsse.DSSE_ENVELOPE_MEDIA_TYPE ::
  ((fun i => mkMsgPart "" (Some (CText (i_text i))) (i_media_type i)) <$> inputs).

Definition proposal_message (data : V) (message_id context_id : string) (inputs : list TaskInput) : Profile.SendMessageRequest (V := V) :=
  Profile.mkRequest (Some (Profile.mkMessage message_id context_id "" [] 0 (message_parts data inputs) [])) None.

(** From the draft to the signed message, with the contract as it parsed. *)
Definition sign_draft (x : Draft) (key : Keys.PurposeKey) (context_id : string) : result Problem (ParsedContract * bytes) :=
  payload ← ok_or (Proposal.canonical_bytes (contract_value x)) internal;
  parsed ← match parse_payload payload with
           | Ok p => Ok p
           | Err e => Err (problem_detail 400 "invalid-task" "the task spec is not a valid contract" (contract_text e))
           end;
  envelope ← match Proposal.sign_proposal payload key with
             | Ok e => Ok e
             | Err _ => Err (problem 500 "sign-failed" "the proposal could not be signed")
             end;
  data ← ok_or (CoordEgress.of_json (to_value envelope)) internal;
  body ← ok_or (request_vec (proposal_message data (df_message_id x) context_id (t_inputs (df_spec x)))) internal;
  Ok (parsed, body).

Section store.
Context (s : Store).

Definition unknown_performer : Problem := problem 409 "unknown-performer"
  "the performer is not a paired peer (or the name is ambiguous — use your label)".
Definition peer_not_active : Problem := problem 409 "peer-not-active" "the performer is not an active peer (suspended or removed)".

(** The performer: by its root, or by a name that only one peer has. *)
Definition find_performer (spec : TaskSpec) (performer_root : option string) : M (option StorePeers.StoredPeer) :=
  match performer_root with
  | Some root => StorePeers.get_peer_by_root s root
  | None => StorePeers.sole_peer_named s (t_performer spec)
  end.

Definition peer_root (peer : StorePeers.StoredPeer) : string := Lifecycle.fp_value (Lifecycle.agent_card_key (StorePeers.identity peer)).

(** The peer as the contract names it. *)
Definition performer_of (peer : StorePeers.StoredPeer) : Identity :=
  mkIdentity (default "" (Lifecycle.p_issuer (StorePeers.identity peer))) (Lifecycle.agent_id (StorePeers.identity peer)) (peer_root peer).

Definition draft_for (local : Identity) (peer : StorePeers.StoredPeer) (spec : TaskSpec) (created_at : string) (rnd : Randoms) : Draft :=
  mkDraft spec local (performer_of peer) (uuid_v4 (rnd_contract rnd)) (random_id "msg" (rnd_message rnd)) created_at.

Definition prepare_send (local : Identity) (proposal_key : Keys.PurposeKey) (spec : TaskSpec) (performer_root : option string)
  (created_at : string) (rnd : Randoms) : H SendPrepared :=
  found ← call (find_performer spec performer_root);
  peer ← require found unknown_performer;
  status ← call (StorePeers.peer_status_by_root (peer_root peer));
  if decide (status <> Some Lifecycle.Active) then raise peer_not_active else
  let x := draft_for local peer spec created_at rnd in
  let context_id := random_id "ctx" (rnd_context rnd) in
  pb ← hlift (sign_draft x proposal_key context_id);
  mret (mkSendPrepared (Lifecycle.endpoint_id (StorePeers.identity peer))
    (Lifecycle.fp_value (Lifecycle.tls_cert (StorePeers.identity peer))) (agent (performer_of peer)) (issuer (performer_of peer))
    (root (performer_of peer)) pb.2 (digest pb.1) (df_contract_id x) context_id (df_message_id x)).

(** What the answer to the POST means; [answer] is what [post_a2a] returned. *)
Definition send_prepared (answer : result Problem (Z * bytes)) : result Problem string :=
  '(status, body) ← answer;
  if decide (status <> 200%Z)
  then Err (problem_detail 502 "send-rejected" "the performer did not accept the proposal"
              ("status " +:+ to_string (Z.to_N status) +:+ ": " +:+ Http.lossy_text body)) else
  task ← ok_or (decode body) (problem 502 "send-io" "the performer sent no A2A Task");
  ok_or (CoordEgress.text_member "id" task) (problem 502 "send-io" "the performer's Task had no id").

Definition sent_request (p : SendPrepared) (task_id : string) : StoreRequester.SentRequest :=
  StoreRequester.mkSentRequest (contract_digest p) task_id (context_id p) (performer_root p) (contract_id p) (performer_agent p)
    (performer_issuer p) (message_id p).

Definition sent_json (p : SendPrepared) (task_id : string) : Json :=
  IJson.obj [("sent", JBool true); ("task_id", JStr task_id); ("contract_id", JStr (contract_id p));
    ("contract_digest", JStr (contract_digest p)); ("performer", JStr (performer_agent p))].

(** One POST: the endpoint, the pinned certificate and the body. *)
Record Post := mkPost { p_endpoint : string; p_fingerprint : string; p_body : bytes }.

(** [run_send], with the posts made; the clock gives a text, if it formats, and the seconds. *)
Definition run_send (local : Identity) (proposal_key : Keys.PurposeKey) (spec : TaskSpec) (performer_root : option string)
  (clock : option string * Z) (rnd : Randoms) (post : Post -> result Problem (Z * bytes)) (gap : Db -> Db) (d : Db) :
  result Problem Json * list Post * Db :=
  match clock.1 with
  | None => (Err internal, [], d)
  | Some created_at =>
      match prepare_send local proposal_key spec performer_root created_at rnd d with
      | (Err p, d1) => (Err p, [], d1)
      | (Ok p, d1) =>
          let out := mkPost (performer_endpoint p) (performer_fingerprint p) (message_body p) in
          match send_prepared (post out) with
          | Err e => (Err e, [out], gap d1)
          | Ok task_id =>
              let '(r, d2) := call (StoreRequester.put_sent_request (sent_request p task_id) clock.2) (gap d1) in
              (match r with Ok _ => Ok (sent_json p task_id) | Err e => Err e end, [out], d2)
          end
      end
  end.
End store.

(** ** What the draft says *)

Definition capability_of (name : string) : option Capability :=
  if decide (name = "respond") then Some Respond
  else if decide (name = "read_supplied_inputs") then Some ReadSuppliedInputs
  else if decide (name = "processor_use") then Some ProcessorUse
  else if decide (name = "artifact_export") then Some ArtifactExport else None.

Definition entry_of (message_id : string) (i : nat) (input : TaskInput) : InputEntry :=
  mkInputEntry (i_id input) message_id (part_index i) Text (i_media_type input) (Some "utf-8") Utf8Exact
    (Z.of_nat (length (as_bytes (i_text input)))) (hex_digest (as_bytes (i_text input))) true false.

(** The typed contract of a draft, if its capabilities are capabilities. *)
Definition contract_of (x : Draft) : option Contract :=
  let spec := df_spec x in
  caps ← mapM capability_of (t_capabilities spec);
  Some (mkContract 1 (df_contract_id x) 0 None (t_task_type spec) (df_message_id x) None None (df_requester x) (df_performer x)
    (t_objective spec) (imap (entry_of (df_message_id x)) (t_inputs spec)) (t_deliverables spec) [] caps (mkConstraints DiscloseNone)
    (mkLimits (t_deadline spec) (t_max_response_bytes spec) None) RequestOrigin None (df_created_at x) (t_deadline spec)).

(** serde reads from the canonical bytes of the draft the fields that were written. *)
Definition reads_back (x : Draft) : Prop := forall b v,
  Proposal.canonical_bytes (contract_value x) = Some b -> IJson.parse b = Ok v -> from_value v = contract_of x.

(** A signed draft: the payload, the envelope over it and the message that carries them. *)
Record signed (x : Draft) (key : Keys.PurposeKey) (context_id : string) (parsed : ParsedContract) (body : bytes) (env : Dsse.Envelope)
  (data : V) : Prop := {
  sg_payload : Proposal.canonical_bytes (contract_value x) = Some (payload parsed);
  sg_parsed : parse_payload (payload parsed) = Ok parsed;
  sg_purpose : Keys.purpose key = Lifecycle.ContractProposal;
  sg_verifies : Dsse.verify env Proposal.proposal_payload_type (public_key (Keys.signing key)) = Ok (payload parsed);
  sg_data : CoordEgress.of_json (to_value env) = Some data;
  sg_body : request_vec (proposal_message data (df_message_id x) context_id (t_inputs (df_spec x))) = Some body;
}.

Lemma sign_draft_Ok x key ctx parsed body : sign_draft x key ctx = Ok (parsed, body) ->
  exists env data, signed x key ctx parsed body env data.
Proof.
  unfold sign_draft. destruct (Proposal.canonical_bytes (contract_value x)) as [b|] eqn:Eb; [|done]. cbn [ok_or mbind result_bind].
  destruct (parse_payload b) as [p|] eqn:Ep; [|done]. cbn [mbind result_bind].
  destruct (Proposal.sign_proposal b key) as [env|] eqn:Es; [|done]. cbn [mbind result_bind].
  destruct (CoordEgress.of_json (to_value env)) as [data|] eqn:Ed; [|done]. cbn [ok_or mbind result_bind].
  destruct (request_vec _) as [body'|] eqn:Er; [|done]. intros [= <- <-].
  assert (payload p = b) as Hb by (apply Proposal.parse_payload_Ok in Ep as (? & _ & _ & _ & _ & ? & _); done).
  unfold Proposal.sign_proposal in Es. rewrite Ep in Es. cbn [Proposal.lift_err mbind result_bind] in Es.
  apply Proposal.lift_err_Ok, Proposal.sign_with_Ok in Es as [Hk ->]. exists (Dsse.sign Proposal.proposal_payload_type b (Keys.signing key)), data.
  split; rewrite ?Hb; try done. apply Dsse.verify_sign_env.
Qed.

Lemma signed_contract x key ctx parsed body env data : signed x key ctx parsed body env data -> reads_back x ->
  contract_of x = Some (contract parsed).
Proof.
  intros [Hp Hq _ _ _ _] Hr. apply Proposal.parse_payload_Ok in Hq as (v & Hv & _ & _ & Hf & _ & _). by rewrite <- (Hr _ _ Hp Hv).
Qed.

(** What is certain of a prepared message. *)
Lemma prepare_send_Ok s local key spec root created rnd d p d1 : prepare_send s local key spec root created rnd d = (Ok p, d1) ->
  d1 = d /\ exists peer parsed env data, find_performer s spec root d = Ok (Some peer, d) /\
    StorePeers.peer_status_by_root (peer_root peer) d = Ok (Some Lifecycle.Active, d) /\
    signed (draft_for local peer spec created rnd) key (random_id "ctx" (rnd_context rnd)) parsed (message_body p) env data /\
    p = mkSendPrepared (Lifecycle.endpoint_id (StorePeers.identity peer)) (Lifecycle.fp_value (Lifecycle.tls_cert (StorePeers.identity peer)))
          (agent (performer_of peer)) (issuer (performer_of peer)) (peer_root peer) (message_body p) (digest parsed)
          (uuid_v4 (rnd_contract rnd)) (random_id "ctx" (rnd_context rnd)) (random_id "msg" (rnd_message rnd)).
Proof.
  unfold prepare_send. assert (Reads (find_performer s spec root)) as Hfr.
  { unfold find_performer, StorePeers.sole_peer_named, StorePeers.get_peer. solve_reads. }
  intros (found & Hf%call_Ok & H)%hread_Ok; [|apply _]. apply hbind_Ok in H as (peer & ? & [-> ->]%require_Ok & H).
  apply hread_Ok in H as (st & Hst%call_Ok & H); [|apply _]. destruct (decide (st <> _)) as [|Heq]; [done|]. apply dec_stable in Heq as ->.
  apply hbind_Ok in H as ([parsed body] & ? & [Hs ->]%hlift_Ok & [-> ->]%mret_Ok). split; [done|].
  apply sign_draft_Ok in Hs as (env & data & Hs). by exists peer, parsed, env, data.
Qed.

Lemma prepare_stops s local key spec root created rnd d e d1 : prepare_send s local key spec root created rnd d = (Err e, d1) -> d1 = d.
Proof.
  intros H. assert (HReads (prepare_send s local key spec root created rnd)) as Hr.
  { unfold prepare_send, find_performer, StorePeers.sole_peer_named, StorePeers.get_peer. solve_reads. }
  specialize (Hr d). by rewrite H in Hr.
Qed.

Lemma put_sent_run (s : Store) req now d : exists d', StoreRequester.put_sent_request req now d = Ok ((), d') /\
  StoreReach.only StoreReach.PRequester d d' /\
  StoreRequester.tbl_sent d' = (insert_or_ignore (StoreRequester.sr_contract_digest req)
    (mkSentRow (StoreRequester.sr_task_id req) (StoreRequester.sr_context_id req) (StoreRequester.sr_contract_id req)
       (StoreRequester.sr_performer_agent req) (StoreRequester.sr_performer_issuer req) (StoreRequester.sr_message_id req)
       (StoreRequester.sr_performer_root req) now) (StoreRequester.tbl_sent d)).1.
Proof.
  assert (exists d', StoreRequester.put_sent_request req now d = Ok ((), d') /\ StoreRequester.tbl_sent d' = (insert_or_ignore
    (StoreRequester.sr_contract_digest req) (mkSentRow (StoreRequester.sr_task_id req) (StoreRequester.sr_context_id req)
       (StoreRequester.sr_contract_id req) (StoreRequester.sr_performer_agent req) (StoreRequester.sr_performer_issuer req)
       (StoreRequester.sr_message_id req) (StoreRequester.sr_performer_root req) now) (StoreRequester.tbl_sent d)).1) as (d' & H & Ht).
  { unfold StoreRequester.put_sent_request. cbv zeta. rewrite bind_gets, bind_modify. case_decide; [run_audit|]; by eexists. }
  exists d'. split_and!; [done| |done].
  eapply (StoreReach.part_steps_only _ _ (StoreReach.requester_local s)). by eapply StoreRequester.rs_sent.
Qed.

(** What a Task sent discloses, and to whom. A send that is refused beforehand posts nothing
    and changes nothing. Otherwise it makes one POST, to the pinned endpoint of a peer that was
    active: the message holds the texts of the specification's inputs and an envelope that
    verifies under this endpoint's proposal key over a contract that names exactly this
    requester, this peer by its root, the digests of those texts and the specification's terms.
    Only if the performer answers with a Task is the request recorded, under the contract's digest
    and beside an earlier record of it; nothing else is written. *)
Theorem send_discloses s local key spec root clock rnd post gap d r posts d' :
  run_send s local key spec root clock rnd post gap d = (r, posts, d') ->
  (posts = [] /\ (exists p, r = Err p) /\ d' = d) \/
  exists created peer parsed body env data, clock.1 = Some created /\
    let x := draft_for local peer spec created rnd in
    let out := mkPost (Lifecycle.endpoint_id (StorePeers.identity peer)) (Lifecycle.fp_value (Lifecycle.tls_cert (StorePeers.identity peer))) body in
    posts = [out] /\ find_performer s spec root d = Ok (Some peer, d) /\
    StorePeers.peer_status_by_root (peer_root peer) d = Ok (Some Lifecycle.Active, d) /\
    signed x key (random_id "ctx" (rnd_context rnd)) parsed body env data /\
    (reads_back x -> contract_of x = Some (contract parsed)) /\
    match r with
    | Err _ => d' = gap d
    | Ok _ => StoreReach.only StoreReach.PRequester (gap d) d' /\ exists task answer, post out = Ok (200%Z, answer) /\
        (j ← decode answer; CoordEgress.text_member "id" j) = Some task /\
        StoreRequester.tbl_sent d' = (insert_or_ignore (digest parsed)
          (mkSentRow task (random_id "ctx" (rnd_context rnd)) (uuid_v4 (rnd_contract rnd)) (agent (performer_of peer))
             (issuer (performer_of peer)) (random_id "msg" (rnd_message rnd)) (peer_root peer) clock.2) (StoreRequester.tbl_sent (gap d))).1
    end.
Proof.
  unfold run_send. destruct clock as [[created|] now]; cbn [fst snd]; [|intros [= <- <- <-]; left; eauto].
  destruct (prepare_send s local key spec root created rnd d) as [[p|e] d1] eqn:Ep.
  2: { apply prepare_stops in Ep as ->. intros [= <- <- <-]. left; eauto. }
  apply prepare_send_Ok in Ep as (-> & peer & parsed & env & data & Hf & Hst & Hs & Hp).
  destruct p as [ep fp ag iss rt body dg ci cx mi]. cbn [message_body] in *. injection Hp as -> -> -> -> -> -> -> -> ->.
  cbn [performer_endpoint performer_fingerprint message_body contract_digest performer_root].
  set (out := mkPost _ _ body). intros H. right. exists created, peer, parsed, body, env, data. split; [done|]. cbv zeta. fold out.
  assert (posts = [out]) as -> by (repeat case_match; by simplify_eq). do 4 (split; [done|]). split; [by eapply signed_contract|].
  destruct (send_prepared (post out)) as [task|e] eqn:Esp; [|by injection H as <- <-].
  match type of H with context [StoreRequester.put_sent_request ?q _] =>
    destruct (put_sent_run s q now (gap d)) as (d2 & Hput & Ho & Ht) end.
  rewrite (proj2 (call_Ok _ _ _ _) Hput) in H. injection H as <- <-. split; [done|]. exists task.
  unfold send_prepared in Esp. destruct (post out) as [[st answer]|]; [|done]. cbn [mbind result_bind] in Esp.
  destruct (decide (st <> 200%Z)) as [|Hn]; [done|]. apply dec_stable in Hn as ->. exists answer. split; [done|]. split; [|exact Ht].
  destruct (decode answer) as [j|]; [|done]. cbn [ok_or mbind result_bind option_bind] in *. by apply ok_or_Ok in Esp.
Qed.

(** ** The manifest and the Parts agree *)

Definition part_of (message_id : string) (k : Z) (i : nat) (input : TaskInput) : Proposal.InputPart :=
  Proposal.mkPart message_id (k + Z.of_nat i) (i_media_type input) (Proposal.BText (i_text input)).

(** An input that cannot be taken for an envelope. *)
Definition plain (i : TaskInput) : Prop := i_media_type i <> Dsse.DSSE_ENVELOPE_MEDIA_TYPE.

#[local] Existing Instance CoordEgress.struct_value.

Lemma texts_separated mid inputs : forall k, Forall plain inputs -> (0 <= k)%Z -> (k + Z.of_nat (length inputs) <= 2 ^ 32)%Z ->
  Proposal.separated (V := V) mid k ((fun i => mkMsgPart "" (Some (CText (i_text i))) (i_media_type i)) <$> inputs) []
    (imap (part_of mid k) inputs).
Proof.
  induction inputs as [|x inputs IH]; intros k Hp Hk Hl; [constructor|]. inversion Hp as [|? ? H1 H2]; subst. rewrite fmap_cons, imap_cons.
  cbn [length] in Hl. unfold part_of at 1. rewrite Z.add_0_r. rewrite <- (Z.mod_small k (2 ^ 32)) at 2 by lia. constructor; [exact H1|].
  rewrite (imap_ext _ (part_of mid (k + 1)) inputs); [apply IH; [done|lia..]|]. intros i y _. unfold part_of. cbn. f_equal. lia.
Qed.

Lemma draft_separated mid env data inputs : Proposal.parse_envelope data = Ok env -> Forall plain inputs ->
  (Z.of_nat (length inputs) < 2 ^ 32)%Z ->
  Proposal.separated mid 0 (message_parts data inputs) [env] (imap (part_of mid 1) inputs).
Proof. intros He Hp Hl. apply Proposal.sep_envelope; [exact He|]. apply texts_separated; [done|lia..]. Qed.

Lemma part_index_small i : (Z.of_nat i < 2 ^ 32 - 1)%Z -> part_index i = (1 + Z.of_nat i)%Z.
Proof. intros H. unfold part_index. rewrite (Z.mod_small (Z.of_nat i)), Z.mod_small by lia. lia. Qed.

Lemma index_coords mid inputs : (Z.of_nat (length inputs) < 2 ^ 32)%Z ->
  Proposal.entry_coords <$> imap (entry_of mid) inputs = Proposal.part_coords <$> imap (part_of mid 1) inputs /\
  NoDup (Proposal.part_coords <$> imap (part_of mid 1) inputs).
Proof.
  intros Hl. rewrite !fmap_imap. split.
  - apply imap_ext. intros i x Hi%lookup_lt_Some. unfold Proposal.entry_coords, Proposal.part_coords. cbn.
    by rewrite part_index_small by lia.
  - apply NoDup_alt. intros i j c. rewrite !list_lookup_imap. unfold Proposal.part_coords.
    destruct (inputs !! i), (inputs !! j); cbn; try done. intros [= <-] [= H]. lia.
Qed.

Lemma draft_bound mid inputs : (Z.of_nat (length inputs) < 2 ^ 32)%Z ->
  Proposal.bound (imap (entry_of mid) inputs) (imap (part_of mid 1) inputs).
Proof.
  intros Hl. destruct (index_coords mid inputs Hl) as [Hc Hn].
  assert (forall i x, inputs !! i = Some x -> entry_of mid i x ∈ imap (entry_of mid) inputs /\ part_of mid 1 i x ∈ imap (part_of mid 1) inputs /\
    Proposal.entry_coords (entry_of mid i x) = Proposal.part_coords (part_of mid 1 i x)) as Hin.
  { intros i x Hx. split_and!; try (eapply list_elem_of_lookup_2; rewrite list_lookup_imap, Hx; done).
    apply lookup_lt_Some in Hx. unfold Proposal.entry_coords, Proposal.part_coords. cbn. by rewrite part_index_small by lia. }
  split_and!; [by rewrite Hc|done|..]; intros y (i & x & -> & Hx)%elem_of_lookup_imap; destruct (Hin i x Hx) as (He & Hp & Heq).
  - exists (entry_of mid i x). split_and!; [done..|]. split_and!; [done..|]. by exists (as_bytes (i_text x)).
  - by exists (part_of mid 1 i x).
Qed.

(** ** The performer's copy of the inputs *)

Section performer.
Context (s : Store) (nonces : nat -> bytes) (t : string).

(** The row of an input, as it is opened again. *)
Definition stored_input (i : nat) (x : TaskInput) : StoreRequester.TaskInput :=
  StoreRequester.mkTaskInput (i_id x) (as_i64 (Z.of_nat i)) (i_media_type x) (as_i64 (Z.of_nat (length (as_bytes (i_text x)))))
    (hex_digest (as_bytes (i_text x))) (as_bytes (i_text x)).

Definition input_row (i : nat) (x : TaskInput) : TaskInputRow :=
  mkTaskInputRow (as_i64 (Z.of_nat i)) (i_media_type x) (as_i64 (Z.of_nat (length (as_bytes (i_text x)))))
    (hex_digest (as_bytes (i_text x))) (seal s StoreRequester.TASK_INPUT_CONTEXT (nonces i) (as_bytes (i_text x))).

(** The table after the inputs from ordinal [i] on were put: a row that is there stays. *)
Fixpoint inputs_table (i : nat) (l : list TaskInput) (m : gmap (string * string) TaskInputRow) : gmap (string * string) TaskInputRow :=
  match l with
  | [] => m
  | x :: l => inputs_table (S i) l (insert_or_ignore (t, i_id x) (input_row i x) m).1
  end.

Lemma put_input_run i x now d : exists d', StoreRequester.put_task_input s (nonces i) t (stored_input i x) now d = Ok ((), d') /\
  StoreReach.only StoreReach.PRequester d d' /\
  StoreRequester.tbl_inputs d' = (insert_or_ignore (t, i_id x) (input_row i x) (StoreRequester.tbl_inputs d)).1.
Proof.
  assert (exists d', StoreRequester.put_task_input s (nonces i) t (stored_input i x) now d = Ok ((), d') /\
    StoreRequester.tbl_inputs d' = (insert_or_ignore (t, i_id x) (input_row i x) (StoreRequester.tbl_inputs d)).1) as (d' & H & Ht).
  { unfold StoreRequester.put_task_input. cbv zeta. rewrite bind_modify. run_audit. by eexists. }
  exists d'. split_and!; [done| |done].
  eapply (StoreReach.part_steps_only _ _ (StoreReach.requester_local s)). by eapply StoreRequester.rs_input.
Qed.

(** The loop over a manifest whose entries' Parts are all there. *)
Lemma persist_run received now mid l : forall i d,
  (forall j x, l !! j = Some x -> Receive.entry_part received (entry_of mid (i + j) x) = Some (part_of mid 1 (i + j) x)) ->
  exists d', Receive.persist_inputs s nonces t received now i (imap (fun j => entry_of mid (i + j)) l) d = (Ok (), d') /\
    StoreReach.only StoreReach.PRequester d d' /\
    StoreRequester.tbl_inputs d' = inputs_table i l (StoreRequester.tbl_inputs d).
Proof.
  induction l as [|x l IH]; intros i d Hp; [by exists d|]. rewrite imap_cons. cbn [Receive.persist_inputs inputs_table].
  rewrite Nat.add_0_r. pose proof (Hp 0 x eq_refl) as H0. rewrite Nat.add_0_r in H0. cbn [entry_of in_worker_visible].
  fold (entry_of mid i x). rewrite H0. cbn [mbind option_bind part_of Proposal.ip_body Proposal.part_bytes].
  destruct (put_input_run i x now d) as (d1 & Hput & Ho & Ht).
  rewrite (hbind_run _ _ _ () d1) by (by apply run_Ok).
  destruct (IH (S i) d1) as (d2 & H2 & Ho2 & Ht2).
  { intros j y Hy. rewrite Nat.add_succ_comm. by apply (Hp (S j)). }
  exists d2. split_and!; [|by etrans|by rewrite Ht2, Ht].
  rewrite <- H2. f_equal. apply imap_ext. intros j y _. cbn. by rewrite Nat.add_succ_r.
Qed.

Definition of_task (k : string * string) (_ : TaskInputRow) : bool := bool_decide (k.1 = t).

Definition row_of (i : nat) (x : TaskInput) : string * string * TaskInputRow := (t, i_id x, input_row i x).

Lemma no_rows m : (forall k, k.1 = t -> m !! k = None) -> rows_where of_task m = [].
Proof.
  intros Hm. destruct (rows_where of_task m) as [|[k v] r] eqn:E; [done|].
  assert ((k, v) ∈ rows_where of_task m) as [Hk Hb]%elem_of_rows_where by (rewrite E; left).
  apply bool_decide_eq_true in Hb. by rewrite Hm in Hk.
Qed.

Lemma inputs_rows l : forall i m, NoDup (i_id <$> l) -> (forall x, x ∈ l -> m !! (t, i_id x) = None) ->
  rows_where of_task (inputs_table i l m) ≡ₚ rows_where of_task m ++ imap (fun j => row_of (i + j)) l.
Proof.
  induction l as [|x l IH]; intros i m Hn Hf; [by rewrite app_nil_r|]. rewrite fmap_cons, NoDup_cons in Hn. destruct Hn as [Hni Hn].
  cbn [inputs_table]. unfold insert_or_ignore. rewrite (Hf x) by left. cbn [fst]. rewrite IH; [|done|].
  - rewrite rows_where_insert by (apply Hf; left). unfold of_task at 1. cbn [fst]. rewrite bool_decide_eq_true_2 by done.
    rewrite imap_cons, Nat.add_0_r. change (t, i_id x, input_row i x) with (row_of i x). cbn [app].
    rewrite <- Permutation_middle. rewrite (imap_ext ((fun j => row_of (i + j)) ∘ S) (fun j => row_of (S i + j)) l); [done|].
    intros j y _. cbn. by rewrite Nat.add_succ_r.
  - intros y Hy. rewrite lookup_insert_ne; [by apply Hf; right|]. intros [= Heq]. apply Hni. rewrite Heq. by apply list_elem_of_fmap_2.
Qed.

Lemma ordered_rows l : (Z.of_nat (length l) < 2 ^ 63)%Z -> forall rows, rows ≡ₚ imap row_of l ->
  StoreRequester.order_by (fun kv : string * string * TaskInputRow => ti_ordinal kv.2) rows = imap row_of l.
Proof.
  intros Hl rows Hp. assert (forall i x, l !! i = Some x -> ti_ordinal (row_of i x).2 = Z.of_nat i) as Ho.
  { intros i x Hi%lookup_lt_Some. cbn. apply as_i64_small. unfold in_i64, i64_min, i64_max. lia. }
  apply (StronglySorted_unique_strong (StoreRequester.column_le (fun kv : string * string * TaskInputRow => ti_ordinal kv.2))).
  - intros a b Ha Hb H1 H2. rewrite StoreRequester.order_by_perm, Hp in Ha.
    apply elem_of_lookup_imap in Ha as (i & x & -> & Hi), Hb as (j & y & -> & Hj). unfold StoreRequester.column_le in *.
    rewrite (Ho _ _ Hi), (Ho _ _ Hj) in H1, H2. assert (i = j) as -> by lia. by rewrite Hi in Hj; injection Hj as ->.
  - assert (Transitive (StoreRequester.column_le (fun kv : string * string * TaskInputRow => ti_ordinal kv.2)))
      by (intros a b c; unfold StoreRequester.column_le; lia). apply (StronglySorted_merge_sort _).
  - assert (forall k, (Z.of_nat (k + length l) < 2 ^ 63)%Z -> StronglySorted (StoreRequester.column_le
      (fun kv : string * string * TaskInputRow => ti_ordinal kv.2)) (imap (fun i => row_of (k + i)) l)) as H; [|by apply (H 0)].
    clear. induction l as [|x l IH]; intros k Hk; [constructor|]. rewrite imap_cons. constructor.
    + rewrite (imap_ext _ (fun i => row_of (S k + i)) l); [apply IH; cbn in Hk; lia|]. intros i y _. cbn. by rewrite Nat.add_succ_r.
    + apply Forall_forall. intros y (i & z & -> & Hi%lookup_lt_Some)%elem_of_lookup_imap. unfold StoreRequester.column_le. cbn.
      rewrite !as_i64_small by (unfold in_i64, i64_min, i64_max; cbn in Hk; lia). lia.
  - by rewrite StoreRequester.order_by_perm.
Qed.

(** A performer that had nothing of the Task lists the texts, in the order they were given. *)
Lemma inputs_listed l d m : (Z.of_nat (length l) < 2 ^ 63)%Z -> NoDup (i_id <$> l) -> (forall k, k.1 = t -> m !! k = None) ->
  (forall i, length (nonces i) = Envelope.NONCE_LEN) -> Forall (fun x => Z.of_nat (length (as_bytes (i_text x))) <= aead_limit)%Z l ->
  StoreRequester.tbl_inputs d = inputs_table 0 l m -> StoreRequester.list_task_inputs s t d = Ok (imap stored_input l, d).
Proof.
  intros Hl Hn Hm Hnonce Hfit Ht. unfold StoreRequester.list_task_inputs. rewrite bind_gets, Ht. fold of_task.
  rewrite (ordered_rows l Hl).
  - unfold lift. enough (StoreContracts.collect (StoreRequester.open_input s) (imap row_of l) = Ok (imap stored_input l)) as -> by done.
    rewrite (StoreContracts.collect_Ok _ (fun kv => StoreRequester.mkTaskInput kv.1.2 (ti_ordinal kv.2) (ti_media_type kv.2) (ti_byte_length kv.2)
      (ti_sha256 kv.2) (default [] (match open_col s StoreRequester.TASK_INPUT_CONTEXT (ti_payload kv.2) with Ok p => Some p | Err _ => None end)))).
    + f_equal. rewrite fmap_imap. apply imap_ext. intros i x Hi. cbn. rewrite open_col_seal; [done..|].
      rewrite Forall_forall in Hfit. by apply Hfit, list_elem_of_lookup_2 with i.
    + intros a (i & x & -> & Hi)%elem_of_lookup_imap. unfold StoreRequester.open_input. cbn [row_of fst snd input_row ti_payload ti_ordinal
        ti_media_type ti_byte_length ti_sha256]. rewrite open_col_seal; [done..|].
      rewrite Forall_forall in Hfit. by apply Hfit, list_elem_of_lookup_2 with i.
  - rewrite inputs_rows; [|done|intros x _; by apply Hm]. by rewrite (no_rows m Hm).
Qed.

(** Of two inputs with one id, which the manifest admits ([draft_bound]), only the first is kept. *)
Lemma second_lost x y m : i_id y = i_id x -> (forall k, k.1 = t -> m !! k = None) ->
  rows_where of_task (inputs_table 0 [x; y] m) = [row_of 0 x].
Proof.
  intros Hid Hm. apply Permutation_singleton_r. cbn [inputs_table]. unfold insert_or_ignore. rewrite Hm by done. cbn [fst].
  rewrite Hid, lookup_insert_eq. cbn [fst]. rewrite rows_where_insert by (by apply Hm). unfold of_task at 1. cbn [fst].
  rewrite bool_decide_eq_true_2 by done. by rewrite (no_rows m Hm).
Qed.
End performer.
End send.

(** ** A Task from one daemon to another *)

Lemma find_only {A} (p : A -> bool) (l : list A) x : x ∈ l -> p x = true -> (forall y, y ∈ l -> p y = true -> y = x) -> List.find p l = Some x.
Proof.
  intros Hx Hp Hu. destruct (List.find p l) as [y|] eqn:E.
  - apply find_some in E as [Hy%list_elem_of_In Hpy]. by rewrite (Hu y).
  - rewrite (find_none _ _ E x) in Hp; [done|]. by apply list_elem_of_In.
Qed.

Section delegation.
#[local] Existing Instance CoordEgress.struct_value.
Context {HS : Hashes} {HX : Hex} {AE : Aead} {ED : Ed25519} {B64 : Base64} {BU : Keys.Base64Url} {BV : Dsse.Base64Variants}
  {JT : Keys.JwkText} {CN : Canon Json} {SX : IJson.JsonSyntax} {SV : Dsse.Schemas} {FC : FromValue Contract}
  {TE : ToValue Dsse.Envelope} {TM : Rfc3339} {TT : Daemon.TimeText} {FS : Evidence.FromSlice}
  {TR : ToValue Evidence.ResultManifest} {TO : ToValue Evidence.Outcome} {CE : Codec Dsse.Envelope}
  {CC : Codec Delivery.CoveredValues} {CJ : Codec Json} {CB : Codec Problem} {RT : Receive.ReceiveText}
  {V : Type} {PS : CoordEgress.ProtoStruct V} {ST : CoordEgress.SendText V} {RB : RequestBytes V} {CT : ContractText}
  {CH : Codec Keys.ProtectedHeader} {TI : Introduction.Instants} {CK : Profile.CardJson}
  {TK : ToValue Introduction.KeyBindingSet} {CP : Codec StorePeers.StoredPeer} {CHe : Codec Introduction.Hello}
  {CM : Codec Introduction.IntroMaterial} {IT : Server.IntroText} {PR : Server.PeerResolver}.

Lemma part_found received mid l i x : (Z.of_nat (length l) < 2 ^ 32)%Z -> Proposal.r_inputs received = imap (part_of mid 1) l ->
  l !! i = Some x -> Receive.entry_part received (entry_of mid i x) = Some (part_of mid 1 i x).
Proof.
  intros Hl Hr Hx. unfold Receive.entry_part. rewrite Hr. pose proof (lookup_lt_Some _ _ _ Hx) as Hi. apply find_only.
  - eapply list_elem_of_lookup_2. by rewrite list_lookup_imap, Hx.
  - apply bool_decide_eq_true. unfold Proposal.part_coords, Proposal.entry_coords. cbn. by rewrite part_index_small by lia.
  - intros y (j & z & -> & Hj)%elem_of_lookup_imap. rewrite bool_decide_eq_true. unfold Proposal.part_coords, Proposal.entry_coords. cbn.
    rewrite part_index_small by lia. intros [= H]. assert (j = i) as -> by lia. congruence.
Qed.

(** The head a first proposal leaves. *)
Definition submitted_head (p : ParsedContract) (ctx origin : string) : HeadRow :=
  mkHeadRow (Contract.contract_id (contract p)) 0 (digest p) "open" ctx origin.

Lemma submit_new s nonce t p origin exp now d : revision (contract p) = 0%Z -> StoreContracts.tbl_heads d !! t = None ->
  exists d', StoreContracts.submit_revision s nonce t p origin exp now d = Ok (Advance (mkHead 0 (digest p)), d') /\
    StoreReach.only StoreReach.PContracts d d' /\
    StoreContracts.tbl_heads d' !! t = Some (submitted_head p "" origin).
Proof.
  intros Hz Ht. assert (exists d', StoreContracts.submit_revision s nonce t p origin exp now d = Ok (Advance (mkHead 0 (digest p)), d') /\
    StoreContracts.tbl_heads d' !! t = Some (submitted_head p "" origin)) as (d' & H & Hh).
  { unfold StoreContracts.submit_revision. rewrite (bind_run _ _ d Empty d).
    2: { unfold StoreContracts.contract_head. rewrite bind_gets, Ht. done. }
    unfold apply_revision. rewrite Hz, decide_True by done. rewrite !bind_modify. run_audit. eexists. split; [done|].
    match goal with |- StoreContracts.tbl_heads ?x !! t = _ => change (StoreContracts.tbl_heads x) with
      (<[t := StoreContracts.advanced_row p (mkHead 0 (digest p)) origin (StoreContracts.tbl_heads d !! t)]> (StoreContracts.tbl_heads d)) end.
    rewrite lookup_insert_eq, Ht. done. }
  exists d'. split_and!; [done| |done]. by eapply (proj1 (Receive.submit_local s nonce t p origin exp now)).
Qed.

(** A receivable first proposal is submitted, with its inputs. *)
Lemma dispatch_run s n c parts ctx key from me b now d received expires mid l :
  let p := Proposal.r_proposal received in let t := Receive.task_id_of p in
  StoreInbox.sighting d (Receive.message_key c) = None ->
  Proposal.receive_proposal (Delivery.message_id c) parts key from me now = Ok received ->
  Proposal.expires_at_unix (contract p) = Ok expires -> revision (contract p) = 0%Z ->
  inputs (contract p) = imap (entry_of mid) l -> Proposal.r_inputs received = imap (part_of mid 1) l ->
  (Z.of_nat (length l) < 2 ^ 32)%Z -> StoreContracts.tbl_heads d !! t = None ->
  exists d', Receive.dispatch_proposal s n c parts ctx key from me b now d =
      (Ok (Receive.mkDispatched (Receive.Submitted t) (Receive.submitted_task_json t ctx)), d') /\
    StoreContracts.tbl_heads d' !! t = Some (submitted_head p ctx (Delivery.peer c)) /\
    StoreRequester.tbl_inputs d' = inputs_table s (Receive.sl_input n) t 0 l (StoreRequester.tbl_inputs d).
Proof.
  intros p t Hn Hr He Hz Hin Hparts Hl Ht. unfold Receive.dispatch_proposal. rewrite (hbind_run _ _ _ StoreInbox.Fresh d).
  2: { apply run_Ok. rewrite StoreInbox.peek_run. unfold Receive.message_key in Hn. by rewrite Hn. }
  rewrite Hr. fold p. rewrite He. fold t.
  destruct (submit_new s (Receive.sl_contract n) t p (Delivery.peer c) expires now d Hz Ht) as (d1 & H1 & Ho1 & Hh1).
  rewrite (hbind_run _ _ _ _ _ (proj2 (run_Ok _ _ _ _) H1)).
  set (d2 := StoreContracts.on_heads (alter (StoreContracts.set_context ctx) t) d1).
  rewrite (hbind_run _ _ _ () d2) by (apply run_Ok; done).
  assert (StoreReach.only StoreReach.PContracts d1 d2) as Ho2 by (eapply (proj1 (Receive.context_local t ctx)); done).
  destruct (persist_run s (Receive.sl_input n) t received now mid l 0 d2) as (d3 & H3 & Ho3 & Hi3).
  { intros j x Hx. by apply part_found with l. }
  unfold Receive.persist_worker_inputs. fold p. rewrite Hin. change (imap (entry_of mid) l) with (imap (fun j => entry_of mid (0 + j)) l).
  rewrite (hbind_run _ _ _ _ _ H3).
  assert (StoreInbox.sighting d3 (Receive.message_key c) = None) as Hn3.
  { rewrite <- Hn. apply Receive.same_sighting. unfold Receive.same_inbox.
    rewrite (StoreReach.only_inbox _ _ _ Ho3), (StoreReach.only_inbox _ _ _ Ho2), (StoreReach.only_inbox _ _ _ Ho1) by done. done. }
  rewrite (hbind_run _ _ _ _ _ (Receive.commit_run _ _ _ _ _ _ _ _ _ Hn3)). eexists. split; [reflexivity|].
  change (StoreContracts.tbl_heads (StoreInbox.on_inbox _ d3)) with (StoreContracts.tbl_heads d3).
  change (StoreRequester.tbl_inputs (StoreInbox.on_inbox _ d3)) with (StoreRequester.tbl_inputs d3). split.
  - unfold StoreContracts.tbl_heads. rewrite (StoreReach.only_contracts _ _ _ Ho3) by done.
    change (contract_heads (contracts_db d2)) with (alter (StoreContracts.set_context ctx) t (StoreContracts.tbl_heads d1)).
    rewrite lookup_alter_eq, Hh1. done.
  - rewrite Hi3. unfold StoreRequester.tbl_inputs.
    by rewrite (StoreReach.only_requester _ _ _ Ho2), (StoreReach.only_requester _ _ _ Ho1) by done.
Qed.

Section exchange.
(** The requester, which has prepared the message [p]. *)
Context (sa : Store) (local : Identity) (key : Keys.PurposeKey) (spec : TaskSpec) (performer : option string) (created : string)
  (rnd : Randoms) (da : Db) (p : SendPrepared).
Hypothesis prepared : prepare_send sa local key spec performer created rnd da = (Ok p, da).
Hypothesis inputs_plain : Forall plain (t_inputs spec).
Hypothesis inputs_named : NoDup (i_id <$> t_inputs spec).
Hypothesis inputs_count : (Z.of_nat (length (t_inputs spec)) < 2 ^ 32)%Z.
Hypothesis inputs_fit : Forall (fun x => Z.of_nat (length (as_bytes (i_text x))) <= aead_limit)%Z (t_inputs spec).
Hypothesis message_fits : (Z.of_nat (length (message_body p)) <= Server.MAX_RECEIVE_BODY)%Z.

(** The wire: serde reads the contract that was drafted, an envelope survives the protobuf
    value, and the JSON of a Task holds its id. *)
Hypothesis wire_contract : forall peer, find_performer sa spec performer da = Ok (Some peer, da) ->
  reads_back (draft_for local peer spec created rnd).
Hypothesis wire_envelope : forall env data, CoordEgress.of_json (to_value env) = Some data -> Proposal.parse_envelope data = Ok env.
Hypothesis wire_task : forall t ctx, exists j, decode (Receive.submitted_task_json t ctx) = Some j /\ CoordEgress.text_member "id" j = Some t.

(** The performer: the peer that the message was prepared for, which has the requester as a
    pinned peer with its proposal key. *)
Context (sb : Store) (st : Server.ReceiveState) (path fp : string) (source : IpAddr) (exporter : option bytes).
Hypothesis here : Server.rs_local_performer st = mkIdentity (performer_issuer p) (performer_agent p) (performer_root p).
Hypothesis path_a2a : Server.is_intro path = false.
Hypothesis ext_profile : forall x, x ∈ Server.rs_required_extensions st -> x ∈ Dsse.required_extension_uris.

Definition knows_requester (d : Db) : Prop :=
  Server.resolve d fp = Some (Server.mkPeerContext local (Keys.verifying key) (root local)).

Lemma prepared_message : exists peer parsed env data,
  signed (draft_for local peer spec created rnd) key (context_id p) parsed (message_body p) env data /\
  contract_of (draft_for local peer spec created rnd) = Some (contract parsed) /\ digest parsed = contract_digest p /\
  performer_of peer = mkIdentity (performer_issuer p) (performer_agent p) (performer_root p) /\
  df_message_id (draft_for local peer spec created rnd) = message_id p /\
  df_contract_id (draft_for local peer spec created rnd) = contract_id p.
Proof.
  destruct (prepare_send_Ok _ _ _ _ _ _ _ _ _ _ prepared) as (_ & peer & parsed & env & data & Hfound & _ & Hs & Hp).
  exists peer, parsed, env, data. split; [by rewrite Hp; cbn [context_id message_body]; rewrite Hp in Hs|].
  split; [by eapply signed_contract, wire_contract|]. rewrite Hp. split_and!; reflexivity.
Qed.

(** The message as the performer reads it. *)
Let m (data : V) : Profile.Message (V := V) := Profile.mkMessage (message_id p) (context_id p) "" [] 0 (message_parts data (t_inputs spec)) [].

Lemma texts_no_envelope l : omap Receive.part_envelope
  ((fun i : TaskInput => mkMsgPart (V := V) "" (Some (CText (i_text i))) (i_media_type i)) <$> l) = [].
Proof. induction l as [|x l IH]; [done|]. cbn. unfold Receive.part_envelope at 1. cbn. destruct (decide _); exact IH. Qed.

Lemma texts_no_dispatch l : omap CoordEgress.part_dispatch
  ((fun i : TaskInput => mkMsgPart (V := V) "" (Some (CText (i_text i))) (i_media_type i)) <$> l) = [].
Proof. induction l as [|x l IH]; [done|]. cbn. unfold CoordEgress.part_dispatch at 1. cbn. destruct (decide _); exact IH. Qed.

Lemma message_read parsed env data peer :
  signed (draft_for local peer spec created rnd) key (context_id p) parsed (message_body p) env data ->
  df_message_id (draft_for local peer spec created rnd) = message_id p ->
  Receive.message_of (message_body p) = Some (m data) /\ Receive.result_manifest_envelope (message_parts data (t_inputs spec)) = None /\
  CoordEgress.coord_dispatch_envelope (message_parts data (t_inputs spec)) = None.
Proof.
  intros [_ _ _ Hv Hd Hb] Hm. rewrite Hm in Hb. apply request_reads in Hb. split_and!.
  - unfold Receive.message_of. by rewrite Hb.
  - unfold Receive.result_manifest_envelope, message_parts. cbn [omap list_omap]. unfold Receive.part_envelope at 1.
    cbn [Proposal.media_type Proposal.content]. rewrite decide_False by (intros H; by apply H).
    pose proof (wire_envelope _ _ Hd) as He. unfold Proposal.parse_envelope in He. destruct (Proposal.to_json data) as [j|]; [|done].
    cbn [mbind option_bind ok_or result_bind] in *. apply ok_or_Ok in He. rewrite He, texts_no_envelope. cbn [List.find].
    apply Dsse.verify_Ok in Hv as (? & ? & _ & -> & _). by rewrite bool_decide_eq_false_2.
  - unfold CoordEgress.coord_dispatch_envelope, message_parts. cbn [omap list_omap]. unfold CoordEgress.part_dispatch at 1.
    cbn [Proposal.media_type]. rewrite decide_True by done. by rewrite texts_no_dispatch.
Qed.

(** When the contract may be received. *)
Definition timely (now : Z) : Prop := exists c e, Proposal.parse_rfc3339 created = Some c /\ Proposal.parse_rfc3339 (t_deadline spec) = Some e /\
  (c < e)%Z /\ (c - Proposal.NOT_YET_VALID_LEEWAY_SECS <= now < e)%Z.

Lemma message_receivable parsed env data peer now :
  signed (draft_for local peer spec created rnd) key (context_id p) parsed (message_body p) env data ->
  contract_of (draft_for local peer spec created rnd) = Some (contract parsed) ->
  df_message_id (draft_for local peer spec created rnd) = message_id p -> timely now ->
  Proposal.receive_proposal (message_id p) (message_parts data (t_inputs spec)) (Keys.verifying key) local (performer_of peer) now =
    Ok (Proposal.mkReceived parsed (imap (part_of (message_id p) 1) (t_inputs spec))) /\
  revision (contract parsed) = 0%Z /\ inputs (contract parsed) = imap (entry_of (message_id p)) (t_inputs spec) /\
  Contract.contract_id (contract parsed) = df_contract_id (draft_for local peer spec created rnd) /\
  exists e, Proposal.expires_at_unix (contract parsed) = Ok e.
Proof.
  intros [_ Hpar Hpur Hv Hd _] Hc Hm (c & e & Hcr & Hex & Hlt & Hw). unfold contract_of in Hc. destruct (mapM _ _) as [caps|]; [|done].
  cbn [mbind option_bind] in Hc. apply (inj Some) in Hc. cbv zeta in Hc. rewrite Hm in Hc. split_and!; try (by rewrite <- Hc); [|exists e; unfold Proposal.expires_at_unix, Proposal.parse_time; rewrite <- Hc; cbn; by rewrite Hex].
  apply Proposal.receive_proposal_Ok. exists env, (payload parsed). cbn [Proposal.r_inputs Proposal.r_proposal]. split_and!.
  - apply draft_separated; [by apply wire_envelope|done|done].
  - done.
  - by apply Dsse.verify_Ok.
  - by apply Proposal.parse_payload_Ok.
  - by rewrite <- Hc.
  - by rewrite <- Hc.
  - rewrite <- Hc. by apply draft_bound.
  - exists c, e. by rewrite <- Hc.
Qed.

(** C7. A Task gets through. The message an honest requester prepared is accepted by the performer it
    is for: the performer answers 200, has the Task submitted under the requester's root, open at
    the contract's digest, and will stage for its worker exactly the texts of the specification,
    in their order; and the requester, given that answer, records the request under the contract's
    digest with the Task the performer named, which is what a result will be matched to. *)
Theorem task_delegated n wall now meanwhile rates slot d d1 r rates' slot' d2 :
  let t := "task-" +:+ String.substring 0 32 (contract_digest p) in
  (forall i, length (Receive.sl_input n i) = Envelope.NONCE_LEN) ->
  knows_requester (meanwhile d) -> Server.peer_known d fp = true -> StoreMeta.trusted_now wall (meanwhile d) = Ok (now, d1) -> timely now ->
  StoreInbox.sighting d1 (root local, message_id p) = None -> StoreContracts.tbl_heads d1 !! t = None ->
  (forall k, k.1 = t -> StoreRequester.tbl_inputs d1 !! k = None) ->
  Server.handle sb st n (Server.posted path (message_body p) fp source exporter) wall meanwhile rates slot d = (r, rates', slot', d2) ->
  Server.rp_status r = 200%Z /\
  StoreContracts.tbl_heads d2 !! t = Some (mkHeadRow (contract_id p) 0 (contract_digest p) "open" (context_id p) (root local)) /\
  StoreRequester.list_task_inputs sb t d2 = Ok (imap stored_input (t_inputs spec), d2) /\
  forall gap now_a, StoreRequester.tbl_sent (gap da) !! contract_digest p = None ->
    exists da', run_send sa local key spec performer (Some created, now_a) rnd (fun _ => Ok (Server.rp_status r, Server.rp_body r)) gap da =
      (Ok (sent_json p t), [mkPost (performer_endpoint p) (performer_fingerprint p) (message_body p)], da') /\
      StoreRequester.get_sent_request (contract_digest p) da' = Ok (Some (sent_request p t), da').
Proof.
  intros t Hnonce Hkn Hk Ht Htime Hseen Hhead Hrows.
  destruct prepared_message as (peer & parsed & env & data & Hs & Hc & Hdg & Hperf & Hmid & Hcid).
  destruct (message_read _ _ _ _ Hs Hmid) as (Hm & Hnr & Hnd).
  destruct (message_receivable _ _ _ _ now Hs Hc Hmid Htime) as (Hrec & Hz & Hin & Hci & e & He).
  destruct (Server.handle_posted (root local) (message_body p) message_fits sb st path fp source exporter path_a2a n wall meanwhile rates slot d now d1)
    as (pc & Hres & _ & ->); [by split; [eexists; split; [exact Hkn|]|]|done|].
  unfold knows_requester in Hkn. rewrite Hkn in Hres. injection Hres as <-.
  set (config := Server.config_of _ _ _ _). set (req := Server.posted_request _ _).
  assert (Receive.first_contact config req (m data) d1) as Hf.
  { split; [vm_compute; reflexivity|]. do 2 (split; [done|]). split; [|done]. eapply Server.posted_gates; [exact ext_profile|reflexivity]. }
  rewrite (Receive.first_contact_run _ _ _ _ _ _ _ Hf). unfold Receive.handle_accepted. cbn [Profile.parts m]. rewrite Hnd.
  set (c := Receive.covered_of _).
  destruct (dispatch_run sb n c (message_parts data (t_inputs spec)) (context_id p) (Keys.verifying key) local (Server.rs_local_performer st)
    (message_body p) now d1 (Proposal.mkReceived parsed (imap (part_of (message_id p) 1) (t_inputs spec))) e (message_id p) (t_inputs spec))
    as (d' & Hrun & Hhd & Hins); try done; [by rewrite here, <- Hperf|by cbn; unfold Receive.task_id_of; rewrite Hdg|].
  cbn [Proposal.r_proposal] in Hhd, Hrun, Hins. unfold Receive.task_id_of in Hhd, Hrun, Hins. rewrite Hdg in Hhd, Hrun, Hins. fold t in Hhd, Hrun, Hins.
  rewrite (hbind_run _ _ _ _ _ Hrun). cbn [Receive.outcome Receive.response]. intros [= <- <- <- <-].
  cbn [Server.rp_status Server.rp_body Server.reply Receive.status Receive.body]. split_and!; [done|..].
  - rewrite Hhd. unfold submitted_head. by rewrite Hdg, Hci, Hcid.
  - by eapply inputs_listed; [lia|..].
  - intros gap now_a Hnone. unfold run_send. cbn [fst snd]. rewrite prepared. destruct (wire_task t (context_id p)) as (j & Hj & Hid).
    unfold send_prepared at 1. cbn [mbind result_bind]. rewrite decide_False by (intros H; by apply H). rewrite Hj. cbn [ok_or mbind result_bind].
    rewrite Hid. cbn [ok_or]. destruct (put_sent_run sa (sent_request p t) now_a (gap da)) as (da' & Hput & _ & Hsent).
    rewrite (proj2 (call_Ok _ _ _ _) Hput). exists da'. split; [done|]. unfold StoreRequester.get_sent_request, gets. rewrite Hsent.
    unfold insert_or_ignore. cbn [sent_request StoreRequester.sr_contract_digest]. rewrite Hnone. cbn [fst]. by rewrite lookup_insert_eq.
Qed.
End exchange.
End delegation.

(** ** Witnesses: Alice sends Bob a Task *)

Section sample.
#[local] Existing Instances ToyHashes ToyHex ToyAead ToyEd25519 ToyBase64 ToyBase64Url ToyVariants ToyJwkText ToySchemas ToySyntax
  Evidence.ToySlice Daemon.ToyTimes Daemon.ToyTimeText CoordEgress.ToyStruct CoordEgress.ToySend CoordEgress.struct_value
  Server.ToyIntro Server.StorePeerResolver Introduction.sample_card_json Introduction.sample_header Introduce.sample_hello_codec
  Introduce.sample_material_codec Introduce.sample_instants Introduce.sample_sets.
#[local] Instance send_canon : Canon Json := ToyCanon Json.
#[local] Instance send_json : Codec Json := ToyCodec Json.
#[local] Instance send_problems : Codec Problem := ToyCodec Problem.
#[local] Instance send_covered : Codec Delivery.CoveredValues := ToyCodec Delivery.CoveredValues.
#[local] Instance send_manifests : ToValue Evidence.ResultManifest := Proposal.ToyToValue Evidence.ResultManifest.
#[local] Instance send_outcomes : ToValue Evidence.Outcome := Proposal.ToyToValue Evidence.Outcome.
#[local] Instance send_envelopes : Codec Dsse.Envelope := ToyCodec Dsse.Envelope.
#[local] Instance send_values : ToValue Dsse.Envelope := Proposal.ToyToValue Dsse.Envelope.
#[local] Instance send_peers : Codec StorePeers.StoredPeer := ToyCodec StorePeers.StoredPeer.
#[local] Instance send_texts : ContractText := fun _ => "refused".

#[local] Instance send_bytes : RequestBytes Json.
Proof.
  refine {| request_vec := fun r => Some (put (JStr (from_utf8 (put r)))) |}. intros r b H0. apply (inj Some) in H0 as <-.
  unfold CoordEgress.read_request, CoordEgress.ToySend. pose proof (get_put (JStr (from_utf8 (put r))) []) as H. rewrite app_nil_r in H. rewrite H, as_bytes_from_utf8.
  pose proof (get_put r []) as H'. rewrite app_nil_r in H'. by rewrite H'.
Defined.

(** The JSON of a Task, with its id. *)
#[local] Instance send_tasks : Receive.ReceiveText := {|
  Receive.submitted_task_json := fun t c => encode (IJson.obj [("id", JStr t); ("contextId", JStr c)]);
  Receive.receive_error_text := fun _ => "refused"; Receive.timestamp_error_text := fun _ => "time" |}.

Definition sample_local : Identity := mkIdentity "iss" "alice" "root-a".
Definition sample_bob : StorePeers.StoredPeer := StorePeers.mkStoredPeer (Lifecycle.sample_peer "root-b" "bob" "cert-b") "".

Definition sample_spec : TaskSpec :=
  mkSpec "bob" "review" "look" [mkInput "a" "text/plain" "one"; mkInput "b" "text/plain" "two"] [mkDeliverable "report" "text/plain"]
    ["respond"; "read_supplied_inputs"] (Daemon.time_text 8000) 1024.

Definition sample_randoms : Randoms := mkRandoms (repeat "r"%char 16) (repeat "m"%char 8) (repeat "x"%char 8).

Definition sample_draft : Draft := draft_for sample_local sample_bob sample_spec (Daemon.time_text 0) sample_randoms.

#[local] Instance send_contracts : FromValue Contract := {| Proposal.from_value := fun _ => contract_of sample_draft |}.

(** Bob is a peer of Alice's. *)
Definition d_alice : Db :=
  StorePeers.after (StorePeers.commit_introduced_peer StorePeers.sample_store StorePeers.sample_nonce "root-b" 1 sample_bob [] 11)
    (StorePeers.after (StorePeers.add_peer_import "root-b" "b" "host:1" 10) empty_db).

Definition sample_key : Keys.PurposeKey := Keys.from_seed Lifecycle.ContractProposal (as_bytes "seed").

Definition sample_send : result Problem Json * list Post * Db :=
  run_send StorePeers.sample_store sample_local sample_key sample_spec None (Some (Daemon.time_text 0), 20%Z) sample_randoms
    (fun _ => Ok (200%Z, Receive.submitted_task_json "task-1" "c")) (fun d => d) d_alice.

Lemma went_out {A B D E : Type} (x : result A B * list D * E) : length x.1.2 = 1 -> exists r y d', x = (r, [y], d').
Proof. destruct x as [[r [|y [|]]] d']; try done. eauto. Qed.

Lemma send_discloses_witness : exists r x d', sample_send = (r, [x], d') /\ p_fingerprint x = "cert-b".
Proof.
  destruct (went_out sample_send ltac:(vm_compute; reflexivity)) as (r & x & d' & E). exists r, x, d'. split; [exact E|]. unfold sample_send in E.
  destruct (send_discloses _ _ _ _ _ _ _ _ _ _ _ _ _ E) as [(H & _)|(created & peer & parsed & body & env & data & _ & Hx & Hf & _)];
    [discriminate H|]. injection Hx as ->. cbn [p_fingerprint].
  assert (find_performer StorePeers.sample_store sample_spec None d_alice = Ok (Some sample_bob, d_alice)) as Hb by (vm_compute; reflexivity).
  rewrite Hb in Hf. injection Hf as <-. reflexivity.
Defined.

Definition sample_prepared : SendPrepared :=
  match (prepare_send StorePeers.sample_store sample_local sample_key sample_spec None (Daemon.time_text 0) sample_randoms d_alice).1 with
  | Ok p => p
  | Err _ => mkSendPrepared "" "" "" "" "" [] "" "" "" ""
  end.

Lemma sample_prepared_ok :
  prepare_send StorePeers.sample_store sample_local sample_key sample_spec None (Daemon.time_text 0) sample_randoms d_alice =
    (Ok sample_prepared, d_alice).
Proof.
  assert (is_ok (prepare_send StorePeers.sample_store sample_local sample_key sample_spec None (Daemon.time_text 0) sample_randoms d_alice).1 = true)
    as H by (vm_compute; reflexivity).
  unfold sample_prepared. destruct (prepare_send _ _ _ _ _ _ _ _) as [[p|e] d1] eqn:E; [|discriminate H].
  destruct (prepare_send_Ok _ _ _ _ _ _ _ _ _ _ E) as [-> _]. reflexivity.
Qed.

Lemma sample_plain : Forall plain (t_inputs sample_spec).
Proof. repeat constructor; intros H; vm_compute in H; discriminate H. Qed.

Lemma sample_named : NoDup (i_id <$> t_inputs sample_spec).
Proof. apply (bool_decide_unpack (NoDup _)). vm_compute. reflexivity. Qed.

Lemma sample_fit : Forall (fun x => Z.of_nat (length (as_bytes (i_text x))) <= aead_limit)%Z (t_inputs sample_spec).
Proof. repeat constructor; apply Z.leb_le; vm_compute; reflexivity. Qed.

Lemma sample_fits : (Z.of_nat (length (message_body sample_prepared)) <=? Server.MAX_RECEIVE_BODY)%Z = true.
Proof. vm_compute. reflexivity. Qed.

Lemma sample_found : find_performer StorePeers.sample_store sample_spec None d_alice = Ok (Some sample_bob, d_alice).
Proof. vm_compute. reflexivity. Qed.

Lemma sample_reads peer : find_performer StorePeers.sample_store sample_spec None d_alice = Ok (Some peer, d_alice) ->
  reads_back (draft_for sample_local peer sample_spec (Daemon.time_text 0) sample_randoms).
Proof. rewrite sample_found. intros [= <-] b v _ _. reflexivity. Qed.

Lemma sample_carried env data : CoordEgress.of_json (to_value env) = Some data -> Proposal.parse_envelope data = Ok env.
Proof.
  intros H. assert (data = to_value env) as -> by (apply (inj Some); symmetry; exact H). unfold Proposal.parse_envelope.
  change (Proposal.to_json (to_value env)) with (Some (to_value env)). cbn [ok_or mbind result_bind]. by rewrite Proposal.from_to_value.
Qed.

Lemma sample_task t ctx : exists j, decode (Receive.submitted_task_json t ctx) = Some j /\ CoordEgress.text_member "id" j = Some t.
Proof. exists (IJson.obj [("id", JStr t); ("contextId", JStr ctx)]). split; [apply decode_encode|reflexivity]. Qed.

Lemma sample_knows : knows_requester sample_local sample_key "cert-a" Server.d_known.
Proof. vm_compute. reflexivity. Qed.

Lemma sample_timely : timely sample_spec (Daemon.time_text 0) 50.
Proof. exists 0%Z, 8000%Z. split_and!; [vm_compute; reflexivity..|lia|unfold Proposal.NOT_YET_VALID_LEEWAY_SECS; lia|lia]. Qed.

Definition sample_exchange : Server.Reply * Server.Rates * Introduce.IntroConnState * Db :=
  Server.handle StorePeers.sample_store Server.sample_state Receive.sample_seals
    (Server.posted "/a2a" (message_body sample_prepared) "cert-a" Server.sample_source None) 50 (fun d => d) ∅ Introduce.Fresh Server.d_known.

Lemma sample_fresh : StoreInbox.sighting Server.d_clock ("root-a", message_id sample_prepared) = None /\
  StoreContracts.tbl_heads Server.d_clock = ∅ /\ StoreRequester.tbl_inputs Server.d_clock = ∅.
Proof. vm_compute. auto. Qed.

Lemma task_delegated_witness : exists r rates slot d2, sample_exchange = (r, rates, slot, d2) /\ Server.rp_status r = 200%Z /\
  StoreRequester.list_task_inputs StorePeers.sample_store ("task-" +:+ String.substring 0 32 (contract_digest sample_prepared)) d2 =
    Ok (imap stored_input (t_inputs sample_spec), d2).
Proof.
  destruct sample_exchange as [[[r rates] slot] d2] eqn:E. exists r, rates, slot, d2. split; [reflexivity|]. unfold sample_exchange in E.
  destruct sample_fresh as (F1 & F2 & F3).
  destruct (task_delegated StorePeers.sample_store sample_local sample_key sample_spec None (Daemon.time_text 0) sample_randoms d_alice
    sample_prepared sample_prepared_ok sample_plain sample_named ltac:(vm_compute; reflexivity) sample_fit (proj1 (Z.leb_le _ _) sample_fits)
    sample_reads sample_carried sample_task StorePeers.sample_store Server.sample_state "/a2a" "cert-a" Server.sample_source None
    ltac:(vm_compute; reflexivity) eq_refl (fun x Hx => Hx) Receive.sample_seals 50 50 (fun d => d) ∅ Introduce.Fresh Server.d_known Server.d_clock
    r rates slot d2 (fun _ => eq_refl) sample_knows Server.ex_known Server.ex_time sample_timely F1
    ltac:(rewrite F2; reflexivity) ltac:(intros k _; rewrite F3; reflexivity) E) as (H1 & _ & H2 & _).
  split; [exact H1|exact H2].
Defined.
End sample.
End Send.
